(* ===== verification/_CoqProject ===== *)
-Q . S2P
Prelude.v
Ieee.v
Rounding.v
Ratio.v
FloatBias.v
CMonad.v
CMemory.v
CBuffer.v
Ctype.v
CString.v
CStdlib.v
CSort.v
Printf.v
Kernel.v
RcFs.v
FileServer.v
Ram.v
RcFd.v
FloatScan.v
DecRing.v
DecScale.v
DecDigits.v
DecRound.v
DecValue.v
DecCases.v
FloatHex.v
FloatDec.v
FmtFp.v
FloatRoundtrip.v
Errno.v
Locale.v
RcMalloc.v
RcNet.v
RcSocket.v
RcPosix.v
RcDns.v
FdTable.v
Stdio.v
Scanf.v
Inttypes.v
StreamType.v
Wchar.v
RcEnv.v
EnvMap.v
Time.v
Start.v
RcProc.v
RcSignal.v
RcPthread.v
Stubs.v
Fenv.v
MathH.v
