(* ===== verification/Prelude.v ===== *)
(** * The C library of racccoon, verified

    racccoon is an operating system for RISC-V.  Its kernel, servers and shell are
    written in C3; the programs that are not (TinyCC, LLVM, Lua, the C compiler
    itself) run on a C library of its own, lib/racccoon-libc under src/, which is
    what this development models: POSIX files, processes, sockets, signals and
    threads, stdio, and the string, number and sorting functions, all on top of a
    small message-passing kernel.

    ** How the code is put together, and where it is modelled

    Every file of the library is one file here, or two where it has two parts; the
    names of functions, constants and struct members are those of the C code.

    - [Prelude] (this file): machine integers, byte strings, lists with [Z]
      indices, their lemmas and tactics ([zlen_lia], the hint database [rc]).
    - [CMonad]: the monad the C code is written in (returns, ends the process, has
      undefined behaviour, runs out of fuel), loops, a total-correctness logic
      ([wp], [wp_loop]), equations of execution ([bind_run], [loop_steps],
      [loop_to_run]), invariants ([keeps]), refinement of an abstract
      specification by a sequence of calls ([implements]), and lenses that run a
      component inside a larger state.
    - [CMemory], [CBuffer]: byte-addressed memory with C strings in it; strings,
      arrays and message buffers as values where nothing aliases them.
    - [Ctype] (ctype.c), [CString] (string.c, on memory), [CStdlib] (the numbers of
      stdlib.c), [CSort] (qsort and bsearch, on memory), [Wchar] (wchar.c),
      [Errno] (errno.c), [Locale] (locale.c), [Fenv] (fenv.c), [Time] (time.c).
    - [Kernel] (syscall.c and include/racccoon/syscall.h): the interface to the
      kernel, a class with an operation per system call and the heap's.
      [RcFs] (rc_fs.c) is the client side of the file protocol, on it;
      [FileServer] states what the file servers answer as laws on an abstract view
      of the file system, and proves the calls of RcFs against them.  Where a path
      is bound to several servers, a union, the calls that read go to its first
      member ([srv]) and those that create or write to the one that receives
      creation ([srv_c]); nothing relates the two.  [Ram] is a kernel and servers
      that satisfy the laws, with a union and an /env, for the witnesses.
    - [RcFd], [RcPosix] (rc_posix.c): the descriptor table, and open, read, write,
      lseek, dup, stat, unlink, ftruncate and the rest; [RcNet], [RcSocket],
      [RcDns] (rc_socket.c): sockets, addresses, the resolver.  [FdTable] runs
      all of them as one state machine.
    - [Printf] (printf.c), [Scanf] (scanf.c), [Stdio] (stdio.c).  [StreamType] runs
      the three as one state machine over the table of open streams.  [Inttypes]
      (inttypes.h, stdint.h, limits.h) are the integer types with the macros that
      make formats for them; [MathH] (math.h) the macros that classify and compare
      floats and doubles by their bits.
    - [FloatScan] (floatscan.c: strtod, strtof, strtold) and [FmtFp] (fmt_fp.inc:
      the floating-point conversions of printf), in the arithmetic of [Ieee], for
      which [Rounding], [Ratio] (quotients) and [FloatBias] (rounding by adding
      and subtracting a large number, as the code does) have the lemmas.
      [FloatHex] proves the reading of hexadecimal constants, [FloatRoundtrip]
      that of what %a prints.  [FloatDec] proves the reading of decimal
      constants; its parts follow decfloat: [DecDigits] the digits into the ring
      of base-10^9 limbs, [DecRing] the ring as a list and the scaling loops with
      their end, [DecScale] the point, the zeros and the first 113 bits,
      [DecRound] the last rounding, [DecValue] that it is the quotient's,
      [DecCases] the cases that need no ring.
    - [RcEnv] (rc_env.c), with [EnvMap], the map its calls implement over the /env
      server, whose answers are the laws of the class [EnvServer]; [Start] (libc_start.c, exit.c, atexit), [RcProc] (rc_proc.c),
      [RcSignal] (rc_signal.c), [RcPthread] (rc_pthread.c), [RcMalloc]
      (rc_malloc.c), [Stubs] (assert.c, dlfcn.c, rc_glob_popen.c).

    The states nest as the statics of the files do: the kernel's [K]; [posix K]
    adds errno and the descriptor table; [stream K] and [stdio K] add one stream
    and all of them; [prog K A], [proc K], [sigs K A] add the atexit table, the
    children, the signal table.  A call downwards is [zoom] along a lens ([sys],
    [os], [px], [io]).  Function pointers (comparison functions, exit and signal
    handlers, a thread's function) are computations on the caller's state, so they
    may call back into the library.  For the states a program with signal handlers
    can reach, program and handlers are syntax, [RcSignal.code]: any tree of calls
    and uses of the program's own state.

    ** Conventions

    The target is LP64 RISC-V; [char] is unsigned.  An integer is its value in [Z]
    and a conversion is written out ([u8], [u32], [s32], [u64], [s64]).  Signed
    overflow, an access outside an object, a read of an uninitialised or a freed
    one is [Fault], so a theorem that a call returns says that it has none of
    them.  A loop has 2^64 turns of fuel; no loop of this code can use them, since
    each counts through an object of a 64-bit address space, and every theorem
    proves that its loops end before ([wp_loop] asks for a decreasing measure
    below 2^64), so that [Diverge] is never assumed away.  Only the invariants of
    reachable states speak of the calls that returned; the one on streams says of
    each of them that the store the next output makes is in the buffer, unless an
    error was recorded on the stream, after which it need not be
    ([fputc_after_error_overflows]).

    ** What the theorems show

    - Round trips: execve's blob is what crt0 reads ([execve_correct]); what fwrite
      and write put in a file, fread and read get back, where the path's first
      union member is the one that receives creation ([stdio_roundtrip],
      [write_seek_read_roundtrip]; elsewhere they do not,
      [union_write_read_apart]); what snprintf prints, strtoll and sscanf read
      ([snprintf_strtoll_roundtrip], [sscanf_snprintf_roundtrip], but for LLONG_MIN
      and the width INT_MIN, which printf overflows on, and with 511 characters at
      most for sscanf), for every integer type through the macros of inttypes.h
      ([inttypes_roundtrip]); addresses print and parse ([inet_roundtrip]);
      multibyte and wide strings ([mbstowcs_wcstombs_roundtrip]); every double
      printed with %a is read back by strtod, bit for bit or, of a NaN, as the
      positive quiet NaN ([percent_a_roundtrip]).
    - Refinements of abstract specifications: signal sets are finite sets
      ([sigset_refines]), thread keys a finite map ([pthread_keys_refine]), the
      environment a map from names to the values it has for them, over the shell's
      store and on a heap that may refuse ([env_refines]), the buffer of
      snprintf a prefix of the full text ([snprintf_correct]), rc_normalize a walk
      of directories ([rc_normalize_correct]), strtoull a reading of numbers
      ([strtoull_correct]).
    - Invariants of every reachable state: the descriptor table
      ([reachable_table_ok]), the open streams ([reachable_streams_typed]), the
      signal table ([reachable_sigs_ok]).
    - Correct rounding: strtod and strtof of decimal constants of up to 16000
      digits ([strtod_decimal], [strtof_decimal]) and of every hexadecimal one
      ([strtod_hex], [strtof_hex]) give the nearest number, by the division and
      the rounding of the Standard Library's [SpecFloat], but for the defects
      that are stated.
    - Functional correctness on every branch: read, write, fgets, qsort, bsearch,
      memmove, strstr, strtok_r, exit, fork and waitpid, signal delivery, threads
      and mutexes, the DNS query and reply, swprintf, strerror_r, the comparison
      macros of math.h ([comparison_macros_correct]).
    - Safety against hostile input: any bytes as a DNS reply
      ([dns_reply_safe]), any name as a question ([dns_question_correct]).
    - Behaviour in error, the defects among it: execve_too_big,
      ftruncate_large_shrink_fails, mkstemp_collision_fails,
      fputc_after_error_overflows, union_create_not_found,
      unsetenv_duplicate_shows, printf_llong_min_faults, and the lemmas the
      findings name.

    A theorem about files assumes what [FileServer] says of the servers; one that
    allocates assumes that the heap serves it, and says so, but for [env_refines]
    and [reachable_streams_typed], which hold whatever the heap does.  The
    numbered ones that have a hypothesis have a witness at a concrete input, in
    the same file.

    ** What is not modelled

    - The allocator, dlmalloc.inc: Doug Lea's, vendored.  It is a parameter,
      [heap_alloc].
    - [Printf], [Scanf] and [Wchar] take the floating-point conversions as
      parameters ([fmt_fp], [strtold] and its siblings), so that their theorems
      hold whatever those do; [FmtFp] and [FloatScan] are what they are.
    - The kernel, the servers, the shell and the drivers: C3.  The Go port: Go.
    - Assembly: crt0's first instructions, ecall, setjmp, the cache flush.
    - The functions of math.h: musl's, which is not in the repository.  Six of
      them floatscan.c and fmt_fp.inc use; [Ieee] defines those by the C standard.
      __fpclassifyl and __signbitl are parameters of [MathH].  The exception flags
      of the floating-point arithmetic.
    - That the decimal conversions of fmt_fp.inc (%e, %f, %g) print the nearest
      decimal: they are modelled and run, but only %a has a theorem.
    - Headers beyond the constants, macros and structs the code uses.  Link-time
      stubs of ported programs.
    - Copying functions of [Wchar] do not see overlapping arrays, which C leaves
      undefined for them; freeing memory is modelled where a use after it matters
      ([RcEnv], [RcPthread]), and is a no-op elsewhere. *)
From stdpp Require Export base list numbers gmap strings.
From Stdlib Require Strings.Byte.
From Stdlib Require Export ZArith Lia.

#[global] Open Scope Z_scope.

(** [lia] reasons about [/] and [mod] too. *)
Ltac Zify.zify_post_hook ::= Z.to_euclidean_division_equations.

(** ** Machine integers

    The C code is compiled for LP64 RISC-V: [char] is unsigned and 8 bits wide,
    [int] 32 bits, [long], [long long] and pointers 64 bits.  Integers are [Z];
    a conversion to a w-bit type is the wrap-around written out. *)

Definition u8 (x : Z) : Z := x mod 256.
Definition u16 (x : Z) : Z := x mod 65536.
Definition u32 (x : Z) : Z := x mod 4294967296.
Definition u64 (x : Z) : Z := x mod 18446744073709551616.
Definition s32 (x : Z) : Z := (x + 2147483648) mod 4294967296 - 2147483648.
Definition s64 (x : Z) : Z :=
  (x + 9223372036854775808) mod 18446744073709551616 - 9223372036854775808.

Definition INT_MAX : Z := 2147483647.
Definition INT_MIN : Z := - 2147483648.
Definition LLONG_MAX : Z := 9223372036854775807.
Definition LLONG_MIN : Z := - 9223372036854775808.
Definition SIZE_MAX : Z := 18446744073709551615.

(** A byte value. *)
Abbreviation is_byte b := (0 ≤ b < 256).

Create HintDb rc discriminated.

Lemma u8_range x : is_byte (u8 x).
Proof. unfold u8. lia. Qed.

Lemma u8_id x : is_byte x → u8 x = x.
Proof. unfold u8. lia. Qed.

Lemma u32_id x : 0 ≤ x < 4294967296 → u32 x = x.
Proof. unfold u32. lia. Qed.

Lemma u64_id x : 0 ≤ x < 18446744073709551616 → u64 x = x.
Proof. unfold u64. lia. Qed.

Lemma s32_id x : INT_MIN ≤ x ≤ INT_MAX → s32 x = x.
Proof. unfold s32, INT_MIN, INT_MAX. lia. Qed.

Lemma s64_id x : LLONG_MIN ≤ x ≤ LLONG_MAX → s64 x = x.
Proof. unfold s64, LLONG_MIN, LLONG_MAX. lia. Qed.

Lemma s64_u64 x : - 9223372036854775808 ≤ x ≤ 9223372036854775807 → s64 (u64 x) = x.
Proof. unfold s64, u64. lia. Qed.

Lemma s32_range x : INT_MIN ≤ s32 x ≤ INT_MAX.
Proof. unfold s32, INT_MIN, INT_MAX. lia. Qed.

#[export] Hint Resolve u8_range s32_range : rc.

(** ** C strings and buffers as lists of byte values *)

Abbreviation bytes := (list Z).

Definition zlen {A} (l : list A) : Z := Z.of_nat (length l).

(** [l[i]] with a C index: [None] out of range. *)
Definition idx {A} (l : list A) (i : Z) : option A :=
  if decide (i < 0) then None else l !! Z.to_nat i.

(** [l[i] = x]: [None] out of range. *)
Definition upd {A} (l : list A) (i : Z) (x : A) : option (list A) :=
  if decide (0 ≤ i < zlen l) then Some (<[Z.to_nat i := x]> l) else None.

Definition takeZ {A} (n : Z) (l : list A) : list A := take (Z.to_nat n) l.
Definition dropZ {A} (n : Z) (l : list A) : list A := drop (Z.to_nat n) l.

Lemma zlen_nil {A} : zlen (@nil A) = 0.
Proof. reflexivity. Qed.

Lemma zlen_cons {A} (x : A) l : zlen (x :: l) = 1 + zlen l.
Proof. unfold zlen. simpl. lia. Qed.

Lemma zlen_app {A} (l1 l2 : list A) : zlen (l1 ++ l2) = zlen l1 + zlen l2.
Proof. unfold zlen. rewrite length_app. lia. Qed.

Lemma zlen_nonneg {A} (l : list A) : 0 ≤ zlen l.
Proof. unfold zlen. lia. Qed.

Lemma zlen_replicate {A} n (x : A) : zlen (replicate n x) = Z.of_nat n.
Proof. unfold zlen. by rewrite length_replicate. Qed.

Lemma zlen_map {A B} (f : A → B) l : zlen (map f l) = zlen l.
Proof. unfold zlen. by rewrite length_map. Qed.

Lemma zlen_takeZ {A} n (l : list A) : 0 ≤ n ≤ zlen l → zlen (takeZ n l) = n.
Proof. unfold zlen, takeZ. rewrite length_take. lia. Qed.

Lemma zlen_dropZ {A} n (l : list A) : 0 ≤ n ≤ zlen l → zlen (dropZ n l) = zlen l - n.
Proof. unfold zlen, dropZ. rewrite length_drop. lia. Qed.

Lemma idx_Some_range {A} (l : list A) i x : idx l i = Some x → 0 ≤ i < zlen l.
Proof.
  unfold idx, zlen. case_decide; [done|]. intros Hi%lookup_lt_Some. lia.
Qed.

Lemma idx_is_Some {A} (l : list A) i : 0 ≤ i < zlen l → is_Some (idx l i).
Proof.
  unfold idx, zlen. intros. rewrite decide_False by lia. apply lookup_lt_is_Some. lia.
Qed.

Lemma idx_None {A} (l : list A) i : i < 0 ∨ zlen l ≤ i → idx l i = None.
Proof.
  unfold idx, zlen. intros. case_decide; [done|]. apply lookup_ge_None_2. lia.
Qed.

Lemma idx_cons_S {A} (x : A) l i : 0 < i → idx (x :: l) i = idx l (i - 1).
Proof.
  intros. unfold idx. rewrite !decide_False by lia.
  replace (Z.to_nat i) with (S (Z.to_nat (i - 1))) by lia. done.
Qed.

Lemma idx_app_l {A} (l1 l2 : list A) i : i < zlen l1 → idx (l1 ++ l2) i = idx l1 i.
Proof.
  unfold idx, zlen. intros. case_decide; [done|]. apply lookup_app_l. lia.
Qed.

Lemma idx_app_r {A} (l1 l2 : list A) i : zlen l1 ≤ i → idx (l1 ++ l2) i = idx l2 (i - zlen l1).
Proof.
  unfold idx, zlen. intros. rewrite !decide_False by lia.
  rewrite lookup_app_r by lia. f_equal. lia.
Qed.

Lemma idx_middle {A} (l1 : list A) x l2 : idx (l1 ++ x :: l2) (zlen l1) = Some x.
Proof. rewrite idx_app_r by lia. rewrite Z.sub_diag. done. Qed.

Lemma idx_of_nat {A} (l : list A) (n : nat) : idx l (Z.of_nat n) = l !! n.
Proof. unfold idx. rewrite decide_False by lia. by rewrite Nat2Z.id. Qed.

Lemma takeZ_snoc {A} (l : list A) i x :
  idx l i = Some x → takeZ (i + 1) l = takeZ i l ++ [x].
Proof.
  intros H. pose proof (idx_Some_range _ _ _ H). unfold idx, takeZ in *.
  rewrite decide_False in H by lia.
  replace (Z.to_nat (i + 1)) with (S (Z.to_nat i)) by lia.
  by apply take_S_r.
Qed.

Lemma takeZ_all {A} (l : list A) n : zlen l ≤ n → takeZ n l = l.
Proof. unfold takeZ, zlen. intros. apply take_ge. lia. Qed.

Lemma upd_Some {A} (l : list A) i x :
  0 ≤ i < zlen l → upd l i x = Some (<[Z.to_nat i := x]> l).
Proof. intros. unfold upd. by rewrite decide_True. Qed.

(** Closes goals of linear arithmetic on list lengths. *)
Ltac zlen_lia :=
  repeat match goal with
  | |- context [zlen (@nil ?A)] => change (zlen (@nil A)) with 0
  | |- context [zlen (_ :: _)] => rewrite zlen_cons
  | |- context [zlen (_ ++ _)] => rewrite zlen_app
  | |- context [zlen (replicate _ _)] => rewrite zlen_replicate
  | |- context [zlen (map _ _)] => rewrite zlen_map
  | H : context [zlen (@nil ?A)] |- _ => change (zlen (@nil A)) with 0 in H
  | H : context [zlen (_ :: _)] |- _ => rewrite zlen_cons in H
  | H : context [zlen (_ ++ _)] |- _ => rewrite zlen_app in H
  | H : context [zlen (replicate _ _)] |- _ => rewrite zlen_replicate in H
  | H : context [zlen (map _ _)] |- _ => rewrite zlen_map in H
  end;
  repeat match goal with
  | l : list _ |- _ =>
      lazymatch goal with H : 0 ≤ zlen l |- _ => fail | _ => pose proof (zlen_nonneg l) end
  | |- context [zlen ?l] =>
      lazymatch goal with H : 0 ≤ zlen l |- _ => fail | _ => pose proof (zlen_nonneg l) end
  | _ : context [zlen ?l] |- _ =>
      lazymatch goal with H : 0 ≤ zlen l |- _ => fail | _ => pose proof (zlen_nonneg l) end
  end; lia.

(** A NUL-free byte string: the contents of a C string. *)
Definition c_chars (s : bytes) : Prop := Forall (λ b, 0 < b < 256) s.

Lemma c_chars_app s1 s2 : c_chars (s1 ++ s2) ↔ c_chars s1 ∧ c_chars s2.
Proof. apply Forall_app. Qed.

(** A string literal of the C source. *)
Definition str (s : string) : bytes := map (λ b, Z.of_N (Byte.to_N b)) (String.list_byte_of_string s).

(** The prefix of a buffer before its first NUL: what C reads as a string. *)
Fixpoint c_str (buf : bytes) : bytes :=
  match buf with
  | [] => []
  | b :: rest => if b =? 0 then [] else b :: c_str rest
  end.

Lemma c_str_app_nul s rest : c_chars s → c_str (s ++ 0 :: rest) = s.
Proof.
  induction 1 as [|b s Hb Hs IH]; simpl; [done|].
  destruct (Z.eqb_spec b 0); [lia|]. by rewrite IH.
Qed.

(** [sliceZ i n l]: the [n] elements of [l] from index [i] on. *)
Definition sliceZ {A} (i n : Z) (l : list A) : list A := takeZ n (dropZ i l).

Lemma zlen_pos {A} (l : list A) : l ≠ [] → 0 < zlen l.
Proof. destruct l; [done|]. rewrite zlen_cons. pose proof (zlen_nonneg l). lia. Qed.

Lemma zlen_takeZ_le {A} n (l : list A) : 0 ≤ n → zlen (takeZ n l) ≤ n.
Proof. intros. unfold zlen, takeZ. rewrite length_take. lia. Qed.

Lemma takeZ_replicate {A} n k (x : A) : takeZ n (replicate k x) = replicate (Z.to_nat n `min` k)%nat x.
Proof. unfold takeZ. by rewrite take_replicate. Qed.

Lemma takeZ_app_r {A} n (l1 l2 : list A) : zlen l1 ≤ n → takeZ n (l1 ++ l2) = l1 ++ takeZ (n - zlen l1) l2.
Proof.
  unfold zlen, takeZ. intros. rewrite take_app, take_ge by lia. do 2 f_equal. lia.
Qed.

Lemma zlen_sliceZ {A} i n (l : list A) :
  0 ≤ i → 0 ≤ n → i + n ≤ zlen l → zlen (sliceZ i n l) = n.
Proof. intros. unfold sliceZ. rewrite zlen_takeZ; [done|]. rewrite zlen_dropZ; lia. Qed.

Lemma takeZ_slice {A} i n (l : list A) :
  0 ≤ i → 0 ≤ n → takeZ (i + n) l = takeZ i l ++ sliceZ i n l.
Proof.
  intros. unfold sliceZ, takeZ, dropZ. rewrite Z2Nat.inj_add by lia.
  by rewrite take_take_drop.
Qed.

Lemma idx_dropZ {A} i j (l : list A) : 0 ≤ i → 0 ≤ j → idx (dropZ i l) j = idx l (i + j).
Proof.
  intros. unfold idx, dropZ. rewrite !decide_False by lia.
  rewrite lookup_drop. f_equal. lia.
Qed.

Lemma idx_takeZ {A} n i (l : list A) : i < n → idx (takeZ n l) i = idx l i.
Proof.
  intros. unfold idx, takeZ. case_decide; [done|]. apply lookup_take_lt. lia.
Qed.

Lemma idx_takeZ_ge {A} n i (l : list A) : 0 ≤ n ≤ i → idx (takeZ n l) i = None.
Proof.
  intros. unfold idx, takeZ. rewrite decide_False by lia. apply lookup_take_ge. lia.
Qed.

Lemma idx_sliceZ {A} i n j (l : list A) : 0 ≤ i → 0 ≤ j < n → idx (sliceZ i n l) j = idx l (i + j).
Proof. intros. unfold sliceZ. rewrite idx_takeZ by lia. apply idx_dropZ; lia. Qed.

Lemma idx_Forall {A} (P : A → Prop) l i x : Forall P l → idx l i = Some x → P x.
Proof.
  intros Hl Hi. pose proof (idx_Some_range _ _ _ Hi). unfold idx in Hi.
  rewrite decide_False in Hi by lia. by eapply Forall_lookup_1 in Hi.
Qed.

Lemma Forall_takeZ {A} (P : A → Prop) n l : Forall P l → Forall P (takeZ n l).
Proof. apply Forall_take. Qed.
Lemma Forall_dropZ {A} (P : A → Prop) n l : Forall P l → Forall P (dropZ n l).
Proof. apply Forall_drop. Qed.
Lemma Forall_sliceZ {A} (P : A → Prop) i n l : Forall P l → Forall P (sliceZ i n l).
Proof. intros. by apply Forall_takeZ, Forall_dropZ. Qed.

Lemma takeZ_dropZ {A} n (l : list A) : takeZ n l ++ dropZ n l = l.
Proof. apply take_drop. Qed.

Lemma takeZ_0 {A} (l : list A) : takeZ 0 l = [].
Proof. done. Qed.

Lemma list_eq_idx {A} (l1 l2 : list A) : (∀ i, idx l1 i = idx l2 i) → l1 = l2.
Proof.
  intros H. apply list_eq. intros i. specialize (H (Z.of_nat i)).
  by rewrite !idx_of_nat in H.
Qed.

(** A list of byte values. *)
Definition is_bytes (l : bytes) : Prop := Forall (λ b, is_byte b) l.

Lemma idx_is_byte l i b : is_bytes l → idx l i = Some b → is_byte b.
Proof. intros H Hi. exact (idx_Forall _ _ _ _ H Hi). Qed.

Lemma idx_c_char l i b : c_chars l → idx l i = Some b → 0 < b < 256.
Proof. intros H Hi. exact (idx_Forall _ _ _ _ H Hi). Qed.

Lemma c_chars_is_bytes s : c_chars s → is_bytes s.
Proof. intros H. eapply Forall_impl; [exact H|]. simpl. lia. Qed.

Lemma land7 x : Z.land x 7 = x mod 8.
Proof. apply (Z.land_ones x 3). lia. Qed.

Lemma dropZ_cons {A} (l : list A) i x : idx l i = Some x → dropZ i l = x :: dropZ (i + 1) l.
Proof.
  intros H. pose proof (idx_Some_range _ _ _ H). unfold idx, dropZ in *.
  rewrite decide_False in H by lia. rewrite (drop_S _ x) by done.
  by replace (Z.to_nat (i + 1)) with (S (Z.to_nat i)) by lia.
Qed.

Lemma dropZ_all {A} (l : list A) n : zlen l ≤ n → dropZ n l = [].
Proof. unfold dropZ, zlen. intros. apply drop_ge. lia. Qed.

Lemma takeZ_cons {A} (x : A) l n : 0 ≤ n → takeZ (1 + n) (x :: l) = x :: takeZ n l.
Proof. intros. unfold takeZ. by replace (Z.to_nat (1 + n)) with (S (Z.to_nat n)) by lia. Qed.

Lemma takeZ_nil {A} n : takeZ n (@nil A) = [].
Proof. apply take_nil. Qed.

(** The longest prefix whose elements satisfy [p]. *)
Fixpoint take_while {A} (p : A → bool) (l : list A) : list A :=
  match l with
  | [] => []
  | x :: rest => if p x then x :: take_while p rest else []
  end.

Lemma take_while_Forall {A} (p : A → bool) l : Forall (λ x, p x = true) (take_while p l).
Proof. induction l as [|x l IH]; simpl; [done|]. destruct (p x) eqn:E; by constructor. Qed.

Lemma take_while_split {A} (p : A → bool) (l : list A) :
  ∃ rest, l = take_while p l ++ rest ∧ (∀ x rest', rest = x :: rest' → p x = false).
Proof.
  induction l as [|x l (rest & IH & Hr)]; [by exists []|]. simpl. destruct (p x) eqn:E.
  - exists rest. split; [by rewrite <- app_comm_cons, <- IH|done].
  - exists (x :: l). split; [done|]. intros y rest' [= <- <-]. done.
Qed.

Lemma take_while_stop {A} (p : A → bool) l1 l2 :
  Forall (λ x, p x = true) l1 → (∀ x rest, l2 = x :: rest → p x = false) →
  take_while p (l1 ++ l2) = l1.
Proof.
  intros H Hr. induction H as [|x l1 Hx H IH]; simpl.
  - destruct l2 as [|x l2]; [done|]. simpl. by rewrite (Hr x l2).
  - by rewrite Hx, IH.
Qed.

Lemma dropZ_app_zlen {A} (l1 l2 : list A) : dropZ (zlen l1) (l1 ++ l2) = l2.
Proof. unfold dropZ, zlen. rewrite Nat2Z.id. apply drop_app_length. Qed.

Lemma takeZ_app_zlen {A} (l1 l2 : list A) : takeZ (zlen l1) (l1 ++ l2) = l1.
Proof. unfold takeZ, zlen. rewrite Nat2Z.id. apply take_app_length. Qed.

Lemma zlen_take_while_le {A} (p : A → bool) l : zlen (take_while p l) ≤ zlen l.
Proof. destruct (take_while_split p l) as (rest & E & _). rewrite E at 2. zlen_lia. Qed.

Lemma dropZ_dropZ {A} i j (l : list A) : 0 ≤ i → 0 ≤ j → dropZ j (dropZ i l) = dropZ (i + j) l.
Proof. intros. unfold dropZ. rewrite drop_drop. f_equal. lia. Qed.

Lemma dropZ_0 {A} (l : list A) : dropZ 0 l = l.
Proof. done. Qed.

Lemma hd_dropZ (l : bytes) i d : 0 ≤ i → hd d (dropZ i l) = default d (idx l i).
Proof.
  intros Hi. destruct (idx l i) eqn:E.
  - by rewrite (dropZ_cons _ _ _ E).
  - destruct (decide (i < zlen l)) as [Hlt|Hge].
    + destruct (idx_is_Some l i ltac:(lia)) as [x Hx]. congruence.
    + by rewrite dropZ_all by lia.
Qed.

Lemma sliceZ_app {A} i m n (l : list A) : 0 ≤ i → 0 ≤ m → 0 ≤ n →
  sliceZ i (m + n) l = sliceZ i m l ++ sliceZ (i + m) n l.
Proof.
  intros. unfold sliceZ. rewrite takeZ_slice by lia. unfold sliceZ. by rewrite dropZ_dropZ by lia.
Qed.

Lemma sliceZ_0 {A} i (l : list A) : sliceZ i 0 l = [].
Proof. done. Qed.

(** A field stored below the bits of another. *)
Lemma lor_add a b k : 0 ≤ k → 0 ≤ b < 2 ^ k → Z.lor (a * 2 ^ k) b = a * 2 ^ k + b.
Proof.
  intros Hk Hb. assert (Z.land (a * 2 ^ k) b = 0) as E.
  { apply Z.bits_inj'. intros n Hn. rewrite Z.land_spec, Z.bits_0.
    destruct (decide (n < k)).
    - by rewrite Z.mul_pow2_bits_low by lia.
    - rewrite <- (Z.mod_small b (2 ^ k)) by lia. rewrite Z.mod_pow2_bits_high by lia. apply andb_false_r. }
  rewrite Z.add_nocarry_lxor by done. by rewrite Z.lxor_lor.
Qed.

(** ** Updating an array *)

Lemma upd_app_middle {A} (l1 : list A) x l2 c : upd (l1 ++ x :: l2) (zlen l1) c = Some (l1 ++ c :: l2).
Proof.
  rewrite upd_Some by zlen_lia. f_equal. unfold zlen. rewrite Nat2Z.id. by rewrite insert_app_r_alt, Nat.sub_diag by done.
Qed.

(** Filling an array from the front. *)
Lemma upd_front {A} (s d : list A) k c : 0 ≤ k < zlen d → idx s k = Some c →
  upd (takeZ k s ++ dropZ k d) k c = Some (takeZ (k + 1) s ++ dropZ (k + 1) d).
Proof.
  intros Hk Hc. pose proof (idx_Some_range _ _ _ Hc). destruct (idx_is_Some d k Hk) as [x Hx].
  rewrite (dropZ_cons d k x Hx), (takeZ_snoc _ _ _ Hc), <- app_assoc.
  pose proof (upd_app_middle (takeZ k s) x (dropZ (k + 1) d) c) as E. by rewrite zlen_takeZ in E by lia.
Qed.

Lemma upd_end_at {A} (s d : list A) k c : zlen s = k → k < zlen d →
  upd (s ++ dropZ k d) k c = Some (s ++ c :: dropZ (k + 1) d).
Proof.
  intros <- H. destruct (idx_is_Some d (zlen s)) as [x Hx]; [zlen_lia|].
  rewrite (dropZ_cons d _ x Hx). apply upd_app_middle.
Qed.

Lemma upd_end {A} (s d : list A) c : zlen s < zlen d →
  upd (s ++ dropZ (zlen s) d) (zlen s) c = Some (s ++ c :: dropZ (zlen s + 1) d).
Proof. by apply upd_end_at. Qed.
