(* ===== verification/Ieee.v ===== *)
(** The floating-point arithmetic of C, as the RISC-V target has it: [float],
    [double] and [long double] are the IEEE formats binary32, binary64 and
    binary128 (FLT_MANT_DIG 24, DBL_MANT_DIG 53, LDBL_MANT_DIG 113), rounded to
    nearest, ties to even.  The numbers and their arithmetic are those of the
    Standard Library's [SpecFloat]; the math.h functions floatscan.c and
    fmt_fp.inc use are defined by what the C standard says of them. *)
From S2P Require Import Prelude.
From Stdlib Require Export SpecFloat.

(** ** The formats: precision and largest exponent *)
Definition FLT_MANT_DIG : Z := 24.
Definition FLT_MAX_EXP : Z := 128.
Definition FLT_MIN_EXP : Z := -125.
Definition DBL_MANT_DIG : Z := 53.
Definition DBL_MAX_EXP : Z := 1024.
Definition DBL_MIN_EXP : Z := -1021.
Definition LDBL_MANT_DIG : Z := 113.
Definition LDBL_MAX_EXP : Z := 16384.
Definition LDBL_MIN_EXP : Z := -16381.

(** ** long double *)
Abbreviation ld := spec_float.

(** [m * 2^e], rounded; the sign of a zero is [+]. *)
Definition ld_dyadic (m e : Z) : ld := binary_normalize LDBL_MANT_DIG LDBL_MAX_EXP m e false.
(** A conversion of an integer *)
Definition ld_of_int (n : Z) : ld := ld_dyadic n 0.
Definition ld_add : ld → ld → ld := SFadd LDBL_MANT_DIG LDBL_MAX_EXP.
Definition ld_sub : ld → ld → ld := SFsub LDBL_MANT_DIG LDBL_MAX_EXP.
Definition ld_mul : ld → ld → ld := SFmul LDBL_MANT_DIG LDBL_MAX_EXP.
Definition ld_div : ld → ld → ld := SFdiv LDBL_MANT_DIG LDBL_MAX_EXP.
(** [!x] and [x >= y] *)
Definition ld_zero (x : ld) : bool := match x with S754_zero _ => true | _ => false end.
Definition ld_ge (x y : ld) : bool := SFleb y x.

(** LDBL_MAX, LDBL_MIN *)
Definition LDBL_MAX : ld := SFmax_float LDBL_MANT_DIG LDBL_MAX_EXP.
Definition LDBL_MIN : ld := ld_dyadic 1 (LDBL_MIN_EXP - 1).

Definition sign_of (x : ld) : bool :=
  match x with
  | S754_zero s | S754_infinity s | S754_finite s _ _ => s
  | S754_nan => false
  end.
Definition with_sign (s : bool) (x : ld) : ld :=
  match x with
  | S754_zero _ => S754_zero s
  | S754_infinity _ => S754_infinity s
  | S754_finite _ m e => S754_finite s m e
  | S754_nan => S754_nan
  end.

(** ** <math.h> *)

Definition copysignl (x y : ld) : ld := with_sign (sign_of y) x.
Definition fabsl (x : ld) : ld := SFabs x.
(** [x * 2^n], rounded once *)
Definition scalbnl (x : ld) (n : Z) : ld := SFldexp LDBL_MANT_DIG LDBL_MAX_EXP x n.
(** On [double]: the result converted to long double *)
Definition scalbn (x : spec_float) (n : Z) : spec_float := SFldexp DBL_MANT_DIG DBL_MAX_EXP x n.
(** The remainder of [x / y] with the quotient truncated, which is exact; its
    sign is that of [x]. *)
Definition fmodl (x y : ld) : ld :=
  match x, y with
  | S754_nan, _ | _, S754_nan | S754_infinity _, _ | _, S754_zero _ => S754_nan
  | S754_zero s, _ => S754_zero s
  | _, S754_infinity _ => x
  | S754_finite sx mx ex, S754_finite _ my ey =>
      let e := Z.min ex ey in
      let r := (Zpos mx * 2 ^ (ex - e)) mod (Zpos my * 2 ^ (ey - e)) in
      with_sign sx (ld_dyadic r e)
  end.

(** ** Conversions and representations *)

(** A conversion to the format with [prec] and [emax] *)
Definition to_format (prec emax : Z) (x : spec_float) : spec_float :=
  match x with S754_finite s m e => binary_round prec emax s m e | _ => x end.
Definition to_float : ld → spec_float := to_format FLT_MANT_DIG FLT_MAX_EXP.
Definition to_double : ld → spec_float := to_format DBL_MANT_DIG DBL_MAX_EXP.
Definition to_ldouble : spec_float → ld := to_format LDBL_MANT_DIG LDBL_MAX_EXP.

(** The bits of a number in the interchange format: the sign, the exponent, and
    [prec - 1] bits of the significand.  [SpecFloat] has one NaN, without sign or
    payload: every NaN's bits read as it, and it has the bits of the positive
    quiet one.  What the code sees of a NaN besides, its sign bit, is taken from
    the representation ([FmtFp.slot_sign]). *)
Definition bits_of (prec emax : Z) (x : spec_float) : Z :=
  let pack (s : bool) (expo frac : Z) := Z.shiftl ((if s then 2 * emax else 0) + expo) (prec - 1) + frac in
  match x with
  | S754_zero s => pack s 0 0
  | S754_infinity s => pack s (2 * emax - 1) 0
  | S754_nan => pack false (2 * emax - 1) (Z.shiftl 1 (prec - 2))
  | S754_finite s m e =>
      if Zpos m <? Z.shiftl 1 (prec - 1) then pack s 0 (Zpos m)
      else pack s (e + prec + emax - 2) (Zpos m - Z.shiftl 1 (prec - 1))
  end.
Definition of_bits (prec emax : Z) (b : Z) : spec_float :=
  let frac := b mod Z.shiftl 1 (prec - 1) in
  let expo := Z.shiftr b (prec - 1) mod (2 * emax) in
  let s := Z.testbit b (prec - 1 + Z.log2 (2 * emax)) in
  if expo =? 2 * emax - 1 then if frac =? 0 then S754_infinity s else S754_nan
  else if expo =? 0 then
    match frac with Zpos m => S754_finite s m (3 - emax - prec) | _ => S754_zero s end
  else
    match frac + Z.shiftl 1 (prec - 1) with
    | Zpos m => S754_finite s m (expo - prec - emax + 2)
    | _ => S754_nan
    end.
