(* ===== verification/Rounding.v ===== *)
(** Rounding to nearest, ties to even, by integer arithmetic: what the
    Standard Library's [binary_round] computes, in closed form, and from it the
    facts about floating-point operations the proofs about floatscan.c,
    fmt_fp.inc and difftime use.

    [binary_round] works by shifting one bit at a time; [binary_round_spec] says
    that it is [rnd], a division, at the exponent [fexp] gives. *)
From S2P Require Import Prelude Ieee.

(** ** Powers of two and digits *)

Lemma pow2_pos k : 0 ≤ k → 0 < 2 ^ k.
Proof. intros. by apply Z.pow_pos_nonneg. Qed.

Lemma pow2_add a b : 0 ≤ a → 0 ≤ b → 2 ^ (a + b) = 2 ^ a * 2 ^ b.
Proof. apply Z.pow_add_r. Qed.

Lemma pow2_S a : 0 ≤ a → 2 ^ (a + 1) = 2 * 2 ^ a.
Proof. intros. rewrite pow2_add by lia. lia. Qed.

Lemma digits2_bounds p : 2 ^ (Zpos (digits2_pos p) - 1) ≤ Zpos p < 2 ^ Zpos (digits2_pos p).
Proof.
  assert (Hs : ∀ q, 2 ^ Zpos (Pos.succ q) = 2 * 2 ^ Zpos q) by (intros q; rewrite <- Z.pow_succ_r by lia; f_equal; lia).
  induction p as [p IH|p IH|]; cbn [digits2_pos]; [| |cbn; lia].
  all: rewrite Hs; replace (Zpos (Pos.succ _) - 1) with (Z.succ (Zpos (digits2_pos p) - 1)) by lia;
    rewrite Z.pow_succ_r by lia; lia.
Qed.

(** The number of binary digits is the one [d] with [2^(d-1) <= n < 2^d]. *)
Lemma digits2_unique n d : 0 < n → 2 ^ (d - 1) ≤ n < 2 ^ d → Zdigits2 n = d.
Proof.
  intros Hn Hd. destruct n as [|p|p]; [lia| |lia]. cbn [Zdigits2].
  pose proof (digits2_bounds p) as Hb.
  assert (0 < d). { destruct (Z_lt_le_dec 0 d); [done|]. destruct (Z.eq_dec d 0) as [->|]; [cbn in Hd; lia|].
    rewrite (Z.pow_neg_r 2 d) in Hd by lia. lia. }
  destruct (Z.lt_trichotomy (Zpos (digits2_pos p)) d) as [Hl|[Hl|Hl]]; [|done|].
  - pose proof (Z.pow_le_mono_r 2 (Zpos (digits2_pos p)) (d - 1)). lia.
  - pose proof (Z.pow_le_mono_r 2 d (Zpos (digits2_pos p) - 1)). lia.
Qed.

Lemma Zdigits2_bounds n : 0 < n → 2 ^ (Zdigits2 n - 1) ≤ n < 2 ^ Zdigits2 n ∧ 0 < Zdigits2 n.
Proof. intros. destruct n as [|p|p]; [lia| |lia]. split; [apply digits2_bounds|done]. Qed.

Lemma Zdigits2_le n d : 0 < n → 0 ≤ d → n < 2 ^ d → Zdigits2 n ≤ d.
Proof.
  intros Hn Hd H. destruct (Zdigits2_bounds n Hn) as [[Hl _] ?].
  destruct (Z_lt_le_dec d (Zdigits2 n)); [|done].
  pose proof (Z.pow_le_mono_r 2 d (Zdigits2 n - 1)). lia.
Qed.

Lemma Zdigits2_ge n d : 2 ^ (d - 1) ≤ n → 0 < n → d ≤ Zdigits2 n.
Proof.
  intros H Hn. destruct (Zdigits2_bounds n Hn) as [[_ Hu] ?].
  destruct (Z_lt_le_dec (Zdigits2 n) d); [|done].
  pose proof (Z.pow_le_mono_r 2 (Zdigits2 n) (d - 1)). lia.
Qed.

Lemma Zdigits2_shift n k : 0 < n → 0 ≤ k → Zdigits2 (n * 2 ^ k) = Zdigits2 n + k.
Proof.
  intros Hn Hk. pose proof (pow2_pos k Hk). apply digits2_unique; [nia|].
  destruct (Zdigits2_bounds n Hn) as [[Hl Hu] Hd].
  replace (Zdigits2 n + k - 1) with (Zdigits2 n - 1 + k) by lia.
  rewrite !pow2_add by lia. nia.
Qed.

Lemma iter_xO p k : Zpos (Pos.iter xO p k) = Zpos p * 2 ^ Zpos k.
Proof.
  induction k as [|k IH] using Pos.peano_ind; [cbn; lia|].
  rewrite Pos.iter_succ, Pos2Z.inj_succ, Z.pow_succ_r by lia. rewrite Pos2Z.inj_xO. lia.
Qed.

(** The digits of a number whose last [c] are replaced by one that says whether
    they were zero *)
Lemma sticky_digits m c : 0 ≤ c → c < Zdigits2 m → 0 < m →
  Zdigits2 (2 * (m / 2 ^ c) + (if m mod 2 ^ c =? 0 then 0 else 1)) = Zdigits2 m - c + 1.
Proof.
  intros Hc Hd Hm. pose proof (pow2_pos c Hc) as Hpc. set (d := Zdigits2 m) in *.
  destruct (Zdigits2_bounds m Hm) as [[Hl Hu] _]. fold d in Hl, Hu.
  assert (Hh : 2 ^ (d - c - 1) ≤ m / 2 ^ c < 2 ^ (d - c)).
  { split.
    - apply Z.div_le_lower_bound; [lia|]. rewrite Z.mul_comm, <- pow2_add by lia.
      by replace (d - c - 1 + c) with (d - 1) by lia.
    - apply Z.div_lt_upper_bound; [lia|]. rewrite Z.mul_comm, <- pow2_add by lia.
      by replace (d - c + c) with d by lia. }
  pose proof (pow2_pos (d - c - 1) ltac:(lia)).
  apply digits2_unique; [destruct (_ =? 0); lia|].
  replace (d - c + 1 - 1) with (d - c - 1 + 1) by lia. rewrite !pow2_S by lia. destruct (_ =? 0); lia.
Qed.

(** ** Rounding an integer: [m / 2^k] *)

Definition rne (m k : Z) : Z :=
  let q := m / 2 ^ k in
  let r := m mod 2 ^ k in
  if (2 * r <? 2 ^ k) || ((2 * r =? 2 ^ k) && Z.even q) then q else q + 1.
Definition rnd (m k : Z) : Z := if k <=? 0 then m * 2 ^ (- k) else rne m k.

Lemma rne_exact q k : 0 ≤ k → rne (q * 2 ^ k) k = q.
Proof.
  intros Hk. pose proof (pow2_pos k Hk). unfold rne.
  rewrite Z.div_mul, Z.mod_mul by lia. by replace (2 * 0 <? 2 ^ k) with true by lia.
Qed.

Lemma rnd_exact q k m : 0 ≤ q → m = q * 2 ^ k → 0 ≤ k → rnd m k = q.
Proof.
  intros ? -> Hk. unfold rnd. destruct (Z.leb_spec k 0).
  - replace k with 0 by lia. cbn. lia.
  - by apply rne_exact.
Qed.

(** Rounding by quotient and remainder *)
Lemma rne_split q r k : 0 ≤ r < 2 ^ k →
  rne (q * 2 ^ k + r) k = if (2 * r <? 2 ^ k) || ((2 * r =? 2 ^ k) && Z.even q) then q else q + 1.
Proof.
  intros Hr. unfold rne. replace (q * 2 ^ k + r) with (r + q * 2 ^ k) by lia.
  rewrite Z.div_add, Z.mod_add by lia. rewrite Z.div_small, Z.mod_small by lia. done.
Qed.

(** Even multiples pass through. *)
Lemma rne_add_even c m k : 0 ≤ k → Z.even c = true → rne (c * 2 ^ k + m) k = c + rne m k.
Proof.
  intros Hk Hc. pose proof (pow2_pos k Hk). unfold rne.
  replace (c * 2 ^ k + m) with (m + c * 2 ^ k) by lia. rewrite Z.div_add, Z.mod_add by lia.
  rewrite Z.even_add, Hc. destruct (Z.even (m / 2 ^ k)); cbn [Bool.eqb];
    destruct (_ <? _); destruct (_ =? _); cbn; lia.
Qed.

Lemma rne_shift m k j : 0 ≤ k → 0 ≤ j → rne (m * 2 ^ j) (k + j) = rne m k.
Proof.
  intros Hk Hj. pose proof (pow2_pos k Hk). pose proof (pow2_pos j Hj). unfold rne.
  rewrite pow2_add by lia. rewrite Z.div_mul_cancel_r, Z.mul_mod_distr_r by lia.
  rewrite Z.mul_assoc. generalize (m mod 2 ^ k) as r. intros r.
  assert (E1 : 2 * r * 2 ^ j < 2 ^ k * 2 ^ j ↔ 2 * r < 2 ^ k) by nia.
  assert (E2 : 2 * r * 2 ^ j = 2 ^ k * 2 ^ j ↔ 2 * r = 2 ^ k) by nia.
  replace (2 * r * 2 ^ j <? 2 ^ k * 2 ^ j) with (2 * r <? 2 ^ k) by lia.
  by replace (2 * r * 2 ^ j =? 2 ^ k * 2 ^ j) with (2 * r =? 2 ^ k) by lia.
Qed.

Lemma rnd_shift m k j : 0 ≤ j → rnd (m * 2 ^ j) (k + j) = rnd m k.
Proof.
  intros Hj. unfold rnd. destruct (Z.leb_spec k 0), (Z.leb_spec (k + j) 0); [| |lia|].
  - rewrite <- Z.mul_assoc, <- pow2_add by lia. do 2 f_equal. lia.
  - replace (m * 2 ^ j) with (m * 2 ^ (- k) * 2 ^ (k + j))
      by (rewrite <- Z.mul_assoc, <- pow2_add by lia; do 2 f_equal; lia).
    by apply rne_exact; lia.
  - apply rne_shift; lia.
Qed.

Lemma rne_nonneg m k : 0 ≤ m → 0 ≤ k → 0 ≤ rne m k.
Proof.
  intros. pose proof (pow2_pos k). pose proof (Z.div_pos m (2 ^ k)). unfold rne. destruct (_ || _); lia.
Qed.

(** A number below [c * 2^k] rounds to at most [c]; one at least [c * 2^k] to at least [c]. *)
Lemma rne_le m k c : 0 ≤ k → m ≤ c * 2 ^ k → rne m k ≤ c.
Proof.
  intros Hk Hm. pose proof (pow2_pos k Hk).
  destruct (Z.eq_dec m (c * 2 ^ k)) as [->|]; [by rewrite rne_exact by done|].
  assert (m / 2 ^ k < c) by (apply Z.div_lt_upper_bound; lia).
  unfold rne. destruct (_ || _); lia.
Qed.

Lemma rne_ge m k c : 0 ≤ k → c * 2 ^ k ≤ m → c ≤ rne m k.
Proof.
  intros Hk Hm. pose proof (pow2_pos k Hk).
  assert (c ≤ m / 2 ^ k) by (apply Z.div_le_lower_bound; lia).
  unfold rne. destruct (_ || _); lia.
Qed.

(** Less than half rounds to zero. *)
Lemma rne_small m k : 0 ≤ m → 2 * m < 2 ^ k → rne m k = 0.
Proof.
  intros. unfold rne. rewrite Z.div_small, Z.mod_small by lia. by replace (2 * m <? 2 ^ k) with true by lia.
Qed.

(** The digits behind the last one kept count only as zero or not. *)
Lemma sticky_lt r l C K b : 0 ≤ l < C → 0 < K → b = 0 ∧ l = 0 ∨ b = 1 ∧ 0 < l →
  (2 * (r * C + l) <? 2 * K * C) = (2 * (2 * r + b) <? 2 * (2 * K)) ∧
  (2 * (r * C + l) =? 2 * K * C) = (2 * (2 * r + b) =? 2 * (2 * K)).
Proof.
  intros Hl HK Hb.
  assert ((2 * (r * C + l) < 2 * K * C ↔ 2 * (2 * r + b) < 2 * (2 * K)) ∧
          (2 * (r * C + l) = 2 * K * C ↔ 2 * (2 * r + b) = 2 * (2 * K))) as [H1 H2]; [|split; lia].
  destruct (Z.lt_trichotomy r K) as [H|[->|H]]; [|lia|].
  - assert (r * C + C ≤ K * C) by nia. lia.
  - assert (K * C + C ≤ r * C) by nia. lia.
Qed.

Lemma rne_sticky m c k : 0 ≤ c → 2 ≤ k →
  rne (2 * (m / 2 ^ c) + (if m mod 2 ^ c =? 0 then 0 else 1)) k = rne m (k + c - 1).
Proof.
  intros Hc Hk. pose proof (pow2_pos c Hc) as Hpc. pose proof (pow2_pos (k - 2) ltac:(lia)) as Hpk.
  assert (E4 : 2 ^ (k - 1) = 2 * 2 ^ (k - 2)) by (rewrite <- pow2_S by lia; f_equal; lia).
  assert (E2 : 2 ^ k = 2 * 2 ^ (k - 1)) by (rewrite <- pow2_S by lia; f_equal; lia).
  assert (E3 : 2 ^ (k + c - 1) = 2 ^ (k - 1) * 2 ^ c) by (rewrite <- pow2_add by lia; f_equal; lia).
  pose proof (Z.div_mod m (2 ^ c) ltac:(lia)) as Em. pose proof (Z.mod_pos_bound m (2 ^ c) Hpc) as Hl.
  remember (m / 2 ^ c) as h eqn:Eh'. remember (m mod 2 ^ c) as l eqn:El. clear Eh' El.
  pose proof (Z.div_mod h (2 ^ (k - 1)) ltac:(lia)) as Eh. pose proof (Z.mod_pos_bound h (2 ^ (k - 1)) ltac:(lia)) as Hr.
  remember (h / 2 ^ (k - 1)) as q eqn:Eq. remember (h mod 2 ^ (k - 1)) as r eqn:Er. clear Eq Er.
  assert (∃ b, b = (if l =? 0 then 0 else 1) ∧ (b = 0 ∧ l = 0 ∨ b = 1 ∧ 0 < l)) as (b & Hb' & Hb).
  { eexists. split; [done|]. destruct (Z.eqb_spec l 0); lia. }
  rewrite <- Hb'. clear Hb'.
  replace (2 * h + b) with (q * 2 ^ k + (2 * r + b)) by nia.
  replace m with (q * 2 ^ (k + c - 1) + (r * 2 ^ c + l)) by nia.
  rewrite !rne_split by nia. rewrite E2, E3, E4.
  destruct (sticky_lt r l (2 ^ c) (2 ^ (k - 2)) b) as [E5 E6]; [done..|].
  by rewrite E5, E6.
Qed.

(** ** The Standard Library's rounding *)

(** A record of [shr] holds [m] shifted right by [k]: the bits that are left,
    the one behind them, and whether anything is lost. *)
Definition shifted (mrs : shr_record) (m k : Z) : Prop :=
  0 ≤ shr_m mrs ∧ ∃ l, 2 * m = (2 * shr_m mrs + Z.b2z (shr_r mrs)) * 2 ^ k + l ∧ 0 ≤ l < 2 ^ k ∧
    (shr_s mrs = false ∧ l = 0 ∨ shr_s mrs = true ∧ 0 < l).

Lemma shr_1_shifted mrs m k : 0 ≤ k → shifted mrs m k → shifted (shr_1 mrs) m (k + 1).
Proof.
  intros Hk (Hm & l & E & Hl & Hs). pose proof (pow2_pos k Hk). unfold shifted. rewrite pow2_S by lia.
  destruct mrs as [mm r s]. cbn [shr_m shr_r shr_s] in *.
  assert (Hl' : 0 ≤ Z.b2z r * 2 ^ k + l < 2 * 2 ^ k) by (destruct r; cbn; lia).
  assert (Hs' : (r || s) = false ∧ Z.b2z r * 2 ^ k + l = 0 ∨ (r || s) = true ∧ 0 < Z.b2z r * 2 ^ k + l)
    by (destruct r, s; cbn; lia).
  destruct mm as [|p|p]; [| |lia]; [|destruct p as [p|p|]]; cbn [shr_1 shr_m shr_r shr_s Z.b2z];
    (split; [lia|]); exists (Z.b2z r * 2 ^ k + l); (split; [nia|done]).
Qed.

Lemma shr_shifted p mrs m k : 0 ≤ k → shifted mrs m k → shifted (SpecFloat.iter_pos shr_1 p mrs) m (k + Zpos p).
Proof.
  revert mrs k. induction p as [p IH|p IH|]; intros mrs k Hk H; cbn [SpecFloat.iter_pos].
  - replace (k + Zpos p~1) with (k + 1 + Zpos p + Zpos p) by lia.
    apply IH; [lia|]. apply IH; [lia|]. by apply shr_1_shifted.
  - replace (k + Zpos p~0) with (k + Zpos p + Zpos p) by lia. apply IH; [lia|]. by apply IH.
  - by apply shr_1_shifted.
Qed.

Lemma shifted_rne mrs m k : 0 ≤ k → shifted mrs m k →
  round_nearest_even (shr_m mrs) (loc_of_shr_record mrs) = rne m k.
Proof.
  intros Hk (Hm & l & E & Hl & Hs). pose proof (pow2_pos k Hk). destruct mrs as [q r s].
  cbn [shr_m shr_r shr_s] in *.
  replace m with (q * 2 ^ k + (m - q * 2 ^ k)) by lia.
  assert (H2 : 2 * (m - q * 2 ^ k) = Z.b2z r * 2 ^ k + l) by lia.
  rewrite rne_split by (destruct r; cbn in H2; lia). rewrite H2.
  destruct Hs as [[-> ->]|[-> Hs]], r; cbn [Z.b2z loc_of_shr_record round_nearest_even].
  - replace (_ <? _) with false by lia. replace (_ =? _) with true by lia. done.
  - by replace (_ <? _) with true by lia.
  - replace (_ <? _) with false by lia. by replace (_ =? _) with false by lia.
  - by replace (_ <? _) with true by lia.
Qed.

(** The record after shifting a plain number, and what rounding it gives *)
Lemma shr_exact_rne m e n : 0 ≤ m →
  let '(mrs, e') := shr (shr_record_of_loc m loc_Exact) e n in
  round_nearest_even (shr_m mrs) (loc_of_shr_record mrs) = rne m (Z.max 0 n) ∧ e' = e + Z.max 0 n.
Proof.
  intros Hm.
  assert (H0 : shifted (Build_shr_record m false false) m 0).
  { split; [done|]. exists 0. cbn. lia. }
  destruct n as [|p|p]; cbn [shr].
  - split; [by apply (shifted_rne _ _ 0)|lia].
  - split; [|lia]. replace (Z.max 0 (Zpos p)) with (0 + Zpos p) by lia.
    apply shifted_rne; [lia|]. by apply shr_shifted.
  - split; [by apply (shifted_rne _ _ 0)|lia].
Qed.

Section format.
Context (prec emax : Z) (Hprec : 1 < prec) (Hemax : prec < emax).

(** The float with mantissa [q], at most [2^prec], and exponent [t] *)
Definition pack (s : bool) (q t : Z) : spec_float :=
  let '(q, t) := if q =? 2 ^ prec then (2 ^ (prec - 1), t + 1) else (q, t) in
  match q with
  | Zpos m => if t <=? emax - prec then S754_finite s m t else S754_infinity s
  | _ => S754_zero s
  end.

(** The exponent of the last bit kept of [m * 2^e] *)
Definition last_bit (m e : Z) : Z := fexp prec emax (Zdigits2 m + e).

Lemma last_bit_shift m e j : 0 < m → 0 ≤ j → last_bit (m * 2 ^ j) (e - j) = last_bit m e.
Proof. intros. unfold last_bit. rewrite Zdigits2_shift by done. f_equal. lia. Qed.

(** A mantissa that was rounded has at most [prec] digits, or is [2^prec]. *)
Lemma rne_last_bit m e : 0 < m → e ≤ last_bit m e → 0 ≤ rne m (last_bit m e - e) ≤ 2 ^ prec.
Proof.
  intros Hm He. split; [apply rne_nonneg; lia|]. apply rne_le; [lia|].
  destruct (Zdigits2_bounds m Hm) as [[_ Hu] ?].
  assert (Zdigits2 m ≤ prec + (last_bit m e - e)) by (unfold last_bit, fexp in *; lia).
  rewrite <- pow2_add by lia.
  pose proof (Z.pow_le_mono_r 2 (Zdigits2 m) (prec + (last_bit m e - e))). lia.
Qed.

(** The second normalisation of [binary_round_aux] *)
Lemma renorm_pack s q t : 0 ≤ q ≤ 2 ^ prec → emin prec emax ≤ t →
  (let '(mrs, e') := shr_fexp prec emax q t loc_Exact in
   match shr_m mrs with
   | 0 => S754_zero s
   | Zpos m => if e' <=? emax - prec then S754_finite s m e' else S754_infinity s
   | _ => S754_nan
   end) = pack s q t.
Proof using All.
  intros Hq Ht. unfold pack. pose proof (pow2_pos (prec - 1) ltac:(lia)).
  assert (E : 2 ^ prec = 2 * 2 ^ (prec - 1)) by (rewrite <- pow2_S by lia; f_equal; lia).
  destruct (Z.eqb_spec q (2 ^ prec)) as [->|Hne].
  - assert (Hd : Zdigits2 (2 ^ prec) = prec + 1).
    { apply digits2_unique; [lia|]. rewrite pow2_S by lia. replace (prec + 1 - 1) with prec by lia. lia. }
    unfold shr_fexp. rewrite Hd. replace (fexp prec emax (prec + 1 + t) - t) with 1 by (unfold fexp, emin in *; lia).
    cbn [shr shr_record_of_loc SpecFloat.iter_pos]. rewrite E.
    destruct (2 ^ (prec - 1)) as [|p|p]; [lia| |lia]. done.
  - assert (Zdigits2 q ≤ prec) by (destruct (Z.eq_dec q 0) as [->|]; [cbn; lia|apply Zdigits2_le; lia]).
    assert (fexp prec emax (Zdigits2 q + t) - t ≤ 0) by (unfold fexp, emin in *; lia).
    unfold shr_fexp, shr. destruct (fexp prec emax (Zdigits2 q + t) - t); [|lia|]; cbn [shr_record_of_loc shr_m];
      destruct q; done || lia.
Qed.

Lemma binary_round_aux_spec s m e : 0 < m → e ≤ last_bit m e →
  binary_round_aux prec emax s m e loc_Exact = pack s (rne m (last_bit m e - e)) (last_bit m e).
Proof using All.
  intros Hm He. unfold binary_round_aux, shr_fexp at 1. fold (last_bit m e).
  pose proof (shr_exact_rne m e (last_bit m e - e) ltac:(lia)) as H.
  destruct (shr _ e (last_bit m e - e)) as [mrs e']. destruct H as [-> ->].
  rewrite Z.max_r by lia. replace (e + (last_bit m e - e)) with (last_bit m e) by lia.
  apply renorm_pack; [by apply rne_last_bit|]. unfold last_bit, fexp. lia.
Qed.

(** [binary_round]: [m * 2^e] rounded at the last bit kept. *)
Lemma binary_round_spec s m e :
  binary_round prec emax s m e = pack s (rnd (Zpos m) (last_bit (Zpos m) e - e)) (last_bit (Zpos m) e).
Proof using All.
  unfold binary_round, shl_align.
  change (fexp prec emax (Z.pos (digits2_pos m) + e)) with (last_bit (Zpos m) e).
  destruct (last_bit (Zpos m) e - e) as [|k|k] eqn:E.
  - rewrite binary_round_aux_spec by lia. rewrite E. unfold rnd, rne. cbn. by rewrite Z.mod_1_r, Z.div_1_r, Z.mul_1_r.
  - rewrite binary_round_aux_spec by lia. by rewrite E.
  - assert (Hl : last_bit (Zpos (Pos.iter xO m k)) (last_bit (Zpos m) e) = last_bit (Zpos m) e).
    { rewrite iter_xO. replace (last_bit (Zpos m) e) with (e - Zpos k) at 1 by lia. by apply last_bit_shift. }
    rewrite binary_round_aux_spec by lia. rewrite Hl, Z.sub_diag. f_equal.
    rewrite iter_xO. unfold rnd. cbn [Z.leb Z.opp Z.compare]. unfold rne. cbn. by rewrite Z.mod_1_r, Z.div_1_r.
Qed.

(** It depends on the value only. *)
Lemma binary_round_shift s m m' e j : 0 ≤ j → Zpos m' = Zpos m * 2 ^ j →
  binary_round prec emax s m' (e - j) = binary_round prec emax s m e.
Proof using All.
  intros Hj E. rewrite !binary_round_spec, E, last_bit_shift by lia. f_equal.
  replace (last_bit (Zpos m) e - (e - j)) with (last_bit (Zpos m) e - e + j) by lia. by apply rnd_shift.
Qed.

(** ** Floats by their value *)

(** [n * 2^e], rounded *)
Definition F (n e : Z) : spec_float := binary_normalize prec emax n e false.

(** [n * 2^e] is a float: nothing is rounded. *)
Definition fits (n e : Z) : Prop :=
  n = 0 ∨ ∃ q j, Z.abs n = q * 2 ^ j ∧ 0 ≤ j ∧ q ≤ 2 ^ prec ∧ emin prec emax ≤ e + j ∧ Zdigits2 (Z.abs n) + e ≤ emax.

Lemma F_sign n e : n ≠ 0 → F n e = binary_round prec emax (n <? 0) (Z.to_pos (Z.abs n)) e.
Proof. intros. destruct n; done. Qed.

Lemma F_shift n e j : 0 ≤ j → F (n * 2 ^ j) (e - j) = F n e.
Proof using All.
  intros Hj. pose proof (pow2_pos j Hj). destruct (Z.eq_dec n 0) as [->|Hn]; [done|].
  rewrite !F_sign by nia. replace (n * 2 ^ j <? 0) with (n <? 0) by (destruct (Z.ltb_spec n 0), (Z.ltb_spec (n * 2 ^ j) 0); nia || done).
  apply binary_round_shift; [done|]. rewrite !Z2Pos.id by nia. nia.
Qed.

Lemma F_eq n e n' e' k : k ≤ e → k ≤ e' → n * 2 ^ (e - k) = n' * 2 ^ (e' - k) → F n e = F n' e'.
Proof using All.
  intros H1 H2 E. rewrite <- (F_shift n e (e - k)), <- (F_shift n' e' (e' - k)), E by lia. f_equal. lia.
Qed.

Lemma fits_shift n e j : 0 ≤ j → fits n e → fits (n * 2 ^ j) (e - j).
Proof.
  intros Hj [->|(q & i & E & Hi & Hq & He & Hd)]; [by left|]. pose proof (pow2_pos j Hj).
  destruct (Z.eq_dec n 0) as [->|]; [by left|]. right. exists q, (i + j).
  replace (Z.abs (n * 2 ^ j)) with (Z.abs n * 2 ^ j) by nia.
  rewrite Zdigits2_shift by lia. rewrite pow2_add by lia. nia.
Qed.

(** A number of at most [prec] digits fits within the range of exponents. *)
Lemma fits_small n e : Z.abs n ≤ 2 ^ prec → emin prec emax ≤ e → e + prec < emax → fits n e.
Proof using All.
  intros Hn He Hm. destruct (Z.eq_dec n 0) as [->|]; [by left|]. right. exists (Z.abs n), 0.
  split; [lia|]. split; [lia|]. split; [done|]. split; [lia|].
  assert (Zdigits2 (Z.abs n) ≤ prec + 1); [|lia]. apply Zdigits2_le; [lia|lia|].
  rewrite pow2_S by lia. pose proof (pow2_pos prec). lia.
Qed.

Lemma fits_mul_pow n e j : 0 ≤ j → fits n (e + j) → fits (n * 2 ^ j) e.
Proof. intros Hj H. replace e with (e + j - j) by lia. by apply fits_shift. Qed.

(** The float of a number that fits *)
Record is_float (m e : Z) (mz : positive) (ez : Z) : Prop := {
  float_bounded : bounded prec emax mz ez = true;
  float_value : ∀ k, k ≤ e → k ≤ ez → m * 2 ^ (e - k) = Zpos mz * 2 ^ (ez - k);
}.

(** The digits kept of a number that fits: all of it. *)
Lemma fits_kept m e (t := last_bit m e) : 0 < m → fits m e →
  ∃ Q, 0 < Q ∧ rnd m (t - e) = Q ∧ Zdigits2 Q + t = Zdigits2 m + e ∧
    ∀ k, k ≤ e → k ≤ t → m * 2 ^ (e - k) = Q * 2 ^ (t - k).
Proof using All.
  intros Hm [->|(q & j & E & Hj & Hq & He & Hd)]; [done|]. rewrite Z.abs_eq in * by lia.
  pose proof (pow2_pos j Hj). pose proof (pow2_pos (prec - 1) ltac:(lia)).
  assert (Hq0 : 0 < q) by nia.
  assert (Hdm : Zdigits2 m ≤ prec + j ∨ q = 2 ^ prec).
  { destruct (Z.eq_dec q (2 ^ prec)); [by right|left]. rewrite E, Zdigits2_shift by lia.
    pose proof (Zdigits2_le q prec). lia. }
  destruct (Z_le_gt_dec t e) as [Hle|Hgt].
  - exists (m * 2 ^ (e - t)). pose proof (pow2_pos (e - t)).
    split; [nia|]. split.
    { unfold rnd. rewrite (proj2 (Z.leb_le _ _)) by lia. do 2 f_equal. lia. }
    split; [rewrite Zdigits2_shift by lia; lia|].
    intros k ? ?. rewrite <- Z.mul_assoc, <- pow2_add by lia. do 2 f_equal. lia.
  - assert (∃ Q, m = Q * 2 ^ (t - e) ∧ 0 < Q) as (Q & EQ & HQ).
    { assert (t = Z.max (Zdigits2 m + e - prec) (emin prec emax)) as Et by done.
      destruct Hdm as [Hdm| ->].
      - exists (q * 2 ^ (j - (t - e))).
        rewrite <- Z.mul_assoc, <- pow2_add by lia. split; [rewrite E; do 2 f_equal; lia|].
        apply Z.mul_pos_pos; [lia|]. apply pow2_pos. lia.
      - exists (2 ^ (prec + j - (t - e))).
        assert (0 ≤ prec + j - (t - e)).
        { rewrite E, <- pow2_add in Et by lia. replace (2 ^ (prec + j)) with (1 * 2 ^ (prec + j)) in Et by lia.
          rewrite Zdigits2_shift in Et by lia. change (Zdigits2 1) with 1 in Et. lia. }
        split; [|by apply pow2_pos]. rewrite <- pow2_add by lia. rewrite E, <- pow2_add by lia. f_equal. lia. }
    exists Q. split; [done|]. split; [apply rnd_exact; lia|].
    split; [pose proof (Zdigits2_shift Q (t - e) HQ) as H'; rewrite <- EQ in H'; lia|].
    intros k ? ?. replace (m * 2 ^ (e - k)) with (Q * 2 ^ (t - e) * 2 ^ (e - k)) by (by rewrite <- EQ). rewrite <- Z.mul_assoc, <- pow2_add by lia. do 2 f_equal. lia.
Qed.

Lemma fits_round s m e : fits (Zpos m) e →
  ∃ mz ez, binary_round prec emax s m e = S754_finite s mz ez ∧ is_float (Zpos m) e mz ez.
Proof using All.
  intros H. destruct (fits_kept (Zpos m) e) as (Q & HQ & Er & EdQ & Ev); [done|done|].
  rewrite binary_round_spec, Er by lia. set (t := last_bit (Zpos m) e) in *.
  assert (Ht : t = fexp prec emax (Zdigits2 Q + t)) by (by rewrite EdQ).
  assert (Zdigits2 (Zpos m) + e ≤ emax) by (destruct H as [|(q & j & _ & _ & _ & _ & H)]; [done|exact H]).
  assert (HQd : Zdigits2 Q ≤ prec) by (unfold fexp in Ht; lia).
  assert (Q < 2 ^ prec).
  { destruct (Zdigits2_bounds Q HQ) as [[_ Hu] ?]. pose proof (Z.pow_le_mono_r 2 (Zdigits2 Q) prec). lia. }
  unfold pack. rewrite (proj2 (Z.eqb_neq Q (2 ^ prec))) by lia.
  destruct Q as [|mz|]; [lia| |lia].
  assert (Htm : t ≤ emax - prec) by (unfold fexp, emin in Ht; lia).
  rewrite (proj2 (Z.leb_le _ _)) by lia. exists mz, t. split; [done|]. split; [|done].
  unfold bounded, canonical_mantissa. change (Zpos (digits2_pos mz)) with (Zdigits2 (Zpos mz)).
  rewrite <- Ht. lia.
Qed.

Lemma F_fits n e : fits n e → n ≠ 0 →
  ∃ mz ez, F n e = S754_finite (n <? 0) mz ez ∧ is_float (Z.abs n) e mz ez.
Proof using All.
  intros H Hn. rewrite F_sign by done.
  destruct (fits_round (n <? 0) (Z.to_pos (Z.abs n)) e) as (mz & ez & E & Hf).
  { destruct H as [|(q & j & H)]; [done|]. right. exists q, j. rewrite Z2Pos.id by lia. by rewrite Z.abs_idemp. }
  rewrite Z2Pos.id in Hf by lia. eauto.
Qed.

(** A float is its own rounding. *)
Lemma bounded_round s m e : bounded prec emax m e = true → binary_round prec emax s m e = S754_finite s m e.
Proof using All.
  unfold bounded, canonical_mantissa. intros [Hc He]%andb_true_iff. apply Z.eqb_eq in Hc.
  rewrite binary_round_spec. change (Zpos (digits2_pos m)) with (Zdigits2 (Zpos m)) in Hc.
  unfold last_bit. rewrite Hc, Z.sub_diag. change (rnd (Zpos m) 0) with (Zpos m * 1). rewrite Z.mul_1_r.
  assert (HQd : Zdigits2 (Zpos m) ≤ prec) by (unfold fexp in Hc; lia).
  destruct (Zdigits2_bounds (Zpos m)) as [[_ Hu] ?]; [done|].
  pose proof (Z.pow_le_mono_r 2 (Zdigits2 (Zpos m)) prec).
  unfold pack. rewrite (proj2 (Z.eqb_neq (Zpos m) (2 ^ prec))) by lia. by rewrite He.
Qed.

Lemma bounded_exp m e : bounded prec emax m e = true →
  fexp prec emax (Zdigits2 (Zpos m) + e) = e ∧ e ≤ emax - prec ∧ emin prec emax ≤ e ∧ Zdigits2 (Zpos m) ≤ prec.
Proof using All.
  unfold bounded, canonical_mantissa. intros [Hc He]%andb_true_iff. apply Z.eqb_eq in Hc. apply Z.leb_le in He.
  change (Zpos (digits2_pos m)) with (Zdigits2 (Zpos m)) in Hc. unfold fexp in *. lia.
Qed.

Lemma bounded_fits m e : bounded prec emax m e = true → fits (Zpos m) e.
Proof using All.
  intros H. destruct (bounded_exp _ _ H) as (Hc & He & Hm & Hd). right. exists (Zpos m), 0.
  destruct (Zdigits2_bounds (Zpos m)) as [[_ Hu] ?]; [done|].
  pose proof (Z.pow_le_mono_r 2 (Zdigits2 (Zpos m)) prec). change (Z.abs (Zpos m)) with (Zpos m).
  rewrite Z.pow_0_r. repeat split; lia.
Qed.

Lemma F_neg n e : n ≠ 0 → F (- n) e = SFopp (F n e).
Proof using All.
  intros Hn. rewrite !F_sign by lia. rewrite Z.abs_opp. replace (- n <? 0) with (negb (n <? 0)) by lia.
  rewrite !binary_round_spec. unfold pack.
  destruct (if _ =? _ then _ else _) as [[|q|q] t]; try done. by destruct (_ <=? _).
Qed.

Lemma fits_neg n e : fits n e → fits (- n) e.
Proof. unfold fits. rewrite Z.abs_opp. intros [->|H]; [by left|by right]. Qed.

Lemma shl_align_fst m e e' : e' ≤ e → Zpos (fst (shl_align m e e')) = Zpos m * 2 ^ (e - e').
Proof.
  intros H. unfold shl_align. destruct (e' - e) as [|k|k] eqn:E; [|lia|].
  - replace (e - e') with 0 by lia. cbn. lia.
  - replace (e - e') with (Zpos k) by lia. apply iter_xO.
Qed.

(** The signed mantissa of a float that is [n * 2^e] *)
Lemma float_signed n e mz ez k : n ≠ 0 → is_float (Z.abs n) e mz ez → k ≤ e → k ≤ ez →
  cond_Zopp (n <? 0) (Zpos mz) * 2 ^ (ez - k) = n * 2 ^ (e - k).
Proof using All.
  intros Hn [_ Hv] H1 H2. specialize (Hv k H1 H2). unfold cond_Zopp. destruct (Z.ltb_spec n 0); nia.
Qed.

(** *** The operations on numbers that fit *)

Lemma add_F a b e : fits a e → fits b e → a ≠ 0 → b ≠ 0 → SFadd prec emax (F a e) (F b e) = F (a + b) e.
Proof using All.
  intros Ha Hb Ha0 Hb0.
  destruct (F_fits a e Ha Ha0) as (ma & ea & -> & Fa). destruct (F_fits b e Hb Hb0) as (mb & eb & -> & Fb).
  unfold SFadd. fold (F (cond_Zopp (a <? 0) (Zpos (fst (shl_align ma ea (Z.min ea eb)))) +
    cond_Zopp (b <? 0) (Zpos (fst (shl_align mb eb (Z.min ea eb))))) (Z.min ea eb)).
  apply (F_eq _ _ _ _ (Z.min (Z.min ea eb) e)); [lia|lia|].
  pose proof (float_signed a e ma ea (Z.min (Z.min ea eb) e) Ha0 Fa) as Ea.
  pose proof (float_signed b e mb eb (Z.min (Z.min ea eb) e) Hb0 Fb) as Eb.
  rewrite !shl_align_fst, !Z.mul_add_distr_r, <- Ea, <- Eb by lia.
  assert (Hs : ∀ s m x y, 0 ≤ x → 0 ≤ y → cond_Zopp s (m * 2 ^ x) * 2 ^ y = cond_Zopp s m * 2 ^ (x + y)).
  { intros s m x y ? ?. rewrite pow2_add by lia. destruct s; cbn [cond_Zopp]; lia. }
  rewrite !Hs by lia. f_equal; do 2 f_equal; lia.
Qed.

Lemma sub_F a b e : fits a e → fits b e → a ≠ 0 → b ≠ 0 → SFsub prec emax (F a e) (F b e) = F (a - b) e.
Proof using All.
  intros Ha Hb Ha0 Hb0. replace (a - b) with (a + - b) by lia.
  rewrite <- add_F; [|done|by apply fits_neg|lia..]. rewrite F_neg by done.
  destruct (F_fits a e Ha Ha0) as (ma & ea & -> & Fa). destruct (F_fits b e Hb Hb0) as (mb & eb & -> & Fb).
  cbn [SFopp SFsub SFadd]. f_equal. destruct (a <? 0), (b <? 0); cbn [negb cond_Zopp]; lia.
Qed.

Lemma ldexp_F a e n : fits a e → SFldexp prec emax (F a e) n = F a (e + n).
Proof using All.
  intros Ha. destruct (Z.eq_dec a 0) as [->|Ha0]; [done|].
  destruct (F_fits a e Ha Ha0) as (ma & ea & -> & Fa). cbn [SFldexp].
  pose proof (float_signed a e ma ea (Z.min e ea) Ha0 Fa ltac:(lia) ltac:(lia)) as Hv.
  transitivity (F (cond_Zopp (a <? 0) (Zpos ma)) (ea + n)); [by destruct (a <? 0)|].
  apply (F_eq _ _ _ _ (Z.min e ea + n)); [lia|lia|].
  replace (ea + n - (Z.min e ea + n)) with (ea - Z.min e ea) by lia. rewrite Hv. do 2 f_equal. lia.
Qed.

(** A product needs no shift to the left: one of the factors has all the digits,
    or both are as small as numbers get. *)
Lemma mul_F a b e f : fits a e → fits b f → a ≠ 0 → b ≠ 0 → emin prec emax ≤ 0 →
  SFmul prec emax (F a e) (F b f) = F (a * b) (e + f).
Proof using All.
  intros Ha Hb Ha0 Hb0 Hmin.
  destruct (F_fits a e Ha Ha0) as (ma & ea & -> & Fa). destruct (F_fits b f Hb Hb0) as (mb & eb & -> & Fb).
  cbn [SFmul]. destruct (bounded_exp _ _ (float_bounded _ _ _ _ Fa)) as (Ca & _ & Ma & Da).
  destruct (bounded_exp _ _ (float_bounded _ _ _ _ Fb)) as (Cb & _ & Mb & Db).
  destruct (Zdigits2_bounds (Zpos ma)) as [[La _] Pa]; [done|]. destruct (Zdigits2_bounds (Zpos mb)) as [[Lb _] Pb]; [done|].
  assert (Hd : Zdigits2 (Zpos ma) + Zdigits2 (Zpos mb) - 1 ≤ Zdigits2 (Zpos (ma * mb))).
  { apply Zdigits2_ge; [|done]. rewrite Pos2Z.inj_mul.
    replace (_ - 1 - 1) with (Zdigits2 (Zpos ma) - 1 + (Zdigits2 (Zpos mb) - 1)) by lia.
    rewrite pow2_add by lia. apply Z.mul_le_mono_nonneg; try done; apply Z.pow_nonneg; lia. }
  assert (Hl : ea + eb ≤ last_bit (Zpos (ma * mb)) (ea + eb)).
  { unfold last_bit, fexp in *. lia. }
  rewrite binary_round_aux_spec by done.
  transitivity (binary_round prec emax (xorb (a <? 0) (b <? 0)) (ma * mb) (ea + eb)).
  { rewrite binary_round_spec. f_equal. unfold rnd. destruct (Z.leb_spec (last_bit (Zpos (ma * mb)) (ea + eb) - (ea + eb)) 0); [|done].
    replace (_ - _) with 0 by lia. unfold rne. cbn. by rewrite Z.mod_1_r, Z.div_1_r, Z.mul_1_r. }
  pose proof (float_signed a e ma ea (Z.min e ea) Ha0 Fa ltac:(lia) ltac:(lia)) as Va.
  pose proof (float_signed b f mb eb (Z.min f eb) Hb0 Fb ltac:(lia) ltac:(lia)) as Vb.
  transitivity (F (cond_Zopp (a <? 0) (Zpos ma) * cond_Zopp (b <? 0) (Zpos mb)) (ea + eb)).
  { by destruct (a <? 0), (b <? 0). }
  apply (F_eq _ _ _ _ (Z.min e ea + Z.min f eb)); [lia|lia|].
  replace (ea + eb - (Z.min e ea + Z.min f eb)) with ((ea - Z.min e ea) + (eb - Z.min f eb)) by lia.
  replace (e + f - (Z.min e ea + Z.min f eb)) with ((e - Z.min e ea) + (f - Z.min f eb)) by lia.
  rewrite !pow2_add by lia. nia.
Qed.

(** Comparison of positive numbers *)
Lemma compare_F a b e : fits a e → fits b e → 0 < a → 0 < b → SFcompare (F a e) (F b e) = Some (a ?= b).
Proof using All.
  intros Ha Hb Ha0 Hb0.
  destruct (F_fits a e Ha) as (ma & ea & -> & Fa); [lia|]. destruct (F_fits b e Hb) as (mb & eb & -> & Fb); [lia|].
  replace (a <? 0) with false by lia. replace (b <? 0) with false by lia. cbn [SFcompare]. f_equal.
  destruct (bounded_exp _ _ (float_bounded _ _ _ _ Fa)) as (Ca & _ & _ & _).
  destruct (bounded_exp _ _ (float_bounded _ _ _ _ Fb)) as (Cb & _ & _ & _).
  set (k := Z.min (Z.min ea eb) e).
  pose proof (float_value _ _ _ _ Fa k ltac:(lia) ltac:(lia)) as Va.
  pose proof (float_value _ _ _ _ Fb k ltac:(lia) ltac:(lia)) as Vb. rewrite Z.abs_eq in Va, Vb by lia.
  pose proof (pow2_pos (e - k) ltac:(lia)) as Hp.
  assert (Hlt : ∀ x y m n i j, fexp prec emax (Zdigits2 (Zpos m) + i) = i → fexp prec emax (Zdigits2 (Zpos n) + j) = j →
    k ≤ i → i < j → x * 2 ^ (e - k) = Zpos m * 2 ^ (i - k) → y * 2 ^ (e - k) = Zpos n * 2 ^ (j - k) → x < y).
  { intros x y m n i j Ci Cj Hi Hij Ex Ey.
    destruct (Zdigits2_bounds (Zpos m)) as [[_ Um] Pm]; [done|]. destruct (Zdigits2_bounds (Zpos n)) as [[Ln _] Pn]; [done|].
    assert (Hd : Zdigits2 (Zpos m) + i ≤ Zdigits2 (Zpos n) + j - 1) by (unfold fexp in *; lia).
    assert (Zpos m * 2 ^ (i - k) < 2 ^ (Zdigits2 (Zpos m) + (i - k))).
    { rewrite pow2_add by lia. apply Z.mul_lt_mono_pos_r; [apply pow2_pos; lia|done]. }
    assert (2 ^ (Zdigits2 (Zpos n) - 1 + (j - k)) ≤ Zpos n * 2 ^ (j - k)).
    { rewrite pow2_add by lia. apply Z.mul_le_mono_nonneg_r; [apply Z.pow_nonneg; lia|done]. }
    pose proof (Z.pow_le_mono_r 2 (Zdigits2 (Zpos m) + (i - k)) (Zdigits2 (Zpos n) - 1 + (j - k)) ltac:(lia) ltac:(lia)).
    nia. }
  destruct (Z.compare_spec ea eb) as [->|H|H].
  - pose proof (pow2_pos (eb - k) ltac:(lia)). change (Pos.compare_cont Eq ma mb) with (Zpos ma ?= Zpos mb).
    destruct (Z.compare_spec (Zpos ma) (Zpos mb)), (Z.compare_spec a b); try done; nia.
  - symmetry. apply Z.compare_lt_iff. by eapply (Hlt a b ma mb ea eb); try done; lia.
  - symmetry. apply Z.compare_gt_iff. by eapply (Hlt b a mb ma eb ea); try done; lia.
Qed.

(** *** Rounding itself *)

(** A mantissa that was rounded is its own rounding. *)
Lemma round_pack s q t : emin prec emax ≤ t → 2 ^ (prec - 1) ≤ Zpos q ≤ 2 ^ prec ∨ t = emin prec emax ∧ Zpos q ≤ 2 ^ prec →
  binary_round prec emax s q t = pack s (Zpos q) t.
Proof using All.
  intros Ht Hq. rewrite binary_round_spec. pose proof (pow2_pos (prec - 1) ltac:(lia)).
  assert (E : 2 ^ prec = 2 * 2 ^ (prec - 1)) by (rewrite <- pow2_S by lia; f_equal; lia).
  destruct (Z.eq_dec (Zpos q) (2 ^ prec)) as [Eq|Hne].
  - assert (Hd : last_bit (Zpos q) t = t + 1).
    { unfold last_bit. rewrite Eq, (digits2_unique _ (prec + 1)); [|lia|rewrite pow2_S by lia; replace (prec + 1 - 1) with prec by lia; lia].
      unfold fexp. lia. }
    rewrite Hd, Eq. replace (t + 1 - t) with 1 by lia. rewrite (rnd_exact (2 ^ (prec - 1)) 1) by lia.
    unfold pack. rewrite Z.eqb_refl. by rewrite (proj2 (Z.eqb_neq _ _)) by lia.
  - assert (Hd : last_bit (Zpos q) t = t); [|by rewrite Hd, Z.sub_diag, (rnd_exact (Zpos q) 0) by lia].
    unfold last_bit, fexp. pose proof (Zdigits2_le (Zpos q) prec).
    destruct Hq as [Hq|Hq]; [|lia]. pose proof (Zdigits2_ge (Zpos q) prec). lia.
Qed.

(** A number with at least two bits more than are kept *)
Lemma round_rne s m e t : t = last_bit (Zpos m) e → e ≤ t → binary_round prec emax s m e = pack s (rne (Zpos m) (t - e)) t.
Proof using All.
  intros -> He. rewrite binary_round_spec. f_equal. unfold rnd.
  destruct (Z.leb_spec (last_bit (Zpos m) e - e) 0); [|done].
  replace (_ - e) with 0 by lia. unfold rne. cbn. by rewrite Z.mod_1_r, Z.div_1_r, Z.mul_1_r.
Qed.

(** The digits far behind count only as zero or not. *)
Lemma round_sticky s m m' c e : 0 ≤ c → prec + c < Zdigits2 (Zpos m) →
  Zpos m' = 2 * (Zpos m / 2 ^ c) + (if Zpos m mod 2 ^ c =? 0 then 0 else 1) →
  binary_round prec emax s m' (e + c - 1) = binary_round prec emax s m e.
Proof using All.
  intros Hc Hd Em. set (d := Zdigits2 (Zpos m)) in *.
  assert (Hd' : Zdigits2 (Zpos m') = d - c + 1) by (rewrite Em; apply sticky_digits; [done|lia|done]).
  assert (Hb : last_bit (Zpos m') (e + c - 1) = last_bit (Zpos m) e).
  { unfold last_bit. rewrite Hd'. f_equal. fold d. lia. }
  assert (Hlb : d + e - prec ≤ last_bit (Zpos m) e) by (unfold last_bit, fexp; fold d; lia).
  rewrite !(round_rne _ _ _ (last_bit (Zpos m) e)) by (done || lia). f_equal.
  rewrite Em, rne_sticky by lia. f_equal. lia.
Qed.

(** Overflow and underflow *)
Lemma round_overflow s m e : emax < Zdigits2 (Zpos m) + e → binary_round prec emax s m e = S754_infinity s.
Proof using All.
  intros Hd. rewrite binary_round_spec. set (t := last_bit (Zpos m) e).
  assert (Ht : t = Z.max (Zdigits2 (Zpos m) + e - prec) (emin prec emax)) by done.
  destruct (Zdigits2_bounds (Zpos m)) as [[Hl _] Hp]; [done|].
  assert (Hq : 0 < rnd (Zpos m) (t - e)).
  { unfold rnd. destruct (Z.leb_spec (t - e) 0).
    - pose proof (pow2_pos (- (t - e))). nia.
    - assert (1 ≤ rne (Zpos m) (t - e)); [|lia]. apply rne_ge; [lia|].
      pose proof (Z.pow_le_mono_r 2 (t - e) (Zdigits2 (Zpos m) - 1)). unfold emin in *. lia. }
  unfold pack. pose proof (pow2_pos (prec - 1) ltac:(lia)).
  destruct (_ =? 2 ^ prec).
  - destruct (2 ^ (prec - 1)) as [|q|q]; [lia| |lia]. by rewrite (proj2 (Z.leb_gt _ _)) by lia.
  - destruct (rnd _ _) as [|q|q]; [lia| |lia]. by rewrite (proj2 (Z.leb_gt _ _)) by lia.
Qed.

Lemma round_underflow s m e : 2 * Zpos m ≤ 2 ^ (emin prec emax - e) → binary_round prec emax s m e = S754_zero s.
Proof using All.
  intros Hm. set (k := emin prec emax - e) in *.
  assert (Hk : 0 < k) by (destruct (Z.lt_trichotomy k 0) as [H|[H|H]]; [rewrite Z.pow_neg_r in Hm by done; lia|rewrite H in Hm; cbn in Hm; lia|done]).
  assert (Hk2 : 2 ^ k = 2 * 2 ^ (k - 1)) by (rewrite <- pow2_S by lia; f_equal; lia).
  assert (Hd : Zdigits2 (Zpos m) ≤ k).
  { apply Zdigits2_le; lia. }
  assert (Ht : last_bit (Zpos m) e = emin prec emax) by (unfold last_bit, fexp; lia).
  rewrite (round_rne _ _ _ _ (eq_sym Ht)) by lia. fold k.
  assert (rne (Zpos m) k = 0) as ->.
  { unfold rne. rewrite Z.div_small, Z.mod_small by lia.
    destruct (Z.ltb_spec (2 * Zpos m) (2 ^ k)); [done|]. by rewrite (proj2 (Z.eqb_eq _ _)) by lia. }
  unfold pack. by rewrite (proj2 (Z.eqb_neq _ _)) by (pose proof (pow2_pos prec); lia).
Qed.
End format.

(** A conversion of a number that fits into another format *)
Lemma to_format_F p1 m1 p2 m2 n e : 1 < p1 → p1 < m1 → 1 < p2 → p2 < m2 → fits p1 m1 n e →
  to_format p2 m2 (F p1 m1 n e) = F p2 m2 n e.
Proof.
  intros ? ? ? ? Hf. destruct (Z.eq_dec n 0) as [->|Hn]; [done|].
  destruct (F_fits p1 m1 ltac:(done) ltac:(done) n e Hf Hn) as (mz & ez & -> & Fm). cbn [to_format].
  transitivity (F p2 m2 (cond_Zopp (n <? 0) (Zpos mz)) ez); [by destruct (n <? 0)|].
  apply (F_eq p2 m2 ltac:(done) ltac:(done) _ _ _ _ (Z.min e ez)); [lia|lia|].
  by eapply (float_signed p1 m1); [done..|lia|lia].
Qed.

(** ** long double *)

Abbreviation ld_fits := (fits LDBL_MANT_DIG LDBL_MAX_EXP).

Lemma ld_fits_small n e : Z.abs n ≤ 2 ^ 113 → -16000 ≤ e ≤ 16000 → ld_fits n e.
Proof. intros. apply fits_small; unfold LDBL_MANT_DIG, LDBL_MAX_EXP, emin; lia. Qed.

Lemma ld_fits_pow n e j : Z.abs n ≤ 2 ^ 113 → 0 ≤ j → -16000 ≤ e + j ≤ 16000 → ld_fits (n * 2 ^ j) e.
Proof. intros. apply fits_mul_pow; [unfold LDBL_MANT_DIG, LDBL_MAX_EXP; lia..|done|]. by apply ld_fits_small. Qed.

Lemma ld_add_dyadic a b e : ld_fits a e → ld_fits b e → a ≠ 0 → b ≠ 0 →
  ld_add (ld_dyadic a e) (ld_dyadic b e) = ld_dyadic (a + b) e.
Proof. apply add_F; done. Qed.
Lemma ld_sub_dyadic a b e : ld_fits a e → ld_fits b e → a ≠ 0 → b ≠ 0 →
  ld_sub (ld_dyadic a e) (ld_dyadic b e) = ld_dyadic (a - b) e.
Proof. apply sub_F; done. Qed.
Lemma ld_mul_dyadic a b e f : ld_fits a e → ld_fits b f → a ≠ 0 → b ≠ 0 →
  ld_mul (ld_dyadic a e) (ld_dyadic b f) = ld_dyadic (a * b) (e + f).
Proof. intros. apply mul_F; done. Qed.
Lemma scalbnl_dyadic a e n : ld_fits a e → scalbnl (ld_dyadic a e) n = ld_dyadic a (e + n).
Proof. apply ldexp_F; done. Qed.
Lemma ld_dyadic_shift n e j : 0 ≤ j → ld_dyadic (n * 2 ^ j) (e - j) = ld_dyadic n e.
Proof. apply F_shift; done. Qed.
Lemma ld_dyadic_scale n e j : 0 ≤ j → ld_dyadic (n * 2 ^ j) e = ld_dyadic n (e + j).
Proof. intros. rewrite <- (ld_dyadic_shift n (e + j) j) by done. f_equal. lia. Qed.
Lemma ld_ge_dyadic a b e : ld_fits a e → ld_fits b e → 0 < a → 0 < b → ld_ge (ld_dyadic a e) (ld_dyadic b e) = (b <=? a).
Proof.
  intros. unfold ld_ge, SFleb. setoid_rewrite compare_F; [|done..].
  destruct (Z.compare_spec b a); symmetry; lia.
Qed.
Lemma ld_zero_dyadic a e : ld_fits a e → ld_zero (ld_dyadic a e) = (a =? 0).
Proof.
  intros H. destruct (Z.eqb_spec a 0) as [->|Ha]; [done|].
  destruct (F_fits LDBL_MANT_DIG LDBL_MAX_EXP ltac:(done) ltac:(done) a e H Ha) as (m & e' & E & _).
  change (ld_dyadic a e) with (F LDBL_MANT_DIG LDBL_MAX_EXP a e). by rewrite E.
Qed.
(** A zero of either sign changes nothing. *)
Lemma ld_add_zero_r a e s : ld_fits a e → a ≠ 0 → ld_add (ld_dyadic a e) (S754_zero s) = ld_dyadic a e.
Proof.
  intros H Ha. destruct (F_fits LDBL_MANT_DIG LDBL_MAX_EXP ltac:(done) ltac:(done) a e H Ha) as (m & e' & E & _).
  change (ld_dyadic a e) with (F LDBL_MANT_DIG LDBL_MAX_EXP a e). by rewrite E.
Qed.

Lemma ld_add_zero_l a e : ld_fits a e → a ≠ 0 → ld_add (S754_zero false) (ld_dyadic a e) = ld_dyadic a e.
Proof.
  intros H Ha. destruct (F_fits LDBL_MANT_DIG LDBL_MAX_EXP ltac:(done) ltac:(done) a e H Ha) as (m & e' & E & _).
  change (ld_dyadic a e) with (F LDBL_MANT_DIG LDBL_MAX_EXP a e). by rewrite E.
Qed.
Lemma ld_sub_zero_r a e : ld_fits a e → ld_sub (ld_dyadic a e) (S754_zero false) = ld_dyadic a e.
Proof.
  intros H. destruct (Z.eq_dec a 0) as [->|Ha]; [done|].
  destruct (F_fits LDBL_MANT_DIG LDBL_MAX_EXP ltac:(done) ltac:(done) a e H Ha) as (m & e' & E & _).
  change (ld_dyadic a e) with (F LDBL_MANT_DIG LDBL_MAX_EXP a e). by rewrite E.
Qed.

Lemma land_1 x : Z.land x 1 = x mod 2.
Proof. apply (Z.land_ones x 1). lia. Qed.
