(* ===== verification/Ratio.v ===== *)
(** Rounding a quotient: the Standard Library's [SFdiv] in closed form.

    A quotient is rounded by its first digits and whether the others are all
    zero: [stk n d] is [n / d] with one more bit, which says so.  [div_round]
    says that [SFdiv] rounds it like a number with those digits, whatever the
    number of digits that were kept, if there are enough. *)
From S2P Require Import Prelude Ieee Rounding.

(** ** The sticky quotient *)

Definition stk (n d : Z) : Z := 2 * (n / d) + (if n mod d =? 0 then 0 else 1).

Lemma stk_scale n d k : 0 < d → 0 < k → stk (n * k) (d * k) = stk n d.
Proof.
  intros Hd Hk. unfold stk. rewrite Z.div_mul_cancel_r, Z.mul_mod_distr_r by lia.
  replace (n mod d * k =? 0) with (n mod d =? 0); [done|].
  destruct (Z.eqb_spec (n mod d) 0), (Z.eqb_spec (n mod d * k) 0); done || nia.
Qed.

(** By quotient and remainder *)
Lemma stk_split q r d : 0 ≤ r < d → stk (q * d + r) d = 2 * q + (if r =? 0 then 0 else 1).
Proof.
  intros Hr. unfold stk. replace (q * d + r) with (r + q * d) by lia.
  by rewrite Z.div_add, Z.mod_add, Z.div_small, Z.mod_small by lia.
Qed.

(** With fewer digits kept *)
Lemma stk_coarse n d j : 0 < d → 0 ≤ j →
  stk n (d * 2 ^ j) = 2 * (stk n d / 2 ^ (j + 1)) + (if stk n d mod 2 ^ (j + 1) =? 0 then 0 else 1).
Proof.
  intros Hd Hj. pose proof (pow2_pos j Hj) as Hp. rewrite pow2_S by lia.
  pose proof (Z.div_mod n d ltac:(lia)) as En. pose proof (Z.mod_pos_bound n d Hd) as Hr.
  pose proof (Z.div_mod (n / d) (2 ^ j) ltac:(lia)) as Eq. pose proof (Z.mod_pos_bound (n / d) (2 ^ j) Hp) as Hs.
  unfold stk at 2 3. remember (n mod d) as r eqn:E1. remember (n / d) as q eqn:E2.
  remember (q / 2 ^ j) as h eqn:E3. remember (q mod 2 ^ j) as l eqn:E4. clear E1 E2 E3 E4.
  replace n with (h * (d * 2 ^ j) + (l * d + r)) by nia. rewrite stk_split by nia.
  assert (∃ b, b = (if r =? 0 then 0 else 1) ∧ (b = 0 ∧ r = 0 ∨ b = 1 ∧ 0 < r)) as (b & Eb & Hb).
  { eexists. split; [done|]. destruct (Z.eqb_spec r 0); lia. }
  rewrite <- Eb. clear Eb. replace (2 * q + b) with (2 * l + b + h * (2 * 2 ^ j)) by lia.
  rewrite Z.div_add, Z.mod_add, Z.div_small, Z.mod_small by lia.
  replace (2 * l + b =? 0) with (l * d + r =? 0); [done|].
  destruct (Z.eqb_spec (l * d + r) 0), (Z.eqb_spec (2 * l + b) 0); done || nia.
Qed.

Lemma rne_stk n d j k : 0 < d → 0 ≤ j → 2 ≤ k → rne (stk n (d * 2 ^ j)) k = rne (stk n d) (k + j).
Proof. intros. rewrite stk_coarse, rne_sticky by lia. f_equal. lia. Qed.

(** The rounding of [n / d] at the bit [2^t] does not depend on how it is scaled. *)
Lemma rne_ratio n d c c' t C : 0 < d → 0 ≤ c ≤ C → 0 ≤ c' → 1 ≤ t - c' + c →
  rne (stk (n * 2 ^ c) (d * 2 ^ c')) (t - c' + c + 1) = rne (stk (n * 2 ^ C) d) (t + C + 1).
Proof.
  intros Hd Hc Hc' Ht. pose proof (pow2_pos (C - c) ltac:(lia)). pose proof (pow2_pos c' Hc').
  rewrite <- (stk_scale _ _ (2 ^ (C - c))) by nia. rewrite <- !Z.mul_assoc, <- !pow2_add by lia.
  rewrite rne_stk by lia. replace (c + (C - c)) with C by lia. f_equal. lia.
Qed.

Lemma stk_digits n d t : 0 < d → 1 ≤ t → d * 2 ^ (t - 1) ≤ n < d * 2 ^ t → Zdigits2 (stk n d) = t + 1.
Proof.
  intros Hd Ht Hn.
  assert (2 ^ (t - 1) ≤ n / d < 2 ^ t) by (split; [apply Z.div_le_lower_bound; lia|apply Z.div_lt_upper_bound; lia]).
  pose proof (pow2_pos (t - 1) ltac:(lia)). unfold stk. apply digits2_unique; [destruct (_ =? 0); lia|].
  rewrite pow2_S by lia. replace (t + 1 - 1) with (t - 1 + 1) by lia. rewrite pow2_S by lia. destruct (_ =? 0); lia.
Qed.

Lemma stk_nonneg n d : 0 ≤ n → 0 < d → 0 ≤ stk n d.
Proof. intros. pose proof (Z.div_pos n d). unfold stk. destruct (_ =? 0); lia. Qed.

Lemma stk_le n d k : 0 < d → n < d * k → stk n d ≤ 2 * k - 1.
Proof.
  intros. assert (n / d < k) by (apply Z.div_lt_upper_bound; lia). unfold stk. destruct (_ =? 0); lia.
Qed.

(** Comparing [a * 2^x] and [b * 2^y]: only [x - y] matters. *)
Lemma pow2_lt_scale a b x y x' y' : a * 2 ^ x < b * 2 ^ y → 0 ≤ b → 0 ≤ x → 0 ≤ y → 0 ≤ x' → 0 ≤ y' →
  x' - y' ≤ x - y → 0 ≤ a → a * 2 ^ x' < b * 2 ^ y'.
Proof.
  intros H Hb Hx Hy Hx' Hy' Hd Ha. apply (Z.mul_lt_mono_pos_r (2 ^ y)); [by apply pow2_pos|].
  rewrite <- !Z.mul_assoc, <- !pow2_add by lia.
  apply (Z.le_lt_trans _ (a * 2 ^ (x + y'))).
  - apply Z.mul_le_mono_nonneg_l; [done|]. apply Z.pow_le_mono_r; lia.
  - replace (y' + y) with (y + y') by lia. rewrite !pow2_add, !Z.mul_assoc by lia. apply Z.mul_lt_mono_pos_r; [by apply pow2_pos|done].
Qed.

Lemma pow2_le_scale a b x y x' y' : a * 2 ^ x ≤ b * 2 ^ y → 0 ≤ b → 0 ≤ x → 0 ≤ y → 0 ≤ x' → 0 ≤ y' →
  x' - y' ≤ x - y → 0 ≤ a → a * 2 ^ x' ≤ b * 2 ^ y'.
Proof.
  intros H Hb Hx Hy Hx' Hy' Hd Ha. apply (Z.mul_le_mono_pos_r _ _ (2 ^ y)); [by apply pow2_pos|].
  rewrite <- !Z.mul_assoc, <- !pow2_add by lia.
  apply (Z.le_trans _ (a * 2 ^ (x + y'))).
  - apply Z.mul_le_mono_nonneg_l; [done|]. apply Z.pow_le_mono_r; lia.
  - replace (y' + y) with (y + y') by lia. rewrite !pow2_add, !Z.mul_assoc by lia. apply Z.mul_le_mono_nonneg_r; [apply Z.pow_nonneg; lia|done].
Qed.

(** ** [SFdiv] *)

(** What [new_location] says of a remainder, as two more bits *)
Lemma new_location_stk n d (q := n / d) (r := n mod d) : 0 < d →
  shifted (shr_record_of_loc q (new_location d r)) (stk (2 * n) d) 2 ↔ 0 ≤ q.
Proof.
  intros Hd. split; [by intros [? _]; destruct (new_location d r) as [|[]]|]. intros Hq.
  pose proof (Z.div_mod n d ltac:(lia)) as En. pose proof (Z.mod_pos_bound n d Hd) as Hr. fold q r in En, Hr. clearbody q r.
  assert (Hloc : new_location d r = if r =? 0 then loc_Exact else loc_Inexact (2 * r ?= d)).
  { unfold new_location, new_location_even, new_location_odd. destruct (Z.even d) eqn:Ed; [done|].
    destruct (Z.eqb_spec r 0); [done|]. f_equal.
    assert (2 * r ≠ d) by (intros E; rewrite <- E in Ed; by rewrite Z.even_mul in Ed).
    assert (2 * r + 1 ≠ d ∨ 2 * r + 1 = d) by lia.
    destruct (Z.compare_spec (2 * r + 1) d), (Z.compare_spec (2 * r) d); done || lia. }
  rewrite Hloc. clear Hloc.
  assert (Es : stk (2 * n) d = 4 * q + (if r =? 0 then 0 else match 2 * r ?= d with Lt => 1 | Eq => 2 | Gt => 3 end)).
  { destruct (Z_lt_le_dec (2 * r) d) as [Hlt|Hge].
    - replace (2 * n) with (2 * q * d + 2 * r) by lia. rewrite stk_split by lia.
      destruct (Z.eqb_spec r 0), (Z.eqb_spec (2 * r) 0), (Z.compare_spec (2 * r) d); lia.
    - replace (2 * n) with ((2 * q + 1) * d + (2 * r - d)) by lia. rewrite stk_split by lia.
      destruct (Z.eqb_spec r 0), (Z.eqb_spec (2 * r - d) 0), (Z.compare_spec (2 * r) d); lia. }
  rewrite Es. destruct (Z.eqb_spec r 0) as [E|E]; [|destruct (Z.compare_spec (2 * r) d)]; (split; [done|]).
  - exists 0. cbn. lia.
  - exists 0. cbn. lia.
  - exists 2. cbn. lia.
  - exists 2. cbn. lia.
Qed.

Section format.
Context (prec emax : Z) (Hprec : 1 < prec) (Hemax : prec < emax).

(** The rounding of [n / d * 2^e'], whose first bit is that of [2^(top-1)] *)
Lemma round_aux_ratio s n d e' top (T := fexp prec emax top) : 0 < d → 0 ≤ n → e' ≤ T →
  Zdigits2 (n / d) + e' = top ∨ n / d = 0 ∧ fexp prec emax e' = T → 0 ≤ rne (stk (2 * n) d) (T - e' + 2) ≤ 2 ^ prec →
  binary_round_aux prec emax s (n / d) e' (new_location d (n mod d)) = pack prec emax s (rne (stk (2 * n) d) (T - e' + 2)) T.
Proof using Hprec Hemax.
  intros Hd Hn He Htop Hq. unfold binary_round_aux, shr_fexp at 1.
  assert (Hf : fexp prec emax (Zdigits2 (n / d) + e') = T) by (destruct Htop as [->|[-> <-]]; done). rewrite Hf.
  pose proof (proj2 (new_location_stk n d Hd) (Z.div_pos n d Hn Hd)) as Hs.
  assert (∀ mrs e1, shr (shr_record_of_loc (n / d) (new_location d (n mod d))) e' (T - e') = (mrs, e1) →
    e1 = T ∧ shifted mrs (stk (2 * n) d) (T - e' + 2)) as Hshr.
  { intros mrs e1 E. destruct (T - e') as [|k|k] eqn:Ek; [| |lia]; cbn [shr] in E; inversion E; subst.
    - split; [lia|done].
    - split; [lia|]. replace (Zpos k + 2) with (2 + Zpos k) by lia. by apply shr_shifted. }
  destruct (shr _ e' (T - e')) as [mrs e1]. destruct (Hshr mrs e1 eq_refl) as [-> Hm]. clear Hshr.
  rewrite (shifted_rne mrs _ (T - e' + 2) ltac:(lia) Hm). apply renorm_pack; [done..|]. unfold T, fexp. lia.
Qed.

(** [SFdiv] rounds the quotient like the number with its first digits, more than
    are kept, and a sticky one. *)
Lemma div_round s1 m1 e1 s2 m2 e2 c c' (X := stk (Zpos m1 * 2 ^ c) (Zpos m2 * 2 ^ c')) :
  0 ≤ c → 0 ≤ c' → prec + 3 ≤ Zdigits2 X →
  SFdiv prec emax (S754_finite s1 m1 e1) (S754_finite s2 m2 e2) =
  binary_round prec emax (xorb s1 s2) (Z.to_pos X) (e1 - e2 + c' - c - 1).
Proof using Hprec Hemax.
  intros Hc Hc' HX. set (n := Zpos m1) in *. set (d := Zpos m2) in *. set (s := xorb s1 s2).
  pose proof (pow2_pos c Hc) as Hpc. pose proof (pow2_pos c' Hc') as Hpc'.
  assert (Hn0 : 0 < n) by (unfold n; lia). assert (Hd0 : 0 < d) by (unfold d; lia).
  set (t := Zdigits2 X - 1). set (D := e1 - e2). set (top := t + D + c' - c).
  assert (HX0 : 0 < X).
  { destruct (Z_lt_le_dec 0 X); [done|]. assert (Zdigits2 X ≤ 0 ∨ X < 0) as [?|HX1]; [|lia|].
    - destruct (Z.eq_dec X 0) as [E|]; [rewrite E in HX; cbn in HX; lia|right; lia].
    - exfalso. pose proof (Z.div_pos (n * 2 ^ c) (d * 2 ^ c') ltac:(nia) ltac:(nia)). unfold X, stk in HX1. destruct (_ =? 0); lia. }
  (* the first bit of the quotient *)
  assert (Ht : d * 2 ^ c' * 2 ^ (t - 1) ≤ n * 2 ^ c < d * 2 ^ c' * 2 ^ t).
  { destruct (Zdigits2_bounds X HX0) as [[Hl Hu] _]. fold t in Hl. replace (Zdigits2 X) with (t + 1) in Hu by lia.
    rewrite pow2_S in Hu by lia. replace t with (t - 1 + 1) in Hl by lia. rewrite pow2_S in Hl by lia.
    pose proof (Z.div_mod (n * 2 ^ c) (d * 2 ^ c') ltac:(nia)). pose proof (Z.mod_pos_bound (n * 2 ^ c) (d * 2 ^ c') ltac:(nia)).
    unfold X, stk in Hl, Hu. set (Q := n * 2 ^ c / (d * 2 ^ c')) in *.
    assert (2 ^ (t - 1) ≤ Q < 2 ^ t) by (destruct (_ =? 0); lia). nia. }
  (* the lengths of [n] and [d] give it up to one *)
  assert (Hlen : top - 1 ≤ Zdigits2 n - Zdigits2 d + D ≤ top).
  { pose proof (Zdigits2_bounds n Hn0) as [[Hn1 Hn2] Hn3]. pose proof (Zdigits2_bounds d Hd0) as [[Hd1 Hd2] Hd3].
    set (dn := Zdigits2 n) in *. set (dd := Zdigits2 d) in *.
    assert (dn + c ≤ dd + c' + t).
    { destruct (Z_lt_le_dec (dd + c' + t) (dn + c)); [|done]. exfalso.
      assert (2 ^ (dd + c' + t) ≤ 2 ^ (dn - 1 + c)) by (apply Z.pow_le_mono_r; lia). rewrite !pow2_add in * by lia.
      assert (2 ^ (dn - 1) * 2 ^ c ≤ n * 2 ^ c) by nia.
      assert (d * (2 ^ c' * 2 ^ t) < 2 ^ dd * (2 ^ c' * 2 ^ t)) by (apply Z.mul_lt_mono_pos_r; [|done]; pose proof (pow2_pos t); nia). lia. }
    assert (dd - 1 + c' + t - 1 < dn + c).
    { destruct (Z_lt_le_dec (dd - 1 + c' + t - 1) (dn + c)); [done|]. exfalso.
      assert (2 ^ (dn + c) ≤ 2 ^ (dd - 1 + c' + (t - 1))) by (apply Z.pow_le_mono_r; lia). rewrite !pow2_add in * by lia.
      assert (n * 2 ^ c < 2 ^ dn * 2 ^ c) by nia.
      assert (2 ^ (dd - 1) * (2 ^ c' * 2 ^ (t - 1)) ≤ d * (2 ^ c' * 2 ^ (t - 1))) by (apply Z.mul_le_mono_nonneg_r; [|done]; pose proof (pow2_pos (t - 1)); nia). lia. }
    unfold top. lia. }
  set (e' := Z.min (fexp prec emax (Zdigits2 n + e1 - (Zdigits2 d + e2))) (e1 - e2)).
  assert (HeD : e' ≤ D) by (unfold e', D; lia).
  assert (Hefexp : e' ≤ fexp prec emax top) by (unfold e', fexp; lia).
  transitivity (pack prec emax s (rne X (fexp prec emax top - (D + c' - c - 1))) (fexp prec emax top)).
  2:{ rewrite (round_rne prec emax Hprec Hemax s _ _ (fexp prec emax top)); rewrite ?Z2Pos.id by done; fold D.
      - done.
      - unfold last_bit. f_equal. unfold top. lia.
      - unfold fexp, top in *. lia. }
  assert (Ek : rne X (fexp prec emax top - (D + c' - c - 1)) = rne (stk (2 * (n * 2 ^ (D - e'))) d) (fexp prec emax top - e' + 2)).
  { set (T := fexp prec emax top) in *. unfold X.
    replace (2 * (n * 2 ^ (D - e'))) with (n * 2 ^ (D - e' + 1)) by (rewrite pow2_S by lia; lia).
    replace d with (d * 2 ^ 0) at 2 by lia. set (C := Z.max c (D - e' + 1)).
    replace (T - (D + c' - c - 1)) with (T - D - c' + c + 1) by lia.
    replace (T - e' + 2) with (T - D - 0 + (D - e' + 1) + 1) by lia.
    rewrite !(rne_ratio n d _ _ (T - D) C); try done; try lia. unfold T, fexp, top in *. lia. }
  rewrite Ek. cbn [SFdiv]. unfold SFdiv_core_binary. fold n d e'. 
  assert ((match e1 - e2 - e' with Z0 => n | Zpos _ => Z.shiftl n (e1 - e2 - e') | Zneg _ => 0 end) = n * 2 ^ (D - e')) as ->.
  { fold D. destruct (D - e') as [|k|k] eqn:E; [cbn; lia|apply Z.shiftl_mul_pow2; lia|lia]. }
  pose proof (surjective_pairing (Z.div_eucl (n * 2 ^ (D - e')) d)) as Hde. rewrite Hde.
  change (fst (Z.div_eucl (n * 2 ^ (D - e')) d)) with (n * 2 ^ (D - e') / d).
  change (snd (Z.div_eucl (n * 2 ^ (D - e')) d)) with ((n * 2 ^ (D - e')) mod d). fold s.
  pose proof (pow2_pos (D - e') ltac:(lia)) as HpD.
  apply round_aux_ratio; [done|nia|done| |].
  - destruct (Z_lt_le_dec e' top) as [Hlt|Hge]; [left|right].
    + enough (Zdigits2 (n * 2 ^ (D - e') / d) = top - e') by lia.
      assert (d * 2 ^ (top - e' - 1) ≤ n * 2 ^ (D - e')).
      { destruct Ht as [Ht _]. rewrite <- Z.mul_assoc, <- pow2_add in Ht by lia.
        apply (pow2_le_scale _ _ _ _ _ _ Ht); unfold top; lia. }
      assert (n * 2 ^ (D - e') < d * 2 ^ (top - e')).
      { destruct Ht as [_ Ht]. rewrite <- Z.mul_assoc, <- pow2_add in Ht by lia.
        apply (pow2_lt_scale _ _ _ _ _ _ Ht); unfold top; lia. }
      pose proof (pow2_pos (top - e' - 1) ltac:(lia)).
      assert (2 ^ (top - e' - 1) ≤ n * 2 ^ (D - e') / d < 2 ^ (top - e')) by (split; [apply Z.div_le_lower_bound; lia|apply Z.div_lt_upper_bound; lia]).
      apply digits2_unique; lia.
    + split; [|unfold e', fexp in *; lia]. apply Z.div_small. split; [nia|].
      destruct Ht as [_ Ht]. rewrite <- Z.mul_assoc, <- pow2_add in Ht by lia.
      replace d with (d * 2 ^ 0) by lia. apply (pow2_lt_scale _ _ _ _ _ _ Ht); unfold top in *; lia.
  - set (T := fexp prec emax top) in *. split; [apply rne_nonneg; [apply stk_nonneg; nia|lia]|].
    apply rne_le; [lia|]. rewrite <- pow2_add by lia.
    assert (n * 2 ^ (D - e') < d * 2 ^ (T + prec - e')).
    { destruct Ht as [_ Ht]. rewrite <- Z.mul_assoc, <- pow2_add in Ht by lia.
      apply (pow2_lt_scale _ _ _ _ _ _ Ht); unfold T, fexp, top in *; lia. }
    pose proof (stk_le (2 * (n * 2 ^ (D - e'))) d (2 * 2 ^ (T + prec - e')) Hd0 ltac:(lia)).
    replace (prec + (T - e' + 2)) with (T + prec - e' + 1 + 1) by lia. rewrite !pow2_S by lia. lia.
Qed.
End format.
