(* ===== verification/FloatBias.v ===== *)
(** Rounding by a bias, as floatscan.c does it: adding a large power of two to a
    long double drops the bits that are not to be kept, and subtracting it again
    gives the rounded number.  [kept_rounds] says that the number with so many
    bits kept is the one the Standard Library's [binary_round] gives, denormal
    numbers included. *)
From S2P Require Import Prelude Ieee Rounding.

(** ** Rounding by a bias *)

(** Adding to [2^112 * 2^k] rounds to a multiple of [2^k]. *)
Lemma ld_round_bias s M k e : (s = 1 ∨ s = -1) → 1 ≤ k → 0 ≤ M < 2 ^ 112 * 2 ^ k → -16000 ≤ e → e + k ≤ 16000 →
  ld_dyadic (s * (2 ^ 112 * 2 ^ k + M)) e = ld_dyadic (s * (2 ^ 112 + rne M k)) (e + k).
Proof.
  intros Hs Hk HM He Hek. pose proof (pow2_pos k ltac:(lia)) as Hp.
  pose proof (rne_nonneg M k ltac:(lia) ltac:(lia)). pose proof (rne_le M k (2 ^ 112) ltac:(lia) ltac:(lia)).
  assert (Hd : Zdigits2 (2 ^ 112 * 2 ^ k + M) = 113 + k).
  { apply digits2_unique; [lia|]. replace (113 + k - 1) with (112 + k) by lia. rewrite !pow2_add by lia.
    change (2 ^ 113) with (2 * 2 ^ 112). lia. }
  assert (Hl : e + k = last_bit 113 16384 (2 ^ 112 * 2 ^ k + M) e).
  { unfold last_bit. rewrite Hd. unfold fexp, emin. lia. }
  assert (Hb : ∀ b, binary_round 113 16384 b (Z.to_pos (2 ^ 112 * 2 ^ k + M)) e =
                    binary_round 113 16384 b (Z.to_pos (2 ^ 112 + rne M k)) (e + k)).
  { intros b. rewrite (round_rne 113 16384 ltac:(done) ltac:(done) b _ e (e + k)); rewrite ?Z2Pos.id by lia; [|done|lia].
    rewrite round_pack; rewrite ?Z2Pos.id by lia; [|done..|unfold emin; lia|left; change (113 - 1) with 112; lia].
    replace (e + k - e) with k by lia. by rewrite rne_add_even by (lia || done). }
  destruct Hs as [->| ->]; unfold ld_dyadic.
  - rewrite !Z.mul_1_l. specialize (Hb false).
    destruct (2 ^ 112 * 2 ^ k + M) as [|p|p] eqn:E1; [lia| |lia]. destruct (2 ^ 112 + rne M k) as [|q|q] eqn:E2; [lia| |lia].
    exact Hb.
  - specialize (Hb true).
    replace (-1 * (2 ^ 112 * 2 ^ k + M)) with (- (2 ^ 112 * 2 ^ k + M)) by lia.
    replace (-1 * (2 ^ 112 + rne M k)) with (- (2 ^ 112 + rne M k)) by lia.
    destruct (2 ^ 112 * 2 ^ k + M) as [|p|p] eqn:E1; [lia| |lia]. destruct (2 ^ 112 + rne M k) as [|q|q] eqn:E2; [lia| |lia].
    exact Hb.
Qed.

(** [(long double)scalbn(1, k)] *)
Lemma two_to k : 0 ≤ k ≤ 900 → to_ldouble (scalbn (ld_of_int 1) k) = ld_dyadic 1 k.
Proof.
  intros Hk. replace (scalbn (ld_of_int 1) k) with (F 53 1024 1 k).
  - apply (to_format_F 53 1024 113 16384); [done..|]. apply fits_small; unfold emin; lia.
  - unfold scalbn. change (ld_of_int 1) with (S754_finite false (2 ^ 112) (-112)). cbn [SFldexp].
    symmetry. change (F 53 1024 1 k) with (binary_round 53 1024 false 1 k).
    replace (-112 + k) with (k - 112) by lia. apply binary_round_shift; [done..|lia|done].
Qed.

Lemma bias_dyadic k s : (s = 1 ∨ s = -1) → 0 ≤ k ≤ 900 →
  copysignl (to_ldouble (scalbn (ld_of_int 1) k)) (ld_of_int s) = ld_dyadic s k.
Proof.
  intros Hs Hk. rewrite two_to by done.
  assert (Hf : ld_fits 1 k) by (apply ld_fits_small; lia).
  destruct (F_fits LDBL_MANT_DIG LDBL_MAX_EXP ltac:(done) ltac:(done) 1 k Hf) as (m & e & E & _); [done|].
  change (F LDBL_MANT_DIG LDBL_MAX_EXP 1 k) with (ld_dyadic 1 k) in E.
  destruct Hs as [->| ->]; unfold copysignl.
  - rewrite E. done.
  - change (ld_dyadic (-1) k) with (F LDBL_MANT_DIG LDBL_MAX_EXP (- (1)) k). rewrite F_neg by done.
    change (F LDBL_MANT_DIG LDBL_MAX_EXP 1 k) with (ld_dyadic 1 k). rewrite E. done.
Qed.

(** ** The value *)

(** float and double; the code's [emin] is the exponent of the last bit. *)
Definition narrow (p mx : Z) : Prop := p = FLT_MANT_DIG ∧ mx = FLT_MAX_EXP ∨ p = DBL_MANT_DIG ∧ mx = DBL_MAX_EXP.

(** [s * V * 2^e], rounded to [p] digits *)
Definition rounds_to (p mx s V e : Z) : spec_float := binary_round p mx (s <? 0) (Z.to_pos V) e.

Lemma narrow_range p mx : narrow p mx → 1 < p ∧ p < mx ∧ emin p mx = 3 - mx - p ∧ (p = 24 ∧ mx = 128 ∨ p = 53 ∧ mx = 1024).
Proof.
  unfold narrow, FLT_MANT_DIG, FLT_MAX_EXP, DBL_MANT_DIG, DBL_MAX_EXP, emin. intros H. lia.
Qed.

Section value.
Context (p mx : Z) (Hf : narrow p mx).

(** [V] with its top bit at [2^116], the top of the number at [2^top]: when
    [bits] of it are kept, the rounded number is the rounded constant. *)
Lemma kept_rounds s V top : (s = 1 ∨ s = -1) → 2 ^ 116 ≤ V < 2 ^ 117 → (s = -1 → emin p mx < top) →
  let bits := if top - emin p mx <? p then if top - emin p mx <? 0 then 0 else top - emin p mx else p in
  F p mx (s * rne V (117 - bits)) (top - bits) = rounds_to p mx s V (top - 117).
Proof using Hf.
  intros Hs HV Hneg bits. destruct (narrow_range p mx Hf) as (Hp & Hpm & Em & Hpp). set (em := emin p mx) in *.
  assert (Hb : 0 ≤ bits ≤ p ∧ (bits = 0 ∧ top ≤ em ∨ bits = Z.min p (top - em) ∧ em < top)).
  { subst bits. destruct (Z.ltb_spec (top - em) p); [destruct (Z.ltb_spec (top - em) 0)|]; lia. }
  assert (Hbits : ∃ b, b = bits) by eauto. destruct Hbits as [b Eb]. rewrite <- Eb in *. clear bits Eb. rename b into bits.
  destruct Hb as [Hb Hcase].
  assert (Hd : Zdigits2 V = 117) by (apply digits2_unique; lia).
  assert (H117 : 2 ^ 117 = 2 ^ bits * 2 ^ (117 - bits)) by (rewrite <- pow2_add by lia; f_equal; lia).
  assert (Hq : 0 ≤ rne V (117 - bits) ≤ 2 ^ bits) by (split; [apply rne_nonneg; lia|apply rne_le; lia]).
  assert (Hq1 : 1 ≤ bits → 2 ^ (bits - 1) ≤ rne V (117 - bits)).
  { intros. apply rne_ge; [lia|]. rewrite <- pow2_add by lia. replace (bits - 1 + (117 - bits)) with 116 by lia. lia. }
  set (q := rne V (117 - bits)) in *. unfold rounds_to.
  assert (Hlast : last_bit p mx V (top - 117) = Z.max (top - p) em).
  { unfold last_bit, fexp. rewrite Hd. fold em. lia. }
  assert (Hsgn : q ≠ 0 → F p mx (s * q) (top - bits) = binary_round p mx (s <? 0) (Z.to_pos q) (top - bits)).
  { intros. rewrite F_sign by nia. f_equal; [destruct Hs as [->| ->]; lia|]. f_equal. destruct Hs as [->| ->]; lia. }
  destruct Hcase as [[-> Htop]|[Ebits Htop]].
  - (* at or below the last bit *)
    assert (s = 1) as -> by lia. cbn [Z.ltb Z.compare] in *.
    destruct (Z.eq_dec top em) as [->|Hne].
    + rewrite (round_rne p mx Hp Hpm false _ _ em) by (rewrite ?Z2Pos.id, ?Hlast by lia; lia).
      rewrite Z2Pos.id by lia. replace (em - (em - 117)) with (117 - 0) by lia. fold q.
      destruct (Z.eq_dec q 0) as [E|Hq0]; [|rewrite Hsgn, round_pack, Z2Pos.id by lia; f_equal; lia].
      rewrite E. unfold pack. by rewrite (proj2 (Z.eqb_neq 0 (2 ^ p))) by (pose proof (pow2_pos p); lia).
    + rewrite (round_underflow p mx Hp Hpm _ (Z.to_pos V)); [|rewrite Z2Pos.id by lia; fold em;
        pose proof (Z.pow_le_mono_r 2 118 (em - (top - 117)) ltac:(lia) ltac:(lia)); lia].
      destruct (Z.eq_dec q 0) as [->|Hq0]; [done|]. rewrite Hsgn by done. apply round_underflow; [done..|].
      fold em. rewrite Z2Pos.id by lia. pose proof (Z.pow_le_mono_r 2 1 (em - (top - 0)) ltac:(lia) ltac:(lia)). lia.
  - specialize (Hq1 ltac:(lia)). pose proof (pow2_pos (bits - 1) ltac:(lia)).
    pose proof (Z.pow_le_mono_r 2 bits p ltac:(lia) ltac:(lia)) as Hbp.
    rewrite (round_rne p mx Hp Hpm _ _ _ (top - bits)) by (rewrite ?Z2Pos.id, ?Hlast by lia; lia).
    rewrite Z2Pos.id by lia. replace (top - bits - (top - 117)) with (117 - bits) by lia. fold q.
    rewrite Hsgn by lia. rewrite round_pack, Z2Pos.id by (rewrite ?Z2Pos.id by lia;
      destruct (Z.eq_dec bits p) as [->|]; lia). done.
Qed.
End value.
