(* ===== verification/CMonad.v ===== *)
(** The monad in which the C code is written down.

    A C function is a state transformer with four outcomes: it returns a value
    ([Ret]), ends the process ([Halt], [_exit] and everything built on it), has
    undefined behaviour ([Fault], an access outside the objects the model
    knows), or runs out of loop fuel ([Diverge]).  Loops are [loop body x]: at
    most 2^64 iterations, run on a binary counter so that they still evaluate,
    which no loop over a 64-bit address space can exceed; the rule [wp_loop]
    proves a result from an invariant and a decreasing measure, so [Diverge] is
    excluded by proof and never assumed away. *)
From S2P Require Import Prelude.

Inductive outcome (S A : Type) : Type :=
  | Ret (a : A) (s : S)
  | Halt (code : Z) (s : S)
  | Fault
  | Diverge.
Arguments Ret {S A} a s.
Arguments Halt {S A} code s.
Arguments Fault {S A}.
Arguments Diverge {S A}.

Definition M (S A : Type) : Type := S → outcome S A.

Definition ret {S A} (a : A) : M S A := λ s, Ret a s.
Definition bind {S A B} (c : M S A) (k : A → M S B) : M S B := λ s,
  match c s with
  | Ret a s' => k a s'
  | Halt code s' => Halt code s'
  | Fault => Fault
  | Diverge => Diverge
  end.
Definition fault {S A} : M S A := λ _, Fault.
Definition diverge {S A} : M S A := λ _, Diverge.
Definition halt {S A} (code : Z) : M S A := λ s, Halt code s.
Definition get {S} : M S S := λ s, Ret s s.
Definition gets {S A} (f : S → A) : M S A := λ s, Ret (f s) s.
Definition put {S} (s : S) : M S unit := λ _, Ret tt s.
Definition modify {S} (f : S → S) : M S unit := λ s, Ret tt (f s).
Definition of_option {S A} (o : option A) : M S A :=
  match o with Some a => ret a | None => fault end.

Declare Scope c_scope.
Delimit Scope c_scope with c.
Notation "x <- c1 ;; c2" := (bind c1 (λ x, c2))
  (at level 100, c1 at next level, right associativity) : c_scope.
Notation "'let*' p ':=' c1 'in' c2" := (bind c1 (λ x, match x with p => c2 end))
  (at level 100, p strict pattern, c1 at level 200, c2 at level 200) : c_scope.
Notation "c1 ;; c2" := (bind c1 (λ _, c2))
  (at level 100, right associativity) : c_scope.
#[global] Open Scope c_scope.

(** ** Loops *)

Inductive step (X R : Type) : Type :=
  | Continue (x : X)
  | Break (r : R).
Arguments Continue {X R} x.
Arguments Break {X R} r.

Fixpoint iter_pos {S X R} (body : X → M S (step X R)) (p : positive) (x : X)
    : M S (step X R) :=
  match p with
  | xH => body x
  | xO q =>
      r <- iter_pos body q x ;;
      match r with Continue x' => iter_pos body q x' | Break r => ret (Break r) end
  | xI q =>
      r <- body x ;;
      match r with
      | Break r => ret (Break r)
      | Continue x' =>
          r' <- iter_pos body q x' ;;
          match r' with Continue x'' => iter_pos body q x'' | Break r => ret (Break r) end
      end
  end.

Definition loop_fuel : positive := 18446744073709551616.

Definition loop {S X R} (body : X → M S (step X R)) (x : X) : M S R :=
  r <- iter_pos body loop_fuel x ;;
  match r with Break r => ret r | Continue _ => diverge end.

(** ** Total correctness *)

(** [wpx c Q H s]: from [s], [c] returns in a state satisfying [Q] or ends the
    process in one satisfying [H]; no fault, no divergence. *)
Definition wpx {S A} (c : M S A) (Q : A → S → Prop) (H : Z → S → Prop) (s : S) : Prop :=
  match c s with
  | Ret a s' => Q a s'
  | Halt code s' => H code s'
  | Fault | Diverge => False
  end.

Definition wp {S A} (c : M S A) (Q : A → S → Prop) (s : S) : Prop := wpx c Q (λ _ _, False) s.

Section rules.
Context {S : Type}.
Implicit Types (s : S).

Lemma wpx_mono {A} (c : M S A) (Q Q' : A → S → Prop) H s :
    wpx c Q H s → (∀ a s', Q a s' → Q' a s') → wpx c Q' H s.
Proof. unfold wpx. destruct (c s); eauto. Qed.

Lemma wpx_bind {A B} (c : M S A) (k : A → M S B) Q H s :
    wpx c (λ a s', wpx (k a) Q H s') H s → wpx (bind c k) Q H s.
Proof. unfold wpx, bind. destruct (c s); done. Qed.

Lemma wp_mono {A} (c : M S A) (Q Q' : A → S → Prop) s :
    wp c Q s → (∀ a s', Q a s' → Q' a s') → wp c Q' s.
Proof. apply wpx_mono. Qed.

Lemma wp_ret {A} (a : A) Q s : Q a s → wp (ret a) Q s.
Proof. done. Qed.

Lemma wp_bind {A B} (c : M S A) (k : A → M S B) Q s :
    wp c (λ a s', wp (k a) Q s') s → wp (bind c k) Q s.
Proof. apply wpx_bind. Qed.

Lemma wp_Ret {A} (c : M S A) a s s' : wp c (λ a' s'', a' = a ∧ s'' = s') s ↔ c s = Ret a s'.
Proof.
    unfold wp, wpx. destruct (c s); split; intros H; try done; try by inversion H.
    by destruct H as [-> ->].
Qed.

Lemma wp_of_eq {A} (c : M S A) Q a s s' : c s = Ret a s' → Q a s' → wp c Q s.
Proof. unfold wp, wpx. by intros ->. Qed.

Lemma wp_inv {A} (c : M S A) Q s : wp c Q s → ∃ a s', c s = Ret a s' ∧ Q a s'.
Proof. unfold wp, wpx. destruct (c s); [eauto|done..]. Qed.

Lemma wp_get Q s : Q s s → wp get Q s.
Proof. done. Qed.
Lemma wp_gets {A} (f : S → A) Q s : Q (f s) s → wp (gets f) Q s.
Proof. done. Qed.
Lemma wp_put Q s0 s : Q tt s → wp (put s) Q s0.
Proof. done. Qed.
Lemma wp_modify (f : S → S) Q s : Q tt (f s) → wp (modify f) Q s.
Proof. done. Qed.
Lemma wp_of_option {A} (o : option A) a Q s : o = Some a → Q a s → wp (of_option o) Q s.
Proof. by intros ->. Qed.

  (** Loops: the measure bounds the number of iterations left. *)
Lemma wpx_iter_pos {X R} (body : X → M S (step X R)) (I : X → S → Prop) (μ : X → S → Z)
      (Q : R → S → Prop) H :
    (∀ x s, I x s → wpx (body x) (λ r s', match r with
        | Continue x' => I x' s' ∧ μ x' s' < μ x s | Break r => Q r s' end) H s) →
    ∀ p x s, I x s → wpx (iter_pos body p x) (λ r s', match r with
        | Continue x' => I x' s' ∧ μ x' s' + Z.pos p ≤ μ x s | Break r => Q r s' end) H s.
Proof.
    intros Hbody p. induction p as [p IH|p IH|]; intros x s HI; simpl.
    - apply wpx_bind. eapply wpx_mono; [by apply Hbody|]. intros [x'|r] s'; [|done].
      intros [HI' Hlt]. apply wpx_bind. eapply wpx_mono; [by apply IH|].
      intros [x''|r] s''; [|done]. intros [HI'' Hle].
      eapply wpx_mono; [by apply IH|]. intros [x3|r] s3; [|done]. intros [? ?]. split; [done|lia].
    - apply wpx_bind. eapply wpx_mono; [by apply IH|].
      intros [x''|r] s''; [|done]. intros [HI'' Hle].
      eapply wpx_mono; [by apply IH|]. intros [x3|r] s3; [|done]. intros [? ?]. split; [done|lia].
    - eapply wpx_mono; [by apply Hbody|]. intros [x'|r] s'; [|done]. intros [? ?]. split; [done|lia].
Qed.

Lemma wpx_loop {X R} (body : X → M S (step X R)) (I : X → S → Prop) (μ : X → S → Z)
      (Q : R → S → Prop) H x s :
    (∀ x s, I x s → 0 ≤ μ x s) →
    (∀ x s, I x s → wpx (body x) (λ r s', match r with
        | Continue x' => I x' s' ∧ μ x' s' < μ x s | Break r => Q r s' end) H s) →
    I x s → μ x s < 18446744073709551616 → wpx (loop body x) Q H s.
Proof.
    intros Hpos Hbody HI Hμ. unfold loop. apply wpx_bind.
    eapply wpx_mono; [by eapply (wpx_iter_pos body I μ Q)|].
    intros [x'|r] s'; [|done]. intros [HI' Hle].
    pose proof (Hpos _ _ HI'). unfold loop_fuel in Hle. lia.
Qed.

Lemma wp_loop {X R} (body : X → M S (step X R)) (I : X → S → Prop) (μ : X → S → Z)
      (Q : R → S → Prop) x s :
    (∀ x s, I x s → 0 ≤ μ x s) →
    (∀ x s, I x s → wp (body x) (λ r s', match r with
        | Continue x' => I x' s' ∧ μ x' s' < μ x s | Break r => Q r s' end) s) →
    I x s → μ x s < 18446744073709551616 → wp (loop body x) Q s.
Proof. apply wpx_loop. Qed.
End rules.

(** Execution as equations: the computations are functions, so a specification
    [c s = Ret a s'] rewrites. *)
Lemma bind_run {S A B} (c : M S A) (k : A → M S B) a s s' :
  c s = Ret a s' → bind c k s = k a s'.
Proof. unfold bind. by intros ->. Qed.

Lemma bind_halt {S A B} (c : M S A) (k : A → M S B) code s s' :
  c s = Halt code s' → bind c k s = Halt code s'.
Proof. unfold bind. by intros ->. Qed.

Lemma bind_fault {S A B} (c : M S A) (k : A → M S B) s :
  c s = Fault → bind c k s = Fault.
Proof. unfold bind. by intros ->. Qed.

Lemma bind_Ret_inv {S A B} (c : M S A) (k : A → M S B) s b s' :
  bind c k s = Ret b s' → ∃ a s1, c s = Ret a s1 ∧ k a s1 = Ret b s'.
Proof. unfold bind. destruct (c s) eqn:E; try done. eauto. Qed.

Lemma bind_assoc {S A B C} (c : M S A) (k1 : A → M S B) (k2 : B → M S C) s :
  bind (bind c k1) k2 s = bind c (λ a, bind (k1 a) k2) s.
Proof. unfold bind. by destruct (c s). Qed.

Lemma bind_congr {S A B} (c : M S A) (k1 k2 : A → M S B) s :
  (∀ a s', c s = Ret a s' → k1 a s' = k2 a s') → bind c k1 s = bind c k2 s.
Proof. unfold bind. intros H. destruct (c s) eqn:E; auto. Qed.

Lemma bind_ret {S A B} (a : A) (k : A → M S B) s : bind (ret a) k s = k a s.
Proof. done. Qed.

(** A loop whose trajectory is known: at iteration [k] the loop variables are
    [f k] and the state [st k]. *)
Lemma iter_pos_steps {S X R} (body : X → M S (step X R)) (f : Z → X) (st : Z → S) n r s' :
  (∀ k, 0 ≤ k < n → body (f k) (st k) = Ret (Continue (f (k + 1))) (st (k + 1))) →
  body (f n) (st n) = Ret (Break r) s' →
  ∀ p k, 0 ≤ k ≤ n →
    iter_pos body p (f k) (st k) =
      if decide (k + Z.pos p ≤ n) then Ret (Continue (f (k + Z.pos p))) (st (k + Z.pos p))
      else Ret (Break r) s'.
Proof.
  intros Hstep Hend p. induction p as [p IH|p IH|]; intros k Hk; simpl.
  - destruct (decide (k = n)) as [->|].
    { rewrite (bind_run _ _ _ _ _ Hend), decide_False by lia. done. }
    rewrite (bind_run _ _ _ _ _ (Hstep k ltac:(lia))).
    unfold bind. rewrite IH by lia. destruct (decide (k + 1 + Z.pos p ≤ n)).
    + rewrite IH by lia. replace (k + 1 + Z.pos p + Z.pos p) with (k + Z.pos p~1) by lia. done.
    + rewrite decide_False by lia. done.
  - unfold bind. rewrite IH by lia. destruct (decide (k + Z.pos p ≤ n)).
    + rewrite IH by lia. replace (k + Z.pos p + Z.pos p) with (k + Z.pos p~0) by lia. done.
    + rewrite decide_False by lia. done.
  - destruct (decide (k = n)) as [->|].
    + rewrite decide_False by lia. done.
    + rewrite decide_True by lia. apply Hstep. lia.
Qed.

Lemma loop_steps {S X R} (body : X → M S (step X R)) (f : Z → X) (st : Z → S) n x0 s0 r s' :
  0 ≤ n < 18446744073709551616 →
  x0 = f 0 → s0 = st 0 →
  (∀ k, 0 ≤ k < n → body (f k) (st k) = Ret (Continue (f (k + 1))) (st (k + 1))) →
  body (f n) (st n) = Ret (Break r) s' →
  loop body x0 s0 = Ret r s'.
Proof.
  intros Hn -> -> Hstep Hend. unfold loop, bind.
  rewrite (iter_pos_steps body f st n r s') by (done || lia).
  rewrite decide_False by (unfold loop_fuel; lia). done.
Qed.

(** A loop that breaks at once, or after one turn. *)
Lemma loop_break {S X R} (body : X → M S (step X R)) x s r s' :
  body x s = Ret (Break r) s' → loop body x s = Ret r s'.
Proof.
  intros E. apply (loop_steps body (λ _, x) (λ _, s) 0); [lia|done..| |done].
  intros k ?. lia.
Qed.

Lemma loop_once {S X R} (body : X → M S (step X R)) x s x1 s1 r s' :
  body x s = Ret (Continue x1) s1 → body x1 s1 = Ret (Break r) s' → loop body x s = Ret r s'.
Proof.
  intros E1 E2. apply (loop_steps body (λ k, if k =? 0 then x else x1) (λ k, if k =? 0 then s else s1) 1);
    [lia|done..| |done].
  intros k ?. by replace k with 0 by lia.
Qed.

Lemma loop_fault {S X R} (body : X → M S (step X R)) x s : body x s = Fault → loop body x s = Fault.
Proof.
  intros E. apply bind_fault. generalize loop_fuel.
  induction p as [p IH|p IH|]; cbn [iter_pos]; [by apply bind_fault..|done].
Qed.

(** A loop as the sequence of its turns: [n] of them go on, the next one breaks. *)
Inductive loop_to {S X R} (body : X → M S (step X R)) : nat → X → S → R → S → Prop :=
  | loop_to_break x s r s' : body x s = Ret (Break r) s' → loop_to body 0 x s r s'
  | loop_to_next n x s x1 s1 r s' :
      body x s = Ret (Continue x1) s1 → loop_to body n x1 s1 r s' → loop_to body (Datatypes.S n) x s r s'.

Lemma iter_pos_to {S X R} (body : X → M S (step X R)) r s' p : ∀ n x s,
  loop_to body n x s r s' →
  iter_pos body p x s = Ret (Break r) s' ∧ (n < Pos.to_nat p)%nat ∨
  ∃ x1 s1, iter_pos body p x s = Ret (Continue x1) s1 ∧ (Pos.to_nat p ≤ n)%nat ∧
    loop_to body (n - Pos.to_nat p) x1 s1 r s'.
Proof.
  assert (∀ q n x s (H : iter_pos body q x s = Ret (Break r) s'),
    bind (iter_pos body q x) (λ r, match r with Continue x' => iter_pos body q x' | Break r => ret (Break r) end) s
    = Ret (Break r) s') as Hb by (intros; by rewrite (bind_run _ _ _ _ _ H)).
  assert (∀ q, (∀ n x s, loop_to body n x s r s' →
      iter_pos body q x s = Ret (Break r) s' ∧ (n < Pos.to_nat q)%nat ∨
      ∃ x1 s1, iter_pos body q x s = Ret (Continue x1) s1 ∧ (Pos.to_nat q ≤ n)%nat ∧
        loop_to body (n - Pos.to_nat q) x1 s1 r s') →
    ∀ n x s, loop_to body n x s r s' →
      iter_pos body q~0 x s = Ret (Break r) s' ∧ (n < Pos.to_nat q~0)%nat ∨
      ∃ x1 s1, iter_pos body q~0 x s = Ret (Continue x1) s1 ∧ (Pos.to_nat q~0 ≤ n)%nat ∧
        loop_to body (n - Pos.to_nat q~0) x1 s1 r s') as Hdouble.
  { intros q IH n x s H. simpl iter_pos.
    destruct (IH _ _ _ H) as [[E ?]|(x1 & s1 & E & ? & H1)]; [left; split; [by apply Hb|lia]|].
    destruct (IH _ _ _ H1) as [[E1 ?]|(x2 & s2 & E1 & ? & H2)].
    - left. split; [|lia]. by rewrite (bind_run _ _ _ _ _ E).
    - right. exists x2, s2. split; [by rewrite (bind_run _ _ _ _ _ E)|]. split; [lia|].
      by replace (n - Pos.to_nat q~0)%nat with (n - Pos.to_nat q - Pos.to_nat q)%nat by lia. }
  induction p as [q IH|q IH|]; [|by apply Hdouble|].
  - intros n x s H. simpl iter_pos. destruct H as [x s r s' E|n x s x1 s1 r s' E H].
    { left. split; [by rewrite (bind_run _ _ _ _ _ E)|lia]. }
    destruct (Hdouble q IH _ _ _ H) as [[E1 ?]|(x2 & s2 & E1 & ? & H2)].
    + left. split; [by rewrite (bind_run _ _ _ _ _ E)|lia].
    + right. exists x2, s2. split; [by rewrite (bind_run _ _ _ _ _ E)|]. split; [lia|].
      by replace (Datatypes.S n - Pos.to_nat q~1)%nat with (n - Pos.to_nat q~0)%nat by lia.
  - intros n x s H. simpl iter_pos. destruct H as [x s r s' E|n x s x1 s1 r s' E H].
    + left. split; [done|lia].
    + right. exists x1, s1. split; [done|]. split; [lia|].
      by replace (Datatypes.S n - Pos.to_nat 1)%nat with n by lia.
Qed.

Lemma loop_to_run {S X R} (body : X → M S (step X R)) n x s r s' :
  loop_to body n x s r s' → Z.of_nat n < 18446744073709551616 → loop body x s = Ret r s'.
Proof.
  intros H Hn. unfold loop, bind.
  destruct (iter_pos_to body r s' loop_fuel n x s H) as [[-> _]|(x1 & s1 & _ & Hle & _)]; [done|].
  exfalso. apply Nat2Z.inj_le in Hle. rewrite positive_nat_Z in Hle. unfold loop_fuel in Hle. lia.
Qed.

(** Loops with the same turns are the same. *)
Lemma loop_ext {S X R} (b1 b2 : X → M S (step X R)) : (∀ x s, b1 x s = b2 x s) → ∀ x s, loop b1 x s = loop b2 x s.
Proof.
  intros H x s. unfold loop, bind.
  assert (∀ p x s, iter_pos b1 p x s = iter_pos b2 p x s) as ->; [|done].
  induction p as [p IH|p IH|]; intros y t; simpl; [| |apply H]; unfold bind; [rewrite H; destruct (b2 y t) as [[z|r] u| | |]; try done|];
    rewrite IH; destruct (iter_pos b2 p _ _) as [[z'|r'] u'| | |]; done || apply IH.
Qed.

(** A loop that leaves the state alone: from any loop variables satisfying the
    invariant it breaks with [r] or goes on with a smaller measure. *)
Lemma loop_pure {S X R} (body : X → M S (step X R)) (μ : X → Z) (I : X → Prop) s x r :
  (∀ x, I x → 0 ≤ μ x ∧
     (body x s = Ret (Break r) s ∨ ∃ x', body x s = Ret (Continue x') s ∧ I x' ∧ μ x' < μ x)) →
  I x → μ x < 18446744073709551616 →
  loop body x s = Ret r s.
Proof.
  intros Hb HI Hμ. apply wp_Ret.
  apply (wp_loop body (λ x s', I x ∧ s' = s) (λ x _, μ x)); [| |done..].
  - intros x' s' [HI' _]. by apply Hb.
  - intros x' s' [HI' ->]. destruct (Hb x' HI') as [_ [E|(x2 & E & HI2 & Hlt)]].
    + by eapply wp_of_eq; [exact E|].
    + by eapply wp_of_eq; [exact E|].
Qed.

(** Equality of results, tuple by tuple, with [lia] at the integers. *)
Ltac peq :=
  unfold ret;
  lazymatch goal with
  | |- ?x = ?x => reflexivity
  | |- (_, _) = (_, _) => f_equal; peq
  | |- Ret _ _ = Ret _ _ => f_equal; peq
  | |- Continue _ = Continue _ => f_equal; peq
  | |- Break _ = Break _ => f_equal; peq
  | |- @eq Z _ _ => lia
  | |- _ => try (f_equal; lia)
  end.

(** One step of symbolic execution; [wp_pure] runs all the structural steps. *)
Ltac wp_step :=
  lazymatch goal with
  | |- wp (bind _ _) _ _ => apply wp_bind
  | |- wp (ret _) _ _ => apply wp_ret
  | |- wp get _ _ => apply wp_get
  | |- wp (gets _) _ _ => apply wp_gets
  | |- wp (put _) _ _ => apply wp_put
  | |- wp (modify _) _ _ => apply wp_modify
  end.
Ltac wp_pure := repeat (wp_step; cbn beta iota).
(** Use a specification and continue with what follows. *)
Tactic Notation "wp_use" uconstr(l) := eapply wp_mono; [eapply l|].
(** Use an equation [c s = Ret a s']. *)
Tactic Notation "wp_eq" uconstr(l) := eapply wp_of_eq; [eapply l|]; cbn beta iota.

(** ** Running a component inside a larger state *)

Record lens (S T : Type) := Lens {
  lget : S → T;
  lset : T → S → S;
  lget_lset : ∀ t s, lget (lset t s) = t;
  lset_lget : ∀ s, lset (lget s) s = s;
  lset_lset : ∀ t t' s, lset t (lset t' s) = lset t s;
}.
Arguments lget {S T}.
Arguments lset {S T}.

Definition zoom {S T A} (l : lens S T) (c : M T A) : M S A := λ s,
  match c (lget l s) with
  | Ret a t => Ret a (lset l t s)
  | Halt code t => Halt code (lset l t s)
  | Fault => Fault
  | Diverge => Diverge
  end.

Lemma wp_zoom {S T A} (l : lens S T) (c : M T A) Q s :
  wp c (λ a t, Q a (lset l t s)) (lget l s) → wp (zoom l c) Q s.
Proof. unfold wp, wpx, zoom. by destruct (c _). Qed.

(** ** Keeping an invariant

    [keeps I c Q]: if [c] returns from a state satisfying [I], it returns to one
    that satisfies [I] again, and the result satisfies [Q]. *)
Definition keeps {S A} (I : S → Prop) (c : M S A) (Q : A → Prop) : Prop :=
  ∀ s, I s → match c s with Ret a s' => I s' ∧ Q a | _ => True end.

Section keeps.
Context {S : Type} (I : S → Prop).

Lemma keeps_mono {A} (c : M S A) (Q Q' : A → Prop) : keeps I c Q → (∀ a, Q a → Q' a) → keeps I c Q'.
Proof. intros Hc HQ s Hs. specialize (Hc s Hs). destruct (c s); try done. destruct Hc as [? ?]. auto. Qed.

Lemma keeps_ret {A} (a : A) (Q : A → Prop) : Q a → keeps I (ret a) Q.
Proof. intros H s Hs. done. Qed.

Lemma keeps_bind {A B} (c : M S A) (k : A → M S B) (Q : A → Prop) (R : B → Prop) :
  keeps I c Q → (∀ a, Q a → keeps I (k a) R) → keeps I (bind c k) R.
Proof.
  intros Hc Hk s Hs. unfold bind. specialize (Hc s Hs). destruct (c s) as [a s'| | |]; try done.
  destruct Hc as [Hs' Ha]. by apply Hk.
Qed.

Lemma keeps_fault {A} (Q : A → Prop) : keeps I fault Q.
Proof. done. Qed.
Lemma keeps_get : keeps I get I.
Proof. by intros s Hs. Qed.
Lemma keeps_gets {A} (f : S → A) : keeps I (gets f) (λ _, True).
Proof. by intros s Hs. Qed.
Lemma keeps_put s' : I s' → keeps I (put s') (λ _, True).
Proof. by intros Hs' s Hs. Qed.
Lemma keeps_modify (f : S → S) : (∀ s, I s → I (f s)) → keeps I (modify f) (λ _, True).
Proof. intros H s Hs. split; [by apply H|done]. Qed.
Lemma keeps_of_option {A} (o : option A) : keeps I (of_option o) (λ a, o = Some a).
Proof. destruct o; [by intros s Hs|by intros s Hs]. Qed.

Lemma keeps_loop {X R} (body : X → M S (step X R)) (P : X → Prop) (Q : R → Prop) x :
  (∀ x, P x → keeps I (body x) (λ r, match r with Continue x' => P x' | Break r => Q r end)) →
  P x → keeps I (loop body x) Q.
Proof.
  intros Hb Hx. unfold loop.
  apply (keeps_bind _ _ (λ r, match r with Continue x' => P x' | Break r => Q r end)).
  - revert x Hx. induction loop_fuel as [p IH|p IH|]; intros x Hx; simpl iter_pos; [| |by apply Hb].
    + eapply keeps_bind; [by apply Hb|]. intros [x'|r] H; [|by apply keeps_ret].
      eapply keeps_bind; [by apply IH|]. intros [x''|r] H'; [by apply IH|by apply keeps_ret].
    + eapply keeps_bind; [by apply IH|]. intros [x'|r] H; [by apply IH|by apply keeps_ret].
  - intros [x'|r] H; [done|by apply keeps_ret].
Qed.
End keeps.

(** ** Implementing a specification

    [implements I abs c f]: from a state satisfying [I], [c] returns, with the
    result that [f] gives on the abstract state, leaves the state [f] says, and
    [I] holds again. *)
Definition implements {S T A} (I : S → Prop) (abs : S → T) (c : M S A) (f : T → A * T) : Prop :=
  ∀ s, I s → ∃ s', c s = Ret (f (abs s)).1 s' ∧ abs s' = (f (abs s)).2 ∧ I s'.

(** A sequence of calls, and of their specifications: the results in order. *)
Fixpoint run_calls {S O A} (call : O → M S A) (l : list O) : M S (list A) :=
  match l with
  | [] => ret []
  | o :: l => a <- call o ;; r <- run_calls call l ;; ret (a :: r)
  end.
Fixpoint spec_calls {T O A} (spec : O → T → A * T) (l : list O) (t : T) : list A * T :=
  match l with
  | [] => ([], t)
  | o :: l => let '(a, t) := spec o t in let '(r, t) := spec_calls spec l t in (a :: r, t)
  end.

Lemma implements_calls_if {S T O A} (I : S → Prop) (abs : S → T) (call : O → M S A) (spec : O → T → A * T)
    (ok : O → Prop) : (∀ o, ok o → implements I abs (call o) (spec o)) →
  ∀ l, Forall ok l → implements I abs (run_calls call l) (spec_calls spec l).
Proof.
  intros H l Hl. induction Hl as [|o l Ho Hl IH]; intros s Hs; [by exists s|]. cbn [run_calls spec_calls].
  destruct (H o Ho s Hs) as (s1 & E1 & A1 & H1). destruct (IH s1 H1) as (s2 & E2 & A2 & H2). rewrite A1 in *.
  rewrite (bind_run _ _ _ _ _ E1), (bind_run _ _ _ _ _ E2). destruct (spec o (abs s)) as [a t]. simpl in *.
  destruct (spec_calls spec l t) as [r t']. simpl in *. by exists s2.
Qed.

Lemma implements_calls {S T O A} (I : S → Prop) (abs : S → T) (call : O → M S A) (spec : O → T → A * T) :
  (∀ o, implements I abs (call o) (spec o)) → ∀ l, implements I abs (run_calls call l) (spec_calls spec l).
Proof.
  intros H l. apply (implements_calls_if I abs call spec (λ _, True)); [by intros|]. by apply Forall_true.
Qed.
