(* ===== verification/CMemory.v ===== *)
(** The flat byte memory of a C program.

    [mem] maps addresses to byte values; an address outside the map belongs to
    no object, and touching it is a [Fault].  A word access must be aligned.
    [bytes_at m p bs]: the bytes [bs] are at [p]; [cstr m p s]: a NUL-terminated
    string [s] is at [p].  [mwrite p bs m] is the memory after [bs] was stored
    at [p]; a function's effect is stated as the exact final memory, so what it
    leaves alone needs no extra clause. *)
From S2P Require Import Prelude CMonad.

Abbreviation mem := (gmap Z Z).

Definition load8 (p : Z) : M mem Z := λ m,
  match m !! p with Some b => Ret b m | None => Fault end.

Definition store8 (p v : Z) : M mem unit := λ m,
  match m !! p with Some _ => Ret tt (<[p := u8 v]> m) | None => Fault end.

(** ** Little-endian words *)

Fixpoint le_split (n : nat) (w : Z) : bytes :=
  match n with
  | O => []
  | S n => w mod 256 :: le_split n (w / 256)
  end.

Fixpoint le_combine (bs : bytes) : Z :=
  match bs with
  | [] => 0
  | b :: bs => b + 256 * le_combine bs
  end.

Lemma le_split_combine bs : is_bytes bs → le_split (length bs) (le_combine bs) = bs.
Proof.
  induction 1 as [|b bs Hb Hbs IH]; simpl; [done|].
  replace ((b + 256 * le_combine bs) mod 256) with b by lia.
  replace ((b + 256 * le_combine bs) / 256) with (le_combine bs) by lia. by rewrite IH.
Qed.

Lemma le_combine_range bs :
  is_bytes bs → 0 ≤ le_combine bs < 256 ^ zlen bs.
Proof.
  induction 1 as [|b bs Hb Hbs IH]; [done|]. rewrite zlen_cons, Z.pow_add_r, Z.pow_1_r by zlen_lia.
  simpl. lia.
Qed.

Lemma le_combine_split n w : 0 ≤ w < 256 ^ Z.of_nat n → le_combine (le_split n w) = w.
Proof.
  revert w. induction n as [|n IH]; intros w Hw; [simpl; lia|].
  rewrite Nat2Z.inj_succ, Z.pow_succ_r in Hw by lia. simpl. rewrite IH; lia.
Qed.

Lemma length_le_split n w : length (le_split n w) = n.
Proof. revert w. induction n; intros; simpl; auto. Qed.

Lemma le_split_bytes n w : is_bytes (le_split n w).
Proof. unfold is_bytes. revert w. induction n; intros; simpl; constructor; auto; lia. Qed.

(** ** Reading and writing ranges *)

Fixpoint mread (m : mem) (p : Z) (n : nat) : option bytes :=
  match n with
  | O => Some []
  | S n => b ← m !! p; bs ← mread m (p + 1) n; Some (b :: bs)
  end.

Fixpoint mwrite (p : Z) (bs : bytes) (m : mem) : mem :=
  match bs with
  | [] => m
  | b :: bs => <[p := b]> (mwrite (p + 1) bs m)
  end.

Definition bytes_at (m : mem) (p : Z) (bs : bytes) : Prop :=
  ∀ i b, idx bs i = Some b → m !! (p + i) = Some b.

Definition writable (m : mem) (p n : Z) : Prop :=
  ∀ i, 0 ≤ i < n → is_Some (m !! (p + i)).

(** [unsigned long] accesses. *)
Definition load64 (p : Z) : M mem Z := λ m,
  if decide (Z.land p 7 = 0) then
    match mread m p 8 with Some bs => Ret (le_combine bs) m | None => Fault end
  else Fault.

Definition store64 (p w : Z) : M mem unit := λ m,
  if decide (Z.land p 7 = 0) then
    match mread m p 8 with Some _ => Ret tt (mwrite p (le_split 8 w) m) | None => Fault end
  else Fault.

Lemma mwrite_lookup p bs m a :
  mwrite p bs m !! a = match idx bs (a - p) with Some b => Some b | None => m !! a end.
Proof.
  revert p. induction bs as [|b bs IH]; intros p; simpl.
  { by rewrite idx_None by zlen_lia. }
  destruct (decide (a = p)) as [->|Hne].
  { rewrite lookup_insert_eq, Z.sub_diag. done. }
  rewrite lookup_insert_ne by done. rewrite IH.
  destruct (decide (a - p < 0)).
  - rewrite !idx_None by lia. done.
  - rewrite (idx_cons_S b) by lia. replace (a - (p + 1)) with (a - p - 1) by lia. done.
Qed.

Lemma mwrite_nil p m : mwrite p [] m = m.
Proof. done. Qed.

Lemma mwrite_app p bs1 bs2 m :
  mwrite p (bs1 ++ bs2) m = mwrite p bs1 (mwrite (p + zlen bs1) bs2 m).
Proof.
  revert p. induction bs1 as [|b bs1 IH]; intros p.
  - rewrite zlen_nil, Z.add_0_r. done.
  - simpl. rewrite IH, zlen_cons. do 3 f_equal. lia.
Qed.

(** Two writes to disjoint ranges commute; extensionally, any write sequence is
    known by its lookups. *)
Lemma mem_eq (m1 m2 : mem) : (∀ a, m1 !! a = m2 !! a) → m1 = m2.
Proof. apply map_eq. Qed.

Lemma mwrite_snoc p bs b m :
  mwrite p (bs ++ [b]) m = <[p + zlen bs := b]> (mwrite p bs m).
Proof.
  apply mem_eq. intros a. rewrite mwrite_lookup.
  destruct (decide (a = p + zlen bs)) as [->|Hne].
  - rewrite lookup_insert_eq. replace (p + zlen bs - p) with (zlen bs) by lia.
    by rewrite idx_middle.
  - rewrite lookup_insert_ne by done. rewrite mwrite_lookup.
    destruct (decide (a - p < zlen bs)).
    + by rewrite idx_app_l by lia.
    + rewrite (idx_None bs) by lia. rewrite idx_None by zlen_lia. done.
Qed.

Lemma mwrite_disjoint_lookup p bs m a :
  a < p ∨ p + zlen bs ≤ a → mwrite p bs m !! a = m !! a.
Proof. intros. rewrite mwrite_lookup, idx_None by lia. done. Qed.

Lemma mwrite_id m p bs : bytes_at m p bs → mwrite p bs m = m.
Proof.
  intros H. apply mem_eq. intros a. rewrite mwrite_lookup.
  destruct (idx bs (a - p)) eqn:E; [|done]. apply H in E. rewrite <- E. f_equal. lia.
Qed.

Lemma mwrite_overwrite p bs1 bs2 m :
  zlen bs1 ≤ zlen bs2 → mwrite p bs2 (mwrite p bs1 m) = mwrite p bs2 m.
Proof.
  intros Hl. apply mem_eq. intros a. rewrite !mwrite_lookup.
  destruct (idx bs2 (a - p)) eqn:E; [done|].
  rewrite (idx_None bs1); [done|].
  destruct (decide (0 ≤ a - p < zlen bs2)) as [Hr|]; [|lia].
  apply idx_is_Some in Hr as [? ?]. congruence.
Qed.

Lemma writable_mwrite p bs m q n : writable m q n → writable (mwrite p bs m) q n.
Proof. intros H i Hi. rewrite mwrite_lookup. destruct (idx _ _); eauto. Qed.

Lemma bytes_at_writable m p bs : bytes_at m p bs → writable m p (zlen bs).
Proof. intros H i Hi. destruct (idx_is_Some bs i Hi) as [b Hb]. eauto. Qed.

Lemma writable_sub m p n q k : writable m p n → p ≤ q → q + k ≤ p + n → writable m q k.
Proof. intros H ? ? i Hi. replace (q + i) with (p + (q - p + i)) by lia. apply H. lia. Qed.

Lemma bytes_at_app m p bs1 bs2 :
  bytes_at m p (bs1 ++ bs2) ↔ bytes_at m p bs1 ∧ bytes_at m (p + zlen bs1) bs2.
Proof.
  split.
  - intros H. split; intros i b Hi.
    + apply H. rewrite idx_app_l; [done|]. apply idx_Some_range in Hi. lia.
    + replace (p + zlen bs1 + i) with (p + (zlen bs1 + i)) by lia. apply H.
      pose proof (idx_Some_range _ _ _ Hi). rewrite idx_app_r by lia. rewrite <- Hi. f_equal. lia.
  - intros [H1 H2] i b Hi. destruct (decide (i < zlen bs1)).
    + apply H1. by rewrite idx_app_l in Hi.
    + rewrite idx_app_r in Hi by lia. apply H2 in Hi. rewrite <- Hi. f_equal. lia.
Qed.

Lemma bytes_at_cons m p b bs : bytes_at m p (b :: bs) ↔ m !! p = Some b ∧ bytes_at m (p + 1) bs.
Proof.
  rewrite (bytes_at_app m p [b] bs). split; intros [H1 H2]; split; try done.
  - specialize (H1 0 b eq_refl). by rewrite Z.add_0_r in H1.
  - intros i c Hi. pose proof (idx_Some_range _ _ _ Hi). assert (i = 0) as -> by zlen_lia.
    injection Hi as <-. by rewrite Z.add_0_r.
Qed.

Lemma bytes_at_nil m p : bytes_at m p [].
Proof. intros i b Hi%idx_Some_range. zlen_lia. Qed.

Lemma bytes_at_mwrite_same m p bs : bytes_at (mwrite p bs m) p bs.
Proof. intros i b Hi. rewrite mwrite_lookup. replace (p + i - p) with i by lia. by rewrite Hi. Qed.

Lemma bytes_at_mwrite_disjoint m p bs q cs :
  bytes_at m q cs → q + zlen cs ≤ p ∨ p + zlen bs ≤ q → bytes_at (mwrite p bs m) q cs.
Proof.
  intros H Hd i b Hi. pose proof (idx_Some_range _ _ _ Hi).
  rewrite mwrite_disjoint_lookup by lia. by apply H.
Qed.

Lemma mread_bytes_at m p n bs : mread m p n = Some bs ↔ bytes_at m p bs ∧ length bs = n.
Proof.
  revert p bs. induction n as [|n IH]; intros p bs; simpl.
  - split; [intros [= <-]; split; [apply bytes_at_nil|done]|].
    intros [_ Hl]. by destruct bs.
  - destruct bs as [|b bs].
    { split; [|intros [_ ?]; done]. destruct (m !! p); simpl; [|done].
      destruct (mread m (p + 1) n); done. }
    rewrite bytes_at_cons. split.
    + destruct (m !! p) eqn:E; simpl; [|done]. destruct (mread m (p + 1) n) eqn:E'; simpl; [|done].
      intros [= <- <-]. apply IH in E' as [? <-]. done.
    + intros [[-> H] [= Hl]]. simpl. by rewrite (proj2 (IH _ _)) by done.
Qed.

(** ** C strings *)

Record cstr (m : mem) (p : Z) (s : bytes) : Prop := {
  cstr_ptr : 0 < p ∧ p + zlen s < 18446744073709551616;
  cstr_chars : c_chars s;
  cstr_bytes : bytes_at m p (s ++ [0]);
}.

Lemma cstr_nul m p s : cstr m p s → m !! (p + zlen s) = Some 0.
Proof. intros [_ _ H]. apply H. by rewrite idx_middle. Qed.

Lemma cstr_idx m p s i b : cstr m p s → idx s i = Some b → m !! (p + i) = Some b ∧ 0 < b < 256.
Proof.
  intros [_ Hc H] Hi. pose proof (idx_Some_range _ _ _ Hi). split.
  - apply H. by rewrite idx_app_l by lia.
  - unfold idx in Hi. rewrite decide_False in Hi by lia.
    eapply Forall_lookup_1 in Hi; [|exact Hc]. done.
Qed.

Lemma cstr_at m p s i : cstr m p s → 0 ≤ i < zlen s →
  ∃ b, idx s i = Some b ∧ m !! (p + i) = Some b ∧ 0 < b < 256.
Proof.
  intros H Hi. destruct (idx_is_Some s i Hi) as [b Hb]. exists b.
  split; [done|]. by eapply cstr_idx.
Qed.

(** A suffix of a string is a string. *)
Lemma cstr_app m p s1 s2 : cstr m p (s1 ++ s2) → cstr m (p + zlen s1) s2.
Proof.
  intros [Hp [Hc1 Hc2]%c_chars_app Hb]. split; [zlen_lia|done|].
  rewrite <- app_assoc in Hb. by apply bytes_at_app in Hb as [_ ?].
Qed.

Lemma cstr_drop m p s k : cstr m p s → 0 ≤ k ≤ zlen s → cstr m (p + k) (dropZ k s).
Proof.
  intros H Hk. rewrite <- (take_drop (Z.to_nat k) s) in H. apply cstr_app in H.
  fold (takeZ k s) (dropZ k s) in H. by rewrite zlen_takeZ in H.
Qed.

Lemma cstr_mwrite_disjoint m p s q bs :
  cstr m p s → q + zlen bs ≤ p ∨ p + zlen s < q → cstr (mwrite q bs m) p s.
Proof. intros [? ? H] Hd. split; [done..|]. apply bytes_at_mwrite_disjoint; [done|]. zlen_lia. Qed.

(** ** Executing loads and stores *)

Lemma load8_run m p b : m !! p = Some b → load8 p m = Ret b m.
Proof. unfold load8. by intros ->. Qed.

Lemma store8_run m p v : is_Some (m !! p) → store8 p v m = Ret tt (<[p := u8 v]> m).
Proof. unfold store8. by intros [? ->]. Qed.

Lemma load64_run m p bs :
  Z.land p 7 = 0 → bytes_at m p bs → zlen bs = 8 → load64 p m = Ret (le_combine bs) m.
Proof.
  intros Ha Hb Hl. unfold load64. rewrite decide_True by done.
  by rewrite (proj2 (mread_bytes_at m p 8 bs)) by (split; [done|unfold zlen in Hl; lia]).
Qed.

Lemma writable_mread m p n : writable m p (Z.of_nat n) → is_Some (mread m p n).
Proof.
  revert p. induction n as [|n IH]; intros p H; simpl; [eauto|].
  destruct (H 0 ltac:(lia)) as [b Hb]. rewrite Z.add_0_r in Hb. rewrite Hb. simpl.
  destruct (IH (p + 1)) as [bs ->]; [|simpl; eauto].
  eapply writable_sub; [done|lia..].
Qed.

Lemma store64_run m p w :
  Z.land p 7 = 0 → writable m p 8 → store64 p w m = Ret tt (mwrite p (le_split 8 w) m).
Proof.
  intros Ha Hw. unfold store64. rewrite decide_True by done.
  by destruct (writable_mread m p 8) as [bs ->].
Qed.

Lemma wp_load8 m p b Q : m !! p = Some b → Q b m → wp (load8 p) Q m.
Proof. intros H. by apply wp_of_eq, load8_run. Qed.

Lemma wp_store8 m p v Q : is_Some (m !! p) → Q tt (<[p := u8 v]> m) → wp (store8 p v) Q m.
Proof. intros H. by apply wp_of_eq, store8_run. Qed.

(** Reading the head of a string. *)
Lemma cstr_nil_inv m p : cstr m p [] → m !! p = Some 0.
Proof. intros H%cstr_nul. by rewrite zlen_nil, Z.add_0_r in H. Qed.

Lemma cstr_cons_inv m p b s :
  cstr m p (b :: s) → m !! p = Some b ∧ 0 < b < 256 ∧ cstr m (p + 1) s.
Proof.
  intros H. destruct (cstr_idx m p (b :: s) 0 b H eq_refl) as [Hb ?].
  rewrite Z.add_0_r in Hb. split_and!; try done || lia. by apply (cstr_app m p [b] s).
Qed.

Lemma cstr_bounds m p s : cstr m p s → 0 < p ∧ p + zlen s < 18446744073709551616.
Proof. by intros []. Qed.

Lemma cstr_is_bytes m p s : cstr m p s → is_bytes (s ++ [0]).
Proof.
  intros [_ Hc _]. apply Forall_app. split; [|repeat constructor; lia].
  eapply Forall_impl; [exact Hc|]. simpl. lia.
Qed.

Lemma mwrite_app_r p bs1 bs2 m :
  mwrite p (bs1 ++ bs2) m = mwrite (p + zlen bs1) bs2 (mwrite p bs1 m).
Proof.
  apply mem_eq. intros a. rewrite !mwrite_lookup.
  destruct (decide (a - p < zlen bs1)).
  - rewrite idx_app_l by lia. rewrite (idx_None bs2) by lia. done.
  - rewrite idx_app_r by lia. rewrite (idx_None bs1) by lia.
    replace (a - (p + zlen bs1)) with (a - p - zlen bs1) by lia. done.
Qed.

(** Execute a leading load whose cell is known, or a call with a known result. *)
Ltac run_load H := rewrite (bind_run _ _ _ _ _ (load8_run _ _ _ H)); rewrite ?(Z.eqb_refl 0); cbn beta iota delta [negb andb orb].
Ltac run_call H := rewrite (bind_run _ _ _ _ _ H); cbn beta iota delta [negb andb orb].

(** ** Deciding the memory assertions on concrete memories *)

Definition c_chars_b (s : bytes) : bool := forallb (λ b, (0 <? b) && (b <? 256)) s.
Definition is_bytes_b (s : bytes) : bool := forallb (λ b, (0 <=? b) && (b <? 256)) s.
Definition bytes_at_b (m : mem) (p : Z) (bs : bytes) : bool :=
  bool_decide (mread m p (length bs) = Some bs).
Definition cstr_b (m : mem) (p : Z) (s : bytes) : bool :=
  (0 <? p) && (p + zlen s <? 18446744073709551616) && c_chars_b s && bytes_at_b m p (s ++ [0]).

Lemma c_chars_b_sound s : c_chars_b s = true → c_chars s.
Proof.
  intros H%Is_true_eq_left%forallb_True. eapply Forall_impl; [exact H|].
  cbn beta. intros x Hx%Is_true_eq_true. lia.
Qed.

Lemma is_bytes_b_sound s : is_bytes_b s = true → is_bytes s.
Proof.
  intros H%Is_true_eq_left%forallb_True. eapply Forall_impl; [exact H|].
  cbn beta. intros x Hx%Is_true_eq_true. lia.
Qed.

Lemma bytes_at_b_sound m p bs : bytes_at_b m p bs = true → bytes_at m p bs.
Proof. intros H%bool_decide_eq_true. by apply mread_bytes_at in H as [? _]. Qed.

Lemma cstr_b_sound m p s : cstr_b m p s = true → cstr m p s.
Proof.
  unfold cstr_b. rewrite !andb_true_iff. intros [[[? ?] ?] ?].
  split; [lia|by apply c_chars_b_sound|by apply bytes_at_b_sound].
Qed.
