(* ===== verification/CBuffer.v ===== *)
(** Strings and buffers as values.

    A [const char *] argument that is only read is its contents [s], without the
    terminator; [chr s i] is [s[i]], the terminator at the end, a [Fault]
    beyond it.  A local array that is filled from the front ([buf[o++] = c]) is
    the list of the characters written so far, [push cap buf c] the store, a
    [Fault] when the array of [cap] bytes is full.  A message buffer is a list
    of its full length, written with [splice] and read with [peek]. *)
From S2P Require Import Prelude CMonad CMemory.

Definition chr {S} (s : bytes) (i : Z) : M S Z :=
  if decide (i = zlen s) then ret 0 else of_option (idx s i).


Definition push {S} (cap : Z) (buf : bytes) (c : Z) : M S bytes :=
  if zlen buf <? cap then ret (buf ++ [c]) else fault.

(** [while (n) *p++ = d[--n];]: the elements of [d], the last one first. *)
Fixpoint put_back {S} (cap : Z) (d p : bytes) : M S bytes :=
  match d with [] => ret p | c :: d => p <- put_back cap d p ;; push cap p c end.

(** [splice i xs buf]: [buf] with [xs] stored from index [i] on. *)
Definition spliced (i : Z) (xs buf : bytes) : bytes :=
  takeZ i buf ++ xs ++ dropZ (i + zlen xs) buf.
Definition splice {S} (i : Z) (xs buf : bytes) : M S bytes :=
  if (0 <=? i) && (i + zlen xs <=? zlen buf) then ret (spliced i xs buf) else fault.

(** The [n] bytes of [buf] from index [i] on. *)
Definition peek {S} (i n : Z) (buf : bytes) : M S bytes :=
  if (0 <=? i) && (0 <=? n) && (i + n <=? zlen buf) then ret (sliceZ i n buf) else fault.

(** 32-bit little-endian fields. *)
Definition put_u32 {S} (i v : Z) (buf : bytes) : M S bytes := splice i (le_split 4 (u32 v)) buf.
Definition get_u32 {S} (i : Z) (buf : bytes) : M S Z := bs <- peek i 4 buf ;; ret (le_combine bs).
Definition get_s32 {S} (i : Z) (buf : bytes) : M S Z := v <- get_u32 i buf ;; ret (s32 v).
(** The string starting at index [i]: up to the first NUL. *)
Definition get_str {S} (i : Z) (buf : bytes) : M S bytes :=
  let s := c_str (dropZ i buf) in
  if (0 <=? i) && (i + zlen s <? zlen buf) then ret s else fault.

(** * Lemmas *)

(** [s[i]] as a value: the terminator at (and past) the end. *)
Definition chrv (s : bytes) (i : Z) : Z := default 0 (idx s i).

Lemma chr_run {S} s i (st : S) : 0 ≤ i ≤ zlen s → chr s i st = Ret (chrv s i) st.
Proof.
  intros Hi. unfold chr, chrv. case_decide as E.
  - subst i. by rewrite idx_None by lia.
  - destruct (idx_is_Some s i) as [c ->]; [lia|done].
Qed.

Lemma chrv_app_r l1 l2 : chrv (l1 ++ l2) (zlen l1) = hd 0 l2.
Proof. unfold chrv. rewrite idx_app_r, Z.sub_diag by lia. by destruct l2. Qed.

Lemma chrv_at l1 l2 i c : idx l2 i = Some c → chrv (l1 ++ l2) (zlen l1 + i) = c.
Proof.
  intros H. pose proof (idx_Some_range _ _ _ H). unfold chrv.
  rewrite idx_app_r by lia. replace (zlen l1 + i - zlen l1) with i by lia. by rewrite H.
Qed.

Lemma chrv_hd s p : 0 ≤ p → chrv s p = hd 0 (dropZ p s).
Proof. intros. unfold chrv. by rewrite hd_dropZ. Qed.

Lemma chrv_nz_lt s p : 0 ≤ p ≤ zlen s → chrv s p ≠ 0 → p < zlen s ∧ idx s p = Some (chrv s p).
Proof.
  intros Hp. unfold chrv. destruct (idx s p) as [c|] eqn:E; [|done]. simpl. intros _.
  split; [|done]. apply idx_Some_range in E. lia.
Qed.

(** Skipping characters of a class that the terminator is not in. *)
Lemma scan_run {S} (P : Z → bool) (s : bytes) (p : Z) (st : S) :
  P 0 = false → 0 ≤ p ≤ zlen s → zlen s < 18446744073709551616 →
  loop (λ p, c <- chr s p ;; if P c then ret (Continue (p + 1)) else ret (Break p)) p st
  = Ret (p + zlen (take_while P (dropZ p s))) st.
Proof.
  intros HP0 Hp Hlen. set (w := take_while P (dropZ p s)).
  destruct (take_while_split P (dropZ p s)) as (rest & E & Hrest). fold w in E.
  assert (zlen (dropZ p s) = zlen s - p) as Hd by (apply zlen_dropZ; lia).
  rewrite E, zlen_app in Hd. pose proof (zlen_nonneg rest). pose proof (zlen_nonneg w).
  apply (loop_steps _ (λ k, p + k) (λ _, st) (zlen w)); [zlen_lia|lia|done| |].
  - intros k Hk. destruct (idx_is_Some w k) as [c Hc]; [lia|].
    pose proof (idx_Forall _ _ _ _ (take_while_Forall P (dropZ p s)) Hc) as HPc. cbn beta in HPc.
    rewrite (bind_run _ _ _ _ _ (chr_run s (p + k) st ltac:(lia))).
    unfold chrv. rewrite <- idx_dropZ, E, idx_app_l, Hc by lia. cbn [default from_option id].
    rewrite HPc. peq.
  - rewrite (bind_run _ _ _ _ _ (chr_run s (p + zlen w) st ltac:(lia))).
    unfold chrv. rewrite <- idx_dropZ, E by lia.
    destruct rest as [|c rest].
    + rewrite idx_None by zlen_lia. cbn [default from_option id]. by rewrite HP0.
    + rewrite idx_middle. cbn [default from_option id]. by rewrite (Hrest c rest).
Qed.


Lemma push_run {S} cap buf c (st : S) : zlen buf < cap → push cap buf c st = Ret (buf ++ [c]) st.
Proof. intros. unfold push. by replace (zlen buf <? cap) with true by lia. Qed.

Lemma splice_run {S} i xs buf (st : S) : 0 ≤ i → i + zlen xs ≤ zlen buf →
  splice i xs buf st = Ret (spliced i xs buf) st.
Proof. intros. unfold splice. by replace ((0 <=? i) && (i + zlen xs <=? zlen buf)) with true by lia. Qed.

Lemma peek_run {S} i n buf (st : S) : 0 ≤ i → 0 ≤ n → i + n ≤ zlen buf →
  peek i n buf st = Ret (sliceZ i n buf) st.
Proof. intros. unfold peek. by replace ((0 <=? i) && (0 <=? n) && (i + n <=? zlen buf)) with true by lia. Qed.

(** Reading what was spliced, and around it. *)
Lemma zlen_spliced i xs buf : 0 ≤ i → i + zlen xs ≤ zlen buf → zlen (spliced i xs buf) = zlen buf.
Proof.
  intros. pose proof (zlen_nonneg xs). unfold spliced.
  rewrite !zlen_app, zlen_takeZ, zlen_dropZ by lia. lia.
Qed.

Lemma idx_spliced i xs buf j : 0 ≤ i → i + zlen xs ≤ zlen buf →
  idx (spliced i xs buf) j = if decide (i ≤ j < i + zlen xs) then idx xs (j - i) else idx buf j.
Proof.
  intros. pose proof (zlen_nonneg xs). pose proof (zlen_takeZ i buf ltac:(lia)) as Ht. unfold spliced.
  destruct (decide (j < 0)); [rewrite decide_False, !idx_None by lia; done|].
  destruct (decide (j < i)).
  - rewrite idx_app_l, decide_False by lia. by apply idx_takeZ.
  - rewrite idx_app_r, Ht by lia. case_decide.
    + by rewrite idx_app_l by lia.
    + rewrite idx_app_r by lia. rewrite idx_dropZ by lia. f_equal. lia.
Qed.

Lemma is_bytes_spliced i xs buf : is_bytes xs → is_bytes buf → is_bytes (spliced i xs buf).
Proof.
  intros. unfold is_bytes, spliced. rewrite !Forall_app.
  split_and!; [by apply Forall_takeZ|done|by apply Forall_dropZ].
Qed.

Lemma sliceZ_eq i n (l1 l2 : bytes) : 0 ≤ i → 0 ≤ n →
  (∀ j, i ≤ j < i + n → idx l1 j = idx l2 j) → sliceZ i n l1 = sliceZ i n l2.
Proof.
  intros Hi Hn H. apply list_eq_idx. intros j. destruct (decide (0 ≤ j < n)).
  - rewrite !idx_sliceZ by lia. apply H. lia.
  - destruct (decide (j < 0)); [by rewrite !idx_None by lia|].
    unfold sliceZ. by rewrite !idx_takeZ_ge by lia.
Qed.

Lemma slice_spliced_same i xs buf : 0 ≤ i → i + zlen xs ≤ zlen buf →
  sliceZ i (zlen xs) (spliced i xs buf) = xs.
Proof.
  intros. unfold sliceZ, spliced. pose proof (zlen_nonneg xs).
  pose proof (zlen_takeZ i buf ltac:(lia)) as Ht. generalize dependent (takeZ i buf).
  generalize (dropZ (i + zlen xs) buf). intros r t <-.
  rewrite dropZ_app_zlen. apply takeZ_app_zlen.
Qed.

Lemma slice_spliced_other i xs buf j n : 0 ≤ i → i + zlen xs ≤ zlen buf → 0 ≤ j → 0 ≤ n →
  j + n ≤ i ∨ i + zlen xs ≤ j → sliceZ j n (spliced i xs buf) = sliceZ j n buf.
Proof.
  intros. apply sliceZ_eq; [lia..|]. intros k ?. by rewrite idx_spliced, decide_False by lia.
Qed.

Lemma peek_len {S} i n buf (st st' : S) bs : peek i n buf st = Ret bs st' → zlen bs = n.
Proof.
  unfold peek. destruct ((0 <=? i) && (0 <=? n) && (i + n <=? zlen buf)) eqn:E; [|done].
  intros [= <- _]. apply zlen_sliceZ; lia.
Qed.

Lemma get_u32_run {S} i buf v (st : S) : 0 ≤ i → i + 4 ≤ zlen buf →
  sliceZ i 4 buf = le_split 4 v → 0 ≤ v < 4294967296 → get_u32 i buf st = Ret v st.
Proof.
  intros. unfold get_u32. rewrite (bind_run _ _ _ _ _ (peek_run i 4 buf st ltac:(lia) ltac:(lia) ltac:(lia))).
  rewrite H1, le_combine_split; [done|]. done.
Qed.

Lemma get_s32_run {S} i buf v (st : S) : 0 ≤ i → i + 4 ≤ zlen buf →
  sliceZ i 4 buf = le_split 4 (u32 v) → INT_MIN ≤ v ≤ INT_MAX → get_s32 i buf st = Ret v st.
Proof.
  intros. unfold get_s32.
  rewrite (bind_run _ _ _ _ _ (get_u32_run i buf (u32 v) st ltac:(lia) ltac:(lia) H1 ltac:(unfold u32; lia))).
  unfold ret. f_equal. unfold INT_MIN, INT_MAX, s32, u32 in *. lia.
Qed.

Lemma put_u32_run {S} i v buf (st : S) : 0 ≤ i → i + 4 ≤ zlen buf →
  put_u32 i v buf st = Ret (spliced i (le_split 4 (u32 v)) buf) st.
Proof. intros. unfold put_u32. by apply splice_run. Qed.

(** ** The fields of a request *)

Definition req_name (req : bytes) : bytes := c_str (takeZ 100 req).
Definition req_u32 (i : Z) (req : bytes) : Z := le_combine (sliceZ i 4 req).

Lemma takeZ_slice0 {A} n (l : list A) : takeZ n l = sliceZ 0 n l.
Proof. done. Qed.

Lemma req_name_spliced_name name buf : c_chars name → zlen name < 100 → 100 ≤ zlen buf →
  req_name (spliced 0 (name ++ [0]) buf) = name.
Proof.
  intros Hn Hl Hb. unfold req_name, spliced. rewrite takeZ_0, app_nil_l, <- app_assoc.
  pose proof (zlen_nonneg name).
  rewrite takeZ_slice0. unfold sliceZ. rewrite dropZ_0.
  replace (takeZ 100 (name ++ [0] ++ dropZ (0 + zlen (name ++ [0])) buf))
    with (name ++ 0 :: takeZ (99 - zlen name) (dropZ (0 + zlen (name ++ [0])) buf)).
  - by apply c_str_app_nul.
  - unfold takeZ. rewrite take_app. rewrite (take_ge name) by (unfold zlen in *; lia). f_equal. cbn [app].
    replace (Z.to_nat 100 - length name)%nat with (S (Z.to_nat (99 - zlen name))) by (unfold zlen in *; lia).
    done.
Qed.

Lemma req_name_spliced_other i xs buf : 100 ≤ i → i + zlen xs ≤ zlen buf →
  req_name (spliced i xs buf) = req_name buf.
Proof.
  intros. unfold req_name. rewrite !takeZ_slice0. f_equal. pose proof (zlen_nonneg xs).
  apply slice_spliced_other; lia.
Qed.

Lemma req_u32_spliced_same i v buf : 0 ≤ i → i + 4 ≤ zlen buf →
  req_u32 i (spliced i (le_split 4 (u32 v)) buf) = u32 v.
Proof.
  intros. unfold req_u32. pose proof (slice_spliced_same i (le_split 4 (u32 v)) buf) as E.
  change (zlen (le_split 4 (u32 v))) with 4 in E. rewrite E by lia.
  apply le_combine_split. change (256 ^ Z.of_nat 4) with 4294967296. unfold u32. lia.
Qed.

Lemma req_u32_spliced_other i xs buf j : 0 ≤ i → i + zlen xs ≤ zlen buf → 0 ≤ j →
  j + 4 ≤ i ∨ i + zlen xs ≤ j → req_u32 j (spliced i xs buf) = req_u32 j buf.
Proof. intros. unfold req_u32. by rewrite slice_spliced_other by lia. Qed.
