(* ===== verification/Ctype.v ===== *)
(** <ctype.h>: src/lib/racccoon-libc/src/ctype.c.

    The classes are predicates on an [int]; the C functions return 0 or 1, here
    [bool].  The [_l] variants ignore their locale and are the same functions. *)
From S2P Require Import Prelude.

Definition isdigit (c : Z) : bool := (48 <=? c) && (c <=? 57).
Definition isupper (c : Z) : bool := (65 <=? c) && (c <=? 90).
Definition islower (c : Z) : bool := (97 <=? c) && (c <=? 122).
Definition isalpha (c : Z) : bool := isupper c || islower c.
Definition isalnum (c : Z) : bool := isalpha c || isdigit c.
Definition isspace (c : Z) : bool := (c =? 32) || ((9 <=? c) && (c <=? 13)).
Definition isblank (c : Z) : bool := (c =? 32) || (c =? 9).
Definition iscntrl (c : Z) : bool := ((0 <=? c) && (c <? 32)) || (c =? 127).
Definition isprint (c : Z) : bool := (32 <=? c) && (c <? 127).
Definition isgraph (c : Z) : bool := (32 <? c) && (c <? 127).
Definition ispunct (c : Z) : bool := isgraph c && negb (isalnum c).
Definition isxdigit (c : Z) : bool :=
  isdigit c || ((97 <=? c) && (c <=? 102)) || ((65 <=? c) && (c <=? 70)).

Definition tolower (c : Z) : Z := if isupper c then c + 32 else c.
Definition toupper (c : Z) : Z := if islower c then c - 32 else c.

(** The variants with a locale, which is the C locale. *)
Definition isalnum_l (c : Z) : bool := isalnum c.
Definition isalpha_l (c : Z) : bool := isalpha c.
Definition isblank_l (c : Z) : bool := isblank c.
Definition iscntrl_l (c : Z) : bool := iscntrl c.
Definition isdigit_l (c : Z) : bool := isdigit c.
Definition isgraph_l (c : Z) : bool := isgraph c.
Definition islower_l (c : Z) : bool := islower c.
Definition isprint_l (c : Z) : bool := isprint c.
Definition ispunct_l (c : Z) : bool := ispunct c.
Definition isspace_l (c : Z) : bool := isspace c.
Definition isupper_l (c : Z) : bool := isupper c.
Definition isxdigit_l (c : Z) : bool := isxdigit c.
Definition tolower_l (c : Z) : Z := tolower c.
Definition toupper_l (c : Z) : Z := toupper c.

(** Decides a statement about character classes of one [Z] by arithmetic. *)
Ltac ctype :=
  unfold isxdigit, ispunct, isgraph, isprint, iscntrl, isblank, isspace, isalnum, isalpha,
    tolower, toupper, islower, isupper, isdigit in *;
  repeat match goal with |- context [if ?b then _ else _] => destruct b eqn:? end; lia.

(** The classes of the C locale on the whole [int] range: every 7-bit character
    is exactly one of control, space character, letter, digit or punctuation. *)
Theorem classes_partition (c : Z) :
  let b (x : bool) := if x then 1 else 0 in
  b (iscntrl c) + b (c =? 32) + b (isalpha c) + b (isdigit c) + b (ispunct c)
  = b ((0 <=? c) && (c <? 128)).
Proof. ctype. Qed.

Lemma tolower_toupper c : tolower (toupper c) = tolower c.
Proof. ctype. Qed.

Lemma toupper_tolower c : toupper (tolower c) = toupper c.
Proof. ctype. Qed.

Lemma tolower_idemp c : tolower (tolower c) = tolower c.
Proof. ctype. Qed.

Lemma isspace_nul : isspace 0 = false.
Proof. reflexivity. Qed.
