(* ===== verification/CString.v ===== *)
(** <string.h> and <strings.h>: src/lib/racccoon-libc/src/string.c.

    The functions run on the flat memory of [CMemory]; a pointer is its address
    and 0 is [NULL].  Each theorem gives the value and the exact final memory. *)
From S2P Require Import Prelude CMonad CMemory Ctype.

(** ** The mem functions *)

(** [while (n && (d & 7)) { *d++ = *s++; n--; }] *)
Definition memcpy_head : Z * Z * Z → M mem (step (Z * Z * Z) (Z * Z * Z)) := λ '(d, s, n),
  if negb (n =? 0) && negb (Z.land d 7 =? 0) then
    b <- load8 s ;; store8 d b ;; ret (Continue (d + 1, s + 1, n - 1))
  else ret (Break (d, s, n)).

(** [while (n >= 8) { *(unsigned long * )d = *(unsigned long * )s; ... }] *)
Definition memcpy_words : Z * Z * Z → M mem (step (Z * Z * Z) (Z * Z * Z)) := λ '(d, s, n),
  if 8 <=? n then
    w <- load64 s ;; store64 d w ;; ret (Continue (d + 8, s + 8, n - 8))
  else ret (Break (d, s, n)).

(** [while (n--) *d++ = *s++;] *)
Definition memcpy_tail : Z * Z * Z → M mem (step (Z * Z * Z) unit) := λ '(d, s, n),
  if n =? 0 then ret (Break tt)
  else b <- load8 s ;; store8 d b ;; ret (Continue (d + 1, s + 1, n - 1)).

Definition memcpy (dst src n : Z) : M mem Z :=
  dsn <- loop memcpy_head (dst, src, n) ;;
  let '(d, s, n) := dsn in
  dsn <- (if Z.land s 7 =? 0 then loop memcpy_words (d, s, n) else ret (d, s, n)) ;;
  loop memcpy_tail dsn ;;
  ret dst.

Definition memmove (dst src n : Z) : M mem Z :=
  if (dst =? src) || (n =? 0) then ret dst
  else if dst <? src then memcpy dst src n
  else
    loop (λ '(d, s, n),
      if n =? 0 then ret (Break tt)
      else b <- load8 (s - 1) ;; store8 (d - 1) b ;; ret (Continue (d - 1, s - 1, n - 1)))
      (dst + n, src + n, n) ;;
    ret dst.

Definition memset (s c n : Z) : M mem Z :=
  let b := u8 c in
  pn <- loop (λ '(p, n),
    if negb (n =? 0) && negb (Z.land p 7 =? 0) then store8 p b ;; ret (Continue (p + 1, n - 1))
    else ret (Break (p, n))) (s, n) ;;
  let w := u64 (0x0101010101010101 * b) in
  pn <- loop (λ '(p, n),
    if 8 <=? n then store64 p w ;; ret (Continue (p + 8, n - 8)) else ret (Break (p, n))) pn ;;
  loop (λ '(p, n),
    if n =? 0 then ret (Break tt) else store8 p b ;; ret (Continue (p + 1, n - 1))) pn ;;
  ret s.

Definition memcmp (a b n : Z) : M mem Z :=
  loop (λ i,
    if i <? n then
      x <- load8 (a + i) ;; y <- load8 (b + i) ;;
      if x =? y then ret (Continue (i + 1)) else ret (Break (x - y))
    else ret (Break 0)) 0.

Definition memchr (s c n : Z) : M mem Z :=
  let b := u8 c in
  loop (λ i,
    if i <? n then
      x <- load8 (s + i) ;;
      if x =? b then ret (Break (s + i)) else ret (Continue (i + 1))
    else ret (Break 0)) 0.

Definition memrchr (s c n : Z) : M mem Z :=
  loop (λ '(p, n),
    if n =? 0 then ret (Break 0)
    else x <- load8 (p - 1) ;;
         if x =? u8 c then ret (Break (p - 1)) else ret (Continue (p - 1, n - 1))) (s + n, n).

Definition memmem (hay hn needle nn : Z) : M mem Z :=
  if nn =? 0 then ret hay
  else if hn <? nn then ret 0
  else
    loop (λ i,
      if i + nn <=? hn then
        x <- load8 (hay + i) ;; y <- load8 needle ;;
        if x =? y then
          r <- memcmp (hay + i) needle nn ;;
          if r =? 0 then ret (Break (hay + i)) else ret (Continue (i + 1))
        else ret (Continue (i + 1))
      else ret (Break 0)) 0.

Definition bzero (s n : Z) : M mem unit := memset s 0 n ;; ret tt.
Definition bcopy (src dst n : Z) : M mem unit := memmove dst src n ;; ret tt.

(** ** The str functions *)

Definition strlen (s : Z) : M mem Z :=
  p <- loop (λ p, c <- load8 p ;; if c =? 0 then ret (Break p) else ret (Continue (p + 1))) s ;;
  ret (p - s).

Definition strcmp (a b : Z) : M mem Z :=
  loop (λ '(a, b),
    x <- load8 a ;;
    if x =? 0 then y <- load8 b ;; ret (Break (x - y))
    else y <- load8 b ;;
         if x =? y then ret (Continue (a + 1, b + 1)) else ret (Break (x - y))) (a, b).

Definition strncmp (a b n : Z) : M mem Z :=
  loop (λ i,
    if i <? n then
      ca <- load8 (a + i) ;; cb <- load8 (b + i) ;;
      if negb (ca =? cb) then ret (Break (ca - cb))
      else if ca =? 0 then ret (Break 0)
      else ret (Continue (i + 1))
    else ret (Break 0)) 0.

Definition strcpy (dst src : Z) : M mem Z :=
  loop (λ '(d, s),
    c <- load8 s ;; store8 d c ;;
    if c =? 0 then ret (Break tt) else ret (Continue (d + 1, s + 1))) (dst, src) ;;
  ret dst.

Definition strncpy (dst src n : Z) : M mem Z :=
  i <- loop (λ i,
    if i <? n then
      c <- load8 (src + i) ;;
      if c =? 0 then ret (Break i)
      else store8 (dst + i) c ;; ret (Continue (i + 1))
    else ret (Break i)) 0 ;;
  loop (λ i,
    if i <? n then store8 (dst + i) 0 ;; ret (Continue (i + 1)) else ret (Break tt)) i ;;
  ret dst.

Definition strcat (dst src : Z) : M mem Z :=
  n <- strlen dst ;; strcpy (dst + n) src ;; ret dst.

Definition strncat (dst src n : Z) : M mem Z :=
  l <- strlen dst ;;
  let d := dst + l in
  i <- loop (λ i,
    if i <? n then
      c <- load8 (src + i) ;;
      if c =? 0 then ret (Break i)
      else store8 (d + i) c ;; ret (Continue (i + 1))
    else ret (Break i)) 0 ;;
  store8 (d + i) 0 ;;
  ret dst.

Definition strchr (s c : Z) : M mem Z :=
  let ch := u8 c in
  loop (λ s,
    x <- load8 s ;;
    if x =? ch then ret (Break s)
    else if x =? 0 then ret (Break 0)
    else ret (Continue (s + 1))) s.

Definition strrchr (s c : Z) : M mem Z :=
  let ch := u8 c in
  loop (λ '(s, last),
    x <- load8 s ;;
    let last := if x =? ch then s else last in
    if x =? 0 then ret (Break last) else ret (Continue (s + 1, last))) (s, 0).

Definition strstr (hay needle : Z) : M mem Z :=
  c <- load8 needle ;;
  if c =? 0 then ret hay
  else
    nl <- strlen needle ;;
    loop (λ hay,
      x <- load8 hay ;;
      if x =? 0 then ret (Break 0)
      else
        y <- load8 needle ;;
        if x =? y then
          r <- strncmp hay needle nl ;;
          if r =? 0 then ret (Break hay) else ret (Continue (hay + 1))
        else ret (Continue (hay + 1))) hay.

Definition strnlen (s max : Z) : M mem Z :=
  loop (λ n,
    if n <? max then
      c <- load8 (s + n) ;; if c =? 0 then ret (Break n) else ret (Continue (n + 1))
    else ret (Break n)) 0.

Definition strspn (s set : Z) : M mem Z :=
  loop (λ n,
    c <- load8 (s + n) ;;
    if c =? 0 then ret (Break n)
    else r <- strchr set c ;;
         if r =? 0 then ret (Break n) else ret (Continue (n + 1))) 0.

Definition strcspn (s set : Z) : M mem Z :=
  loop (λ n,
    c <- load8 (s + n) ;;
    if c =? 0 then ret (Break n)
    else r <- strchr set c ;;
         if r =? 0 then ret (Continue (n + 1)) else ret (Break n)) 0.

Definition strpbrk (s set : Z) : M mem Z :=
  loop (λ s,
    c <- load8 s ;;
    if c =? 0 then ret (Break 0)
    else r <- strchr set c ;;
         if r =? 0 then ret (Continue (s + 1)) else ret (Break s)) s.

(** The caller's [*save] is passed in and returned: (token, new [*save]). *)
Definition strtok_r (s sep save : Z) : M mem (Z * Z) :=
  let s := if s =? 0 then save else s in
  if s =? 0 then ret (0, save)
  else
    k <- strspn s sep ;;
    let s := s + k in
    c <- load8 s ;;
    if c =? 0 then ret (0, 0)
    else
      k <- strcspn s sep ;;
      let e := s + k in
      c <- load8 e ;;
      if c =? 0 then ret (s, 0)
      else store8 e 0 ;; ret (s, e + 1).

(** [*sp] is passed in and returned: (token, new [*sp]). *)
Definition strsep (sp sep : Z) : M mem (Z * Z) :=
  if sp =? 0 then ret (0, sp)
  else
    k <- strcspn sp sep ;;
    let e := sp + k in
    c <- load8 e ;;
    if c =? 0 then ret (sp, 0)
    else store8 e 0 ;; ret (sp, e + 1).

(** ** <strings.h> and collation *)

Definition lc (c : Z) : Z := if (65 <=? c) && (c <=? 90) then c + 32 else c.

Definition strcasecmp (a b : Z) : M mem Z :=
  loop (λ '(a, b),
    x <- load8 a ;; 
    if x =? 0 then y <- load8 b ;; ret (Break (lc x - lc y))
    else y <- load8 b ;;
         if lc x =? lc y then ret (Continue (a + 1, b + 1)) else ret (Break (lc x - lc y))) (a, b).

Definition strncasecmp (a b n : Z) : M mem Z :=
  loop (λ '(a, b, n),
    if n =? 0 then ret (Break 0)
    else
      x <- load8 a ;;
      if x =? 0 then y <- load8 b ;; ret (Break (lc x - lc y))
      else y <- load8 b ;;
           if lc x =? lc y then ret (Continue (a + 1, b + 1, n - 1))
           else ret (Break (lc x - lc y))) (a, b, n).

(** [while (!(v & 1)) { v >>= 1; i++; }] for a nonzero [int] *)
Definition ffs {S} (v : Z) : M S Z :=
  if v =? 0 then ret 0
  else loop (λ '(v, i),
    if Z.land v 1 =? 0 then ret (Continue (Z.shiftr v 1, i + 1)) else ret (Break i)) (v, 1).

Definition strcoll (a b : Z) : M mem Z := strcmp a b.

Definition strxfrm (dst src n : Z) : M mem Z :=
  len <- strlen src ;;
  (if n =? 0 then ret dst
   else let c := if len <? n then len + 1 else n in memcpy dst src c) ;;
  ret len.

Definition strcoll_l (a b : Z) : M mem Z := strcoll a b.
Definition strxfrm_l (dst src n : Z) : M mem Z := strxfrm dst src n.

(** strtok's static [save] is passed in and returned, like [*save] above. *)
Definition strtok (s sep save : Z) : M mem (Z * Z) := strtok_r s sep save.

(** ** Copies on the heap; malloc is the vendored allocator's. *)

Definition strdup (malloc : Z → M mem Z) (s : Z) : M mem Z :=
  len <- strlen s ;;
  let n := len + 1 in
  p <- malloc n ;;
  (if negb (p =? 0) then _ <- memcpy p s n ;; ret tt else ret tt) ;;
  ret p.

Definition strndup (malloc : Z → M mem Z) (s max : Z) : M mem Z :=
  n <- loop (λ n,
    if n <? max then c <- load8 (s + n) ;; if c =? 0 then ret (Break n) else ret (Continue (n + 1))
    else ret (Break n)) 0 ;;
  p <- malloc (n + 1) ;;
  (if negb (p =? 0) then _ <- memcpy p s n ;; store8 (p + n) 0 else ret tt) ;;
  ret p.

(** * Proofs *)

(** ** memcpy, memmove *)

Section copy.
Context (m0 : mem) (dst src : Z) (bs : bytes).
Hypothesis Hsrc : bytes_at m0 src bs.
Hypothesis Hbyte : is_bytes bs.
Hypothesis Hdst : writable m0 dst (zlen bs).
Hypothesis Hlen : zlen bs < 18446744073709551616.

  (** The memory after the first [k] bytes were copied. *)
Let st (k : Z) : mem := mwrite dst (takeZ k bs) m0.

Section forward.
Hypothesis Hfwd : dst ≤ src ∨ src + zlen bs ≤ dst.

Lemma copy_unread k n : 0 ≤ k → 0 ≤ n → k + n ≤ zlen bs →
    bytes_at (st k) (src + k) (sliceZ k n bs).
Proof using Hsrc Hfwd.
    intros ??? i b Hi. pose proof (idx_Some_range _ _ _ Hi) as Hr.
    rewrite zlen_sliceZ in Hr by lia. rewrite idx_sliceZ in Hi by lia.
    unfold st. rewrite mwrite_disjoint_lookup by (rewrite zlen_takeZ; lia).
    rewrite <- Z.add_assoc. by apply Hsrc.
Qed.

Lemma copy_byte k : 0 ≤ k < zlen bs →
    ∃ b, load8 (src + k) (st k) = Ret b (st k) ∧ store8 (dst + k) b (st k) = Ret tt (st (k + 1)).
Proof using Hsrc Hfwd Hdst Hbyte.
    intros Hk. destruct (idx_is_Some bs k Hk) as [b Hb]. exists b.
    pose proof (idx_is_byte _ _ _ Hbyte Hb) as Hbb. split.
    - apply load8_run. rewrite <- (Z.add_0_r (src + k)). apply (copy_unread k 1); [lia..|].
      rewrite idx_sliceZ, Z.add_0_r by lia. done.
    - rewrite store8_run by (apply (writable_mwrite _ _ _ _ _ Hdst); lia).
      unfold st. by rewrite (takeZ_snoc _ _ _ Hb), mwrite_snoc, zlen_takeZ, u8_id by lia.
Qed.

Lemma copy_word k : 0 ≤ k → k + 8 ≤ zlen bs →
    Z.land (src + k) 7 = 0 → Z.land (dst + k) 7 = 0 →
    ∃ w, load64 (src + k) (st k) = Ret w (st k) ∧ store64 (dst + k) w (st k) = Ret tt (st (k + 8)).
Proof using Hsrc Hfwd Hdst Hbyte.
    intros Hk Hk8 Hs Hd. pose proof (zlen_sliceZ k 8 bs) as Hl8.
    exists (le_combine (sliceZ k 8 bs)). split.
    - apply load64_run; [done| |lia]. by apply copy_unread.
    - rewrite store64_run; [|done|].
      2: { eapply writable_sub; [by apply writable_mwrite, Hdst|lia..]. }
      unfold st. rewrite takeZ_slice, mwrite_app_r, zlen_takeZ by lia.
      replace 8%nat with (length (sliceZ k 8 bs)) by (unfold zlen in Hl8; lia).
      rewrite le_split_combine; [done|by apply Forall_sliceZ].
Qed.

  (** The state of the three loops: [k] bytes are copied. *)
Let at_ (k : Z) : Z * Z * Z := (dst + k, src + k, zlen bs - k).

Lemma memcpy_head_run :
    ∃ k, 0 ≤ k ≤ zlen bs ∧ (k = zlen bs ∨ Z.land (dst + k) 7 = 0) ∧
      loop memcpy_head (at_ 0) (st 0) = Ret (at_ k) (st k).
Proof using All.
    set (r := (- dst) mod 8). set (k := Z.min r (zlen bs)).
    pose proof (zlen_nonneg bs).
    assert (∀ j, 0 ≤ j < r → Z.land (dst + j) 7 ≠ 0) as Hun.
    { intros j Hj. rewrite land7. lia. }
    assert (k = zlen bs ∨ Z.land (dst + k) 7 = 0) as Hk.
    { destruct (Z.le_gt_cases (zlen bs) r); [left; lia|right].
      rewrite land7. lia. }
    exists k. split_and!; [lia|lia|done|].
    apply (loop_steps _ at_ st k); [lia|done|done| |].
    - intros j Hj. destruct (copy_byte j) as (b & Hl & Hs); [lia|].
      unfold at_ at 1. unfold memcpy_head.
      replace (zlen bs - j =? 0) with false by lia.
      destruct (Z.eqb_spec (Z.land (dst + j) 7) 0) as [E|]; [by apply Hun in E; lia|].
      cbn. rewrite (bind_run _ _ _ _ _ Hl), (bind_run _ _ _ _ _ Hs).
      unfold at_. peq.
    - unfold at_ at 1, memcpy_head.
      replace (negb (zlen bs - k =? 0) && negb (Z.land (dst + k) 7 =? 0)) with false; [done|].
      destruct Hk as [->| ->]; [by rewrite Z.sub_diag|by rewrite andb_false_r].
Qed.

Lemma memcpy_words_run k :
    0 ≤ k ≤ zlen bs → Z.land (src + k) 7 = 0 → k = zlen bs ∨ Z.land (dst + k) 7 = 0 →
    ∃ k', 0 ≤ k' ≤ zlen bs ∧ loop memcpy_words (at_ k) (st k) = Ret (at_ k') (st k').
Proof using All.
    intros Hk Hs Hd. set (n := (zlen bs - k) / 8). exists (k + 8 * n). split; [lia|].
    apply (loop_steps _ (λ j, at_ (k + 8 * j)) (λ j, st (k + 8 * j)) n); [lia| | | |].
    1,2: by rewrite Z.mul_0_r, Z.add_0_r.
    - intros j Hj. destruct (copy_word (k + 8 * j)) as (w & Hl & Hw); [lia|lia| | |].
      1,2: rewrite land7 in *; lia.
      unfold at_ at 1, memcpy_words. replace (8 <=? zlen bs - (k + 8 * j)) with true by lia.
      rewrite (bind_run _ _ _ _ _ Hl), (bind_run _ _ _ _ _ Hw).
      replace (k + 8 * (j + 1)) with (k + 8 * j + 8) by lia.
      unfold at_. peq.
    - unfold at_ at 1, memcpy_words. by replace (8 <=? zlen bs - (k + 8 * n)) with false by lia.
Qed.

Lemma memcpy_tail_run k :
    0 ≤ k ≤ zlen bs → loop memcpy_tail (at_ k) (st k) = Ret tt (mwrite dst bs m0).
Proof using All.
    intros Hk.
    apply (loop_steps _ (λ j, at_ (k + j)) (λ j, st (k + j)) (zlen bs - k)); [lia| | | |].
    1,2: by rewrite Z.add_0_r.
    - intros j Hj. destruct (copy_byte (k + j)) as (b & Hl & Hw); [lia|].
      unfold at_ at 1, memcpy_tail. replace (zlen bs - (k + j) =? 0) with false by lia.
      rewrite (bind_run _ _ _ _ _ Hl), (bind_run _ _ _ _ _ Hw).
      replace (k + (j + 1)) with (k + j + 1) by lia.
      unfold at_. peq.
    - unfold at_, memcpy_tail. replace (zlen bs - (k + (zlen bs - k)) =? 0) with true by lia.
      unfold st. rewrite takeZ_all by lia. done.
Qed.

Lemma memcpy_run : memcpy dst src (zlen bs) m0 = Ret dst (mwrite dst bs m0).
Proof using All.
    destruct memcpy_head_run as (k & Hk & Hd & Hrun).
    unfold memcpy.
    replace (dst, src, zlen bs) with (at_ 0) by (unfold at_; peq).
    change m0 with (st 0) at 1. rewrite (bind_run _ _ _ _ _ Hrun).
    unfold at_ at 1. destruct (Z.eqb_spec (Z.land (src + k) 7) 0) as [Ha|].
    - destruct (memcpy_words_run k) as (k' & Hk' & Hw); [done..|].
      rewrite (bind_run _ _ _ _ _ Hw), (bind_run _ _ _ _ _ (memcpy_tail_run k' Hk')). done.
    - rewrite bind_ret. fold (at_ k). rewrite (bind_run _ _ _ _ _ (memcpy_tail_run k Hk)). done.
Qed.
End forward.
End copy.

Section copy_backward.
Context (m0 : mem) (dst src : Z) (bs : bytes).
Hypothesis Hsrc : bytes_at m0 src bs.
Hypothesis Hbyte : is_bytes bs.
Hypothesis Hdst : writable m0 dst (zlen bs).
Hypothesis Hlen : zlen bs < 18446744073709551616.
Hypothesis Hbwd : src ≤ dst.

  (** The memory after the last [k] bytes were copied. *)
Let st (k : Z) : mem := mwrite (dst + (zlen bs - k)) (dropZ (zlen bs - k) bs) m0.

Lemma copy_byte_back k : 0 ≤ k < zlen bs →
    ∃ b, load8 (src + (zlen bs - k) - 1) (st k) = Ret b (st k) ∧
         store8 (dst + (zlen bs - k) - 1) b (st k) = Ret tt (st (k + 1)).
Proof using Hsrc Hbwd Hdst Hbyte.
    intros Hk. set (j := zlen bs - k - 1). destruct (idx_is_Some bs j) as [b Hb]; [lia|].
    pose proof (idx_is_byte _ _ _ Hbyte Hb). exists b. split.
    - apply load8_run. unfold st. rewrite mwrite_disjoint_lookup by lia.
      replace (src + (zlen bs - k) - 1) with (src + j) by lia. by apply Hsrc.
    - replace (dst + (zlen bs - k) - 1) with (dst + j) by lia.
      rewrite store8_run by (apply (writable_mwrite _ _ _ _ _ Hdst); lia).
      unfold st. replace (zlen bs - (k + 1)) with j by lia.
      rewrite (dropZ_cons _ _ _ Hb), u8_id by lia. cbn [mwrite].
      by replace (j + 1) with (zlen bs - k) by lia; replace (dst + j + 1) with (dst + (zlen bs - k)) by lia.
Qed.

Lemma memmove_backward_run :
    loop (λ '(d, s, n),
      if n =? 0 then ret (Break tt)
      else b <- load8 (s - 1) ;; store8 (d - 1) b ;; ret (Continue (d - 1, s - 1, n - 1)))
      (dst + zlen bs, src + zlen bs, zlen bs) m0 = Ret tt (mwrite dst bs m0).
Proof using All.
    pose proof (zlen_nonneg bs).
    apply (loop_steps _ (λ k, (dst + (zlen bs - k), src + (zlen bs - k), zlen bs - k)) st (zlen bs)).
    - lia.
    - peq.
    - unfold st. rewrite Z.sub_0_r. unfold dropZ. by rewrite drop_ge by (unfold zlen; lia).
    - intros k Hk. destruct (copy_byte_back k Hk) as (b & Hl & Hs).
      replace (zlen bs - k =? 0) with false by lia.
      rewrite (bind_run _ _ _ _ _ Hl), (bind_run _ _ _ _ _ Hs).
      peq.
    - unfold st. rewrite Z.sub_diag, !Z.add_0_r. done.
Qed.
End copy_backward.

(** C24: memmove copies the bytes at [src] to [dst] whatever the overlap of the
    two ranges, through the word-copy path of memcpy as through the backward
    loop: the final memory is the old one with exactly the range at [dst]
    replaced by the bytes that were at [src]; every access is in bounds and
    aligned, and the call returns [dst]. *)
Theorem memmove_correct (m : mem) (dst src : Z) (bs : bytes) :
  bytes_at m src bs → is_bytes bs → writable m dst (zlen bs) →
  zlen bs < 18446744073709551616 →
  memmove dst src (zlen bs) m = Ret dst (mwrite dst bs m).
Proof.
  intros Hsrc Hb Hdst Hlen. unfold memmove.
  destruct (Z.eqb_spec dst src) as [->|Hne]; simpl.
  { by rewrite mwrite_id. }
  destruct (Z.eqb_spec (zlen bs) 0) as [E|].
  { destruct bs; [done|zlen_lia]. }
  destruct (Z.ltb_spec dst src).
  - apply memcpy_run; try done. lia.
  - erewrite bind_run by (apply memmove_backward_run; done || lia). done.
Qed.

(** memcpy meets its contract on ranges that do not overlap. *)
Lemma memcpy_correct (m : mem) (dst src : Z) (bs : bytes) :
  bytes_at m src bs → is_bytes bs → writable m dst (zlen bs) →
  zlen bs < 18446744073709551616 →
  dst ≤ src ∨ src + zlen bs ≤ dst →
  memcpy dst src (zlen bs) m = Ret dst (mwrite dst bs m).
Proof. intros. by apply memcpy_run. Qed.

(** ** memset *)

Lemma memset_word b : is_byte b → le_split 8 (u64 (0x0101010101010101 * b)) = replicate 8 b.
Proof.
  intros Hb. replace (u64 (0x0101010101010101 * b)) with (le_combine (replicate 8 b)).
  - apply (le_split_combine (replicate 8 b)). repeat constructor; lia.
  - rewrite u64_id by lia. simpl. lia.
Qed.

Section set.
Context (m0 : mem) (s b n : Z).
Hypothesis Hb : is_byte b.
Hypothesis Hs : writable m0 s n.
Hypothesis Hn : 0 ≤ n < 18446744073709551616.

Let st (k : Z) : mem := mwrite s (replicate (Z.to_nat k) b) m0.

Lemma set_byte k : 0 ≤ k < n → store8 (s + k) b (st k) = Ret tt (st (k + 1)).
Proof using All.
    intros Hk. rewrite store8_run by (apply (writable_mwrite _ _ _ _ _ Hs); lia).
    unfold st. replace (Z.to_nat (k + 1)) with (Z.to_nat k + 1)%nat by lia.
    rewrite replicate_add. simpl. rewrite mwrite_snoc, zlen_replicate, u8_id by done.
    by rewrite Z2Nat.id by lia.
Qed.

Lemma set_word k : 0 ≤ k → k + 8 ≤ n → Z.land (s + k) 7 = 0 →
    store64 (s + k) (u64 (0x0101010101010101 * b)) (st k) = Ret tt (st (k + 8)).
Proof using All.
    intros Hk Hk8 Ha. rewrite store64_run, memset_word; [|done..|].
    2: { eapply writable_sub; [by apply writable_mwrite, Hs|lia..]. }
    unfold st. replace (Z.to_nat (k + 8)) with (Z.to_nat k + 8)%nat by lia.
    rewrite (replicate_add _ 8), mwrite_app_r, zlen_replicate, Z2Nat.id by lia. done.
Qed.

Lemma memset_run c : u8 c = b → memset s c n m0 = Ret s (st n).
Proof using All.
    intros Hc. unfold memset. rewrite Hc.
    set (r := (- s) mod 8). set (k := Z.min r n).
    erewrite bind_run.
    2: { apply (loop_steps _ (λ j, (s + j, n - j)) st k); [lia| | | |].
         - peq.
         - done.
         - intros j Hj. cbn beta iota. rewrite land7.
           replace (negb (n - j =? 0) && negb ((s + j) mod 8 =? 0)) with true by lia.
           rewrite (bind_run _ _ _ _ _ (set_byte j ltac:(lia))).
           peq.
         - cbn beta iota. rewrite land7.
           by replace (negb (n - k =? 0) && negb ((s + k) mod 8 =? 0)) with false by lia. }
    set (q := (n - k) / 8).
    erewrite bind_run.
    2: { apply (loop_steps _ (λ j, (s + (k + 8 * j), n - (k + 8 * j))) (λ j, st (k + 8 * j)) q);
           [lia| | | |].
         - peq.
         - peq.
         - intros j Hj. cbn beta iota.
           replace (8 <=? n - (k + 8 * j)) with true by lia.
           rewrite (bind_run _ _ _ _ _ (set_word (k + 8 * j) ltac:(lia) ltac:(lia)
             ltac:(rewrite land7; lia))).
           peq.
         - cbn beta iota. by replace (8 <=? n - (k + 8 * q)) with false by lia. }
    erewrite bind_run; [done|].
    apply (loop_steps _ (λ j, (s + (k + 8 * q + j), n - (k + 8 * q + j)))
             (λ j, st (k + 8 * q + j)) (n - (k + 8 * q))); [lia| | | |].
    - peq.
    - peq.
    - intros j Hj. cbn beta iota. replace (n - (k + 8 * q + j) =? 0) with false by lia.
      rewrite (bind_run _ _ _ _ _ (set_byte (k + 8 * q + j) ltac:(lia))).
      peq.
    - cbn beta iota. replace (n - (k + 8 * q + (n - (k + 8 * q))) =? 0) with true by lia.
      peq.
Qed.
End set.

(** Memset fills exactly the [n] bytes at [s] with [(unsigned char)c], through
    its aligned word stores, and returns [s]. *)
Theorem memset_correct (m : mem) (s c n : Z) :
  writable m s n → 0 ≤ n < 18446744073709551616 →
  memset s c n m = Ret s (mwrite s (replicate (Z.to_nat n) (u8 c)) m).
Proof. intros. by apply memset_run; [apply u8_range|..]. Qed.

(** ** Reference functions on byte lists *)

(** The difference of the first bytes in which two strings differ, the end of a
    string counting as a 0. *)
Fixpoint str_cmp (a b : bytes) : Z :=
  match a, b with
  | [], [] => 0
  | [], y :: _ => - y
  | x :: _, [] => x
  | x :: a', y :: b' => if x =? y then str_cmp a' b' else x - y
  end.

(** The index of the first element satisfying [P]. *)
Fixpoint index_of (P : Z → bool) (l : bytes) : option Z :=
  match l with
  | [] => None
  | x :: l => if P x then Some 0 else i ← index_of P l; Some (i + 1)
  end.

(** The length of the longest prefix satisfying [P]. *)
Fixpoint span (P : Z → bool) (l : bytes) : Z :=
  match l with
  | [] => 0
  | x :: l => if P x then 1 + span P l else 0
  end.

Definition in_set (set : bytes) (c : Z) : bool := existsb (Z.eqb c) set.

Fixpoint is_prefix (n h : bytes) : bool :=
  match n, h with
  | [], _ => true
  | _ :: _, [] => false
  | x :: n, y :: h => (x =? y) && is_prefix n h
  end.

(** The index of the first occurrence of [n] in [h]. *)
Fixpoint str_find (n h : bytes) : option Z :=
  if is_prefix n h then Some 0
  else match h with [] => None | _ :: h => i ← str_find n h; Some (i + 1) end.

Lemma index_of_Some P l i :
  index_of P l = Some i ↔
  ∃ l1 x l2, l = l1 ++ x :: l2 ∧ zlen l1 = i ∧ P x = true ∧ Forall (λ y, P y = false) l1.
Proof.
  revert i. induction l as [|x l IH]; intros i; simpl.
  { split; [done|]. intros (l1 & x & l2 & E & _). by destruct l1. }
  destruct (P x) eqn:E.
  - split.
    + intros [= <-]. by exists [], x, l.
    + intros (l1 & y & l2 & El & <- & Hy & Hl1). destruct l1 as [|z l1]; [done|].
      injection El as <- _. apply Forall_cons in Hl1 as [? _]. congruence.
  - destruct (index_of P l) as [j|] eqn:Ej; simpl.
    + split.
      * intros [= <-]. destruct (proj1 (IH j) eq_refl) as (l1 & y & l2 & -> & <- & ? & ?).
        exists (x :: l1), y, l2. split_and!; [done|zlen_lia|done|by constructor].
      * intros (l1 & y & l2 & El & <- & Hy & Hl1). destruct l1 as [|z l1].
        { injection El as <- _. congruence. }
        injection El as <- ->. apply Forall_cons in Hl1 as [_ ?].
        assert (Some j = Some (zlen l1)) as [= ->] by (apply IH; eauto 10).
        f_equal. zlen_lia.
    + split; [done|]. intros (l1 & y & l2 & El & <- & Hy & Hl1). destruct l1 as [|z l1].
      { injection El as <- _. congruence. }
      injection El as <- ->. apply Forall_cons in Hl1 as [_ ?].
      assert (None = Some (zlen l1)) by (apply IH; eauto 10). done.
Qed.

Lemma is_prefix_spec n h : is_prefix n h = true ↔ ∃ rest, h = n ++ rest.
Proof.
  revert h. induction n as [|x n IH]; intros h; simpl; [naive_solver|].
  destruct h as [|y h]; [split; [done|by intros [? ?]]|].
  rewrite andb_true_iff, Z.eqb_eq, IH. split.
  - by intros [-> [r ->]]; exists r.
  - by intros [r [= -> ->]]; eauto.
Qed.

Lemma str_find_Some n h i :
  str_find n h = Some i ↔
  ∃ l1 l2, h = l1 ++ n ++ l2 ∧ zlen l1 = i ∧
    ∀ l1' l2', h = l1' ++ n ++ l2' → zlen l1 ≤ zlen l1'.
Proof.
  revert i. induction h as [|y h IH]; intros i; cbn [str_find];
    destruct (is_prefix n _) eqn:E.
  1,3: apply is_prefix_spec in E as [rest E]; split; [intros [= <-]; exists [], rest;
    split_and!; [done..|intros; zlen_lia]| intros (l1 & l2 & El & <- & Hmin); f_equal;
    specialize (Hmin [] rest E); zlen_lia].
  - split; [done|]. intros (l1 & l2 & El & _). symmetry in El. apply app_eq_nil in El as [_ El].
    apply app_eq_nil in El as [-> _]. done.
  - assert (∀ l1' l2', y :: h = l1' ++ n ++ l2' → ∃ l1'', l1' = y :: l1'' ∧ h = l1'' ++ n ++ l2')
      as Hcons.
    { intros [|z l1'] l2' El.
      - assert (is_prefix n (y :: h) = true) by (apply is_prefix_spec; eauto). congruence.
      - injection El as <- ->. eauto. }
    destruct (str_find n h) as [j|] eqn:Ej; simpl.
    + destruct (proj1 (IH j) eq_refl) as (k1 & k2 & Ek & <- & Hkmin). split.
      * intros [= <-]. exists (y :: k1), k2. split_and!; [by rewrite Ek|zlen_lia|].
        intros l1' l2' (l1'' & -> & El)%Hcons. specialize (Hkmin _ _ El). zlen_lia.
      * intros (l1 & l2 & El & <- & Hmin). apply Hcons in El as (l1'' & -> & El).
        assert (Some (zlen k1) = Some (zlen l1'')) as [= ->].
        { apply IH. exists l1'', l2. split_and!; [done..|].
          intros a b Eab. specialize (Hmin (y :: a) b). rewrite Eab in Hmin. specialize (Hmin eq_refl).
          zlen_lia. }
        f_equal. zlen_lia.
    + split; [done|]. intros (l1 & l2 & El & <- & Hmin).
      pose proof El as (l1'' & -> & El')%Hcons.
      assert (None = Some (zlen l1'')); [|done].
      apply IH. exists l1'', l2. split_and!; [done..|].
      intros a b Eab. specialize (Hmin (y :: a) b). rewrite Eab in Hmin. specialize (Hmin eq_refl).
      zlen_lia.
Qed.

Lemma str_cmp_antisym a b : str_cmp b a = - str_cmp a b.
Proof.
  revert b. induction a as [|x a IH]; intros [|y b]; simpl; try lia.
  destruct (Z.eqb_spec x y) as [->|]; [by rewrite Z.eqb_refl|].
  destruct (Z.eqb_spec y x); lia.
Qed.

Lemma str_cmp_eq a b : c_chars a → c_chars b → str_cmp a b = 0 ↔ a = b.
Proof.
  intros Ha. revert b. induction Ha as [|x a Hx Ha IH]; intros b Hb; destruct Hb as [|y b Hy Hb];
    simpl in *; try (split; [intros; done || lia|done]).
  destruct (Z.eqb_spec x y) as [->|]; [|split; [intros; lia|by intros [=]]].
  rewrite IH by done. split; [by intros ->|by intros [=]].
Qed.

Lemma str_cmp_trans a b c :
  c_chars a → c_chars b → c_chars c → str_cmp a b ≤ 0 → str_cmp b c ≤ 0 → str_cmp a c ≤ 0.
Proof.
  intros Ha. revert b c. induction Ha as [|x a Hx Ha IH]; intros b c Hb Hc;
    destruct Hb as [|y b Hy Hb], Hc as [|z c Hz Hc]; simpl in *; try (intros; lia).
  destruct (Z.eqb_spec x y) as [->|], (Z.eqb_spec y z) as [->|];
    intros ??;
    repeat match goal with |- context [?u =? ?v] => destruct (Z.eqb_spec u v) end;
    first [lia | by eapply (IH b c)].
Qed.

Lemma str_cmp_range a b : is_bytes a → is_bytes b → -255 ≤ str_cmp a b ≤ 255.
Proof.
  intros Ha. revert b. induction Ha as [|x a Hx Ha IH]; intros b Hb; destruct Hb as [|y b Hy Hb];
    simpl in *; try lia. destruct (x =? y); [by apply IH|lia].
Qed.

Lemma span_range P l : 0 ≤ span P l ≤ zlen l.
Proof. induction l; simpl; [zlen_lia|]. destruct (P a); zlen_lia. Qed.

(** [span] splits a string at the first byte that does not satisfy [P]. *)
Lemma span_split P l :
  ∃ l1 l2, l = l1 ++ l2 ∧ zlen l1 = span P l ∧ Forall (λ x, P x = true) l1 ∧
    match l2 with [] => True | x :: _ => P x = false end.
Proof.
  induction l as [|x l (l1 & l2 & -> & Hl & Hl1 & Hl2)]; simpl.
  { by exists [], []. }
  destruct (P x) eqn:E.
  - exists (x :: l1), l2. split_and!; [done|zlen_lia|by constructor|done].
  - by exists [], (x :: l1 ++ l2).
Qed.

(** ** The str functions *)

(** What a scan holds on to: [p] points at the suffix [rest] of the string that
    ends at [e]. *)
Definition at_suffix (m : mem) (e p : Z) (rest : bytes) : Prop :=
  cstr m p rest ∧ p + zlen rest = e.

Lemma at_suffix_nil m e p : at_suffix m e p [] → m !! p = Some 0 ∧ p = e.
Proof. intros [H <-]. split; [by apply cstr_nil_inv|zlen_lia]. Qed.

Lemma at_suffix_cons m e p b rest :
  at_suffix m e p (b :: rest) →
  m !! p = Some b ∧ 0 < b < 256 ∧ p < e ∧ at_suffix m e (p + 1) rest.
Proof.
  intros [H <-]. apply cstr_cons_inv in H as (? & ? & ?). split_and!; [done|lia|lia|zlen_lia|].
  split; [done|zlen_lia].
Qed.

Lemma at_suffix_start m p s : cstr m p s → at_suffix m (p + zlen s) p s.
Proof. done. Qed.

Lemma at_suffix_range m e p rest : at_suffix m e p rest → 0 < p ≤ e ∧ e < 18446744073709551616.
Proof. intros [[] <-]. zlen_lia. Qed.

Lemma strlen_run m p s : cstr m p s → strlen p m = Ret (zlen s) m.
Proof.
  intros H. unfold strlen. erewrite bind_run.
  2: { apply (loop_pure _ (λ q, p + zlen s - q) (λ q, ∃ r, at_suffix m (p + zlen s) q r)
         m p (p + zlen s)); [|by exists s|destruct (cstr_bounds _ _ _ H); lia].
       intros q [r Hr]. pose proof (at_suffix_range _ _ _ _ Hr). split; [lia|].
       destruct r as [|b r].
       - apply at_suffix_nil in Hr as [Hq ->]. left. by run_load Hq.
       - apply at_suffix_cons in Hr as (Hq & ? & ? & ?). right. exists (q + 1).
         run_load Hq. replace (b =? 0) with false by lia. split_and!; [done|eauto|lia]. }
  peq.
Qed.

Lemma strcmp_run m a b sa sb :
  cstr m a sa → cstr m b sb → strcmp a b m = Ret (str_cmp sa sb) m.
Proof.
  intros Ha Hb. unfold strcmp.
  apply (loop_pure _ (λ '(p, q), a + zlen sa - p)
    (λ '(p, q), ∃ ra rb, at_suffix m (a + zlen sa) p ra ∧ at_suffix m (b + zlen sb) q rb ∧
       str_cmp sa sb = str_cmp ra rb)); [|by exists sa, sb|destruct (cstr_bounds _ _ _ Ha); lia].
  intros [p q] (ra & rb & Hp & Hq & ->).
  pose proof (at_suffix_range _ _ _ _ Hp). split; [lia|].
  destruct ra as [|x ra].
  - apply at_suffix_nil in Hp as [Hp _]. left. run_load Hp. destruct rb as [|y rb].
    + apply at_suffix_nil in Hq as [Hq _]. by run_load Hq.
    + apply at_suffix_cons in Hq as (Hq & _). by run_load Hq.
  - apply at_suffix_cons in Hp as (Hp & ? & ? & ?). run_load Hp.
    replace (x =? 0) with false by lia. destruct rb as [|y rb].
    + apply at_suffix_nil in Hq as [Hq _]. left. run_load Hq.
      replace (x =? 0) with false by lia. simpl. peq.
    + apply at_suffix_cons in Hq as (Hq & ? & ? & ?). run_load Hq. simpl.
      destruct (x =? y); [|by left]. right. exists (p + 1, q + 1). split_and!; [done|eauto|lia].
Qed.

(** Strcmp terminates on any two strings, touches only their bytes, and
    computes the lexicographic difference of unsigned bytes; that difference is
    a total order on strings: 0 exactly on equal strings, antisymmetric,
    transitive. *)
Theorem strcmp_correct (m : mem) (a b : Z) (sa sb : bytes) :
  cstr m a sa → cstr m b sb →
  ∃ r, strcmp a b m = Ret r m ∧ strcmp b a m = Ret (- r) m ∧ -255 ≤ r ≤ 255 ∧
    (r = 0 ↔ sa = sb) ∧
    (∀ c sc r', cstr m c sc → strcmp b c m = Ret r' m → r ≤ 0 → r' ≤ 0 →
       ∃ r'', strcmp a c m = Ret r'' m ∧ r'' ≤ 0).
Proof.
  intros Ha Hb. exists (str_cmp sa sb).
  pose proof (cstr_chars _ _ _ Ha) as Ca. pose proof (cstr_chars _ _ _ Hb) as Cb.
  split_and!.
  - by apply strcmp_run.
  - rewrite (strcmp_run m b a sb sa) by done. by rewrite str_cmp_antisym.
  - by apply str_cmp_range; apply c_chars_is_bytes.
  - by apply str_cmp_range; apply c_chars_is_bytes.
  - by apply str_cmp_eq.
  - intros c sc r' Hc E Hr Hr'. rewrite (strcmp_run m b c sb sc) in E by done.
    injection E as <-. exists (str_cmp sa sc). split; [by apply strcmp_run|].
    eapply (str_cmp_trans sa sb sc); try done. by destruct Hc.
Qed.

Lemma strncmp_run m a b n sa sb :
  cstr m a sa → cstr m b sb → 0 ≤ n < 18446744073709551616 →
  strncmp a b n m = Ret (str_cmp (takeZ n sa) (takeZ n sb)) m.
Proof.
  intros Ha Hb Hn. unfold strncmp.
  apply (loop_pure _ (λ i, n - i)
    (λ i, 0 ≤ i ≤ n ∧ i ≤ zlen sa ∧ i ≤ zlen sb ∧
      str_cmp (takeZ n sa) (takeZ n sb) =
      str_cmp (takeZ (n - i) (dropZ i sa)) (takeZ (n - i) (dropZ i sb))));
    [|split_and!; try zlen_lia; by rewrite Z.sub_0_r|lia].
  intros i (Hi & Hia & Hib & ->). split; [lia|].
  destruct (Z.ltb_spec i n).
  2: { left. replace (n - i) with 0 by lia. done. }
  replace (n - i) with (1 + (n - i - 1)) by lia.
  destruct (Z.eq_dec i (zlen sa)) as [->|].
  - pose proof (cstr_nul _ _ _ Ha) as Hx. run_load Hx. left.
    rewrite (dropZ_all sa) by lia.
    destruct (Z.eq_dec (zlen sa) (zlen sb)) as [E|].
    + pose proof (cstr_nul _ _ _ Hb) as Hy. rewrite <- E in Hy. run_load Hy.
      by rewrite (dropZ_all sb), !takeZ_nil by lia.
    + destruct (cstr_at m b sb (zlen sa) Hb) as (y & Ey & Hy & ?); [lia|]. run_load Hy.
      replace (0 =? y) with false by lia. cbn beta iota delta [negb].
      by rewrite (dropZ_cons _ _ _ Ey), takeZ_cons, takeZ_nil by lia.
  - destruct (cstr_at m a sa i Ha) as (x & Ex & Hx & ?); [lia|]. run_load Hx.
    rewrite (dropZ_cons _ _ _ Ex), takeZ_cons by lia.
    destruct (Z.eq_dec i (zlen sb)) as [->|].
    + pose proof (cstr_nul _ _ _ Hb) as Hy. run_load Hy. rewrite (dropZ_all sb) by lia.
      replace (x =? 0) with false by lia. cbn beta iota delta [negb]. left.
      rewrite takeZ_nil. simpl. peq.
    + destruct (cstr_at m b sb i Hb) as (y & Ey & Hy & ?); [lia|]. run_load Hy.
      rewrite (dropZ_cons _ _ _ Ey), takeZ_cons by lia. simpl str_cmp.
      destruct (Z.eqb_spec x y) as [->|]; cbn beta iota delta [negb]; [|by left].
      replace (y =? 0) with false by lia. right. exists (i + 1).
      split_and!; try done; try lia. by replace (n - (i + 1)) with (n - i - 1) by lia.
Qed.

Lemma strchr_run m p s c :
  cstr m p s →
  strchr p c m = Ret (match index_of (Z.eqb (u8 c)) (s ++ [0]) with Some i => p + i | None => 0 end) m.
Proof.
  intros H. unfold strchr. set (F q r :=
    match index_of (Z.eqb (u8 c)) (r ++ [0]) with Some i => q + i | None => 0 end).
  change (match index_of (Z.eqb (u8 c)) (s ++ [0]) with Some i => p + i | None => 0 end) with (F p s).
  apply (loop_pure _ (λ q, p + zlen s - q)
    (λ q, ∃ r, at_suffix m (p + zlen s) q r ∧ F p s = F q r));
    [|by exists s|destruct (cstr_bounds _ _ _ H); lia].
  intros q (r & Hr & HF). rewrite HF. pose proof (at_suffix_range _ _ _ _ Hr). split; [lia|].
  destruct r as [|b r].
  - apply at_suffix_nil in Hr as [Hq ->]. left. run_load Hq. unfold F. cbn [app index_of].
    rewrite (Z.eqb_sym 0 (u8 c)). destruct (u8 c =? 0); simpl; [peq|done].
  - apply at_suffix_cons in Hr as (Hq & ? & ? & ?). run_load Hq. unfold F. cbn [app index_of].
    rewrite (Z.eqb_sym b (u8 c)). destruct (u8 c =? b).
    + left. rewrite Z.add_0_r. done.
    + right. replace (b =? 0) with false by lia. exists (q + 1). split_and!; [done| |lia].
      exists r. split; [done|]. destruct (index_of _ (r ++ [0])); simpl; lia.
Qed.

Lemma strnlen_run m p s max :
  cstr m p s → 0 ≤ max < 18446744073709551616 → strnlen p max m = Ret (Z.min (zlen s) max) m.
Proof.
  intros H Hmax. unfold strnlen. pose proof (zlen_nonneg s).
  apply (loop_pure _ (λ n, max - n) (λ n, 0 ≤ n ≤ zlen s ∧ n ≤ max)); [|lia..].
  intros n Hn. split; [lia|]. destruct (Z.ltb_spec n max).
  - destruct (Z.eq_dec n (zlen s)) as [->|].
    + left. pose proof (cstr_nul _ _ _ H) as Hq. run_load Hq. peq.
    + destruct (cstr_at m p s n H) as (b & _ & Hb & ?); [lia|]. run_load Hb.
      replace (b =? 0) with false by lia. right. exists (n + 1). split_and!; [done|lia..].
  - left. peq.
Qed.

Lemma memcmp_run m a b la lb :
  bytes_at m a la → bytes_at m b lb → zlen la = zlen lb → zlen la < 18446744073709551616 →
  memcmp a b (zlen la) m = Ret (str_cmp la lb) m.
Proof.
  intros Ha Hb Hlen Hmax. unfold memcmp.
  apply (loop_pure _ (λ i, zlen la - i)
    (λ i, 0 ≤ i ≤ zlen la ∧ str_cmp la lb = str_cmp (dropZ i la) (dropZ i lb)));
    [|split_and!; by try zlen_lia|lia].
  intros i (Hi & ->). split; [lia|]. destruct (Z.ltb_spec i (zlen la)).
  - destruct (idx_is_Some la i) as [x Hx]; [lia|]. destruct (idx_is_Some lb i) as [y Hy]; [lia|].
    pose proof (Ha _ _ Hx) as Lx. pose proof (Hb _ _ Hy) as Ly. run_load Lx. run_load Ly.
    rewrite (dropZ_cons _ _ _ Hx), (dropZ_cons _ _ _ Hy). cbn [str_cmp].
    destruct (x =? y); [|by left]. right. exists (i + 1). split_and!; [done|lia..|done|lia].
  - left. by rewrite !dropZ_all by lia.
Qed.

(** Equality of the compared prefix is a prefix test. *)
Lemma is_prefix_cmp n h :
  c_chars n → is_bytes h → is_prefix n h = (str_cmp (takeZ (zlen n) h) n =? 0).
Proof.
  intros Hn. revert h. induction Hn as [|x n Hx Hn IH]; intros h Hh; cbn [is_prefix].
  { by destruct h. }
  rewrite zlen_cons. pose proof (zlen_nonneg n). destruct Hh as [|y h Hy Hh].
  { rewrite takeZ_nil. cbn [str_cmp]. lia. }
  rewrite takeZ_cons by lia. cbn [str_cmp]. rewrite (Z.eqb_sym y x).
  destruct (Z.eqb_spec x y); cbn [andb]; [by apply IH|lia].
Qed.

Lemma str_find_cons_ne n y h :
  is_prefix n (y :: h) = false → str_find n (y :: h) = (i ← str_find n h; Some (i + 1)).
Proof. cbn [str_find]. by intros ->. Qed.

(** Strstr returns the first occurrence of the needle, or NULL when there is
    none; an empty needle is found at the start. *)
Theorem strstr_correct (m : mem) (p q : Z) (hay needle : bytes) :
  cstr m p hay → cstr m q needle →
  strstr p q m = Ret (match str_find needle hay with Some i => p + i | None => 0 end) m.
Proof.
  intros Hp Hq. unfold strstr. destruct needle as [|c n].
  { pose proof (cstr_nil_inv _ _ Hq) as Lq. run_load Lq. destruct hay; simpl; peq. }
  destruct (cstr_cons_inv _ _ _ _ Hq) as (Lq & Hc & _). run_load Lq.
  replace (c =? 0) with false by lia. run_call (strlen_run _ _ _ Hq).
  set (nd := c :: n) in *. set (F a r := match str_find nd r with Some i => a + i | None => 0 end).
  change (match str_find nd hay with Some i => p + i | None => 0 end) with (F p hay).
  apply (loop_pure _ (λ a, p + zlen hay - a)
    (λ a, ∃ r, at_suffix m (p + zlen hay) a r ∧ F p hay = F a r));
    [|by exists hay|destruct (cstr_bounds _ _ _ Hp); lia].
  intros a (r & Hr & HF). rewrite HF. pose proof (at_suffix_range _ _ _ _ Hr). split; [lia|].
  destruct r as [|y r].
  { apply at_suffix_nil in Hr as [La ->]. left. by run_load La. }
  pose proof Hr as Hra. apply at_suffix_cons in Hr as (La & Hy & ? & Hr). run_load La.
  replace (y =? 0) with false by lia. run_load Lq.
  pose proof (is_prefix_cmp nd (y :: r) (cstr_chars _ _ _ Hq)) as Hpre.
  specialize (Hpre (c_chars_is_bytes _ (cstr_chars _ _ _ (proj1 Hra)))).
  destruct (Z.eqb_spec y c) as [->|Hyc].
  - erewrite bind_run.
    2: { apply (strncmp_run _ _ _ _ _ _ (proj1 Hra) Hq). destruct (cstr_bounds _ _ _ Hq).
         pose proof (zlen_nonneg nd). lia. }
    fold nd. rewrite (takeZ_all nd) by lia. rewrite <- Hpre.
    destruct (is_prefix nd (c :: r)) eqn:E.
    + left. unfold F. cbn [str_find]. rewrite E. peq.
    + right. exists (a + 1). split_and!; [done| |lia]. exists r. split; [done|].
      unfold F. rewrite str_find_cons_ne by done. destruct (str_find nd r); simpl; lia.
  - right. exists (a + 1). split_and!; [done| |lia]. exists r. split; [done|].
    unfold F. rewrite str_find_cons_ne.
    + destruct (str_find nd r); simpl; lia.
    + unfold nd. cbn [is_prefix]. by replace (c =? y) with false by lia.
Qed.

(** ** Spans and tokens *)

Lemma in_set_index set c :
  0 < c < 256 →
  match index_of (Z.eqb (u8 c)) (set ++ [0]) with Some i => 0 ≤ i | None => True end ∧
  in_set set c = match index_of (Z.eqb (u8 c)) (set ++ [0]) with Some _ => true | None => false end.
Proof.
  intros Hc. rewrite u8_id by lia. induction set as [|x set [IH1 IH2]]; simpl.
  { by replace (c =? 0) with false by lia. }
  destruct (c =? x); simpl; [done|].
  fold (in_set set c). rewrite IH2. revert IH1.
  destruct (index_of _ _) as [i|]; cbn [mbind option_bind]; intros; split; done || lia.
Qed.

(** strchr as the membership test strspn and strcspn use it for. *)
Lemma strchr_mem m q set c :
  cstr m q set → 0 < c < 256 →
  ∃ r, strchr q c m = Ret r m ∧ (r =? 0) = negb (in_set set c).
Proof.
  intros Hq Hc. rewrite (strchr_run _ _ _ _ Hq). destruct (in_set_index set c Hc) as [Hi ->].
  destruct (cstr_bounds _ _ _ Hq). destruct (index_of _ _); (eexists; split; [done|]); simpl; lia.
Qed.

(** The common loop of strspn and strcspn. *)
Lemma span_loop m p s (P : Z → bool) (body : Z → M mem (step Z Z)) :
  cstr m p s →
  (∀ n, m !! (p + n) = Some 0 → body n m = Ret (Break n) m) →
  (∀ n c, m !! (p + n) = Some c → 0 < c < 256 →
     body n m = Ret (if P c then Continue (n + 1) else Break n) m) →
  loop body 0 m = Ret (span P s) m.
Proof.
  intros H H0 Hc. pose proof (zlen_nonneg s). destruct (cstr_bounds _ _ _ H).
  apply (loop_pure _ (λ n, zlen s - n)
    (λ n, 0 ≤ n ≤ zlen s ∧ span P s = n + span P (dropZ n s))); [|split; [lia|done]|lia].
  intros n [Hn ->]. split; [lia|]. destruct (Z.eq_dec n (zlen s)) as [->|].
  - left. rewrite dropZ_all by lia. rewrite H0 by (by apply cstr_nul). cbn [span]. peq.
  - destruct (cstr_at m p s n H) as (b & Hb & Lb & ?); [lia|].
    rewrite (Hc _ _ Lb) by done. rewrite (dropZ_cons _ _ _ Hb). cbn [span].
    destruct (P b); [right|left; peq]. exists (n + 1). split_and!; [done|lia..].
Qed.

Lemma strspn_run m p q s set :
  cstr m p s → cstr m q set → strspn p q m = Ret (span (in_set set) s) m.
Proof.
  intros Hp Hq. apply (span_loop _ _ _ _ _ Hp); intros n.
  - intros L. by run_load L.
  - intros c L Hc. run_load L. replace (c =? 0) with false by lia.
    destruct (strchr_mem _ _ _ _ Hq Hc) as (r & E & Hr). run_call E. rewrite Hr.
    by destruct (in_set set c).
Qed.

Lemma strcspn_run m p q s set :
  cstr m p s → cstr m q set → strcspn p q m = Ret (span (λ c, negb (in_set set c)) s) m.
Proof.
  intros Hp Hq. apply (span_loop _ _ _ _ _ Hp); intros n.
  - intros L. by run_load L.
  - intros c L Hc. run_load L. replace (c =? 0) with false by lia.
    destruct (strchr_mem _ _ _ _ Hq Hc) as (r & E & Hr). run_call E. rewrite Hr.
    by destruct (in_set set c).
Qed.

Lemma cstr_truncate m p s1 c s2 :
  cstr m p (s1 ++ c :: s2) → cstr (<[p + zlen s1 := 0]> m) p s1 ∧
    cstr (<[p + zlen s1 := 0]> m) (p + zlen s1 + 1) s2.
Proof.
  intros H. pose proof (cstr_bounds _ _ _ H) as Hp.
  change (<[p + zlen s1 := 0]> m) with (mwrite (p + zlen s1) [0] m). split.
  - destruct H as [_ [Hc _]%c_chars_app Hb]. split; [zlen_lia|done|].
    rewrite <- app_assoc in Hb. apply bytes_at_app in Hb as [Hb _].
    apply bytes_at_app. split; [|apply bytes_at_mwrite_same].
    apply bytes_at_mwrite_disjoint; [done|lia].
  - rewrite cons_middle, app_assoc in H. apply cstr_app in H.
    replace (p + zlen (s1 ++ [c])) with (p + zlen s1 + 1) in H by zlen_lia.
    apply cstr_mwrite_disjoint; [done|zlen_lia].
Qed.

(** C31: one call of strtok_r on a string: leading separators are skipped; if
    nothing is left the result is NULL and the scan is over; else the token is
    the longest run without separators, it is NUL-terminated in place, and the
    saved pointer is the rest of the string after the separator that ended it,
    or NULL when the token ran to the end. Nothing else changes. *)
Theorem strtok_r_correct (m : mem) (p sep save : Z) (s set : bytes) :
  cstr m p s → cstr m sep set →
  let notsep x := negb (in_set set x) in
  ∃ skip tok rest, s = skip ++ tok ++ rest ∧
    Forall (λ c, in_set set c = true) skip ∧ Forall (λ c, in_set set c = false) tok ∧
    match rest with [] => True | c :: _ => in_set set c = true ∧ tok ≠ [] end ∧
    let t := p + zlen skip in
    match tok, rest with
    | [], _ => strtok_r p sep save m = Ret (0, 0) m
    | _, [] => strtok_r p sep save m = Ret (t, 0) m ∧ cstr m t tok
    | _, _ :: rest' => ∃ m', m' = <[t + zlen tok := 0]> m ∧
        strtok_r p sep save m = Ret (t, t + zlen tok + 1) m' ∧
        cstr m' t tok ∧ cstr m' (t + zlen tok + 1) rest'
    end.
Proof.
  intros Hp Hq notsep.
  destruct (span_split (in_set set) s) as (skip & s1 & -> & Hskip & HFskip & Hs1).
  destruct (span_split notsep s1) as (tok & rest & -> & Htok & HFtok & Hrest).
  exists skip, tok, rest. unfold notsep in *. split; [done|]. split; [done|].
  split; [by eapply Forall_impl; [exact HFtok|]; intros x ?%negb_true_iff|].
  pose proof (cstr_bounds _ _ _ Hp) as Hb. pose proof (zlen_nonneg skip).
  pose proof (cstr_app _ _ _ _ Hp) as H1.
  assert (strtok_r p sep save m = (c <- load8 (p + zlen skip) ;;
     if c =? 0 then ret (0, 0) else
     k <- strcspn (p + zlen skip) sep ;; let e := p + zlen skip + k in
     c <- load8 e ;; if c =? 0 then ret (p + zlen skip, 0) else store8 e 0 ;; ret (p + zlen skip, e + 1)) m)
    as ->.
  { unfold strtok_r. replace (p =? 0) with false by lia. replace (p =? 0) with false by lia.
    run_call (strspn_run _ _ _ _ _ Hp Hq). by rewrite <- Hskip. }
  destruct tok as [|c tok].
  { destruct rest as [|c rest].
    - split; [done|]. pose proof (cstr_nil_inv _ _ H1) as L. by run_load L.
    - simpl in Hs1, Hrest. rewrite Hs1 in Hrest. done. }
  destruct (cstr_cons_inv _ _ _ _ H1) as (L & Hc & _). split.
  { destruct rest; [done|]. split; [by apply negb_false_iff|done]. }
  run_load L. replace (c =? 0) with false by lia.
  run_call (strcspn_run _ _ _ _ _ H1 Hq). rewrite <- Htok. destruct rest as [|d rest].
  - rewrite app_nil_r in H1. pose proof (cstr_nul _ _ _ H1) as Ln. by run_load Ln.
  - pose proof (cstr_app _ _ _ _ H1) as H2. destruct (cstr_cons_inv _ _ _ _ H2) as (Ld & Hd & _).
    eexists. split; [done|]. split; [|by eapply cstr_truncate].
    run_load Ld. replace (d =? 0) with false by lia.
    erewrite bind_run by (apply store8_run; eauto). done.
Qed.

(** * Concrete instances *)

(** "abracadabra, dabra" as bytes. *)
Definition ex_text : bytes :=
  [97; 98; 114; 97; 99; 97; 100; 97; 98; 114; 97; 44; 32; 100; 97; 98; 114; 97].
Definition ex_dabra : bytes := [100; 97; 98; 114; 97].
Definition ex_seps : bytes := [32; 44].
Definition ex_mem : mem :=
  mwrite 4096 (ex_text ++ [0]) (mwrite 8192 (ex_dabra ++ [0]) (mwrite 12288 (ex_seps ++ [0]) ∅)).

Lemma ex_text_at : cstr ex_mem 4096 ex_text.
Proof. apply cstr_b_sound. vm_compute. reflexivity. Qed.
Lemma ex_dabra_at : cstr ex_mem 8192 ex_dabra.
Proof. apply cstr_b_sound. vm_compute. reflexivity. Qed.
Lemma ex_seps_at : cstr ex_mem 12288 ex_seps.
Proof. apply cstr_b_sound. vm_compute. reflexivity. Qed.

(** An overlapping forward move by three bytes. *)
Lemma memmove_correct_witness :
  memmove 4099 4096 15 ex_mem = Ret 4099 (mwrite 4099 (takeZ 15 ex_text) ex_mem).
Proof.
  apply (memmove_correct ex_mem 4099 4096 (takeZ 15 ex_text)).
  - apply bytes_at_b_sound. vm_compute. reflexivity.
  - apply is_bytes_b_sound. vm_compute. reflexivity.
  - apply (bytes_at_writable ex_mem 4099 (sliceZ 3 15 ex_text)).
    apply bytes_at_b_sound. vm_compute. reflexivity.
  - vm_compute. reflexivity.
Defined.

Lemma memset_correct_witness :
  memset 4097 (-1) 17 ex_mem = Ret 4097 (mwrite 4097 (replicate 17 255) ex_mem).
Proof.
  apply (memset_correct ex_mem 4097 (-1) 17).
  - apply (bytes_at_writable ex_mem 4097 (sliceZ 1 17 ex_text)).
    apply bytes_at_b_sound. vm_compute. reflexivity.
  - split; vm_compute; [discriminate|reflexivity].
Defined.

Lemma strcmp_correct_witness :
  ∃ r, strcmp 4096 8192 ex_mem = Ret r ex_mem ∧ strcmp 8192 4096 ex_mem = Ret (- r) ex_mem ∧
    -255 ≤ r ≤ 255 ∧ (r = 0 ↔ ex_text = ex_dabra) ∧
    (∀ c sc r', cstr ex_mem c sc → strcmp 8192 c ex_mem = Ret r' ex_mem → r ≤ 0 → r' ≤ 0 →
       ∃ r'', strcmp 4096 c ex_mem = Ret r'' ex_mem ∧ r'' ≤ 0).
Proof. exact (strcmp_correct ex_mem 4096 8192 ex_text ex_dabra ex_text_at ex_dabra_at). Defined.

Lemma strstr_correct_witness : strstr 4096 8192 ex_mem = Ret 4102 ex_mem.
Proof. exact (strstr_correct ex_mem 4096 8192 ex_text ex_dabra ex_text_at ex_dabra_at). Defined.

Lemma strtok_r_correct_witness :
  ∃ skip tok rest, ex_text = skip ++ tok ++ rest ∧
    Forall (λ c, in_set ex_seps c = true) skip ∧ Forall (λ c, in_set ex_seps c = false) tok ∧
    match rest with [] => True | c :: _ => in_set ex_seps c = true ∧ tok ≠ [] end ∧
    let t := 4096 + zlen skip in
    match tok, rest with
    | [], _ => strtok_r 4096 12288 0 ex_mem = Ret (0, 0) ex_mem
    | _, [] => strtok_r 4096 12288 0 ex_mem = Ret (t, 0) ex_mem ∧ cstr ex_mem t tok
    | _, _ :: rest' => ∃ m', m' = <[t + zlen tok := 0]> ex_mem ∧
        strtok_r 4096 12288 0 ex_mem = Ret (t, t + zlen tok + 1) m' ∧
        cstr m' t tok ∧ cstr m' (t + zlen tok + 1) rest'
    end.
Proof. exact (strtok_r_correct ex_mem 4096 12288 0 ex_text ex_seps ex_text_at ex_seps_at). Defined.

(** The loops evaluate. *)
Example strtok_r_runs :
  match strtok_r 4096 12288 0 ex_mem with Ret r _ => r = (4096, 4108) | _ => False end.
Proof. vm_compute. reflexivity. Qed.
Example memmem_runs : memmem 4096 18 8192 5 ex_mem = Ret 4102 ex_mem.
Proof. vm_compute. reflexivity. Qed.
Example ffs_runs : ffs (S:=mem) (-2147483648) ∅ = Ret 32 ∅.
Proof. vm_compute. reflexivity. Qed.

(** strdup on a heap: given a block of the size it asks for, apart from the
    string, it returns the block with a copy of the string in it and nothing else
    changed; when the heap is exhausted it returns NULL and copies nothing. *)
Theorem strdup_correct (malloc : Z → M mem Z) (m m' : mem) (s p : Z) (t : bytes) :
  cstr m s t → malloc (zlen t + 1) m = Ret p m' → cstr m' s t →
  (p ≠ 0 → writable m' p (zlen t + 1) ∧ 0 < p ∧ p + zlen t < 18446744073709551616 ∧
    (p + (zlen t + 1) ≤ s ∨ s + (zlen t + 1) ≤ p)) →
  strdup malloc s m = Ret p (if p =? 0 then m' else mwrite p (t ++ [0]) m') ∧
  (p ≠ 0 → cstr (mwrite p (t ++ [0]) m') p t ∧ cstr (mwrite p (t ++ [0]) m') s t).
Proof.
  intros Hs Hm Hs' Hp. pose proof (cstr_bounds _ _ _ Hs) as Hb. pose proof (zlen_nonneg t).
  assert (zlen (t ++ [0]) = zlen t + 1) as Hz by zlen_lia.
  unfold strdup. rewrite (bind_run _ _ _ _ _ (strlen_run _ _ _ Hs)). cbn zeta. rewrite (bind_run _ _ _ _ _ Hm).
  destruct (Z.eqb_spec p 0) as [->|Hne]; cbn [negb]; [by split|].
  destruct (Hp Hne) as (Hw & Hp0 & Hp1 & Hd). pose proof (cstr_bytes _ _ _ Hs') as Hsb. split.
  - rewrite (bind_run _ _ tt _ (mwrite p (t ++ [0]) m')); [done|].
    rewrite (bind_run _ _ p _ (mwrite p (t ++ [0]) m')); [done|]. rewrite <- Hz in *.
    apply memcpy_correct; [done|by eapply cstr_is_bytes|done|lia|lia].
  - intros _. split.
    + split; [lia|by destruct Hs|apply bytes_at_mwrite_same].
    + apply cstr_mwrite_disjoint; [done|]. lia.
Qed.
