(* ===== verification/CStdlib.v ===== *)
(** <stdlib.h>, the pure part: src/lib/racccoon-libc/src/stdlib.c.

    Numeric conversion, integer arithmetic and the pseudo-random generator, on string
    values ([CBuffer.chr]).  The end pointer of strtoull is returned as the offset into [s].
    Signed overflow is undefined behaviour in C and a [Fault] here. *)
From S2P Require Import Prelude CMonad CBuffer Ctype.

Definition digit_val (c : Z) : Z :=
  if (48 <=? c) && (c <=? 57) then c - 48
  else if (97 <=? c) && (c <=? 122) then c - 97 + 10
  else if (65 <=? c) && (c <=? 90) then c - 65 + 10
  else 99.

(** [-x] on a signed integer type with maximum [max] *)
Definition neg_signed {S} (max x : Z) : M S Z := if decide (- x ≤ max) then ret (- x) else fault.

Definition strtoull {S} (s : bytes) (base : Z) : M S (Z * Z) :=
  p <- loop (λ p, c <- chr s p ;; if isspace c then ret (Continue (p + 1)) else ret (Break p)) 0 ;;
  c <- chr s p ;;
  let '(neg, p) := if (c =? 43) || (c =? 45) then (c =? 45, p + 1) else (false, p) in
  c0 <- chr s p ;;
  hex <- (if ((base =? 0) || (base =? 16)) && (c0 =? 48) then
            c1 <- chr s (p + 1) ;;
            if (c1 =? 120) || (c1 =? 88) then
              c2 <- chr s (p + 2) ;; ret (digit_val c2 <? 16)
            else ret false
          else ret false) ;;
  let '(p, base) :=
    if hex : bool then (p + 2, 16)
    else if (base =? 0) && (c0 =? 48) then (p, 8)
    else if base =? 0 then (p, 10)
    else (p, base) in
  let* (acc, p, any) := loop (λ '(acc, p, any),
     c <- chr s p ;;
     let d := digit_val c in
     if base <=? d then ret (Break (acc, p, any))
     else ret (Continue (u64 (acc * u32 base + u32 d), p + 1, true))) (0, p, false) in
  let e := if any : bool then p else 0 in
  if neg then v <- neg_signed LLONG_MAX (s64 acc) ;; ret (u64 v, e) else ret (acc, e).

Definition strtoll {S} (s : bytes) (base : Z) : M S (Z * Z) :=
  let* (v, e) := strtoull s base in ret (s64 v, e).
Definition strtoul {S} (s : bytes) (base : Z) : M S (Z * Z) := strtoull s base.
Definition strtol {S} (s : bytes) (base : Z) : M S (Z * Z) :=
  let* (v, e) := strtoull s base in ret (s64 v, e).
Definition atoi {S} (s : bytes) : M S Z := let* (v, _) := strtol s 10 in ret (s32 v).
Definition atol {S} (s : bytes) : M S Z := let* (v, _) := strtol s 10 in ret v.
Definition atoll {S} (s : bytes) : M S Z := let* (v, _) := strtoll s 10 in ret v.
Definition strtoimax {S} (s : bytes) (base : Z) : M S (Z * Z) :=
  let* (v, e) := strtoull s base in ret (s64 v, e).
Definition strtoumax {S} (s : bytes) (base : Z) : M S (Z * Z) := strtoull s base.

Definition abs {S} (x : Z) : M S Z := if x <? 0 then neg_signed INT_MAX x else ret x.
Definition labs {S} (x : Z) : M S Z := if x <? 0 then neg_signed LLONG_MAX x else ret x.
Definition llabs {S} (x : Z) : M S Z := if x <? 0 then neg_signed LLONG_MAX x else ret x.
Definition imaxabs {S} (j : Z) : M S Z := if j <? 0 then neg_signed LLONG_MAX j else ret j.

(** [{ n / d, n % d }]: truncating division, undefined for a zero divisor and
    for the one quotient that overflows. *)
Definition div_signed {S} (max n d : Z) : M S (Z * Z) :=
  if decide (d = 0 ∨ max < Z.quot n d) then fault else ret (Z.quot n d, Z.rem n d).
Definition div {S} (n d : Z) : M S (Z * Z) := div_signed INT_MAX n d.
Definition ldiv {S} (n d : Z) : M S (Z * Z) := div_signed LLONG_MAX n d.
Definition lldiv {S} (n d : Z) : M S (Z * Z) := div_signed LLONG_MAX n d.

(** [static unsigned long __rand_state] is the state of the monad. *)
Definition srand (seed : Z) : M Z unit := put (u32 seed).
Definition rand : M Z Z :=
  st <- get ;;
  let st := u64 (st * 1103515245 + 12345) in
  put st ;; ret (s32 (Z.land (Z.shiftr st 16) 0x7fffffff)).

(** * Proofs *)

Lemma u64_mul_add a b c : u64 (u64 a * b + c) = u64 (a * b + c).
Proof. unfold u64. by rewrite Zplus_mod, Zmult_mod, Zmod_mod, <- Zmult_mod, <- Zplus_mod. Qed.

Lemma digit_val_range c : 0 ≤ digit_val c ≤ 99.
Proof.
  unfold digit_val. repeat match goal with |- context [if ?b then _ else _] => destruct b eqn:? end; lia.
Qed.

(** The number a digit string denotes. *)
Definition digits_val (base : Z) (ds : bytes) : Z :=
  foldl (λ a c, a * base + digit_val c) 0 ds.

Lemma digits_val_snoc base ds c :
  digits_val base (ds ++ [c]) = digits_val base ds * base + digit_val c.
Proof. unfold digits_val. by rewrite foldl_app. Qed.

(** The digit loop of strtoull: it reads the longest run of digits at [p]. *)
Lemma strtoull_digits {S} (s : bytes) (p base : Z) (st : S) :
  2 ≤ base ≤ 36 → 0 ≤ p ≤ zlen s → zlen s < 18446744073709551616 →
  let ds := take_while (λ c, digit_val c <? base) (dropZ p s) in
  loop (λ '(acc, p, any),
     c <- chr s p ;;
     let d := digit_val c in
     if base <=? d then ret (Break (acc, p, any))
     else ret (Continue (u64 (acc * u32 base + u32 d), p + 1, true))) (0, p, false) st
  = Ret (u64 (digits_val base ds), p + zlen ds, bool_decide (0 < zlen ds)) st.
Proof.
  intros Hbase Hp Hlen ds.
  destruct (take_while_split (λ c, digit_val c <? base) (dropZ p s)) as (rest & E & Hrest).
  fold ds in E.
  assert (zlen (dropZ p s) = zlen s - p) as Hd by (apply zlen_dropZ; lia).
  rewrite E, zlen_app in Hd. pose proof (zlen_nonneg rest). pose proof (zlen_nonneg ds).
  apply (loop_steps _ (λ k, (u64 (digits_val base (takeZ k ds)), p + k, bool_decide (0 < k)))
    (λ _, st) (zlen ds)); [zlen_lia| |done| |].
  - rewrite takeZ_0. unfold digits_val. simpl. peq.
  - intros k Hk. destruct (idx_is_Some ds k) as [c Hc]; [lia|].
    pose proof (idx_Forall _ _ _ _ (take_while_Forall _ (dropZ p s)) Hc) as Hdc. cbn beta in Hdc.
    rewrite (bind_run _ _ _ _ _ (chr_run s (p + k) st ltac:(lia))).
    unfold chrv. rewrite <- idx_dropZ, E, idx_app_l, Hc by lia. cbn [default from_option id].
    cbn zeta. replace (base <=? digit_val c) with false by lia.
    pose proof (digit_val_range c). rewrite !u32_id by lia.
    rewrite (takeZ_snoc _ _ _ Hc), digits_val_snoc, u64_mul_add.
    rewrite (bool_decide_true (0 < k + 1)) by lia. peq.
  - cbn beta iota.
    rewrite (bind_run _ _ _ _ _ (chr_run s (p + zlen ds) st ltac:(zlen_lia))).
    cbn zeta. rewrite takeZ_all by lia.
    replace (base <=? digit_val (chrv s (p + zlen ds))) with true; [done|].
    unfold chrv. rewrite <- idx_dropZ, E by lia. destruct rest as [|c rest].
    + rewrite idx_None by zlen_lia. cbn. lia.
    + rewrite idx_middle. cbn [default from_option id].
      pose proof (Hrest c rest eq_refl). cbn beta in *. lia.
Qed.

(** ** The reference reading of a number *)

Definition skip_sign (r : bytes) : bool * bytes :=
  match r with
  | c :: r' => if c =? 45 then (true, r') else if c =? 43 then (false, r') else (false, r)
  | [] => (false, [])
  end.

(** Does a hexadecimal prefix with a digit behind it stand here? *)
Definition hex_prefix (r : bytes) : bool :=
  match r with
  | z :: x :: d :: _ => (z =? 48) && ((x =? 120) || (x =? 88)) && (digit_val d <? 16)
  | _ => false
  end.

Definition radix (base : Z) (r : bytes) : Z * bytes :=
  if ((base =? 0) || (base =? 16)) && hex_prefix r then (16, dropZ 2 r)
  else if base =? 0 then (if hd 0 r =? 48 then 8 else 10, r)
  else (base, r).

(** [(neg, v, used)]: the sign, the value of the digits, the characters used. *)
Definition number_at (s : bytes) (base : Z) : bool * Z * Z :=
  let '(neg, r) := skip_sign (dropZ (zlen (take_while isspace s)) s) in
  let '(b, r) := radix base r in
  let ds := take_while (λ c, digit_val c <? b) r in
  (neg, digits_val b ds, if 0 <? zlen ds then zlen s - zlen r + zlen ds else 0).

Lemma skip_sign_at s p : 0 ≤ p ≤ zlen s →
  ∃ neg p', (if (chrv s p =? 43) || (chrv s p =? 45) then (chrv s p =? 45, p + 1) else (false, p))
             = (neg, p') ∧
            skip_sign (dropZ p s) = (neg, dropZ p' s) ∧ p ≤ p' ≤ zlen s.
Proof.
  intros Hp. destruct (decide (chrv s p = 0)) as [E|E].
  - exists false, p. rewrite E. repeat split; try lia. rewrite chrv_hd in E by lia.
    destruct (dropZ p s) as [|c r]; [done|]. simpl in *. by subst c.
  - destruct (chrv_nz_lt s p Hp E) as [Hlt Hi]. rewrite (dropZ_cons _ _ _ Hi).
    unfold skip_sign. destruct (Z.eqb_spec (chrv s p) 45) as [->|].
    + exists true, (p + 1). repeat split; lia.
    + destruct (Z.eqb_spec (chrv s p) 43).
      * exists false, (p + 1). repeat split; lia.
      * exists false, p. rewrite (dropZ_cons _ _ _ Hi). repeat split; lia.
Qed.

Lemma hex_prefix_run {S} s p (st : S) : 0 ≤ p ≤ zlen s →
  (if chrv s p =? 48 then
     c1 <- chr s (p + 1) ;;
     if (c1 =? 120) || (c1 =? 88) then
       c2 <- chr s (p + 2) ;; ret (digit_val c2 <? 16)
     else ret false
   else ret false) st = Ret (hex_prefix (dropZ p s)) st.
Proof.
  intros Hp. destruct (Z.eqb_spec (chrv s p) 48) as [E|E].
  - destruct (chrv_nz_lt s p Hp ltac:(lia)) as [Hlt Hi]. rewrite (dropZ_cons _ _ _ Hi), E.
    rewrite (bind_run _ _ _ _ _ (chr_run s (p + 1) st ltac:(lia))).
    destruct (decide (chrv s (p + 1) = 0)) as [E1|E1].
    + rewrite E1. rewrite chrv_hd in E1 by lia. simpl.
      destruct (dropZ (p + 1) s) as [|c r]; [done|]. simpl in E1. subst c. by destruct r.
    + destruct (chrv_nz_lt s (p + 1) ltac:(lia) E1) as [Hlt1 Hi1].
      rewrite (dropZ_cons _ _ _ Hi1). replace (p + 1 + 1) with (p + 2) by lia.
      cbn [hex_prefix].
      destruct ((chrv s (p + 1) =? 120) || (chrv s (p + 1) =? 88)) eqn:Ex.
      * rewrite (bind_run _ _ _ _ _ (chr_run s (p + 2) st ltac:(lia))).
        rewrite chrv_hd by lia. destruct (dropZ (p + 2) s); done.
      * by destruct (dropZ (p + 2) s).
  - rewrite chrv_hd in E by lia. destruct (dropZ p s) as [|c [|x [|d r]]]; try done. simpl in *.
    by replace (c =? 48) with false by lia.
Qed.

Lemma radix_at base s p : 0 ≤ p ≤ zlen s → base = 0 ∨ 2 ≤ base ≤ 36 →
  ∃ b p', (if ((base =? 0) || (base =? 16)) && hex_prefix (dropZ p s) then (p + 2, 16)
           else if (base =? 0) && (chrv s p =? 48) then (p, 8)
           else if base =? 0 then (p, 10) else (p, base)) = (p', b) ∧
          radix base (dropZ p s) = (b, dropZ p' s) ∧ 0 ≤ p' ≤ zlen s ∧ 2 ≤ b ≤ 36.
Proof.
  intros Hp Hb. unfold radix. rewrite chrv_hd by lia.
  destruct (((base =? 0) || (base =? 16)) && hex_prefix (dropZ p s)) eqn:E.
  - assert (hex_prefix (dropZ p s) = true) as Hh by (by destruct ((base =? 0) || (base =? 16))).
    exists 16, (p + 2). rewrite dropZ_dropZ by lia. repeat split; try lia.
    pose proof (zlen_dropZ p s ltac:(lia)) as Hd.
    destruct (dropZ p s) as [|a [|b [|c r]]]; try done. zlen_lia.
  - destruct (Z.eqb_spec base 0) as [->|Hb0]; simpl.
    + destruct (hd 0 (dropZ p s) =? 48); [exists 8, p|exists 10, p]; repeat split; lia.
    + exists base, p. repeat split; lia.
Qed.

(** strtoull on every string, in every base it supports. *)
Lemma strtoull_run {S} (s : bytes) (base : Z) (st : S) :
  base = 0 ∨ 2 ≤ base ≤ 36 → zlen s < 18446744073709551616 →
  strtoull s base st =
    let '(neg, v, used) := number_at s base in
    if neg && (u64 v =? 9223372036854775808) then Fault
    else Ret (u64 (if neg then - v else v), used) st.
Proof.
  intros Hb Hlen. unfold strtoull, number_at. pose proof (zlen_nonneg s).
  rewrite (bind_run _ _ _ _ _ (scan_run isspace s 0 st eq_refl ltac:(lia) ltac:(lia))).
  rewrite dropZ_0, Z.add_0_l. pose proof (zlen_take_while_le isspace s).
  pose proof (zlen_nonneg (take_while isspace s)).
  set (p1 := zlen (take_while isspace s)) in *.
  rewrite (bind_run _ _ _ _ _ (chr_run s p1 st ltac:(lia))).
  destruct (skip_sign_at s p1 ltac:(lia)) as (neg & p2 & -> & -> & Hp2). cbn beta iota.
  rewrite (bind_run _ _ _ _ _ (chr_run s p2 st ltac:(lia))).
  rewrite (bind_run _ _ (((base =? 0) || (base =? 16)) && hex_prefix (dropZ p2 s)) st st).
  2:{ destruct ((base =? 0) || (base =? 16)); [|done]. rewrite !andb_true_l.
      by apply hex_prefix_run; lia. }
  cbn beta. destruct (radix_at base s p2 ltac:(lia) Hb) as (b & p3 & -> & -> & Hp3 & Hb3).
  cbn beta iota.
  rewrite (bind_run _ _ _ _ _ (strtoull_digits s p3 b st Hb3 Hp3 Hlen)). cbn beta iota zeta.
  set (ds := take_while _ (dropZ p3 s)). set (v := digits_val b ds).
  assert ((if bool_decide (0 < zlen ds) then p3 + zlen ds else 0) =
    (if 0 <? zlen ds then zlen s - zlen (dropZ p3 s) + zlen ds else 0)) as ->.
  { rewrite zlen_dropZ by lia. case_bool_decide; destruct (Z.ltb_spec 0 (zlen ds)); lia. }
  destruct neg; [|done]. rewrite andb_true_l.
  unfold neg_signed, LLONG_MAX. case_decide as Ed; destruct (Z.eqb_spec (u64 v) 9223372036854775808) as [E|E].
  - exfalso. rewrite E in Ed. unfold s64 in Ed. lia.
  - rewrite bind_ret. unfold ret. do 2 f_equal. unfold u64, s64 in *. lia.
  - done.
  - exfalso. unfold u64, s64 in *. lia.
Qed.

(** C25: strtoull, on every string and in every base it supports, terminates,
    reads nothing beyond the terminator, and yields the value of the longest
    digit run after white space, sign and radix prefix, reduced modulo 2^64
    (its negation when there is a minus sign), with the end offset just behind
    the digits, or at the start when there are none.  The one input class with
    undefined behaviour is a negated 2^63. *)
Theorem strtoull_correct {S} (s : bytes) (base : Z) (st : S)
  (Hb : base = 0 ∨ 2 ≤ base ≤ 36) (Hlen : zlen s < 18446744073709551616) :
  strtoull s base st =
    let '(neg, v, used) := number_at s base in
    if neg && (u64 v =? 9223372036854775808) then Fault
    else Ret (u64 (if neg then - v else v), used) st.
Proof. by apply strtoull_run. Qed.

(** [" -0x1F;"] in base 0: -31, 6 characters used. *)
Lemma strtoull_correct_witness :
  number_at [32; 45; 48; 120; 49; 70; 59] 0 = (true, 31, 6) ∧
  strtoull [32; 45; 48; 120; 49; 70; 59] 0 tt = Ret (18446744073709551585, 6) tt.
Proof.
  split; [reflexivity|].
  apply (strtoull_correct [32; 45; 48; 120; 49; 70; 59] 0 tt); [lia|reflexivity].
Defined.
