(* ===== verification/CSort.v ===== *)
(** qsort and bsearch: src/lib/racccoon-libc/src/stdlib.c.

    Both run on the byte memory; the comparison callback is a computation on
    two addresses, as in C.  [sorts_with] ties the callback to an order [c] on
    element contents, and [order] states the two laws the C standard asks of
    it.  The memory of a run is always [st es]: the initial memory with the
    array's elements replaced by [es], so the theorems give the exact final
    memory and nothing outside the array is touched. *)
From Stdlib Require Import Sorted.
From S2P Require Import Prelude CMonad CMemory.

Definition cmp_fn : Type := Z → Z → M mem Z.

(** [while (n--) { char t = *a; *a++ = *b; *b++ = t; }] *)
Definition swp (a b n : Z) : M mem unit :=
  loop (λ '(a, b, n),
    if n =? 0 then ret (Break tt)
    else t <- load8 a ;; x <- load8 b ;; store8 a x ;; store8 b t ;;
         ret (Continue (a + 1, b + 1, n - 1))) (a, b, n).

(** [b + j * size] *)
Definition elt (b j size : Z) : Z := b + u64 (j * size).

(** The insertion sort of short runs. *)
Definition qsort_short (b n size : Z) (cmp : cmp_fn) : M mem unit :=
  loop (λ i,
    if i <? n then
      loop (λ j,
        if 0 <? j then
          r <- cmp (elt b j size) (elt b (j - 1) size) ;;
          if r <? 0 then swp (elt b j size) (elt b (j - 1) size) size ;; ret (Continue (j - 1))
          else ret (Break tt)
        else ret (Break tt)) i ;;
      ret (Continue (i + 1))
    else ret (Break tt)) 1.

(** [if (cmp(i, j) < 0) swp(i, j, size);] *)
Definition cmp_swap (i j size : Z) (cmp : cmp_fn) : M mem unit :=
  r <- cmp i j ;; if r <? 0 then swp i j size else ret tt.

(** Median of three; the pivot ends up at [hi - size]. *)
Definition qsort_median (lo mid hi size : Z) (cmp : cmp_fn) : M mem unit :=
  cmp_swap mid lo size cmp ;;
  r <- cmp hi mid ;;
  (if r <? 0 then swp hi mid size ;; cmp_swap mid lo size cmp else ret tt) ;;
  swp mid (hi - size) size.

(** The two scans and the swaps between them; the final [i]. *)
Definition qsort_partition (lo hi size : Z) (cmp : cmp_fn) : M mem Z :=
  let pivot := hi - size in
  i <- loop (λ '(i, j),
    i <- loop (λ i, let i := i + size in
      r <- cmp i pivot ;; if r <? 0 then ret (Continue i) else ret (Break i)) i ;;
    j <- loop (λ j, let j := j - size in
      r <- cmp pivot j ;; if r <? 0 then ret (Continue j) else ret (Break j)) j ;;
    if j <=? i then ret (Break i)
    else swp i j size ;; ret (Continue (i, j))) (lo, hi - size) ;;
  swp i (hi - size) size ;; ret i.

Fixpoint qsort_rec (fuel : nat) (b n size : Z) (cmp : cmp_fn) : M mem unit :=
  match fuel with
  | O => diverge
  | S fuel =>
      if n <? 2 then ret tt
      else if n <=? 12 then qsort_short b n size cmp
      else
        let lo := b in
        let hi := elt b (n - 1) size in
        let mid := elt b (n / 2) size in
        qsort_median lo mid hi size cmp ;;
        i <- qsort_partition lo hi size cmp ;;
        if size =? 0 then fault
        else
          let left := (i - lo) / size in
          qsort_rec fuel lo left size cmp ;;
          qsort_rec fuel (i + size) (n - left - 1) size cmp
  end.

(** Every recursive call is on fewer elements, so [n + 1] levels are enough. *)
Definition qsort (base n size : Z) (cmp : cmp_fn) : M mem unit :=
  qsort_rec (Z.to_nat n + 1) base n size cmp.

Definition bsearch (key base n size : Z) (cmp : cmp_fn) : M mem Z :=
  loop (λ '(lo, hi),
    if lo <? hi then
      let m := lo + (hi - lo) / 2 in
      r <- cmp key (elt base m size) ;;
      if r =? 0 then ret (Break (elt base m size))
      else if r <? 0 then ret (Continue (lo, m)) else ret (Continue (m + 1, hi))
    else ret (Break 0)) (0, n).

(** * Orders and rearrangements *)

(** What the C standard asks of a comparison function. *)
Class Order (c : bytes → bytes → Z) := {
  order_anti : ∀ x y, c x y < 0 ↔ 0 < c y x;
  order_trans : ∀ x y z, c x y ≤ 0 → c y z ≤ 0 → c x z ≤ 0;
}.

Lemma order_refl c `{Order c} x : c x x = 0.
Proof. pose proof (order_anti x x). lia. Qed.

Lemma order_flip c `{Order c} x y : c x y ≤ 0 ↔ 0 ≤ c y x.
Proof. pose proof (order_anti y x). lia. Qed.

Section rearrange.
Context {A : Type}.
Implicit Types (es : list A).

(** [es'] rearranges the indices [lo, hi) of [es] and nothing else. *)
Definition perm_in (lo hi : Z) es es' : Prop :=
  zlen es' = zlen es ∧ ∃ f : Z → Z, Inj (=) (=) f ∧ (∀ i, i < lo ∨ hi ≤ i → f i = i) ∧ ∀ i, idx es' i = idx es (f i).

Definition swapZ (i j : Z) es : list A :=
  match idx es i, idx es j with
  | Some x, Some y => <[Z.to_nat i := y]> (<[Z.to_nat j := x]> es)
  | _, _ => es
  end.

Lemma idx_insert es i j x : 0 ≤ i < zlen es →
  idx (<[Z.to_nat i := x]> es) j = if decide (j = i) then Some x else idx es j.
Proof.
  intros Hi. unfold idx, zlen in *. destruct (decide (j < 0)).
  - by rewrite decide_False by lia.
  - case_decide.
    + subst. apply list_lookup_insert_eq. lia.
    + apply list_lookup_insert_ne. lia.
Qed.

Lemma zlen_insert es i x : zlen (<[i := x]> es) = zlen es.
Proof. unfold zlen. by rewrite length_insert. Qed.

Lemma idx_swapZ es i j k : 0 ≤ i < zlen es → 0 ≤ j < zlen es →
  idx (swapZ i j es) k = idx es (if decide (k = i) then j else if decide (k = j) then i else k).
Proof.
  intros Hi Hj. unfold swapZ. destruct (idx_is_Some es i Hi) as [x Hx].
  destruct (idx_is_Some es j Hj) as [y Hy]. rewrite Hx, Hy.
  rewrite idx_insert by (rewrite zlen_insert; lia). case_decide; [congruence|].
  rewrite idx_insert by lia. case_decide; [congruence|done].
Qed.

Lemma zlen_swapZ es i j : zlen (swapZ i j es) = zlen es.
Proof. unfold swapZ. destruct (idx es i), (idx es j); rewrite ?zlen_insert; done. Qed.

Lemma perm_in_refl lo hi es : perm_in lo hi es es.
Proof. split; [done|]. exists id. split_and!; [apply _|done..]. Qed.

Lemma perm_in_trans lo hi es1 es2 es3 :
  perm_in lo hi es1 es2 → perm_in lo hi es2 es3 → perm_in lo hi es1 es3.
Proof.
  intros (L12 & f & Hf & Hfo & H12) (L23 & g & Hg & Hgo & H23). split; [lia|]. exists (λ i, f (g i)). split_and!.
  - intros x y E. by apply Hg, Hf.
  - intros i Hi. by rewrite Hgo, Hfo.
  - intros i. by rewrite H23, H12.
Qed.

Lemma perm_in_mono lo hi lo' hi' es es' :
  perm_in lo hi es es' → lo' ≤ lo → hi ≤ hi' → perm_in lo' hi' es es'.
Proof. intros (HL & f & Hf & Ho & H) ? ?. split; [done|]. exists f. split_and!; [done| |done]. intros i Hi. apply Ho. lia. Qed.

Lemma perm_in_swap lo hi es i j :
  0 ≤ lo → hi ≤ zlen es → lo ≤ i < hi → lo ≤ j < hi → perm_in lo hi es (swapZ i j es).
Proof.
  intros ? ? Hi Hj. split; [apply zlen_swapZ|]. exists (λ k, if decide (k = i) then j else if decide (k = j) then i else k).
  split_and!.
  - intros x y. repeat case_decide; congruence || lia.
  - intros k Hk. rewrite !decide_False by lia. done.
  - intros k. apply idx_swapZ; lia.
Qed.

Lemma perm_in_outside lo hi es es' i : perm_in lo hi es es' → i < lo ∨ hi ≤ i → idx es' i = idx es i.
Proof. intros (_ & f & _ & Ho & H) Hi. by rewrite H, Ho. Qed.

Lemma perm_in_inside lo hi es es' i : perm_in lo hi es es' → lo ≤ i < hi →
  ∃ k, lo ≤ k < hi ∧ idx es' i = idx es k.
Proof.
  intros (_ & f & Hf & Ho & H) Hi. exists (f i). split; [|apply H].
  destruct (decide (lo ≤ f i < hi)); [done|exfalso].
  assert (f (f i) = f i) as E by (apply Ho; lia). apply Hf in E. lia.
Qed.

Lemma perm_in_perm lo hi es es' : 0 ≤ lo → perm_in lo hi es es' → es ≡ₚ es'.
Proof.
  intros Hlo (HL & f & Hf & Ho & H). symmetry.
  assert (∀ i, 0 ≤ i → 0 ≤ f i) as Hpos.
  { intros i Hi. destruct (decide (0 ≤ f i)); [done|].
    assert (f (f i) = f i) as E%Hf by (apply Ho; lia). lia. }
  assert (∀ i : nat, es' !! i = es !! Z.to_nat (f (Z.of_nat i))) as Hl.
  { intros i. specialize (H (Z.of_nat i)). specialize (Hpos (Z.of_nat i) ltac:(lia)).
    rewrite idx_of_nat in H. rewrite H. unfold idx. by rewrite decide_False by lia. }
  assert (Inj (=) (=) (λ i : nat, Z.to_nat (f (Z.of_nat i)))) as Hinj.
  { intros i j E. pose proof (Hpos (Z.of_nat i)). pose proof (Hpos (Z.of_nat j)).
    apply Nat2Z.inj, Hf. lia. }
  apply Permutation_inj. split.
  - unfold zlen in HL. lia.
  - by exists (λ i, Z.to_nat (f (Z.of_nat i))).
Qed.
End rearrange.

(** * The array in memory *)

(** The callback computes [c] on any two objects of [size] bytes. *)
Definition computes (size : Z) (c : bytes → bytes → Z) (cmp : cmp_fn) : Prop :=
  ∀ m p q x y, bytes_at m p x → bytes_at m q y → zlen x = size → zlen y = size →
    cmp p q m = Ret (c x y) m.

Lemma swp_run m a b x y :
  bytes_at m a x → bytes_at m b y → zlen x = zlen y → is_bytes x → is_bytes y →
  a = b ∨ a + zlen x ≤ b ∨ b + zlen x ≤ a → zlen x < 18446744073709551616 →
  swp a b (zlen x) m = Ret tt (mwrite a y (mwrite b x m)).
Proof.
  intros Hx Hy Hl Hbx Hby Hd Hn. unfold swp.
  apply (loop_steps _ (λ k, (a + k, b + k, zlen x - k))
    (λ k, mwrite a (takeZ k y) (mwrite b (takeZ k x) m)) (zlen x)); [zlen_lia|peq| | |].
  - by rewrite !takeZ_0.
  - intros k Hk. replace (zlen x - k =? 0) with false by lia.
    destruct (idx_is_Some x k) as [u Hu]; [lia|]. destruct (idx_is_Some y k) as [v Hv]; [lia|].
    assert (a = b → u = v) as Hab.
    { intros ->. apply Hx in Hu. apply Hy in Hv. congruence. }
    set (mk := mwrite a (takeZ k y) (mwrite b (takeZ k x) m)).
    assert (∀ p w, p = a + k ∨ p = b + k → m !! p = Some w → mk !! p = Some w) as Hmk.
    { intros p w Hp Hw. unfold mk. rewrite !mwrite_disjoint_lookup; rewrite ?zlen_takeZ; lia || done. }
    rewrite (bind_run _ _ _ _ _ (load8_run mk (a + k) u (Hmk _ _ (or_introl eq_refl) (Hx _ _ Hu)))).
    rewrite (bind_run _ _ _ _ _ (load8_run mk (b + k) v (Hmk _ _ (or_intror eq_refl) (Hy _ _ Hv)))).
    pose proof (idx_is_byte _ _ _ Hbx Hu). pose proof (idx_is_byte _ _ _ Hby Hv).
    rewrite (bind_run _ _ _ _ _ (store8_run mk (a + k) v ltac:(eexists; apply (Hmk _ u); auto))).
    rewrite !u8_id by done.
    rewrite (bind_run _ _ tt _ (<[b + k := u]> (<[a + k := v]> mk))).
    2:{ rewrite store8_run, u8_id by (done || (destruct (decide (b + k = a + k)) as [->|];
          [rewrite lookup_insert_eq|rewrite lookup_insert_ne by done; rewrite (Hmk _ v) by auto]; eauto)).
        done. }
    rewrite (takeZ_snoc _ _ _ Hu), (takeZ_snoc _ _ _ Hv). unfold ret. do 2 f_equal; [peq|].
    rewrite !mwrite_snoc, !zlen_takeZ by lia. unfold mk.
    apply mem_eq. intros p. destruct (decide (p = b + k)) as [->|Hpb].
    + rewrite lookup_insert_eq. destruct (decide (a = b)) as [->|].
      * rewrite lookup_insert_eq. by rewrite Hab.
      * rewrite lookup_insert_ne by lia.
        rewrite mwrite_disjoint_lookup by (rewrite zlen_takeZ; lia). by rewrite lookup_insert_eq.
    + rewrite lookup_insert_ne by done. destruct (decide (p = a + k)) as [->|Hpa].
      * by rewrite !lookup_insert_eq.
      * rewrite !lookup_insert_ne by done. rewrite !mwrite_lookup.
        rewrite lookup_insert_ne by done. by rewrite mwrite_lookup.
  - rewrite Z.sub_diag. cbn. by rewrite !takeZ_all by lia.
Qed.

(** Elements of [size] bytes each. *)
Definition elts (size : Z) (es : list bytes) : Prop := Forall (λ e, zlen e = size ∧ is_bytes e) es.

Lemma elts_idx size es i x : elts size es → idx es i = Some x → zlen x = size ∧ is_bytes x.
Proof. intros H Hi. exact (idx_Forall _ _ _ _ H Hi). Qed.

Lemma zlen_concat size es : elts size es → zlen (concat es) = zlen es * size.
Proof. induction 1 as [|x es [? _] _ IH]; [done|]. simpl. rewrite zlen_app, zlen_cons. lia. Qed.

Lemma idx_concat size es k : 0 < size → elts size es → 0 ≤ k →
  idx (concat es) k = match idx es (k / size) with Some e => idx e (k mod size) | None => None end.
Proof.
  intros Hs H. revert k. induction H as [|x es [Hx _] _ IH]; intros k Hk; simpl.
  - by rewrite !idx_None by (zlen_lia || lia).
  - destruct (decide (k < size)).
    + rewrite idx_app_l by lia. rewrite Z.div_small, Z.mod_small by lia. done.
    + rewrite idx_app_r, IH by lia. rewrite Hx.
      replace (k - size) with (k + (-1) * size) by lia.
      rewrite Z.div_add, Z.mod_add by lia. rewrite (idx_cons_S x).
      * done.
      * pose proof (Z.div_le_mono size k size). rewrite Z.div_same in * by lia. lia.
Qed.

Lemma perm_in_elts size lo hi es es' : elts size es → perm_in lo hi es es' → elts size es'.
Proof.
  intros H (HL & f & _ & _ & Hf). apply Forall_lookup. intros i x Hx.
  rewrite <- idx_of_nat, Hf in Hx. exact (elts_idx _ _ _ _ H Hx).
Qed.

Section array.
Context (m0 : mem) (base size N : Z) (c : bytes → bytes → Z) (cmp : cmp_fn).
Context `{!Order c} (Hcmp : computes size c cmp).
Context (Hsize : 0 < size) (Hbound : N * size < 18446744073709551616).
Implicit Types (es : list bytes) (i j k : Z).

Definition st es : mem := mwrite base (concat es) m0.
Definition at_ i : Z := base + i * size.
Definition arr es : Prop := elts size es ∧ zlen es = N.

Lemma st_lookup es a : arr es →
  st es !! a = match (if a <? base then None else idx es ((a - base) / size)) with
               | Some e => match idx e ((a - base) mod size) with Some b => Some b | None => m0 !! a end
               | None => m0 !! a end.
Proof using Hsize.
  intros [He _]. unfold st. rewrite mwrite_lookup. destruct (Z.ltb_spec a base).
  - by rewrite idx_None by lia.
  - rewrite (idx_concat size) by (done || lia). by destruct (idx es _).
Qed.

Lemma elt_div i k : 0 ≤ k < size → (i * size + k) / size = i.
Proof using Hsize. intros. rewrite Z.div_add_l by lia. rewrite Z.div_small by lia. lia. Qed.

Lemma elt_mod i k : 0 ≤ k < size → (i * size + k) mod size = k.
Proof using Hsize. intros. rewrite Z.add_comm, Z.mod_add by lia. by apply Z.mod_small. Qed.

Lemma elt_at es i x : arr es → idx es i = Some x → bytes_at (st es) (at_ i) x.
Proof using Hsize.
  intros Ha Hi k b Hk. pose proof (idx_Some_range _ _ _ Hi). pose proof (idx_Some_range _ _ _ Hk).
  destruct (elts_idx _ _ _ _ (proj1 Ha) Hi) as [Hx _].
  rewrite st_lookup by done. unfold at_.
  replace (base + i * size + k <? base) with false by nia.
  replace (base + i * size + k - base) with (i * size + k) by lia.
  rewrite elt_div, elt_mod by lia. by rewrite Hi, Hk.
Qed.

Lemma size_lt es i : arr es → 0 ≤ i < zlen es → size < 18446744073709551616.
Proof using Hbound Hsize. intros [_ ?] ?. nia. Qed.

Lemma elt_run b i j : 0 ≤ j → j ≤ N → b = at_ i → elt b j size = at_ (i + j).
Proof using Hbound Hsize. intros ? ? ->. unfold elt, at_. rewrite u64_id by nia. lia. Qed.

Lemma cmp_run es i j x y : arr es → idx es i = Some x → idx es j = Some y →
  cmp (at_ i) (at_ j) (st es) = Ret (c x y) (st es).
Proof using Hcmp Hsize.
  intros Ha Hi Hj. apply Hcmp; try by apply elt_at.
  - by apply (elts_idx _ _ _ _ (proj1 Ha) Hi).
  - by apply (elts_idx _ _ _ _ (proj1 Ha) Hj).
Qed.

Lemma swap_run es i j : arr es → 0 ≤ i < N → 0 ≤ j < N →
  swp (at_ i) (at_ j) size (st es) = Ret tt (st (swapZ i j es)).
Proof using Hsize Hbound.
  intros Ha Hi Hj. pose proof (proj2 Ha) as HN.
  destruct (idx_is_Some es i) as [x Hx]; [lia|]. destruct (idx_is_Some es j) as [y Hy]; [lia|].
  destruct (elts_idx _ _ _ _ (proj1 Ha) Hx) as [Lx Bx]. destruct (elts_idx _ _ _ _ (proj1 Ha) Hy) as [Ly By].
  pose proof (size_lt es i Ha ltac:(lia)).
  pose proof (swp_run (st es) (at_ i) (at_ j) x y) as E. rewrite Lx in E.
  rewrite E; clear E; try done || lia.
  2:{ by apply elt_at. } 2:{ by apply elt_at. }
  2:{ unfold at_. destruct (Z.lt_trichotomy i j) as [|[->|]]; [|by left|]; right; nia. }
  f_equal. apply mem_eq. intros a.
  assert (arr (swapZ i j es)) as Ha'.
  { split; [|by rewrite zlen_swapZ]. eapply perm_in_elts; [exact (proj1 Ha)|].
    apply (perm_in_swap 0 N); lia. }
  rewrite !mwrite_lookup, !st_lookup by done. unfold at_.
  destruct (Z.ltb_spec a base).
  { rewrite !idx_None by nia. done. }
  set (q := (a - base) / size). set (k := (a - base) mod size).
  assert (0 ≤ k < size) by (apply Z.mod_pos_bound; lia).
  assert (a - base = size * q + k) by (apply Z.div_mod; lia).
  rewrite idx_swapZ by lia.
  assert (∀ l (e : bytes), zlen e = size → idx e (a - (base + l * size)) = if decide (q = l) then idx e k else None) as Hl.
  { intros l e He. case_decide; [subst l; f_equal; lia|]. apply idx_None. nia. }
  rewrite (Hl i), (Hl j) by lia.
  destruct (decide (q = i)) as [->|]; [rewrite Hx, Hy|destruct (decide (q = j)) as [->|]].
  - destruct (idx_is_Some y k) as [b ->]; [lia|]. done.
  - rewrite Hx. destruct (idx_is_Some x k) as [b ->]; [lia|]. done.
  - done.
Qed.

Lemma arr_perm lo hi es es' : arr es → perm_in lo hi es es' → arr es'.
Proof. intros [? ?] Hp. split; [by eapply perm_in_elts|]. destruct Hp. lia. Qed.

(** Contents of the element at index [i]. *)
Definition g es i : bytes := default [] (idx es i).
(** [es[i] <= es[j]] *)
Definition le es i j : Prop := c (g es i) (g es j) ≤ 0.
Definition sorted_in lo hi es : Prop := ∀ i j, lo ≤ i → i ≤ j → j < hi → le es i j.

Lemma g_swap es i j k : arr es → 0 ≤ i < N → 0 ≤ j < N →
  g (swapZ i j es) k = g es (if decide (k = i) then j else if decide (k = j) then i else k).
Proof using. intros [_ ?] ? ?. unfold g. rewrite idx_swapZ by lia. done. Qed.

Lemma le_refl es i : le es i i.
Proof using Order0. unfold le. rewrite order_refl by done. lia. Qed.

Lemma le_trans es i j k : le es i j → le es j k → le es i k.
Proof using Order0. apply order_trans. Qed.

Lemma cmpg es i j : arr es → 0 ≤ i < N → 0 ≤ j < N →
  cmp (at_ i) (at_ j) (st es) = Ret (c (g es i) (g es j)) (st es).
Proof using Hcmp Hsize.
  intros Ha Hi Hj. pose proof (proj2 Ha).
  destruct (idx_is_Some es i) as [x Hx]; [lia|]. destruct (idx_is_Some es j) as [y Hy]; [lia|].
  unfold g. rewrite Hx, Hy. by apply cmp_run.
Qed.

(** What the callback's negative answer says of the order, and its converse. *)
Lemma cmp_neg es i j : c (g es i) (g es j) < 0 → le es i j.
Proof using. unfold le. lia. Qed.
Lemma cmp_nonneg es i j : ¬ c (g es i) (g es j) < 0 → le es j i.
Proof using Order0. unfold le. rewrite order_flip by done. lia. Qed.

Lemma arr_swap es i j : arr es → 0 ≤ i < N → 0 ≤ j < N → arr (swapZ i j es).
Proof using.
  intros Ha ? ?. apply (arr_perm 0 N es); [done|]. destruct Ha.
  apply perm_in_swap; lia.
Qed.

(** A step from one state of the array to another, inside [lo, hi). *)
Definition within lo hi es (Q : list bytes → Prop) (m : mem) : Prop :=
  ∃ es', m = st es' ∧ arr es' ∧ perm_in lo hi es es' ∧ Q es'.

Lemma within_intro lo hi es (Q : list bytes → Prop) es' :
  arr es' → perm_in lo hi es es' → Q es' → within lo hi es Q (st es').
Proof using. intros. by exists es'. Qed.

Lemma wp_swap lo hi es i j (Q : unit → mem → Prop) :
  arr es → 0 ≤ lo → hi ≤ N → lo ≤ i < hi → lo ≤ j < hi →
  (arr (swapZ i j es) → perm_in lo hi es (swapZ i j es) → Q tt (st (swapZ i j es))) →
  wp (swp (at_ i) (at_ j) size) Q (st es).
Proof using Hsize Hbound.
  intros Ha ? ? ? ? HQ. eapply wp_of_eq; [apply swap_run; done || lia|].
  apply HQ; [apply arr_swap; done || lia|]. destruct Ha. apply perm_in_swap; lia.
Qed.

(** ** Short runs: insertion *)

(** Sorted up to [i], but for the element on its way down, now at [j]. *)
Definition inserting lo i j es : Prop := ∀ p q, lo ≤ p → p ≤ q → q ≤ i → q ≠ j → le es p q.

Lemma insert_run lo i es :
  arr es → 0 ≤ lo → 0 < i → lo + i < N → sorted_in lo (lo + i) es →
  wp (loop (λ j,
        if 0 <? j then
          r <- cmp (elt (at_ lo) j size) (elt (at_ lo) (j - 1) size) ;;
          if r <? 0 then swp (elt (at_ lo) j size) (elt (at_ lo) (j - 1) size) size ;; ret (Continue (j - 1))
          else ret (Break tt)
        else ret (Break tt)) i)
    (λ _, within lo (lo + i + 1) es (sorted_in lo (lo + i + 1))) (st es).
Proof using All.
  intros Ha Hlo Hi HN Hs.
  apply (wp_loop _ (λ j, within lo (lo + i + 1) es (λ es', 0 ≤ j ≤ i ∧ inserting lo (lo + i) (lo + j) es'))
    (λ j _, j)); [| | |nia].
  - intros j m (es' & _ & _ & _ & ? & _). lia.
  - intros j m (es' & -> & Ha' & Hp & Hj & Hins). destruct (Z.ltb_spec 0 j).
    + rewrite !(elt_run _ lo) by (done || lia). apply wp_bind. wp_eq cmpg; [done|lia..|].
      destruct (Z.ltb_spec (c (g es' (lo + j)) (g es' (lo + (j - 1)))) 0) as [Hc|Hc].
      * apply wp_bind. apply (wp_swap lo (lo + i + 1)); try done || lia. intros Ha2 Hp2.
        apply wp_ret. split; [|lia]. apply within_intro; [done|by eapply perm_in_trans|].
        split; [lia|]. intros p q ? ? ? ?. apply cmp_neg in Hc. unfold le.
        rewrite !(g_swap es') by (done || lia).
        repeat case_decide; subst; try lia; try (exact Hc); try apply le_refl; apply Hins; lia.
      * apply wp_ret. apply within_intro; [done..|]. intros p q ? ? ?.
        destruct (decide (q = lo + j)) as [->|]; [|apply Hins; lia].
        destruct (decide (p = lo + j)) as [->|]; [apply le_refl|].
        apply (le_trans _ _ (lo + (j - 1))); [apply Hins; lia|apply cmp_nonneg; lia].
    + apply wp_ret. apply within_intro; [done..|]. intros p q ? ? ?.
      destruct (decide (q = lo + j)) as [->|]; [|apply Hins; lia].
      replace p with (lo + j) by lia. apply le_refl.
  - apply within_intro; [done|apply perm_in_refl|]. split; [lia|].
    intros p q ? ? ? ?. apply Hs; lia.
Qed.

Lemma qsort_short_run lo n es :
  arr es → 0 ≤ lo → 2 ≤ n → lo + n ≤ N →
  wp (qsort_short (at_ lo) n size cmp) (λ _, within lo (lo + n) es (sorted_in lo (lo + n))) (st es).
Proof using All.
  intros Ha Hlo Hn HN. unfold qsort_short.
  apply (wp_loop _ (λ i, within lo (lo + n) es (λ es', 1 ≤ i ≤ n ∧ sorted_in lo (lo + i) es'))
    (λ i _, n - i)); [| | |nia].
  - intros i m (es' & _ & _ & _ & ? & _). lia.
  - intros i m (es' & -> & Ha' & Hp & Hi & Hs). destruct (Z.ltb_spec i n).
    + apply wp_bind. wp_use (insert_run lo i es'); [done|lia..|done|].
      intros _ m (es2 & -> & Ha2 & Hp2 & Hs2). apply wp_ret. split; [|lia].
      apply within_intro; [done| |].
      * eapply perm_in_trans; [done|]. eapply perm_in_mono; [done|lia..].
      * split; [lia|]. by replace (lo + (i + 1)) with (lo + i + 1) by lia.
    + apply wp_ret. apply within_intro; [done..|]. by replace (lo + n) with (lo + i) by lia.
  - apply within_intro; [done|apply perm_in_refl|]. split; [lia|].
    intros p q ? ? ?. replace p with q by lia. apply le_refl.
Qed.

(** ** Long runs: median of three, partition *)

(** [if (cmp(i, j) < 0) swp(i, j, size);] puts the smaller one at [j]. *)
Lemma cmp_swap_run lo hi es i j :
  arr es → 0 ≤ lo → hi ≤ N → lo ≤ i < hi → lo ≤ j < hi →
  wp (cmp_swap (at_ i) (at_ j) size cmp)
    (λ _, within lo hi es (λ es', le es' j i ∧
       ((es' = es ∧ le es j i) ∨ (es' = swapZ i j es ∧ le es i j)))) (st es).
Proof using All.
  intros Ha ? ? ? ?. apply wp_bind. wp_eq cmpg; [done|lia..|].
  destruct (Z.ltb_spec (c (g es i) (g es j)) 0) as [Hc|Hc].
  - apply (wp_swap lo hi); try done || lia. intros Ha' Hp. apply within_intro; [done..|].
    assert (le es i j) by (by apply cmp_neg). split; [|by right].
    unfold le. rewrite !g_swap by done || lia. by repeat case_decide; subst; try lia.
  - apply wp_ret, within_intro; [done|apply perm_in_refl|].
    assert (le es j i) by (apply cmp_nonneg; lia). split; [done|by left].
Qed.

Lemma at_pred i : at_ i - size = at_ (i - 1).
Proof using. unfold at_. lia. Qed.
Lemma at_succ i : at_ i + size = at_ (i + 1).
Proof using. unfold at_. lia. Qed.
Lemma at_inj_le i j : (at_ j <=? at_ i) = (j <=? i).
Proof using Hsize. unfold at_. destruct (Z.leb_spec j i); [apply Z.leb_le|apply Z.leb_gt]; nia. Qed.

(** Two rearrangements of the same segment in a row. *)
Lemma within_trans lo hi es es' Q m :
  perm_in lo hi es es' → within lo hi es' Q m → within lo hi es Q m.
Proof using.
  intros Hp (es2 & -> & Ha & Hp2 & HQ). apply within_intro; [done| |done].
  by eapply perm_in_trans.
Qed.

Lemma within_mono lo hi es (Q Q' : list bytes → Prop) m :
  within lo hi es Q m → (∀ es', Q es' → Q' es') → within lo hi es Q' m.
Proof using. intros (es2 & -> & Ha & Hp2 & HQ) H. apply within_intro; auto. Qed.

Lemma median_order L mid H es :
  arr es → 0 ≤ L → L < mid → mid < H → H < N → le es L mid →
  wp (r <- cmp (at_ H) (at_ mid) ;;
      (if r <? 0 then swp (at_ H) (at_ mid) size ;; cmp_swap (at_ mid) (at_ L) size cmp
       else ret tt))
    (λ _, within L (H + 1) es (λ es', le es' L mid ∧ le es' mid H)) (st es).
Proof using All.
  intros Ha ? ? ? ? Hle. apply wp_bind. wp_eq cmpg; [done|lia..|].
  destruct (Z.ltb_spec (c (g es H) (g es mid)) 0) as [Hc|Hc].
  - apply wp_bind. apply (wp_swap L (H + 1)); try done || lia. intros Ha2 Hp2.
    apply cmp_neg in Hc. set (es2 := swapZ H mid es) in *.
    assert (le es2 mid H ∧ le es2 L H) as [Hmh HLH].
    { unfold le, es2. rewrite !g_swap by done || lia.
      repeat (case_decide; [try lia|]); try lia; auto. }
    wp_use (cmp_swap_run L (H + 1) es2 mid L); [done|lia..|].
    intros [] m Hw. apply (within_trans _ _ _ es2); [done|]. eapply within_mono; [exact Hw|]. clear Hw.
    intros es3 [Hle3 [[E ?]|[E Hlt]]]; [by rewrite E|]. split; [done|]. rewrite E.
    unfold le. rewrite !g_swap by done || lia. repeat (case_decide; [try lia|]); try lia; auto.
  - apply wp_ret, within_intro; [done|apply perm_in_refl|]. split; [done|]. apply cmp_nonneg. lia.
Qed.

Lemma qsort_median_run L mid H es :
  arr es → 0 ≤ L → L < mid → mid < H - 1 → H < N →
  wp (qsort_median (at_ L) (at_ mid) (at_ H) size cmp)
    (λ _, within L (H + 1) es (λ es', le es' L (H - 1) ∧ le es' (H - 1) H)) (st es).
Proof using All.
  intros Ha ? ? ? ?. unfold qsort_median. apply wp_bind.
  wp_use (cmp_swap_run L (H + 1) es mid L); [done|lia..|].
  intros _ m (es1 & -> & Ha1 & Hp1 & Hle1 & _).
  rewrite (at_pred H).
  apply (wp_mono _ (λ _, within L (H + 1) es1 (λ es', le es' L (H - 1) ∧ le es' (H - 1) H)));
    [|intros [] m Hw; exact (within_trans _ _ _ _ _ _ Hp1 Hw)].
  pose proof (median_order L mid H es1 Ha1 ltac:(lia) ltac:(lia) ltac:(lia) ltac:(lia) Hle1) as Hm.
  unfold wp, wpx, bind at 1 in Hm. unfold wp, wpx, bind at 1.
  destruct (cmp (at_ H) (at_ mid) (st es1)) as [r s1| | |]; try done.
  apply wp_bind. eapply wp_mono; [exact Hm|].
  intros _ m (es2 & -> & Ha2 & Hp2 & HLm & HmH).
  apply (wp_swap L (H + 1)); try done || lia. intros Ha3 Hp3.
  apply (within_trans _ _ _ es2); [done|]. apply within_intro; [done..|].
  unfold le in *. rewrite !g_swap by done || lia.
  repeat (case_decide; [try lia|]); try lia; auto.
Qed.

(** The scan from the left stops at [j] at the latest. *)
Lemma scan_up es i j P : arr es → 0 ≤ i → i < j → j < N → 0 ≤ P < N → le es P j →
  wp (loop (λ i, let i := i + size in
        r <- cmp i (at_ P) ;; if r <? 0 then ret (Continue i) else ret (Break i)) (at_ i))
    (λ a m, ∃ i', a = at_ i' ∧ m = st es ∧ i < i' ≤ j ∧
       (∀ k, i < k < i' → le es k P) ∧ le es P i') (st es).
Proof using All.
  intros Ha ? ? ? ? Hj.
  apply (wp_loop _ (λ a m, ∃ i', a = at_ i' ∧ m = st es ∧ i ≤ i' < j ∧ ∀ k, i < k ≤ i' → le es k P)
    (λ a _, at_ j - a)); [| | |unfold at_; nia].
  - intros a m (i' & -> & _ & ? & _). unfold at_. nia.
  - intros a m (i' & -> & -> & ? & Hk). cbn zeta. rewrite at_succ. apply wp_bind.
    wp_eq cmpg; [done|lia..|].
    destruct (Z.ltb_spec (c (g es (i' + 1)) (g es P)) 0) as [Hc|Hc]; apply wp_ret.
    + assert (i' + 1 ≠ j) by (intros E; unfold le in Hj; rewrite E in Hc; rewrite order_flip in Hj by done; lia).
      split; [|unfold at_; lia]. exists (i' + 1). split_and!; try done || lia.
      intros k ?. destruct (decide (k = i' + 1)) as [->|]; [by apply cmp_neg|apply Hk; lia].
    + exists (i' + 1). split_and!; try done || lia.
      * intros k ?. apply Hk. lia.
      * apply cmp_nonneg. lia.
  - exists i. split_and!; try done || lia.
Qed.

(** The scan from the right stops at [i] at the latest. *)
Lemma scan_down es i j P : arr es → 0 ≤ i → i < j → j < N → 0 ≤ P < N → le es i P →
  wp (loop (λ j, let j := j - size in
        r <- cmp (at_ P) j ;; if r <? 0 then ret (Continue j) else ret (Break j)) (at_ j))
    (λ a m, ∃ j', a = at_ j' ∧ m = st es ∧ i ≤ j' < j ∧
       (∀ k, j' < k < j → le es P k) ∧ le es j' P) (st es).
Proof using All.
  intros Ha ? ? ? ? Hi.
  apply (wp_loop _ (λ a m, ∃ j', a = at_ j' ∧ m = st es ∧ i < j' ≤ j ∧ ∀ k, j' ≤ k < j → le es P k)
    (λ a _, a - at_ i)); [| | |unfold at_; nia].
  - intros a m (j' & -> & _ & ? & _). unfold at_. nia.
  - intros a m (j' & -> & -> & ? & Hk). cbn zeta. rewrite at_pred. apply wp_bind.
    wp_eq cmpg; [done|lia..|].
    destruct (Z.ltb_spec (c (g es P) (g es (j' - 1))) 0) as [Hc|Hc]; apply wp_ret.
    + assert (j' - 1 ≠ i) by (intros E; unfold le in Hi; rewrite E in Hc; rewrite order_flip in Hi by done; lia).
      split; [|unfold at_; lia]. exists (j' - 1). split_and!; try done || lia.
      intros k ?. destruct (decide (k = j' - 1)) as [->|]; [by apply cmp_neg|apply Hk; lia].
    + exists (j' - 1). split_and!; try done || lia.
      * intros k ?. apply Hk. lia.
      * apply cmp_nonneg. lia.
  - exists j. split_and!; try done || lia.
Qed.

(** Up to [i] nothing exceeds the pivot, from [j] on nothing is below it. *)
Definition split_at L i j H P es : Prop :=
  (∀ k, L ≤ k ≤ i → le es k P) ∧ (∀ k, j ≤ k ≤ H → le es P k).

Lemma partition_scan L H es :
  arr es → 0 ≤ L → L < H - 1 → H < N → le es L (H - 1) → le es (H - 1) H →
  wp (loop (λ '(i, j),
        i <- loop (λ i, let i := i + size in
          r <- cmp i (at_ (H - 1)) ;; if r <? 0 then ret (Continue i) else ret (Break i)) i ;;
        j <- loop (λ j, let j := j - size in
          r <- cmp (at_ (H - 1)) j ;; if r <? 0 then ret (Continue j) else ret (Break j)) j ;;
        if j <=? i then ret (Break i)
        else swp i j size ;; ret (Continue (i, j))) (at_ L, at_ (H - 1)))
    (λ a, within L (H + 1) es (λ es', ∃ i, a = at_ i ∧ L < i < H ∧
       split_at L (i - 1) i H (H - 1) es')) (st es).
Proof using All.
  intros Ha ? ? ? HL HH.
  apply (wp_loop _ (λ x, within L (H + 1) es (λ es', ∃ i j, x = (at_ i, at_ j) ∧ L ≤ i < j ∧
      j ≤ H - 1 ∧ split_at L i j H (H - 1) es'))
    (λ x _, snd x - fst x)); [| | |unfold at_; cbn; nia].
  - intros x m (es' & _ & _ & _ & i & j & -> & ? & _). unfold at_. cbn. nia.
  - intros x m (es' & -> & Ha' & Hp & i & j & -> & ? & ? & Hlo & Hhi).
    apply wp_bind. wp_use (scan_up es' i j (H - 1)); [done|lia..|apply Hhi; lia|].
    intros a m (i' & -> & -> & Hi' & Hup & Hpi').
    apply wp_bind. wp_use (scan_down es' i j (H - 1)); [done|lia..|apply Hlo; lia|].
    intros b m (j' & -> & -> & Hj' & Hdown & Hpj'). rewrite at_inj_le.
    assert (∀ k, L ≤ k < i' → le es' k (H - 1)) as Hlo'
      by (intros k ?; destruct (decide (k ≤ i)); [apply Hlo; lia|apply Hup; lia]).
    assert (∀ k, j' < k ≤ H → le es' (H - 1) k) as Hhi'
      by (intros k ?; destruct (decide (j ≤ k)); [apply Hhi; lia|apply Hdown; lia]).
    destruct (Z.leb_spec j' i').
    + apply wp_ret, within_intro; [done..|]. exists i'. split_and!; try done || lia.
      split; intros k ?; [apply Hlo'; lia|]. destruct (decide (k = i')) as [->|]; [done|apply Hhi'; lia].
    + apply wp_bind, (wp_swap L (H + 1)); try done || lia. intros Ha2 Hp2.
      apply wp_ret. split; [|unfold at_; cbn; nia].
      apply within_intro; [done|by eapply perm_in_trans|].
      exists i', j'. split_and!; try done || lia. split; intros k ?; unfold le.
      * rewrite !g_swap by done || lia. repeat (case_decide; [try lia|]); try lia; [done|apply Hlo'; lia].
      * rewrite !g_swap by done || lia. repeat (case_decide; [try lia|]); try lia; [done|apply Hhi'; lia].
  - apply within_intro; [done|apply perm_in_refl|]. exists L, (H - 1). split_and!; try done || lia.
    split; intros k ?.
    + by replace k with L by lia.
    + destruct (decide (k = H)) as [->|]; [done|]. replace k with (H - 1) by lia. apply le_refl.
Qed.

Lemma qsort_partition_run L H es :
  arr es → 0 ≤ L → L < H - 1 → H < N → le es L (H - 1) → le es (H - 1) H →
  wp (qsort_partition (at_ L) (at_ H) size cmp)
    (λ a, within L (H + 1) es (λ es', ∃ i, a = at_ i ∧ L < i < H ∧ split_at L i i H i es')) (st es).
Proof using All.
  intros Ha ? ? ? HL HH. unfold qsort_partition. cbn zeta. rewrite (at_pred H). apply wp_bind.
  wp_use (partition_scan L H es); try done.
  intros a m (es' & -> & Ha' & Hp & i & -> & Hi & Hlo & Hhi).
  apply wp_bind, (wp_swap L (H + 1)); try done || lia. intros Ha2 Hp2.
  apply wp_ret, within_intro; [done|by eapply perm_in_trans|]. exists i. split_and!; try done || lia.
  split; intros k ?; unfold le; rewrite !g_swap by done || lia;
    repeat (case_decide; [subst; try lia|]); try lia; try apply le_refl; try (apply Hlo; lia); apply Hhi; lia.
Qed.

(** ** The recursion *)

(** [es'] sorted inside and split by its pivot is sorted. *)
Lemma sorted_join L i H es :
  split_at L i i H i es → sorted_in L i es → sorted_in (i + 1) (H + 1) es → L ≤ i ≤ H →
  sorted_in L (H + 1) es.
Proof using Order0.
  intros [Hlo Hhi] Hl Hr ? p q ? ? ?.
  destruct (decide (p ≤ i)), (decide (i ≤ q)).
  - apply (le_trans _ _ i); [apply Hlo; lia|apply Hhi; lia].
  - apply Hl; lia.
  - apply Hr; lia.
  - lia.
Qed.

(** Rearranging one side of the pivot leaves the split. *)
Lemma split_perm L i H lo hi es es' :
  split_at L i i H i es → perm_in lo hi es es' → (L ≤ lo ∧ hi ≤ i) ∨ (i < lo ∧ hi ≤ H + 1) →
  L ≤ i ≤ H → split_at L i i H i es'.
Proof using.
  intros [Hlo Hhi] Hp Hside ?.
  assert (∀ k, ∃ k', g es' k = g es k' ∧ ((k < lo ∨ hi ≤ k) ∧ k' = k ∨ lo ≤ k < hi ∧ lo ≤ k' < hi)) as Hk.
  { intros k. destruct (decide (lo ≤ k < hi)) as [Hin|].
    - destruct (perm_in_inside _ _ _ _ k Hp Hin) as (k' & ? & E). exists k'. unfold g. rewrite E. auto.
    - exists k. unfold g. rewrite (perm_in_outside _ _ _ _ k Hp) by lia. split; [done|lia]. }
  assert (g es' i = g es i) as Ei by (unfold g; by rewrite (perm_in_outside _ _ _ _ i Hp) by lia).
  split; intros k ?; destruct (Hk k) as (k' & E & ?); unfold le; rewrite E, Ei;
    [apply Hlo|apply Hhi]; lia.
Qed.

Lemma sorted_perm lo hi lo' hi' es es' :
  sorted_in lo hi es → perm_in lo' hi' es es' → hi ≤ lo' ∨ hi' ≤ lo → sorted_in lo hi es'.
Proof using.
  intros Hs Hp ? p q ? ? ?. unfold le, g.
  rewrite !(perm_in_outside _ _ _ _ _ Hp) by lia. by apply Hs.
Qed.

Lemma qsort_rec_run fuel lo n es :
  arr es → 0 ≤ lo → 0 ≤ n → lo + n ≤ N → n < Z.of_nat fuel →
  wp (qsort_rec fuel (at_ lo) n size cmp)
    (λ _, within lo (lo + n) es (sorted_in lo (lo + n))) (st es).
Proof using All.
  revert lo n es. induction fuel as [|fuel IH]; intros lo n es Ha Hlo Hn HN Hf; [lia|]. cbn [qsort_rec].
  destruct (Z.ltb_spec n 2).
  { apply wp_ret, within_intro; [done|apply perm_in_refl|]. intros p q ? ? ?.
    replace p with q by lia. apply le_refl. }
  destruct (Z.leb_spec n 12); [by apply qsort_short_run|].
  cbn zeta. rewrite !(elt_run _ lo) by (done || lia). set (hi := lo + (n - 1)).
  apply wp_bind. wp_use (qsort_median_run lo (lo + n / 2) hi es); [done|unfold hi; lia..|].
  intros [] m (es1 & -> & Ha1 & Hp1 & HL & HH).
  apply wp_bind. wp_use (qsort_partition_run lo hi es1); [done|unfold hi; lia..|done|done|].
  intros a m (es2 & -> & Ha2 & Hp2 & i & -> & Hi & Hsplit).
  replace (size =? 0) with false by lia. rewrite at_succ.
  replace ((at_ i - at_ lo) / size) with (i - lo)
    by (unfold at_; replace (base + i * size - (base + lo * size)) with ((i - lo) * size) by lia;
        rewrite Z.div_mul; lia).
  apply wp_bind. wp_use (IH lo (i - lo) es2); [done|unfold hi in *; lia..|].
  intros [] m (es3 & -> & Ha3 & Hp3 & Hs3).
  wp_use (IH (i + 1) (n - (i - lo) - 1) es3); [done|unfold hi in *; lia..|].
  intros [] m (es4 & -> & Ha4 & Hp4 & Hs4). cbn beta.
  replace (lo + (i - lo)) with i in * by lia.
  replace (i + 1 + (n - (i - lo) - 1)) with (hi + 1) in * by (unfold hi; lia).
  replace (lo + n) with (hi + 1) by (unfold hi; lia).
  apply within_intro; [done| |].
  - apply (perm_in_trans _ _ _ es1); [done|]. apply (perm_in_trans _ _ _ es2); [done|].
    apply (perm_in_trans _ _ _ es3); (eapply perm_in_mono; [done|lia..]).
  - apply (sorted_join lo i hi); try done || lia.
    + eapply split_perm; [|exact Hp4|lia..]. eapply split_perm; [done|exact Hp3|lia..].
    + eapply sorted_perm; [done|exact Hp4|lia].
Qed.
End array.

Lemma strongly_sorted_idx {A} (R : A → A → Prop) (l : list A) :
  (∀ i j x y, (i < j)%nat → l !! i = Some x → l !! j = Some y → R x y) → StronglySorted R l.
Proof.
  induction l as [|a l IH]; intros H; constructor.
  - apply IH. intros i j x y ? ? ?. by apply (H (S i) (S j)); [lia|..].
  - apply Forall_lookup. intros i x Hx. by apply (H 0%nat (S i)); [lia|..].
Qed.

Lemma strongly_sorted_lookup {A} (R : A → A → Prop) (l : list A) i j x y :
  StronglySorted R l → (i < j)%nat → l !! i = Some x → l !! j = Some y → R x y.
Proof.
  intros H. revert i j. induction H as [|a l H IH Ha]; intros [|i] [|j] ? Hx Hy; try done || lia.
  - injection Hx as <-. exact (Forall_lookup_1 _ _ _ _ Ha Hy).
  - apply (IH i j); [lia|done..].
Qed.

(** An array in memory is a state of [array]. *)
Lemma arr_start m base es : bytes_at m base (concat es) → st m base es = m.
Proof. intros. by apply mwrite_id. Qed.

(** C16: qsort terminates without leaving the array, and what it leaves in
    memory is a rearrangement of the elements in the order of the callback; no
    other byte changes.  This holds for every element size, every length the
    address space can hold (the insertion sort and the quicksort branch) and
    every callback that computes an order. *)
Theorem qsort_correct (m : mem) (base size : Z) (es : list bytes) (c : bytes → bytes → Z)
    (cmp : cmp_fn) (Hc : Order c) (Hcmp : computes size c cmp) (Hsize : 0 < size)
    (Hes : elts size es) (Hlen : zlen es * size < 18446744073709551616)
    (Hm : bytes_at m base (concat es)) :
  ∃ es', qsort base (zlen es) size cmp m = Ret tt (mwrite base (concat es') m) ∧
    es ≡ₚ es' ∧ StronglySorted (λ x y, c x y ≤ 0) es'.
Proof.
  pose proof (zlen_nonneg es).
  pose proof (qsort_rec_run m base size (zlen es) c cmp Hcmp Hsize Hlen
    (Z.to_nat (zlen es) + 1) 0 (zlen es) es (conj Hes eq_refl)) as Hq.
  unfold at_ in Hq. rewrite Z.mul_0_l, !Z.add_0_r, Z.add_0_l in Hq.
  rewrite arr_start in Hq by done.
  unfold qsort. specialize (Hq ltac:(lia) ltac:(lia) ltac:(lia) ltac:(lia)).
  apply wp_inv in Hq as ([] & m' & E & es' & -> & [_ HL] & Hp & Hs).
  exists es'. split_and!; [exact E| |].
  - eapply perm_in_perm; [|exact Hp]. lia.
  - apply strongly_sorted_idx. intros i j x y Hij Hx Hy.
    pose proof (lookup_lt_Some _ _ _ Hy). unfold zlen in HL.
    specialize (Hs (Z.of_nat i) (Z.of_nat j) ltac:(lia) ltac:(lia) ltac:(unfold zlen; lia)).
    unfold le, g in Hs. by rewrite !idx_of_nat, Hx, Hy in Hs.
Qed.

(** C26: bsearch on a sorted array terminates, changes nothing, and returns the
    address of an element equal to the key, or NULL exactly when there is none. *)
Theorem bsearch_correct (m : mem) (key base size : Z) (k : bytes) (es : list bytes)
    (c : bytes → bytes → Z) (cmp : cmp_fn) (Hc : Order c) (Hcmp : computes size c cmp)
    (Hsize : 0 < size) (Hes : elts size es) (Hlen : zlen es * size < 18446744073709551616)
    (Hm : bytes_at m base (concat es)) (Hk : bytes_at m key k) (Hks : zlen k = size)
    (Hsorted : StronglySorted (λ x y, c x y ≤ 0) es) :
  ∃ p, bsearch key base (zlen es) size cmp m = Ret p m ∧
    ((∃ i e, idx es i = Some e ∧ c k e = 0 ∧ p = base + i * size) ∨
     (p = 0 ∧ ∀ e, e ∈ es → c k e ≠ 0)).
Proof.
  pose proof (zlen_nonneg es).
  set (post p := (∃ i e, idx es i = Some e ∧ c k e = 0 ∧ p = base + i * size) ∨
     (p = 0 ∧ ∀ e, e ∈ es → c k e ≠ 0)).
  assert (∀ i j x y, i < j → idx es i = Some x → idx es j = Some y → c x y ≤ 0) as Hs.
  { clear -Hsorted. intros i j x y Hij Hx Hy.
    pose proof (idx_Some_range _ _ _ Hx). pose proof (idx_Some_range _ _ _ Hy).
    unfold idx in Hx, Hy. rewrite decide_False in Hx by lia. rewrite decide_False in Hy by lia.
    apply (strongly_sorted_lookup (λ x y, c x y ≤ 0) es (Z.to_nat i) (Z.to_nat j)); [done|lia|done..]. }
  assert (wp (bsearch key base (zlen es) size cmp) (λ p m', m' = m ∧ post p) m) as Hw.
  2:{ apply wp_inv in Hw as (p & m' & E & -> & Hp). by exists p. }
  unfold bsearch.
  apply (wp_loop _ (λ '(lo, hi) m', m' = m ∧ 0 ≤ lo ≤ hi ∧ hi ≤ zlen es ∧
      (∀ i e, idx es i = Some e → i < lo ∨ hi ≤ i → c k e ≠ 0))
    (λ '(lo, hi) _, hi - lo)); [| | |nia].
  - intros [lo hi] m' (-> & ? & _). lia.
  - intros [lo hi] m' (-> & Hr & Hh & Hout). destruct (Z.ltb_spec lo hi).
    + cbn zeta. set (mi := lo + (hi - lo) / 2). assert (lo ≤ mi < hi) by (unfold mi; lia).
      replace (elt base mi size) with (base + mi * size) by (unfold elt; rewrite u64_id by nia; done).
      destruct (idx_is_Some es mi) as [e He]; [lia|].
      pose proof (elt_at m base size (zlen es) Hsize es mi e (conj Hes eq_refl) He) as Hat.
      rewrite arr_start in Hat by done. unfold at_ in Hat.
      apply wp_bind. eapply wp_of_eq; [apply (Hcmp m _ _ _ _ Hk Hat Hks)|].
      { by apply (elts_idx _ _ _ _ Hes He). }
      destruct (Z.eqb_spec (c k e) 0) as [E|E]; [|destruct (Z.ltb_spec (c k e) 0)]; apply wp_ret.
      * split; [done|]. left. by exists mi, e.
      * split; [|lia]. split_and!; try done || lia. intros i x Hx Hi.
        destruct (decide (hi ≤ i)); [apply (Hout i); [done|lia]|]. destruct (decide (i < lo)); [apply (Hout i); [done|lia]|].
        destruct (decide (i = mi)) as [->|]; [congruence|].
        pose proof (Hs mi i e x ltac:(lia) He Hx). intros E0.
        pose proof (proj2 (order_flip c x k) ltac:(lia)).
        pose proof (order_trans (c:=c) e x k ltac:(lia) ltac:(lia)) as Hek.
        pose proof (proj1 (order_flip c e k) Hek). lia.
      * split; [|lia]. split_and!; try done || lia. intros i x Hx Hi.
        destruct (decide (hi ≤ i)); [apply (Hout i); [done|lia]|]. destruct (decide (i < lo)); [apply (Hout i); [done|lia]|].
        destruct (decide (i = mi)) as [->|]; [congruence|].
        pose proof (Hs i mi x e ltac:(lia) Hx He). intros E0.
        pose proof (order_trans (c:=c) k x e ltac:(lia) ltac:(lia)). lia.
    + apply wp_ret. split; [done|]. right. split; [done|]. intros e [i Hi]%list_elem_of_lookup.
      rewrite <- idx_of_nat in Hi. apply (Hout _ _ Hi). lia.
  - split_and!; try done || lia. intros i e He%idx_Some_range. lia.
Qed.

(** ** A concrete array: 14 records of two bytes, sorted by the first *)

Definition ex_order (x y : bytes) : Z := hd 0 x - hd 0 y.
Definition ex_cmp : cmp_fn := λ p q, x <- load8 p ;; y <- load8 q ;; ret (x - y).
Definition ex_array : list bytes :=
  [[9;0]; [3;1]; [7;2]; [3;3]; [12;4]; [1;5]; [8;6]; [2;7]; [11;8]; [5;9]; [6;10]; [4;11]; [10;12]; [0;13]].
Definition ex_mem : mem := mwrite 65536 (concat ex_array) ∅.

#[export] Instance ex_order_order : Order ex_order.
Proof. split; unfold ex_order; intros; lia. Qed.

Lemma ex_cmp_computes : computes 2 ex_order ex_cmp.
Proof.
  intros m p q x y Hx Hy Lx Ly. unfold ex_cmp, ex_order.
  destruct x as [|x0 x]; [zlen_lia|]. destruct y as [|y0 y]; [zlen_lia|].
  specialize (Hx 0 x0 eq_refl). specialize (Hy 0 y0 eq_refl). rewrite Z.add_0_r in Hx, Hy.
  run_load Hx. run_load Hy. done.
Qed.

Lemma ex_array_elts : elts 2 ex_array.
Proof. repeat constructor; unfold zlen; simpl; lia. Qed.

Lemma qsort_correct_witness :
  ∃ es', qsort 65536 (zlen ex_array) 2 ex_cmp ex_mem = Ret tt (mwrite 65536 (concat es') ex_mem) ∧
    ex_array ≡ₚ es' ∧ StronglySorted (λ x y, ex_order x y ≤ 0) es'.
Proof.
  apply qsort_correct; [apply _|apply ex_cmp_computes|lia|apply ex_array_elts|reflexivity|].
  apply bytes_at_mwrite_same.
Defined.

(** The same call, computed: the sorted keys. *)
Example qsort_run_keys :
  match qsort 65536 14 2 ex_cmp ex_mem with
  | Ret _ m => map (λ i, m !! (65536 + 2 * Z.of_nat i)) (seq 0 14) =
      map Some [0; 1; 2; 3; 3; 4; 5; 6; 7; 8; 9; 10; 11; 12]
  | _ => False
  end.
Proof. vm_compute. reflexivity. Qed.

Definition ex_sorted : list bytes := [[1;5]; [3;1]; [7;2]; [9;0]].
Definition ex_mem2 : mem := mwrite 65536 (concat ex_sorted) (mwrite 4096 [7;0] ∅).

Lemma bsearch_correct_witness :
  ∃ p, bsearch 4096 65536 (zlen ex_sorted) 2 ex_cmp ex_mem2 = Ret p ex_mem2 ∧
    ((∃ i e, idx ex_sorted i = Some e ∧ ex_order [7;0] e = 0 ∧ p = 65536 + i * 2) ∨
     (p = 0 ∧ ∀ e, e ∈ ex_sorted → ex_order [7;0] e ≠ 0)).
Proof.
  apply (bsearch_correct ex_mem2 4096 65536 2 [7;0] ex_sorted ex_order ex_cmp);
    [apply _|apply ex_cmp_computes|lia| |reflexivity|apply bytes_at_b_sound; reflexivity| |reflexivity|].
  - repeat constructor; unfold zlen; simpl; lia.
  - apply bytes_at_b_sound. reflexivity.
  - repeat constructor; unfold ex_order; simpl; lia.
Defined.
