(* ===== verification/Printf.v ===== *)
(** The printf family: src/lib/racccoon-libc/src/printf.c.

    [vformat] runs over an emitter, as in C: [emit] stands for [o->emit],
    [out_len] for [o->len], [store_n] for the store of %n.  A variadic argument
    is a [va_slot]; taking one of the wrong kind, or one that is not there, is a
    [Fault].  [fmt_fp] is a parameter: the text of a floating-point conversion,
    which [FmtFp.fp_text] is for fmt_fp.inc.  Signed overflow of a width or precision is
    undefined behaviour, a [Fault]. *)
From S2P Require Import Prelude CMonad CMemory CBuffer Ctype CStdlib.

Inductive va_slot :=
  | VInt (z : Z)                  (* an integer or a [void *], one 64-bit slot *)
  | VStr (s : option bytes)       (* [const char *], maybe NULL *)
  | VDouble (x : Z)
  | VLongDouble (x : Z).

(** [enum { F_MINUS = 1, F_PLUS = 2, F_SPACE = 4, F_HASH = 8, F_ZERO = 16 }] *)
Definition F_MINUS : Z := 1.
Definition F_PLUS : Z := 2.
Definition F_SPACE : Z := 4.
Definition F_HASH : Z := 8.
Definition F_ZERO : Z := 16.
Definition has_flag (flags f : Z) : bool := negb (Z.land flags f =? 0).

(** The value of an [int] expression. *)
Definition int_ok {S} (x : Z) : M S Z := if decide (INT_MIN ≤ x ≤ INT_MAX) then ret x else fault.

(** [*--p = c] in a buffer whose last byte is the terminator: [cap] characters
    fit before it. *)
Definition push_front {S} (cap : Z) (p : bytes) (c : Z) : M S bytes :=
  if zlen p <? cap then ret (c :: p) else fault.

Definition digits_of (upper : bool) : bytes :=
  if upper then str "0123456789ABCDEF" else str "0123456789abcdef".

(** Into [nbuf[32]]. *)
Definition utoa {S} (v base : Z) (upper : bool) : M S bytes :=
  let dig := digits_of upper in
  p <- (if v =? 0 then push_front 31 [] 48 else ret []) ;;
  loop (λ '(v, p),
    if v =? 0 then ret (Break p)
    else
      c <- of_option (idx dig (v mod u32 base)) ;;
      p <- push_front 31 p c ;;
      ret (Continue (v / u32 base, p))) (v, p).

(** fmt_fp.inc's helper for decimal digits; [s] is the text behind. *)
Definition fp_fmt_u {S} (x : Z) (s : bytes) : M S bytes :=
  loop (λ '(y, s),
    if y =? 0 then ret (Break s) else ret (Continue (y / 10, (48 + y mod 10) :: s))) (x, s).

Section printf.
Context {S : Type} (emit : bytes → M S unit) (out_len : M S Z) (store_n : Z → Z → Z → M S unit).
Context (fmt_fp : va_slot → Z → Z → Z → Z → bytes).

(** [while (n > 0) { int k = n > 16 ? 16 : n; o->emit(o, b, k); n -= k; }] *)
Definition pad (c n : Z) : M S unit :=
  loop (λ n,
    if 0 <? n then
      let k := if 16 <? n then 16 else n in
      emit (replicate (Z.to_nat k) c) ;; ret (Continue (n - k))
    else ret (Break tt)) n.

Definition put_number (digits : bytes) (neg : bool) (prefix : option bytes) (flags width prec : Z) : M S unit :=
  let dlen := zlen digits in
  let plen := match prefix with Some s => zlen s | None => 0 end in
  let sign := if neg then [45] else if has_flag flags F_PLUS then [43]
              else if has_flag flags F_SPACE then [32] else [] in
  let zeros := if (0 <=? prec) && (dlen <? prec) then prec - dlen else 0 in
  let room := width - dlen - plen - zlen sign in
  let zeros := if has_flag flags F_ZERO && (prec <? 0) && negb (has_flag flags F_MINUS) && (zeros <? room)
               then room else zeros in
  body <- int_ok (zlen sign + plen + zeros + dlen) ;;
  space <- int_ok (width - body) ;;
  (if negb (has_flag flags F_MINUS) then pad 32 space else ret tt) ;;
  (match sign with [] => ret tt | _ => emit sign end) ;;
  (match prefix with Some s => emit s | None => ret tt end) ;;
  pad 48 zeros ;;
  emit digits ;;
  (if has_flag flags F_MINUS then pad 32 space else ret tt).

Definition put_str (s : option bytes) (flags width prec : Z) : M S unit :=
  let s := match s with Some s => s | None => str "(null)" end in
  len <- loop (λ len,
    c <- chr s len ;;
    if negb (c =? 0) && ((prec <? 0) || (len <? prec)) then ret (Continue (len + 1)) else ret (Break len)) 0 ;;
  let space := width - len in
  (if negb (has_flag flags F_MINUS) then pad 32 space else ret tt) ;;
  emit (takeZ len s) ;;
  (if has_flag flags F_MINUS then pad 32 space else ret tt).

Definition ALT_FORM : Z := 8.
Definition ZERO_PAD : Z := 65536.
Definition LEFT_ADJ : Z := 8192.
Definition PAD_POS : Z := 1.
Definition MARK_POS : Z := 2048.

(** fmt_fp.inc's padding helper *)
Definition fp_pad (c w l fl : Z) : M S unit :=
  if has_flag fl (Z.lor LEFT_ADJ ZERO_PAD) || (w <=? l) then ret tt
  else
    l <- loop (λ l,
      if 64 <=? l then emit (replicate 64 c) ;; ret (Continue (l - 64)) else ret (Break l)) (w - l) ;;
    emit (replicate (Z.to_nat l) c).

Definition put_float (val : va_slot) (conv flags width prec : Z) : M S unit :=
  let fl := 0 in
  let fl := if has_flag flags F_MINUS then Z.lor fl LEFT_ADJ else fl in
  let fl := if has_flag flags F_PLUS then Z.lor fl MARK_POS else fl in
  let fl := if has_flag flags F_SPACE then Z.lor fl PAD_POS else fl in
  let fl := if has_flag flags F_HASH then Z.lor fl ALT_FORM else fl in
  let fl := if has_flag flags F_ZERO then Z.lor fl ZERO_PAD else fl in
  emit (fmt_fp val width prec fl conv).

(** va_arg *)
Definition va_int (ap : list va_slot) : M S (Z * list va_slot) :=
  match ap with VInt z :: ap => ret (s32 z, ap) | _ => fault end.
Definition va_long (ap : list va_slot) : M S (Z * list va_slot) :=
  match ap with VInt z :: ap => ret (s64 z, ap) | _ => fault end.
Definition va_str (ap : list va_slot) : M S (option bytes * list va_slot) :=
  match ap with VStr s :: ap => ret (s, ap) | _ => fault end.

(** Flags, from [f] on. *)
Definition parse_flags (fmt : bytes) (f : Z) : M S (Z * Z) :=
  loop (λ '(f, flags),
    c <- chr fmt f ;;
    if c =? 45 then ret (Continue (f + 1, Z.lor flags F_MINUS))
    else if c =? 43 then ret (Continue (f + 1, Z.lor flags F_PLUS))
    else if c =? 32 then ret (Continue (f + 1, Z.lor flags F_SPACE))
    else if c =? 35 then ret (Continue (f + 1, Z.lor flags F_HASH))
    else if c =? 48 then ret (Continue (f + 1, Z.lor flags F_ZERO))
    else ret (Break (f, flags))) (f, 0).

(** [while ( *f >= '0' && *f <= '9') n = n * 10 + ( *f++ - '0');] *)
Definition parse_int (fmt : bytes) (f : Z) : M S (Z * Z) :=
  loop (λ '(f, n),
    c <- chr fmt f ;;
    if (48 <=? c) && (c <=? 57) then n <- int_ok (n * 10 + (c - 48)) ;; ret (Continue (f + 1, n))
    else ret (Break (f, n))) (f, 0).

(** The field width: position, width, flags, arguments left. *)
Definition parse_width (fmt : bytes) (f flags : Z) (ap : list va_slot) : M S (Z * Z * Z * list va_slot) :=
  c <- chr fmt f ;;
  if c =? 42 then
    let* (width, ap) := va_int ap in
    if width <? 0 then width <- int_ok (- width) ;; ret (f + 1, width, Z.lor flags F_MINUS, ap)
    else ret (f + 1, width, flags, ap)
  else let* (f, width) := parse_int fmt f in ret (f, width, flags, ap).

Definition parse_prec (fmt : bytes) (f : Z) (ap : list va_slot) : M S (Z * Z * list va_slot) :=
  c <- chr fmt f ;;
  if c =? 46 then
    c <- chr fmt (f + 1) ;;
    if c =? 42 then
      let* (prec, ap) := va_int ap in
      ret (f + 2, if prec <? 0 then -1 else prec, ap)
    else let* (f, prec) := parse_int fmt (f + 1) in ret (f, prec, ap)
  else ret (f, -1, ap).

(** Length modifiers: position, lng, ldbl. *)
Definition parse_length (fmt : bytes) (f : Z) : M S (Z * Z * bool) :=
  loop (λ '(f, lng, ldbl),
    c <- chr fmt f ;;
    if c =? 108 then ret (Continue (f + 1, lng + 1, ldbl))
    else if c =? 104 then ret (Continue (f + 1, lng, ldbl))
    else if (c =? 122) || (c =? 116) || (c =? 106) then ret (Continue (f + 1, 1, ldbl))
    else if c =? 76 then ret (Continue (f + 1, lng, true))
    else ret (Break (f, lng, ldbl))) (f, 0, false).

(** One conversion; the arguments left. *)
Definition convert (c flags width prec lng : Z) (ldbl : bool) (ap : list va_slot) : M S (list va_slot) :=
  if (c =? 100) || (c =? 105) then
    let* (v, ap) := if 1 <=? lng then va_long ap else va_int ap in
    let neg := v <? 0 in
    uv <- (if neg then v <- neg_signed LLONG_MAX v ;; ret (u64 v) else ret v) ;;
    d <- utoa uv 10 false ;;
    put_number d neg None flags width prec ;; ret ap
  else if (c =? 117) || (c =? 111) || (c =? 120) || (c =? 88) then
    let* (v, ap) := if 1 <=? lng then let* (v, ap) := va_long ap in ret (u64 v, ap)
                    else let* (v, ap) := va_int ap in ret (u32 v, ap) in
    let base := if c =? 111 then 8 else if c =? 117 then 10 else 16 in
    d <- utoa v base (c =? 88) ;;
    let pre := if has_flag flags F_HASH && negb (v =? 0) then
                 if c =? 120 then Some (str "0x")
                 else if c =? 88 then Some (str "0X")
                 else if c =? 111 then Some (str "0") else None
               else None in
    put_number d false pre flags width prec ;; ret ap
  else if c =? 112 then
    let* (v, ap) := va_long ap in
    d <- utoa (u64 v) 16 false ;;
    put_number d false (Some (str "0x")) flags width prec ;; ret ap
  else if c =? 99 then
    let* (v, ap) := va_int ap in
    let ch := u8 v in
    let space := width - 1 in
    (if negb (has_flag flags F_MINUS) then pad 32 space else ret tt) ;;
    emit [ch] ;;
    (if has_flag flags F_MINUS then pad 32 space else ret tt) ;; ret ap
  else if c =? 115 then
    let* (s, ap) := va_str ap in
    put_str s flags width prec ;; ret ap
  else if existsb (Z.eqb c) (str "fFeEgGaA") then
    match ap with
    | VLongDouble x :: ap => if ldbl then put_float (VLongDouble x) c flags width prec ;; ret ap else fault
    | VDouble x :: ap => if ldbl then fault else put_float (VDouble x) c flags width prec ;; ret ap
    | _ => fault
    end
  else if c =? 110 then
    let* (np, ap) := va_long ap in
    n <- out_len ;;
    store_n (u64 np) lng n ;; ret ap
  else if c =? 37 then emit [37] ;; ret ap
  else emit [37] ;; emit [c] ;; ret ap.

Definition vformat (fmt : bytes) (ap : list va_slot) : M S Z :=
  loop (λ '(f, ap),
    c <- chr fmt f ;;
    if c =? 0 then ret (Break tt)
    else if negb (c =? 37) then emit [c] ;; ret (Continue (f + 1, ap))
    else
      let* (f, flags) := parse_flags fmt (f + 1) in
      let* (f, width, flags, ap) := parse_width fmt f flags ap in
      let* (f, prec, ap) := parse_prec fmt f ap in
      let* (f, lng, ldbl) := parse_length fmt f in
      c <- chr fmt f ;;
      if c =? 0 then ret (Continue (f, ap))    (* a trailing '%' *)
      else ap <- convert c flags width prec lng ldbl ap ;; ret (Continue (f + 1, ap))) (0, ap) ;;
  len <- out_len ;; ret (s32 len).
End printf.

(** ** The emitters *)

(** [struct out] of snprintf: the bytes stored in [dst], the limit, the length
    produced; and what %n stored. *)
Record out := Out { o_dst : bytes; o_cap : Z; o_len : Z; o_stores : list (Z * Z * Z) }.

Definition emit_str (s : bytes) : M out unit :=
  loop (λ i,
    if i <? zlen s then
      c <- of_option (idx s i) ;;
      o <- get ;;
      dst <- (if u64 (o_len o + 1) <? o_cap o then push (o_cap o) (o_dst o) c else ret (o_dst o)) ;;
      put (Out dst (o_cap o) (u64 (o_len o + 1)) (o_stores o)) ;;
      ret (Continue (i + 1))
    else ret (Break tt)) 0.

Definition str_len : M out Z := gets o_len.
(** The width of the store follows the length modifier. *)
Definition str_store_n (np lng n : Z) : M out unit :=
  let v := if 1 <=? lng then s64 n else s32 n in
  modify (λ o, Out (o_dst o) (o_cap o) (o_len o) (o_stores o ++ [(np, lng, v)])).

Section family.
Context (fmt_fp : va_slot → Z → Z → Z → Z → bytes).

(** vformat over the string emitter, [n] the size of the buffer. *)
Definition format_str (n : Z) (fmt : bytes) (ap : list va_slot) : outcome out Z :=
  vformat emit_str str_len str_store_n fmt_fp fmt ap (Out [] n 0 []).

(** The result, the buffer's contents with the terminator, the stores of %n. *)
Definition vsnprintf {S} (n : Z) (fmt : bytes) (ap : list va_slot) : M S (Z * bytes * list (Z * Z * Z)) := λ st,
  match format_str n fmt ap with
  | Ret r o =>
      if n =? 0 then Ret (r, [], o_stores o) st
      else
        let at_ := if o_len o <? n then o_len o else n - 1 in
        (* s[at] = 0 *)
        if zlen (o_dst o) =? at_ then Ret (r, o_dst o ++ [0], o_stores o) st else Fault
  | Halt code _ => Halt code st
  | Fault => Fault
  | Diverge => Diverge
  end.
Definition snprintf {S} (n : Z) (fmt : bytes) (ap : list va_slot) : M S (Z * bytes * list (Z * Z * Z)) :=
  vsnprintf n fmt ap.
(** The destination is as long as the text needs. *)
Definition vsprintf {S} (fmt : bytes) (ap : list va_slot) : M S (Z * bytes * list (Z * Z * Z)) := λ st,
  match format_str SIZE_MAX fmt ap with
  | Ret r o => if zlen (o_dst o) =? o_len o then Ret (r, o_dst o ++ [0], o_stores o) st else Fault
  | Halt code _ => Halt code st
  | Fault => Fault
  | Diverge => Diverge
  end.
Definition sprintf {S} (fmt : bytes) (ap : list va_slot) : M S (Z * bytes * list (Z * Z * Z)) :=
  vsprintf fmt ap.

(** [alloc n]: can malloc serve [n] bytes? *)
Definition vasprintf {S} (alloc : Z → M S bool) (fmt : bytes) (ap : list va_slot) : M S (Z * option bytes) :=
  let* (n, _, _) := vsnprintf 0 fmt ap in
  if n <? 0 then ret (-1, None)
  else
    ok <- alloc (n + 1) ;;
    if negb ok then ret (-1, None)
    else let* (_, b, _) := vsnprintf (n + 1) fmt ap in ret (n, Some b).
Definition asprintf {S} (alloc : Z → M S bool) (fmt : bytes) (ap : list va_slot) : M S (Z * option bytes) :=
  vasprintf alloc fmt ap.
End family.

(** * Digits *)

Lemma idx_digits_of upper d : 0 ≤ d < 16 →
  ∃ c, idx (digits_of upper) d = Some c ∧ digit_val c = d ∧ 48 ≤ c < 128.
Proof.
  intros Hd. assert (forallb (λ n, match idx (digits_of upper) (Z.of_nat n) with
    | Some c => (digit_val c =? Z.of_nat n) && (48 <=? c) && (c <? 128) | None => false end) (seq 0 16) = true)
    as Hall%Is_true_eq_left%forallb_True by (by destruct upper).
  rewrite Forall_forall in Hall. specialize (Hall (Z.to_nat d) ltac:(apply elem_of_seq; lia)).
  rewrite Z2Nat.id in Hall by lia. apply Is_true_eq_true in Hall.
  destruct (idx (digits_of upper) d) as [c|]; [|done]. exists c. split; [done|lia].
Qed.

Lemma digits_val_acc base a ds :
  foldl (λ a c, a * base + digit_val c) a ds = a * base ^ zlen ds + digits_val base ds.
Proof.
  unfold digits_val. revert a. induction ds as [|c ds IH]; intros a; cbn [foldl].
  - change (zlen []) with 0. lia.
  - rewrite IH, (IH (0 * base + digit_val c)), zlen_cons, Z.pow_add_r, Z.pow_1_r by zlen_lia. lia.
Qed.

Lemma digits_val_cons base c ds :
  digits_val base (c :: ds) = digit_val c * base ^ zlen ds + digits_val base ds.
Proof. unfold digits_val at 1. cbn [foldl]. rewrite digits_val_acc. lia. Qed.

(** A numeral: digits of the base, with the given value. *)
Definition numeral (base v : Z) (ds : bytes) : Prop :=
  Forall (λ c, digit_val c < base ∧ 48 ≤ c < 128) ds ∧ digits_val base ds = v.

Lemma numeral_48 base : 8 ≤ base → numeral base 0 [48].
Proof.
  intros. split; [|reflexivity]. constructor; [|done]. change (digit_val 48) with 0. lia.
Qed.

(** At most 22 digits stand for a 64-bit value. *)
Lemma pow_digits base v k : 8 ≤ base → v < 18446744073709551616 → base ^ k ≤ v → k < 22.
Proof.
  intros Hb Hv Hle. destruct (decide (k < 22)); [done|exfalso].
  assert (8 ^ 22 ≤ base ^ k) as H8.
  { etrans; [apply (Z.pow_le_mono_r 8 22 k); lia|]. apply Z.pow_le_mono_l. lia. }
  assert (8 ^ 22 = 73786976294838206464) as E8 by reflexivity. lia.
Qed.

(** The digits [p] written so far are the low end of [v]; [v'] is what is left. *)
Record utoa_inv (base v v' : Z) (p : bytes) : Prop := {
  ui_nonneg : 0 ≤ v';
  ui_numeral : numeral base (v - v' * base ^ zlen p) p;
  ui_low : v' * base ^ zlen p ≤ v;
  ui_done : v' = 0 → 0 < zlen p;
  ui_pow : p ≠ [] → v ≠ 0 → base ^ (zlen p - 1) ≤ v;
  ui_zero : v = 0 → zlen p ≤ 1;
}.

Lemma utoa_inv_len base v v' p : 8 ≤ base → v < 18446744073709551616 → utoa_inv base v v' p → zlen p ≤ 22.
Proof.
  intros Hb Hv [_ _ _ _ Hpow Hz]. destruct p as [|c p]; [done|].
  destruct (decide (v = 0)) as [E0|E0]; [specialize (Hz E0); lia|].
  pose proof (pow_digits base v _ Hb Hv (Hpow ltac:(done) E0)). lia.
Qed.

Lemma utoa_inv_step base v v' p c : 8 ≤ base ≤ 16 → v < 18446744073709551616 → v' ≠ 0 →
  utoa_inv base v v' p → digit_val c = v' mod base → 48 ≤ c < 128 →
  zlen p < 22 ∧ utoa_inv base v (v' / base) (c :: p).
Proof.
  intros Hb Hv Hne [Hv' [Hd Hval] Hle Hdone Hpow Hz] Hc Hr.
  pose proof (Z.pow_pos_nonneg base (zlen p) ltac:(lia) (zlen_nonneg p)) as Hpp.
  assert (base ^ (1 + zlen p) = base * base ^ zlen p) as Epow
    by (rewrite Z.pow_add_r, Z.pow_1_r by zlen_lia; done).
  assert (v' = base * (v' / base) + v' mod base) as Ediv by (apply Z.div_mod; lia).
  split; [apply (pow_digits base v); nia|].
  split; rewrite ?zlen_cons, ?Epow.
  - apply Z.div_pos; lia.
  - split; [constructor; [lia|done]|]. rewrite digits_val_cons, Hval, Hc. nia.
  - nia.
  - intros _. zlen_lia.
  - intros _ _. replace (1 + zlen p - 1) with (zlen p) by lia. nia.
  - intros ->. nia.
Qed.

Lemma utoa_run_pow {S} v base upper (st : S) :
  0 ≤ v < 18446744073709551616 → 8 ≤ base ≤ 16 →
  ∃ ds, utoa v base upper st = Ret ds st ∧ numeral base v ds ∧ 0 < zlen ds ≤ 22 ∧ (v ≠ 0 → base ^ (zlen ds - 1) ≤ v).
Proof.
  intros Hv Hb.
  assert (wp (utoa v base upper) (λ ds st', st' = st ∧ numeral base v ds ∧ 0 < zlen ds ≤ 22 ∧
    (v ≠ 0 → base ^ (zlen ds - 1) ≤ v)) st) as Hw.
  2:{ apply wp_inv in Hw as (ds & st' & E & -> & ? & ? & ?). by exists ds. }
  unfold utoa. cbn zeta. rewrite u32_id by lia. apply wp_bind.
  apply (wp_mono _ (λ p st', st' = st ∧ utoa_inv base v v p)).
  - destruct (Z.eqb_spec v 0) as [->|Hne].
    + apply wp_ret. split; [done|]. split; rewrite ?Z.mul_0_l; try done; try lia; apply numeral_48; lia.
    + apply wp_ret. split; [done|]. change (zlen []) with 0.
      split; change (zlen []) with 0; rewrite ?Z.pow_0_r, ?Z.mul_1_r, ?Z.sub_diag; try done; try lia.
  - intros p0 ? [-> Hinv0].
    apply (wp_loop _ (λ '(v', p) st', st' = st ∧ utoa_inv base v v' p) (λ '(v', _) _, v')); [| |done|lia].
    + intros [v' p] st' [_ [? _ _ _ _ _]]. done.
    + intros [v' p] st' [-> Hinv]. pose proof (ui_nonneg _ _ _ _ Hinv).
      destruct (Z.eqb_spec v' 0) as [->|Hne].
      * apply wp_ret. split; [done|].
        pose proof (utoa_inv_len base v 0 p ltac:(lia) ltac:(lia) Hinv). destruct Hinv as [_ Hn _ Hd Hpow _].
        rewrite Z.mul_0_l, Z.sub_0_r in Hn. split; [done|]. specialize (Hd eq_refl). split; [lia|].
        intros Hv0. apply Hpow; [|done]. intros ->. by change (zlen []) with 0 in Hd.
      * destruct (idx_digits_of upper (v' mod base)) as (c & Hc & Hdc & Hcr); [lia|].
        destruct (utoa_inv_step base v v' p c Hb ltac:(lia) Hne Hinv Hdc Hcr) as [Hlen Hinv'].
        apply wp_bind. rewrite Hc. apply wp_ret. apply wp_bind. unfold push_front.
        replace (zlen p <? 31) with true by lia. apply wp_ret, wp_ret.
        split; [done|]. apply Z.div_lt; lia.
Qed.

Lemma utoa_run {S} v base upper (st : S) :
  0 ≤ v < 18446744073709551616 → 8 ≤ base ≤ 16 →
  ∃ ds, utoa v base upper st = Ret ds st ∧ numeral base v ds ∧ 0 < zlen ds ≤ 22.
Proof. intros Hv Hb. destruct (utoa_run_pow v base upper st Hv Hb) as (ds & ? & ? & ? & _). by exists ds. Qed.

Lemma number_at_numeral base v ds rest : 8 ≤ base ≤ 16 → numeral base v ds → ds ≠ [] →
  base ≤ digit_val (hd 0 rest) → (base = 16 → hd 0 rest ≠ 120 ∧ hd 0 rest ≠ 88) →
  number_at (ds ++ rest) base = (false, v, zlen ds).
Proof.
  intros Hb [Hd Hv] Hne Hr Hx. unfold number_at.
  destruct ds as [|c ds]; [done|]. pose proof (Forall_inv Hd) as [Hc1 Hc2]. cbn [app].
  assert (isspace c = false) as Hsp by (unfold isspace; lia).
  cbn [take_while]. rewrite Hsp. change (zlen []) with 0. rewrite dropZ_0.
  unfold skip_sign. replace (c =? 45) with false by lia. replace (c =? 43) with false by lia.
  assert (((base =? 0) || (base =? 16)) && hex_prefix (c :: ds ++ rest) = false) as Hhex.
  { destruct (Z.eqb_spec base 0); [lia|]. destruct (Z.eqb_spec base 16) as [->|]; [|done]. cbn [orb andb].
    destruct ds as [|x ds].
    - cbn [app]. destruct rest as [|x [|d rest]]; [done..|]. unfold hex_prefix. cbn [hd] in Hr.
      specialize (Hx eq_refl). cbn [hd] in Hx. replace (x =? 120) with false by lia.
      replace (x =? 88) with false by lia. by rewrite andb_false_r.
    - cbn [app]. apply Forall_inv_tail, Forall_inv in Hd as [Hdx _]. unfold hex_prefix.
      destruct (ds ++ rest); [done|].
      destruct (Z.eqb_spec x 120) as [->|]; [done|]. destruct (Z.eqb_spec x 88) as [->|]; [done|].
      by rewrite andb_false_r. }
  unfold radix. rewrite Hhex. replace (base =? 0) with false by lia.
  change (c :: ds ++ rest) with ((c :: ds) ++ rest).
  rewrite (take_while_stop (λ c, digit_val c <? base) (c :: ds) rest).
  - rewrite Hv. replace (0 <? zlen (c :: ds)) with true by zlen_lia. f_equal. zlen_lia.
  - eapply Forall_impl; [exact Hd|]. cbn beta. intros x [? _]. lia.
  - intros x r ->. cbn [hd] in Hr. lia.
Qed.

(** * The buffer of snprintf holds a prefix of the full text

    [emit_full] collects everything; running vformat on it gives the text the
    format denotes. *)

Record full := Full { f_text : bytes; f_stores : list (Z * Z * Z) }.
Definition emit_full (s : bytes) : M full unit := modify (λ f, Full (f_text f ++ s) (f_stores f)).
Definition full_len : M full Z := gets (λ f, zlen (f_text f)).
Definition full_store_n (np lng n : Z) : M full unit :=
  modify (λ f, Full (f_text f) (f_stores f ++ [(np, lng, if 1 <=? lng then s64 n else s32 n)])).

(** The text, the arguments of %n and the result of a format. *)
Definition format_full fmt_fp (fmt : bytes) (ap : list va_slot) : outcome full Z :=
  vformat emit_full full_len full_store_n fmt_fp fmt ap (Full [] []).

Lemma format_full_eq : format_full =
  λ fmt_fp fmt ap, vformat emit_full full_len full_store_n fmt_fp fmt ap (Full [] []).
Proof. reflexivity. Qed.

Section refine.
Context (n : Z).

(** A buffer of [n] bytes after the text [f_text t] was produced. *)
Definition holds (o : out) (t : full) : Prop :=
  o_cap o = n ∧ o_len o = zlen (f_text t) ∧ o_dst o = takeZ (n - 1) (f_text t) ∧
  o_stores o = f_stores t.

Definition refines {A} (c1 : M out A) (c2 : M full A) : Prop :=
  ∀ o t a t', holds o t → c2 t = Ret a t' →
    zlen (f_text t) ≤ zlen (f_text t') ∧
    (zlen (f_text t') < SIZE_MAX → ∃ o', c1 o = Ret a o' ∧ holds o' t').

Lemma refines_ret {A} (a : A) : refines (ret a) (ret a).
Proof using. intros o t b t' Ho [= <- <-]. split; [lia|]. eauto. Qed.

Lemma refines_fault {A} : refines (@fault out A) fault.
Proof using. by intros o t b t' Ho. Qed.

Lemma refines_bind {A B} (c1 : M out A) (c2 : M full A) (k1 : A → M out B) (k2 : A → M full B) :
  refines c1 c2 → (∀ a, refines (k1 a) (k2 a)) → refines (bind c1 k1) (bind c2 k2).
Proof using.
  intros Hc Hk o t b t' Ho E. unfold bind in E. destruct (c2 t) as [a t1| | |] eqn:E1; try done.
  destruct (Hc o t a t1 Ho E1) as [Hl1 H1]. split.
  - destruct (decide (zlen (f_text t1) < SIZE_MAX)) as [Hlt|].
    + destruct (H1 Hlt) as (o1 & _ & Ho1). destruct (Hk a o1 t1 b t' Ho1 E) as [? _]. lia.
    + assert (holds (Out (takeZ (n - 1) (f_text t1)) n (zlen (f_text t1)) (f_stores t1)) t1) as Ho1 by done.
      destruct (Hk a _ t1 b t' Ho1 E) as [? _]. lia.
  - intros Hlt. destruct (decide (zlen (f_text t1) < SIZE_MAX)) as [Hlt1|Hge].
    + destruct (H1 Hlt1) as (o1 & Eo1 & Ho1). destruct (Hk a o1 t1 b t' Ho1 E) as [_ H2].
      destruct (H2 Hlt) as (o2 & Eo2 & Ho2). exists o2. split; [|done].
      by rewrite (bind_run _ _ _ _ _ Eo1).
    + exfalso. assert (holds (Out (takeZ (n - 1) (f_text t1)) n (zlen (f_text t1)) (f_stores t1)) t1) as Ho1 by done.
      destruct (Hk a _ t1 b t' Ho1 E) as [? _]. lia.
Qed.

Lemma refines_iter {X A} (b1 : X → M out (step X A)) (b2 : X → M full (step X A)) p x :
  (∀ x, refines (b1 x) (b2 x)) → refines (iter_pos b1 p x) (iter_pos b2 p x).
Proof using.
  intros Hb. revert x. induction p as [p IH|p IH|]; intros x; cbn [iter_pos]; [| |apply Hb].
  - apply refines_bind; [apply Hb|]. intros [x'|r]; [|apply refines_ret].
    apply refines_bind; [apply IH|]. intros [x''|r]; [apply IH|apply refines_ret].
  - apply refines_bind; [apply IH|]. intros [x'|r]; [apply IH|apply refines_ret].
Qed.

Lemma refines_loop {X A} (b1 : X → M out (step X A)) (b2 : X → M full (step X A)) x :
  (∀ x, refines (b1 x) (b2 x)) → refines (loop b1 x) (loop b2 x).
Proof using.
  intros Hb. unfold loop. apply refines_bind; [by apply refines_iter|].
  intros [x'|r]; [by intros ????|apply refines_ret].
Qed.

Lemma refines_of_option {A} (x : option A) : refines (of_option x) (of_option x).
Proof using. destruct x; [apply refines_ret|apply refines_fault]. Qed.

Lemma refines_chr s i : refines (chr s i) (chr s i).
Proof using. unfold chr. case_decide; [apply refines_ret|apply refines_of_option]. Qed.

Lemma refines_int_ok x : refines (int_ok x) (int_ok x).
Proof using. unfold int_ok. case_decide; [apply refines_ret|apply refines_fault]. Qed.

(** One character more. *)
Lemma holds_snoc o t c : 0 ≤ n → holds o t → zlen (f_text t) + 1 < SIZE_MAX →
  ∃ o', (o <- get ;;
      dst <- (if u64 (o_len o + 1) <? o_cap o then push (o_cap o) (o_dst o) c else ret (o_dst o)) ;;
      put (Out dst (o_cap o) (u64 (o_len o + 1)) (o_stores o))) o = Ret tt o' ∧
    holds o' (Full (f_text t ++ [c]) (f_stores t)).
Proof using.
  intros Hn (Hcap & Hlen & Hdst & Hst) Hmax. pose proof (zlen_nonneg (f_text t)).
  unfold SIZE_MAX in Hmax. unfold bind, get, put. rewrite Hcap, Hlen, u64_id by lia.
  destruct (Z.ltb_spec (zlen (f_text t) + 1) n).
  - assert (o_dst o = f_text t) as -> by (rewrite Hdst; apply takeZ_all; lia).
    rewrite push_run by lia. eexists. split; [reflexivity|]. split_and!; simpl; try done.
    + zlen_lia.
    + rewrite takeZ_all; [done|zlen_lia].
  - eexists. split; [reflexivity|]. split_and!; simpl; try done; [zlen_lia|].
    rewrite Hdst. unfold takeZ. rewrite take_app_le; [done|]. unfold zlen in *. lia.
Qed.

Lemma refines_emit s : 0 ≤ n → refines (emit_str s) (emit_full s).
Proof using.
  intros Hn o t a t' Ho [= <- <-]. cbn [f_text f_stores]. split; [zlen_lia|]. intros Hmax.
  rewrite zlen_app in Hmax. unfold SIZE_MAX in Hmax. pose proof (zlen_nonneg (f_text t)).
  assert (wp (emit_str s) (λ _ o', holds o' (Full (f_text t ++ s) (f_stores t))) o) as Hw.
  2:{ apply wp_inv in Hw as ([] & o' & E & Ho'). eauto. }
  unfold emit_str.
  apply (wp_loop _ (λ i o', 0 ≤ i ≤ zlen s ∧ holds o' (Full (f_text t ++ takeZ i s) (f_stores t)))
    (λ i _, zlen s - i)); [| | |lia].
  - intros i o' [? _]. lia.
  - intros i o' [Hi Ho']. destruct (Z.ltb_spec i (zlen s)).
    + destruct (idx_is_Some s i) as [c Hc]; [lia|]. rewrite Hc. apply wp_bind, wp_ret.
      destruct (holds_snoc o' _ c Hn Ho') as (o2 & E & Ho2).
      { cbn [f_text]. rewrite zlen_app, zlen_takeZ by lia. unfold SIZE_MAX. lia. }
      cbn [f_text f_stores] in Ho2. rewrite <- app_assoc, <- (takeZ_snoc _ _ _ Hc) in Ho2.
      unfold wp, wpx, bind at 1 2 3. unfold bind, get, put in E |- *.
      destruct (if u64 (o_len o' + 1) <? o_cap o' then _ else _) as [dst o3| | |]; try done.
      injection E as E. rewrite E. split; [split; [lia|done]|lia].
    + apply wp_ret. by rewrite takeZ_all in Ho' by lia.
  - split; [zlen_lia|]. rewrite takeZ_0, app_nil_r. by destruct t.
Qed.

Lemma refines_len : refines str_len full_len.
Proof using.
  intros o t a t' Ho [= <- <-]. split; [lia|]. intros _. exists o. split; [|done].
  unfold str_len, gets. by destruct Ho as (_ & -> & _).
Qed.

Lemma refines_store np lng v : refines (str_store_n np lng v) (full_store_n np lng v).
Proof using.
  intros o t a t' (H1 & H2 & H3 & H4) [= <- <-]. split; [simpl; lia|]. intros _.
  eexists. split; [reflexivity|]. split_and!; simpl; try done. by rewrite H4.
Qed.
End refine.

Create HintDb printf discriminated.
#[export] Hint Constants Opaque : printf.
#[export] Hint Resolve refines_ret refines_fault refines_chr refines_int_ok refines_of_option
  refines_len refines_store : printf.

(** Structural proof that two runs of the same code refine each other. *)
Ltac refine_code :=
  repeat (cbn beta iota zeta; lazymatch goal with
  | |- refines _ (bind _ _) (bind _ _) => apply refines_bind; [|intros ?]
  | |- refines _ (loop _ _) (loop _ _) => apply refines_loop; intros ?
  | |- refines _ (if ?b then _ else _) _ => destruct b
  | |- refines _ (match ?x with _ => _ end) _ => destruct x
  | |- _ => solve [eauto 3 with printf nocore]
  end).

Section vformat_refines.
Context (n : Z) (Hn : 0 ≤ n) (fmt_fp : va_slot → Z → Z → Z → Z → bytes).

Lemma refines_pad c k : refines n (pad emit_str c k) (pad emit_full c k).
Proof using Hn. unfold pad. pose proof (refines_emit n). refine_code. Qed.
Hint Resolve refines_pad : printf.

Lemma refines_put_number d neg pre flags w p :
  refines n (put_number emit_str d neg pre flags w p) (put_number emit_full d neg pre flags w p).
Proof using Hn. unfold put_number. pose proof (λ s, refines_emit n s Hn). refine_code. Qed.
Hint Resolve refines_put_number : printf.
Lemma refines_put_str s flags w p : refines n (put_str emit_str s flags w p) (put_str emit_full s flags w p).
Proof using Hn. unfold put_str. pose proof (λ s, refines_emit n s Hn). refine_code. Qed.
Hint Resolve refines_put_str : printf.

Lemma refines_put_float v c flags w p :
  refines n (put_float emit_str fmt_fp v c flags w p) (put_float emit_full fmt_fp v c flags w p).
Proof using Hn. unfold put_float. by apply refines_emit. Qed.
Hint Resolve refines_put_float : printf.

Lemma refines_va_int ap : refines n (va_int ap) (va_int ap).
Proof using. unfold va_int. refine_code. Qed.
Lemma refines_va_long ap : refines n (va_long ap) (va_long ap).
Proof using. unfold va_long. refine_code. Qed.
Lemma refines_va_str ap : refines n (va_str ap) (va_str ap).
Proof using. unfold va_str. refine_code. Qed.
Hint Resolve refines_va_int refines_va_long refines_va_str : printf.

Lemma refines_neg_signed mx v : refines n (neg_signed mx v) (neg_signed mx v).
Proof using. unfold neg_signed. refine_code. Qed.
Lemma refines_push_front cap p c : refines n (push_front cap p c) (push_front cap p c).
Proof using. unfold push_front. refine_code. Qed.
Hint Resolve refines_neg_signed refines_push_front : printf.

Lemma refines_utoa v base upper : refines n (utoa v base upper) (utoa v base upper).
Proof using. unfold utoa. refine_code. Qed.
Lemma refines_parse_flags fmt f : refines n (parse_flags fmt f) (parse_flags fmt f).
Proof using. unfold parse_flags. refine_code. Qed.
Lemma refines_parse_int fmt f : refines n (parse_int fmt f) (parse_int fmt f).
Proof using. unfold parse_int. refine_code. Qed.
Hint Resolve refines_utoa refines_parse_flags refines_parse_int : printf.
Lemma refines_parse_width fmt f flags ap : refines n (parse_width fmt f flags ap) (parse_width fmt f flags ap).
Proof using. unfold parse_width. refine_code. Qed.
Lemma refines_parse_prec fmt f ap : refines n (parse_prec fmt f ap) (parse_prec fmt f ap).
Proof using. unfold parse_prec. refine_code. Qed.
Lemma refines_parse_length fmt f : refines n (parse_length fmt f) (parse_length fmt f).
Proof using. unfold parse_length. refine_code. Qed.
Hint Resolve refines_parse_width refines_parse_prec refines_parse_length : printf.

Lemma refines_convert c flags w p lng ldbl ap :
  refines n (convert emit_str str_len str_store_n fmt_fp c flags w p lng ldbl ap)
    (convert emit_full full_len full_store_n fmt_fp c flags w p lng ldbl ap).
Proof using Hn. unfold convert. pose proof (λ s, refines_emit n s Hn). refine_code. Qed.
Hint Resolve refines_convert : printf.

Lemma refines_vformat fmt ap :
  refines n (vformat emit_str str_len str_store_n fmt_fp fmt ap)
    (vformat emit_full full_len full_store_n fmt_fp fmt ap).
Proof using Hn. unfold vformat. pose proof (λ s, refines_emit n s Hn). refine_code. Qed.
End vformat_refines.

(** * What a number looks like *)

(** The field of an integer conversion: sign, prefix, zeros, digits, padded
    with blanks to the width. *)
Definition number_body (digits : bytes) (neg : bool) (prefix : option bytes) (flags width prec : Z) : bytes :=
  let sign := if neg then [45] else if has_flag flags F_PLUS then [43]
              else if has_flag flags F_SPACE then [32] else [] in
  let pre := default [] prefix in
  let want := if 0 <=? prec then prec
              else if has_flag flags F_ZERO && negb (has_flag flags F_MINUS)
              then width - zlen sign - zlen pre else 0 in
  sign ++ pre ++ replicate (Z.to_nat (want - zlen digits)) 48 ++ digits.
Definition number_field (digits : bytes) (neg : bool) (prefix : option bytes) (flags width prec : Z) : bytes :=
  let body := number_body digits neg prefix flags width prec in
  let blanks := replicate (Z.to_nat (width - zlen body)) 32 in
  if has_flag flags F_MINUS then body ++ blanks else blanks ++ body.

Lemma emit_full_run s t st : emit_full s (Full t st) = Ret tt (Full (t ++ s) st).
Proof. done. Qed.

Lemma pad_full_run c k t st : k < 18446744073709551616 →
  pad emit_full c k (Full t st) = Ret tt (Full (t ++ replicate (Z.to_nat k) c) st).
Proof.
  intros Hk. unfold pad.
  apply wp_Ret. apply (wp_loop _ (λ k' s, k' ≤ k ∧ (k' < 0 → k' = k) ∧
      s = Full (t ++ replicate (Z.to_nat k - Z.to_nat k') c) st) (λ k' _, Z.max 0 k')).
  - intros; lia.
  - intros k' s (Hle & Hneg & ->). destruct (Z.ltb_spec 0 k').
    + cbn zeta. set (j := if 16 <? k' then 16 else k'). assert (0 < j ≤ k') by (subst j; destruct (16 <? k') eqn:?; lia).
      apply wp_bind. eapply wp_of_eq; [apply emit_full_run|]. apply wp_ret. split_and!; [lia..| |lia].
      f_equal. rewrite <- app_assoc, <- replicate_add. do 2 f_equal. lia.
    + apply wp_ret. split; [done|]. do 3 f_equal. lia.
  - split_and!; [lia..|]. by rewrite Nat.sub_diag, app_nil_r.
  - lia.
Qed.

Lemma put_number_full_run digits neg prefix flags width prec t st :
  INT_MIN ≤ width ≤ INT_MAX →
  zlen digits + zlen (default [] prefix) ≤ 1000000 → prec + zlen (default [] prefix) ≤ INT_MAX - 1 →
  -1 ≤ width →
  put_number emit_full digits neg prefix flags width prec (Full t st) =
    Ret tt (Full (t ++ number_field digits neg prefix flags width prec) st).
Proof.
  unfold INT_MIN, INT_MAX. intros Hw Hd Hpp Hw1.
  pose proof (zlen_nonneg digits). pose proof (zlen_nonneg (default [] prefix)).
  unfold put_number. cbn zeta.
  set (sign := if neg then [45] else if has_flag flags F_PLUS then [43]
        else if has_flag flags F_SPACE then [32] else []).
  assert (0 ≤ zlen sign ≤ 1) as Hs.
  { subst sign. repeat case_match; change (zlen [45]) with 1; change (zlen [43]) with 1;
      change (zlen [32]) with 1; change (zlen (@nil Z)) with 0; lia. }
  replace (match prefix with Some s => zlen s | None => 0 end) with (zlen (default [] prefix))
    by (by destruct prefix).
  set (zeros := if has_flag flags F_ZERO && (prec <? 0) && negb (has_flag flags F_MINUS) && _ then _ else _).
  set (want := if 0 <=? prec then prec
              else if has_flag flags F_ZERO && negb (has_flag flags F_MINUS)
              then width - zlen sign - zlen (default [] prefix) else 0).
  assert (zeros = Z.max 0 (want - zlen digits)) as Hz.
  { subst zeros want. destruct (Z.leb_spec 0 prec), (has_flag flags F_ZERO), (has_flag flags F_MINUS);
      replace (prec <? 0) with (negb (0 <=? prec)) by lia; cbn [andb negb];
      repeat match goal with |- context [?a <? ?b] => destruct (Z.ltb_spec a b) end; try lia.
    all: destruct (Z.leb_spec 0 prec); cbn [negb andb]; try lia.
    all: repeat match goal with |- context [?a <? ?b] => destruct (Z.ltb_spec a b) end; lia. }
  assert (want ≤ 2147483647) as Hwant by (subst want; repeat case_match; lia).
  assert (0 ≤ zeros ≤ 2147483647) by lia.
  assert (zlen sign + zlen (default [] prefix) + zeros + zlen digits ≤ 2147483647) as Hbody.
  { rewrite Hz. subst want. destruct (Z.leb_spec 0 prec); [lia|].
    destruct (has_flag flags F_ZERO && negb (has_flag flags F_MINUS)); lia. }
  unfold int_ok.
  rewrite decide_True by (unfold INT_MIN, INT_MAX; lia). rewrite bind_ret.
  rewrite decide_True by (unfold INT_MIN, INT_MAX; lia). rewrite bind_ret.
  unfold number_field. set (body := number_body _ _ _ _ _ _).
  assert (body = sign ++ default [] prefix ++ replicate (Z.to_nat zeros) 48 ++ digits) as Ebody.
  { unfold body, number_body. fold sign. cbn zeta. fold want. do 4 f_equal. lia. }
  assert (zlen body = zlen sign + zlen (default [] prefix) + zeros + zlen digits) as Hlb.
  { rewrite Ebody, !zlen_app, zlen_replicate. lia. }
  rewrite <- Hlb. set (blanks := replicate (Z.to_nat (width - zlen body)) 32).
  rewrite (bind_run _ _ tt _ (Full (t ++ if has_flag flags F_MINUS then [] else blanks) st)).
  2:{ destruct (has_flag flags F_MINUS); cbn [negb]; [by rewrite app_nil_r|]. apply pad_full_run. lia. }
  rewrite (bind_run _ _ tt _ (Full ((t ++ if has_flag flags F_MINUS then [] else blanks) ++ sign) st)).
  2:{ destruct sign; [by rewrite app_nil_r|done]. }
  rewrite (bind_run _ _ tt _ (Full (((t ++ if has_flag flags F_MINUS then [] else blanks) ++ sign) ++ default [] prefix) st)).
  2:{ destruct prefix; [done|by rewrite app_nil_r]. }
  rewrite (bind_run _ _ _ _ _ (pad_full_run 48 zeros _ _ ltac:(lia))).
  rewrite (bind_run _ _ _ _ _ (emit_full_run _ _ _)).
  destruct (has_flag flags F_MINUS).
  - rewrite (pad_full_run 32 (width - zlen body)) by lia. fold blanks. rewrite Ebody.
    by rewrite !app_nil_r, <- !app_assoc.
  - unfold ret. by rewrite Ebody, <- !app_assoc.
Qed.

(** Leading zeros do not change a numeral. *)
Lemma numeral_zeros base v k ds : 8 ≤ base → numeral base v ds → numeral base v (replicate k 48 ++ ds).
Proof.
  intros Hb [Hd Hv]. induction k as [|k [IHd IHv]]; [done|]. cbn [replicate app]. split.
  - constructor; [change (digit_val 48) with 0; lia|done].
  - rewrite digits_val_cons, IHv. change (digit_val 48) with 0. lia.
Qed.

(** Reading a decimal field back: blanks, sign, digits, and no digit behind. *)
Lemma number_at_field k (neg : bool) v ds rest : numeral 10 v ds → ds ≠ [] → 10 ≤ digit_val (hd 0 rest) →
  number_at (replicate k 32 ++ (if neg then [45] else []) ++ ds ++ rest) 10
  = (neg, v, Z.of_nat k + (if neg then 1 else 0) + zlen ds).
Proof.
  intros Hn Hne Hr. pose proof (number_at_numeral 10 v ds rest ltac:(lia) Hn Hne Hr ltac:(lia)) as Hat.
  destruct Hn as [Hd Hv]. destruct ds as [|c ds]; [done|]. pose proof (Forall_inv Hd) as [Hc1 Hc2].
  assert (isspace c = false) as Hsp by (unfold isspace; lia).
  set (r := (if neg then [45] else []) ++ (c :: ds) ++ rest).
  assert (take_while isspace (replicate k 32 ++ r) = replicate k 32) as Htw.
  { apply take_while_stop; [by apply Forall_replicate|]. intros x r' E. subst r.
    destruct neg; injection E as <- _; [done|done]. }
  unfold number_at. rewrite Htw, dropZ_app_zlen.
  unfold number_at in Hat. cbn [app take_while] in Hat. rewrite Hsp in Hat. change (zlen []) with 0 in Hat.
  rewrite dropZ_0 in Hat. unfold skip_sign in Hat.
  replace (c =? 45) with false in Hat by lia. replace (c =? 43) with false in Hat by lia.
  assert (skip_sign r = (neg, (c :: ds) ++ rest)) as ->.
  { subst r. destruct neg; [done|]. cbn [app]. unfold skip_sign.
    replace (c =? 45) with false by lia. by replace (c =? 43) with false by lia. }
  cbn [app]. destruct (radix 10 (c :: ds ++ rest)) as [b r'] eqn:Er.
  injection Hat as E1 E2. rewrite E1. f_equal.
  assert (zlen (replicate k 32 ++ r) = Z.of_nat k + (if neg then 1 else 0) + zlen (c :: ds ++ rest)) as ->.
  { subst r. destruct neg; zlen_lia. }
  destruct (0 <? zlen (take_while (λ c0, digit_val c0 <? b) r')) eqn:E; [lia|]. zlen_lia.
Qed.

(** The text of a signed decimal with width [w] and precision [p] given as
    [int] arguments: a negative width left-justifies, a negative precision is
    no precision. *)
Definition decimal_field (w p v : Z) (ds : bytes) : bytes :=
  number_field ds (v <? 0) None (if w <? 0 then F_MINUS else 0) (Z.abs w) (if p <? 0 then -1 else p).

Lemma decimal_field_parts w p v ds : ∃ a z b,
  decimal_field w p v ds = replicate a 32 ++ (if v <? 0 then [45] else []) ++ (replicate z 48 ++ ds) ++ replicate b 32 ∧
  (Z.abs w ≤ zlen (decimal_field w p v ds)) ∧
  (zlen (decimal_field w p v ds) ≤ Z.max (Z.abs w) (1 + Z.max p (zlen ds))) ∧
  Z.of_nat z + zlen ds ≤ Z.max p (zlen ds).
Proof.
  unfold decimal_field, number_field.
  set (prec := if p <? 0 then -1 else p).
  assert (number_body ds (v <? 0) None (if w <? 0 then F_MINUS else 0) (Z.abs w) prec =
    (if v <? 0 then [45] else []) ++ replicate (Z.to_nat ((if 0 <=? prec then prec else 0) - zlen ds)) 48 ++ ds) as ->.
  { unfold number_body. by destruct (w <? 0), (v <? 0), (0 <=? prec). }
  set (z := Z.to_nat _). set (body := _ ++ replicate z 48 ++ ds).
  assert (zlen body = (if v <? 0 then 1 else 0) + Z.of_nat z + zlen ds) as Hl
    by (subst body; destruct (v <? 0); zlen_lia).
  assert ((if v <? 0 then 1 else 0) = 0 ∨ (if v <? 0 then 1 else 0) = 1) by (destruct (v <? 0); lia).
  assert (Z.of_nat z = Z.max 0 ((if 0 <=? prec then prec else 0) - zlen ds)) by lia.
  assert ((if 0 <=? prec then prec else 0) ≤ Z.max p 0) by (subst prec; repeat case_match; lia).
  pose proof (zlen_nonneg ds).
  destruct (w <? 0) eqn:Ew.
  - change (has_flag F_MINUS F_MINUS) with true. exists 0%nat, z, (Z.to_nat (Z.abs w - zlen body)). cbn beta iota zeta. rewrite zlen_app, zlen_replicate.
    split; [subst body; by cbn [replicate app]; rewrite <- !app_assoc|]. lia.
  - change (has_flag 0 F_MINUS) with false. cbn beta iota zeta.
    exists (Z.to_nat (Z.abs w - zlen body)), z, 0%nat. rewrite zlen_app, zlen_replicate.
    split; [subst body; by cbn [replicate]; rewrite app_nil_r|]. lia.
Qed.

Lemma parse_star_flags {S} (st : S) : parse_flags (str "%*.*ld") 1 st = Ret (1, 0) st.
Proof. by apply loop_break. Qed.

Lemma parse_star_width {S} w ap (st : S) : INT_MIN < w ≤ INT_MAX →
  parse_width (str "%*.*ld") 1 0 (VInt w :: ap) st = Ret (2, Z.abs w, if w <? 0 then F_MINUS else 0, ap) st.
Proof.
  intros Hw. unfold parse_width. rewrite (bind_run _ _ _ _ _ (chr_run (str "%*.*ld") 1 st ltac:(done))).
  change (chrv _ 1) with 42. change (42 =? 42) with true. cbn beta iota.
  unfold va_int. rewrite bind_ret, s32_id by lia. cbn beta iota.
  destruct (Z.ltb_spec w 0).
  - unfold int_ok. rewrite decide_True by (unfold INT_MIN, INT_MAX in *; lia).
    rewrite bind_ret, Z.abs_neq by lia. done.
  - by rewrite Z.abs_eq by lia.
Qed.

Lemma parse_star_prec {S} p ap (st : S) : INT_MIN ≤ p ≤ INT_MAX →
  parse_prec (str "%*.*ld") 2 (VInt p :: ap) st = Ret (4, if p <? 0 then -1 else p, ap) st.
Proof.
  intros Hp. unfold parse_prec. rewrite (bind_run _ _ _ _ _ (chr_run (str "%*.*ld") 2 st ltac:(done))).
  change (chrv _ 2) with 46. change (46 =? 46) with true. cbn beta iota.
  rewrite (bind_run _ _ _ _ _ (chr_run (str "%*.*ld") (2 + 1) st ltac:(done))).
  change (chrv _ (2 + 1)) with 42. change (42 =? 42) with true. cbn beta iota.
  unfold va_int. by rewrite bind_ret, s32_id by lia.
Qed.

Lemma parse_star_length {S} (st : S) : parse_length (str "%*.*ld") 4 st = Ret (5, 1, false) st.
Proof. by apply (loop_once _ _ st (5, 1, false) st). Qed.

(** An unsigned 32-bit conversion without width, precision and flags: the digits. *)
Lemma convert_u fmt_fp v ap ds t st : 0 ≤ v < 4294967296 → zlen ds ≤ 22 →
  utoa v 10 false (Full t st) = Ret ds (Full t st) →
  convert emit_full full_len full_store_n fmt_fp 117 0 0 (-1) 0 false (VInt v :: ap) (Full t st)
  = Ret ap (Full (t ++ ds) st).
Proof.
  intros Hv Hl E. unfold convert.
  change ((117 =? 100) || _) with false. change (117 =? 117) with true. cbn [orb]. cbn beta iota.
  change (1 <=? 0) with false. cbn beta iota. rewrite (bind_run _ _ (v, ap) _ (Full t st)).
  2:{ unfold va_int. rewrite bind_ret. unfold ret. do 2 f_equal. unfold u32, s32. lia. }
  cbn beta iota zeta. change (117 =? 111) with false. change (117 =? 88) with false. cbn iota.
  rewrite (bind_run _ _ _ _ _ E). change (has_flag 0 F_HASH) with false. cbn [andb].
  rewrite (bind_run _ _ tt _ (Full (t ++ ds) st)); [done|].
  rewrite put_number_full_run; unfold INT_MIN, INT_MAX; cbn [default from_option]; change (zlen []) with 0; try lia.
  do 3 f_equal. unfold number_field, number_body. cbn [default from_option].
  change (has_flag 0 _) with false. cbn [andb negb app]. cbn zeta.
  change (0 <=? -1) with false. cbn iota. pose proof (zlen_nonneg ds).
  change (has_flag 0 F_PLUS) with false. change (has_flag 0 F_SPACE) with false. cbn iota. cbn [app].
  change (has_flag 0 F_ZERO) with false. cbn [andb].
  replace (Z.to_nat (0 - zlen ds)) with 0%nat by lia. cbn [replicate app].
  by replace (Z.to_nat (0 - zlen ds)) with 0%nat by lia.
Qed.

(** A signed 64-bit conversion without precision-dependent surprises. *)
Lemma convert_ld fmt_fp flags width prec v ap t st : LLONG_MIN < v ≤ LLONG_MAX →
  -1 ≤ width ≤ INT_MAX → prec ≤ INT_MAX - 1 →
  ∃ ds, numeral 10 (Z.abs v) ds ∧ 0 < zlen ds ≤ 22 ∧
    convert emit_full full_len full_store_n fmt_fp 100 flags width prec 1 false (VInt v :: ap) (Full t st)
    = Ret ap (Full (t ++ number_field ds (v <? 0) None flags width prec) st).
Proof.
  unfold LLONG_MIN, LLONG_MAX, INT_MAX. intros Hv Hw Hp.
  destruct (utoa_run (Z.abs v) 10 false (Full t st) ltac:(lia) ltac:(lia)) as (ds & Eu & Hn & Hl).
  exists ds. split; [done|]. split; [done|]. unfold convert.
  change ((100 =? 100) || _) with true. cbn beta iota. change (1 <=? 1) with true. cbn beta iota.
  unfold va_long at 1. rewrite bind_ret, s64_id by (unfold LLONG_MIN, LLONG_MAX; lia). cbn beta iota zeta.
  rewrite (bind_run _ _ (Z.abs v) _ (Full t st)).
  2:{ destruct (Z.ltb_spec v 0); [|by rewrite Z.abs_eq by lia].
      unfold neg_signed. rewrite decide_True by (unfold LLONG_MAX; lia). rewrite bind_ret.
      rewrite u64_id, Z.abs_neq by lia. done. }
  rewrite (bind_run _ _ _ _ _ Eu).
  rewrite (bind_run _ _ tt _ (Full (t ++ number_field ds (v <? 0) None flags width prec) st)); [done|].
  apply put_number_full_run; unfold INT_MIN, INT_MAX; cbn [default from_option]; change (zlen []) with 0; lia.
Qed.

(** "%*.*ld" on the full text. *)
Lemma format_star_ld fmt_fp w p v : INT_MIN < w ≤ INT_MAX → INT_MIN ≤ p < INT_MAX → LLONG_MIN < v ≤ LLONG_MAX →
  ∃ ds, numeral 10 (Z.abs v) ds ∧ 0 < zlen ds ≤ 22 ∧
    format_full fmt_fp (str "%*.*ld") [VInt w; VInt p; VInt v] =
    Ret (s32 (zlen (decimal_field w p v ds))) (Full (decimal_field w p v ds) []).
Proof.
  intros Hw Hp Hv.
  destruct (convert_ld fmt_fp (if w <? 0 then F_MINUS else 0) (Z.abs w) (if p <? 0 then -1 else p) v [] [] [])
    as (ds & Hn & Hl & E); [done|unfold INT_MIN, INT_MAX in *; lia| |].
  { unfold INT_MAX in *. destruct (p <? 0); lia. }
  exists ds. split; [done|]. split; [done|]. unfold format_full, vformat.
  rewrite (bind_run _ _ tt _ (Full (decimal_field w p v ds) [])); [done|].
  apply (loop_once _ _ _ (6, []) (Full (decimal_field w p v ds) [])); [|done].
  rewrite (bind_run _ _ 37 _ (Full [] [])) by done. cbn beta.
  change (37 =? 0) with false. change (negb (37 =? 37)) with false. cbn beta iota.
  rewrite (bind_run _ _ _ _ _ (parse_star_flags _)). cbn beta iota.
  rewrite (bind_run _ _ _ _ _ (parse_star_width w _ _ Hw)). cbn beta iota.
  rewrite (bind_run _ _ _ _ _ (parse_star_prec p _ _ ltac:(unfold INT_MAX in *; lia))). cbn beta iota.
  rewrite (bind_run _ _ _ _ _ (parse_star_length _)). cbn beta iota.
  rewrite (bind_run _ _ 100 _ (Full [] [])) by done. change (100 =? 0) with false. cbn beta iota.
  by rewrite (bind_run _ _ _ _ _ E).
Qed.

(** The least value is not printed: converting it negates it in its own type,
    which overflows.  The least width is negated too. *)
Lemma printf_llong_min_faults fmt_fp w p : INT_MIN < w ≤ INT_MAX → INT_MIN ≤ p ≤ INT_MAX →
  format_full fmt_fp (str "%*.*ld") [VInt w; VInt p; VInt LLONG_MIN] = Fault.
Proof.
  intros Hw Hp. unfold format_full, vformat.
  assert (∀ (m : M full unit) k, m (Full [] []) = Fault → bind m k (Full [] []) = (Fault : outcome full Z)) as Hb
    by (intros m k E; unfold bind; by rewrite E).
  apply Hb. apply loop_fault.
  rewrite (bind_run _ _ 37 _ (Full [] [])) by done. cbn beta.
  change (37 =? 0) with false. change (negb (37 =? 37)) with false. cbn beta iota.
  rewrite (bind_run _ _ _ _ _ (parse_star_flags _)). cbn beta iota.
  rewrite (bind_run _ _ _ _ _ (parse_star_width w _ _ Hw)). cbn beta iota.
  rewrite (bind_run _ _ _ _ _ (parse_star_prec p _ _ Hp)). cbn beta iota.
  rewrite (bind_run _ _ _ _ _ (parse_star_length _)). cbn beta iota.
  by rewrite (bind_run _ _ 100 _ (Full [] [])) by done.
Qed.

Lemma printf_int_min_width_faults fmt_fp p v :
  format_full fmt_fp (str "%*.*ld") [VInt INT_MIN; VInt p; VInt v] = Fault.
Proof.
  unfold format_full, vformat, bind at 1. by rewrite loop_fault.
Qed.

Lemma format_full_result fmt_fp fmt ap r t : format_full fmt_fp fmt ap = Ret r t → r = s32 (zlen (f_text t)).
Proof.
  rewrite format_full_eq. unfold vformat. intros (u & t1 & _ & E)%bind_Ret_inv. by injection E as <- <-.
Qed.

Lemma format_str_run n fmt_fp fmt ap r text stores :
  0 ≤ n → zlen text < SIZE_MAX → format_full fmt_fp fmt ap = Ret r (Full text stores) →
  ∃ o, format_str fmt_fp n fmt ap = Ret r o ∧ holds n o (Full text stores).
Proof.
  intros Hn Hl E. rewrite format_full_eq in E.
  destruct (refines_vformat n Hn fmt_fp fmt ap (Out [] n 0 []) (Full [] []) r (Full text stores)) as [_ H].
  { split_and!; try done. symmetry. apply takeZ_nil. }
  { exact E. }
  exact (H Hl).
Qed.

Section statements.
Context {S : Type} (fmt_fp : va_slot → Z → Z → Z → Z → bytes).
Implicit Types (st : S).

Lemma vsnprintf_run n fmt ap r text stores st :
  0 ≤ n → zlen text < SIZE_MAX → format_full fmt_fp fmt ap = Ret r (Full text stores) →
  vsnprintf fmt_fp n fmt ap st =
    Ret (r, if n =? 0 then [] else takeZ (n - 1) text ++ [0], stores) st.
Proof using.
  intros Hn Hl E. unfold vsnprintf.
  destruct (format_str_run n fmt_fp fmt ap r text stores Hn Hl E) as (o & -> & _ & Hlen & Hdst & ->).
  cbn [f_text f_stores] in *. destruct (Z.eqb_spec n 0); [done|].
  rewrite Hdst, Hlen. cbn zeta. pose proof (zlen_nonneg text).
  destruct (Z.ltb_spec (zlen text) n).
  - rewrite takeZ_all by lia. by rewrite Z.eqb_refl.
  - rewrite zlen_takeZ by lia. by rewrite Z.eqb_refl.
Qed.

Lemma vsprintf_run fmt ap r text stores st :
  zlen text < SIZE_MAX → format_full fmt_fp fmt ap = Ret r (Full text stores) →
  vsprintf fmt_fp fmt ap st = Ret (r, text ++ [0], stores) st.
Proof using.
  intros Hl E. unfold vsprintf.
  destruct (format_str_run SIZE_MAX fmt_fp fmt ap r text stores) as (o & -> & _ & Hlen & Hdst & ->); [done|lia|done|].
  cbn [f_text f_stores] in *. rewrite Hdst, Hlen, takeZ_all by lia. by rewrite Z.eqb_refl.
Qed.

(** C7: snprintf on every format, argument list and buffer size: whatever text
    the format denotes, the buffer receives its first [n - 1] characters and a
    terminator and never a byte more, nothing is written for size 0, the result
    is the length of the whole text as an [int] and %n stores what it stores on
    the whole text.  (The text is shorter than the address space.) *)
Theorem snprintf_correct n fmt ap r text stores st
  (Hn : 0 ≤ n ≤ SIZE_MAX) (Hl : zlen text < SIZE_MAX)
  (Htext : format_full fmt_fp fmt ap = Ret r (Full text stores)) :
  snprintf fmt_fp n fmt ap st =
    Ret (s32 (zlen text), if n =? 0 then [] else takeZ (n - 1) text ++ [0], stores) st ∧
  zlen (if n =? 0 then [] else takeZ (n - 1) text ++ [0]) ≤ n.
Proof using.
  replace (s32 (zlen text)) with r by exact (format_full_result _ _ _ _ _ Htext). split.
  - apply (vsnprintf_run n fmt ap r text stores st); [lia|done..].
  - cbn [f_text]. destruct (Z.eqb_spec n 0) as [->|]; [done|].
    destruct (decide (zlen text ≤ n - 1)).
    + rewrite takeZ_all by lia. zlen_lia.
    + rewrite zlen_app, zlen_takeZ by zlen_lia. zlen_lia.
Qed.


(** Vasprintf asks malloc for exactly the text and its terminator, once; it
    returns the whole text with its length, or NULL and -1 when malloc fails. *)
Theorem vasprintf_correct (alloc : Z → M S bool) fmt ap r text stores st ok st'
  (Hl : zlen text < INT_MAX)
  (Htext : format_full fmt_fp fmt ap = Ret r (Full text stores))
  (Halloc : alloc (zlen text + 1) st = Ret ok st') :
  vasprintf fmt_fp alloc fmt ap st =
    Ret (if ok then (zlen text, Some (text ++ [0])) else (-1, None)) st'.
Proof using.
  pose proof (zlen_nonneg text). unfold INT_MAX in Hl.
  assert (r = zlen text) as ->.
  { rewrite (format_full_result _ _ _ _ _ Htext). apply s32_id. cbn [f_text]. unfold INT_MIN, INT_MAX. lia. }
  unfold vasprintf.
  rewrite (bind_run _ _ _ _ _ (vsnprintf_run 0 fmt ap _ text stores st ltac:(lia) ltac:(unfold SIZE_MAX; lia) Htext)).
  cbn beta iota. replace (zlen text <? 0) with false by lia.
  rewrite (bind_run _ _ _ _ _ Halloc). destruct ok; [|done]. cbn [negb].
  rewrite (bind_run _ _ _ _ _ (vsnprintf_run (zlen text + 1) fmt ap _ text stores st' ltac:(lia)
    ltac:(unfold SIZE_MAX; lia) Htext)).
  cbn beta iota. replace (zlen text + 1 =? 0) with false by lia.
  by rewrite takeZ_all by lia.
Qed.

End statements.

(** The field put_number emits for digits, sign, prefix, flags, width and
    precision: at least as wide as asked, no wider than needed; the blanks are
    on one side only and the digits are never cut. *)
Theorem put_number_correct digits neg prefix flags width prec t st
  (Hd : zlen digits + zlen (default [] prefix) ≤ 1000000)
  (Hw : -1 ≤ width ≤ INT_MAX) (Hp : prec + zlen (default [] prefix) ≤ INT_MAX - 1) :
  let body := number_body digits neg prefix flags width prec in
  let field := number_field digits neg prefix flags width prec in
  put_number emit_full digits neg prefix flags width prec (Full t st) = Ret tt (Full (t ++ field) st) ∧
  zlen field = Z.max width (zlen body) ∧
  (∃ blanks, Forall (λ c, c = 32) blanks ∧ (field = body ++ blanks ∨ field = blanks ++ body)) ∧
  prec ≤ zlen body ∧ (∃ front, body = front ++ digits).
Proof.
  cbn zeta. pose proof (zlen_nonneg (default [] prefix)). unfold INT_MAX in *. split_and!.
  - apply put_number_full_run; unfold INT_MIN, INT_MAX; lia.
  - unfold number_field. destruct (has_flag flags F_MINUS); zlen_lia.
  - exists (replicate (Z.to_nat (width - zlen (number_body digits neg prefix flags width prec))) 32).
    split; [by apply Forall_replicate|]. unfold number_field. destruct (has_flag flags F_MINUS); auto.
  - unfold number_body. destruct (Z.leb_spec 0 prec); zlen_lia.
  - unfold number_body. eexists. by rewrite !app_assoc.
Qed.

(** "[%-6d|%#x%%]" with -42 and 255 into 8 bytes. *)
Lemma snprintf_correct_witness :
  snprintf (S := unit) (λ _ _ _ _ _, []) 8 (str "[%-6d|%#x%%]") [VInt (-42); VInt 255] tt =
    Ret (14, str "[-42   " ++ [0], []) tt ∧
  zlen (str "[-42   " ++ [0]) ≤ 8.
Proof.
  apply (snprintf_correct (λ _ _ _ _ _, []) 8 (str "[%-6d|%#x%%]") [VInt (-42); VInt 255] 14
    (str "[-42   |0xff%]") [] tt); [split; done|reflexivity|vm_compute; reflexivity].
Defined.


Lemma vasprintf_correct_witness :
  vasprintf (S := unit) (λ _ _ _ _ _, []) (λ _, ret true) (str "%s=%05u") [VStr (Some (str "n")); VInt 7] tt
  = Ret (7, Some (str "n=00007" ++ [0])) tt.
Proof.
  apply (vasprintf_correct (λ _ _ _ _ _, []) (λ _, ret true) (str "%s=%05u") [VStr (Some (str "n")); VInt 7] 7
    (str "n=00007") [] tt true tt); [done|vm_compute; reflexivity|reflexivity].
Defined.

(** "%#+8.3x" of 0x2a. *)
Lemma put_number_correct_witness :
  number_field (str "2a") false (Some (str "0x")) (F_PLUS + F_HASH) 8 3 = str "  +0x02a" ∧
  put_number emit_full (str "2a") false (Some (str "0x")) (F_PLUS + F_HASH) 8 3 (Full [] [])
    = Ret tt (Full (str "  +0x02a") []).
Proof.
  split; [reflexivity|].
  apply (put_number_correct (str "2a") false (Some (str "0x")) (F_PLUS + F_HASH) 8 3 [] []);
    repeat split; vm_compute; discriminate.
Defined.
