(* ===== verification/Kernel.v ===== *)
(** The racccoon system calls the C library makes, and its heap allocator.

    The kernel (src/*.c3), the file servers behind SYS_IPC_CALL and the vendored
    dlmalloc are not C of this library: they are the operations of the class
    [Kernel], on an abstract state [K].  A call that fills a caller's buffer
    returns the bytes it wrote.  [Kernel] has no laws; a theorem that relies on
    one states it as a hypothesis.  The numbers and limits are those of
    include/racccoon/syscall.h. *)
From S2P Require Import Prelude CMonad.

Class Kernel (K : Type) := {
  (** RC_SYS_NS_TRANSLATE path member cap: the server's pid, the path it knows *)
  sys_ns_translate : bytes → Z → Z → M K (Z * bytes);
  (** RC_SYS_GETCWD cap: the length, the directory *)
  sys_getcwd : Z → M K (Z * bytes);
  (** RC_SYS_IPC_CALL pid verb buf: the replier, the reply's verb, the reply *)
  sys_ipc_call : Z → Z → bytes → M K (Z * Z * bytes);
  sys_chdir : bytes → M K Z;
  sys_getpid : M K Z;
  sys_parent_info : Z → M K Z;
  sys_getuid : M K Z;
  sys_write : bytes → M K Z;
  sys_getchar : M K Z;
  sys_stdin_isatty : M K Z;
  sys_timebase : M K Z;
  (** RC_SYS_AWAIT what ticks *)
  sys_await : Z → Z → M K Z;
  (** RC_SYS_RFORK flags: the result, the child's generation *)
  sys_rfork : Z → M K (Z * Z);
  (** RC_SYS_EXEC image blob argc: it returns only when it failed *)
  sys_exec : bytes → bytes → Z → M K Z;
  (** RC_SYS_JOIN pid generation *)
  sys_join : Z → Z → M K Z;
  (** RC_SYS_MAP nbytes: the address, -1 on failure *)
  sys_map : Z → M K Z;
  sys_postnote : Z → bytes → M K Z;
  sys_noted : Z → M K Z;
  sys_notify : M K Z;
  sys_yield : M K Z;
  (** the time CSR *)
  rdtime : M K Z;
  (** can malloc serve [n] bytes? *)
  heap_alloc : Z → M K bool;
}.

(** include/racccoon/syscall.h *)
Definition RC_FS_READ : Z := 20.
Definition RC_FS_WRITE : Z := 21.
Definition RC_FS_DELETE : Z := 22.
Definition RC_FS_LIST : Z := 23.
Definition RC_FS_MKDIR : Z := 24.
Definition RC_FS_RENAME : Z := 25.
Definition RC_FS_READ_AT : Z := 26.
Definition RC_FS_WRITE_AT : Z := 27.
Definition RC_FS_STAT : Z := 28.
Definition RC_FS_MSG_MAX : Z := 8192.
Definition RC_FS_WRITE_AT_MAXCHUNK : Z := 8192 - 108.
Definition RC_FS_LIST_NAME_MAX : Z := 32.
Definition RC_FS_LIST_ENTRY_SIZE : Z := 36.
Definition RC_RFPROC : Z := 1.

Section calls.
Context {K : Type} `{!Kernel K}.

(** syscall.c *)
Definition __rc_map_pages (nbytes : Z) : M K Z :=
  r <- sys_map nbytes ;; ret (if r =? -1 then 0 else r).
Definition __rc_stdin_is_console : M K Z := r <- sys_stdin_isatty ;; ret (s32 r).
Definition __rc_timebase_hz : M K Z := r <- sys_timebase ;; ret (u64 r).
End calls.
