(* ===== verification/RcFs.v ===== *)
(** The file-system calls over the server protocol: src/lib/racccoon-libc/src/rc_fs.c.

    A path is its value, without the terminator.  A request and its reply share
    one buffer of [RC_FS_MSG_MAX] bytes; [junk] is what the uninitialised stack
    held in it before.  A call that fills a caller's buffer returns the bytes it
    copied there next to its result. *)
From S2P Require Import Prelude CMonad CMemory CBuffer Kernel.

(** ** Path normalisation *)

(** [if (o > 1) { o--; while (o > 1 && tmp[o - 1] != '/') o--; }] *)
Fixpoint drop_component (rev_tmp : bytes) : bytes :=
  match rev_tmp with
  | [] => []
  | [c] => [c]
  | c :: rest => if c =? 47 then c :: rest else drop_component rest
  end.

Definition last_is (c : Z) (buf : bytes) : bool :=
  match last buf with Some x => x =? c | None => false end.

(** One turn of the outer loop, from a component's start [s] to its end [e];
    [tmp] holds the [o] characters written so far. *)
Definition normalize_component {S} (p : bytes) (s e : Z) (tmp : bytes) : M S bytes :=
  let n := e - s in
  c0 <- chr p s ;;
  if (n =? 1) && (c0 =? 46) then ret tmp
  else
    dotdot <- (if (n =? 2) && (c0 =? 46) then c1 <- chr p (s + 1) ;; ret (c1 =? 46) else ret false) ;;
    if dotdot : bool then
      ret (if 1 <? zlen tmp then rev (drop_component (tl (rev tmp))) else tmp)
    else
      tmp <- (if (1 <? zlen tmp) && negb (last_is 47 tmp) then push 128 tmp 47 else ret tmp) ;;
      loop (λ '(k, tmp),
        if (k <? n) && (zlen tmp <? 127) then
          c <- chr p (s + k) ;; tmp <- push 128 tmp c ;; ret (Continue (k + 1, tmp))
        else ret (Break tmp)) (0, tmp).

Definition rc_normalize {S} (p : bytes) : M S bytes :=
  tmp <- push 128 [] 47 ;;
  tmp <- loop (λ '(i, tmp),
    c <- chr p i ;;
    if c =? 0 then ret (Break tmp)
    else
      i <- loop (λ i, c <- chr p i ;; if c =? 47 then ret (Continue (i + 1)) else ret (Break i)) i ;;
      c <- chr p i ;;
      if c =? 0 then ret (Break tmp)
      else
        e <- loop (λ e, c <- chr p e ;;
          if negb (c =? 0) && negb (c =? 47) then ret (Continue (e + 1)) else ret (Break e)) i ;;
        tmp <- normalize_component p i e tmp ;;
        ret (Continue (e, tmp))) (0, tmp) ;;
  let tmp := if (1 <? zlen tmp) && last_is 47 tmp then removelast tmp else tmp in
  push 128 tmp 0 ;; ret tmp.

(** [while (s[i] && o < 127) out[o++] = s[i++];] *)
Definition append_bounded {S} (out s : bytes) : M S bytes :=
  loop (λ '(i, out),
    c <- chr s i ;;
    if negb (c =? 0) && (zlen out <? 127) then out <- push 128 out c ;; ret (Continue (i + 1, out))
    else ret (Break out)) (0, out).

(** The same for the first [n] bytes of a buffer. *)
Definition append_n {S} (out buf : bytes) (n : Z) : M S bytes :=
  loop (λ '(i, out),
    if (i <? n) && (zlen out <? 127) then
      c <- of_option (idx buf i) ;; out <- push 128 out c ;; ret (Continue (i + 1, out))
    else ret (Break out)) (0, out).

Section fs.
Context {K : Type} `{!Kernel K} (junk : bytes).

Definition rc_ns_translate (path : bytes) (member cap : Z) : M K (Z * bytes) :=
  let* (pid, out) := sys_ns_translate path member cap in ret (s32 pid, out).

(** the terminated string in [cw], as the bytes the caller indexes *)
Definition rc_getcwd (cap : Z) : M K (Z * bytes) :=
  let* (n, buf) := sys_getcwd cap in ret (s32 n, buf).

Definition rc_fsd_call (pid verb : Z) (buf : bytes) : M K (Z * Z * bytes) :=
  let* (from, rv, buf) := sys_ipc_call pid verb buf in ret (s32 from, rv, buf).

Definition __rc_abspath (rel : bytes) : M K bytes :=
  c0 <- chr rel 0 ;;
  if c0 =? 47 then out <- append_bounded [] rel ;; push 128 out 0 ;; rc_normalize (c_str out)
  else
    let* (n, cw) := rc_getcwd 128 in
    let '(cw, n) := if (n <=? 0) || (hd 0 cw =? 0) then ([47; 0], 1) else (cw, n) in
    if c0 =? 0 then out <- append_n [] cw n ;; push 128 out 0 ;; rc_normalize (c_str out)
    else
      out <- append_n [] cw n ;;
      out <- (if (zlen out <? 127) && negb (last_is 47 out) then push 128 out 47 else ret out) ;;
      out <- append_bounded out rel ;;
      push 128 out 0 ;; rc_normalize (c_str out).

(** The stripped path lands at the start of [req]; the pid, or -1. *)
Definition resolve_member (member : Z) (abspath req : bytes) : M K (Z * bytes) :=
  let* (pid, out) := rc_ns_translate abspath member 100 in
  if pid <? 0 then req <- splice 0 [0] req ;; ret (-1, req)
  else req <- splice 0 (out ++ [0]) req ;; ret (pid, req).
Definition resolve_stripped : bytes → bytes → M K (Z * bytes) := resolve_member 0.
Definition resolve_stripped_c : bytes → bytes → M K (Z * bytes) := resolve_member (-1).

(** [memcpy(buf, req + 4, result)] of a reply that claims [result] bytes, of
    which the caller has room for [len]. *)
Definition reply_data (len : Z) (req : bytes) : M K (Z * bytes) :=
  result <- get_s32 0 req ;;
  if result <? 0 then ret (result, [])
  else
    let result := if len <? result then s32 len else result in
    data <- peek 4 result req ;; ret (result, data).

Definition __rc_fs_read_at (path : bytes) (len off : Z) : M K (Z * bytes) :=
  ap <- __rc_abspath path ;;
  let* (pid, req) := resolve_stripped ap junk in
  if pid <? 0 then ret (-1, [])
  else
    req <- put_u32 100 len req ;;
    req <- put_u32 104 off req ;;
    let* (from, rv, req) := rc_fsd_call pid RC_FS_READ_AT req in
    if (from <=? 0) || negb (rv =? RC_FS_READ_AT) then ret (-1, [])
    else reply_data len req.

Definition __rc_fs_write_at (path buf : bytes) (len off : Z) : M K Z :=
  ap <- __rc_abspath path ;;
  let* (pid, req) := resolve_stripped_c ap junk in
  if pid <? 0 then ret (-1)
  else
    let len := if len <? 0 then 0 else len in
    let len := if RC_FS_WRITE_AT_MAXCHUNK <? len then RC_FS_WRITE_AT_MAXCHUNK else len in
    req <- put_u32 100 len req ;;
    req <- put_u32 104 off req ;;
    data <- peek 0 len buf ;;
    req <- splice 108 data req ;;
    let* (from, rv, req) := rc_fsd_call pid RC_FS_WRITE_AT req in
    if (from <=? 0) || negb (rv =? RC_FS_WRITE_AT) then ret (-1) else get_s32 0 req.

Definition __rc_fs_read (path : bytes) (len : Z) : M K (Z * bytes) :=
  ap <- __rc_abspath path ;;
  let* (pid, req) := resolve_stripped ap junk in
  if pid <? 0 then ret (-1, [])
  else
    let len := if len <? 0 then 0 else len in
    let len := if RC_FS_MSG_MAX - 4 <? len then RC_FS_MSG_MAX - 4 else len in
    req <- put_u32 100 len req ;;
    let* (from, rv, req) := rc_fsd_call pid RC_FS_READ req in
    if (from <=? 0) || negb (rv =? RC_FS_READ) then ret (-1, [])
    else reply_data len req.

Definition __rc_fs_write (path buf : bytes) (len : Z) : M K Z :=
  ap <- __rc_abspath path ;;
  let* (pid, req) := resolve_stripped_c ap junk in
  if pid <? 0 then ret (-1)
  else
    let len := if len <? 0 then 0 else len in
    let len := if RC_FS_MSG_MAX - 104 <? len then RC_FS_MSG_MAX - 104 else len in
    req <- put_u32 100 len req ;;
    data <- peek 0 len buf ;;
    req <- splice 104 data req ;;
    let* (from, rv, req) := rc_fsd_call pid RC_FS_WRITE req in
    if (from <=? 0) || negb (rv =? RC_FS_WRITE) then ret (-1) else get_s32 0 req.

(** 0 and (size, type), or -1 *)
Definition __rc_fs_stat (path : bytes) : M K (option (Z * Z)) :=
  ap <- __rc_abspath path ;;
  let* (pid, req) := resolve_stripped ap junk in
  if pid <? 0 then ret None
  else
    let* (from, rv, req) := rc_fsd_call pid RC_FS_STAT req in
    if (from <=? 0) || negb (rv =? RC_FS_STAT) then ret None
    else
      st <- get_s32 0 req ;;
      if st <? 0 then ret None
      else size <- get_u32 4 req ;; ty <- peek 8 1 req ;; ret (Some (size, hd 0 ty)).

Definition RC_FS_LIST_PAGE_MAX : Z := (RC_FS_MSG_MAX - 4) / RC_FS_LIST_ENTRY_SIZE.

(** The number of entries, and their records one after the other. *)
Definition __rc_fs_list (path : bytes) (max_entries : Z) : M K (Z * bytes) :=
  ap <- __rc_abspath path ;;
  let* (pid, stripped) := resolve_stripped ap (takeZ 100 junk) in
  if pid <? 0 then ret (-1, [])
  else
    loop (λ '(total, dst, req),
      req <- splice 0 (takeZ 99 (c_str stripped) ++ [0]) req ;;
      req <- put_u32 104 total req ;;
      let* (from, rv, req) := rc_fsd_call pid RC_FS_LIST req in
      if (from <=? 0) || negb (rv =? RC_FS_LIST) then
        ret (Break (if 0 <? total then total else -1, dst))
      else
        page <- get_s32 0 req ;;
        if page <? 0 then ret (Break (if 0 <? total then total else page, dst))
        else
          let take := if max_entries - total <? page then max_entries - total else page in
          data <- peek 4 (take * RC_FS_LIST_ENTRY_SIZE) req ;;
          let total := total + take in
          let dst := dst ++ data in
          if (page <? RC_FS_LIST_PAGE_MAX) || (max_entries <=? total) then ret (Break (total, dst))
          else ret (Continue (total, dst, req))) (0, [], junk).

Definition simple_verb (path : bytes) (verb aux_at_100 : Z) (create : bool) : M K Z :=
  ap <- __rc_abspath path ;;
  let* (pid, req) := if create then resolve_stripped_c ap junk else resolve_stripped ap junk in
  if pid <? 0 then ret (-1)
  else
    req <- put_u32 100 aux_at_100 req ;;
    let* (from, rv, req) := rc_fsd_call pid verb req in
    if (from <=? 0) || negb (rv =? verb) then ret (-1) else get_s32 0 req.

Definition __rc_fs_mkdir (path : bytes) : M K Z := simple_verb path RC_FS_MKDIR 0 true.
Definition __rc_fs_delete (path : bytes) (recur : Z) : M K Z :=
  simple_verb path RC_FS_DELETE recur false.

Definition __rc_fs_rename (oldp newp : bytes) : M K Z :=
  apo <- __rc_abspath oldp ;;
  apn <- __rc_abspath newp ;;
  let* (pido, so) := resolve_stripped apo (takeZ 100 junk) in
  let* (pidn, sn) := resolve_stripped_c apn (takeZ 100 junk) in
  if (pido <? 0) || (pidn <? 0) || negb (pido =? pidn) then ret (-1)
  else
    req <- splice 0 (takeZ 99 (c_str so) ++ [0]) junk ;;
    req <- splice 100 (takeZ 99 (c_str sn) ++ [0]) req ;;
    let* (from, rv, req) := rc_fsd_call pido RC_FS_RENAME req in
    if (from <=? 0) || negb (rv =? RC_FS_RENAME) then ret (-1) else get_s32 0 req.
End fs.

(** * Path resolution, the reference

    A path is the list of its components; [resolve] interprets "." and "..". *)

Fixpoint components (s : bytes) : list bytes :=
  match s with
  | [] => []
  | c :: rest =>
      if c =? 47 then components rest
      else
        match rest with
        | [] => [[c]]
        | d :: _ =>
            if d =? 47 then [c] :: components rest
            else match components rest with x :: xs => (c :: x) :: xs | [] => [[c]] end
        end
  end.

(** The stack of directories, innermost first. *)
Definition resolve_step (stack : list bytes) (c : bytes) : list bytes :=
  if decide (c = [46]) then stack
  else if decide (c = [46; 46]) then tl stack
  else c :: stack.

Definition resolve (cs : list bytes) : list bytes := foldl resolve_step [] cs.

(** The text of a stack of directories. *)
Fixpoint render_stack (stack : list bytes) : bytes :=
  match stack with [] => [] | c :: rest => render_stack rest ++ (47 :: c) end.
Definition render (stack : list bytes) : bytes :=
  match stack with [] => [47] | _ => render_stack stack end.

Definition canonical (p : bytes) : bytes := render (resolve (components p)).

(** A file name: not empty, without slash, and neither "." nor "..". *)
Definition name_ok (c : bytes) : Prop :=
  c ≠ [] ∧ (47 ∉ c) ∧ c ≠ [46] ∧ c ≠ [46; 46].

Definition noslash (c : bytes) : Prop := Forall (λ b, (b =? 47) = false) c.

Lemma noslash_spec c : noslash c ↔ 47 ∉ c.
Proof.
  unfold noslash. rewrite Forall_forall. split.
  - intros H Hin. by apply H in Hin.
  - intros H x Hx. destruct (Z.eqb_spec x 47); [by subst|done].
Qed.

Definition ends_component (rest : bytes) : Prop := rest = [] ∨ ∃ r, rest = 47 :: r.

Lemma components_name c rest : c ≠ [] → noslash c → ends_component rest →
  components (c ++ rest) = c :: components rest.
Proof.
  intros Hne Hns Hr. induction Hns as [|b c Hb Hc IH]; [done|]. cbn [app components]. rewrite Hb.
  destruct c as [|d c].
  - simpl. destruct Hr as [->|[r ->]]; done.
  - cbn [app] in *. rewrite (Forall_inv Hc). by rewrite IH.
Qed.

Lemma components_slashes l rest : Forall (λ b, (b =? 47) = true) l →
  components (l ++ rest) = components rest.
Proof. induction 1 as [|b l Hb _ IH]; [done|]. simpl. by rewrite Hb. Qed.

Lemma components_ok s : Forall (λ c, c ≠ [] ∧ noslash c) (components s).
Proof.
  induction s as [|c s IH]; simpl; [done|]. destruct (Z.eqb_spec c 47) as [|Hc]; [done|].
  assert (noslash [c]) by (repeat constructor; lia).
  destruct s as [|d s]; [by apply Forall_singleton|]. destruct (d =? 47); [by constructor|].
  destruct (components (d :: s)) as [|x xs]; [by apply Forall_singleton|].
  inversion_clear IH as [|? ? [Hx1 Hx2] ?]. constructor; [|done]. split; [done|].
  constructor; [lia|done].
Qed.

Lemma resolve_ok cs stack : Forall (λ c, c ≠ [] ∧ noslash c) cs → Forall name_ok stack →
  Forall name_ok (foldl resolve_step stack cs).
Proof.
  intros Hcs. revert stack. induction Hcs as [|c cs [Hc1 Hc2] _ IH]; intros stack Hs; [done|].
  simpl. apply IH. unfold resolve_step. repeat case_decide; [done|by destruct Hs|].
  constructor; [|done]. split_and!; try done. by apply noslash_spec.
Qed.

(** Canonical text denotes what it is made of. *)
Lemma components_render_stack stack rest : Forall name_ok stack → ends_component rest →
  components (render_stack stack ++ rest) = rev stack ++ components rest.
Proof.
  intros H. revert rest. induction H as [|c stack (Hc1 & Hc2 & _) H IH]; intros rest Hr; [done|].
  cbn [render_stack rev]. rewrite <- !app_assoc, IH by (right; eauto). cbn [app components].
  rewrite components_name by (done || by apply noslash_spec). done.
Qed.

Lemma components_render stack : Forall name_ok stack → components (render stack) = rev stack.
Proof.
  intros H. destruct stack as [|c stack]; [done|]. unfold render.
  pose proof (components_render_stack (c :: stack) [] H (or_introl eq_refl)) as E.
  by rewrite !app_nil_r in E.
Qed.

Lemma resolve_names cs stack : Forall name_ok cs → foldl resolve_step stack cs = rev cs ++ stack.
Proof.
  intros H. revert stack. induction H as [|c cs (_ & _ & Hd & Hdd) _ IH]; intros stack; [done|].
  cbn [foldl rev]. rewrite IH. unfold resolve_step. rewrite !decide_False by done.
  by rewrite <- app_assoc.
Qed.

Lemma canonical_render stack : Forall name_ok stack → canonical (render stack) = render stack.
Proof.
  intros H. unfold canonical, resolve. rewrite components_render by done.
  rewrite resolve_names by (by apply Forall_rev). by rewrite rev_involutive, app_nil_r.
Qed.

Lemma canonical_names p : ∃ stack, canonical p = render stack ∧ Forall name_ok stack.
Proof. exists (resolve (components p)). split; [done|]. by apply resolve_ok; [apply components_ok|]. Qed.

Lemma canonical_idem p : canonical (canonical p) = canonical p.
Proof. destruct (canonical_names p) as (stack & -> & H). by apply canonical_render. Qed.

(** * rc_normalize computes it *)

(** One component, on the text written so far. *)
Definition norm_step (tmp c : bytes) : bytes :=
  if decide (c = [46]) then tmp
  else if decide (c = [46; 46]) then
    if 1 <? zlen tmp then rev (drop_component (tl (rev tmp))) else tmp
  else (if (1 <? zlen tmp) && negb (last_is 47 tmp) then tmp ++ [47] else tmp) ++ c.

Definition norm_strip (tmp : bytes) : bytes :=
  if (1 <? zlen tmp) && last_is 47 tmp then removelast tmp else tmp.

(** The text that stands for a stack: its rendering, maybe with a slash behind. *)
Definition stands_for (tmp : bytes) (stack : list bytes) : Prop :=
  tmp = render stack ∨ (stack ≠ [] ∧ tmp = render_stack stack ++ [47]).

Lemma last_is_app l b : last_is 47 (l ++ [b]) = (b =? 47).
Proof. unfold last_is. by rewrite last_snoc. Qed.

Lemma noslash_last l c : c ≠ [] → noslash c → last_is 47 (l ++ c) = false.
Proof.
  intros Hc Hn. destruct c as [|b c] using rev_ind; [done|]. rewrite app_assoc, last_is_app.
  apply Forall_app in Hn as [_ Hn]. by apply Forall_inv in Hn.
Qed.

Lemma drop_name c l : noslash c → drop_component (c ++ 47 :: l) = 47 :: l.
Proof.
  induction 1 as [|b c Hb Hc IH]; simpl.
  - destruct l; done.
  - destruct (c ++ 47 :: l) eqn:E; [by destruct c|]. by rewrite Hb.
Qed.

Lemma render_len stack : Forall name_ok stack → stack ≠ [] → 1 < zlen (render_stack stack).
Proof.
  intros H ?. destruct H as [|c stack (Hc & _) _]; [done|]. simpl. destruct c; [done|]. pose proof (zlen_nonneg (render_stack stack)).
  zlen_lia.
Qed.

Lemma norm_step_name tmp stack c : stands_for tmp stack → Forall name_ok stack → name_ok c →
  norm_step tmp c = render (c :: stack).
Proof.
  intros Ht Hs (Hc1 & Hc2 & Hd & Hdd). unfold norm_step. rewrite !decide_False by done.
  destruct Ht as [->|[Hne ->]].
  - destruct stack as [|x stack]; [done|]. simpl render.
    pose proof (render_len (x :: stack) Hs ltac:(done)) as Hl. cbn [render_stack] in Hl.
    replace (1 <? zlen (render_stack stack ++ 47 :: x)) with true by lia.
    apply Forall_cons in Hs as [(Hx1 & Hx2 & _) _]. 
    change (47 :: x) with ([47] ++ x). rewrite (app_assoc _ [47] x), noslash_last
      by (done || by apply noslash_spec). simpl. by rewrite <- !app_assoc.
  - rewrite last_is_app. cbn [Z.eqb negb]. rewrite andb_false_r.
    destruct stack; [done|]. simpl. by rewrite <- !app_assoc.
Qed.

Lemma norm_step_up tmp stack : stands_for tmp stack → Forall name_ok stack →
  stands_for (norm_step tmp [46; 46]) (tl stack).
Proof.
  intros Ht Hs. unfold norm_step. rewrite decide_False, decide_True by done.
  assert (∀ s y, noslash y →
    stands_for (rev (drop_component (y ++ rev (render_stack s ++ [47])))) s) as Hdrop.
  { intros s y Hy. rewrite rev_app_distr. change (rev [47]) with [47]. cbn [app].
    rewrite drop_name by done. cbn [rev]. rewrite rev_involutive.
    destruct s; [by left|by right]. }
  destruct stack as [|x stack].
  { destruct Ht as [->|[? _]]; [|done]. by left. }
  pose proof (render_len (x :: stack) Hs ltac:(done)) as Hl.
  pose proof (Forall_inv Hs) as (Hx1 & Hx2%noslash_spec & _).
  destruct Ht as [->|[_ ->]].
  - unfold render. replace (1 <? zlen (render_stack (x :: stack))) with true by lia. cbn [render_stack tl].
    destruct x as [|b x] using rev_ind; [done|clear IHx].
    replace (tl (rev (render_stack stack ++ 47 :: x ++ [b]))) with (rev x ++ rev (render_stack stack ++ [47])).
    + apply Hdrop. apply Forall_rev. by apply Forall_app in Hx2 as [? _].
    + rewrite app_comm_cons, app_assoc, (rev_app_distr _ [b]). cbn [rev app tl].
      rewrite <- rev_app_distr. by rewrite <- app_assoc.
  - replace (1 <? zlen (render_stack (x :: stack) ++ [47])) with true by zlen_lia.
    rewrite rev_app_distr. cbn [rev app tl render_stack].
    replace (rev (render_stack stack ++ 47 :: x)) with (rev x ++ rev (render_stack stack ++ [47])).
    + apply Hdrop. by apply Forall_rev.
    + rewrite <- rev_app_distr. by rewrite <- app_assoc.
Qed.

Lemma norm_steps cs tmp stack : Forall (λ c, c ≠ [] ∧ noslash c) cs → stands_for tmp stack →
  Forall name_ok stack →
  stands_for (foldl norm_step tmp cs) (foldl resolve_step stack cs).
Proof.
  intros Hcs. revert tmp stack. induction Hcs as [|c cs [Hc1 Hc2] _ IH]; intros tmp stack Ht Hs; [done|].
  cbn [foldl]. destruct (decide (c = [46])) as [->|Hd]; [by apply IH|].
  destruct (decide (c = [46; 46])) as [->|Hdd].
  - apply IH; [by apply norm_step_up|by destruct Hs].
  - assert (name_ok c) by (split_and!; try done; by apply noslash_spec).
    assert (resolve_step stack c = c :: stack) as -> by (unfold resolve_step; by rewrite !decide_False).
    apply IH; [left; by apply norm_step_name|by constructor].
Qed.

Lemma norm_strip_stands tmp stack : stands_for tmp stack → Forall name_ok stack →
  norm_strip tmp = render stack.
Proof.
  intros Ht Hs. unfold norm_strip. destruct stack as [|x stack].
  { by destruct Ht as [->|[? _]]. }
  pose proof (render_len (x :: stack) Hs ltac:(done)) as Hl.
  pose proof (Forall_inv Hs) as (Hx1 & Hx2%noslash_spec & _).
  destruct Ht as [->|[_ ->]].
  - unfold render. cbn [render_stack]. change (47 :: x) with ([47] ++ x).
    rewrite (app_assoc _ [47] x), noslash_last by done. by rewrite andb_false_r.
  - rewrite last_is_app. replace (1 <? zlen (render_stack (x :: stack) ++ [47])) with true by zlen_lia.
    cbn [Z.eqb Pos.eqb andb]. by rewrite removelast_last.
Qed.

Lemma zlen_norm_step tmp c : zlen (norm_step tmp c) ≤ zlen tmp + 1 + zlen c.
Proof.
  unfold norm_step. pose proof (zlen_nonneg c). case_decide; [lia|]. case_decide.
  - destruct (1 <? zlen tmp); [|lia]. unfold zlen at 1. rewrite length_rev.
    assert (∀ l, length (drop_component l) ≤ length l)%nat as Hd.
    { induction l as [|b [|b' l] IHl]; simpl; [lia..|]. destruct (b =? 47); simpl in *; lia. }
    pose proof (Hd (tl (rev tmp))). pose proof (length_rev tmp). unfold zlen.
    destruct (rev tmp); simpl in *; lia.
  - destruct ((1 <? zlen tmp) && negb (last_is 47 tmp)); zlen_lia.
Qed.

Lemma zlen_norm_step_first c : c ≠ [] → zlen (norm_step [47] c) ≤ 1 + zlen c.
Proof.
  intros. unfold norm_step. repeat case_decide; simpl; zlen_lia.
Qed.

(** Copying a component behind the text. *)
Lemma copy_component {S} p i n tmp (st : S) :
  0 ≤ i → 0 ≤ n → i + n ≤ zlen p → zlen p < 18446744073709551616 → zlen tmp + n ≤ 127 →
  loop (λ '(k, tmp),
    if (k <? n) && (zlen tmp <? 127) then
      c <- chr p (i + k) ;; tmp <- push 128 tmp c ;; ret (Continue (k + 1, tmp))
    else ret (Break tmp)) (0, tmp) st = Ret (tmp ++ sliceZ i n p) st.
Proof.
  intros Hi Hn He Hlen Hfit. pose proof (zlen_nonneg tmp).
  assert (∀ k, 0 ≤ k ≤ n → zlen (takeZ k (sliceZ i n p)) = k) as Hl
    by (intros; apply zlen_takeZ; rewrite zlen_sliceZ; lia).
  apply (loop_steps _ (λ k, (k, tmp ++ takeZ k (sliceZ i n p))) (λ _, st) n); [lia| |done| |].
  - by rewrite takeZ_0, app_nil_r.
  - intros k Hk. cbn beta iota. rewrite zlen_app, Hl by lia.
    replace ((k <? n) && (zlen tmp + k <? 127)) with true by lia.
    destruct (idx_is_Some p (i + k)) as [c Hc]; [lia|].
    rewrite (bind_run _ _ _ _ _ (chr_run p (i + k) st ltac:(lia))).
    unfold chrv. rewrite Hc. cbn [default from_option id].
    rewrite (bind_run _ _ _ _ _ (push_run 128 (tmp ++ takeZ k (sliceZ i n p)) c st ltac:(rewrite zlen_app, Hl; lia))).
    rewrite <- app_assoc. by rewrite (takeZ_snoc _ _ c) by (rewrite idx_sliceZ by lia; done).
  - cbn beta iota. replace (n <? n) with false by lia. cbn [andb].
    rewrite takeZ_all by (rewrite zlen_sliceZ; lia). done.
Qed.

(** One component of the loop is one [norm_step]. *)
Lemma normalize_component_run {S} p i e tmp c (st : S) :
  0 ≤ i → i < e → e ≤ zlen p → c = sliceZ i (e - i) p →
  zlen p < 18446744073709551616 → zlen tmp + 1 + zlen c ≤ 128 →
  (tmp = [47] ∨ zlen tmp + 1 + zlen c ≤ 127) →
  normalize_component p i e tmp st = Ret (norm_step tmp c) st.
Proof.
  intros Hi Hie He Hc Hlen Hfit Hroom. unfold normalize_component. cbn zeta.
  assert (zlen c = e - i) as Hlc by (subst c; rewrite zlen_sliceZ; lia).
  assert (∀ k, 0 ≤ k < e - i → chrv p (i + k) = default 0 (idx c k)) as Hat.
  { intros k Hk. subst c. rewrite idx_sliceZ by lia. done. }
  rewrite (bind_run _ _ _ _ _ (chr_run p i st ltac:(lia))).
  pose proof (Hat 0 ltac:(lia)) as H0. rewrite Z.add_0_r in H0. rewrite H0.
  unfold norm_step.
  assert (((e - i =? 1) && (default 0 (idx c 0) =? 46)) = bool_decide (c = [46])) as ->.
  { rewrite <- Hlc. destruct c as [|b [|b' c]]; [by case_bool_decide| |];
      rewrite ?zlen_cons; case_bool_decide as E; try zlen_lia; simplify_eq; simpl; try done.
    - cbn. destruct (Z.eqb_spec b 46); [congruence|done]. }
  case_decide as Ed; [by rewrite bool_decide_true|rewrite bool_decide_false by done].
  rewrite (bind_run _ _ (bool_decide (c = [46; 46])) st st).
  2:{ destruct c as [|b [|b' [|b2 c]]]; rewrite <- Hlc.
      - by rewrite bool_decide_false.
      - rewrite bool_decide_false by done. done.
      - cbn [default from_option id]. simpl (zlen _ =? 2).
        pose proof (Hat 1 ltac:(rewrite <- Hlc; done)) as H1. simpl in H1.
        change (idx [b; b'] 0) with (Some b). cbn [default from_option id andb].
        change (zlen [b; b'] =? 2) with true. cbn [andb].
        destruct (Z.eqb_spec b 46) as [->|].
        + rewrite (bind_run _ _ _ _ _ (chr_run p (i + 1) st ltac:(lia))). rewrite H1.
          change (idx [46; b'] 1) with (Some b'). cbn [default from_option id].
          case_bool_decide; destruct (Z.eqb_spec b' 46); congruence || done.
        + rewrite bool_decide_false by congruence. done.
      - rewrite bool_decide_false by done.
        replace (zlen (b :: b' :: b2 :: c) =? 2) with false by zlen_lia. done. }
  case_decide as Edd; [by rewrite bool_decide_true|rewrite bool_decide_false by done].
  rewrite (bind_run _ _ (if (1 <? zlen tmp) && negb (last_is 47 tmp) then tmp ++ [47] else tmp) st st).
  2:{ destruct ((1 <? zlen tmp) && negb (last_is 47 tmp)); [|done]. rewrite push_run by zlen_lia. done. }
  rewrite copy_component; [by rewrite <- Hc|lia..|].
  rewrite <- Hlc. destruct Hroom as [->|].
  - simpl. zlen_lia.
  - destruct ((1 <? zlen tmp) && negb (last_is 47 tmp)); zlen_lia.
Qed.

(** ** Canonical text is no longer than the path *)

Definition weight (cs : list bytes) : Z := foldr (λ c n, 1 + zlen c + n) 0 cs.

Lemma weight_components s :
  weight (components s) ≤ zlen s + (if hd 47 s =? 47 then 0 else 1).
Proof.
  induction s as [|c s IH]; [done|]. cbn [components hd]. rewrite zlen_cons.
  destruct (c =? 47); [destruct (hd 47 s =? 47); lia|].
  destruct s as [|d s]; [cbn; zlen_lia|]. cbn [hd] in IH. destruct (d =? 47).
  - cbn [weight foldr]. fold (weight (components (d :: s))). zlen_lia.
  - destruct (components (d :: s)) as [|x xs]; cbn [weight foldr] in *; zlen_lia.
Qed.

Lemma zlen_render_resolve cs stack :
  zlen (render_stack (foldl resolve_step stack cs)) ≤ zlen (render_stack stack) + weight cs.
Proof.
  revert stack. induction cs as [|c cs IH]; intros stack; cbn [foldl weight foldr]; [lia|].
  fold (weight cs). etrans; [apply IH|]. unfold resolve_step. repeat case_decide; [zlen_lia| |].
  - destruct stack; simpl; zlen_lia.
  - simpl. zlen_lia.
Qed.

Lemma zlen_canonical p : hd 0 p = 47 → zlen (canonical p) ≤ zlen p.
Proof.
  intros Hp. pose proof (weight_components p) as Hw. pose proof (zlen_render_resolve (components p) []) as Hr.
  destruct p as [|c p]; [done|]. simpl in Hp. subst c. cbn [hd] in Hw. simpl (zlen (render_stack [])) in Hr.
  rewrite Z.eqb_refl in Hw. change (zlen []) with 0 in Hr. unfold canonical, resolve in *.
  destruct (foldl resolve_step [] (components (47 :: p))); cbn [render]; zlen_lia.
Qed.

(** Where the next component lies, and what is behind it. *)
Lemma component_split r : c_chars r → ends_component r → r ≠ [] →
  let sl := take_while (λ c, c =? 47) r in
  let r1 := dropZ (zlen sl) r in
  let name := take_while (λ c, negb (c =? 0) && negb (c =? 47)) r1 in
  0 < zlen sl ∧
  (r1 = [] → components r = []) ∧
  (r1 ≠ [] → name ≠ [] ∧ ends_component (dropZ (zlen name) r1) ∧
     components r = name :: components (dropZ (zlen name) r1)).
Proof.
  intros Hc Hr Hne sl r1 name.
  destruct (take_while_split (λ c, c =? 47) r) as (rest & E & Hrest). fold sl in E.
  assert (r1 = rest) as Er1 by (unfold r1; rewrite E at 1; apply dropZ_app_zlen).
  assert (components r = components rest) as Ecomp
    by (rewrite E; apply components_slashes, take_while_Forall).
  split_and!.
  - destruct Hr as [->|[r' ->]]; [done|]. unfold sl. simpl. zlen_lia.
  - intros E1. rewrite Ecomp, <- Er1, E1. done.
  - intros H1. rewrite Ecomp, <- Er1.
    destruct (take_while_split (λ c, negb (c =? 0) && negb (c =? 47)) r1) as (rest2 & E2 & Hrest2).
    fold name in E2. assert (c_chars r1) as Hcr1.
    { rewrite Er1. rewrite E in Hc. by apply c_chars_app in Hc as [_ ?]. }
    assert (dropZ (zlen name) r1 = rest2) as -> by (rewrite E2 at 1; apply dropZ_app_zlen).
    assert (noslash name) as Hns.
    { eapply Forall_impl; [apply take_while_Forall|]. cbn beta. intros x. destruct (x =? 47); simpl; [|done].
      by rewrite andb_false_r. }
    assert (name ≠ []) as Hnn.
    { destruct r1 as [|x r1']; [done|]. unfold name. cbn [take_while].
      pose proof (Hrest x r1' (eq_sym Er1)) as Hx. cbn beta in Hx. rewrite Hx.
      pose proof (Forall_inv Hcr1) as Hx0. cbn beta in Hx0. by replace (x =? 0) with false by lia. }
    assert (ends_component rest2) as Hend.
    { destruct rest2 as [|x rest2]; [by left|]. right. exists rest2.
      pose proof (Hrest2 x rest2 eq_refl) as Hx. cbn beta in Hx.
      rewrite E2 in Hcr1. apply c_chars_app in Hcr1 as [_ Hcr2]. pose proof (Forall_inv Hcr2) as Hx0.
      cbn beta in Hx0. replace (x =? 0) with false in Hx by lia.
      f_equal. destruct (Z.eqb_spec x 47); [done|]. done. }
    split_and!; [done..|]. rewrite E2 at 1. by apply components_name.
Qed.

Lemma rc_normalize_run {S} p (st : S) :
  c_chars p → hd 0 p = 47 → zlen p ≤ 127 → rc_normalize p st = Ret (canonical p) st.
Proof.
  intros Hc Hhd Hlen. unfold rc_normalize. pose proof (zlen_nonneg p).
  rewrite (bind_run _ _ _ _ _ (push_run 128 [] 47 st ltac:(done))). cbn [app].
  set (T := foldl norm_step [47] (components p)).
  assert (stands_for T (resolve (components p))) as HT
    by (apply norm_steps; [apply components_ok|by left|done]).
  assert (Forall name_ok (resolve (components p))) as Hok by (apply resolve_ok; [apply components_ok|done]).
  rewrite (bind_run _ _ T st st).
  - change (if (1 <? zlen T) && last_is 47 T then removelast T else T) with (norm_strip T). cbn zeta.
    rewrite (norm_strip_stands _ _ HT Hok). fold (canonical p). pose proof (zlen_canonical p Hhd).
    by rewrite (bind_run _ _ _ _ _ (push_run 128 (canonical p) 0 st ltac:(lia))).
  - apply (loop_pure _ (λ '(i, _), zlen p - i + 1)
      (λ '(i, tmp), 0 ≤ i ≤ zlen p ∧ ends_component (dropZ i p) ∧ zlen tmp ≤ Z.max 1 i ∧
         (i = 0 → tmp = [47]) ∧ foldl norm_step tmp (components (dropZ i p)) = T));
      [|split_and!; try done || lia; destruct p; [done|right]; simpl in Hhd; subst; by eexists|lia].
    intros [i tmp] (Hi & Hend & Htmp & H0 & HTi). split; [lia|].
    rewrite (bind_run _ _ _ _ _ (chr_run p i st ltac:(lia))).
    destruct (Z.eqb_spec (chrv p i) 0) as [E|E].
    { left. rewrite chrv_hd in E by lia. assert (c_chars (dropZ i p)) as Hcd by (by apply Forall_dropZ).
      destruct (dropZ i p) as [|x r]; [by rewrite <- HTi|].
      pose proof (Forall_inv Hcd) as Hx. simpl in *. lia. }
    destruct (chrv_nz_lt p i ltac:(lia) E) as [Hlt _].
    assert (dropZ i p ≠ []) as Hne by (intros En; pose proof (zlen_dropZ i p ltac:(lia)) as Hl; rewrite En in Hl; zlen_lia).
    assert (c_chars (dropZ i p)) as Hcd by (by apply Forall_dropZ).
    pose proof (component_split _ Hcd Hend Hne) as Hsplit.
    rewrite (bind_run _ _ _ _ _ (scan_run (λ c, c =? 47) p i st eq_refl ltac:(lia) ltac:(lia))).
    cbv zeta in Hsplit. set (sl := take_while (λ c, c =? 47) (dropZ i p)) in *.
    pose proof (zlen_take_while_le (λ c, c =? 47) (dropZ i p)) as Hsl. fold sl in Hsl.
    rewrite zlen_dropZ in Hsl by lia. destruct Hsplit as (Hsl0 & Hr0 & Hr1).
    rewrite dropZ_dropZ in Hr0, Hr1 by lia. set (i1 := i + zlen sl) in *.
    rewrite (bind_run _ _ _ _ _ (chr_run p i1 st ltac:(unfold i1; lia))).
    destruct (Z.eqb_spec (chrv p i1) 0) as [E1|E1].
    { left. rewrite chrv_hd in E1 by lia.
      assert (c_chars (dropZ i1 p)) as Hcd1 by (by apply Forall_dropZ).
      destruct (dropZ i1 p) as [|x r]; [by rewrite <- HTi, Hr0|].
      pose proof (Forall_inv Hcd1) as Hx. simpl in *. lia. }
    destruct (chrv_nz_lt p i1 ltac:(lia) E1) as [Hlt1 Hx1].
    destruct Hr1 as (Hname & Hend2 & Hcomp); [by rewrite (dropZ_cons _ _ _ Hx1)|].
    rewrite (bind_run _ _ _ _ _ (scan_run (λ c, negb (c =? 0) && negb (c =? 47)) p i1 st eq_refl ltac:(lia) ltac:(lia))).
    set (name := take_while _ (dropZ i1 p)) in *.
    pose proof (zlen_take_while_le (λ c, negb (c =? 0) && negb (c =? 47)) (dropZ i1 p)) as Hnl. fold name in Hnl.
    rewrite zlen_dropZ in Hnl by lia. rewrite dropZ_dropZ in Hend2, Hcomp by (lia || apply zlen_nonneg).
    assert (0 < zlen name) as Hn0 by (destruct name; [done|zlen_lia]).
    right. exists (i1 + zlen name, norm_step tmp name).
    assert (zlen tmp + 1 + zlen name ≤ 128 ∧ (tmp = [47] ∨ zlen tmp + 1 + zlen name ≤ 127) ∧
      zlen (norm_step tmp name) ≤ i1 + zlen name) as (Hb1 & Hb2 & Hb3).
    { destruct (decide (i = 0)) as [->|].
      - rewrite H0 by done. pose proof (zlen_norm_step_first name Hname).
        change (zlen [47]) with 1. split_and!; [lia|by left|lia].
      - pose proof (zlen_norm_step tmp name). split_and!; lia. }
    split_and!; try done || lia.
    + rewrite (bind_run _ _ (norm_step tmp name) st st); [done|].
      apply normalize_component_run; try done || lia.
      unfold sliceZ. replace (i1 + zlen name - i1) with (zlen name) by lia.
      destruct (take_while_split (λ c, negb (c =? 0) && negb (c =? 47)) (dropZ i1 p)) as (rest2 & E2 & _).
      fold name in E2. rewrite E2. by rewrite takeZ_app_zlen.
    + rewrite <- HTi, Hcomp. done.
Qed.

(** ** Absolute paths *)

Lemma c_str_id s : c_chars s → c_str s = s.
Proof.
  induction 1 as [|b s Hb _ IH]; [done|]. simpl. replace (b =? 0) with false by lia. by rewrite IH.
Qed.

Lemma append_bounded_run {S} out s (st : S) :
  c_chars s → zlen s < 18446744073709551616 → zlen out ≤ 127 →
  append_bounded out s st = Ret (out ++ takeZ (127 - zlen out) s) st.
Proof.
  intros Hs Hlen Hout. unfold append_bounded. set (n := Z.min (zlen s) (127 - zlen out)).
  pose proof (zlen_nonneg s). pose proof (zlen_nonneg out).
  assert (∀ k, 0 ≤ k ≤ n → zlen (takeZ k s) = k) as Hl by (intros; apply zlen_takeZ; lia).
  apply (loop_steps _ (λ k, (k, out ++ takeZ k s)) (λ _, st) n); [lia| |done| |].
  - by rewrite takeZ_0, app_nil_r.
  - intros k Hk. destruct (idx_is_Some s k) as [c Hc]; [lia|].
    pose proof (idx_c_char _ _ _ Hs Hc).
    rewrite (bind_run _ _ _ _ _ (chr_run s k st ltac:(lia))).
    unfold chrv. rewrite Hc. cbn [default from_option id]. rewrite zlen_app, Hl by lia.
    replace (negb (c =? 0) && (zlen out + k <? 127)) with true by lia.
    rewrite (bind_run _ _ _ _ _ (push_run 128 (out ++ takeZ k s) c st ltac:(rewrite zlen_app, Hl; lia))).
    by rewrite <- app_assoc, <- (takeZ_snoc _ _ _ Hc).
  - rewrite (bind_run _ _ _ _ _ (chr_run s n st ltac:(lia))). rewrite zlen_app, Hl by lia.
    destruct (decide (n = zlen s)) as [E|E].
    + unfold chrv. rewrite idx_None by lia. cbn [default from_option id Z.eqb negb andb].
      rewrite !takeZ_all by lia. done.
    + replace (zlen out + n <? 127) with false by lia. rewrite andb_false_r.
      by replace (127 - zlen out) with n by lia.
Qed.

Lemma append_n_run {S} buf n (st : S) : 0 ≤ n ≤ zlen buf → n ≤ 127 →
  append_n [] buf n st = Ret (takeZ n buf) st.
Proof.
  intros Hn Hle. unfold append_n.
  assert (∀ k, 0 ≤ k ≤ n → zlen (takeZ k buf) = k) as Hl by (intros; apply zlen_takeZ; lia).
  apply (loop_steps _ (λ k, (k, takeZ k buf)) (λ _, st) n); [lia|done|done| |].
  - intros k Hk. destruct (idx_is_Some buf k) as [c Hc]; [lia|]. rewrite Hl by lia.
    replace ((k <? n) && (k <? 127)) with true by lia. rewrite Hc.
    rewrite (bind_run _ _ c st st) by done.
    rewrite (bind_run _ _ _ _ _ (push_run 128 (takeZ k buf) c st ltac:(rewrite Hl; lia))).
    by rewrite (takeZ_snoc _ _ _ Hc).
  - replace (n <? n) with false by lia. done.
Qed.

(** The text an absolute path starts from: [rel] itself, or the working
    directory and [rel]; 127 characters of it are kept. *)
Definition abs_text (cw rel : bytes) : bytes :=
  if hd 0 rel =? 47 then takeZ 127 rel
  else match rel with
       | [] => cw
       | _ => takeZ 127 ((if last_is 47 cw then cw else cw ++ [47]) ++ rel)
       end.

Section abspath.
Context {K : Type} `{!Kernel K}.

(** What SYS_GETCWD answers in state [s]: no directory yet, which stands for
    the root, or an absolute path with its length. *)
Definition cwd_is (cw : bytes) (s : K) : Prop :=
  ∃ n buf, sys_getcwd 128 s = Ret (n, buf) s ∧
    ((s32 n ≤ 0 ∧ cw = [47]) ∨
     (s32 n = zlen cw ∧ buf = cw ++ [0] ∧ c_chars cw ∧ hd 0 cw = 47 ∧ zlen cw ≤ 127)).

Lemma abspath_text_ok cw rel : c_chars cw → hd 0 cw = 47 → zlen cw ≤ 127 → c_chars rel →
  c_chars (abs_text cw rel) ∧ hd 0 (abs_text cw rel) = 47 ∧ zlen (abs_text cw rel) ≤ 127.
Proof.
  intros Hc Hh Hl Hr. unfold abs_text.
  assert (∀ l : bytes, c_chars l → hd 0 l = 47 →
    c_chars (takeZ 127 l) ∧ hd 0 (takeZ 127 l) = 47 ∧ zlen (takeZ 127 l) ≤ 127) as Htake.
  { intros l H1 H2. split_and!; [by apply Forall_takeZ|by destruct l|].
    unfold zlen, takeZ. rewrite length_take. lia. }
  destruct (Z.eqb_spec (hd 0 rel) 47); [by apply Htake|].
  destruct rel as [|c rel]; [done|]. apply Htake.
  - apply c_chars_app. split; [|done]. destruct (last_is 47 cw); [done|].
    apply c_chars_app. split; [done|]. repeat constructor; lia.
  - destruct cw; [done|]. by destruct (last_is 47 _).
Qed.

Lemma abspath_run cw rel (s : K) :
  cwd_is cw s → c_chars rel → zlen rel < 18446744073709551616 →
  __rc_abspath rel s = Ret (canonical (abs_text cw rel)) s.
Proof.
  intros (n & buf & Hcall & Hcw) Hr Hlen. pose proof (zlen_nonneg rel).
  assert (∃ n' buf', (if (s32 n <=? 0) || (hd 0 buf =? 0) then ([47; 0], 1) else (buf, s32 n)) = (buf', n') ∧
    buf' = cw ++ [0] ∧ n' = zlen cw ∧ c_chars cw ∧ hd 0 cw = 47 ∧ zlen cw ≤ 127) as (n' & buf' & E' & -> & -> & Hc & Hh & Hl).
  { destruct Hcw as [[Hn ->]|(Hn & -> & Hc & Hh & Hl)].
    - replace (s32 n <=? 0) with true by lia. exists 1, [47; 0]. split_and!; try done.
      repeat constructor; lia.
    - destruct cw as [|c cw]; [done|]. simpl in Hh. subst c. cbn [app hd].
      replace ((s32 n <=? 0) || (47 =? 0)) with false by zlen_lia.
      exists (s32 n), (47 :: cw ++ [0]). done. }
  destruct (abspath_text_ok cw rel Hc Hh Hl Hr) as (Ht1 & Ht2 & Ht3).
  assert (∀ out, out = abs_text cw rel →
    (push 128 out 0 ;; rc_normalize (c_str out)) s = Ret (canonical (abs_text cw rel)) s) as Hfin.
  { intros out ->. rewrite (bind_run _ _ _ _ _ (push_run 128 (abs_text cw rel) 0 s ltac:(lia))).
    rewrite c_str_id by done. by apply rc_normalize_run. }
  assert (takeZ (zlen cw) (cw ++ [0]) = cw) as Hcwd by apply takeZ_app_zlen.
  pose proof (zlen_nonneg cw) as Hcw0.
  unfold __rc_abspath. rewrite (bind_run _ _ _ _ _ (chr_run rel 0 s ltac:(lia))).
  rewrite chrv_hd, dropZ_0 by lia. unfold abs_text in *.
  destruct (Z.eqb_spec (hd 0 rel) 47) as [E|E].
  - rewrite (bind_run _ _ _ _ _ (append_bounded_run [] rel s Hr Hlen ltac:(done))). by apply Hfin.
  - unfold rc_getcwd. rewrite (bind_run _ _ (s32 n, buf) s s) by (rewrite (bind_run _ _ _ _ _ Hcall); done).
    cbn beta iota. rewrite E'. cbn beta iota.
    destruct (Z.eqb_spec (hd 0 rel) 0) as [E0|E0].
    + destruct rel as [|c rel]; [|pose proof (Forall_inv Hr) as Hx; cbn in Hx, E0; lia].
      rewrite (bind_run _ _ _ _ _ (append_n_run (cw ++ [0]) (zlen cw) s ltac:(zlen_lia) ltac:(lia))).
      rewrite Hcwd. by apply Hfin.
    + rewrite (bind_run _ _ _ _ _ (append_n_run (cw ++ [0]) (zlen cw) s ltac:(zlen_lia) ltac:(lia))).
      rewrite Hcwd. destruct rel as [|c rel]; [done|].
      set (pre := if last_is 47 cw then cw else cw ++ [47]) in *.
      assert ((if (zlen cw <? 127) && negb (last_is 47 cw) then push 128 cw 47 else ret cw) s
        = Ret (takeZ 127 pre) s) as Hpre.
      { unfold pre. destruct (last_is 47 cw); [rewrite andb_false_r, takeZ_all by lia; done|].
        rewrite andb_true_r. destruct (Z.ltb_spec (zlen cw) 127).
        - rewrite push_run, takeZ_all by zlen_lia. done.
        - replace 127 with (zlen cw) by lia. by rewrite takeZ_app_zlen. }
      rewrite (bind_run _ _ _ _ _ Hpre).
      assert (zlen (takeZ 127 pre) = Z.min 127 (zlen pre)) as Hzp
        by (unfold zlen, takeZ; rewrite length_take; lia).
      rewrite (bind_run _ _ _ _ _ (append_bounded_run (takeZ 127 pre) (c :: rel) s Hr Hlen ltac:(lia))).
      apply Hfin. rewrite Hzp. unfold takeZ, zlen. rewrite take_app.
      f_equal. f_equal. lia.
Qed.

(** An absolute path needs no current directory. *)
Lemma abspath_absolute rel (s : K) : c_chars rel → hd 0 rel = 47 → zlen rel < 128 →
  __rc_abspath rel s = Ret (canonical rel) s.
Proof.
  intros Hr Hh Hl. destruct (abspath_text_ok [47] rel) as (Ht1 & Ht2 & Ht3); [by repeat constructor|done..|].
  assert (abs_text [47] rel = rel) as E by (unfold abs_text; rewrite Hh, Z.eqb_refl, takeZ_all; done || lia).
  rewrite E in *. unfold __rc_abspath. rewrite (bind_run _ _ _ _ _ (chr_run rel 0 s ltac:(pose proof (zlen_nonneg rel); lia))).
  rewrite chrv_hd, dropZ_0, Hh, Z.eqb_refl by lia.
  rewrite (bind_run _ _ _ _ _ (append_bounded_run [] rel s Hr ltac:(lia) ltac:(done))). cbn [app].
  rewrite takeZ_all by (change (zlen []) with 0; lia).
  rewrite (bind_run _ _ _ _ _ (push_run 128 rel 0 s ltac:(lia))). rewrite c_str_id by done. by apply rc_normalize_run.
Qed.
End abspath.

(** C21: rc_normalize resolves every absolute path that fits its buffer exactly
    as a directory walk does ("//", "." and ".." at every depth, ".." at the
    root staying there), terminates, and never leaves its 128-byte buffer. *)
Theorem rc_normalize_correct {S} (p : bytes) (st : S) (Hp : c_chars p) (Habs : hd 0 p = 47)
    (Hlen : zlen p ≤ 127) :
  rc_normalize p st = Ret (canonical p) st ∧ zlen (canonical p) ≤ zlen p.
Proof. split; [by apply rc_normalize_run|by apply zlen_canonical]. Qed.

(** ["/a//./b/../../../c/"] is ["/c"]. *)
Lemma rc_normalize_correct_witness :
  canonical [47;97;47;47;46;47;98;47;46;46;47;46;46;47;46;46;47;99;47] = [47;99] ∧
  rc_normalize [47;97;47;47;46;47;98;47;46;46;47;46;46;47;46;46;47;99;47] tt = Ret [47;99] tt.
Proof.
  split; [reflexivity|].
  apply (rc_normalize_correct [47;97;47;47;46;47;98;47;46;46;47;46;46;47;46;46;47;99;47] tt);
    [apply c_chars_b_sound; reflexivity|reflexivity|vm_compute; discriminate].
Defined.
