(* ===== verification/FileServer.v ===== *)
(** What the C library expects of the name space and the file server (fsd).

    [FileServer] states the wire protocol of include/racccoon/syscall.h and
    user/user.c3 ("FS_READ_AT", "FS_WRITE_AT", "FS_STAT", "FS_DELETE") as laws
    over an abstract view of the server: which files exist, with which contents.
    A server may read or write less than asked, and may refuse to write; it
    never invents bytes.  The lemmas below discharge the protocol once, for the
    calls of rc_fs.c; the file-descriptor layer is proved against them. *)
From S2P Require Import Prelude CMonad CMemory CBuffer Kernel RcFs.

Record fsview := FsView {
  v_files : gmap (Z * bytes) bytes;    (* by server pid and server-relative path *)
  v_dirs : gset (Z * bytes);
}.

Definition set_files (f : gmap (Z * bytes) bytes) (v : fsview) : fsview :=
  FsView f (v_dirs v).

(** The contents after [data] was written at [off] (not beyond the end). *)
Definition write_at (off : Z) (data c : bytes) : bytes :=
  takeZ off c ++ data ++ dropZ (off + zlen data) c.

Lemma idx_write_at off data c i : 0 ≤ off ≤ zlen c →
  idx (write_at off data c) i = if decide (off ≤ i < off + zlen data) then idx data (i - off) else idx c i.
Proof.
  intros. pose proof (zlen_nonneg data). pose proof (zlen_takeZ off c ltac:(lia)) as Ht. unfold write_at.
  destruct (decide (i < 0)); [rewrite decide_False, !idx_None by lia; done|].
  destruct (decide (i < off)).
  - rewrite idx_app_l, decide_False by lia. by apply idx_takeZ.
  - rewrite idx_app_r, Ht by lia. case_decide.
    + by rewrite idx_app_l by lia.
    + rewrite idx_app_r by lia. rewrite idx_dropZ by lia. f_equal. lia.
Qed.

Lemma zlen_write_at off data c : 0 ≤ off ≤ zlen c →
  zlen (write_at off data c) = Z.max (zlen c) (off + zlen data).
Proof.
  intros. pose proof (zlen_nonneg data). unfold write_at. rewrite !zlen_app, zlen_takeZ by lia.
  destruct (decide (off + zlen data ≤ zlen c)).
  - rewrite zlen_dropZ by lia. lia.
  - rewrite dropZ_all by lia. change (zlen []) with 0. lia.
Qed.

Lemma write_at_nil off c : 0 ≤ off ≤ zlen c → write_at off [] c = c.
Proof.
  intros. apply list_eq_idx. intros i. rewrite idx_write_at by done.
  by rewrite decide_False by (change (zlen []) with 0; lia).
Qed.

(** Two writes in a row, the second where the first ended. *)
Lemma write_at_write_at off d1 d2 c : 0 ≤ off ≤ zlen c →
  write_at (off + zlen d1) d2 (write_at off d1 c) = write_at off (d1 ++ d2) c.
Proof.
  intros Hoff. pose proof (zlen_nonneg d1). pose proof (zlen_nonneg d2). apply list_eq_idx. intros i.
  pose proof (zlen_write_at off d1 c Hoff).
  rewrite !idx_write_at by lia. rewrite zlen_app. repeat case_decide; try lia; try done.
  - rewrite idx_app_r by lia. f_equal. lia.
  - by rewrite idx_app_l by lia.
Qed.

Lemma sliceZ_write_at off data c : 0 ≤ off ≤ zlen c →
  sliceZ off (zlen data) (write_at off data c) = data.
Proof.
  intros. pose proof (zlen_nonneg data). apply list_eq_idx. intros i.
  destruct (decide (0 ≤ i < zlen data)).
  - rewrite idx_sliceZ, idx_write_at, decide_True by lia. f_equal. lia.
  - destruct (decide (i < 0)); [by rewrite !idx_None by lia|].
    rewrite (idx_None data) by lia. unfold sliceZ. by rewrite idx_takeZ_ge by lia.
Qed.

(** A reply of the same verb whose first field is [v]. *)
Definition reply_is (reply : bytes) (v : Z) : Prop :=
  zlen reply = RC_FS_MSG_MAX ∧ sliceZ 0 4 reply = le_split 4 (u32 v).

(** A path is resolved to a server and the name the server knows it by.  In a
    union the two ways to resolve differ: lookups go to the first member
    ([srv]), creation and writes to the create member ([srv_c]), which is the
    first one when there is no union.  [fsd] are the processes that serve files
    with the FS_ verbs; a path may also lead to some other server, or nowhere
    (-1), and then nothing is promised.  The view holds the files the process
    is allowed to read. *)
Class FileServer (K : Type) `{!Kernel K} := {
  view : K → fsview;
  srv : bytes → Z * bytes;
  srv_c : bytes → Z * bytes;
  fsd : Z → Prop;
  fsd_range pid : fsd pid → 0 < pid ≤ INT_MAX;
  files_fsd s pid name : is_Some (v_files (view s) !! (pid, name)) → fsd pid;
  translate_law s ap : zlen ap < 100 → c_chars ap → sys_ns_translate ap 0 100 s = Ret (srv ap) s;
  create_law s ap : zlen ap < 100 → c_chars ap → sys_ns_translate ap (-1) 100 s = Ret (srv_c ap) s;
  srv_name ap : zlen ap < 100 → c_chars ap → fsd (srv ap).1 →
    c_chars (srv ap).2 ∧ zlen (srv ap).2 < 100;
  srv_c_name ap : zlen ap < 100 → c_chars ap → fsd (srv_c ap).1 →
    c_chars (srv_c ap).2 ∧ zlen (srv_c ap).2 < 100;
  read_law s pid req c :
    zlen req = RC_FS_MSG_MAX → is_bytes req → v_files (view s) !! (pid, req_name req) = Some c →
    req_u32 100 req ≤ INT_MAX →
    ∃ n reply s', sys_ipc_call pid RC_FS_READ_AT req s = Ret (pid, RC_FS_READ_AT, reply) s' ∧
      view s' = view s ∧ reply_is reply n ∧ sliceZ 4 n reply = sliceZ (req_u32 104 req) n c ∧
      0 ≤ n ≤ Z.min (req_u32 100 req) (RC_FS_MSG_MAX - 4) ∧
      n ≤ Z.max 0 (zlen c - req_u32 104 req) ∧
      (0 < req_u32 100 req → req_u32 104 req < zlen c → 0 < n);
  write_law s pid req c :
    fsd pid → zlen req = RC_FS_MSG_MAX → is_bytes req →
    default [] (v_files (view s) !! (pid, req_name req)) = c →
    (pid, req_name req) ∉ v_dirs (view s) →
    req_u32 100 req ≤ RC_FS_WRITE_AT_MAXCHUNK → req_u32 104 req ≤ zlen c →
    req_u32 104 req ≠ 4294967295 →
    ∃ n reply s', sys_ipc_call pid RC_FS_WRITE_AT req s = Ret (pid, RC_FS_WRITE_AT, reply) s' ∧
      reply_is reply n ∧
      ((n = -1 ∧ view s' = view s) ∨
       (0 ≤ n ≤ req_u32 100 req ∧
        view s' = set_files (<[(pid, req_name req) := write_at (req_u32 104 req) (sliceZ 108 n req) c]>
                    (v_files (view s))) (view s)));
  stat_law s pid req :
    fsd pid → zlen req = RC_FS_MSG_MAX → is_bytes req →
    ∃ n reply s', sys_ipc_call pid RC_FS_STAT req s = Ret (pid, RC_FS_STAT, reply) s' ∧
      view s' = view s ∧ reply_is reply n ∧
      match v_files (view s) !! (pid, req_name req) with
      | Some c => n = 0 ∧ (zlen c < 4294967296 → sliceZ 4 4 reply = le_split 4 (zlen c)) ∧ sliceZ 8 1 reply = [0]
      | None => (pid, req_name req) ∈ v_dirs (view s) → n = 0 ∧ sliceZ 8 1 reply = [1]
      end;
  delete_law s pid req :
    fsd pid → zlen req = RC_FS_MSG_MAX → is_bytes req →
    ∃ n reply s', sys_ipc_call pid RC_FS_DELETE req s = Ret (pid, RC_FS_DELETE, reply) s' ∧
      reply_is reply n ∧
      ((n = -1 ∧ view s' = view s) ∨
       (n = 0 ∧ is_Some (v_files (view s) !! (pid, req_name req)) ∧
        view s' = set_files (delete (pid, req_name req) (v_files (view s))) (view s)) ∨
       (n = 0 ∧ v_files (view s) !! (pid, req_name req) = None ∧ v_files (view s') = v_files (view s)));
}.

(** The paths the descriptor layer keeps: absolute, canonical, short enough for
    a request. *)
Definition abs_ok (ap : bytes) : Prop :=
  c_chars ap ∧ hd 0 ap = 47 ∧ zlen ap < 100 ∧ canonical ap = ap.

(** What a server has under a name, and what the lookup of a path finds. *)
Definition held {K} `{FileServer K} (s : K) (t : Z * bytes) : option bytes := v_files (view s) !! t.
Definition v_file {K} `{FileServer K} (s : K) (ap : bytes) : option bytes := held s (srv ap).

(** A file can be written at [t]: a file server is there, and no directory. *)
Definition writable {K} `{FileServer K} (s : K) (t : Z * bytes) : Prop :=
  fsd t.1 ∧ t ∉ v_dirs (view s).

(** A name a request to a file server can carry. *)
Definition target_ok {K} `{FileServer K} (t : Z * bytes) : Prop :=
  fsd t.1 ∧ c_chars t.2 ∧ zlen t.2 < 100.

Section calls.
Context {K : Type} `{FileServer K}.
Implicit Types (s : K) (ap : bytes).

Lemma abspath_abs s ap : abs_ok ap → __rc_abspath ap s = Ret ap s.
Proof using Type*.
  intros (Hc & Hh & Hl & Hcan). rewrite abspath_absolute by (done || lia). by rewrite Hcan.
Qed.

Lemma srv_target s ap c : abs_ok ap → v_file s ap = Some c → target_ok (srv ap).
Proof using Type*.
  intros (Hc & _ & Hl & _) Hf. assert (fsd (srv ap).1) as Hp.
  { apply (files_fsd s _ (srv ap).2). rewrite <- surjective_pairing. by exists c. }
  split; [done|]. by apply srv_name.
Qed.

Lemma srv_c_target s ap : abs_ok ap → writable s (srv_c ap) → target_ok (srv_c ap).
Proof using Type*. intros (Hc & _ & Hl & _) [Hp _]. split; [done|]. by apply srv_c_name. Qed.

(** Resolving a path that leads to a file server, for a lookup (member 0) or
    for creation (member -1). *)
Lemma resolve_run m ap t req s : sys_ns_translate ap m 100 s = Ret t s → target_ok t → 100 ≤ zlen req →
  resolve_member m ap req s = Ret (t.1, spliced 0 (t.2 ++ [0]) req) s.
Proof using Type*.
  intros Et (Hp & _ & Hn) Hr. apply fsd_range in Hp.
  unfold resolve_member, rc_ns_translate.
  rewrite (bind_run _ _ (s32 t.1, t.2) s s).
  2:{ rewrite (bind_run _ _ _ _ _ Et). by destruct t. }
  cbn beta iota. rewrite s32_id by (unfold INT_MIN, INT_MAX in *; lia).
  replace (t.1 <? 0) with false by lia.
  rewrite (bind_run _ _ _ _ _ (splice_run 0 (t.2 ++ [0]) req s ltac:(lia) ltac:(zlen_lia))).
  done.
Qed.

Lemma resolve_lookup_run s ap req : abs_ok ap → target_ok (srv ap) → 100 ≤ zlen req →
  resolve_stripped ap req s = Ret ((srv ap).1, spliced 0 ((srv ap).2 ++ [0]) req) s.
Proof using Type*. intros (Hc & _ & Hl & _). apply resolve_run. by apply translate_law. Qed.

Lemma resolve_create_run s ap req : abs_ok ap → target_ok (srv_c ap) → 100 ≤ zlen req →
  resolve_stripped_c ap req s = Ret ((srv_c ap).1, spliced 0 ((srv_c ap).2 ++ [0]) req) s.
Proof using Type*. intros (Hc & _ & Hl & _). apply resolve_run. by apply create_law. Qed.

Lemma fsd_call_run pid verb req from reply s s' : 0 < from ≤ INT_MAX →
  sys_ipc_call pid verb req s = Ret (from, verb, reply) s' →
  rc_fsd_call pid verb req s = Ret (from, verb, reply) s'.
Proof using Type*.
  intros Hf E. unfold rc_fsd_call. rewrite (bind_run _ _ _ _ _ E). unfold ret.
  by rewrite s32_id by (unfold INT_MIN, INT_MAX in *; lia).
Qed.

Lemma reply_s32 reply v s : reply_is reply v → INT_MIN ≤ v ≤ INT_MAX → get_s32 0 reply s = Ret v s.
Proof using Type*. intros [Hl E] Hv. apply get_s32_run; [lia|rewrite Hl; done|done|done]. Qed.

Context (junk : bytes) (Hjunk : zlen junk = RC_FS_MSG_MAX) (Hjb : is_bytes junk).

(** A request as rc_fs.c builds it: the name, two words, the data behind them. *)
Definition request (t : Z * bytes) len off : bytes :=
  spliced 104 (le_split 4 (u32 off)) (spliced 100 (le_split 4 (u32 len))
    (spliced 0 (t.2 ++ [0]) junk)).

Lemma request_ok t len off : target_ok t →
  zlen (request t len off) = RC_FS_MSG_MAX ∧ is_bytes (request t len off) ∧
  req_name (request t len off) = t.2 ∧
  req_u32 100 (request t len off) = u32 len ∧ req_u32 104 (request t len off) = u32 off.
Proof using Hjb Hjunk.
  intros (_ & Hn & Hnl). unfold RC_FS_MSG_MAX in *.
  assert (zlen (spliced 0 (t.2 ++ [0]) junk) = 8192) as H0 by (rewrite zlen_spliced; zlen_lia).
  assert (zlen (spliced 100 (le_split 4 (u32 len)) (spliced 0 (t.2 ++ [0]) junk)) = 8192) as H1
    by (rewrite zlen_spliced; change (zlen (le_split 4 (u32 len))) with 4; lia).
  unfold request. change (zlen (le_split 4 (u32 len))) with 4 in *. split_and!.
  - rewrite zlen_spliced; change (zlen (le_split 4 (u32 off))) with 4; lia.
  - repeat apply is_bytes_spliced; try apply le_split_bytes; [|done].
    apply Forall_app. split; [by apply c_chars_is_bytes|repeat constructor; lia].
  - rewrite req_name_spliced_other by (lia || (change (zlen (le_split 4 (u32 off))) with 4; lia)).
    rewrite req_name_spliced_other by (lia || (change (zlen (le_split 4 (u32 len))) with 4; lia)).
    apply req_name_spliced_name; [done|lia|lia].
  - rewrite req_u32_spliced_other by (lia || (change (zlen (le_split 4 (u32 off))) with 4; lia)).
    apply req_u32_spliced_same; lia.
  - apply req_u32_spliced_same; lia.
Qed.

Definition named (t : Z * bytes) : bytes := spliced 0 (t.2 ++ [0]) junk.

Lemma zlen_named t : target_ok t → zlen (named t) = RC_FS_MSG_MAX.
Proof using Hjb Hjunk.
  intros (_ & _ & ?). unfold named. rewrite zlen_spliced; [done|lia|]. rewrite Hjunk. unfold RC_FS_MSG_MAX. zlen_lia.
Qed.

Lemma named_ok t : target_ok t → is_bytes (named t) ∧ req_name (named t) = t.2.
Proof using Hjb Hjunk.
  intros (_ & ? & ?). split.
  - apply is_bytes_spliced; [|done].
    apply Forall_app. split; [by apply c_chars_is_bytes|repeat constructor; lia].
  - apply req_name_spliced_name; [done|lia|rewrite Hjunk; done].
Qed.

Lemma request_run {A} t len off (k : bytes → M K A) s : target_ok t →
  (req <- put_u32 100 len (named t) ;; req <- put_u32 104 off req ;; k req) s
  = k (request t len off) s.
Proof using Hjb Hjunk.
  intros Ha. pose proof (zlen_named t Ha) as Hz. unfold RC_FS_MSG_MAX in Hz.
  rewrite (bind_run _ _ _ _ _ (put_u32_run 100 len (named t) s ltac:(lia) ltac:(rewrite Hz; lia))).
  set (r1 := spliced 100 _ (named t)).
  assert (zlen r1 = 8192) as Hz1 by (unfold r1; rewrite zlen_spliced; [done|lia|rewrite Hz; done]).
  by rewrite (bind_run _ _ _ _ _ (put_u32_run 104 off r1 s ltac:(lia) ltac:(rewrite Hz1; lia))).
Qed.

(** __rc_fs_read_at: a prefix of what is in the file at [off], empty only at
    its end. *)
Lemma read_at_run s ap len off c :
  abs_ok ap → v_file s ap = Some c → 0 ≤ len ≤ INT_MAX → 0 ≤ off < 4294967296 →
  ∃ n s', __rc_fs_read_at junk ap len off s = Ret (n, sliceZ off n c) s' ∧ view s' = view s ∧
    0 ≤ n ≤ len ∧ n ≤ Z.max 0 (zlen c - off) ∧ (0 < len → off < zlen c → 0 < n).
Proof using Hjb Hjunk.
  intros Ha Hc Hlen Hoff. pose proof (srv_target s ap c Ha Hc) as Ht.
  destruct (request_ok (srv ap) len off Ht) as (R1 & R2 & R3 & R4 & R5).
  unfold INT_MAX in Hlen. rewrite u32_id in R4, R5 by lia.
  destruct (read_law s (srv ap).1 (request (srv ap) len off) c) as (n & reply & s' & Ecall & Ev & Er & Ed & Hn1 & Hn2 & Hn3);
    [done|done|by rewrite R3, <- surjective_pairing|rewrite R4; unfold INT_MAX; lia|].
  rewrite R4, R5 in *. pose proof (fsd_range _ (proj1 Ht)) as Hp.
  exists n, s'. split; [|split_and!; try done; lia].
  unfold __rc_fs_read_at. rewrite (bind_run _ _ _ _ _ (abspath_abs s ap Ha)). 
  rewrite (bind_run _ _ _ _ _ (resolve_lookup_run s ap junk Ha Ht ltac:(rewrite Hjunk; done))). cbn beta iota.
  replace ((srv ap).1 <? 0) with false by lia.
  fold (named (srv ap)). rewrite request_run by done.
  rewrite (bind_run _ _ _ _ _ (fsd_call_run _ _ _ _ _ _ _ Hp Ecall)). cbn beta iota.
  replace ((srv ap).1 <=? 0) with false by lia. rewrite Z.eqb_refl. cbn [orb negb].
  unfold reply_data. unfold RC_FS_MSG_MAX in *.
  rewrite (bind_run _ _ _ _ _ (reply_s32 _ _ s' Er ltac:(unfold INT_MIN, INT_MAX; lia))).
  replace (n <? 0) with false by lia. replace (len <? n) with false by lia.
  rewrite (bind_run _ _ _ _ _ (peek_run 4 n reply s' ltac:(lia) ltac:(lia) ltac:(destruct Er as [-> _]; unfold RC_FS_MSG_MAX; lia))).
  by rewrite Ed.
Qed.

(** __rc_fs_write_at: the first [n] bytes are at [off] of the file in the create
    member now, or nothing changed. *)
Lemma write_at_run s ap buf len off c :
  abs_ok ap → writable s (srv_c ap) → default [] (held s (srv_c ap)) = c →
  is_bytes buf → 0 ≤ len ≤ RC_FS_WRITE_AT_MAXCHUNK → len ≤ zlen buf →
  0 ≤ off ≤ zlen c → off < 4294967295 →
  ∃ n s', __rc_fs_write_at junk ap buf len off s = Ret n s' ∧
    ((n = -1 ∧ view s' = view s) ∨
     (0 ≤ n ≤ len ∧
      view s' = set_files (<[srv_c ap := write_at off (takeZ n buf) c]> (v_files (view s))) (view s))).
Proof using Hjb Hjunk.
  intros Ha [Hf Hd] Hc Hb Hlen Hbuf Hoff Hmax. unfold RC_FS_WRITE_AT_MAXCHUNK in Hlen.
  pose proof (srv_c_target s ap Ha (conj Hf Hd)) as Ht.
  destruct (request_ok (srv_c ap) len off Ht) as (R1 & R2 & R3 & R4 & R5).
  set (q := request (srv_c ap) len off) in *.
  rewrite u32_id in R4, R5 by lia. unfold RC_FS_MSG_MAX in R1.
  assert (zlen (takeZ len buf) = len) as Hzd by (apply zlen_takeZ; lia).
  set (req := spliced 108 (takeZ len buf) (q)).
  assert (zlen req = 8192) as W1 by (unfold req; rewrite zlen_spliced; lia).
  assert (is_bytes req) as W2 by (apply is_bytes_spliced; [by apply Forall_takeZ|done]).
  assert (req_name req = (srv_c ap).2) as W3 by (unfold req; rewrite req_name_spliced_other; [done|lia|lia]).
  assert (req_u32 100 req = len) as W4 by (unfold req; rewrite req_u32_spliced_other; lia).
  assert (req_u32 104 req = off) as W5 by (unfold req; rewrite req_u32_spliced_other; lia).
  pose proof (fsd_range _ Hf) as Hp.
  destruct (write_law s (srv_c ap).1 req c) as (n & reply & s' & Ecall & Er & Hres);
    [done|done|done|by rewrite W3, <- surjective_pairing|by rewrite W3, <- surjective_pairing|unfold RC_FS_WRITE_AT_MAXCHUNK; lia|lia|lia|].
  rewrite W3, W4, W5, <- surjective_pairing in Hres.
  exists n, s'. split.
  - unfold __rc_fs_write_at. rewrite (bind_run _ _ _ _ _ (abspath_abs s ap Ha)).
    rewrite (bind_run _ _ _ _ _ (resolve_create_run s ap junk Ha Ht ltac:(rewrite Hjunk; done))). cbn beta iota.
    replace ((srv_c ap).1 <? 0) with false by lia. unfold RC_FS_WRITE_AT_MAXCHUNK.
    replace (len <? 0) with false by lia. replace (8192 - 108 <? len) with false by lia. cbn zeta.
    fold (named (srv_c ap)). rewrite request_run by done. fold q.
    rewrite (bind_run _ _ _ _ _ (peek_run 0 len buf s ltac:(lia) ltac:(lia) ltac:(lia))).
    change (sliceZ 0 len buf) with (takeZ len buf).
    rewrite (bind_run _ _ _ _ _ (splice_run 108 (takeZ len buf) (q) s ltac:(lia) ltac:(lia))).
    fold req. rewrite (bind_run _ _ _ _ _ (fsd_call_run _ _ _ _ _ _ _ Hp Ecall)). cbn beta iota.
    replace ((srv_c ap).1 <=? 0) with false by lia. rewrite Z.eqb_refl. cbn [orb negb].
    apply reply_s32; [done|]. unfold INT_MIN, INT_MAX. lia.
  - destruct Hres as [?|[Hn ->]]; [by left|]. right. split; [done|]. do 4 f_equal.
    unfold req. transitivity (takeZ n (sliceZ 108 (zlen (takeZ len buf)) (spliced 108 (takeZ len buf) (q)))).
    + unfold sliceZ, takeZ, dropZ. rewrite take_take. f_equal. unfold takeZ in Hzd. lia.
    + rewrite slice_spliced_same by lia. unfold takeZ. rewrite take_take. f_equal. lia.
Qed.

(** A longer request is cut to one message. *)
Lemma write_at_clamp s ap buf len off : 0 ≤ len →
  __rc_fs_write_at junk ap buf len off s =
  __rc_fs_write_at junk ap buf (Z.min len RC_FS_WRITE_AT_MAXCHUNK) off s.
Proof using.
  intros Hlen. unfold __rc_fs_write_at, RC_FS_WRITE_AT_MAXCHUNK.
  replace (len <? 0) with false by lia. replace (Z.min len (8192 - 108) <? 0) with false by lia.
  replace (if 8192 - 108 <? len then 8192 - 108 else len) with (Z.min len (8192 - 108))
    by (destruct (Z.ltb_spec (8192 - 108) len); lia).
  by replace (8192 - 108 <? Z.min len (8192 - 108)) with false by lia.
Qed.

(** __rc_fs_stat on a file *)
Lemma stat_run s ap c : abs_ok ap → v_file s ap = Some c → zlen c < 4294967296 →
  ∃ s', view s' = view s ∧ __rc_fs_stat junk ap s = Ret (Some (zlen c, 0)) s'.
Proof using Hjb Hjunk.
  intros Ha Hc Hsz. pose proof (srv_target s ap c Ha Hc) as Ht. pose proof (fsd_range _ (proj1 Ht)) as Hp.
  pose proof (zlen_named _ Ht) as Hz. destruct (named_ok _ Ht) as [Hnb Hn].
  destruct (stat_law s (srv ap).1 (named (srv ap)) (proj1 Ht) Hz Hnb) as (n & reply & s' & Ecall & Ev & Er & Hst).
  rewrite Hn, <- surjective_pairing in Hst. unfold v_file, held in Hc. rewrite Hc in Hst.
  destruct Hst as (-> & Hs4 & Hs8). exists s'. split; [done|].
  unfold __rc_fs_stat. rewrite (bind_run _ _ _ _ _ (abspath_abs s ap Ha)).
  rewrite (bind_run _ _ _ _ _ (resolve_lookup_run s ap junk Ha Ht ltac:(rewrite Hjunk; done))). cbn beta iota.
  replace ((srv ap).1 <? 0) with false by lia. fold (named (srv ap)).
  rewrite (bind_run _ _ _ _ _ (fsd_call_run _ _ _ _ _ _ _ Hp Ecall)). cbn beta iota.
  replace ((srv ap).1 <=? 0) with false by lia. rewrite Z.eqb_refl. cbn [orb negb].
  pose proof (proj1 Er) as Hrl. unfold RC_FS_MSG_MAX in Hrl. pose proof (zlen_nonneg c).
  rewrite (bind_run _ _ _ _ _ (reply_s32 _ _ s' Er ltac:(done))). cbn [Z.ltb Z.compare].
  rewrite (bind_run _ _ _ _ _ (get_u32_run 4 reply (zlen c) s' ltac:(lia) ltac:(lia) (Hs4 Hsz) ltac:(lia))).
  rewrite (bind_run _ _ _ _ _ (peek_run 8 1 reply s' ltac:(lia) ltac:(lia) ltac:(lia))). by rewrite Hs8.
Qed.

(** __rc_fs_delete *)
Lemma delete_run s ap recur : abs_ok ap → is_Some (v_file s ap) → 0 ≤ recur < 4294967296 →
  ∃ n s', __rc_fs_delete junk ap recur s = Ret n s' ∧
    ((n = -1 ∧ view s' = view s) ∨
     (n = 0 ∧ view s' = set_files (delete (srv ap) (v_files (view s))) (view s))).
Proof using Hjb Hjunk.
  intros Ha [c Hc] Hrec. pose proof (srv_target s ap c Ha Hc) as Ht. pose proof (fsd_range _ (proj1 Ht)) as Hp.
  pose proof (zlen_named _ Ht) as Hz.
  set (req := spliced 100 (le_split 4 (u32 recur)) (named (srv ap))).
  assert (zlen req = 8192) as W1 by (unfold req; rewrite zlen_spliced; rewrite ?Hz; done).
  destruct (named_ok _ Ht) as [Hnb0 Hn0].
  assert (req_name req = (srv ap).2) as Hn
    by (unfold req; rewrite req_name_spliced_other by (rewrite ?Hz; done); done).
  assert (is_bytes req) as Hnb by (apply is_bytes_spliced; [apply le_split_bytes|done]).
  destruct (delete_law s (srv ap).1 req (proj1 Ht) W1 Hnb) as (n & reply & s' & Ecall & Er & Hres).
  rewrite Hn, <- surjective_pairing in Hres. exists n, s'. split.
  - unfold __rc_fs_delete, simple_verb. rewrite (bind_run _ _ _ _ _ (abspath_abs s ap Ha)).
    rewrite (bind_run _ _ _ _ _ (resolve_lookup_run s ap junk Ha Ht ltac:(rewrite Hjunk; done))). cbn beta iota.
    replace ((srv ap).1 <? 0) with false by lia. fold (named (srv ap)).
    rewrite (bind_run _ _ _ _ _ (put_u32_run 100 recur (named (srv ap)) s ltac:(lia) ltac:(rewrite Hz; done))).
    fold req. rewrite (bind_run _ _ _ _ _ (fsd_call_run _ _ _ _ _ _ _ Hp Ecall)). cbn beta iota.
    replace ((srv ap).1 <=? 0) with false by lia. rewrite Z.eqb_refl. cbn [orb negb].
    apply reply_s32; [done|]. unfold INT_MIN, INT_MAX. lia.
  - unfold v_file, held in Hc. destruct Hres as [?|[(? & _ & ?)|(_ & Hnone & _)]]; [by left|by right|congruence].
Qed.
End calls.
