(* ===== verification/Ram.v ===== *)
(** A concrete kernel: one process, an in-memory file server, a store of
    environment variables, a console.

    It instantiates [Kernel] and satisfies [FileServer], so that the theorems
    proved for every kernel can be run on concrete inputs.  Its name space is the
    one of a login: process 1 serves the files, process 2 what is under "/env/",
    and "/bin/" is a union whose create member is "/usr/".  It is not a model of
    any code of the repository. *)
From S2P Require Import Prelude CMonad CMemory CBuffer Kernel RcFs FileServer.

Record ram := Ram {
  ram_files : gmap bytes bytes;
  ram_dirs : gset bytes;
  ram_out : bytes;          (* what was written to the console *)
  ram_in : bytes;           (* what will be typed there *)
  ram_time : Z;
  ram_children : list Z;    (* exit codes waiting to be joined *)
  ram_env : gmap bytes bytes;
}.

(** Nothing on it, nothing typed. *)
Definition ram0 : ram := Ram ∅ ∅ [] [] 0 [] ∅.

Definition ram_set_files (f : gmap bytes bytes) (r : ram) : ram :=
  Ram f (ram_dirs r) (ram_out r) (ram_in r) (ram_time r) (ram_children r) (ram_env r).

(** The name space: members 0 and 1 of a path, and the one for creation. *)
Definition ram_srv (path : bytes) : Z * bytes :=
  if bool_decide (takeZ 5 path = str "/env/") then (2, dropZ 5 path) else (1, path).
Definition ram_union (path : bytes) : option (Z * bytes) :=
  if bool_decide (takeZ 5 path = str "/bin/") then Some (1, str "/usr/" ++ dropZ 5 path) else None.
Definition ram_srv_c (path : bytes) : Z * bytes := default (ram_srv path) (ram_union path).
Definition ram_translate (path : bytes) (m : Z) : Z * bytes :=
  if m =? 0 then ram_srv path
  else if m =? -1 then ram_srv_c path
  else if m =? 1 then default (-1, path) (ram_union path)
  else (-1, path).

(** The variables: strings of at most 63 characters. *)
Definition env_value (v : bytes) : Prop := zlen v ≤ 63 ∧ c_chars_b v = true.
#[export] Instance env_value_dec v : Decision (env_value v).
Proof. unfold env_value. apply _. Defined.
Definition ram_store (r : ram) : gmap bytes bytes := filter (λ kv, env_value kv.2) (ram_env r).

Definition ram_reply (n : Z) (data req : bytes) : bytes :=
  spliced 0 (le_split 4 (u32 n) ++ data) req.

(** The verbs of the file server; a request is always of the full message length. *)
Definition ram_fs_call (pid verb : Z) (req : bytes) : M ram (Z * Z * bytes) := λ r,
  let key := req_name req in
  let len := req_u32 100 req in
  let off := req_u32 104 req in
  if verb =? RC_FS_READ_AT then
    match ram_files r !! key with
    | Some c =>
        let n := Z.max 0 (Z.min (Z.min len (RC_FS_MSG_MAX - 4)) (zlen c - off)) in
        Ret (pid, verb, ram_reply n (sliceZ off n c) req) r
    | None => Ret (pid, verb, ram_reply (-1) [] req) r
    end
  else if verb =? RC_FS_WRITE_AT then
    let c := default [] (ram_files r !! key) in
    let len := Z.min len RC_FS_WRITE_AT_MAXCHUNK in
    let off := if off =? 4294967295 then zlen c else off in
    if (zlen c <? off) || bool_decide (key ∈ ram_dirs r) then Ret (pid, verb, ram_reply (-1) [] req) r
    else Ret (pid, verb, ram_reply len [] req)
           (ram_set_files (<[key := write_at off (sliceZ 108 len req) c]> (ram_files r)) r)
  else if verb =? RC_FS_STAT then
    match ram_files r !! key with
    | Some c => Ret (pid, verb, ram_reply 0 (le_split 4 (u32 (zlen c)) ++ [0]) req) r
    | None => Ret (pid, verb, ram_reply (if decide (key ∈ ram_dirs r) then 0 else -1)
                                (le_split 4 0 ++ [1]) req) r
    end
  else if verb =? RC_FS_DELETE then
    match ram_files r !! key with
    | Some c => Ret (pid, verb, ram_reply 0 [] req) (ram_set_files (delete key (ram_files r)) r)
    | None => Ret (pid, verb, ram_reply (-1) [] req) r
    end
  else if verb =? RC_FS_READ then
    match ram_files r !! key with
    | Some c =>
        let n := Z.min (Z.min len (RC_FS_MSG_MAX - 4)) (zlen c) in
        Ret (pid, verb, ram_reply n (sliceZ 0 n c) req) r
    | None => Ret (pid, verb, ram_reply (-1) [] req) r
    end
  else Ret (pid, verb, ram_reply (-1) [] req) r.

(** The variables' server answers FS_READ with the whole value, however much was
    asked for, and nothing else. *)
Definition ram_env_call (pid verb : Z) (req : bytes) : M ram (Z * Z * bytes) := λ r,
  match ram_store r !! req_name req with
  | Some v =>
      if verb =? RC_FS_READ then Ret (pid, verb, ram_reply (zlen v) v req) r
      else Ret (pid, verb, ram_reply (-1) [] req) r
  | None => Ret (pid, verb, ram_reply (-1) [] req) r
  end.

Definition ram_ipc_call (pid verb : Z) (req : bytes) : M ram (Z * Z * bytes) :=
  if pid =? 2 then ram_env_call pid verb req else ram_fs_call pid verb req.

#[export] Instance ram_kernel : Kernel ram := {|
  sys_ns_translate path m _ := ret (ram_translate path m);
  sys_getcwd _ := ret (1, [47; 0]);
  sys_ipc_call := ram_ipc_call;
  sys_chdir _ := ret 0;
  sys_getpid := ret 7;
  sys_parent_info _ := ret 1;
  sys_getuid := ret 0;
  sys_write bs := λ r,
    Ret (zlen bs) (Ram (ram_files r) (ram_dirs r) (ram_out r ++ bs) (ram_in r) (ram_time r) (ram_children r) (ram_env r));
  sys_getchar := λ r,
    match ram_in r with
    | [] => Ret (-1) r
    | c :: rest => Ret c (Ram (ram_files r) (ram_dirs r) (ram_out r) rest (ram_time r) (ram_children r) (ram_env r))
    end;
  sys_stdin_isatty := ret 1;
  sys_timebase := ret 10000000;
  sys_await _ _ := ret 8;   (* a note is always waiting *)
  sys_rfork _ := ret (11, 1);
  sys_exec _ _ _ := ret (-1);
  sys_join _ _ := λ r,
    match ram_children r with
    | [] => Ret (-1) r
    | c :: rest => Ret c (Ram (ram_files r) (ram_dirs r) (ram_out r) (ram_in r) (ram_time r) rest (ram_env r))
    end;
  sys_map n := ret 1048576;
  sys_postnote _ _ := ret 0;
  sys_noted _ := ret 0;
  sys_notify := ret 0;
  sys_yield := ret 0;
  rdtime := λ r, Ret (ram_time r)
    (Ram (ram_files r) (ram_dirs r) (ram_out r) (ram_in r) (ram_time r + 1000) (ram_children r) (ram_env r));
  heap_alloc _ := ret true;
|}.

(** The names are those of process 1. *)
#[export] Instance at_1_inj : Inj (=) (=) (λ name : bytes, (1, name)).
Proof. by intros ? ? [=]. Qed.
Definition ram_view (r : ram) : fsview :=
  FsView (kmap (λ name, (1, name)) (ram_files r)) (set_map (λ name, (1, name)) (ram_dirs r)).

Lemma ram_view_file r name : v_files (ram_view r) !! (1, name) = ram_files r !! name.
Proof. apply (lookup_kmap (λ name, (1, name))). Qed.

Lemma ram_view_dir r name : (1, name) ∈ v_dirs (ram_view r) ↔ name ∈ ram_dirs r.
Proof.
  unfold ram_view, v_dirs. rewrite elem_of_map. split; [|by eauto]. by intros (? & [= ->] & ?).
Qed.

Lemma ram_view_fsd r pid name : is_Some (v_files (ram_view r) !! (pid, name)) → pid = 1.
Proof. simpl. intros [c Hc]. apply lookup_kmap_Some in Hc as (? & [= -> _] & _); [done|apply _]. Qed.

Lemma ram_reply_is n data req : zlen req = RC_FS_MSG_MAX → 4 + zlen data ≤ RC_FS_MSG_MAX →
  reply_is (ram_reply n data req) n ∧ sliceZ 4 (zlen data) (ram_reply n data req) = data.
Proof.
  intros Hr Hd. unfold RC_FS_MSG_MAX in *. pose proof (zlen_nonneg data).
  assert (zlen (le_split 4 (u32 n) ++ data) = 4 + zlen data) as Hl by (rewrite zlen_app; done).
  pose proof (slice_spliced_same 0 (le_split 4 (u32 n) ++ data) req ltac:(lia) ltac:(lia)) as E.
  rewrite Hl in E. unfold sliceZ in E. rewrite dropZ_0 in E. fold (ram_reply n data req) in E.
  split; [split|].
  - unfold ram_reply. rewrite zlen_spliced; [done|lia|rewrite Hl; lia].
  - unfold sliceZ. rewrite dropZ_0. apply (f_equal (takeZ 4)) in E. unfold takeZ in E.
    rewrite take_take in E. rewrite Nat.min_l in E by lia. unfold takeZ. rewrite E.
    by rewrite take_app_le by done.
  - apply (f_equal (dropZ 4)) in E. unfold sliceZ, takeZ, dropZ in *.
    rewrite skipn_firstn_comm in E. replace (Z.to_nat (4 + zlen data) - Z.to_nat 4)%nat with (Z.to_nat (zlen data)) in E by lia.
    rewrite E. rewrite drop_app_ge by done. by rewrite drop_0.
Qed.

Lemma req_u32_range i req : is_bytes req → 0 ≤ i → i + 4 ≤ zlen req → 0 ≤ req_u32 i req < 4294967296.
Proof.
  intros Hb Hi Hl. unfold req_u32.
  pose proof (le_combine_range (sliceZ i 4 req) (Forall_sliceZ _ _ _ _ Hb)) as H.
  rewrite zlen_sliceZ in H by lia. exact H.
Qed.

Lemma ram_read_law s pid req c :
  zlen req = RC_FS_MSG_MAX → is_bytes req → v_files (ram_view s) !! (pid, req_name req) = Some c →
  req_u32 100 req ≤ INT_MAX →
  ∃ n reply s', ram_ipc_call pid RC_FS_READ_AT req s = Ret (pid, RC_FS_READ_AT, reply) s' ∧
    ram_view s' = ram_view s ∧ reply_is reply n ∧ sliceZ 4 n reply = sliceZ (req_u32 104 req) n c ∧
    0 ≤ n ≤ Z.min (req_u32 100 req) (RC_FS_MSG_MAX - 4) ∧
    n ≤ Z.max 0 (zlen c - req_u32 104 req) ∧
    (0 < req_u32 100 req → req_u32 104 req < zlen c → 0 < n).
Proof.
  intros Hr Hb Hc Hlen. assert (pid = 1) as -> by (eapply ram_view_fsd; eauto). rewrite ram_view_file in Hc.
  pose proof (req_u32_range 100 req Hb ltac:(lia) ltac:(rewrite Hr; done)).
  pose proof (req_u32_range 104 req Hb ltac:(lia) ltac:(rewrite Hr; done)).
  set (n := Z.max 0 (Z.min (Z.min (req_u32 100 req) (RC_FS_MSG_MAX - 4)) (zlen c - req_u32 104 req))).
  assert (zlen (sliceZ (req_u32 104 req) n c) = n) as Hz.
  { destruct (decide (req_u32 104 req ≤ zlen c)); [apply zlen_sliceZ; lia|].
    unfold sliceZ. rewrite dropZ_all, takeZ_nil by lia. unfold zlen; simpl; lia. }
  destruct (ram_reply_is n (sliceZ (req_u32 104 req) n c) req Hr ltac:(unfold RC_FS_MSG_MAX in *; lia)) as [H1 H2].
  rewrite Hz in H2.
  eexists n, _, s. split; [change (ram_ipc_call 1) with (ram_fs_call 1); unfold ram_fs_call; rewrite Z.eqb_refl, Hc; done|].
  split; [done|]. split; [exact H1|]. split; [exact H2|]. unfold RC_FS_MSG_MAX in *. lia.
Qed.

Lemma ram_write_law s req c :
  zlen req = RC_FS_MSG_MAX → is_bytes req → default [] (v_files (ram_view s) !! (1, req_name req)) = c →
  ((1, req_name req) ∉ v_dirs (ram_view s)) →
  req_u32 100 req ≤ RC_FS_WRITE_AT_MAXCHUNK → req_u32 104 req ≤ zlen c →
  req_u32 104 req ≠ 4294967295 →
  ∃ reply s', ram_ipc_call 1 RC_FS_WRITE_AT req s = Ret (1, RC_FS_WRITE_AT, reply) s' ∧
    reply_is reply (req_u32 100 req) ∧ 0 ≤ req_u32 100 req ∧
    ram_view s' = set_files (<[(1, req_name req) := write_at (req_u32 104 req) (sliceZ 108 (req_u32 100 req) req) c]>
                  (v_files (ram_view s))) (ram_view s).
Proof.
  intros Hr Hb Hc Hd Hlen Hoff Hne. rewrite ram_view_file in Hc. rewrite ram_view_dir in Hd.
  pose proof (req_u32_range 100 req Hb ltac:(lia) ltac:(rewrite Hr; done)).
  eexists _, _. split.
  - change (ram_ipc_call 1) with (ram_fs_call 1). unfold ram_fs_call. change (RC_FS_WRITE_AT =? RC_FS_READ_AT) with false.
    rewrite Z.eqb_refl, Hc. replace (req_u32 104 req =? 4294967295) with false by lia.
    rewrite bool_decide_false by done. replace (zlen c <? req_u32 104 req) with false by lia.
    cbn [orb]. rewrite Z.min_l by lia. done.
  - split; [by apply ram_reply_is|]. split; [lia|]. unfold ram_view, set_files. simpl.
    by rewrite (kmap_insert (λ name, (1, name))).
Qed.

Lemma ram_stat_law s req :
  zlen req = RC_FS_MSG_MAX → is_bytes req →
  ∃ n reply s', ram_ipc_call 1 RC_FS_STAT req s = Ret (1, RC_FS_STAT, reply) s' ∧
    ram_view s' = ram_view s ∧ reply_is reply n ∧
    match v_files (ram_view s) !! (1, req_name req) with
    | Some c => n = 0 ∧ (zlen c < 4294967296 → sliceZ 4 4 reply = le_split 4 (zlen c)) ∧ sliceZ 8 1 reply = [0]
    | None => (1, req_name req) ∈ v_dirs (ram_view s) → n = 0 ∧ sliceZ 8 1 reply = [1]
    end.
Proof.
  intros Hr Hb. change (ram_ipc_call 1) with (ram_fs_call 1). unfold ram_fs_call. change (RC_FS_STAT =? RC_FS_READ_AT) with false.
  change (RC_FS_STAT =? RC_FS_WRITE_AT) with false. rewrite Z.eqb_refl, ram_view_file.
  assert (∀ n sz t, reply_is (ram_reply n (le_split 4 sz ++ [t]) req) n ∧
    sliceZ 4 4 (ram_reply n (le_split 4 sz ++ [t]) req) = le_split 4 sz ∧
    sliceZ 8 1 (ram_reply n (le_split 4 sz ++ [t]) req) = [t]) as Hst.
  { intros n sz t. destruct (ram_reply_is n (le_split 4 sz ++ [t]) req Hr ltac:(done)) as [H1 H2].
    split; [done|]. change (zlen (le_split 4 sz ++ [t])) with 5 in H2.
    unfold sliceZ, takeZ, dropZ in *. simpl Z.to_nat in *. split.
    - apply (f_equal (take 4)) in H2. rewrite take_take in H2. exact H2.
    - apply (f_equal (drop 4)) in H2. rewrite skipn_firstn_comm, drop_drop in H2. exact H2. }
  destruct (ram_files s !! req_name req) as [c|] eqn:E.
  - destruct (Hst 0 (u32 (zlen c)) 0) as (? & H2 & ?). eexists 0, _, s. split_and!; try done.
    intros Hz. rewrite H2, u32_id; [done|]. pose proof (zlen_nonneg c). lia.
  - case_decide as Ed.
    + destruct (Hst 0 0 1) as (? & ? & ?). eexists _, _, s. split_and!; done.
    + eexists _, _, s. split; [done|]. split; [done|]. split; [by apply ram_reply_is|]. by rewrite ram_view_dir.
Qed.

Lemma ram_delete_law s req :
  zlen req = RC_FS_MSG_MAX → is_bytes req →
  ∃ n reply s', ram_ipc_call 1 RC_FS_DELETE req s = Ret (1, RC_FS_DELETE, reply) s' ∧
    reply_is reply n ∧
    ((n = -1 ∧ ram_view s' = ram_view s) ∨
     (n = 0 ∧ is_Some (v_files (ram_view s) !! (1, req_name req)) ∧
      ram_view s' = set_files (delete (1, req_name req) (v_files (ram_view s))) (ram_view s)) ∨
     (n = 0 ∧ v_files (ram_view s) !! (1, req_name req) = None ∧ v_files (ram_view s') = v_files (ram_view s))).
Proof.
  intros Hr Hb. change (ram_ipc_call 1) with (ram_fs_call 1). unfold ram_fs_call. change (RC_FS_DELETE =? RC_FS_READ_AT) with false.
  change (RC_FS_DELETE =? RC_FS_WRITE_AT) with false. change (RC_FS_DELETE =? RC_FS_STAT) with false.
  rewrite Z.eqb_refl, ram_view_file. destruct (ram_files s !! req_name req) as [c|] eqn:E.
  - eexists 0, _, _. split; [done|]. split; [by apply ram_reply_is|]. right; left.
    split; [done|]. split; [done|]. unfold ram_view, set_files. simpl. by rewrite (kmap_delete (λ name, (1, name))).
  - eexists (-1), _, _. split; [done|]. split; [by apply ram_reply_is|]. by left.
Qed.

Lemma ram_srv_name ap : zlen ap < 100 → c_chars ap → c_chars (ram_srv ap).2 ∧ zlen (ram_srv ap).2 < 100.
Proof.
  intros Hl Hc. pose proof (zlen_nonneg ap). unfold ram_srv. case_bool_decide; [|done]. simpl.
  split; [by apply Forall_dropZ|]. unfold dropZ, zlen in *. rewrite length_drop. lia.
Qed.

Lemma ram_srv_c_name ap : zlen ap < 100 → c_chars ap → c_chars (ram_srv_c ap).2 ∧ zlen (ram_srv_c ap).2 < 100.
Proof.
  intros Hl Hc. unfold ram_srv_c, ram_union. case_bool_decide as E; [|by apply ram_srv_name].
  cbn [default from_option id snd].
  assert (5 ≤ zlen ap).
  { apply (f_equal zlen) in E. change (zlen (str "/bin/")) with 5 in E. unfold zlen, takeZ in *.
    rewrite length_take in E. lia. }
  split; [apply Forall_app; split; [apply c_chars_b_sound; reflexivity|by apply Forall_dropZ]|].
  rewrite zlen_app, zlen_dropZ by lia. change (zlen (str "/usr/")) with 5. lia.
Qed.

#[export] Instance ram_server : FileServer ram.
Proof.
  refine {| view := ram_view; srv := ram_srv; srv_c := ram_srv_c; fsd pid := pid = 1 |}.
  - intros pid ->. unfold INT_MAX. lia.
  - apply ram_view_fsd.
  - done.
  - done.
  - intros ap ? ? _. by apply ram_srv_name.
  - intros ap ? ? _. by apply ram_srv_c_name.
  - apply ram_read_law.
  - intros s pid req c -> Hr Hb Hc Hd Hlen Hoff Hne.
    destruct (ram_write_law s req c Hr Hb Hc Hd Hlen Hoff Hne) as (reply & s' & H1 & H2 & H3 & H4).
    exists (req_u32 100 req), reply, s'. split; [done|]. split; [done|]. right. split; [lia|exact H4].
  - intros s pid req ->. apply ram_stat_law.
  - intros s pid req ->. apply ram_delete_law.
Defined.

(** The uninitialised stack of the examples. *)
Definition ex_junk : bytes := replicate (Z.to_nat 8192) 170.
Lemma ex_junk_len : zlen ex_junk = RC_FS_MSG_MAX.
Proof. reflexivity. Qed.
Lemma ex_junk_bytes : is_bytes ex_junk.
Proof. apply is_bytes_b_sound. vm_compute. reflexivity. Qed.

Definition ex_ram (path contents : bytes) : ram :=
  Ram {[ path := contents ]} ∅ [] [] 0 [] ∅.
