(* ===== verification/RcFd.v ===== *)
(** The file-descriptor table: src/lib/racccoon-libc/src/rc_posix.c, its first part,
    and the state every function of the POSIX layer runs on.

    [posix K] is that state: the kernel's [world], [errno], the static arrays of
    rc_posix.c.  A system call or a call into rc_fs.c runs on the world alone
    ([sys]). *)
From S2P Require Import Prelude CMonad CBuffer Kernel RcFs.

(** include/errno.h *)
Definition EPERM : Z := 1.
Definition ENOENT : Z := 2.
Definition EINTR : Z := 4.
Definition EIO : Z := 5.
Definition E2BIG : Z := 7.
Definition ENOEXEC : Z := 8.
Definition EBADF : Z := 9.
Definition ECHILD : Z := 10.
Definition EAGAIN : Z := 11.
Definition ENOMEM : Z := 12.
Definition EACCES : Z := 13.
Definition EFAULT : Z := 14.
Definition EBUSY : Z := 16.
Definition EEXIST : Z := 17.
Definition EXDEV : Z := 18.
Definition ENODEV : Z := 19.
Definition ENOTDIR : Z := 20.
Definition EISDIR : Z := 21.
Definition EINVAL : Z := 22.
Definition ENFILE : Z := 23.
Definition EMFILE : Z := 24.
Definition ENOTTY : Z := 25.
Definition ENOSPC : Z := 28.
Definition ESPIPE : Z := 29.
Definition EROFS : Z := 30.
Definition EPIPE : Z := 32.
Definition ERANGE : Z := 34.
Definition ENAMETOOLONG : Z := 36.
Definition ENOSYS : Z := 38.
Definition ENOTEMPTY : Z := 39.
Definition ELOOP : Z := 40.
Definition ESRCH : Z := 3.
Definition ENOTSOCK : Z := 88.
Definition EPROTONOSUPPORT : Z := 93.
Definition EOPNOTSUPP : Z := 95.
Definition EAFNOSUPPORT : Z := 97.
Definition EADDRINUSE : Z := 98.
Definition ECONNRESET : Z := 104.
Definition ENOTCONN : Z := 107.
Definition ETIMEDOUT : Z := 110.
Definition ECONNREFUSED : Z := 111.
Definition EILSEQ : Z := 84.
Definition ENOTSUP : Z := EOPNOTSUPP.

(** include/fcntl.h *)
Definition O_WRONLY : Z := 1.
Definition O_RDWR : Z := 2.
Definition O_CREAT : Z := 64.
Definition O_EXCL : Z := 128.
Definition O_TRUNC : Z := 512.
Definition O_APPEND : Z := 1024.
Definition O_DIRECTORY : Z := 65536.
Definition AT_FDCWD : Z := -100.
Definition AT_REMOVEDIR : Z := 512.
Definition F_DUPFD : Z := 0.
Definition F_GETFL : Z := 3.
Definition F_GETLK : Z := 5.
Definition F_UNLCK : Z := 2.

(** include/unistd.h *)
Definition SEEK_SET : Z := 0.
Definition SEEK_CUR : Z := 1.
Definition SEEK_END : Z := 2.

(** [enum { K_FREE = 0, K_CONSOLE, K_FILE, K_NET }] *)
Inductive kind := K_FREE | K_CONSOLE | K_FILE | K_NET.
#[export] Instance kind_eq_dec : EqDecision kind.
Proof. solve_decision. Defined.

Record fdent := Fdent {
  fd_kind : kind;
  fd_flags : Z;
  fd_off : Z;
  fd_path : bytes;
}.
#[export] Instance fdent_eq_dec : EqDecision fdent.
Proof. solve_decision. Defined.

Definition FD_MAX : Z := 64.

Record posix (K : Type) := Posix {
  world : K;
  errno : Z;
  fdtab : list fdent;
  fdtab_inited : bool;
  tmp_counter : Z;       (* rc_tmp_seed's counter *)
}.
Arguments Posix {K}.
Arguments world {K}.
Arguments errno {K}.
Arguments fdtab {K}.
Arguments fdtab_inited {K}.
Arguments tmp_counter {K}.

(** The program's state when it starts: every descriptor zeroed. *)
Definition fd_zero : fdent := Fdent K_FREE 0 0 [].
Definition posix_start {K} (w : K) : posix K := Posix w 0 (replicate 64 fd_zero) false 0.

Section fd.
Context {K : Type} `{!Kernel K}.

Definition set_world (w : K) (p : posix K) : posix K :=
  Posix w (errno p) (fdtab p) (fdtab_inited p) (tmp_counter p).
Definition set_errno_ (e : Z) (p : posix K) : posix K :=
  Posix (world p) e (fdtab p) (fdtab_inited p) (tmp_counter p).
Definition set_fdtab (t : list fdent) (p : posix K) : posix K :=
  Posix (world p) (errno p) t (fdtab_inited p) (tmp_counter p).
Definition set_inited (b : bool) (p : posix K) : posix K :=
  Posix (world p) (errno p) (fdtab p) b (tmp_counter p).
Definition set_counter (n : Z) (p : posix K) : posix K :=
  Posix (world p) (errno p) (fdtab p) (fdtab_inited p) n.

Program Definition world_lens : lens (posix K) K := Lens _ _ world set_world _ _ _.
Next Obligation. done. Qed.
Next Obligation. by intros []. Qed.
Next Obligation. done. Qed.

Definition sys {A} (c : M K A) : M (posix K) A := zoom world_lens c.

Definition set_errno (e : Z) : M (posix K) unit := modify (set_errno_ e).
(** [errno = e; return -1;] *)
Definition fail (e : Z) : M (posix K) Z := set_errno e ;; ret (-1).

(** [fdtab[fd]] and [fdtab[fd] = e] *)
Definition fd_load (fd : Z) : M (posix K) fdent := p <- get ;; of_option (idx (fdtab p) fd).
Definition fd_store (fd : Z) (e : fdent) : M (posix K) unit :=
  p <- get ;; t <- of_option (upd (fdtab p) fd e) ;; put (set_fdtab t p).

Definition with_kind (k : kind) (e : fdent) : fdent := Fdent k (fd_flags e) (fd_off e) (fd_path e).
Definition with_flags (f : Z) (e : fdent) : fdent := Fdent (fd_kind e) f (fd_off e) (fd_path e).
Definition with_off (o : Z) (e : fdent) : fdent := Fdent (fd_kind e) (fd_flags e) o (fd_path e).

Definition fd_set_kind (k : kind) (fd : Z) : M (posix K) unit :=
  e <- fd_load fd ;; fd_store fd (with_kind k e).
Definition fd_set_off (fd off : Z) : M (posix K) unit :=
  e <- fd_load fd ;; fd_store fd (with_off off e).
Definition fd_set_flags (fd flags : Z) : M (posix K) unit :=
  e <- fd_load fd ;; fd_store fd (with_flags flags e).

Definition fd_init : M (posix K) unit :=
  p <- get ;;
  if fdtab_inited p then ret tt
  else
    fd_set_kind K_CONSOLE 2 ;; fd_set_kind K_CONSOLE 1 ;; fd_set_kind K_CONSOLE 0 ;;
    modify (set_inited true).

Definition fd_alloc : M (posix K) Z :=
  fd_init ;;
  loop (λ i,
    if i <? FD_MAX then
      e <- fd_load i ;;
      if decide (fd_kind e = K_FREE) then ret (Break i) else ret (Continue (i + 1))
    else r <- fail EMFILE ;; ret (Break r)) 3.

(** [fd < 0 || fd >= FD_MAX || fdtab[fd].kind == K_FREE] is [None]. *)
Definition fd_open (fd : Z) : M (posix K) (option fdent) :=
  if (fd <? 0) || (FD_MAX <=? fd) then ret None
  else e <- fd_load fd ;; ret (if decide (fd_kind e = K_FREE) then None else Some e).

(** [fd < 0 || fd >= FD_MAX || fdtab[fd].kind != k] is [None]. *)
Definition fd_of_kind (k : kind) (fd : Z) : M (posix K) (option fdent) :=
  if (fd <? 0) || (FD_MAX <=? fd) then ret None
  else e <- fd_load fd ;; ret (if decide (fd_kind e = k) then Some e else None).

Definition __rc_fd_new_net (dir : bytes) (flags : Z) : M (posix K) Z :=
  fd <- fd_alloc ;;
  if fd <? 0 then ret (-1)
  else fd_store fd (Fdent K_NET flags 0 (takeZ 127 dir)) ;; ret fd.

(** The conversation directory, if [fd] is a socket; flags and port stay in the
    table. *)
Definition __rc_fd_net_dir (fd : Z) : M (posix K) (option fdent) :=
  fd_init ;; fd_of_kind K_NET fd.
End fd.

(** * Lemmas *)

Section lemmas.
Context {K : Type} `{!Kernel K}.
Implicit Types (p : posix K) (e : fdent).

(** The table is set up: what every call does first. *)
Definition ready p : Prop := zlen (fdtab p) = FD_MAX ∧ fdtab_inited p = true.

Lemma sys_run {A} (c : M K A) a w p : c (world p) = Ret a w → sys c p = Ret a (set_world w p).
Proof. intros E. unfold sys, zoom. simpl. by rewrite E. Qed.

Lemma fd_load_run p fd e : idx (fdtab p) fd = Some e → fd_load fd p = Ret e p.
Proof. intros E. unfold fd_load, bind, get. by rewrite E. Qed.

Lemma fd_store_run p fd e : 0 ≤ fd < zlen (fdtab p) →
  fd_store fd e p = Ret tt (set_fdtab (<[Z.to_nat fd := e]> (fdtab p)) p).
Proof. intros Hr. unfold fd_store, bind, get. by rewrite upd_Some. Qed.

Lemma fd_init_run p : fdtab_inited p = true → fd_init p = Ret tt p.
Proof. intros E. unfold fd_init, bind, get. by rewrite E. Qed.

Lemma fd_set_off_run p fd e off : idx (fdtab p) fd = Some e →
  fd_set_off fd off p = Ret tt (set_fdtab (<[Z.to_nat fd := with_off off e]> (fdtab p)) p).
Proof.
  intros E. unfold fd_set_off. rewrite (bind_run _ _ _ _ _ (fd_load_run _ _ _ E)).
  apply fd_store_run. by apply idx_Some_range in E.
Qed.

Lemma fd_set_kind_run p fd e k : idx (fdtab p) fd = Some e →
  fd_set_kind k fd p = Ret tt (set_fdtab (<[Z.to_nat fd := with_kind k e]> (fdtab p)) p).
Proof.
  intros E. unfold fd_set_kind. rewrite (bind_run _ _ _ _ _ (fd_load_run _ _ _ E)).
  apply fd_store_run. by apply idx_Some_range in E.
Qed.

Lemma fd_open_run p fd e : ready p → idx (fdtab p) fd = Some e → fd_kind e ≠ K_FREE →
  fd_open fd p = Ret (Some e) p.
Proof.
  intros [Hl _] E Hk. pose proof (idx_Some_range _ _ _ E). unfold fd_open.
  replace ((fd <? 0) || (FD_MAX <=? fd)) with false by lia.
  rewrite (bind_run _ _ _ _ _ (fd_load_run _ _ _ E)). by rewrite decide_False.
Qed.

Lemma fd_of_kind_run p fd e k : ready p → idx (fdtab p) fd = Some e → fd_kind e = k →
  fd_of_kind k fd p = Ret (Some e) p.
Proof.
  intros [Hl _] E Hk. pose proof (idx_Some_range _ _ _ E). unfold fd_of_kind.
  replace ((fd <? 0) || (FD_MAX <=? fd)) with false by lia.
  rewrite (bind_run _ _ _ _ _ (fd_load_run _ _ _ E)). by rewrite decide_True.
Qed.

(** A descriptor that is not open. *)
Definition closed p (fd : Z) : Prop :=
  fd < 0 ∨ FD_MAX ≤ fd ∨ ∃ e, idx (fdtab p) fd = Some e ∧ fd_kind e = K_FREE.

Lemma fd_open_closed p fd : closed p fd → fd_open fd p = Ret None p.
Proof.
  intros H. unfold fd_open. destruct ((fd <? 0) || (FD_MAX <=? fd)) eqn:Hr; [done|].
  destruct H as [?|[?|(e & E & Hk)]]; [lia..|].
  rewrite (bind_run _ _ _ _ _ (fd_load_run _ _ _ E)). by rewrite decide_True.
Qed.

(** Setting the table up, from the zeroed statics. *)
Lemma fd_init_start (w : K) :
  ∃ p, fd_init (posix_start w) = Ret tt p ∧ ready p ∧ world p = w ∧ errno p = 0 ∧
    ∀ fd, 0 ≤ fd < FD_MAX → idx (fdtab p) fd = Some (if fd <? 3 then with_kind K_CONSOLE fd_zero else fd_zero).
Proof.
  eexists. split; [reflexivity|]. split; [done|]. split; [done|]. split; [done|].
  intros fd Hfd. unfold FD_MAX in Hfd.
  assert (Forall (λ n : nat, idx (replicate 3 (with_kind K_CONSOLE fd_zero) ++ replicate 61 fd_zero) (Z.of_nat n) =
    Some (if Z.of_nat n <? 3 then with_kind K_CONSOLE fd_zero else fd_zero)) (seq 0 64)) as HF
    by (by repeat constructor).
  rewrite Forall_forall in HF. specialize (HF (Z.to_nat fd)). rewrite Z2Nat.id in HF by lia.
  apply HF. apply elem_of_seq. lia.
Qed.

(** fd_alloc: the lowest free descriptor above the console ones. *)
Lemma fd_alloc_run p : ready p →
  ∃ fd, fd_alloc p = Ret fd (if fd <? 0 then set_errno_ EMFILE p else p) ∧
    ((3 ≤ fd < FD_MAX ∧ (∃ e, idx (fdtab p) fd = Some e ∧ fd_kind e = K_FREE) ∧
      ∀ j e, 3 ≤ j < fd → idx (fdtab p) j = Some e → fd_kind e ≠ K_FREE) ∨
     (fd = -1 ∧ ∀ j e, 3 ≤ j → idx (fdtab p) j = Some e → fd_kind e ≠ K_FREE)).
Proof.
  intros Hp. set (post := λ fd (p' : posix K), p' = (if fd <? 0 then set_errno_ EMFILE p else p) ∧
    ((3 ≤ fd < FD_MAX ∧ (∃ e, idx (fdtab p) fd = Some e ∧ fd_kind e = K_FREE) ∧
      ∀ j e, 3 ≤ j < fd → idx (fdtab p) j = Some e → fd_kind e ≠ K_FREE) ∨
     (fd = -1 ∧ ∀ j e, 3 ≤ j → idx (fdtab p) j = Some e → fd_kind e ≠ K_FREE))).
  assert (wp fd_alloc post p) as Hw.
  - unfold fd_alloc. apply wp_bind. wp_eq (fd_init_run p (proj2 Hp)).
    destruct Hp as [Hl _]. apply (wp_loop _ (λ i p', p' = p ∧ 3 ≤ i ≤ FD_MAX ∧
        ∀ j e, 3 ≤ j < i → idx (fdtab p) j = Some e → fd_kind e ≠ K_FREE) (λ i _, FD_MAX - i)).
    + intros i p' (_ & ? & _). unfold FD_MAX in *. lia.
    + intros i p' (-> & Hi & Hno). destruct (Z.ltb_spec i FD_MAX).
      * destruct (idx_is_Some (fdtab p) i) as [e He]; [lia|]. apply wp_bind. wp_eq fd_load_run; [exact He|].
        case_decide as Hk; apply wp_ret.
        -- split; [by replace (i <? 0) with false by lia|]. left. split_and!; [lia|lia|eauto|done].
        -- split; [|lia]. split_and!; [done|lia|lia|]. intros j e' Hj E.
           destruct (decide (j = i)) as [->|]; [congruence|]. apply (Hno j); [lia|done].
      * apply wp_bind. unfold fail, set_errno. apply wp_bind, wp_modify, wp_ret. apply wp_ret.
        split; [done|]. right. split; [done|]. intros j e Hj E.
        pose proof (idx_Some_range _ _ _ E). apply (Hno j); [lia|done].
    + split_and!; try done. intros j e ?. lia.
    + unfold FD_MAX. lia.
  - apply wp_inv in Hw as (fd & p' & E & -> & Hpost). exists fd. split; [exact E|done].
Qed.
End lemmas.

(** [fdtab[fd] = e] on the state *)
Definition fd_upd {K} (fd : Z) (e : fdent) (p : posix K) : posix K :=
  set_fdtab (<[Z.to_nat fd := e]> (fdtab p)) p.

Section upd.
Context {K : Type} `{!Kernel K}.
Implicit Types (p : posix K) (e : fdent).

Lemma fd_upd_id p fd e : idx (fdtab p) fd = Some e → fd_upd fd e p = p.
Proof.
  intros E. unfold fd_upd, set_fdtab. unfold idx in E. case_decide; [done|].
  rewrite list_insert_id by done. by destruct p.
Qed.

Lemma idx_fd_upd p fd e j : 0 ≤ fd < zlen (fdtab p) →
  idx (fdtab (fd_upd fd e p)) j = if decide (j = fd) then Some e else idx (fdtab p) j.
Proof.
  intros Hr. unfold fd_upd. simpl. unfold idx, zlen in *. destruct (decide (j < 0)).
  - by rewrite decide_False by lia.
  - case_decide.
    + subst. apply list_lookup_insert_eq. lia.
    + apply list_lookup_insert_ne. lia.
Qed.

Lemma idx_fd_upd_eq p fd e e' : idx (fdtab p) fd = Some e' → idx (fdtab (fd_upd fd e p)) fd = Some e.
Proof. intros E%idx_Some_range. by rewrite idx_fd_upd, decide_True. Qed.

Lemma fd_upd_upd p fd e1 e2 : fd_upd fd e2 (fd_upd fd e1 p) = fd_upd fd e2 p.
Proof. unfold fd_upd, set_fdtab. simpl. by rewrite list_insert_insert_eq. Qed.

Lemma fd_upd_world p fd e w : fd_upd fd e (set_world w p) = set_world w (fd_upd fd e p).
Proof. done. Qed.

Lemma ready_upd p fd e : ready p → ready (fd_upd fd e p).
Proof. intros [? ?]. split; [|done]. simpl. unfold zlen in *. by rewrite length_insert. Qed.

Lemma set_world_world w w' p : set_world w (set_world w' p) = set_world w p.
Proof. done. Qed.

Lemma set_world_id p : set_world (world p) p = p.
Proof. by destruct p. Qed.
End upd.
