(* ===== verification/FloatScan.v ===== *)
(** Floating-point parsing: src/lib/racccoon-libc/src/floatscan.c.

    The scanner's state is the position in the string and errno; a local
    variable is passed along.  [x[KMAX]], the ring of base-10^9 digits, is a map
    from indices: an element that was not written is missing, so reading one,
    or storing outside the array, is a [Fault].  The integers that count digits
    and exponents are far from their ends as long as the string is shorter than
    2^62 characters. *)
From S2P Require Import Prelude CMonad CMemory CBuffer Ctype Kernel RcFd Ieee.

(** For LDBL_MANT_DIG 113, LDBL_MAX_EXP 16384 *)
Definition LD_B1B_DIG : Z := 4.
Definition th : list Z := [10384593; 717069655; 257060992; 658440191].   (* LD_B1B_MAX *)
Definition KMAX : Z := 2048.
Definition MASK : Z := KMAX - 1.
Definition p10s : list Z := [10; 100; 1000; 10000; 100000; 1000000; 10000000; 100000000].

Definition ring : Type := gmap Z Z.
Definition mask (i : Z) : Z := Z.land i MASK.

(** [struct rc_scan], without [s], and errno *)
Record rc_scan := Scan { sc_p : Z; sc_errno : Z }.
Definition set_err (e : Z) : M rc_scan unit := modify (λ f, Scan (sc_p f) e).

Definition is_dig (c : Z) : bool := (48 <=? c) && (c <=? 57).     (* c-'0' < 10U *)
Definition rd (x : ring) (i : Z) : M rc_scan Z := of_option (x !! i).
Definition wr (x : ring) (i v : Z) : M rc_scan ring :=
  if (0 <=? i) && (i <? KMAX) then ret (<[i := v]> x) else fault.
Definition th_at (i : Z) : M rc_scan Z := of_option (idx th i).
Definition p10_at (i : Z) : M rc_scan Z := of_option (idx p10s i).

(** [sign * 0.0], [sign * LDBL_MAX * LDBL_MAX], [sign * LDBL_MIN * LDBL_MIN] *)
Definition signed_zero (sign : Z) : ld := S754_zero (sign <? 0).
Definition overflowed (sign : Z) : ld := ld_mul (ld_mul (ld_of_int sign) LDBL_MAX) LDBL_MAX.
Definition underflowed (sign : Z) : ld := ld_mul (ld_mul (ld_of_int sign) LDBL_MIN) LDBL_MIN.

Section scan.
Context (s : bytes).

Definition shgetc : M rc_scan Z :=
  f <- get ;; c <- chr s (sc_p f) ;; put (Scan (sc_p f + 1) (sc_errno f)) ;; ret c.
Definition shunget : M rc_scan unit :=
  f <- get ;; if 0 <? sc_p f then put (Scan (sc_p f - 1) (sc_errno f)) else fault.

(** The sign of the exponent, and the character behind it *)
Definition exp_start (pok : bool) : M rc_scan (bool * Z) :=
  c <- shgetc ;;
  if (c =? 43) || (c =? 45) then
    c' <- shgetc ;;
    (if negb (is_dig c') && pok then shunget else ret tt) ;;
    ret (c =? 45, c')
  else ret (false, c).

(** Its digits, from [c] on; those too many are skipped. *)
Definition exp_digits (c : Z) : M rc_scan Z :=
  let* (c, x) := loop (λ '(c, x),
    if is_dig c && (x <? INT_MAX / 10) then c' <- shgetc ;; ret (Continue (c', 10 * x + (c - 48)))
    else ret (Break (c, x))) (c, 0) in
  let* (c, y) := loop (λ '(c, y),
    if is_dig c && (y <? LLONG_MAX / 100) then c' <- shgetc ;; ret (Continue (c', 10 * y + (c - 48)))
    else ret (Break (c, y))) (c, x) in
  loop (λ c, if is_dig c then c' <- shgetc ;; ret (Continue c') else ret (Break tt)) c ;;
  ret y.

(** The exponent, LLONG_MIN for none *)
Definition scanexp (pok : bool) : M rc_scan Z :=
  let* (neg, c) := exp_start pok in
  if negb (is_dig c) then shunget ;; ret LLONG_MIN
  else
    y <- exp_digits c ;;
    shunget ;;
    ret (if neg : bool then - y else y).

(** ** decfloat: the digits *)

(** [x], [j], [k], [lrp], [dc], [lnz], [gotdig], [gotrad] *)
Record decimal := Decimal {
  d_x : ring; d_j : Z; d_k : Z; d_lrp : Z; d_dc : Z; d_lnz : Z; d_gotdig : bool; d_gotrad : bool;
}.

(** Leading zeros, before and behind the point: the character behind them. *)
Definition dec_zeros (c : Z) : M rc_scan (Z * decimal) :=
  let* (c, gotdig) := loop (λ '(c, gotdig),
    if c =? 48 then c <- shgetc ;; ret (Continue (c, true)) else ret (Break (c, gotdig))) (c, false) in
  let* (c, gotdig, gotrad, lrp) :=
    (if c =? 46 then
       c <- shgetc ;;
       loop (λ '(c, gotdig, gotrad, lrp),
         if c =? 48 then c <- shgetc ;; ret (Continue (c, true, gotrad, lrp - 1))
         else ret (Break (c, gotdig, gotrad, lrp))) (c, gotdig, true, 0)
     else ret (c, gotdig, false, 0)) in
  x <- wr ∅ 0 0 ;;
  ret (c, Decimal x 0 0 lrp 0 0 gotdig gotrad).

(** One digit into the ring, or, when it is full, a mark that it was not zero. *)
Definition dec_digit (c : Z) (d : decimal) : M rc_scan decimal :=
  let dc := d_dc d + 1 in
  if d_k d <? KMAX - 3 then
    let lnz := if negb (c =? 48) then s32 dc else d_lnz d in
    x <- (if negb (d_j d =? 0) then
            v <- rd (d_x d) (d_k d) ;; wr (d_x d) (d_k d) (u32 (v * 10 + c - 48))
          else wr (d_x d) (d_k d) (c - 48)) ;;
    let '(j, k) := if d_j d + 1 =? 9 then (0, d_k d + 1) else (d_j d + 1, d_k d) in
    ret (Decimal x j k (d_lrp d) dc lnz true (d_gotrad d))
  else if negb (c =? 48) then
    v <- rd (d_x d) (KMAX - 4) ;;
    x <- wr (d_x d) (KMAX - 4) (Z.lor v 1) ;;
    ret (Decimal x (d_j d) (d_k d) (d_lrp d) dc ((KMAX - 4) * 9) (d_gotdig d) (d_gotrad d))
  else ret (Decimal (d_x d) (d_j d) (d_k d) (d_lrp d) dc (d_lnz d) (d_gotdig d) (d_gotrad d)).

Definition dec_digits (c : Z) : M rc_scan (Z * decimal) :=
  let* (c, d) := dec_zeros c in
  loop (λ '(c, d),
    if is_dig c then d <- dec_digit c d ;; c <- shgetc ;; ret (Continue (c, d))
    else if c =? 46 then
      if d_gotrad d then ret (Break (c, d))
      else
        c <- shgetc ;;
        ret (Continue (c, Decimal (d_x d) (d_j d) (d_k d) (d_dc d) (d_dc d) (d_lnz d) (d_gotdig d) true))
    else ret (Break (c, d))) (c, d).

(** The exponent: [lrp] with it, [None] when decfloat returns at once. *)
Definition dec_exponent (c lrp : Z) (gotdig pok : bool) : M rc_scan (option Z) :=
  if gotdig && (Z.lor c 32 =? 101) then
    e10 <- scanexp pok ;;
    if e10 =? LLONG_MIN then
      if pok then shunget ;; ret (Some lrp) else ret None
    else ret (Some (lrp + e10))
  else shunget ;; ret (Some lrp).
End scan.

(** ** decfloat: the ring *)

(** [x], [a], [z], [rp], [e2] *)
Record ringnum := Ringnum { n_x : ring; n_a : Z; n_z : Z; n_rp : Z; n_e2 : Z }.

(** [for (; !x[z-1]; z--);] *)
Definition drop_zeros (x : ring) (z : Z) : M rc_scan Z :=
  loop (λ z, v <- rd x (z - 1) ;; if v =? 0 then ret (Continue (z - 1)) else ret (Break z)) z.

(** "Align radix point to B1B digit boundary" *)
Definition align_radix (n : ringnum) : M rc_scan ringnum :=
  let '(Ringnum x a z rp e2) := n in
  if Z.rem rp 9 =? 0 then ret n
  else
    let rpm9 := if 0 <=? rp then Z.rem rp 9 else Z.rem rp 9 + 9 in
    p10 <- p10_at (8 - rpm9) ;;
    let* (x, a, rp, carry) := loop (λ '(k, x, a, rp, carry),
      if k =? z then ret (Break (x, a, rp, carry))
      else
        v <- rd x k ;;
        let v' := u32 (v / p10 + carry) in
        x <- wr x k v' ;;
        let carry := u32 (1000000000 / p10 * (v mod p10)) in
        if (k =? a) && (v' =? 0) then ret (Continue (k + 1, x, mask (a + 1), rp - 9, carry))
        else ret (Continue (k + 1, x, a, rp, carry))) (a, x, a, rp, 0) in
    let* (x, z) := if negb (carry =? 0) then x <- wr x z carry ;; ret (x, z + 1) else ret (x, z) in
    ret (Ringnum x a z (rp + 9 - rpm9) e2).

(** One turn of "Upscale until desired number of bits are left of radix point":
    times 2^29 *)
Definition upscale_digits (x : ring) (a z : Z) : M rc_scan (ring * Z * Z) :=
  loop (λ '(k, x, z, carry),
    v <- rd x k ;;
    let tmp := Z.shiftl v 29 + carry in
    let '(v', carry) := if 1000000000 <? tmp then (tmp mod 1000000000, u32 (tmp / 1000000000)) else (u32 tmp, 0) in
    x <- wr x k v' ;;
    let z := if (k =? mask (z - 1)) && negb (k =? a) && (v' =? 0) then k else z in
    if k =? a then ret (Break (x, z, carry)) else ret (Continue (mask (k - 1), x, z, carry)))
    (mask (z - 1), x, z, 0).

Definition upscale_turn (n : ringnum) : M rc_scan (step ringnum ringnum) :=
  let '(Ringnum x a z rp e2) := n in
  xa <- rd x a ;; t0 <- th_at 0 ;;
  if (rp <? 9 * LD_B1B_DIG) || ((rp =? 9 * LD_B1B_DIG) && (xa <? t0)) then
    let* (x, z, carry) := upscale_digits x a z in
    if negb (carry =? 0) then
      let a := mask (a - 1) in
      let* (x, z) := (if a =? z then
        let z := mask (z - 1) in
        v <- rd x (mask (z - 1)) ;; w <- rd x z ;;
        x <- wr x (mask (z - 1)) (Z.lor v w) ;; ret (x, z)
      else ret (x, z)) in
      x <- wr x a carry ;;
      ret (Continue (Ringnum x a z (rp + 9) (e2 - 29)))
    else ret (Continue (Ringnum x a z rp (e2 - 29)))
  else ret (Break n).
Definition upscale : ringnum → M rc_scan ringnum := loop upscale_turn.

(** "Downscale until exactly number of bits are left of radix point": is the
    number at most [th]? ([i == LD_B1B_DIG]) *)
Definition small_enough (x : ring) (a z : Z) : M rc_scan bool :=
  loop (λ i,
    if i <? LD_B1B_DIG then
      let k := mask (a + i) in
      if k =? z then ret (Break true)
      else
        v <- rd x k ;; t <- th_at i ;;
        if v <? t then ret (Break true)
        else if t <? v then ret (Break false)
        else ret (Continue (i + 1))
    else ret (Break true)) 0.

(** Divided by [2^sh] *)
Definition downscale_digits (sh : Z) (x : ring) (a z rp : Z) : M rc_scan (ring * Z * Z * Z) :=
  loop (λ '(k, x, a, rp, carry),
    if k =? z then ret (Break (x, a, rp, carry))
    else
      v <- rd x k ;;
      let v' := u32 (Z.shiftr v sh + carry) in
      x <- wr x k v' ;;
      let carry := u32 (Z.shiftr 1000000000 sh * Z.land v (Z.shiftl 1 sh - 1)) in
      if (k =? a) && (v' =? 0) then ret (Continue (mask (k + 1), x, mask (a + 1), rp - 9, carry))
      else ret (Continue (mask (k + 1), x, a, rp, carry))) (a, x, a, rp, 0).

Definition downscale_turn (n : ringnum) : M rc_scan (step ringnum ringnum) :=
  let '(Ringnum x a z rp e2) := n in
  small <- small_enough x a z ;;
  if small && (rp =? 9 * LD_B1B_DIG) then ret (Break n)
  else
    let sh := if 9 + 9 * LD_B1B_DIG <? rp then 9 else 1 in
    let* (x, a, rp, carry) := downscale_digits sh x a z rp in
    let* (x, z) := (if negb (carry =? 0) then
      if negb (mask (z + 1) =? a) then x <- wr x z carry ;; ret (x, mask (z + 1))
      else v <- rd x (mask (z - 1)) ;; x <- wr x (mask (z - 1)) (Z.lor v 1) ;; ret (x, z)
    else ret (x, z)) in
    ret (Continue (Ringnum x a z rp (e2 + sh))).
Definition downscale : ringnum → M rc_scan ringnum := loop downscale_turn.

(** "Assemble desired bits into floating point variable" *)
Definition assemble (x : ring) (a z : Z) : M rc_scan (ld * ring * Z) :=
  loop (λ '(i, y, x, z),
    if i <? LD_B1B_DIG then
      let* (x, z) := (if mask (a + i) =? z then
        let z := mask (z + 1) in x <- wr x (z - 1) 0 ;; ret (x, z)
      else ret (x, z)) in
      v <- rd x (mask (a + i)) ;;
      ret (Continue (i + 1, ld_add (ld_mul (ld_of_int 1000000000) y) (ld_of_int v), x, z))
    else ret (Break (y, x, z))) (0, S754_zero false, x, z).

(** "Process tail of decimal input so it can affect rounding": [frac] with it *)
Definition tail_frac (sign bits : Z) (frac : ld) (x : ring) (a z : Z) : M rc_scan ld :=
  let i := LD_B1B_DIG in
  if negb (mask (a + i) =? z) then
    t <- rd x (mask (a + i)) ;;
    let quarters (q : Z) : ld := ld_add frac (ld_mul (ld_dyadic q (-2)) (ld_of_int sign)) in
    let frac :=
      if (t <? 500000000) && (negb (t =? 0) || negb (mask (a + i + 1) =? z)) then quarters 1
      else if 500000000 <? t then quarters 3
      else if t =? 500000000 then if mask (a + i + 1) =? z then quarters 2 else quarters 3
      else frac in
    ret (if (2 <=? LDBL_MANT_DIG - bits) && ld_zero (fmodl frac (ld_of_int 1))
         then ld_add frac (ld_of_int 1) else frac)
  else ret frac.

(** From the assembled [y] on *)
Definition dec_round (sign bits emin : Z) (y : ld) (x : ring) (a z e2 : Z) : M rc_scan ld :=
  let emax := - emin - bits + 3 in
  let y := ld_mul y (ld_of_int sign) in
  let '(bits, denormal) :=
    if LDBL_MANT_DIG + e2 - emin <? bits
    then (if LDBL_MANT_DIG + e2 - emin <? 0 then 0 else LDBL_MANT_DIG + e2 - emin, true)
    else (bits, false) in
  let '(y, frac, bias) :=
    if bits <? LDBL_MANT_DIG then
      let bias := copysignl (to_ldouble (scalbn (ld_of_int 1) (2 * LDBL_MANT_DIG - bits - 1))) y in
      let frac := fmodl y (to_ldouble (scalbn (ld_of_int 1) (LDBL_MANT_DIG - bits))) in
      (ld_add (ld_sub y frac) bias, frac, bias)
    else (y, S754_zero false, S754_zero false) in
  frac <- tail_frac sign bits frac x a z ;;
  let y := ld_sub (ld_add y frac) bias in
  let* (y, e2) :=
    (if emax - 5 <? Z.land (e2 + LDBL_MANT_DIG) INT_MAX then
       let '(y, e2, denormal) :=
         if ld_ge (fabsl y) (ld_dyadic 1 LDBL_MANT_DIG) then   (* 2/LDBL_EPSILON *)
           (ld_mul y (ld_dyadic 1 (-1)), e2 + 1,
            if denormal && (bits =? LDBL_MANT_DIG + e2 - emin) then false else denormal)
         else (y, e2, denormal) in
       (if (emax <? e2 + LDBL_MANT_DIG) || (denormal && negb (ld_zero frac)) then set_err ERANGE else ret tt) ;;
       ret (y, e2)
     else ret (y, e2)) in
  ret (scalbnl y e2).

(** From the digits on: [lrp] with the exponent *)
Definition dec_value (bits emin sign lrp : Z) (d : decimal) : M rc_scan ld :=
  x0 <- rd (d_x d) 0 ;;
  if x0 =? 0 then ret (signed_zero sign)
  else if (lrp =? d_dc d) && (d_dc d <? 10) && ((30 <? bits) || (Z.shiftr x0 bits =? 0)) then
    ret (ld_mul (ld_of_int sign) (ld_of_int x0))
  else if Z.quot (- emin) 2 <? lrp then set_err ERANGE ;; ret (overflowed sign)
  else if lrp <? emin - 2 * LDBL_MANT_DIG then set_err ERANGE ;; ret (underflowed sign)
  else
    (* "Align incomplete final B1B digit" *)
    let* (x, k) := (if negb (d_j d =? 0) then
      x <- loop (λ '(j, x),
        if j <? 9 then v <- rd x (d_k d) ;; x <- wr x (d_k d) (u32 (v * 10)) ;; ret (Continue (j + 1, x))
        else ret (Break x)) (d_j d, d_x d) ;;
      ret (x, d_k d + 1)
    else ret (d_x d, d_k d)) in
    let rp := s32 lrp in
    (* "Optimize small to mid-size integers (even in exp. notation)" *)
    x0 <- rd x 0 ;;
    let bitlim := bits - 3 * (rp - 9) in
    let y := ld_mul (ld_of_int sign) (ld_of_int x0) in
    if (d_lnz d <? 9) && (d_lnz d <=? rp) && (rp <? 18) && (rp =? 9) then ret y
    else if (d_lnz d <? 9) && (d_lnz d <=? rp) && (rp <? 9) then
      p <- p10_at (8 - rp) ;; ret (ld_div y (ld_of_int p))
    else if (d_lnz d <? 9) && (d_lnz d <=? rp) && (rp <? 18) && ((30 <? bitlim) || (Z.shiftr x0 bitlim =? 0)) then
      p <- p10_at (rp - 10) ;; ret (ld_mul y (ld_of_int p))
    else
      z <- drop_zeros x k ;;
      n <- align_radix (Ringnum x 0 z rp 0) ;;
      n <- upscale n ;;
      n <- downscale n ;;
      let* (y, x, z) := assemble (n_x n) (n_a n) (n_z n) in
      dec_round sign bits emin y x (n_a n) z (n_e2 n).

Section scanning.
Context (s : bytes).

Definition decfloat (c bits emin sign : Z) (pok : bool) : M rc_scan ld :=
  let* (c, d) := dec_digits s c in
  let lrp := if negb (d_gotrad d) then d_dc d else d_lrp d in
  e <- dec_exponent s c lrp (d_gotdig d) pok ;;
  match e with
  | None => ret (S754_zero false)
  | Some lrp =>
      if negb (d_gotdig d) then set_err EINVAL ;; ret (S754_zero false)
      else dec_value bits emin sign lrp d
  end.

(** ** hexfloat *)

Definition is_hex (c : Z) : bool := is_dig c || ((97 <=? Z.lor c 32) && (Z.lor c 32 <=? 102)).

(** [x], [y], [scale], [gottail], [gotrad], [gotdig], [rp], [dc] *)
Record hexa := Hexa {
  h_x : Z; h_y : ld; h_scale : ld; h_gottail : bool; h_gotrad : bool; h_gotdig : bool; h_rp : Z; h_dc : Z;
}.

Definition hex_zeros : M rc_scan (Z * hexa) :=
  c <- shgetc s ;;
  let* (c, gotdig) := loop (λ '(c, gotdig),
    if c =? 48 then c <- shgetc s ;; ret (Continue (c, true)) else ret (Break (c, gotdig))) (c, false) in
  let* (c, gotdig, gotrad, rp) :=
    (if c =? 46 then
       c <- shgetc s ;;
       loop (λ '(c, gotdig, gotrad, rp),
         if c =? 48 then c <- shgetc s ;; ret (Continue (c, true, gotrad, rp - 1))
         else ret (Break (c, gotdig, gotrad, rp))) (c, gotdig, true, 0)
     else ret (c, gotdig, false, 0)) in
  ret (c, Hexa 0 (S754_zero false) (ld_of_int 1) false gotrad gotdig rp 0).

Definition hex_digit (c : Z) (h : hexa) : hexa :=
  let d := if 57 <? c then Z.lor c 32 + 10 - 97 else c - 48 in
  let '(x, y, scale, gottail) :=
    if h_dc h <? 8 then (u32 (h_x h * 16 + d), h_y h, h_scale h, h_gottail h)
    else if h_dc h <? LDBL_MANT_DIG / 4 + 1 then
      let scale := ld_div (h_scale h) (ld_of_int 16) in
      (h_x h, ld_add (h_y h) (ld_mul (ld_of_int d) scale), scale, h_gottail h)
    else if negb (d =? 0) && negb (h_gottail h) then
      (h_x h, ld_add (h_y h) (ld_mul (ld_dyadic 1 (-1)) (h_scale h)), h_scale h, true)
    else (h_x h, h_y h, h_scale h, h_gottail h) in
  Hexa x y scale gottail (h_gotrad h) true (h_rp h) (h_dc h + 1).

Definition hex_digits : M rc_scan (Z * hexa) :=
  let* (c, h) := hex_zeros in
  loop (λ '(c, h),
    if is_hex c || (c =? 46) then
      if c =? 46 then
        if h_gotrad h then ret (Break (c, h))
        else
          c <- shgetc s ;;
          ret (Continue (c, Hexa (h_x h) (h_y h) (h_scale h) (h_gottail h) true (h_gotdig h) (h_dc h) (h_dc h)))
      else c' <- shgetc s ;; ret (Continue (c', hex_digit c h))
    else ret (Break (c, h))) (c, h).

(** [while (x < 0x80000000)]: the first digit to the top of [x], the bits of [y] behind. *)
Definition hex_normalize (x : Z) (y : ld) (e2 : Z) : M rc_scan (Z * ld * Z) :=
  loop (λ '(x, y, e2),
    if x <? 2147483648 then
      if ld_ge y (ld_dyadic 1 (-1))
      then ret (Continue (u32 (x + x + 1), ld_add y (ld_sub y (ld_of_int 1)), e2 - 1))
      else ret (Continue (u32 (x + x), ld_add y y, e2 - 1))
    else ret (Break (x, y, e2))) (x, y, e2).

(** The number rounded to [bits], by adding and subtracting [bias] *)
Definition hex_round (bits sign x : Z) (y : ld) : ld :=
  let bias := if bits <? LDBL_MANT_DIG
              then copysignl (to_ldouble (scalbn (ld_of_int 1) (32 + LDBL_MANT_DIG - bits - 1))) (ld_of_int sign)
              else S754_zero false in
  let '(x, y) := if (bits <? 32) && negb (ld_zero y) && (Z.land x 1 =? 0)
                 then (u32 (x + 1), S754_zero false) else (x, y) in
  ld_sub (ld_add (ld_add bias (ld_mul (ld_of_int sign) (ld_of_int x))) (ld_mul (ld_of_int sign) y)) bias.

(** From the digits and the exponent on *)
Definition hex_value (bits emin sign e2 : Z) (x : Z) (y : ld) : M rc_scan ld :=
  if x =? 0 then ret (signed_zero sign)
  else if - emin <? e2 then set_err ERANGE ;; ret (overflowed sign)
  else if e2 <? emin - 2 * LDBL_MANT_DIG then set_err ERANGE ;; ret (underflowed sign)
  else
    let* (x, y, e2) := hex_normalize x y e2 in
    let bits := if 32 + e2 - emin <? bits then if 32 + e2 - emin <? 0 then 0 else 32 + e2 - emin else bits in
    let y := hex_round bits sign x y in
    (if ld_zero y then set_err ERANGE else ret tt) ;;
    ret (scalbnl y e2).

Definition hexfloat (bits emin sign : Z) (pok : bool) : M rc_scan ld :=
  let* (c, h) := hex_digits in
  if negb (h_gotdig h) then
    shunget ;;
    (if pok then shunget ;; if h_gotrad h then shunget else ret tt else ret tt) ;;
    ret (signed_zero sign)
  else
    let rp := if negb (h_gotrad h) then h_dc h else h_rp h in
    x <- loop (λ '(dc, x), if dc <? 8 then ret (Continue (dc + 1, u32 (x * 16))) else ret (Break x)) (h_dc h, h_x h) ;;
    e <- (if Z.lor c 32 =? 112 then
            e2 <- scanexp s pok ;;
            if e2 =? LLONG_MIN then if pok then shunget ;; ret (Some 0) else ret None
            else ret (Some e2)
          else shunget ;; ret (Some 0)) ;;
    match e with
    | None => ret (S754_zero false)
    | Some e2 => hex_value bits emin sign (e2 + 4 * rp - 32) x (h_y h)
    end.

(** ** __floatscan *)

Definition is_word (c : Z) : bool :=
  is_dig c || ((65 <=? c) && (c <=? 90)) || ((97 <=? c) && (c <=? 122)) || (c =? 95).

(** [sign] from the sign character, if [c] is one, and the character behind it *)
Definition read_sign (c : Z) : M rc_scan (Z * Z) :=
  if (c =? 43) || (c =? 45) then
    c' <- shgetc s ;; ret (if c =? 45 then -1 else 1, c')
  else ret (1, c).

(** [for (i=0; i<n && (c|32)==word[i]; i++) if (i<n-1) c = shgetc(f);] *)
Definition match_word (word : bytes) (c : Z) : M rc_scan (Z * Z) :=
  loop (λ '(i, c),
    if i <? zlen word then
      w <- of_option (idx word i) ;;
      if Z.lor c 32 =? w then
        if i <? zlen word - 1 then c <- shgetc s ;; ret (Continue (i + 1, c)) else ret (Continue (i + 1, c))
      else ret (Break (i, c))
    else ret (Break (i, c))) (0, c).

(** [while (i--) shunget(f);] and the like: [n] characters back *)
Definition unget_n (n : Z) : M rc_scan unit :=
  loop (λ i, if 0 <? i then shunget ;; ret (Continue (i - 1)) else ret (Break tt)) n.

(** What follows "nan" *)
Definition scan_nan (pok : bool) : M rc_scan ld :=
  c <- shgetc s ;;
  if negb (c =? 40) then shunget ;; ret S754_nan
  else
    loop (λ i,
      c <- shgetc s ;;
      if is_word c then ret (Continue (i + 1))
      else if c =? 41 then ret (Break S754_nan)
      else
        shunget ;;
        if negb pok then set_err EINVAL ;; ret (Break (S754_zero false))
        else unget_n i ;; ret (Break S754_nan)) 1.

Definition __floatscan (prec : Z) (pok : bool) : M rc_scan ld :=
  match (if prec =? 0 then Some (FLT_MANT_DIG, FLT_MIN_EXP)
         else if prec =? 1 then Some (DBL_MANT_DIG, DBL_MIN_EXP)
         else if prec =? 2 then Some (LDBL_MANT_DIG, LDBL_MIN_EXP) else None) with
  | None => ret (S754_zero false)
  | Some (bits, min_exp) =>
      let emin := min_exp - bits in
      c <- loop (λ _ : unit, c <- shgetc s ;; if isspace c then ret (Continue tt) else ret (Break c)) tt ;;
      let* (sign, c) := read_sign c in
      let* (i, c) := match_word (str "infinity") c in
      if (i =? 3) || (i =? 8) || ((3 <? i) && pok) then
        (if negb (i =? 8) then shunget ;; if pok then unget_n (i - 3) else ret tt else ret tt) ;;
        ret (ld_mul (ld_of_int sign) (S754_infinity false))
      else
        let* (i, c) := if i =? 0 then match_word (str "nan") c else ret (i, c) in
        if i =? 3 then scan_nan pok
        else if negb (i =? 0) then shunget ;; set_err EINVAL ;; ret (S754_zero false)
        else if c =? 48 then
          c <- shgetc s ;;
          if Z.lor c 32 =? 120 then hexfloat bits emin sign pok
          else shunget ;; decfloat 48 bits emin sign pok
        else decfloat c bits emin sign pok
  end.

(** ** strtod and its siblings: the number and the end offset, errno the state *)
Definition strtox (prec : Z) : M Z (ld * Z) := λ e,
  match __floatscan prec true (Scan 0 e) with
  | Ret y f => Ret (y, sc_p f) (sc_errno f)
  | Halt code f => Halt code (sc_errno f)
  | Fault => Fault
  | Diverge => Diverge
  end.
Definition strtof : M Z (spec_float * Z) := let* (y, n) := strtox 0 in ret (to_float y, n).
Definition strtod : M Z (spec_float * Z) := let* (y, n) := strtox 1 in ret (to_double y, n).
Definition strtold : M Z (ld * Z) := strtox 2.
End scanning.

(** * Reading *)

(** The text from position [p] on, the terminator included *)
Definition sees (s : bytes) (p : Z) (l : bytes) : Prop := 0 ≤ p ∧ dropZ p (s ++ [0]) = l.

Lemma sees_cons s p c l : sees s p (c :: l) → sees s (p + 1) l ∧ p ≤ zlen s ∧ chrv s p = c.
Proof.
  intros [Hp E]. assert (Hlt : p < zlen (s ++ [0])).
  { destruct (Z_lt_le_dec p (zlen (s ++ [0]))); [done|]. unfold dropZ, zlen in *. rewrite drop_ge in E by lia. done. }
  rewrite zlen_app in Hlt. change (zlen [0]) with 1 in Hlt. split; [split; [lia|]|split; [lia|]].
  - rewrite <- dropZ_dropZ, E by lia. done.
  - unfold chrv. pose proof (hd_dropZ (s ++ [0]) p 0 Hp) as Hh. rewrite E in Hh. cbn [hd] in Hh.
    destruct (Z.eq_dec p (zlen s)) as [->|Hne].
    + rewrite idx_None by lia. rewrite idx_middle in Hh. by cbn in *.
    + rewrite idx_app_l in Hh by lia. by symmetry.
Qed.

Lemma sees_app s p l1 l2 : sees s p (l1 ++ l2) → l2 ≠ [] → sees s (p + zlen l1) l2.
Proof.
  revert p. induction l1 as [|c l1 IH]; intros p H Hne; [by rewrite Z.add_0_r|].
  apply sees_cons in H as (H & _ & _). rewrite zlen_cons. replace (p + (1 + zlen l1)) with (p + 1 + zlen l1) by lia. by apply IH.
Qed.

Lemma sees_len s p c l : sees s p (c :: l) → zlen (c :: l) + p = zlen s + 1.
Proof.
  intros H. destruct (sees_cons _ _ _ _ H) as (_ & Hp & _). destruct H as [H0 E]. rewrite <- E.
  rewrite zlen_dropZ by (rewrite zlen_app; change (zlen [0]) with 1; lia). rewrite zlen_app. change (zlen [0]) with 1. lia.
Qed.

Lemma sees_start s : sees s 0 (s ++ [0]).
Proof. by split. Qed.

Lemma shgetc_run s p e c l : sees s p (c :: l) → shgetc s (Scan p e) = Ret c (Scan (p + 1) e).
Proof.
  intros H. destruct (sees_cons _ _ _ _ H) as (_ & Hp & Hc). destruct H as [H0 _].
  unfold shgetc. rewrite (bind_run get _ (Scan p e) (Scan p e) (Scan p e)) by done.
  cbn [sc_p sc_errno]. rewrite (bind_run _ _ _ _ _ (chr_run s p (Scan p e) ltac:(lia))). by rewrite Hc.
Qed.

Lemma shunget_run p e : 0 < p → shunget (Scan p e) = Ret tt (Scan (p - 1) e).
Proof. intros. unfold shunget, bind, get. cbn [sc_p sc_errno]. by replace (0 <? p) with true by lia. Qed.

(** [P] of each character, and of what was gathered before it *)
Fixpoint all_along {A} (P : A → Z → Prop) (g : A → Z → A) (a : A) (cs : bytes) : Prop :=
  match cs with [] => True | c :: cs => P a c ∧ all_along P g (g a c) cs end.

Lemma all_along_Forall {A} (P : A → Z → Prop) (Q : Z → Prop) (g : A → Z → A) a cs :
  (∀ a c, Q c → P a c) → Forall Q cs → all_along P g a cs.
Proof. intros H HQ. revert a. induction HQ; intros a; cbn; [done|]. auto. Qed.

Lemma all_along_app {A} (P : A → Z → Prop) (g : A → Z → A) a cs1 cs2 :
  all_along P g a cs1 → all_along P g (foldl g a cs1) cs2 → all_along P g a (cs1 ++ cs2).
Proof. revert a. induction cs1 as [|c cs1 IH]; intros a; cbn; [done|]. intros [? ?] ?. auto. Qed.

(** A loop that reads on over the characters [cs], [d] being the first one behind
    them.  The current character is the one before the position. *)
Lemma read_loop {X A R} s (body : X → M rc_scan (step X R)) (P : A → Z → Prop) (mk : Z → A → X) (g : A → Z → A) (r : A → R)
    cs d l a p e x :
  sees s p (cs ++ d :: l) → all_along P g a cs → zlen cs < 18446744073709551616 →
  (∀ c a f, P a c → body (mk c a) f = (c' <- shgetc s ;; ret (Continue (mk c' (g a c)))) f) →
  (∀ f, body (mk d (foldl g a cs)) f = Ret (Break (r (foldl g a cs))) f) →
  x = mk (hd d cs) a →
  loop body x (Scan (p + 1) e) = Ret (r (foldl g a cs)) (Scan (p + zlen cs + 1) e).
Proof.
  intros Hs HP Hlen Hgo Hend ->. apply (loop_to_run _ (length cs)); [|unfold zlen in Hlen; lia].
  revert a p Hs Hlen HP Hend. induction cs as [|c cs IH]; intros a p Hs Hlen HP Hend.
  - rewrite Z.add_0_r. constructor. apply Hend.
  - rewrite zlen_cons in *. cbn [hd foldl length]. destruct HP as [Hc HP].
    replace (p + (1 + zlen cs) + 1) with (p + 1 + zlen cs + 1) by lia.
    destruct (sees_cons _ _ _ _ Hs) as (Hs' & _ & _).
    assert (sees s (p + 1) (hd d cs :: tl (cs ++ d :: l))) as Hs1 by (by destruct cs).
    eapply loop_to_next; [|apply IH; [done|pose proof (zlen_nonneg cs); lia|done|done]].
    rewrite Hgo by done. by rewrite (bind_run _ _ _ _ _ (shgetc_run _ _ _ _ _ Hs1)).
Qed.

(** The leading zeros of a text *)
Lemma split_zeros (cs : bytes) : ∃ n rest, cs = replicate n 48 ++ rest ∧ hd 0 rest ≠ 48.
Proof.
  induction cs as [|c cs (n & rest & -> & Hr)]; [by exists 0%nat, []|].
  destruct (Z.eq_dec c 48) as [->|]; [by exists (S n), rest|by exists 0%nat, (c :: replicate n 48 ++ rest)].
Qed.

Lemma zeros_are n : Forall (eq 48) (replicate n 48).
Proof. by apply Forall_replicate. Qed.

(** *** Decimal digits *)

Definition decval (cs : bytes) : Z := foldl (λ a c, 10 * a + (c - 48)) 0 cs.
Definition dec_text (cs : bytes) : Prop := Forall (λ c, is_dig c = true) cs.

Lemma foldl_dec_mono cs : dec_text cs → ∀ a, 0 ≤ a → a ≤ foldl (λ a c, 10 * a + (c - 48)) a cs.
Proof.
  induction 1 as [|c cs Hc Hcs IH]; intros a Ha; [done|]. cbn [foldl]. unfold is_dig in Hc.
  specialize (IH (10 * a + (c - 48)) ltac:(lia)). lia.
Qed.

(** Digits are accumulated until a limit is reached. *)
Lemma dec_loop s lim cs d l a p e : sees s p (cs ++ d :: l) → zlen cs < 4611686018427387904 → dec_text cs → is_dig d = false →
  ∃ cs1 cs2, cs = cs1 ++ cs2 ∧ (cs2 = [] ∨ lim ≤ foldl (λ a c, 10 * a + (c - 48)) a cs1) ∧
    loop (λ '(c, x),
      if is_dig c && (x <? lim) then c' <- shgetc s ;; ret (Continue (c', 10 * x + (c - 48)))
      else ret (Break (c, x))) (hd d cs, a) (Scan (p + 1) e) =
    Ret (hd d cs2, foldl (λ a c, 10 * a + (c - 48)) a cs1) (Scan (p + zlen cs1 + 1) e).
Proof.
  intros Hs Hlen Hcs Hd. set (g := λ a c, 10 * a + (c - 48)).
  assert (∀ cs, dec_text cs → ∀ a, ∃ cs1 cs2, cs = cs1 ++ cs2 ∧ all_along (λ x c, is_dig c = true ∧ x < lim) g a cs1 ∧
    (cs2 = [] ∨ lim ≤ foldl g a cs1)) as Hsplit.
  { clear. induction 1 as [|c cs Hc Hcs IH]; intros a; [exists [], []; split; [done|]; split; [done|by left]|].
    destruct (Z_lt_le_dec a lim); [|exists [], (c :: cs); split; [done|]; split; [done|by right]].
    destruct (IH (g a c)) as (cs1 & cs2 & -> & H1 & H2). by exists (c :: cs1), cs2. }
  destruct (Hsplit cs Hcs a) as (cs1 & cs2 & -> & H1 & H2). exists cs1, cs2. split; [done|]. split; [done|].
  rewrite <- app_assoc in Hs.
  destruct (cs2 ++ d :: l) as [|d2 l2] eqn:E2; [by destruct cs2|].
  assert (Ed : d2 = hd d cs2) by (destruct cs2; by inversion E2). rewrite <- Ed.
  replace (hd d (cs1 ++ cs2)) with (hd d2 cs1) by (destruct cs1; [by rewrite Ed|done]).
  apply (read_loop s _ (λ x c, is_dig c = true ∧ x < lim) (λ c x, (c, x)) g (λ x, (d2, x)) cs1 d2 l2 a p e _ Hs H1); [zlen_lia| | |done].
  - intros c x f [Hc Hx]. rewrite Hc. by replace (x <? lim) with true by lia.
  - intros f. destruct H2 as [->|H2].
    + rewrite Ed. cbn [hd]. by rewrite Hd.
    + replace (_ <? lim) with false by (unfold g in *; lia). by rewrite andb_false_r.
Qed.

(** The exponent: a sign, and digits of a number below [LLONG_MAX / 100] *)
Definition exp_sign (sg : option bool) : bytes := match sg with None => [] | Some true => [45] | Some false => [43] end.

Lemma exp_start_run s sg c l p e pok : sees s p (exp_sign sg ++ c :: l) → is_dig c = true →
  exp_start s pok (Scan p e) = Ret (match sg with Some true => true | _ => false end, c) (Scan (p + zlen (exp_sign sg) + 1) e).
Proof.
  intros Hs Hc. unfold exp_start. assert (H43 : (c =? 43) || (c =? 45) = false) by (unfold is_dig in Hc; lia).
  destruct sg as [b|]; [|cbn [exp_sign app] in *].
  - assert (∃ x, exp_sign (Some b) = [x] ∧ (x =? 43) || (x =? 45) = true ∧ (x =? 45) = b) as (x & Ex & H1 & H2) by (destruct b; eauto).
    rewrite Ex in *. cbn [app] in Hs. destruct (sees_cons _ _ _ _ Hs) as (Hs1 & _ & _).
    rewrite (bind_run _ _ _ _ _ (shgetc_run _ _ _ _ _ Hs)), H1.
    rewrite (bind_run _ _ _ _ _ (shgetc_run _ _ _ _ _ Hs1)), Hc, H2. cbn [negb andb]. rewrite bind_ret. by destruct b.
  - rewrite (bind_run _ _ _ _ _ (shgetc_run _ _ _ _ _ Hs)), H43. change (zlen []) with 0. unfold ret. do 2 f_equal. lia.
Qed.

Lemma exp_digits_run s cs d l p e : sees s p (cs ++ d :: l) → zlen cs < 4611686018427387904 →
  dec_text cs → is_dig d = false → decval cs < LLONG_MAX / 100 →
  exp_digits s (hd d cs) (Scan (p + 1) e) = Ret (decval cs) (Scan (p + zlen cs + 1) e).
Proof.
  intros Hs Hlen Hcs Hd Hv. unfold exp_digits.
  destruct (dec_loop s (INT_MAX / 10) cs d l 0 p e Hs Hlen Hcs Hd) as (c1 & c2 & -> & H1 & E1).
  rewrite (bind_run _ _ _ _ _ E1). clear E1. rewrite <- app_assoc in Hs. unfold decval in *. rewrite foldl_app in *.
  apply Forall_app in Hcs as [Hc1 Hc2]. set (x := foldl (λ a c, 10 * a + (c - 48)) 0 c1) in *.
  pose proof (foldl_dec_mono c1 Hc1 0 ltac:(lia)) as Hx0.
  apply sees_app in Hs; [|by destruct c2].
  destruct (dec_loop s (LLONG_MAX / 100) c2 d l x _ e Hs ltac:(zlen_lia) Hc2 Hd) as (c3 & c4 & -> & H3 & E3).
  rewrite (bind_run _ _ _ _ _ E3). clear E3. rewrite foldl_app in Hv. apply Forall_app in Hc2 as [Hc3 Hc4].
  set (y := foldl (λ a c, 10 * a + (c - 48)) x c3) in *.
  pose proof (foldl_dec_mono c3 Hc3 x ltac:(lia)) as Hx1. pose proof (foldl_dec_mono c4 Hc4 y ltac:(lia)) as Hx2.
  destruct H3 as [->|H3]; [|lia]. cbn [hd foldl] in *.
  erewrite bind_run; [|apply loop_break; by rewrite Hd].
  rewrite app_nil_r. unfold ret. subst y. f_equal. f_equal. zlen_lia.
Qed.

Lemma scanexp_run s sg cs d l p e pok : sees s p (exp_sign sg ++ cs ++ d :: l) → zlen cs < 4611686018427387904 →
  dec_text cs → cs ≠ [] → is_dig d = false → decval cs < LLONG_MAX / 100 →
  scanexp s pok (Scan p e) =
    Ret (match sg with Some true => - decval cs | _ => decval cs end) (Scan (p + zlen (exp_sign sg) + zlen cs) e).
Proof.
  intros Hs Hlen Hcs Hne Hd Hv. unfold scanexp. set (q := p + zlen (exp_sign sg)).
  assert (Hq : sees s q (cs ++ d :: l)) by (apply sees_app; [done|by destruct cs]). pose proof (proj1 Hs) as Hp0.
  destruct cs as [|c cs]; [done|]. pose proof (Forall_inv Hcs) as Hc. cbn beta in Hc.
  rewrite (bind_run _ _ _ _ _ (exp_start_run s sg c _ p e pok Hs Hc)), Hc. fold q. cbn [negb].
  rewrite (bind_run _ _ _ _ _ (exp_digits_run s (c :: cs) d l q e Hq Hlen Hcs Hd Hv)).
  rewrite (bind_run _ _ _ _ _ (shunget_run (q + zlen (c :: cs) + 1) e ltac:(subst q; zlen_lia))).
  unfold ret. rewrite Z.add_simpl_r. by destruct sg as [[|]|].
Qed.

(** *** The start of a constant *)

Lemma spaces_run s sp c l p e : sees s p (sp ++ c :: l) → Forall (λ c, isspace c = true) sp → isspace c = false →
  zlen sp < 4611686018427387904 →
  loop (λ _ : unit, c <- shgetc s ;; if isspace c then ret (Continue tt) else ret (Break c)) tt (Scan p e) =
  Ret c (Scan (p + zlen sp + 1) e).
Proof.
  intros Hs Hsp Hc Hlen. apply (loop_to_run _ (length sp)); [|unfold zlen in Hlen; lia]. clear Hlen.
  revert p Hs. induction Hsp as [|b sp Hb Hsp IH]; intros p Hs; cbn [length app] in *.
  - constructor. rewrite (bind_run _ _ _ _ _ (shgetc_run _ _ _ _ _ Hs)), Hc. rewrite Z.add_0_r. done.
  - rewrite zlen_cons. replace (p + (1 + zlen sp) + 1) with (p + 1 + zlen sp + 1) by lia.
    eapply loop_to_next; [|apply IH; by apply sees_cons in Hs as (Hs & _ & _)].
    by rewrite (bind_run _ _ _ _ _ (shgetc_run _ _ _ _ _ Hs)), Hb.
Qed.

Definition sign_value (sg : option bool) : Z := match sg with Some true => -1 | _ => 1 end.

(** White space, a sign and the character behind it *)
Lemma prefix_run s sp sg c l p e : sees s p (sp ++ exp_sign sg ++ c :: l) → Forall (λ c, isspace c = true) sp →
  isspace c = false → c ≠ 43 → c ≠ 45 → zlen sp < 4611686018427387904 →
  (let* c := loop (λ _ : unit, c <- shgetc s ;; if isspace c then ret (Continue tt) else ret (Break c)) tt in read_sign s c) (Scan p e) =
  Ret (sign_value sg, c) (Scan (p + zlen sp + zlen (exp_sign sg) + 1) e).
Proof.
  intros Hs Hsp Hc H43 H45 Hlen. destruct sg as [b|].
  - assert (∃ x, exp_sign (Some b) = [x] ∧ isspace x = false ∧ (x =? 43) || (x =? 45) = true ∧
      (if x =? 45 then -1 else 1) = sign_value (Some b)) as (x & Ex & H1 & H2 & H3) by (destruct b; eauto).
    rewrite Ex in *. cbn [app] in Hs. rewrite (bind_run _ _ _ _ _ (spaces_run s sp x _ p e Hs Hsp H1 Hlen)).
    apply sees_app in Hs; [|done]. apply sees_cons in Hs as (Hs & _ & _). unfold read_sign. rewrite H2.
    rewrite (bind_run _ _ _ _ _ (shgetc_run _ _ _ _ _ Hs)), H3. done.
  - cbn [exp_sign app] in *. rewrite (bind_run _ _ _ _ _ (spaces_run s sp c _ p e Hs Hsp Hc Hlen)).
    unfold read_sign. rewrite (proj2 (Z.eqb_neq c 43)), (proj2 (Z.eqb_neq c 45)) by done.
    change (zlen []) with 0. rewrite Z.add_0_r. done.
Qed.

Lemma no_word s word w c f : idx word 0 = Some w → Z.lor c 32 ≠ w → match_word s word c f = Ret (0, c) f.
Proof.
  intros Hw Hc. apply loop_break. pose proof (idx_Some_range _ _ _ Hw).
  replace (0 <? zlen word) with true by lia. rewrite Hw. cbn [of_option].
  by rewrite bind_ret, (proj2 (Z.eqb_neq _ _)) by done.
Qed.

(** * Where it goes wrong *)

(** No conversion: the end is where the scanner stopped, not the beginning of the
    string, because [shlim] does nothing here. *)
Lemma strtod_no_conversion :
  strtod (str "  x") 0 = Ret (S754_zero false, 2) EINVAL ∧
  strtod (str ".") 0 = Ret (S754_zero false, 1) EINVAL ∧
  strtod (str "-") 0 = Ret (S754_zero false, 1) EINVAL ∧
  strtod (str "in") 0 = Ret (S754_zero false, 2) EINVAL.
Proof. vm_compute. repeat split; reflexivity. Qed.

(** 5^9/2^30: the window of digits ends with the array, [z] comes round to 0, and
    the store that extends it goes to [x[-1]]. *)
Lemma strtod_before_array :
  strtod (str "0.001818989403545856475830078125") 0 = Fault ∧
  (∃ y n e, strtod (str "0.0018189894035458564758300781250000000000000001") 0 = Ret (y, n) e).
Proof. split; [vm_compute; reflexivity|]. vm_compute. by do 3 eexists. Qed.
