(* ===== verification/DecRing.v ===== *)
(** The ring of base-10^9 digits of [decfloat] (floatscan.c): the window from
    [a] to [z] as a list of limbs, most significant first.

    A position in the ring is an integer [A] that the code reduces modulo KMAX,
    so that the window may begin anywhere.  Scaling the number is a function on
    the list of its limbs ([mul_limbs], [div_limbs]), which the loops of the code
    compute in place. *)
From S2P Require Import Prelude CMonad Kernel RcFd Ieee Rounding Ratio FloatScan.

(** ** Limbs *)

Definition B9 : Z := 1000000000.
Definition limbs (ls : list Z) : Z := foldl (λ v d, v * B9 + d) 0 ls.
(** [10^(9*n)] *)
Definition pow9 (n : Z) : Z := 10 ^ (9 * n).

Lemma pow10_pos k : 0 ≤ k → 0 < 10 ^ k.
Proof. intros. by apply Z.pow_pos_nonneg. Qed.
Lemma pow9_pos n : 0 ≤ n → 0 < pow9 n.
Proof. intros. apply pow10_pos. lia. Qed.
Lemma pow9_add a b : 0 ≤ a → 0 ≤ b → pow9 (a + b) = pow9 a * pow9 b.
Proof. intros. unfold pow9. rewrite <- Z.pow_add_r by lia. f_equal. lia. Qed.
Lemma pow9_S a : 0 ≤ a → pow9 (1 + a) = B9 * pow9 a.
Proof. intros. rewrite pow9_add by lia. done. Qed.

Lemma foldl_limbs ls v : foldl (λ v d, v * B9 + d) v ls = v * pow9 (zlen ls) + limbs ls.
Proof.
  unfold limbs. revert v. induction ls as [|d ls IH]; intros v; [change (pow9 (zlen (@nil Z))) with 1; cbn [foldl]; lia|].
  cbn [foldl]. rewrite IH, (IH (0 * B9 + d)), zlen_cons, pow9_S by apply zlen_nonneg. lia.
Qed.

Lemma limbs_cons d ls : limbs (d :: ls) = d * pow9 (zlen ls) + limbs ls.
Proof. unfold limbs at 1. cbn [foldl]. rewrite foldl_limbs. lia. Qed.
Lemma limbs_app l1 l2 : limbs (l1 ++ l2) = limbs l1 * pow9 (zlen l2) + limbs l2.
Proof. unfold limbs at 1. rewrite foldl_app. apply foldl_limbs. Qed.
Lemma limbs_snoc ls d : limbs (ls ++ [d]) = limbs ls * B9 + d.
Proof. rewrite limbs_app. change (pow9 (zlen [d])) with B9. unfold limbs at 2. cbn [foldl]. lia. Qed.

(** A limb may be 10^9: the comparison in the code is [tmp > 1000000000]. *)
Definition limb (d : Z) : Prop := 0 ≤ d ≤ B9.
Definition limb_lt (d : Z) : Prop := 0 ≤ d < B9.

Lemma limbs_nonneg ls : Forall limb ls → 0 ≤ limbs ls.
Proof.
  induction 1 as [|d ls Hd _ IH]; [done|]. rewrite limbs_cons. unfold limb in Hd.
  pose proof (pow9_pos (zlen ls) (zlen_nonneg ls)). nia.
Qed.

Lemma limbs_lt ls : Forall limb_lt ls → limbs ls < pow9 (zlen ls).
Proof.
  induction 1 as [|d ls Hd _ IH]; [done|]. rewrite limbs_cons, zlen_cons, pow9_S by apply zlen_nonneg. unfold limb_lt in Hd.
  pose proof (pow9_pos (zlen ls) (zlen_nonneg ls)). nia.
Qed.

Lemma limbs_le ls : Forall limb ls → limbs ls * (B9 - 1) ≤ B9 * (pow9 (zlen ls) - 1).
Proof.
  induction 1 as [|d ls Hd _ IH]; [done|]. rewrite limbs_cons, zlen_cons, pow9_S by apply zlen_nonneg. unfold limb, B9 in *.
  pose proof (pow9_pos (zlen ls) (zlen_nonneg ls)). nia.
Qed.

Lemma limbs_lt2 ls : Forall limb ls → limbs ls < 2 * pow9 (zlen ls).
Proof.
  intros H. pose proof (limbs_le ls H). pose proof (pow9_pos (zlen ls) (zlen_nonneg ls)). unfold B9 in *. lia.
Qed.

Lemma limbs_hd d ls : Forall limb ls → 0 < d → pow9 (zlen ls) ≤ limbs (d :: ls).
Proof. intros H Hd. rewrite limbs_cons. pose proof (limbs_nonneg ls H). pose proof (pow9_pos (zlen ls) (zlen_nonneg ls)). nia. Qed.

(** A limb that is 10^9 comes behind a multiple of [m]. *)
Fixpoint calm_mod (m : Z) (ls : list Z) : Prop :=
  match ls with
  | u :: t => match t with v :: _ => (v = B9 → u mod m = 0) | [] => True end ∧ calm_mod m t
  | [] => True
  end.
Abbreviation calm := (calm_mod 512).

Lemma calm_weaken m k ls : 0 < m → 0 < k → calm_mod (m * k) ls → calm_mod m ls.
Proof.
  intros Hm Hk. induction ls as [|u ls IH]; [done|]. cbn [calm_mod]. intros [H1 H2]. split; [|auto].
  destruct ls as [|v t]; [done|]. intros Hv. specialize (H1 Hv). apply Z.mod_divide in H1 as [q ->]; [|lia].
  replace (q * (m * k)) with (q * k * m) by lia. apply Z.mod_mul. lia.
Qed.

Lemma calm_lt m ls : Forall limb_lt ls → calm_mod m ls.
Proof. induction 1 as [|u ls Hu Hl IH]; [done|]. cbn [calm_mod]. split; [|done]. destruct Hl as [|v t Hv _]; [done|]. unfold limb_lt in Hv. lia. Qed.

Lemma Forall_limb ls : Forall limb_lt ls → Forall limb ls.
Proof. intros H. eapply Forall_impl; [exact H|]. unfold limb, limb_lt. lia. Qed.

(** ** Times [2^29] *)

Definition mul_step (v carry : Z) : Z * Z :=
  let tmp := Z.shiftl v 29 + carry in
  if B9 <? tmp then (tmp mod B9, u32 (tmp / B9)) else (u32 tmp, 0).
Fixpoint mul_limbs (ls : list Z) : list Z * Z :=
  match ls with
  | [] => ([], 0)
  | v :: t => let '(o, carry) := mul_limbs t in let '(v', carry') := mul_step v carry in (v' :: o, carry')
  end.

Lemma mul_step_spec v carry v' carry' : limb v → 0 ≤ carry ≤ 2 ^ 29 → mul_step v carry = (v', carry') →
  v' + carry' * B9 = v * 2 ^ 29 + carry ∧ limb v' ∧ 0 ≤ carry' ≤ 2 ^ 29 ∧ (v' = B9 → carry' = 0) ∧
  (carry = 0 → v' mod 512 = 0) ∧ (0 < v → 0 < v' ∨ 0 < carry').
Proof.
  unfold limb, mul_step. intros Hv Hc. rewrite Z.shiftl_mul_pow2 by lia. set (tmp := v * 2 ^ 29 + carry).
  assert (Ht : tmp = v * 536870912 + carry) by done. clearbody tmp. change (2 ^ 29) with 536870912 in *. unfold B9 in *.
  destruct (Z.ltb_spec 1000000000 tmp) as [H|H]; intros [= <- <-].
  - rewrite u32_id by lia. repeat split; lia.
  - rewrite u32_id by lia. repeat split; lia.
Qed.

Lemma mul_limbs_spec ls o carry : Forall limb ls → mul_limbs ls = (o, carry) →
  zlen o = zlen ls ∧ limbs ls * 2 ^ 29 = carry * pow9 (zlen ls) + limbs o ∧ Forall limb o ∧ calm o ∧
  0 ≤ carry ≤ 2 ^ 29 ∧ (hd 0 o = B9 → carry = 0) ∧ (0 < hd 0 ls → 0 < hd 0 o ∨ 0 < carry).
Proof.
  intros H. revert o carry. induction H as [|v ls Hv Hl IH]; intros o carry; cbn [mul_limbs].
  { intros [= <- <-]. repeat split; done || lia. }
  destruct (mul_limbs ls) as [o1 c1] eqn:E1. destruct (IH o1 c1 eq_refl) as (Hlen & HV & Ho & Hcalm & Hc & Hhd & _).
  destruct (mul_step v c1) as [v' c'] eqn:E2. intros [= <- <-].
  destruct (mul_step_spec v c1 v' c' Hv Hc E2) as (E & Hv' & Hc' & Hfull & Hz & Hnz).
  rewrite !zlen_cons, !limbs_cons, Hlen, pow9_S by apply zlen_nonneg. split; [done|]. split.
  { rewrite Z.mul_add_distr_r, HV. nia. }
  split; [by constructor|]. split; [|done]. cbn [calm_mod]. split; [|done]. destruct o1 as [|w t]; [done|]. cbn [hd] in Hhd. auto.
Qed.

(** Trailing zeros are dropped, but not the first limb. *)
Fixpoint trim (ls : list Z) : list Z :=
  match ls with
  | [] => []
  | v :: t => match trim t with [] => if v =? 0 then [] else [v] | t' => v :: t' end
  end.
Definition trim_tl (ls : list Z) : list Z := match ls with [] => [] | v :: t => v :: trim t end.

Lemma trim_split ls : ∃ k, ls = trim ls ++ replicate k 0 ∧ (trim ls = [] ∨ List.last (trim ls) 0 ≠ 0).
Proof.
  induction ls as [|v ls (k & E & H)]; [by exists 0%nat; split; [|left]|]. cbn [trim].
  destruct (trim ls) as [|w t] eqn:Et.
  - cbn [app] in E. destruct (Z.eqb_spec v 0) as [->|Hv].
    + exists (S k). rewrite E. split; [done|by left].
    + exists k. cbn [app]. rewrite E. split; [done|by right].
  - exists k. split; [rewrite E at 1; done|]. right. destruct H as [H|H]; [done|]. exact H.
Qed.

Lemma calm_app_l l1 l2 : calm (l1 ++ l2) → calm l1.
Proof.
  induction l1 as [|u l1 IH]; [done|]. cbn [app calm_mod]. intros [H1 H2]. split; [|by apply IH].
  destruct l1; [done|]. exact H1.
Qed.

Lemma limbs_zeros k : limbs (replicate k 0) = 0.
Proof. induction k as [|k IH]; [done|]. cbn [replicate]. rewrite limbs_cons, IH. lia. Qed.

Lemma trim_tl_spec ls : ls ≠ [] → Forall limb ls → calm ls →
  let t := trim_tl ls in
  t ≠ [] ∧ hd 0 t = hd 0 ls ∧ zlen t ≤ zlen ls ∧ Forall limb t ∧ calm t ∧
  limbs ls = limbs t * pow9 (zlen ls - zlen t) ∧ (zlen t = 1 ∨ List.last t 0 ≠ 0).
Proof.
  destruct ls as [|v ls]; [done|]. intros _ Hl Hc. cbn [trim_tl].
  destruct (trim_split ls) as (k & E & Hlast).
  assert (El : v :: ls = (v :: trim ls) ++ replicate k 0) by (cbn [app]; by rewrite <- E).
  assert (Hz : zlen (v :: ls) = zlen (v :: trim ls) + Z.of_nat k) by (rewrite El, zlen_app, zlen_replicate; done).
  split; [done|]. split; [done|]. split; [lia|].
  rewrite El in Hl, Hc. split; [by apply Forall_app in Hl as [? _]|]. split; [by eapply calm_app_l|]. split.
  - rewrite El at 1. rewrite limbs_app, limbs_zeros, zlen_replicate. replace (zlen (v :: ls) - _) with (Z.of_nat k) by lia. lia.
  - destruct (trim ls) as [|w t] eqn:Et; [by left|right]. destruct Hlast as [?|Hlast]; [done|]. exact Hlast.
Qed.

(** ** Divided by [P], a divisor of 10^9 *)

Fixpoint div_limbs (P carry : Z) (ls : list Z) : list Z * Z :=
  match ls with
  | [] => ([], carry)
  | v :: t => let '(o, c) := div_limbs P (B9 / P * (v mod P)) t in (v / P + carry :: o, c)
  end.

Section div.
Context (P : Z) (HP : 0 < P) (HB : B9 = P * (B9 / P)).

Lemma div_step v carry : limb v → 0 ≤ carry ≤ B9 - B9 / P → (v = B9 → carry = 0) → 1 < P →
  limb_lt (v / P + carry) ∧ 0 ≤ B9 / P * (v mod P) ≤ B9 - B9 / P ∧ (B9 / P * (v mod P) < B9).
Proof using All.
  unfold limb, limb_lt. intros Hv Hc Hfull HP1. set (Q := B9 / P) in *.
  assert (0 < Q) by (unfold B9 in *; nia).
  assert (B9 / P = Q) by done. pose proof (Z.mod_pos_bound v P HP).
  assert (0 ≤ v / P) by (apply Z.div_pos; lia).
  assert (v / P < Q ∨ v = B9 ∧ v / P = Q) as Hq.
  { destruct (Z.eq_dec v B9) as [->|]; [by right|left]. apply Z.div_lt_upper_bound; nia. }
  split; [|split; nia]. destruct Hq as [Hq|[-> Hq]]; [lia|]. rewrite Hfull by done. nia.
Qed.

(** [limbs ls / P], and the carry, which is the next limb *)
Lemma div_limbs_spec ls carry o c : 1 < P → Forall limb ls → 0 ≤ carry ≤ B9 - B9 / P → (hd 0 ls = B9 → carry = 0) →
  calm_mod P ls → div_limbs P carry ls = (o, c) →
  zlen o = zlen ls ∧ Forall limb_lt o ∧ 0 ≤ c < B9 ∧
  P * (limbs o * B9 + c) = limbs ls * B9 + carry * P * pow9 (zlen ls).
Proof using All.
  intros HP1 Hl. revert carry o c. induction Hl as [|v ls Hv Hl IH]; intros carry o c Hc Hhd Hcalm; cbn [div_limbs].
  { intros [= <- <-]. change (pow9 (zlen [])) with 1. change (limbs []) with 0.
    repeat split; [done|lia| |lia]. assert (0 < B9 / P) by (unfold B9 in *; nia). lia. }
  destruct (div_limbs P _ ls) as [o1 c1] eqn:E. intros [= <- <-]. cbn [hd] in Hhd. cbn [calm_mod] in Hcalm.
  destruct (div_step v carry Hv Hc Hhd HP1) as (H1 & H2 & H3).
  destruct (IH _ _ _ H2 ltac:(destruct ls; [done|cbn [hd]; intros E9; rewrite (proj1 Hcalm E9); lia]) (proj2 Hcalm) E)
    as (Hlen & Ho & Hc1 & HV).
  rewrite !zlen_cons, !limbs_cons, Hlen, pow9_S by apply zlen_nonneg. split; [done|]. split; [by constructor|]. split; [done|].
  pose proof (Z.div_mod v P ltac:(lia)) as Ev. remember (v / P) as q eqn:E1. remember (v mod P) as r eqn:E2.
  remember (B9 / P) as Q eqn:E3. clear E1 E2 E3.
  replace (P * (((q + carry) * pow9 (zlen ls) + limbs o1) * B9 + c1))
    with (P * (limbs o1 * B9 + c1) + P * (q + carry) * B9 * pow9 (zlen ls)) by lia.
  rewrite HV, Ev. replace (Q * r * P) with (r * B9) by (rewrite HB; lia). lia.
Qed.

(** Nothing is left of a carry that is zero. *)
Lemma div_limbs_carry ls carry o : div_limbs P carry ls = (o, 0) → ls ≠ [] → Forall limb ls → 0 < B9 / P →
  List.last ls 0 ≠ 0 → 0 ≤ carry → List.last o 0 ≠ 0.
Proof using All.
  intros E Hne Hl HQ Hlast Hc. revert carry o Hne Hlast Hc E. induction Hl as [|v ls Hv Hl IH]; intros carry o Hne Hlast Hc; [done|].
  cbn [div_limbs]. destruct (div_limbs P _ ls) as [o1 c1] eqn:E. intros [= <- ->].
  pose proof (Z.mod_pos_bound v P HP) as Hm.
  destruct ls as [|w t].
  - cbn [div_limbs] in E. injection E as <- E. cbn [List.last] in *. unfold limb in Hv.
    assert (v mod P = 0) by nia. assert (0 < v / P); [|lia]. pose proof (Z.div_mod v P ltac:(lia)). nia.
  - assert (List.last o1 0 ≠ 0) by (apply (IH (B9 / P * (v mod P)) o1); [done|done|nia|done]).
    cbn [div_limbs] in E. destruct (div_limbs P (B9 / P * (w mod P)) t) as [o2 c2]. injection E as <- _. done.
Qed.

(** A first limb that is lost leaves a carry. *)
Lemma div_limbs_hd v ls o c : 0 < v → 0 < B9 / P → div_limbs P 0 (v :: ls) = (o, c) → Forall limb ls →
  0 < hd 0 o ∨ hd 0 o = 0 ∧ 0 < hd 0 (tl o ++ [c]).
Proof using All.
  intros Hv HQ. cbn [div_limbs]. destruct (div_limbs P _ ls) as [o1 c1] eqn:E. intros [= <- <-] Hl. cbn [hd tl].
  pose proof (Z.div_mod v P ltac:(lia)) as Ev. pose proof (Z.mod_pos_bound v P HP) as Hm.
  pose proof (Z.div_pos v P ltac:(lia) HP). destruct (Z.eq_dec (v / P) 0) as [E0|]; [right|lia].
  split; [lia|]. assert (0 < B9 / P * (v mod P)) by nia.
  destruct ls as [|w t]; cbn [div_limbs] in E.
  - injection E as <- <-. done.
  - destruct (div_limbs P (B9 / P * (w mod P)) t) as [o2 c2]. injection E as <- <-. cbn [hd app]. apply Forall_cons in Hl as [Hw _].
    pose proof (Z.div_pos w P). unfold limb in Hw. lia.
Qed.
End div.

(** ** The window *)

Lemma mask_mod i : mask i = i mod 2048.
Proof. apply (Z.land_ones i 11). lia. Qed.
Lemma mask_range i : 0 ≤ mask i < 2048.
Proof. rewrite mask_mod. lia. Qed.
Lemma mask_shift i k : mask (mask i + k) = mask (i + k).
Proof. rewrite !mask_mod. lia. Qed.
Lemma mask_pred i : mask (mask i - 1) = mask (i - 1).
Proof. apply (mask_shift i (-1)). Qed.
Lemma mask_neq i j : i ≠ j → - 2048 < i - j < 2048 → (mask i =? mask j) = false.
Proof. intros. rewrite !mask_mod. lia. Qed.
Lemma mask_id i : 0 ≤ i < 2048 → mask i = i.
Proof. intros. rewrite mask_mod. lia. Qed.

Lemma ring_set (x : ring) i v : <[i := v]> x !! i = Some v.
Proof. exact (lookup_insert_eq (M := gmap Z) x i v). Qed.
Lemma ring_set_ne (x : ring) i j v : i ≠ j → <[i := v]> x !! j = x !! j.
Proof. exact (lookup_insert_ne (M := gmap Z) x i j v). Qed.

(** The elements from position [A] on are [ls]. *)
Fixpoint cells (x : ring) (A : Z) (ls : list Z) : Prop :=
  match ls with [] => True | v :: t => x !! mask A = Some v ∧ cells x (A + 1) t end.

Lemma cells_app x A l1 l2 : cells x A (l1 ++ l2) ↔ cells x A l1 ∧ cells x (A + zlen l1) l2.
Proof.
  revert A. induction l1 as [|v l1 IH]; intros A; cbn [app cells].
  - rewrite Z.add_0_r. tauto.
  - rewrite IH, zlen_cons, Z.add_assoc. tauto.
Qed.

Lemma cells_set x A ls b v : A + zlen ls ≤ b < A + 2048 ∨ b < A ∧ A + zlen ls ≤ b + 2048 →
  cells x A ls → cells (<[mask b := v]> x) A ls.
Proof.
  revert A. induction ls as [|w ls IH]; intros A Hb; cbn [cells]; [done|]. intros [H1 H2]. rewrite zlen_cons in Hb.
  pose proof (zlen_nonneg ls). split; [|apply IH; [lia|done]].
  rewrite ring_set_ne; [done|]. intros E. apply Z.eqb_eq in E. rewrite mask_neq in E by lia. done.
Qed.

Lemma cells_cons x A ls v : zlen ls < 2048 → cells x (A + 1) ls → cells (<[mask A := v]> x) A (v :: ls).
Proof. intros Hl H. cbn [cells]. split; [by rewrite ring_set|]. apply cells_set; [right; lia|done]. Qed.
Lemma cells_snoc x A ls v : zlen ls < 2048 → cells x A ls → cells (<[mask (A + zlen ls) := v]> x) A (ls ++ [v]).
Proof.
  intros Hl H. apply cells_app. pose proof (zlen_nonneg ls). split; [apply cells_set; [left; lia|done]|].
  cbn [cells]. by rewrite ring_set.
Qed.

Lemma rd_run x A v f : x !! mask A = Some v → rd x (mask A) f = Ret v f.
Proof. unfold rd. by intros ->. Qed.
Lemma wr_run x A v f : wr x (mask A) v f = Ret (<[mask A := v]> x) f.
Proof.
  unfold wr. pose proof (mask_range A). replace (0 <=? mask A) with true by lia.
  by replace (mask A <? KMAX) with true by (unfold KMAX; lia).
Qed.

(** *** Times [2^29] *)

Lemma trim_nil ls : trim ls = [] ↔ zlen (trim ls) = 0.
Proof. destruct (trim ls); [done|]. rewrite zlen_cons. pose proof (zlen_nonneg l). split; [done|lia]. Qed.

Lemma zlen_trim ls : zlen (trim ls) ≤ zlen ls.
Proof. destruct (trim_split ls) as (k & E & _). rewrite E at 2. rewrite zlen_app. pose proof (zlen_nonneg (replicate k 0)). lia. Qed.

Lemma mul_limbs_cons v ls o carry : mul_limbs ls = (o, carry) →
  mul_limbs (v :: ls) = ((mul_step v carry).1 :: o, (mul_step v carry).2).
Proof. cbn [mul_limbs]. intros ->. by destruct (mul_step v carry). Qed.

Lemma upscale_loop A pre v rest x o carry (f : rc_scan) : cells x A (pre ++ [v]) → mul_limbs rest = (o, carry) → zlen o = zlen rest →
  cells x (A + zlen pre + 1) (trim o) → zlen (pre ++ v :: rest) ≤ 2047 →
  ∃ x', cells x' A (trim_tl (mul_limbs (pre ++ v :: rest)).1) ∧
    loop (λ '(k, x, z, carry),
      v <- rd x k ;;
      let tmp := Z.shiftl v 29 + carry in
      let '(v', carry) := if 1000000000 <? tmp then (tmp mod 1000000000, u32 (tmp / 1000000000)) else (u32 tmp, 0) in
      x <- wr x k v' ;;
      let z := if (k =? mask (z - 1)) && negb (k =? mask A) && (v' =? 0) then k else z in
      if k =? mask A then ret (Break (x, z, carry)) else ret (Continue (mask (k - 1), x, z, carry)))
      (mask (A + zlen pre), x, mask (A + zlen pre + 1 + zlen (trim o)), carry) f =
    Ret (x', mask (A + zlen (trim_tl (mul_limbs (pre ++ v :: rest)).1)), (mul_limbs (pre ++ v :: rest)).2) f.
Proof.
  intros Hx Hm Hlo Hsf Hlen.
  enough (∃ x', cells x' A (trim_tl (mul_limbs (pre ++ v :: rest)).1) ∧ loop_to (λ '(k, x, z, carry),
      v <- rd x k ;;
      let tmp := Z.shiftl v 29 + carry in
      let '(v', carry) := if 1000000000 <? tmp then (tmp mod 1000000000, u32 (tmp / 1000000000)) else (u32 tmp, 0) in
      x <- wr x k v' ;;
      let z := if (k =? mask (z - 1)) && negb (k =? mask A) && (v' =? 0) then k else z in
      if k =? mask A then ret (Break (x, z, carry)) else ret (Continue (mask (k - 1), x, z, carry)))
      (length pre) (mask (A + zlen pre), x, mask (A + zlen pre + 1 + zlen (trim o)), carry) f
      (x', mask (A + zlen (trim_tl (mul_limbs (pre ++ v :: rest)).1)), (mul_limbs (pre ++ v :: rest)).2) f) as (x' & Hx' & Hl).
  { exists x'. split; [done|]. eapply loop_to_run; [exact Hl|]. rewrite zlen_app in Hlen. pose proof (zlen_nonneg (v :: rest)). unfold zlen in *. lia. }
  revert v rest x o carry Hx Hm Hlo Hsf Hlen. induction pre as [|u pre IH] using rev_ind; intros v rest x o carry Hx Hm Hlo Hsf Hlen.
  - change (zlen []) with 0 in *. cbn [app] in *. rewrite Z.add_0_r in *.
    rewrite (mul_limbs_cons _ _ _ _ Hm). cbn [fst snd trim_tl length].
    exists (<[mask A := (mul_step v carry).1]> x). rewrite zlen_cons in *. pose proof (zlen_trim o).
    split; [apply cells_cons; [lia|done]|]. constructor. destruct Hx as [Hv _].
    rewrite (bind_run _ _ _ _ _ (rd_run _ _ _ f Hv)). cbv zeta. fold B9.
    change (if B9 <? _ then _ else _) with (mul_step v carry). destruct (mul_step v carry) as [v' c'].
    rewrite (bind_run _ _ _ _ _ (wr_run _ _ _ f)). rewrite Z.eqb_refl, andb_false_r. cbn [andb fst snd]. by rewrite Z.add_assoc.
  - assert (Hlen' : zlen pre + zlen rest + 2 ≤ 2047) by zlen_lia.
    rewrite zlen_app in *. change (zlen [u]) with 1 in *.
    apply cells_app in Hx as [Hx Hv]. rewrite zlen_app in Hv. change (zlen [u]) with 1 in Hv.
    rewrite <- app_assoc in *. cbn [app] in *. pose proof (zlen_nonneg pre). pose proof (zlen_nonneg rest). pose proof (zlen_trim o).
    set (v1 := (mul_step v carry).1). set (k := A + zlen pre + 1) in *. replace (A + (zlen pre + 1)) with k in * by lia.
    assert (Hm' : mul_limbs (v :: rest) = (v1 :: o, (mul_step v carry).2)) by (by apply mul_limbs_cons).
    assert (Hx' : cells (<[mask k := v1]> x) A (pre ++ [u])) by (apply cells_set; [left; rewrite zlen_app; change (zlen [u]) with 1; lia|done]).
    assert (Hsf' : cells (<[mask k := v1]> x) (A + zlen pre + 1) (trim (v1 :: o))).
    { fold k. cbn [trim]. destruct (trim o) as [|w t] eqn:Et.
      - destruct (v1 =? 0); [done|]. apply cells_cons; [done|done].
      - apply cells_cons; [lia|]. rewrite <- Et. rewrite <- Et in Hsf. exact Hsf. }
    destruct (IH u (v :: rest) _ _ _ Hx' Hm' ltac:(rewrite !zlen_cons; lia) Hsf' ltac:(rewrite zlen_app, !zlen_cons in *; lia)) as (x' & Hc & Hl).
    exists x'. split; [done|]. rewrite length_app. cbn [length]. replace (length pre + 1)%nat with (S (length pre)) by lia.
    eapply loop_to_next; [|exact Hl]. destruct Hv as [Hv _].
    rewrite (bind_run _ _ _ _ _ (rd_run _ _ _ f Hv)). cbv zeta. fold B9.
    change (if B9 <? _ then _ else _) with (mul_step v carry). unfold v1. destruct (mul_step v carry) as [v' c']. cbn [fst snd].
    rewrite (bind_run _ _ _ _ _ (wr_run _ _ _ f)). rewrite (mask_neq k A) by lia.
    rewrite mask_pred. cbn [negb andb]. rewrite andb_true_r.
    replace (k - 1) with (A + zlen pre) by lia.
    assert (Hz : (if (mask k =? mask (mask (k + 1 + zlen (trim o)) - 1)) && (v' =? 0) then mask k else mask (k + 1 + zlen (trim o)))
      = mask (k + zlen (trim (v' :: o)))); [|unfold ret; rewrite Hz; reflexivity].
    rewrite mask_pred. cbn [trim]. pose proof (zlen_nonneg (trim o)). destruct (trim o) as [|w t] eqn:Et.
    + change (zlen []) with 0. replace (k + 1 + 0 - 1) with k by lia. rewrite Z.eqb_refl. cbn [andb].
      destruct (Z.eqb_spec v' 0) as [->|]; [change (zlen []) with 0|change (zlen [v']) with 1]; f_equal; lia.
    + pose proof (zlen_trim o) as Hto. rewrite Et, zlen_cons in Hto. pose proof (zlen_nonneg t).
      rewrite mask_neq by (rewrite zlen_cons; lia). cbn [andb]. rewrite !zlen_cons. f_equal. lia.
Qed.

Lemma upscale_digits_run x A ls (f : rc_scan) : cells x A ls → ls ≠ [] → zlen ls ≤ 2047 →
  ∃ x', cells x' A (trim_tl (mul_limbs ls).1) ∧
    upscale_digits x (mask A) (mask (A + zlen ls)) f =
    Ret (x', mask (A + zlen (trim_tl (mul_limbs ls).1)), (mul_limbs ls).2) f.
Proof.
  intros Hx Hne Hlen. destruct (exists_last Hne) as (pre & v & ->).
  destruct (upscale_loop A pre v [] x [] 0 f Hx eq_refl eq_refl I Hlen) as (x' & Hc & E).
  exists x'. split; [done|]. rewrite <- E. unfold upscale_digits. rewrite zlen_app. change (zlen [v]) with 1. change (zlen (trim [])) with 0.
  rewrite mask_pred. replace (A + (zlen pre + 1) - 1) with (A + zlen pre) by lia.
  by replace (A + (zlen pre + 1)) with (A + zlen pre + 1 + 0) by lia.
Qed.

(** *** Divided *)

(** Leading zeros are dropped. *)
Fixpoint lead (ls : list Z) : list Z :=
  match ls with [] => [] | v :: t => if v =? 0 then lead t else ls end.

Lemma lead_snoc ls v : lead (ls ++ [v]) = match lead ls with [] => if v =? 0 then [] else [v] | t => t ++ [v] end.
Proof.
  induction ls as [|u ls IH]; cbn [app lead]; [by destruct (v =? 0)|]. destruct (u =? 0); [exact IH|done].
Qed.

Lemma lead_split ls : ∃ k, ls = replicate k 0 ++ lead ls ∧ (lead ls = [] ∨ hd 0 (lead ls) ≠ 0).
Proof.
  induction ls as [|v ls (k & E & H)]; [by exists 0%nat; split; [|left]|]. cbn [lead].
  destruct (Z.eqb_spec v 0) as [->|Hv]; [|by exists 0%nat; split; [|right]]. exists (S k). split; [by rewrite E at 1|done].
Qed.

Lemma limbs_lead ls : limbs (lead ls) = limbs ls.
Proof. destruct (lead_split ls) as (k & E & _). rewrite E at 2. rewrite limbs_app, limbs_zeros. lia. Qed.

Local Ltac same_rp H :=
  lazymatch goal with |- loop_to _ _ _ _ (_, _, ?r, _) _ =>
    lazymatch type of H with loop_to _ _ _ _ (_, _, ?r', _) _ => replace r with r' by lia; exact H end end.

Section div_loop.
Context {body : Z * ring * Z * Z * Z → M rc_scan (step (Z * ring * Z * Z * Z) (ring * Z * Z * Z))} {kk : Z → Z}.
Context (P A n : Z) (HP : 1 < P) (HB : B9 = P * (B9 / P)) (Hn : n ≤ 2047).
Context (Hgo : ∀ K v x a rp carry f, A ≤ K < A + n → x !! mask K = Some v → limb v → 0 ≤ carry < B9 →
  body (kk K, x, a, rp, carry) f =
    Ret (Continue (if (mask K =? a) && (v / P + carry =? 0)
      then (kk (K + 1), <[mask K := v / P + carry]> x, mask (a + 1), rp - 9, B9 / P * (v mod P))
      else (kk (K + 1), <[mask K := v / P + carry]> x, a, rp, B9 / P * (v mod P)))) f).
Context (Hend : ∀ x a rp carry f, body (kk (A + n), x, a, rp, carry) f = Ret (Break (x, a, rp, carry)) f).

Lemma div_loop rest done x carry rp o c f :
  zlen done + zlen rest = n → cells x (A + zlen done - zlen (lead done)) (lead done) → cells x (A + zlen done) rest →
  Forall limb rest → 0 ≤ carry < B9 → div_limbs P carry rest = (o, c) →
  ∃ x', let t := lead (done ++ o) in cells x' (A + n - zlen t) t ∧
    loop_to body (length rest) (kk (A + zlen done), x, mask (A + zlen done - zlen (lead done)), rp, carry) f
      (x', mask (A + n - zlen t), rp - 9 * (n - zlen t - (zlen done - zlen (lead done))), c) f.
Proof using All.
  revert done x carry rp o. induction rest as [|v rest IH]; intros dn x carry rp o Hlen Hdn Hrest Hl Hc; cbn [div_limbs].
  { intros [= <- <-]. exists x. cbv zeta. rewrite app_nil_r. change (zlen []) with 0 in Hlen.
    replace (A + n) with (A + zlen dn) by lia. split; [done|]. constructor. replace (zlen dn) with n at 1 by lia. rewrite Hend.
    do 3 f_equal. f_equal. lia. }
  destruct (div_limbs P _ rest) as [o1 c1] eqn:E. intros [= <- <-]. apply Forall_cons in Hl as [Hv Hl]. destruct Hrest as [Hxv Hrest].
  rewrite zlen_cons in Hlen. pose proof (zlen_nonneg rest). pose proof (zlen_nonneg dn). set (K := A + zlen dn) in *.
  set (v' := v / P + carry) in *. set (c' := B9 / P * (v mod P)) in *.
  assert (Hc' : 0 ≤ c' < B9).
  { unfold c'. pose proof (Z.mod_pos_bound v P ltac:(lia)). assert (0 < B9 / P) by (unfold B9 in *; nia). nia. }
  assert (Hld : zlen (lead dn) ≤ zlen dn).
  { destruct (lead_split dn) as (k & E1 & _). rewrite E1 at 2. rewrite zlen_app. pose proof (zlen_nonneg (replicate k 0)). lia. }
  pose proof (zlen_nonneg (lead dn)).
  set (x1 := <[mask K := v']> x).
  assert (Hd1 : cells x1 (A + zlen (dn ++ [v']) - zlen (lead (dn ++ [v']))) (lead (dn ++ [v']))).
  { rewrite lead_snoc, zlen_app. change (zlen [v']) with 1. destruct (lead dn) as [|w t] eqn:El.
    - destruct (v' =? 0); [done|]. change (zlen [v']) with 1. replace (A + (zlen dn + 1) - 1) with K by lia. by apply cells_cons.
    - rewrite zlen_app. change (zlen [v']) with 1. replace (A + (zlen dn + 1) - (zlen (w :: t) + 1)) with (K - zlen (w :: t)) by lia.
      unfold x1. replace K with (K - zlen (w :: t) + zlen (w :: t)) at 1 by lia. apply cells_snoc; [lia|done]. }
  assert (Hr1 : cells x1 (A + zlen (dn ++ [v'])) rest).
  { rewrite zlen_app. change (zlen [v']) with 1. replace (A + (zlen dn + 1)) with (K + 1) by lia. apply cells_set; [right; lia|done]. }
  destruct (IH (dn ++ [v']) x1 c' (if match lead dn with [] => true | _ => false end && (v' =? 0) then rp - 9 else rp) o1
    ltac:(rewrite zlen_app; change (zlen [v']) with 1; lia) Hd1 Hr1 Hl Hc' E) as (x' & Hx' & Hto). cbv zeta in *.
  rewrite <- app_assoc in *. cbn [app] in *. exists x'. split; [done|]. cbn [length].
  eapply loop_to_next; [apply (Hgo K v); [lia|done..]|]. fold v' c' x1.
  rewrite zlen_app in Hto. change (zlen [v']) with 1 in Hto. rewrite lead_snoc in Hto.
  replace (A + (zlen dn + 1)) with (K + 1) in Hto by lia.
  destruct (lead dn) as [|w t] eqn:El.
  - change (zlen []) with 0 in *. rewrite Z.sub_0_r, Z.eqb_refl. cbn [andb] in *.
    destruct (Z.eqb_spec v' 0) as [E0|E0].
    + change (zlen []) with 0 in Hto. rewrite Z.sub_0_r in *. rewrite mask_shift.
      same_rp Hto.
    + change (zlen [v']) with 1 in Hto. replace (K + 1 - 1) with K in Hto by lia.
      same_rp Hto.
  - rewrite mask_neq by (rewrite zlen_cons in *; pose proof (zlen_nonneg t); lia). cbn [andb] in *.
    rewrite zlen_app in Hto. change (zlen [v']) with 1 in Hto. replace (K + 1 - (zlen (w :: t) + 1)) with (K - zlen (w :: t)) in Hto by lia.
    same_rp Hto.
Qed.
End div_loop.

(** The factors the ring is divided by *)
Definition divides (P : Z) : Prop := 1 < P ∧ B9 = P * (B9 / P).

Lemma divides_carry P v : divides P → 0 ≤ B9 / P * (v mod P) < B9.
Proof.
  intros [HP HB]. pose proof (Z.mod_pos_bound v P ltac:(lia)). assert (0 < B9 / P) by (unfold B9 in *; nia). nia.
Qed.
Lemma divides_digit P v carry : divides P → limb v → 0 ≤ carry < B9 → 0 ≤ v / P + carry < 4294967296.
Proof.
  intros [HP HB] Hv Hc. unfold limb in Hv. assert (0 ≤ v / P ≤ v); [|unfold B9 in *; lia].
  split; [apply Z.div_pos; lia|apply Z.div_le_upper_bound; nia].
Qed.

Lemma downscale_digits_run sh x A ls rp o c (f : rc_scan) (t := lead o) : sh = 1 ∨ sh = 9 → cells x A ls → zlen ls ≤ 2047 →
  Forall limb ls → div_limbs (2 ^ sh) 0 ls = (o, c) →
  ∃ x', cells x' (A + zlen ls - zlen t) t ∧
    downscale_digits sh x (mask A) (mask (A + zlen ls)) rp f =
    Ret (x', mask (A + zlen ls - zlen t), rp - 9 * (zlen ls - zlen t), c) f.
Proof.
  intros Hsh Hx Hlen Hl E.
  assert (Hd : divides (2 ^ sh)) by (destruct Hsh as [->| ->]; done). pose proof Hd as [HP HB].
  set (body := λ '(k, x, a, rp, carry),
    if k =? mask (A + zlen ls) then ret (Break (x, a, rp, carry))
    else
      v <- rd x k ;;
      let v' := u32 (Z.shiftr v sh + carry) in
      x <- wr x k v' ;;
      let carry := u32 (Z.shiftr 1000000000 sh * Z.land v (Z.shiftl 1 sh - 1)) in
      if (k =? a) && (v' =? 0) then ret (Continue (mask (k + 1), x, mask (a + 1), rp - 9, carry))
      else ret (Continue (mask (k + 1), x, a, rp, carry))).
  assert (Hgo : ∀ K v x a rp carry f, A ≤ K < A + zlen ls → x !! mask K = Some v → limb v → 0 ≤ carry < B9 →
    body (mask K, x, a, rp, carry) f = Ret (Continue (if (mask K =? a) && (v / 2 ^ sh + carry =? 0)
      then (mask (K + 1), <[mask K := v / 2 ^ sh + carry]> x, mask (a + 1), rp - 9, B9 / 2 ^ sh * (v mod 2 ^ sh))
      else (mask (K + 1), <[mask K := v / 2 ^ sh + carry]> x, a, rp, B9 / 2 ^ sh * (v mod 2 ^ sh)))) f).
  { intros K v y a rp' carry g HK Hv Hlv Hcy. unfold body. rewrite mask_neq by lia.
    rewrite (bind_run _ _ _ _ _ (rd_run _ _ _ g Hv)). cbv zeta. rewrite !Z.shiftr_div_pow2 by (destruct Hsh as [->| ->]; done).
    replace (Z.land v (Z.shiftl 1 sh - 1)) with (v mod 2 ^ sh)
      by (rewrite <- Z.land_ones by (destruct Hsh as [->| ->]; done); by destruct Hsh as [->| ->]).
    fold B9. rewrite (u32_id (_ / _ + _)) by (by apply divides_digit).
    rewrite (u32_id (_ * _)) by (pose proof (divides_carry _ v Hd); unfold B9 in *; lia).
    rewrite (bind_run _ _ _ _ _ (wr_run _ _ _ g)), mask_shift. by destruct (_ && _). }
  assert (Hend : ∀ x a rp carry f, body (mask (A + zlen ls), x, a, rp, carry) f = Ret (Break (x, a, rp, carry)) f)
    by (intros; unfold body; by rewrite Z.eqb_refl).
  destruct (div_loop (2 ^ sh) A (zlen ls) HP HB Hlen Hgo Hend ls [] x 0 rp o c f) as (x' & Hc & Hto);
    [done|done|by rewrite Z.add_0_r|done|done|done|].
  cbv zeta in *. cbn [app lead] in *. change (zlen (@nil Z)) with 0 in *. rewrite !Z.add_0_r, !Z.sub_0_r in *. exists x'. split; [exact Hc|].
  unfold downscale_digits. eapply loop_to_run; [exact Hto|unfold zlen in Hlen; lia].
Qed.

(** ** The number in the ring

    [rp + 9 * A] is kept: it gives the place of each limb.  In units of
    [10^-K * 2^-K] the number is [ring_value]. *)
Definition ring_is (n : ringnum) (A : Z) (ls : list Z) : Prop :=
  n_a n = mask A ∧ n_z n = mask (A + zlen ls) ∧ cells (n_x n) A ls.

Record good (ls : list Z) : Prop := {
  good_limbs : Forall limb ls;
  good_calm : calm ls;
  good_hd : 0 < hd 0 ls;
  good_last : zlen ls ≤ 2 ∨ List.last ls 0 ≠ 0;
}.

Lemma good_ne ls : good ls → ls ≠ [].
Proof. by intros [_ _ H _] ->. Qed.

(** The list behind one turn of upscaling *)
Lemma up_good ls o c (t := trim_tl o) : good ls → mul_limbs ls = (o, c) →
  let ls' := if c =? 0 then t else c :: t in
  good ls' ∧ t ≠ [] ∧ zlen t ≤ zlen ls ∧ 0 ≤ c ∧ limbs ls * 2 ^ 29 = limbs ls' * pow9 (zlen ls - zlen t).
Proof.
  intros [Hl Hcalm Hhd Hlast] E. destruct (mul_limbs_spec ls o c Hl E) as (Hlen & HV & Ho & Hco & Hc & Hfull & Hnz).
  assert (Hne : o ≠ []) by (intros ->; destruct ls; [done|]; rewrite zlen_cons in Hlen; pose proof (zlen_nonneg ls); change (zlen []) with 0 in Hlen; lia).
  destruct (trim_tl_spec o Hne Ho Hco) as (Htne & Hthd & Htl & Ht & Htc & HtV & Htlast). fold t in Htne, Hthd, Htl, Ht, Htc, HtV, Htlast.
  cbv zeta. rewrite Hlen in *. specialize (Hnz Hhd). rewrite <- Hthd in Hnz. pose proof (zlen_nonneg t).
  destruct (Z.eqb_spec c 0) as [->|Hc0].
  - split; [split; [done|done|lia|destruct Htlast as [->|]; [left; lia|by right]]|]. split; [done|]. split; [done|]. split; [lia|]. lia.
  - split.
    + split; [constructor; [unfold limb, B9; lia|done]| |cbn [hd]; lia|].
      * cbn [calm_mod]. split; [|done]. destruct t as [|w t']; [done|]. intros Hw. exfalso. apply Hc0, Hfull. rewrite <- Hthd. exact Hw.
      * rewrite zlen_cons. destruct Htlast as [->|Htlast]; [left; lia|right]. by destruct t.
    + split; [done|]. split; [done|]. split; [lia|]. rewrite limbs_cons, HV, HtV.
      rewrite Z.mul_add_distr_r, <- Z.mul_assoc, <- pow9_add by lia. do 3 f_equal. lia.
Qed.

(** *** A turn of upscaling *)

(** Fewer than 113 bits are left of the point. *)
Definition low (rp : Z) (ls : list Z) : bool := (rp <? 36) || ((rp =? 36) && (hd 0 ls <? 10384593)).

(** Scaling moves the first and the last limb. *)
Record scaled (n : ringnum) (A : Z) (ls : list Z) (n' : ringnum) (A' : Z) (ls' : list Z) : Prop := {
  scaled_ring : ring_is n' A' ls';
  scaled_good : good ls';
  scaled_place : n_rp n' + 9 * A' = n_rp n + 9 * A;
}.

Lemma upscale_turn_run n A ls (f : rc_scan) : ring_is n A ls → good ls → zlen ls ≤ 2046 →
  if low (n_rp n) ls then
    ∃ n' A' ls', upscale_turn n f = Ret (Continue n') f ∧ scaled n A ls n' A' ls' ∧ n_e2 n' = n_e2 n - 29 ∧
      A - 1 ≤ A' ≤ A ∧ A' + zlen ls' ≤ A + zlen ls ∧
      limbs ls * 2 ^ 29 = limbs ls' * pow9 (A + zlen ls - (A' + zlen ls'))
  else upscale_turn n f = Ret (Break n) f.
Proof.
  intros (Ha & Hz & Hx) Hg Hlen. destruct n as [x a z rp e2]. cbn [n_a n_z n_x n_rp n_e2] in *. subst a z.
  destruct ls as [|v ls0] eqn:Els; [by apply good_ne in Hg|]. rewrite <- Els in *.
  assert (Hv : x !! mask A = Some v) by (rewrite Els in Hx; by destruct Hx).
  assert (Hhd : hd 0 ls = v) by (by rewrite Els). unfold low. rewrite Hhd.
  unfold upscale_turn. rewrite (bind_run _ _ _ _ _ (rd_run _ _ _ f Hv)).
  rewrite (bind_run (th_at 0) _ 10384593 f f) by done. change (9 * LD_B1B_DIG) with 36.
  destruct ((rp <? 36) || (rp =? 36) && (v <? 10384593)) eqn:Hlow; [|done].
  destruct (mul_limbs ls) as [o c] eqn:Em.
  destruct (up_good ls o c Hg Em) as (Hg' & Htne & Htl & Hc & HV).
  destruct (upscale_digits_run x A ls f Hx ltac:(by subst) ltac:(lia)) as (x' & Hx' & E). rewrite Em in Hx', E. cbn [fst snd] in Hx', E.
  rewrite (bind_run _ _ _ _ _ E). set (t := trim_tl o) in *. pose proof (zlen_nonneg t). pose proof (zlen_pos t Htne).
  destruct (Z.eqb_spec c 0) as [Hc0|Hc0]; cbn [negb].
  - exists (Ringnum x' (mask A) (mask (A + zlen t)) rp (e2 - 29)), A, t. split; [done|].
    split; [split; [done|done|done]|]. cbn [n_e2]. split; [done|]. split; [lia|]. split; [lia|].
    rewrite HV. do 2 f_equal. lia.
  - rewrite mask_pred, mask_neq by lia. rewrite bind_ret, (bind_run _ _ _ _ _ (wr_run _ _ _ f)).
    exists (Ringnum (<[mask (A - 1) := c]> x') (mask (A - 1)) (mask (A + zlen t)) (rp + 9) (e2 - 29)), (A - 1), (c :: t).
    split; [done|]. rewrite zlen_cons. split; [split; [|done|cbn [n_rp]; lia]|].
    + split; [done|]. split; [cbn [n_z]; f_equal; rewrite zlen_cons; lia|]. apply cells_cons; [lia|].
      replace (A - 1 + 1) with A by lia. done.
    + cbn [n_e2]. split; [done|]. split; [lia|]. split; [lia|]. rewrite HV. do 2 f_equal. lia.
Qed.

(** *** A turn of downscaling *)

(** Is the number, up to its first limbs, at most [th]? *)
Fixpoint small_limbs (ls th : list Z) : bool :=
  match ls, th with
  | v :: ls, t :: th => if v <? t then true else if t <? v then false else small_limbs ls th
  | _, _ => true
  end.

Lemma small_loop x A n (f : rc_scan) th' : ∀ pre ls, th = pre ++ th' → cells x (A + zlen pre) ls → zlen pre + zlen ls = n → n ≤ 2046 →
  ∃ k, (k ≤ length th')%nat ∧ loop_to (λ i,
    if i <? LD_B1B_DIG then
      let k := mask (mask A + i) in
      if k =? mask (A + n) then ret (Break true)
      else
        v <- rd x k ;; t <- th_at i ;;
        if v <? t then ret (Break true)
        else if t <? v then ret (Break false)
        else ret (Continue (i + 1))
    else ret (Break true)) k (zlen pre) f (small_limbs ls th') f.
Proof.
  induction th' as [|t th' IH]; intros pre ls Hth Hx Hn Hlen; pose proof (zlen_nonneg pre); pose proof (zlen_nonneg ls).
  - exists 0%nat. split; [done|]. constructor. rewrite app_nil_r in Hth. subst pre. replace (_ <? _) with false by done. by destruct ls.
  - assert (Hpre : zlen pre + zlen (t :: th') = 4) by (rewrite <- zlen_app, <- Hth; done).
    rewrite zlen_cons in Hpre. pose proof (zlen_nonneg th').
    destruct ls as [|v ls].
    { exists 0%nat. split; [lia|]. constructor. replace (zlen pre <? LD_B1B_DIG) with true by (unfold LD_B1B_DIG; lia). cbv zeta.
      rewrite mask_shift. change (zlen []) with 0 in *. replace (A + zlen pre) with (A + n) by lia. by rewrite Z.eqb_refl. }
    rewrite zlen_cons in *. pose proof (zlen_nonneg ls). destruct Hx as [Hv Hx].
    assert (Hstep : ∀ (K : step Z bool) , (if v <? t then Break true else if t <? v then Break false else Continue (zlen pre + 1)) = K →
      (if zlen pre <? LD_B1B_DIG then
      let k := mask (mask A + zlen pre) in
      if k =? mask (A + n) then ret (Break true)
      else
        v <- rd x k ;; t <- th_at (zlen pre) ;;
        if v <? t then ret (Break true)
        else if t <? v then ret (Break false)
        else ret (Continue (zlen pre + 1))
      else ret (Break true)) f = Ret K f).
    { intros K <-. replace (zlen pre <? LD_B1B_DIG) with true by (unfold LD_B1B_DIG; lia). cbv zeta.
      rewrite mask_shift, mask_neq by lia. rewrite (bind_run _ _ _ _ _ (rd_run _ _ _ f Hv)).
      rewrite (bind_run (th_at (zlen pre)) _ t f f) by (unfold th_at; rewrite Hth, idx_middle; done).
      destruct (v <? t); [done|]. by destruct (t <? v). }
    cbn [small_limbs]. destruct (v <? t) eqn:E1; [|destruct (t <? v) eqn:E2].
    + exists 0%nat. split; [lia|]. constructor. by apply Hstep.
    + exists 0%nat. split; [lia|]. constructor. by apply Hstep.
    + destruct (IH (pre ++ [t]) ls) as (k & Hk & Hl).
      * by rewrite <- app_assoc.
      * rewrite zlen_app. change (zlen [t]) with 1. rewrite Z.add_assoc. done.
      * rewrite zlen_app. change (zlen [t]) with 1. lia.
      * done.
      * exists (S k). split; [cbn [length]; lia|]. eapply loop_to_next; [by apply Hstep|].
        rewrite zlen_app in Hl. change (zlen [t]) with 1 in Hl. exact Hl.
Qed.

Lemma small_enough_run x A ls (f : rc_scan) : cells x A ls → zlen ls ≤ 2046 →
  small_enough x (mask A) (mask (A + zlen ls)) f = Ret (small_limbs ls th) f.
Proof.
  intros Hx Hlen. destruct (small_loop x A (zlen ls) f th [] ls) as (k & Hk & Hl); [done| |done|done|].
  { change (zlen (@nil Z)) with 0. by rewrite Z.add_0_r. }
  unfold small_enough. eapply loop_to_run; [exact Hl|]. change (length th) with 4%nat in Hk. lia.
Qed.

(** The list behind it *)
Definition push (t : list Z) (c : Z) : list Z := if c =? 0 then t else t ++ [c].

Lemma lead_last ls : lead ls ≠ [] → List.last (lead ls) 0 = List.last ls 0.
Proof.
  induction ls as [|v ls IH]; [done|]. cbn [lead]. destruct (Z.eqb_spec v 0) as [->|]; [|done].
  intros H. rewrite IH by done. destruct ls; [done|]. done.
Qed.

Lemma zlen_lead ls : zlen (lead ls) ≤ zlen ls.
Proof. destruct (lead_split ls) as (k & E & _). rewrite E at 2. rewrite zlen_app. pose proof (zlen_nonneg (replicate k 0)). lia. Qed.

Lemma lead_zeros ls : lead ls = [] → Forall (eq 0) ls.
Proof.
  intros H. destruct (lead_split ls) as (k & E & _). rewrite H, app_nil_r in E. rewrite E. by apply Forall_replicate.
Qed.

Lemma down_good P ls o c (t := lead o) : divides P → good ls → calm_mod P ls → div_limbs P 0 ls = (o, c) →
  good (push t c) ∧ Forall limb_lt (push t c) ∧ zlen t ≤ zlen ls ∧
  limbs ls * (if c =? 0 then 1 else B9) = P * limbs (push t c).
Proof.
  intros [HP HB] [Hl Hcalm Hhd Hlast] Hc512 E. assert (HQ : 0 < B9 / P) by (unfold B9 in *; nia).
  destruct (div_limbs_spec P ltac:(lia) HB ls 0 o c HP Hl ltac:(nia) ltac:(done) Hc512 E) as (Hlen & Ho & Hc & HV).
  assert (Hot : Forall limb_lt t) by (destruct (lead_split o) as (k & E1 & _); rewrite E1 in Ho; by apply Forall_app in Ho as [_ ?]).
  assert (Hpush : Forall limb_lt (push t c)).
  { unfold push. destruct (c =? 0); [done|]. apply Forall_app; split; [done|]. constructor; [exact Hc|done]. }
  destruct ls as [|v ls0]; [done|]. apply Forall_cons in Hl as [Hv Hl0]. cbn [hd] in Hhd.
  assert (Hhd' : 0 < hd 0 (push t c)).
  { destruct (div_limbs_hd P ltac:(lia) HB v ls0 o c Hhd HQ E Hl0) as [H|[H0 H]].
    - unfold push, t. destruct o as [|w o']; [done|]. cbn [hd] in H. cbn [lead]. rewrite (proj2 (Z.eqb_neq w 0)) by lia. by destruct (c =? 0).
    - destruct (lead_split o) as (k & E1 & Hk). fold t in E1, Hk. destruct t as [|w t'] eqn:Et.
      + pose proof (lead_zeros o Et) as Hz. unfold push. destruct o as [|w o']; [done|]. cbn [tl] in H. apply Forall_cons in Hz as [_ Hz].
        destruct o' as [|w' o'']; cbn [app hd] in H; [rewrite (proj2 (Z.eqb_neq c 0)) by lia; done|]. apply Forall_cons in Hz as [Hz _]. lia.
      + destruct Hk as [?|Hk]; [done|]. cbn [hd] in Hk. apply Forall_cons in Hot as [Hw _]. unfold limb_lt in Hw.
        unfold push. destruct (c =? 0); cbn [app hd]; lia. }
  split; [split; [by apply Forall_limb|by apply calm_lt|done|]|].
  - unfold push in *. destruct (Z.eqb_spec c 0) as [->|Hc0].
    + assert (Htne : t ≠ []) by (by intros E1; rewrite E1 in Hhd'). pose proof (zlen_lead o) as Hzl. fold t in Hzl.
      destruct Hlast as [Hlast|Hlast]; [left; lia|right]. unfold t. rewrite lead_last by done.
      eapply (div_limbs_carry P ltac:(lia) HB (v :: ls0) 0); [exact E|done|by constructor|done|done|done].
    + right. by rewrite last_last.
  - split; [done|]. pose proof (zlen_lead o) as Hzl. fold t in Hzl. split; [lia|].
    unfold push. destruct (Z.eqb_spec c 0) as [->|Hc0].
    + unfold t. rewrite limbs_lead. unfold B9 in *. nia.
    + rewrite limbs_snoc. unfold t. rewrite limbs_lead. lia.
Qed.

(** The shift *)
Definition down_sh (rp : Z) : Z := if 45 <? rp then 9 else 1.
Definition done_down (rp : Z) (ls : list Z) : bool := small_limbs ls th && (rp =? 36).

Lemma calm_shift sh ls : sh = 1 ∨ sh = 9 → calm ls → calm_mod (2 ^ sh) ls.
Proof. intros [->| ->]; [apply (calm_weaken (2 ^ 1) 256)|apply (calm_weaken (2 ^ 9) 1)]; done. Qed.

Lemma downscale_turn_run n A ls (f : rc_scan) : ring_is n A ls → good ls → zlen ls ≤ 2045 →
  if done_down (n_rp n) ls then downscale_turn n f = Ret (Break n) f
  else
    ∃ n' A' ls', downscale_turn n f = Ret (Continue n') f ∧ scaled n A ls n' A' ls' ∧ n_e2 n' = n_e2 n + down_sh (n_rp n) ∧
      A ≤ A' ∧ A + zlen ls ≤ A' + zlen ls' ≤ A + zlen ls + 1 ∧
      limbs ls * pow9 (A' + zlen ls' - (A + zlen ls)) = 2 ^ down_sh (n_rp n) * limbs ls'.
Proof.
  intros (Ha & Hz & Hx) Hg Hlen. destruct n as [x a z rp e2]. cbn [n_a n_z n_x n_rp n_e2] in *. subst a z.
  unfold downscale_turn, done_down. rewrite (bind_run _ _ _ _ _ (small_enough_run x A ls f Hx ltac:(lia))).
  change (9 * LD_B1B_DIG) with 36. change (9 + 36) with 45. fold (down_sh rp).
  destruct (small_limbs ls th && (rp =? 36)); [done|].
  assert (Hsh : down_sh rp = 1 ∨ down_sh rp = 9) by (unfold down_sh; destruct (_ <? _); lia).
  set (sh := down_sh rp) in *. destruct (div_limbs (2 ^ sh) 0 ls) as [o c] eqn:E.
  destruct (down_good (2 ^ sh) ls o c) as (Hg' & Hlt & Hzl & HV); [by destruct Hsh as [->| ->]|done|by apply calm_shift; [|apply Hg]|done|].
  set (t := lead o) in *. destruct (downscale_digits_run sh x A ls rp o c f Hsh Hx ltac:(lia) (good_limbs _ Hg) E) as (x' & Hx' & Er).
  fold t in Hx', Er. rewrite (bind_run _ _ _ _ _ Er). set (Z0 := A + zlen ls) in *. set (A' := Z0 - zlen t) in *. pose proof (zlen_nonneg t).
  unfold push in *. destruct (Z.eqb_spec c 0) as [Hc0|Hc0]; cbn [negb].
  - rewrite bind_ret. exists (Ringnum x' (mask A') (mask Z0) (rp - 9 * (zlen ls - zlen t)) (e2 + sh)), A', t. split; [done|].
    replace (A' + zlen t) with Z0 by lia. split; [split; [split; [done|split; [cbn [n_z]; f_equal; lia|done]]|done|cbn [n_rp]; lia]|].
    cbn [n_e2]. split; [done|]. split; [lia|]. split; [lia|]. rewrite Z.sub_diag. change (pow9 0) with 1. lia.
  - rewrite mask_shift. unfold A' at 1. rewrite mask_neq by lia. cbn [negb].
    rewrite bind_assoc, (bind_run _ _ _ _ _ (wr_run x' Z0 c f)), bind_ret.
    exists (Ringnum (<[mask Z0 := c]> x') (mask A') (mask (Z0 + 1)) (rp - 9 * (zlen ls - zlen t)) (e2 + sh)), A', (t ++ [c]). split; [done|].
    rewrite zlen_app. change (zlen [c]) with 1. replace (A' + (zlen t + 1)) with (Z0 + 1) by lia.
    split; [split; [|done|cbn [n_rp]; lia]|].
    + split; [done|]. split; [cbn [n_z]; f_equal; rewrite zlen_app; change (zlen [c]) with 1; lia|].
      cbn [n_x]. replace Z0 with (A' + zlen t) by lia. apply cells_snoc; [lia|done].
    + cbn [n_e2]. split; [done|]. split; [lia|]. split; [lia|]. replace (Z0 + 1 - Z0) with 1 by lia. change (pow9 1) with B9. lia.
Qed.

(** ** The value, and the end of the loops *)

Lemma pow9_ge m : 0 ≤ m → 2 ^ (29 * m) ≤ pow9 m.
Proof.
  intros Hm. unfold pow9. rewrite !Z.pow_mul_r by lia. apply Z.pow_le_mono_l. split; [apply Z.pow_nonneg; lia|by vm_compute].
Qed.
Lemma pow9_le m : 0 ≤ m → pow9 m ≤ 2 ^ (30 * m).
Proof. intros Hm. unfold pow9. rewrite !Z.pow_mul_r by lia. apply Z.pow_le_mono_l. split; [apply Z.pow_nonneg; lia|by vm_compute]. Qed.

Lemma pow2_lt_inv a b : 0 ≤ b → 2 ^ a < 2 ^ b → a < b.
Proof.
  intros Hb H. destruct (Z_lt_le_dec a b); [done|]. pose proof (Z.pow_le_mono_r 2 b a). lia.
Qed.

Lemma small_limbs_false ls T : small_limbs ls T = false → Forall limb ls → Forall limb_lt T →
  (limbs T + 1) * pow9 (zlen ls) ≤ limbs ls * pow9 (zlen T).
Proof.
  intros H Hl HT. revert T H HT. induction Hl as [|v ls Hv Hl IH]; intros T H HT; [by destruct T|].
  destruct HT as [|t T Ht HT]; [done|]. cbn [small_limbs] in H.
  destruct (Z.ltb_spec v t); [done|]. rewrite !limbs_cons, !zlen_cons, !pow9_S by apply zlen_nonneg.
  pose proof (pow9_pos (zlen ls) (zlen_nonneg ls)). pose proof (pow9_pos (zlen T) (zlen_nonneg T)).
  set (a := pow9 (zlen ls)) in *. set (b := pow9 (zlen T)) in *.
  destruct (Z.ltb_spec t v) as [Hlt|].
  - pose proof (limbs_lt T HT) as HT1. fold b in HT1. pose proof (limbs_nonneg ls Hl). unfold B9.
    assert (t * b + limbs T + 1 ≤ v * b) by nia.
    assert ((t * b + limbs T + 1) * a ≤ v * b * a) by nia. nia.
  - specialize (IH T H HT). replace t with v by lia. unfold B9. nia.
Qed.

Section value.
Context (K V L : Z) (HK : 0 ≤ K) (HLK : 1 ≤ L - 150 + K) (HV1 : 2 ^ (L - 1 + K) * 10 ^ K ≤ V) (HV2 : V < 2 ^ (L + K) * 10 ^ K).

(** The number is [V * 2^-K * 10^-K], and in [2^(L-1), 2^L). *)
Record has_value (n : ringnum) (ls : list Z) : Prop := {
  value_rp : 0 ≤ n_rp n - 9 * zlen ls + K;
  value_e2 : 0 ≤ n_e2 n + K;
  value_eq : limbs ls * 10 ^ (n_rp n - 9 * zlen ls + K) * 2 ^ (n_e2 n + K) = V;
}.

(** The number is at least [c * 2^e2], where the limbs are at least [c]. *)
Lemma value_ge n ls b : has_value n ls → 0 ≤ b → 0 ≤ n_rp n + K → 2 ^ b * 10 ^ K * pow9 (zlen ls) ≤ limbs ls * 10 ^ (n_rp n + K) →
  n_e2 n + b + 1 ≤ L.
Proof using All.
  intros [H1 H2 E] Hb H3 H. pose proof (zlen_nonneg ls) as Hz. pose proof (pow9_pos (zlen ls) Hz) as Hp.
  replace (n_rp n + K) with (n_rp n - 9 * zlen ls + K + 9 * zlen ls) in H by lia. rewrite Z.pow_add_r in H by lia.
  change (10 ^ (9 * zlen ls)) with (pow9 (zlen ls)) in H.
  assert (H4 : 2 ^ b * 10 ^ K ≤ limbs ls * 10 ^ (n_rp n - 9 * zlen ls + K)) by nia.
  pose proof (pow2_pos (n_e2 n + K) H2). pose proof (pow10_pos K HK).
  assert (2 ^ (b + (n_e2 n + K)) * 10 ^ K < 2 ^ (L + K) * 10 ^ K) by (rewrite (pow2_add b) by lia; nia).
  assert (2 ^ (b + (n_e2 n + K)) < 2 ^ (L + K)) as Hlt by nia. apply pow2_lt_inv in Hlt; lia.
Qed.

Lemma value_lo n ls m : has_value n ls → good ls → 0 ≤ m → 9 * (m + 1) ≤ n_rp n → n_e2 n + 29 * m + 1 ≤ L.
Proof using All.
  intros Hval [Hl _ Hhd _] Hm Hrp. apply (value_ge n ls); [done|lia|lia|].
  destruct ls as [|v ls]; [done|]. cbn [hd] in Hhd. apply Forall_cons in Hl as [_ Hl].
  pose proof (limbs_hd v ls Hl Hhd). rewrite zlen_cons, pow9_S by apply zlen_nonneg.
  replace (n_rp n + K) with (9 * m + 9 + (n_rp n - 9 * (m + 1)) + K) by lia. rewrite !Z.pow_add_r by lia.
  change (10 ^ (9 * m)) with (pow9 m). change (10 ^ 9) with B9. pose proof (pow9_ge m Hm). pose proof (pow9_pos m Hm). pose proof (pow2_pos (29 * m) ltac:(lia)). pose proof (pow10_pos K HK).
  pose proof (pow10_pos (n_rp n - 9 * (m + 1)) ltac:(lia)). pose proof (pow9_pos (zlen ls) (zlen_nonneg ls)). unfold B9 in *.
  set (p := pow9 (zlen ls)) in *. set (k := 10 ^ K) in *. set (q := 10 ^ (n_rp n - 9 * (m + 1))) in *. set (w := 2 ^ (29 * m)) in *. set (P9 := pow9 m) in *.
  clearbody p k q w P9.
  assert (w ≤ P9 * q) by nia. assert (w * k ≤ P9 * q * k) by nia. assert (w * k * p ≤ P9 * q * k * limbs (v :: ls)) by nia. nia.
Qed.

Lemma value_hi n ls m : has_value n ls → good ls → 0 ≤ m → n_rp n ≤ 9 * m → L ≤ n_e2 n + 30 * m + 1.
Proof using All.
  intros [H1 H2 E] [Hl _ _ _] Hm Hrp. pose proof (limbs_lt2 ls Hl) as Hlt. pose proof (zlen_nonneg ls) as Hz.
  assert (limbs ls * 10 ^ (n_rp n - 9 * zlen ls + K) < 2 * pow9 m * 10 ^ K) as H3.
  { apply (Z.lt_le_trans _ (2 * pow9 (zlen ls) * 10 ^ (n_rp n - 9 * zlen ls + K))).
    - apply Z.mul_lt_mono_pos_r; [by apply pow10_pos|done].
    - unfold pow9. rewrite <- !Z.mul_assoc, <- !Z.pow_add_r by lia. apply Z.mul_le_mono_nonneg_l; [done|]. apply Z.pow_le_mono_r; lia. }
  pose proof (pow9_le m Hm). pose proof (pow2_pos (n_e2 n + K) H2). pose proof (pow10_pos K HK).
  assert (2 ^ (L - 1 + K) * 10 ^ K < 2 ^ (1 + 30 * m + (n_e2 n + K)) * 10 ^ K).
  { eapply Z.le_lt_trans; [exact HV1|]. rewrite <- E. rewrite (pow2_add (1 + 30 * m)), (pow2_add 1) by lia. change (2 ^ 1) with 2.
    set (u := 2 ^ (n_e2 n + K)) in *. set (k := 10 ^ K) in *. set (w := 2 ^ (30 * m)) in *. set (q := limbs ls * _) in *.
    assert (q < 2 * w * k) by nia. nia. }
  assert (2 ^ (L - 1 + K) < 2 ^ (1 + 30 * m + (n_e2 n + K))) as Hlt2 by nia. apply pow2_lt_inv in Hlt2; lia.
Qed.

(** The number is [2^113 * 2^e2] or more when the limbs are not small. *)
Lemma value_not_small n ls : has_value n ls → good ls → n_rp n = 36 → small_limbs ls th = false → n_e2 n + 114 ≤ L.
Proof using All.
  intros Hval [Hl _ _ _] Hrp H. assert (n_e2 n + 113 + 1 ≤ L); [|lia]. apply (value_ge n ls); [done|lia|lia|].
  apply small_limbs_false in H; [|done|by repeat constructor]. change (zlen th) with 4 in H. change (limbs th + 1) with (2 ^ 113) in H.
  rewrite Hrp, Z.pow_add_r by lia. change (10 ^ 36) with (pow9 4). pose proof (pow10_pos K HK). nia.
Qed.

(** It is [2^112 * 2^e2] or more when upscaling ends. *)
Lemma value_not_low n ls : has_value n ls → good ls → n_rp n mod 9 = 0 → low (n_rp n) ls = false → n_e2 n + 113 ≤ L.
Proof using All.
  intros Hval Hg H9 H. unfold low in H. destruct (Z.eq_dec (n_rp n) 36) as [Hrp|Hrp].
  - assert (n_e2 n + 112 + 1 ≤ L); [|lia]. apply (value_ge n ls); [done|lia|lia|].
    destruct Hg as [Hl _ _ _]. destruct ls as [|v ls]; [cbn [hd] in H; lia|]. cbn [hd] in H. apply Forall_cons in Hl as [_ Hl].
    pose proof (limbs_nonneg ls Hl). rewrite limbs_cons, zlen_cons, pow9_S, Hrp, Z.pow_add_r by (apply zlen_nonneg || lia).
    change (10 ^ 36) with (10 ^ 27 * B9). pose proof (pow10_pos K HK). pose proof (pow9_pos (zlen ls) (zlen_nonneg ls)).
    assert (2 ^ 112 ≤ v * 10 ^ 27) by lia. unfold B9. set (k := 10 ^ K) in *. set (p := pow9 (zlen ls)) in *.
    clearbody k p. assert (2 ^ 112 * k ≤ v * 10 ^ 27 * k) by nia. assert (v * p * (10 ^ 27 * 1000000000 * k) ≤ (v * p + limbs ls) * (10 ^ 27 * 1000000000 * k)) by nia. nia.
  - pose proof (value_lo n ls 4 Hval Hg). lia.
Qed.

(** *** The loops *)

Lemma value_up n A ls n' A' ls' : has_value n ls → scaled n A ls n' A' ls' → n_e2 n' = n_e2 n - 29 → 0 ≤ n_e2 n' + K →
  A' + zlen ls' ≤ A + zlen ls → limbs ls * 2 ^ 29 = limbs ls' * pow9 (A + zlen ls - (A' + zlen ls')) → has_value n' ls'.
Proof using All.
  intros [H1 H2 E] [_ _ Hpl] He Hk Hz HV. split; [lia|lia|]. rewrite <- E.
  replace (n_rp n' - 9 * zlen ls' + K) with (9 * (A + zlen ls - (A' + zlen ls')) + (n_rp n - 9 * zlen ls + K)) by lia.
  replace (n_e2 n + K) with (29 + (n_e2 n' + K)) by lia.
  rewrite (Z.pow_add_r 10 (9 * _)), (pow2_add 29) by lia.
  change (10 ^ (9 * (A + zlen ls - (A' + zlen ls')))) with (pow9 (A + zlen ls - (A' + zlen ls'))).
  set (T := 10 ^ _). set (U := 2 ^ (n_e2 n' + K)). replace (limbs ls * T * (2 ^ 29 * U)) with (limbs ls * 2 ^ 29 * (T * U)) by ring. rewrite HV. ring.
Qed.

Lemma value_down n A ls n' A' ls' sh : has_value n ls → scaled n A ls n' A' ls' → n_e2 n' = n_e2 n + sh → 0 ≤ sh →
  A + zlen ls ≤ A' + zlen ls' → 0 ≤ n_rp n' - 9 * zlen ls' + K →
  limbs ls * pow9 (A' + zlen ls' - (A + zlen ls)) = 2 ^ sh * limbs ls' → has_value n' ls'.
Proof using All.
  intros [H1 H2 E] [_ _ Hpl] He Hsh Hz Hk HV. split; [lia|lia|]. rewrite <- E.
  replace (n_rp n - 9 * zlen ls + K) with (9 * (A' + zlen ls' - (A + zlen ls)) + (n_rp n' - 9 * zlen ls' + K)) by lia.
  rewrite He. replace (n_e2 n + sh + K) with (sh + (n_e2 n + K)) by lia.
  rewrite (Z.pow_add_r 10 (9 * _)), (pow2_add sh) by lia.
  change (10 ^ (9 * (A' + zlen ls' - (A + zlen ls)))) with (pow9 (A' + zlen ls' - (A + zlen ls))).
  set (T := 10 ^ _). set (U := 2 ^ (n_e2 n + K)). replace (limbs ls' * T * (2 ^ sh * U)) with (2 ^ sh * limbs ls' * (T * U)) by ring. rewrite <- HV. ring.
Qed.

(** What both loops keep, from the number [n0] at [A0] on *)
Record ring_inv (n0 : ringnum) (A0 : Z) (n : ringnum) (A : Z) (ls : list Z) : Prop := {
  inv_ring : ring_is n A ls;
  inv_good : good ls;
  inv_value : has_value n ls;
  inv_nine : n_rp n mod 9 = 0;
  inv_place : n_rp n + 9 * A = n_rp n0 + 9 * A0;
}.

Lemma upscale_run n A ls (f : rc_scan) : ring_inv n A n A ls → n_e2 n = 0 → - 1000000 ≤ L →
  zlen ls ≤ 2046 → 9 * zlen ls - n_rp n + 45 ≤ 9 * 2046 →
  ∃ n' A' ls', upscale n f = Ret n' f ∧ ring_inv n A n' A' ls' ∧ n_e2 n' + 113 ≤ L ∧ A' ≤ A ∧ A' + zlen ls' ≤ A + zlen ls ∧
    (n_e2 n' = 0 ∧ A' = A ∨ n_e2 n' ≤ 0 ∧ L - 150 ≤ n_e2 n' ∧ n_rp n' ≤ 45).
Proof using All.
  intros H0 He0 HL0 Hlen H45.
  enough (wp (upscale n) (λ n' f', f' = f ∧ ∃ A' ls', ring_inv n A n' A' ls' ∧ n_e2 n' + 113 ≤ L ∧ A' ≤ A ∧ A' + zlen ls' ≤ A + zlen ls ∧
    (n_e2 n' = 0 ∧ A' = A ∨ n_e2 n' ≤ 0 ∧ L - 150 ≤ n_e2 n' ∧ n_rp n' ≤ 45)) f) as Hwp.
  { destruct (wp_inv _ _ _ Hwp) as (n' & f' & E & -> & A' & ls' & H). exists n', A', ls'. by split. }
  unfold upscale. apply (wp_loop _ (λ n' f', f' = f ∧ ∃ A' ls', ring_inv n A n' A' ls' ∧ A' ≤ A ∧ A' + zlen ls' ≤ A + zlen ls ∧
    (n_e2 n' = 0 ∧ A' = A ∨ n_e2 n' ≤ 0 ∧ L - 150 ≤ n_e2 n' ∧ n_rp n' ≤ 45)) (λ n' _, Z.max 0 (n_e2 n' - (L - 150)))).
  - intros. lia.
  - intros n1 f1 (-> & A1 & ls1 & [Hr Hg Hv H9 Hpl] & HA & Hz & Hcase).
    assert (Hlen1 : zlen ls1 ≤ 2046) by lia.
    pose proof (upscale_turn_run n1 A1 ls1 f Hr Hg Hlen1) as Ht. destruct (low (n_rp n1) ls1) eqn:Hlow.
    + destruct Ht as (n2 & A2 & ls2 & E & Hs & He & HA2 & Hz2 & HV). pose proof Hs as [Hr2 Hg2 Hpl2].
      assert (Hrp : n_rp n1 ≤ 36) by (unfold low in Hlow; lia).
      pose proof (value_hi n1 ls1 4 Hv Hg ltac:(lia) ltac:(lia)) as Hhi.
      eapply wp_of_eq; [exact E|]. cbv beta iota. split; [|lia]. split; [done|]. exists A2, ls2.
      split; [split; [done|done|eapply value_up; [exact Hv|exact Hs|done|lia|lia|done]|lia|lia]|]. lia.
    + eapply wp_of_eq; [exact Ht|]. cbv beta iota. split; [done|]. exists A1, ls1. split; [by split|].
      split; [by eapply value_not_low|]. done.
  - split; [done|]. exists A, ls. split; [done|]. lia.
  - lia.
Qed.
(** Each turn takes a bit or nine, and adds a limb at most; of the turns that
    take only one there are no more than 38. *)
Definition room : Z := 8 * 38 + 9.

Lemma downscale_run n0 A0 n A ls (f : rc_scan) : ring_inv n0 A0 n A ls → n_e2 n + 113 ≤ L → L - n_e2 n ≤ 1000000 →
  9 * zlen ls + (L - 113 - n_e2 n) + room ≤ 9 * 2045 → L - 113 - n_e2 n + room ≤ n_rp n - 9 * zlen ls + K →
  ∃ n' A' ls', downscale n f = Ret n' f ∧ ring_inv n0 A0 n' A' ls' ∧ n_e2 n' + 113 ≤ L ∧ n_rp n' = 36 ∧ small_limbs ls' th = true ∧
    n_e2 n ≤ n_e2 n' ∧ 9 * (A' + zlen ls') ≤ 9 * (A + zlen ls) + (L - 113 - n_e2 n) + room ∧ A ≤ A'.
Proof using All.
  intros H0 He0 HL Hlen HKb. unfold room in *.
  enough (wp (downscale n) (λ n' f', f' = f ∧ ∃ A' ls', ring_inv n0 A0 n' A' ls' ∧ n_e2 n' + 113 ≤ L ∧ done_down (n_rp n') ls' = true ∧
    n_e2 n ≤ n_e2 n' ∧ 9 * (A' + zlen ls') ≤ 9 * (A + zlen ls) + (L - 113 - n_e2 n) + (8 * 38 + 9) ∧ A ≤ A') f) as Hwp.
  { destruct (wp_inv _ _ _ Hwp) as (n' & f' & E & -> & A' & ls' & H1 & H2 & H3 & H4). exists n', A', ls'.
    unfold done_down in H3. apply andb_true_iff in H3 as [H3 H3']. repeat (split; [done || lia|]). lia. }
  unfold downscale. apply (wp_loop _ (λ n' f', f' = f ∧ ∃ A' ls', ring_inv n0 A0 n' A' ls' ∧ n_e2 n' + 113 ≤ L ∧ n_e2 n ≤ n_e2 n' ∧
    A ≤ A' ∧ 9 * (A' + zlen ls') ≤ 9 * (A + zlen ls) + (n_e2 n' - n_e2 n) + 8 * Z.max 0 (n_e2 n' - (L - 151))) (λ n' _, L - n_e2 n')).
  - intros n1 f1 (_ & A1 & ls1 & _ & H & _). lia.
  - intros n1 f1 (-> & A1 & ls1 & [Hr Hg Hv H9 Hpl] & He1 & Hee & HA & Hz). pose proof (inv_place _ _ _ _ _ H0) as Hpl0.
    assert (Hpn : n_rp n1 + 9 * A1 = n_rp n + 9 * A) by lia.
    pose proof (downscale_turn_run n1 A1 ls1 f Hr Hg ltac:(lia)) as Ht. destruct (done_down (n_rp n1) ls1) eqn:Hdone.
    + eapply wp_of_eq; [exact Ht|]. cbv beta iota. split; [done|]. exists A1, ls1. split; [by split|]. split; [done|]. split; [done|]. lia.
    + destruct Ht as (n2 & A2 & ls2 & E & Hs & He & HA2 & Hz2 & HV). pose proof Hs as [Hr2 Hg2 Hpl2].
      assert (Hrp : 36 ≤ n_rp n1).
      { destruct (Z_le_gt_dec (n_rp n1) 27) as [H27|]; [|lia]. pose proof (value_hi n1 ls1 3 Hv Hg ltac:(lia) ltac:(lia)). lia. }
      assert (Hstep : down_sh (n_rp n1) = 1 ∧ n_e2 n1 + 114 ≤ L ∧ L ≤ n_e2 n1 + 151 ∨ down_sh (n_rp n1) = 9 ∧ n_e2 n1 + 146 ≤ L).
      { unfold down_sh. destruct (Z.ltb_spec 45 (n_rp n1)) as [H45|H45].
        - right. split; [done|]. pose proof (value_lo n1 ls1 5 Hv Hg ltac:(lia) ltac:(lia)). lia.
        - left. split; [done|]. pose proof (value_hi n1 ls1 5 Hv Hg ltac:(lia) ltac:(lia)). split; [|lia].
          unfold done_down in Hdone. destruct (Z.eqb_spec (n_rp n1) 36) as [H36|H36].
          + rewrite andb_true_r in Hdone. by apply (value_not_small n1 ls1).
          + pose proof (value_lo n1 ls1 4 Hv Hg ltac:(lia) ltac:(lia)). lia. }
      eapply wp_of_eq; [exact E|]. cbv beta iota. split; [|lia]. split; [done|]. exists A2, ls2.
      split; [split; [done|done|eapply value_down; [exact Hv|exact Hs|exact He|lia|lia|lia|done]|lia|lia]|]. lia.
  - split; [done|]. exists A, ls. split; [done|]. lia.
  - lia.
Qed.
End value.
