(* ===== verification/DecScale.v ===== *)
(** [decfloat] (floatscan.c) from the digits in the ring to the 113 bits they
    are reduced to: aligning the point, scaling by powers of two, assembling the
    first four limbs. *)
From S2P Require Import Prelude CMonad Kernel RcFd Ieee Rounding Ratio FloatScan DecRing.

(** Indices that are not reduced *)
Lemma rd_at x i v f : x !! mask i = Some v → 0 ≤ i < 2048 → rd x i f = Ret v f.
Proof. intros Hv Hi. rewrite <- (mask_id i) at 1 by done. by apply rd_run. Qed.
Lemma wr_at x i v f : 0 ≤ i < 2048 → wr x i v f = Ret (<[mask i := v]> x) f.
Proof. intros Hi. rewrite <- (mask_id i) at 1 by done. by apply wr_run. Qed.

(** ** Trailing zeros *)

Lemma limbs_trailing ls k : limbs (ls ++ replicate k 0) = limbs ls * pow9 (Z.of_nat k).
Proof. rewrite limbs_app, limbs_zeros, zlen_replicate. lia. Qed.

(** [drop_zeros] finds the end of the list without them. *)
Lemma drop_zeros_run x ls k (f : rc_scan) : cells x 0 (ls ++ replicate k 0) → zlen ls + Z.of_nat k ≤ 2047 → ls ≠ [] → List.last ls 0 ≠ 0 →
  drop_zeros x (zlen ls + Z.of_nat k) f = Ret (zlen ls) f.
Proof.
  intros Hx Hlen Hne Hlast. unfold drop_zeros. apply (loop_to_run _ k); [|pose proof (zlen_nonneg ls); lia].
  revert Hx Hlen. induction k as [|k IH]; intros Hx Hlen.
  - constructor. rewrite app_nil_r in Hx. destruct (exists_last Hne) as (l & v & ->). rewrite last_last in Hlast.
    apply cells_app in Hx as [_ [Hv _]]. rewrite zlen_app in *. change (zlen [v]) with 1 in *. pose proof (zlen_nonneg l).
    replace (zlen l + 1 + Z.of_nat 0 - 1) with (0 + zlen l) by lia. rewrite (bind_run _ _ _ _ _ (rd_at _ _ _ f Hv ltac:(lia))). rewrite (proj2 (Z.eqb_neq v 0)) by done. peq.
  - pose proof (zlen_nonneg ls). replace (S k) with (k + 1)%nat in Hx by lia. rewrite replicate_add, app_assoc in Hx.
    apply cells_app in Hx as [Hx [Hv _]]. rewrite zlen_app, zlen_replicate in Hv.
    eapply loop_to_next; [|apply IH; [done|lia]].
    replace (zlen ls + Z.of_nat (S k) - 1) with (0 + (zlen ls + Z.of_nat k)) by lia. rewrite (bind_run _ _ _ _ _ (rd_at _ _ _ f Hv ltac:(lia))). rewrite Z.eqb_refl. peq.
Qed.

(** ** The point *)

Lemma p10_run r (f : rc_scan) : 1 ≤ r ≤ 8 → p10_at (8 - r) f = Ret (10 ^ (9 - r)) f ∧ divides (10 ^ (9 - r)).
Proof.
  intros Hr. assert (r ∈ seqZ 1 8) as Hin by (apply elem_of_seqZ; lia). vm_compute in Hin.
  repeat (apply elem_of_cons in Hin as [->|Hin]; [split; [reflexivity|split; reflexivity]|]). by apply elem_of_nil in Hin.
Qed.

(** What is aligned: nothing of the number is lost, and the point is where a limb ends. *)
Record aligned (rp : Z) (ls : list Z) (n : ringnum) (A' : Z) (ls' : list Z) : Prop := {
  al_ring : ring_is n A' ls';
  al_good : good ls';
  al_nine : n_rp n mod 9 = 0;
  al_e2 : n_e2 n = 0;
  al_start : 0 ≤ A' ≤ A' + zlen ls' ∧ zlen ls ≤ A' + zlen ls' ≤ zlen ls + 1;
  al_place : rp ≤ n_rp n + 9 * A' ≤ rp + 8;
  al_value : limbs ls' * 10 ^ (n_rp n + 9 * A' - rp) = limbs ls * pow9 (A' + zlen ls' - zlen ls);
}.

Lemma align_loop_body P z : divides P → 0 ≤ z ≤ 2047 →
  let body := λ '(k, x, a, rp, carry),
    if k =? z then ret (Break (x, a, rp, carry))
    else
      v <- rd x k ;;
      let v' := u32 (v / P + carry) in
      x <- wr x k v' ;;
      let carry := u32 (1000000000 / P * (v mod P)) in
      if (k =? a) && (v' =? 0) then ret (Continue (k + 1, x, mask (a + 1), rp - 9, carry))
      else ret (Continue (k + 1, x, a, rp, carry)) in
  ∀ K v x a rp carry (f : rc_scan), 0 ≤ K < 0 + z → x !! mask K = Some v → limb v → 0 ≤ carry < B9 →
  body (K, x, a, rp, carry) f = Ret (Continue (if (mask K =? a) && (v / P + carry =? 0)
      then (K + 1, <[mask K := v / P + carry]> x, mask (a + 1), rp - 9, B9 / P * (v mod P))
      else (K + 1, <[mask K := v / P + carry]> x, a, rp, B9 / P * (v mod P)))) f.
Proof.
  intros Hd Hz body K v x a rp carry f HK Hv Hl Hc. unfold body. rewrite (proj2 (Z.eqb_neq K z)) by lia.
  rewrite (bind_run _ _ _ _ _ (rd_at _ _ _ f Hv ltac:(lia))). cbv zeta. fold B9.
  rewrite (u32_id (_ / _ + _)) by (by apply divides_digit).
  rewrite (u32_id (_ * _)) by (pose proof (divides_carry _ v Hd); unfold B9 in *; lia).
  rewrite (bind_run _ _ _ _ _ (wr_at x K _ f ltac:(lia))). rewrite (mask_id K) by lia. by destruct (_ && _).
Qed.

Lemma align_radix_run x ls rp (f : rc_scan) : cells x 0 ls → Forall limb_lt ls → 0 < hd 0 ls → List.last ls 0 ≠ 0 → zlen ls ≤ 2045 →
  ∃ n' A' ls', align_radix (Ringnum x 0 (zlen ls) rp 0) f = Ret n' f ∧ aligned rp ls n' A' ls'.
Proof.
  intros Hx Hl Hhd Hlast Hlen. pose proof (zlen_nonneg ls) as Hz.
  assert (Hg : good ls) by (split; [by apply Forall_limb|by apply calm_lt|done|by right]).
  unfold align_radix. destruct (Z.eqb_spec (Z.rem rp 9) 0) as [H9|H9].
  { exists (Ringnum x 0 (zlen ls) rp 0), 0, ls. split; [done|]. split; [|done|cbn [n_rp]; lia|done|lia|cbn [n_rp]; lia|].
    - split; [done|]. split; [cbn [n_z]; rewrite mask_id; lia|done].
    - cbn [n_rp]. replace (rp + 9 * 0 - rp) with 0 by lia. replace (0 + zlen ls - zlen ls) with 0 by lia. done. }
  set (r := if 0 <=? rp then Z.rem rp 9 else Z.rem rp 9 + 9).
  assert (Hr : 1 ≤ r ≤ 8 ∧ r = rp mod 9) by (unfold r; destruct (Z.leb_spec 0 rp); lia). clearbody r. destruct Hr as [Hr Er].
  destruct (p10_run r f Hr) as [Ep Hd]. rewrite (bind_run _ _ _ _ _ Ep). set (P := 10 ^ (9 - r)) in *. pose proof Hd as [HP HB].
  destruct (div_limbs P 0 ls) as [o c] eqn:E.
  destruct (down_good P ls o c Hd Hg (calm_lt _ _ Hl) E) as (Hg' & _ & Hzl & HV). set (t := lead o) in *. pose proof (zlen_nonneg t).
  edestruct (div_loop (kk := λ k, k) P 0 (zlen ls) HP HB ltac:(lia) (align_loop_body P (zlen ls) Hd ltac:(lia)))
    with (rest := ls) (done := @nil Z) (x := x) (carry := 0) (rp := rp) (o := o) (c := c) (f := f) as (x' & Hx' & Hto).
  { intros. cbn. by rewrite Z.eqb_refl. }
  { done. } { done. } { done. } { by apply Forall_limb. } { done. } { done. }
  cbv zeta in Hx', Hto. cbn [app lead] in Hx', Hto. fold t in Hx', Hto. change (zlen (@nil Z)) with 0 in Hto.
  rewrite !Z.add_0_l, !Z.sub_0_r in *.
  rewrite (bind_run _ _ _ _ _ (loop_to_run _ _ _ _ _ _ Hto ltac:(unfold zlen in Hlen; lia))).
  set (A' := zlen ls - zlen t) in *. unfold push in *.
  assert (Hrp : rp - 9 * A' + 9 - r + 9 * A' - rp = 9 - r) by lia.
  destruct (Z.eqb_spec c 0) as [Hc0|Hc0]; cbn [negb].
  - rewrite bind_ret. eexists _, A', t. split; [reflexivity|]. split; cbn [n_rp n_e2]; [|done|lia|done|lia|lia|].
    + split; [done|]. split; [cbn [n_z]; rewrite mask_id; lia|done].
    + replace (rp - 9 * A' + (9 - r)) with (rp - 9 * A' + 9 - r) by lia. rewrite Hrp. fold P.
      replace (A' + zlen t - zlen ls) with 0 by lia. change (pow9 0) with 1. lia.
  - rewrite bind_assoc. rewrite (bind_run _ _ _ _ _ (wr_at x' (zlen ls) c f ltac:(lia))), bind_ret.
    eexists _, A', (t ++ [c]). split; [reflexivity|]. assert (Hzt : A' + zlen (t ++ [c]) = zlen ls + 1) by (rewrite zlen_app; change (zlen [c]) with 1; lia).
    split; cbn [n_rp n_e2]; [|done|lia|done|lia|lia|].
    + split; [done|]. split; [cbn [n_z]; rewrite mask_id; lia|]. cbn [n_x]. replace (zlen ls) with (A' + zlen t) by lia.
      apply cells_snoc; [lia|done].
    + replace (rp - 9 * A' + (9 - r)) with (rp - 9 * A' + 9 - r) by lia. rewrite Hrp. fold P.
      rewrite Hzt. replace (zlen ls + 1 - zlen ls) with 1 by lia. change (pow9 1) with B9. lia.
Qed.

(** ** The first four limbs *)

(** The first [k] limbs, with zeros for those that are missing *)
Fixpoint head_limbs (k : nat) (ls : list Z) : list Z :=
  match k with O => [] | S k => hd 0 ls :: head_limbs k (tl ls) end.

Lemma small_limbs_true ls : small_limbs ls th = true → Forall limb ls → 0 ≤ limbs (head_limbs 4 ls) < 2 ^ 113.
Proof.
  intros H Hl. unfold limbs, limb, B9 in *. cbn [head_limbs foldl].
  destruct ls as [|a [|b [|c [|d t]]]]; cbn [small_limbs th hd tl] in *.
  - lia.
  - apply Forall_cons in Hl as [Ha _]. destruct (Z.ltb_spec a 10384593), (Z.ltb_spec 10384593 a); done || lia.
  - apply Forall_cons in Hl as [Ha [Hb _]%Forall_cons].
    destruct (Z.ltb_spec a 10384593), (Z.ltb_spec 10384593 a); try done; try lia.
    destruct (Z.ltb_spec b 717069655), (Z.ltb_spec 717069655 b); done || lia.
  - apply Forall_cons in Hl as [Ha [Hb [Hc _]%Forall_cons]%Forall_cons].
    destruct (Z.ltb_spec a 10384593), (Z.ltb_spec 10384593 a); try done; try lia.
    destruct (Z.ltb_spec b 717069655), (Z.ltb_spec 717069655 b); try done; try lia.
    destruct (Z.ltb_spec c 257060992), (Z.ltb_spec 257060992 c); done || lia.
  - apply Forall_cons in Hl as [Ha [Hb [Hc [Hd _]%Forall_cons]%Forall_cons]%Forall_cons].
    destruct (Z.ltb_spec a 10384593), (Z.ltb_spec 10384593 a); try done; try lia.
    destruct (Z.ltb_spec b 717069655), (Z.ltb_spec 717069655 b); try done; try lia.
    destruct (Z.ltb_spec c 257060992), (Z.ltb_spec 257060992 c); try done; try lia.
    destruct (Z.ltb_spec d 658440191), (Z.ltb_spec 658440191 d); done || lia.
Qed.

(** [1000000000.0L * y + x] *)
Lemma ld_next_limb y v : 0 ≤ y → 0 ≤ v → y * B9 + v < 2 ^ 113 →
  ld_add (ld_mul (ld_of_int 1000000000) (ld_dyadic y 0)) (ld_of_int v) = ld_dyadic (y * B9 + v) 0.
Proof.
  intros Hy Hv Hb. unfold B9 in *.
  assert (Hf : ∀ n, 0 ≤ n ≤ 2 ^ 113 → ld_fits n 0) by (intros; apply ld_fits_small; lia).
  assert (Hm : ld_mul (ld_of_int 1000000000) (ld_dyadic y 0) = ld_dyadic (y * 1000000000) 0).
  { destruct (Z.eq_dec y 0) as [->|]; [done|]. unfold ld_of_int. rewrite ld_mul_dyadic; [f_equal; lia|apply Hf; lia|apply Hf; lia|lia|lia]. }
  rewrite Hm. unfold ld_of_int. destruct (Z.eq_dec v 0) as [->|Hv0].
  - rewrite Z.add_0_r. destruct (Z.eq_dec y 0) as [->|]; [done|]. apply (ld_add_zero_r _ _ false); [apply Hf; lia|lia].
  - destruct (Z.eq_dec y 0) as [->|]; [apply ld_add_zero_l; [apply Hf; lia|lia]|].
    apply ld_add_dyadic; [apply Hf; lia|apply Hf; lia|lia|lia].
Qed.

Lemma limbs_head_mono k ls v : Forall limb ls → 0 ≤ v → v ≤ foldl (λ v d, v * B9 + d) v (head_limbs k ls).
Proof.
  revert ls v. induction k as [|k IH]; intros ls v Hl Hv; cbn [head_limbs foldl]; [done|].
  assert (0 ≤ hd 0 ls ∧ Forall limb (tl ls)) as [H1 H2] by (destruct Hl as [|d t Hd Ht]; cbn [hd tl]; [done|unfold limb in Hd; split; [lia|done]]).
  specialize (IH (tl ls) (v * B9 + hd 0 ls) H2). unfold B9 in *. lia.
Qed.

Lemma assemble_loop x A k i y ls (f : rc_scan) : Forall limb ls → 0 ≤ y → 0 ≤ i → i + Z.of_nat k = 4 → cells x (A + i) ls → i + zlen ls ≤ 2046 →
  foldl (λ v d, v * B9 + d) y (head_limbs k ls) < 2 ^ 113 → (∀ j, i + zlen ls ≤ j < 4 → mask (A + j) ≠ 2047) →
  ∃ x', cells x' (A + 4) (drop k ls) ∧ loop_to (λ '(i, y, x, z),
    if i <? LD_B1B_DIG then
      let* (x, z) := (if mask (mask A + i) =? z then
        let z := mask (z + 1) in x <- wr x (z - 1) 0 ;; ret (x, z)
      else ret (x, z)) in
      v <- rd x (mask (mask A + i)) ;;
      ret (Continue (i + 1, ld_add (ld_mul (ld_of_int 1000000000) y) (ld_of_int v), x, z))
    else ret (Break (y, x, z))) k (i, ld_dyadic y 0, x, mask (A + i + zlen ls)) f
    (ld_dyadic (foldl (λ v d, v * B9 + d) y (head_limbs k ls)) 0, x', mask (A + 4 + zlen (drop k ls))) f.
Proof.
  revert x i y ls. induction k as [|k IH]; intros x i y ls Hl Hy Hi Hk Hx Hlen Hb Hz; cbn [head_limbs foldl].
  - exists x. replace i with 4 in * by lia. split; [done|]. constructor. cbn [drop]. peq.
  - pose proof (zlen_nonneg ls) as Hzl. destruct ls as [|v ls]; cbn [hd tl drop] in *.
    + change (zlen []) with 0 in *. rewrite Z.add_0_r in *.
      assert (Hm : mask (A + i) ≠ 2047) by (apply Hz; lia). pose proof (mask_range (A + i)) as Hr.
      assert (Hm1 : mask (A + i + 1) - 1 = mask (A + i)) by (rewrite !mask_mod in *; lia).
      cbn [head_limbs foldl hd tl] in Hb. pose proof (limbs_head_mono k [] (y * B9 + 0) ltac:(done) ltac:(unfold B9; lia)) as Hmono.
      destruct (IH (<[mask (A + i) := 0]> x) (i + 1) (y * B9 + 0) []) as (x' & Hx' & Hl'); [done|unfold B9; lia|lia|lia|done|zlen_lia|exact Hb| |].
      { intros j Hj. change (zlen []) with 0 in Hj. apply Hz. lia. }
      exists x'. replace (drop k []) with (@nil Z) in Hx', Hl' by (by destruct k). split; [done|]. eapply loop_to_next; [|exact Hl'].
      replace (i <? LD_B1B_DIG) with true by (unfold LD_B1B_DIG; lia). rewrite mask_shift, Z.eqb_refl. cbv zeta.
      rewrite mask_shift, Hm1, bind_assoc, (bind_run _ _ _ _ _ (wr_run _ _ _ f)), bind_ret.
      rewrite (bind_run _ _ 0 f f) by (unfold rd; by rewrite ring_set). rewrite ld_next_limb by lia.
      unfold ret. do 3 f_equal. change (zlen []) with 0. f_equal. lia.
    + destruct Hx as [Hv Hx]. rewrite zlen_cons in *. apply Forall_cons in Hl as [Hlv Hl]. unfold limb in Hlv.
      pose proof (zlen_nonneg ls). cbn [head_limbs foldl hd tl] in Hb.
      pose proof (limbs_head_mono k ls (y * B9 + v) Hl ltac:(unfold B9; lia)) as Hmono.
      destruct (IH x (i + 1) (y * B9 + v) ls) as (x' & Hx' & Hl'); [done|unfold B9; lia|lia|lia|by rewrite Z.add_assoc|lia|exact Hb| |].
      { intros j Hj. apply Hz. lia. }
      exists x'. split; [done|]. eapply loop_to_next; [|exact Hl'].
      replace (i <? LD_B1B_DIG) with true by (unfold LD_B1B_DIG; lia). rewrite mask_shift, mask_neq by lia.
      rewrite bind_ret, (bind_run _ _ _ _ _ (rd_run _ _ _ f Hv)). rewrite ld_next_limb by lia.
      unfold ret. do 3 f_equal. f_equal. lia.
Qed.

Lemma assemble_run x A ls (f : rc_scan) : Forall limb ls → cells x A ls → zlen ls ≤ 2046 → limbs (head_limbs 4 ls) < 2 ^ 113 →
  (∀ j, zlen ls ≤ j < 4 → mask (A + j) ≠ 2047) →
  ∃ x', cells x' (A + 4) (drop 4 ls) ∧
    assemble x (mask A) (mask (A + zlen ls)) f = Ret (ld_dyadic (limbs (head_limbs 4 ls)) 0, x', mask (A + 4 + zlen (drop 4 ls))) f.
Proof.
  intros Hl Hx Hlen Hb Hz. destruct (assemble_loop x A 4 0 0 ls f) as (x' & Hx' & Hto); try done; rewrite ?Z.add_0_r; try done.
  exists x'. split; [done|]. rewrite Z.add_0_r in Hto. unfold assemble. eapply loop_to_run; [exact Hto|lia].
Qed.
