(* ===== verification/DecDigits.v ===== *)
(** [decfloat] (floatscan.c) reads the digits of a decimal constant into the
    ring: nine to a limb, the first digit that is not a zero in the first limb. *)
From S2P Require Import Prelude CMonad Kernel RcFd FloatScan DecRing DecScale.

Lemma decval_snoc cs c : decval (cs ++ [c]) = decval cs * 10 + (c - 48).
Proof. unfold decval. rewrite foldl_app. cbn [foldl]. lia. Qed.

Lemma decval_bounds cs : dec_text cs → 0 ≤ decval cs < 10 ^ zlen cs.
Proof.
  induction cs as [|c cs IH] using rev_ind; [done|]. intros [Ht Hc]%Forall_app. apply Forall_cons in Hc as [Hc _]. unfold is_dig in Hc.
  specialize (IH Ht). rewrite decval_snoc, zlen_app, Z.pow_add_r by (apply zlen_nonneg || done). change (10 ^ zlen [c]) with 10. lia.
Qed.

(** What is in the ring behind the digits [ds], the leading zeros gone *)
Record stored (ds : bytes) (d : decimal) : Prop := {
  st_dc : d_dc d = zlen ds;
  st_k : d_k d = zlen ds / 9;
  st_j : d_j d = zlen ds mod 9;
  st_limbs : ∃ ls q, cells (d_x d) 0 ls ∧ zlen ls = d_k d ∧ Forall limb_lt ls ∧ 0 ≤ q < 10 ^ d_j d ∧
    (d_j d ≠ 0 → d_x d !! mask (d_k d) = Some q) ∧ decval ds = limbs ls * 10 ^ d_j d + q;
  st_lnz : 0 ≤ d_lnz d ≤ zlen ds ∧ ∃ A, decval ds = A * 10 ^ (zlen ds - d_lnz d);
  st_zero : ds = [] → d_x d !! 0 = Some 0;
}.

(** What the main loop does not change in [d] *)
Definition same_point (d d' : decimal) : Prop := d_lrp d' = d_lrp d ∧ d_gotrad d' = d_gotrad d.

Lemma dec_digit_run ds c d : stored ds d → is_dig c = true → zlen ds < 16000 →
  ∃ d', (∀ f, dec_digit c d f = Ret d' f) ∧ stored (ds ++ [c]) d' ∧ same_point d d' ∧ d_gotdig d' = true.
Proof.
  intros [Hdc Hk Hj (ls & q & Hx & Hls & Hlt & Hq & Hxk & HV) ([Hn1 Hn2] & A & HA) _] Hc Hlen. unfold is_dig in Hc.
  pose proof (zlen_nonneg ds) as Hz. destruct d as [x j k lrp dc lnz gd gr]. cbn [d_x d_j d_k d_lrp d_dc d_lnz d_gotdig d_gotrad] in *.
  assert (Hj8 : 0 ≤ j ≤ 8) by lia. assert (Hk2 : 0 ≤ k ≤ 1778) by lia. assert (H8 : 10 ^ j ≤ 10 ^ 8) by (apply Z.pow_le_mono_r; lia).
  set (v := q * 10 + (c - 48)). assert (Hv : 0 ≤ v < 10 ^ (j + 1)) by (rewrite Z.pow_add_r by lia; lia).
  assert (Hv9 : v < B9) by (unfold B9; lia).
  set (d' := Decimal (<[mask k := v]> x) (if j + 1 =? 9 then 0 else j + 1) (if j + 1 =? 9 then k + 1 else k) lrp (dc + 1)
    (if negb (c =? 48) then dc + 1 else lnz) true gr).
  exists d'. split.
  - intros f. unfold dec_digit. cbn [d_x d_j d_k d_lrp d_dc d_lnz d_gotdig d_gotrad]. replace (k <? KMAX - 3) with true by (unfold KMAX; lia).
    cbv zeta. rewrite s32_id by (unfold INT_MIN, INT_MAX; lia).
    assert (Ew : (if negb (j =? 0) then v0 <- rd x k ;; wr x k (u32 (v0 * 10 + c - 48)) else wr x k (c - 48)) f = Ret (<[mask k := v]> x) f).
    { destruct (Z.eqb_spec j 0) as [E|E]; cbn [negb].
      - rewrite wr_at by lia. do 3 f_equal. rewrite E in Hq. change (10 ^ 0) with 1 in Hq. lia.
      - rewrite (bind_run _ _ _ _ _ (rd_at _ _ _ f (Hxk E) ltac:(lia))). rewrite wr_at by lia. rewrite u32_id by (unfold B9 in *; lia). do 3 f_equal. unfold v. lia. }
    rewrite (bind_run _ _ _ _ _ Ew). unfold d'. by destruct (j + 1 =? 9).
  - split; [|done]. assert (HVs : decval (ds ++ [c]) = limbs ls * 10 ^ (j + 1) + v) by (rewrite decval_snoc, HV, Z.pow_add_r by lia; unfold v; lia).
    unfold d'. split; cbn [d_x d_j d_k d_lrp d_dc d_lnz d_gotdig d_gotrad]; rewrite ?zlen_app; change (zlen [c]) with 1.
    + lia.
    + destruct (Z.eqb_spec (j + 1) 9); lia.
    + destruct (Z.eqb_spec (j + 1) 9); lia.
    + destruct (Z.eqb_spec (j + 1) 9) as [E|E].
      * exists (ls ++ [v]), 0. split; [replace k with (0 + zlen ls) by lia; apply cells_snoc; [lia|done]|]. split; [rewrite zlen_app, Hls; done|].
        split; [apply Forall_app; split; [done|constructor; [unfold limb_lt; lia|done]]|]. split; [done|]. split; [done|].
        rewrite limbs_snoc, HVs, E. change (10 ^ 9) with B9. change (10 ^ 0) with 1. lia.
      * exists ls, v. split; [apply cells_set; [left; lia|done]|]. split; [done|]. split; [done|]. split; [done|]. split; [|done]. intros _. apply ring_set.
    + destruct (Z.eqb_spec c 48) as [E|E]; cbn [negb].
      * split; [lia|]. exists A. rewrite decval_snoc, HA. replace (zlen ds + 1 - lnz) with (zlen ds - lnz + 1) by lia. rewrite Z.pow_add_r by lia. lia.
      * split; [lia|]. exists (decval (ds ++ [c])). rewrite Hdc. replace (zlen ds + 1 - (zlen ds + 1)) with 0 by lia. lia.
    + intros E. by destruct ds.
Qed.

(** ** The last limb *)

Lemma ring_set_set (x : ring) i v w : <[i := v]> (<[i := w]> x) = <[i := v]> x.
Proof. apply insert_insert_eq. Qed.
Lemma ring_set_id (x : ring) i v : x !! i = Some v → <[i := v]> x = x.
Proof. apply insert_id. Qed.

(** "Align incomplete final B1B digit" *)
Definition pad_digits (d : decimal) : M rc_scan (ring * Z) :=
  if negb (d_j d =? 0) then
    x <- loop (λ '(j, x),
      if j <? 9 then v <- rd x (d_k d) ;; x <- wr x (d_k d) (u32 (v * 10)) ;; ret (Continue (j + 1, x))
      else ret (Break x)) (d_j d, d_x d) ;;
    ret (x, d_k d + 1)
  else ret (d_x d, d_k d).

Lemma pad_loop x k j q (f : rc_scan) : 0 ≤ k < 2048 → 1 ≤ j ≤ 9 → 0 ≤ q < 10 ^ j → x !! mask k = Some q →
  loop (λ '(j, x), if j <? 9 then v <- rd x k ;; x <- wr x k (u32 (v * 10)) ;; ret (Continue (j + 1, x)) else ret (Break x)) (j, x) f =
  Ret (<[mask k := q * 10 ^ (9 - j)]> x) f.
Proof.
  intros Hk Hj Hq Hx. apply (loop_steps _ (λ i, (j + i, <[mask k := q * 10 ^ i]> x)) (λ _, f) (9 - j)); [lia| |done| |].
  - change (10 ^ 0) with 1. rewrite Z.mul_1_r, ring_set_id by done. f_equal. lia.
  - intros i Hi. replace (j + i <? 9) with true by lia. rewrite (bind_run _ _ (q * 10 ^ i) f f) by (apply rd_at; [apply ring_set|lia]).
    rewrite (bind_run _ _ _ _ _ (wr_at _ k _ f Hk)), ring_set_set.
    assert (q * 10 ^ i * 10 < 10 ^ 9) as H9.
    { apply (Z.lt_le_trans _ (10 ^ j * 10 ^ (i + 1))); [rewrite Z.pow_add_r by lia; pose proof (pow10_pos i); nia|].
      rewrite <- Z.pow_add_r by lia. apply Z.pow_le_mono_r; lia. }
    rewrite u32_id by (pose proof (pow10_pos i); nia). unfold ret. do 3 f_equal; [lia|]. f_equal. rewrite Z.pow_add_r by lia. lia.
  - replace (j + (9 - j) <? 9) with false by lia. done.
Qed.

(** The first limb is not zero. *)
Lemma first_limb ls : Forall limb_lt ls → 0 < zlen ls → pow9 (zlen ls - 1) ≤ limbs ls → 0 < hd 0 ls.
Proof.
  intros Hl Hz H. destruct Hl as [|v t Hv Ht]; [done|]. cbn [hd]. rewrite zlen_cons, limbs_cons in H. pose proof (limbs_lt t Ht).
  replace (1 + zlen t - 1) with (zlen t) in H by lia. unfold limb_lt in Hv. destruct (Z.eq_dec v 0) as [->|]; lia.
Qed.

Lemma decval_ge ds : dec_text ds → hd 0 ds ≠ 48 → ds ≠ [] → 10 ^ (zlen ds - 1) ≤ decval ds.
Proof.
  intros Ht Hd Hne. destruct ds as [|c ds]; [done|]. cbn [hd] in Hd. apply Forall_cons in Ht as [Hc Ht]. unfold is_dig in Hc.
  rewrite zlen_cons. replace (1 + zlen ds - 1) with (zlen ds) by lia. clear Hne.
  induction ds as [|b ds IH] using rev_ind; [unfold decval; cbn [foldl]; change (10 ^ zlen []) with 1; lia|].
  apply Forall_app in Ht as [Ht Hb]. apply Forall_cons in Hb as [Hb _]. unfold is_dig in Hb. specialize (IH Ht).
  rewrite app_comm_cons, decval_snoc, zlen_app, Z.pow_add_r by (apply zlen_nonneg || done). change (10 ^ zlen [b]) with 10. lia.
Qed.

Lemma pad_digits_run ds d (f : rc_scan) : stored ds d → dec_text ds → hd 0 ds ≠ 48 → ds ≠ [] → zlen ds ≤ 16000 →
  ∃ x ls, pad_digits d f = Ret (x, zlen ls) f ∧ cells x 0 ls ∧ Forall limb_lt ls ∧ 0 < hd 0 ls ∧ 0 < zlen ls ≤ 1778 ∧
    zlen ds ≤ 9 * zlen ls ∧ limbs ls = decval ds * 10 ^ (9 * zlen ls - zlen ds).
Proof.
  intros [Hdc Hk Hj (ls & q & Hx & Hls & Hlt & Hq & Hxk & HV) _ _] Ht Hd Hne Hlen. pose proof (zlen_pos ds Hne) as Hz.
  pose proof (decval_ge ds Ht Hd Hne) as Hge.
  enough (∃ x ls, pad_digits d f = Ret (x, zlen ls) f ∧ cells x 0 ls ∧ Forall limb_lt ls ∧ 0 < zlen ls ≤ 1778 ∧
    zlen ds ≤ 9 * zlen ls ∧ limbs ls = decval ds * 10 ^ (9 * zlen ls - zlen ds)) as (x' & ls' & E & H1 & H2 & H3 & H4 & H5).
  { exists x', ls'. split; [exact E|]. split; [done|]. split; [done|]. split; [|done]. apply first_limb; [done|lia|]. rewrite H5.
    eapply Z.le_trans; [|apply Z.mul_le_mono_nonneg_r; [pose proof (pow10_pos (9 * zlen ls' - zlen ds)); lia|exact Hge]].
    rewrite <- Z.pow_add_r by lia. apply Z.pow_le_mono_r; lia. }
  unfold pad_digits. set (j := d_j d) in *. set (k := d_k d) in *. clearbody j k.
  destruct (Z.eqb_spec j 0) as [E|E]; cbn [negb].
  - exists (d_x d), ls. rewrite Hls. split; [done|]. split; [done|]. split; [done|]. split; [lia|]. split; [lia|].
    rewrite HV, E in *. change (10 ^ 0) with 1 in *. replace (9 * k - zlen ds) with 0 by lia. change (10 ^ 0) with 1. lia.
  - rewrite (bind_run _ _ _ _ _ (pad_loop (d_x d) k j q f ltac:(lia) ltac:(lia) Hq (Hxk E))).
    exists (<[mask k := q * 10 ^ (9 - j)]> (d_x d)), (ls ++ [q * 10 ^ (9 - j)]). rewrite zlen_app, Hls. change (zlen [_]) with 1.
    split; [done|]. split; [replace k with (0 + zlen ls) at 1 by lia; apply cells_snoc; [lia|done]|].
    split. { apply Forall_app. split; [done|]. constructor; [|done]. unfold limb_lt, B9. pose proof (pow10_pos (9 - j) ltac:(lia)).
      assert (10 ^ j * 10 ^ (9 - j) = 1000000000) by (rewrite <- Z.pow_add_r by lia; replace (j + (9 - j)) with 9 by lia; done). nia. }
    split; [lia|]. split; [lia|]. rewrite limbs_snoc, HV. replace (9 * (k + 1) - zlen ds) with (9 - j) by lia.
    rewrite Z.mul_add_distr_r, <- Z.mul_assoc, <- Z.pow_add_r by lia. replace (j + (9 - j)) with 9 by lia. done.
Qed.
