(* ===== verification/DecRound.v ===== *)
(** The end of [decfloat] (floatscan.c): 113 bits and a tail of limbs are
    rounded to the bits of the format.

    The bits that are not kept are taken off with [fmodl], a bias is added, the
    bits come back with two more for the tail, and the bias is taken away. *)
From S2P Require Import Prelude CMonad Kernel RcFd Ieee Rounding Ratio FloatBias FloatScan DecRing DecScale.

Lemma ld_finite a e : ld_fits a e → a ≠ 0 → ∃ m e', ld_dyadic a e = S754_finite (a <? 0) m e' ∧ is_float LDBL_MANT_DIG LDBL_MAX_EXP (Z.abs a) e m e'.
Proof. apply (F_fits LDBL_MANT_DIG LDBL_MAX_EXP); done. Qed.

(** ** Remainders *)

(** A magnitude with a sign, which a zero has too *)
Definition sdy (s a e : Z) : ld := if a =? 0 then S754_zero (s <? 0) else ld_dyadic (s * a) e.

Lemma with_sign_dyadic s a e : (s = 1 ∨ s = -1) → 0 ≤ a → ld_fits a e → with_sign (s <? 0) (ld_dyadic a e) = sdy s a e.
Proof.
  intros Hs Ha Hf. unfold sdy. destruct (Z.eqb_spec a 0) as [->|Ha0]; [done|].
  destruct (ld_finite a e Hf Ha0) as (m & e' & E & _).
  destruct Hs as [->| ->].
  - rewrite Z.mul_1_l, E. replace (a <? 0) with false by lia. done.
  - replace (-1 * a) with (- a) by lia. change (ld_dyadic (- a) e) with (F LDBL_MANT_DIG LDBL_MAX_EXP (- a) e).
    rewrite F_neg by done. change (F LDBL_MANT_DIG LDBL_MAX_EXP a e) with (ld_dyadic a e). rewrite E. replace (a <? 0) with false by lia. done.
Qed.

(** The remainder by a power of two *)
Lemma fmodl_pow s a e j : (s = 1 ∨ s = -1) → 0 < a → ld_fits a e → e ≤ j → ld_fits 1 j → ld_fits (a mod 2 ^ (j - e)) e →
  fmodl (ld_dyadic (s * a) e) (ld_dyadic 1 j) = sdy s (a mod 2 ^ (j - e)) e.
Proof.
  intros Hs Ha Hf Hj H1 Hr. rewrite <- with_sign_dyadic by (done || apply Z.mod_pos_bound, pow2_pos; lia).
  assert (Hsa : ld_fits (s * a) e) by (destruct Hs as [->| ->]; [by rewrite Z.mul_1_l|replace (-1 * a) with (- a) by lia; by apply fits_neg]).
  destruct (ld_finite (s * a) e Hsa ltac:(nia)) as (m & ea & -> & Fa).
  destruct (ld_finite 1 j H1 ltac:(done)) as (m1 & e1 & -> & F1).
  cbn [fmodl]. replace (s * a <? 0) with (s <? 0) by (destruct Hs as [->| ->]; lia). f_equal.
  replace (Z.abs (s * a)) with a in Fa by nia. set (k := Z.min ea e1).
  apply (F_eq LDBL_MANT_DIG LDBL_MAX_EXP ltac:(done) ltac:(done) _ _ _ _ (Z.min k e)); [lia|lia|].
  rewrite <- !Z.mul_mod_distr_r by (pose proof (pow2_pos (k - Z.min k e) ltac:(lia)); pose proof (pow2_pos (e - Z.min k e) ltac:(lia));
    pose proof (pow2_pos (j - e) ltac:(lia)); pose proof (pow2_pos (e1 - k) ltac:(lia)); nia).
  pose proof (float_value _ _ _ _ _ _ Fa (Z.min k e) ltac:(lia) ltac:(lia)) as Va.
  pose proof (float_value _ _ _ _ _ _ F1 (Z.min k e) ltac:(lia) ltac:(lia)) as V1.
  rewrite <- !Z.mul_assoc, <- !pow2_add by lia. f_equal.
  - rewrite Va. do 2 f_equal. lia.
  - replace (e1 - k + (k - Z.min k e)) with (e1 - Z.min k e) by lia. rewrite <- V1. rewrite Z.mul_1_l. f_equal. lia.
Qed.

Lemma sdy_zero s a e : (s = 1 ∨ s = -1) → 0 ≤ a → ld_fits a e → ld_zero (sdy s a e) = (a =? 0).
Proof.
  intros Hs Ha Hf. unfold sdy. destruct (Z.eqb_spec a 0) as [->|Ha0]; [done|].
  rewrite ld_zero_dyadic; [lia|]. destruct Hs as [->| ->]; [by rewrite Z.mul_1_l|replace (-1 * a) with (- a) by lia; by apply fits_neg].
Qed.

(** ** The tail *)

(** Zero, or how many quarters the tail counts for *)
Definition tail_ok (T : list Z) (tau : Z) : Prop := T = [] ∧ tau = 0 ∨ T ≠ [] ∧ 1 ≤ tau ≤ 3.

Lemma ld_fits_113 n e : 0 ≤ n ≤ 2 ^ 113 → -16000 ≤ e ≤ 16000 → ∀ s, s = 1 ∨ s = -1 → ld_fits (s * n) e.
Proof. intros Hn He s Hs. apply ld_fits_small; [destruct Hs as [->| ->]; lia|done]. Qed.

(** [frac += 0.25*sign] and the like *)
Lemma add_quarters s f q : (s = 1 ∨ s = -1) → 0 ≤ f < 2 ^ 111 → 1 ≤ q ≤ 3 →
  ld_add (sdy s f 0) (ld_mul (ld_dyadic q (-2)) (ld_of_int s)) = ld_dyadic (s * (4 * f + q)) (-2).
Proof.
  intros Hs Hf Hq. assert (Hm : ld_mul (ld_dyadic q (-2)) (ld_of_int s) = ld_dyadic (s * q) (-2)).
  { unfold ld_of_int. rewrite ld_mul_dyadic; [f_equal; lia|apply ld_fits_small; lia|apply ld_fits_small; lia|lia|lia]. }
  rewrite Hm. unfold sdy. destruct (Z.eqb_spec f 0) as [->|Hf0].
  - change (4 * 0 + q) with q. destruct (ld_finite (s * q) (-2)) as (m & e & -> & _); [apply ld_fits_113; [lia|lia|done]|nia|done].
  - rewrite <- (ld_dyadic_shift (s * f) 0 2) by lia. change (0 - 2) with (-2). rewrite ld_add_dyadic; [f_equal; lia| | |nia|nia].
    + replace (s * f * 2 ^ 2) with (s * (4 * f)) by lia. apply ld_fits_113; [lia|lia|done].
    + apply ld_fits_113; [lia|lia|done].
Qed.

Lemma tail_frac_run s bits x A T f0 (f : rc_scan) : (s = 1 ∨ s = -1) → 2 ≤ bits ≤ 111 → 0 ≤ f0 < 2 ^ (113 - bits) → cells x (A + 4) T → zlen T ≤ 2042 →
  Forall limb T → (zlen T = 1 → hd 0 T ≠ 0) →
  ∃ tau, tail_ok T tau ∧
    tail_frac s bits (sdy s f0 0) x (mask A) (mask (A + 4 + zlen T)) f = Ret (if tau =? 0 then sdy s f0 0 else ld_dyadic (s * (4 * f0 + tau)) (-2)) f.
Proof.
  intros Hs Hb Hf0 Hx Hlen Hl Hlast. unfold tail_frac. cbv zeta. change LD_B1B_DIG with 4. rewrite mask_shift.
  assert (Hf111 : f0 < 2 ^ 111) by (pose proof (Z.pow_le_mono_r 2 (113 - bits) 111); lia).
  destruct T as [|t T].
  { exists 0. split; [by left|]. change (zlen []) with 0. rewrite Z.add_0_r, Z.eqb_refl. done. }
  rewrite zlen_cons in *. pose proof (zlen_nonneg T). destruct Hx as [Ht _]. apply Forall_cons in Hl as [Htl _]. unfold limb, B9 in Htl. cbn [hd] in Hlast.
  rewrite mask_neq by lia. cbn [negb]. rewrite (bind_run _ _ _ _ _ (rd_run _ _ _ f Ht)).
  replace (mask (mask A + 4 + 1)) with (mask (A + 4 + 1)) by (rewrite <- !Z.add_assoc, mask_shift; f_equal; lia).
  assert (Hone : (mask (A + 4 + 1) =? mask (A + 4 + (1 + zlen T))) = (zlen T =? 0)).
  { destruct (Z.eqb_spec (zlen T) 0) as [->|]; [apply Z.eqb_refl|]. apply mask_neq; lia. }
  rewrite Hone.
  assert (Hq : ∀ q, 1 ≤ q ≤ 3 → (if (2 <=? LDBL_MANT_DIG - bits) && ld_zero (fmodl (ld_dyadic (s * (4 * f0 + q)) (-2)) (ld_of_int 1))
      then ld_add (ld_dyadic (s * (4 * f0 + q)) (-2)) (ld_of_int 1) else ld_dyadic (s * (4 * f0 + q)) (-2)) = ld_dyadic (s * (4 * f0 + q)) (-2)).
  { intros q Hq. unfold ld_of_int at 1. rewrite fmodl_pow; [|done|lia|apply ld_fits_small; lia|lia|apply ld_fits_small; lia|apply ld_fits_small; lia].
    rewrite sdy_zero by (done || lia || apply ld_fits_small; lia). change (2 ^ (0 - -2)) with 4.
    replace ((4 * f0 + q) mod 4 =? 0) with false by lia. by rewrite andb_false_r. }
  assert (Hret : ∀ q, 1 ≤ q ≤ 3 → ∃ tau, tail_ok (t :: T) tau ∧ Ret (ld_dyadic (s * (4 * f0 + q)) (-2)) f =
      Ret (if tau =? 0 then sdy s f0 0 else ld_dyadic (s * (4 * f0 + tau)) (-2)) f).
  { intros q Hq'. exists q. split; [by right|]. by replace (q =? 0) with false by lia. }
  destruct ((t <? 500000000) && (negb (t =? 0) || negb (zlen T =? 0))) eqn:E1.
  { rewrite add_quarters, Hq by (done || lia). by apply Hret. }
  destruct (Z.ltb_spec 500000000 t); [rewrite add_quarters, Hq by (done || lia); by apply Hret|].
  destruct (Z.eqb_spec t 500000000); [|lia].
  destruct (zlen T =? 0); rewrite add_quarters, Hq by (done || lia); by apply Hret.
Qed.

(** ** Rounding *)

Section bias.
Context (s bits Y tau : Z) (Hs : s = 1 ∨ s = -1) (Hb : 2 ≤ bits ≤ 111) (HY : 2 ^ 112 ≤ Y < 2 ^ 113) (Ht : 0 ≤ tau ≤ 3).
Let U := 2 ^ (113 - bits).
Let f0 := Y mod U.
Let R := rne (4 * Y + tau) (115 - bits).

Lemma unit_facts : 0 < U ∧ U ≤ 2 ^ 111 ∧ 2 ^ (115 - bits) = 4 * U ∧ 2 ^ bits * U = 2 ^ 113 ∧ 0 ≤ f0 < U ∧ ∃ q, Y = q * U + f0 ∧ 0 < q < 2 ^ bits ∧ 2 ^ bits ≤ 2 ^ 111.
Proof using All.
  assert (H1 : 0 < U) by (apply pow2_pos; lia). assert (H2 : U ≤ 2 ^ 111) by (apply Z.pow_le_mono_r; lia).
  assert (H3 : 2 ^ (115 - bits) = 4 * U) by (unfold U; change 4 with (2 ^ 2); rewrite <- pow2_add by lia; f_equal; lia).
  assert (H4 : 2 ^ bits * U = 2 ^ 113) by (unfold U; rewrite <- pow2_add by lia; f_equal; lia).
  pose proof (Z.pow_le_mono_r 2 bits 111 ltac:(lia) ltac:(lia)) as H5.
  pose proof (Z.mod_pos_bound Y U H1) as H6. pose proof (Z.div_mod Y U ltac:(lia)) as H7.
  do 4 (split; [done|]). split; [done|]. exists (Y / U). split; [unfold f0; lia|]. split; [|done]. split; [|apply Z.div_lt_upper_bound; lia].
  apply Z.div_str_pos. lia.
Qed.

Lemma kept_bounds : 2 ^ (bits - 1) ≤ R ≤ 2 ^ bits.
Proof using All.
  destruct unit_facts as (H1 & _ & H3 & H4 & _). assert (2 ^ bits = 2 * 2 ^ (bits - 1)) by (rewrite <- pow2_S by lia; f_equal; lia).
  unfold R. split; [apply rne_ge|apply rne_le]; try lia; rewrite H3; nia.
Qed.

Lemma sub_frac : ld_sub (ld_dyadic (s * Y) 0) (sdy s f0 0) = ld_dyadic (s * (Y - f0)) 0.
Proof using All.
  destruct unit_facts as (H1 & H2 & _ & _ & Hf & _). unfold sdy. destruct (Z.eqb_spec f0 0) as [->|Hf0].
  - rewrite Z.sub_0_r. assert (HfY : ld_fits (s * Y) 0) by (apply ld_fits_113; [lia|lia|done]).
    destruct (ld_finite (s * Y) 0 HfY ltac:(nia)) as (m & e & -> & _). done.
  - rewrite ld_sub_dyadic; [f_equal; lia|apply ld_fits_113; [lia|lia|done]|apply ld_fits_113; [lia|lia|done]|nia|nia].
Qed.

Lemma add_bias : ld_add (ld_dyadic (s * (Y - f0)) 0) (ld_dyadic s (225 - bits)) = ld_dyadic (s * (2 ^ 112 * U + (Y - f0))) 0 ∧
  ld_fits (s * (2 ^ 112 * U + (Y - f0))) 0.
Proof using All.
  destruct unit_facts as (H1 & H2 & _ & _ & Hf & q & EY & Hq & Hb2).
  assert (EB : ld_dyadic s (225 - bits) = ld_dyadic (s * 2 ^ 112 * U) 0).
  { unfold U. rewrite <- Z.mul_assoc, <- pow2_add, ld_dyadic_scale by lia. f_equal. lia. }
  assert (Hsum : s * (2 ^ 112 * U + (Y - f0)) = s * (2 ^ 112 + q) * U) by (rewrite EY at 1; lia).
  split; [|rewrite Hsum; unfold U; apply ld_fits_pow; [destruct Hs as [->| ->]; lia|lia|lia]].
  rewrite EB, ld_add_dyadic; [f_equal; lia|apply ld_fits_113; [lia|lia|done]| |nia|nia].
  unfold U. apply ld_fits_pow; [destruct Hs as [->| ->]; lia|lia|lia].
Qed.

(** With the bias, adding the bits that were taken off, and the tail, rounds. *)
Lemma add_frac : ld_add (ld_dyadic (s * (2 ^ 112 * U + (Y - f0))) 0) (if tau =? 0 then sdy s f0 0 else ld_dyadic (s * (4 * f0 + tau)) (-2)) =
  ld_dyadic (s * (2 ^ 112 + R)) (113 - bits).
Proof using All.
  destruct unit_facts as (H1 & H2 & H3 & _ & Hf & q & EY & Hq & Hb2). pose proof (proj2 add_bias) as Hfit.
  assert (HlowY : ∀ k, 0 ≤ k ≤ 2 → 2 ^ (113 - bits + k) = 2 ^ k * U) by (intros k Hk; unfold U; rewrite <- pow2_add by lia; f_equal; lia).
  destruct (Z.eqb_spec tau 0) as [E0|E0].
  - assert (HR : R = rne Y (113 - bits)).
    { unfold R. rewrite E0. replace (4 * Y + 0) with (Y * 2 ^ 2) by lia. replace (115 - bits) with (113 - bits + 2) by lia. apply rne_shift; lia. }
    rewrite HR. transitivity (ld_dyadic (s * (2 ^ 112 * 2 ^ (113 - bits) + Y)) 0).
    + fold U. unfold sdy. destruct (Z.eqb_spec f0 0) as [Ef|Ef].
      * rewrite ld_add_zero_r; [f_equal; lia|done|nia].
      * rewrite ld_add_dyadic; [f_equal; lia|done|apply ld_fits_113; [lia|lia|done]|nia|nia].
    + rewrite ld_round_bias; [f_equal; lia|done|lia|fold U; nia|lia|lia].
  - rewrite <- (ld_dyadic_shift (s * (2 ^ 112 * U + (Y - f0))) 0 2) by lia. change (0 - 2) with (-2).
    rewrite ld_add_dyadic; [|change (-2) with (0 - 2); by apply fits_shift|apply ld_fits_small; [|lia]|nia|nia].
    2:{ assert (4 * f0 + tau ≤ 2 ^ 113) by lia. destruct Hs as [->| ->]; lia. }
    replace (s * (2 ^ 112 * U + (Y - f0)) * 2 ^ 2 + s * (4 * f0 + tau)) with (s * (2 ^ 112 * 2 ^ (115 - bits) + (4 * Y + tau))) by (rewrite H3; lia).
    rewrite ld_round_bias; [f_equal; lia|done|lia|rewrite H3; nia|lia|lia].
Qed.

Lemma take_bias : ld_sub (ld_dyadic (s * (2 ^ 112 + R)) (113 - bits)) (ld_dyadic s (225 - bits)) = ld_dyadic (s * R) (113 - bits).
Proof using All.
  destruct unit_facts as (H1 & H2 & _ & _ & Hf & q & EY & Hq & Hb2). pose proof kept_bounds as HR. pose proof (pow2_pos (bits - 1) ltac:(lia)).
  replace (ld_dyadic s (225 - bits)) with (ld_dyadic (s * 2 ^ 112) (113 - bits)) by (rewrite ld_dyadic_scale by lia; f_equal; lia).
  rewrite ld_sub_dyadic; [f_equal; lia|apply ld_fits_113; [lia|lia|done]|apply ld_fits_113; [lia|lia|done]|nia|nia].
Qed.
End bias.

Lemma bias_of s Y k : (s = 1 ∨ s = -1) → 0 < Y ≤ 2 ^ 113 → 0 ≤ k ≤ 900 →
  copysignl (to_ldouble (scalbn (ld_of_int 1) k)) (ld_dyadic (s * Y) 0) = ld_dyadic s k.
Proof.
  intros Hs HY Hk. rewrite <- (bias_dyadic k s Hs Hk). unfold copysignl. f_equal.
  destruct (ld_finite (s * Y) 0) as (m & e & -> & _); [apply ld_fits_113; [lia|lia|done]|nia|].
  cbn [sign_of]. destruct Hs as [->| ->]; [by replace (1 * Y <? 0) with false by lia|by replace (-1 * Y <? 0) with true by lia].
Qed.

Lemma ld_ge_2_113 s R e : (s = 1 ∨ s = -1) → 0 < R ≤ 2 ^ 113 → -16000 ≤ e ≤ 113 →
  ld_ge (fabsl (ld_dyadic (s * R) e)) (ld_dyadic 1 LDBL_MANT_DIG) = (2 ^ (113 - e) <=? R).
Proof.
  intros Hs HR He. assert (Ha : fabsl (ld_dyadic (s * R) e) = ld_dyadic R e).
  { destruct Hs as [->| ->].
    - rewrite Z.mul_1_l. destruct (ld_finite R e) as (m & e' & -> & _); [apply ld_fits_small; lia|lia|]. cbn [fabsl SFabs].
      by replace (R <? 0) with false by lia.
    - replace (-1 * R) with (- R) by lia. change (ld_dyadic (- R) e) with (F LDBL_MANT_DIG LDBL_MAX_EXP (- R) e). rewrite F_neg by (done || lia).
      change (F LDBL_MANT_DIG LDBL_MAX_EXP R e) with (ld_dyadic R e).
      destruct (ld_finite R e) as (m & e' & -> & _); [apply ld_fits_small; lia|lia|]. cbn [fabsl SFabs SFopp]. by replace (R <? 0) with false by lia. }
  rewrite Ha. change LDBL_MANT_DIG with 113. pose proof (pow2_pos (113 - e) ltac:(lia)).
  rewrite <- (ld_dyadic_shift 1 113 (113 - e)) by lia. replace (113 - (113 - e)) with e by lia. rewrite Z.mul_1_l.
  apply ld_ge_dyadic; [apply ld_fits_small; lia| |lia|done].
  rewrite <- (Z.mul_1_l (2 ^ _)). apply ld_fits_pow; lia.
Qed.

(** ERANGE in the normal range: the rounded number is too large. *)
Definition too_large (p mx top R : Z) : bool := (mx <? top) || ((top =? mx) && (R =? 2 ^ p)).

Section round.
Context (p mx : Z) (Hf : narrow p mx) (s : Z) (Hs : s = 1 ∨ s = -1).

(** The last part, from the rounded number on *)
Lemma dec_exit R bits top den b (f : rc_scan) : 2 ≤ bits ≤ p → emin p mx + 2 ≤ top ≤ 10000 → 0 < R ≤ 2 ^ bits →
  (emin p mx + p ≤ top → den = false ∧ bits = p) →
  ∃ y f', (let* (y, e2) :=
    (if mx - 5 <? Z.land (top - 113 + LDBL_MANT_DIG) INT_MAX then
       let '(y, e2, denormal) :=
         if ld_ge (fabsl (ld_dyadic (s * R) (113 - bits))) (ld_dyadic 1 LDBL_MANT_DIG) then
           (ld_mul (ld_dyadic (s * R) (113 - bits)) (ld_dyadic 1 (-1)), top - 113 + 1,
            if den && (bits =? LDBL_MANT_DIG + (top - 113) - emin p mx) then false else den)
         else (ld_dyadic (s * R) (113 - bits), top - 113, den) in
       (if (mx <? e2 + LDBL_MANT_DIG) || (denormal && b) then set_err ERANGE else ret tt) ;;
       ret (y, e2)
     else ret (ld_dyadic (s * R) (113 - bits), top - 113)) in ret (scalbnl y e2)) f = Ret y f' ∧
    to_format p mx y = F p mx (s * R) (top - bits) ∧ (f' = f ∨ f' = Scan (sc_p f) ERANGE) ∧
    (emin p mx + p ≤ top → f' = if too_large p mx top R then Scan (sc_p f) ERANGE else f).
Proof using All.
  intros Hb Htop HR Hden. destruct (narrow_range p mx Hf) as (Hp & Hpm & Em & Hpp). change LDBL_MANT_DIG with 113.
  pose proof (Z.pow_le_mono_r 2 bits p ltac:(lia) ltac:(lia)) as Hbp. pose proof (Z.pow_le_mono_r 2 p 53 ltac:(lia) ltac:(lia)) as Hp53.
  replace (top - 113 + 113) with top by lia.
  assert (Hfit : ∀ e, -16000 ≤ e ≤ 16000 → ld_fits (s * R) e) by (intros; apply ld_fits_113; [lia|done|done]).
  assert (Hfin : ∀ a n, a + n = top - bits → -16000 ≤ a ≤ 16000 → to_format p mx (scalbnl (ld_dyadic (s * R) a) n) = F p mx (s * R) (top - bits)).
  { intros a n E Ha. rewrite scalbnl_dyadic, E by (by apply Hfit). apply (to_format_F 113 16384 p mx); [done..|]. apply Hfit. lia. }
  assert (Hland : mx - 5 < Z.land top INT_MAX ∨ 0 ≤ top ≤ mx - 5).
  { change INT_MAX with (Z.ones 31). rewrite Z.land_ones by lia. lia. }
  destruct (Z.ltb_spec (mx - 5) (Z.land top INT_MAX)) as [Hck|Hck].
  - rewrite ld_ge_2_113 by (done || lia). replace (113 - (113 - bits)) with bits by lia.
    destruct (Z.leb_spec (2 ^ bits) R) as [Hc|Hc].
    + assert (HR2 : R = 2 ^ bits) by lia.
      replace (ld_mul (ld_dyadic (s * R) (113 - bits)) (ld_dyadic 1 (-1))) with (ld_dyadic (s * R) (112 - bits)).
      2:{ rewrite ld_mul_dyadic; [f_equal; lia|apply Hfit; lia|apply ld_fits_small; lia|nia|done]. }
      cbv beta iota. set (c := (_ <? _) || _). assert (Ec : c = (mx <? top + 1) || ((if den && (bits =? 113 + (top - 113) - emin p mx) then false else den) && b))
        by (unfold c; do 2 f_equal; lia). clearbody c.
      exists (scalbnl (ld_dyadic (s * R) (112 - bits)) (top - 113 + 1)), (if c then Scan (sc_p f) ERANGE else f).
      rewrite bind_assoc. split; [by destruct c|]. split; [apply Hfin; lia|].
      split; [destruct c; auto|]. intros Hn. rewrite Ec. destruct (Hden Hn) as [-> ->]. cbn [andb]. rewrite orb_false_r.
      unfold too_large. rewrite HR2, Z.eqb_refl, andb_true_r. by replace (mx <? top + 1) with ((mx <? top) || (top =? mx)) by lia.
    + cbv beta iota. set (c := (_ <? _) || _). assert (Ec : c = (mx <? top) || (den && b)) by (unfold c; do 2 f_equal; lia). clearbody c.
      exists (scalbnl (ld_dyadic (s * R) (113 - bits)) (top - 113)), (if c then Scan (sc_p f) ERANGE else f).
      rewrite bind_assoc. split; [by destruct c|]. split; [apply Hfin; lia|].
      split; [destruct c; auto|]. intros Hn. rewrite Ec. destruct (Hden Hn) as [-> ->]. cbn [andb]. rewrite orb_false_r.
      unfold too_large. rewrite (proj2 (Z.eqb_neq R (2 ^ p))) by lia. by rewrite andb_false_r, orb_false_r.
  - destruct Hland as [?|Hland]; [lia|]. rewrite bind_ret. eexists _, f. split; [reflexivity|]. split; [apply Hfin; lia|]. split; [by left|].
    intros _. unfold too_large. replace (mx <? top) with false by lia. by replace (top =? mx) with false by lia.
Qed.

(** [Y] is the number's first 113 bits, [2^top] its top, [T] the limbs behind them. *)
Lemma dec_round_run Y top x A T (f : rc_scan) (bits := Z.min p (top - emin p mx)) :
  2 ^ 112 ≤ Y < 2 ^ 113 → emin p mx + 2 ≤ top ≤ 10000 → cells x (A + 4) T → zlen T ≤ 2042 → Forall limb T → (zlen T = 1 → hd 0 T ≠ 0) →
  ∃ tau y f', tail_ok T tau ∧
    dec_round s p (emin p mx) (ld_dyadic Y 0) x (mask A) (mask (A + 4 + zlen T)) (top - 113) f = Ret y f' ∧
    to_format p mx y = F p mx (s * rne (4 * Y + tau) (115 - bits)) (top - bits) ∧
    (f' = f ∨ f' = Scan (sc_p f) ERANGE) ∧
    (emin p mx + p ≤ top → f' = if too_large p mx top (rne (4 * Y + tau) (115 - bits)) then Scan (sc_p f) ERANGE else f).
Proof using All.
  intros HY Htop Hx Hlen Hl Hlast. destruct (narrow_range p mx Hf) as (Hp & Hpm & Em & Hpp).
  assert (Hb : 2 ≤ bits ≤ p) by lia. pose proof (pow2_pos (113 - bits) ltac:(lia)) as HU.
  pose proof (Z.mod_pos_bound Y (2 ^ (113 - bits)) HU) as Hf0.
  destruct (tail_frac_run s bits x A T _ f Hs ltac:(lia) Hf0 Hx Hlen Hl Hlast) as (tau & Htau & Et).
  assert (H03 : 0 ≤ tau ≤ 3) by (destruct Htau as [(_ & ->)|[_ ?]]; lia).
  pose proof (kept_bounds s bits Y tau Hs ltac:(lia) HY H03) as HR. pose proof (pow2_pos (bits - 1) ltac:(lia)) as HRp.
  set (R := rne (4 * Y + tau) (115 - bits)) in *. set (den := top - emin p mx <? p).
  edestruct (dec_exit R bits top den) as (y & f' & Ey & H); [exact Hb|exact Htop|lia|unfold den; lia|].
  exists tau, y, f'. split; [done|]. split; [|exact H]. rewrite <- Ey. clear Ey H. unfold dec_round. change LDBL_MANT_DIG with 113.
  assert (Hm : ld_mul (ld_dyadic Y 0) (ld_of_int s) = ld_dyadic (s * Y) 0).
  { unfold ld_of_int. rewrite ld_mul_dyadic; [f_equal; lia|apply ld_fits_small; lia|apply ld_fits_small; lia|lia|lia]. }
  rewrite Hm.
  replace (113 + (top - 113) - emin p mx) with (top - emin p mx) by lia.
  replace (if top - emin p mx <? p then _ else _) with (bits, den) by (subst bits den; destruct (Z.ltb_spec (top - emin p mx) p); [destruct (Z.ltb_spec (top - emin p mx) 0)|]; f_equal; lia).
  replace (bits <? 113) with true by lia.
  replace (2 * 113 - bits - 1) with (225 - bits) by lia.
  rewrite bias_of, two_to by (done || lia).
  rewrite fmodl_pow; [|done|lia|apply ld_fits_small; lia|lia|apply ld_fits_small; lia|rewrite Z.sub_0_r; apply ld_fits_small; pose proof (Z.pow_le_mono_r 2 (113 - bits) 113); lia].
  rewrite Z.sub_0_r. rewrite (sub_frac s bits Y tau), (proj1 (add_bias s bits Y tau Hs ltac:(lia) HY H03)) by (done || lia). cbv beta iota zeta.
  rewrite (bind_run _ _ _ _ _ Et).
  rewrite (add_frac s bits Y tau), (take_bias s bits Y tau) by (done || lia). fold R.
  replace (- emin p mx - p + 3) with mx by lia. reflexivity.
Qed.
End round.
