(* ===== verification/DecValue.v ===== *)
(** [decfloat] (floatscan.c) from the digits in the ring to the rounded number:
    the number the code assembles from the ring is the quotient of two integers,
    and the bits it keeps are those of the quotient rounded. *)
From S2P Require Import Prelude CMonad Kernel RcFd Ieee Rounding Ratio FloatBias FloatScan DecRing DecScale DecRound.
From Stdlib Require Zdivisibility.

(** [s * n / d] in the format: the Standard Library's division *)
Definition quotient (p mx s n d : Z) : spec_float :=
  SFdiv p mx (S754_finite (s <? 0) (Z.to_pos n) 0) (S754_finite false (Z.to_pos d) 0).

(** ** The first 113 bits *)

(** The first four limbs and those behind them, as one number *)
Lemma head_tail ls K (T := drop 4 ls) : 9 * zlen ls ≤ 36 + K → 0 ≤ K →
  (limbs (head_limbs 4 ls) * pow9 (zlen T) + limbs T) * 10 ^ K = limbs ls * 10 ^ (36 - 9 * zlen ls + K) * pow9 (zlen T).
Proof.
  intros HK HK0. subst T. destruct ls as [|a [|b [|c [|d t]]]]; cbn [drop head_limbs hd tl].
  { unfold limbs. cbn [foldl]. lia. }
  1-3: change (zlen [a]) with 1 in *; change (pow9 (zlen [])) with 1; change (limbs []) with 0.
  { change (36 - 9 * 1 + K) with (27 + K). rewrite Z.pow_add_r by lia. unfold limbs, B9. cbn [foldl]. lia. }
  { change (36 - 9 * zlen [a; b] + K) with (18 + K). rewrite Z.pow_add_r by lia. unfold limbs, B9. cbn [foldl]. lia. }
  { change (36 - 9 * zlen [a; b; c] + K) with (9 + K). rewrite Z.pow_add_r by lia. unfold limbs, B9. cbn [foldl]. lia. }
  change (drop 0 t) with t. change (a :: b :: c :: d :: t) with ([a; b; c; d] ++ t) in *. rewrite limbs_app. rewrite zlen_app in *. change (zlen [a; b; c; d]) with 4 in *.
  replace (36 - 9 * (4 + zlen t) + K) with (K - 9 * zlen t) by lia. pose proof (zlen_nonneg t).
  replace (10 ^ K) with (10 ^ (K - 9 * zlen t) * pow9 (zlen t)) by (unfold pow9; rewrite <- Z.pow_add_r by lia; f_equal; lia). lia.
Qed.

Lemma calm_lt_pow ls : Forall limb ls → calm ls → hd 0 ls < B9 → limbs ls < pow9 (zlen ls).
Proof.
  induction 1 as [|v t Hv Ht IH]; [done|]. cbn [calm_mod hd]. intros [Hvt Hc] Hlt. unfold limb in Hv.
  rewrite limbs_cons, zlen_cons, pow9_S by apply zlen_nonneg. pose proof (limbs_lt2 t Ht). pose proof (pow9_pos (zlen t) (zlen_nonneg t)).
  destruct t as [|w t]; [change (pow9 (zlen [])) with 1 in *; change (limbs []) with 0; lia|]. cbn [hd] in IH.
  apply Forall_cons in Ht as [Hw _]. unfold limb in Hw. destruct (Z.eq_dec w B9) as [E|].
  - specialize (Hvt E). assert (v ≤ B9 - 512) by (unfold B9 in *; lia). nia.
  - specialize (IH Hc ltac:(lia)). nia.
Qed.

(** A tail of 10^9 or more comes behind a multiple of 512. *)
Lemma full_tail ls (Y := limbs (head_limbs 4 ls)) (T := drop 4 ls) : Forall limb ls → calm ls → pow9 (zlen T) ≤ limbs T → T ≠ [] → Y mod 512 = 0.
Proof.
  intros Hl Hc HT Hne. subst T Y. destruct ls as [|a [|b [|c [|d [|e t]]]]]; cbn [drop head_limbs hd tl] in *; try done.
  cbn [calm_mod] in Hc. destruct Hc as (_ & _ & _ & Hde & Hc).
  do 4 apply Forall_cons in Hl as [_ Hl]. pose proof (calm_lt_pow (e :: t) Hl Hc) as Hlt. cbn [hd] in Hlt. apply Forall_cons in Hl as [He _]. unfold limb in He.
  specialize (Hde ltac:(lia)). unfold limbs, B9. cbn [foldl]. lia.
Qed.

Lemma tail_pos ls : Forall limb ls → zlen ls ≤ 2 ∨ List.last ls 0 ≠ 0 → drop 4 ls ≠ [] → 0 < limbs (drop 4 ls).
Proof.
  intros Hl Hlast Hne. destruct ls as [|a [|b [|c [|d t]]]]; cbn [drop] in *; try done. change (drop 0 t) with t in *.
  assert (Hl2 : List.last t 0 ≠ 0).
  { pose proof (zlen_pos t Hne). destruct Hlast as [Hz|Hlast]; [rewrite !zlen_cons in Hz; lia|by destruct t]. }
  do 4 apply Forall_cons in Hl as [_ Hl]. destruct (exists_last Hne) as (t' & v & ->). rewrite last_last in Hl2.
  rewrite limbs_snoc. apply Forall_app in Hl as [Ht Hv]. apply Forall_cons in Hv as [Hv _]. unfold limb, B9 in *. pose proof (limbs_nonneg t' Ht). lia.
Qed.

(** The quotient with one more bit than the first 113 *)
Lemma first_bits ls (Y := limbs (head_limbs 4 ls)) (T := drop 4 ls) (D := pow9 (zlen T)) : good ls → 2 ^ 112 * D ≤ Y * D + limbs T →
  2 ^ 112 ≤ Y ∧ (T = [] ∧ stk (Y * D + limbs T) D = 2 * Y ∨
    T ≠ [] ∧ (stk (Y * D + limbs T) D = 2 * Y + 1 ∨ Y mod 512 = 0 ∧ 2 * Y + 2 ≤ stk (Y * D + limbs T) D ≤ 2 * Y + 3)).
Proof.
  intros [Hl Hc _ Hlast] HY. assert (HlT : Forall limb T) by (by apply Forall_drop).
  pose proof (limbs_nonneg T HlT) as HW. pose proof (limbs_lt2 T HlT) as HW2. pose proof (pow9_pos (zlen T) (zlen_nonneg T)) as HD. fold D in HW2, HD.
  pose proof (full_tail ls Hl Hc) as Hfull. cbv zeta in Hfull. fold T Y D in Hfull.
  destruct (decide (T = [])) as [E|Hne].
  - assert (HW0 : limbs T = 0) by (rewrite E; done). assert (HD1 : D = 1) by (unfold D; rewrite E; done).
    rewrite HW0, HD1 in HY |- *. split; [lia|]. left. split; [done|].
    rewrite stk_split by lia. cbn. lia.
  - assert (HWpos : 0 < limbs T).
    { by apply tail_pos. }
    destruct (Z_lt_le_dec (limbs T) D) as [Hlt|Hge].
    + split; [nia|]. right. split; [done|]. left. rewrite stk_split by lia. by replace (limbs T =? 0) with false by lia.
    + specialize (Hfull Hge Hne). split.
      { assert (2 ^ 112 - 2 < Y) by nia. assert (2 ^ 112 mod 512 = 0) by done. lia. }
      right. split; [done|]. right. split; [done|]. replace (Y * D + limbs T) with ((Y + 1) * D + (limbs T - D)) by lia.
      rewrite stk_split by lia. destruct (limbs T - D =? 0); lia.
Qed.

Lemma high_bits ls (Y := limbs (head_limbs 4 ls)) (T := drop 4 ls) (D := pow9 (zlen T)) : good ls → Y < 2 ^ 113 → Y * D + limbs T < 2 ^ 113 * D.
Proof.
  intros [Hl Hc _ _] HY. assert (HlT : Forall limb T) by (by apply Forall_drop).
  pose proof (limbs_lt2 T HlT) as HW2. pose proof (pow9_pos (zlen T) (zlen_nonneg T)) as HD. fold D in HW2, HD.
  destruct (Z_lt_le_dec (limbs T) D) as [Hlt|Hge]; [nia|]. destruct (decide (T = [])) as [E|Hne].
  { exfalso. assert (limbs T = 0) by (rewrite E; done). lia. }
  pose proof (full_tail ls Hl Hc Hge Hne) as Hm. cbv zeta in Hm. fold Y in Hm.
  assert (Y ≤ 2 ^ 113 - 512) by (assert (2 ^ 113 mod 512 = 0) by done; lia). nia.
Qed.

Lemma tail_size ls (T := drop 4 ls) : zlen ls ≤ 2046 → zlen ls ≤ 2 ∨ List.last ls 0 ≠ 0 → zlen T ≤ 2042 ∧ (zlen T = 1 → hd 0 T ≠ 0).
Proof.
  intros Hz Hlast. subst T. destruct ls as [|a [|b [|c [|d t]]]]; cbn [drop]; try (split; [done|intros E; discriminate E]).
  change (drop 0 t) with t. rewrite !zlen_cons in *. split; [lia|]. intros E. destruct t as [|e [|e' t']]; [discriminate E| |rewrite !zlen_cons in E; pose proof (zlen_nonneg t'); lia].
  destruct Hlast as [?|Hlast]; [lia|done].
Qed.

(** How much the tail is more than nothing does not matter. *)
Lemma rne_tail Y tau X k : 12 ≤ k → 0 ≤ tau ≤ 3 → (tau = 0 ∧ X = 2 * Y ∨ 0 < tau ∧ (X = 2 * Y + 1 ∨ Y mod 512 = 0 ∧ 2 * Y + 2 ≤ X ≤ 2 * Y + 3)) →
  rne (4 * Y + tau) (k + 1) = rne X k.
Proof.
  intros Hk Ht HX. pose proof (rne_sticky (4 * Y + tau) 2 k ltac:(lia) ltac:(lia)) as E. replace (k + 2 - 1) with (k + 1) in E by lia. rewrite <- E.
  change (2 ^ 2) with 4. replace ((4 * Y + tau) / 4) with Y by lia. replace ((4 * Y + tau) mod 4) with tau by lia. clear E.
  destruct HX as [[-> ->]|[Ht0 HX]]; [cbn; f_equal; lia|]. replace (tau =? 0) with false by lia.
  destruct HX as [->|[Hm HX]]; [done|].
  pose proof (rne_sticky (2 * Y + 1) 10 (k - 9) ltac:(lia) ltac:(lia)) as E1. pose proof (rne_sticky X 10 (k - 9) ltac:(lia) ltac:(lia)) as E2.
  change (2 ^ 10) with 1024 in *. replace (k - 9 + 10 - 1) with k in * by lia.
  replace ((2 * Y + 1) mod 1024 =? 0) with false in E1 by lia. replace (X mod 1024 =? 0) with false in E2 by lia.
  replace ((2 * Y + 1) / 1024) with (X / 1024) in E1 by lia. congruence.
Qed.

(** ** The number *)

Section quotient.
Context (p mx : Z) (Hf : narrow p mx) (s n d : Z) (Hs : s = 1 ∨ s = -1) (Hn : 0 < n) (Hd : 0 < d).

(** The bits that are kept, rounded, are the quotient in the format. *)
Lemma kept_quotient ls K e2 tau (Y := limbs (head_limbs 4 ls)) (T := drop 4 ls) (D := pow9 (zlen T))
    (top := 113 + e2) (bits := Z.min p (top - emin p mx)) :
  good ls → 0 ≤ K → 0 ≤ e2 + K → Y < 2 ^ 113 → 2 ^ 112 * D ≤ Y * D + limbs T →
  (Y * D + limbs T) * 2 ^ (e2 + K) * d = n * 2 ^ K * D → emin p mx + 2 ≤ top → tail_ok T tau →
  F p mx (s * rne (4 * Y + tau) (115 - bits)) (top - bits) = quotient p mx s n d.
Proof using All.
  intros Hg HK HeK HY HYD E Htop Htau. destruct (narrow_range p mx Hf) as (Hp & Hpm & Em & Hpp).
  pose proof (pow9_pos (zlen T) (zlen_nonneg T)) as HD. fold D in HD. pose proof (pow2_pos K HK) as HpK. pose proof (pow2_pos (e2 + K) HeK) as Hpe.
  destruct (first_bits ls Hg HYD) as [HY1 HX]. fold Y T D in HX. set (W := limbs T) in *.
  assert (EX : stk (n * 2 ^ K) (d * 2 ^ (e2 + K)) = stk (Y * D + W) D).
  { rewrite <- (stk_scale (n * 2 ^ K) _ D) by nia. rewrite <- E. replace (d * 2 ^ (e2 + K) * D) with (D * (2 ^ (e2 + K) * d)) by lia.
    rewrite <- Z.mul_assoc. apply stk_scale; nia. }
  set (X := stk (Y * D + W) D) in *.
  assert (HXr : 2 ^ 113 ≤ X < 2 ^ 114) by (destruct HX as [[_ ->]|[_ [->|[Hm HX]]]]; lia).
  unfold quotient. rewrite (div_round p mx Hp Hpm (s <? 0) (Z.to_pos n) 0 false (Z.to_pos d) 0 K (e2 + K));
    rewrite ?Z2Pos.id, ?EX by lia; [|done|done|rewrite (digits2_unique X 114) by lia; lia].
  rewrite xorb_false_r. replace (0 - 0 + (e2 + K) - K - 1) with (e2 - 1) by lia.
  transitivity (rounds_to p mx s (X * 2 ^ 3) (top - 117)).
  2:{ unfold rounds_to. replace (top - 117) with (e2 - 1 - 3) by lia. apply binary_round_shift; [done..|]. rewrite !Z2Pos.id by lia. done. }
  rewrite <- (kept_rounds p mx Hf s (X * 2 ^ 3) top Hs ltac:(lia) ltac:(lia)). cbv zeta.
  replace (if top - emin p mx <? p then _ else _) with bits by (unfold bits; destruct (Z.ltb_spec (top - emin p mx) p); [destruct (Z.ltb_spec (top - emin p mx) 0)|]; lia).
  do 2 f_equal. replace (117 - bits) with (114 - bits + 3) by lia. rewrite rne_shift by lia. replace (115 - bits) with (114 - bits + 1) by lia.
  apply rne_tail; [lia|destruct Htau as [[_ ->]|[_ ?]]; lia|].
  destruct Htau as [[HT ->]|[HT Ht]], HX as [[HT' HX]|[HT' HX]]; try done; [left|right]; (split; [lia|done]).
Qed.
End quotient.

Definition sf_infinite (x : spec_float) : bool := match x with S754_infinity _ => true | _ => false end.

(** When the rounded number is an infinity *)
Lemma rounded_infinite p mx s R top : narrow p mx → (s = 1 ∨ s = -1) → 2 ^ (p - 1) ≤ R ≤ 2 ^ p → emin p mx + p ≤ top →
  sf_infinite (F p mx (s * R) (top - p)) = too_large p mx top R.
Proof.
  intros Hf Hs HR Htop. destruct (narrow_range p mx Hf) as (Hp & Hpm & Em & Hpp). pose proof (pow2_pos (p - 1) ltac:(lia)).
  assert (E2 : 2 ^ p = 2 * 2 ^ (p - 1)) by (rewrite <- pow2_S by lia; f_equal; lia).
  rewrite F_sign by nia. replace (Z.abs (s * R)) with R by (destruct Hs as [->| ->]; lia).
  rewrite (round_pack p mx) by (done || (rewrite ?Z2Pos.id by lia; lia)). rewrite Z2Pos.id by lia. unfold pack, too_large.
  destruct (Z.eqb_spec R (2 ^ p)) as [E|E].
  - destruct (2 ^ (p - 1)) as [|q|q]; [lia| |lia]. destruct (Z.leb_spec (top - p + 1) (mx - p)); cbn [sf_infinite]; lia.
  - destruct R as [|q|q]; [lia| |lia]. destruct (Z.leb_spec (top - p) (mx - p)); cbn [sf_infinite]; lia.
Qed.

(** ** Where the number lies *)

Section number.
Context (n d N E K : Z) (Hn : 0 < n) (Hd : 0 < d) (HN : 0 < N) (HK : 40000 ≤ K) (HE : 0 ≤ E + K) (Hval : N * 10 ^ (E + K) * d = n * 10 ^ K).
Let V := N * 10 ^ (E + K) * 2 ^ K.

Lemma value_ratio : V * d = n * 10 ^ K * 2 ^ K.
Proof using All. unfold V. rewrite <- Hval. ring. Qed.

Lemma value_above i : 0 ≤ i → d ≤ n * 2 ^ i → 10 ^ K * 2 ^ K ≤ V * 2 ^ i.
Proof using All.
  intros Hi H. pose proof value_ratio as Er. pose proof (pow10_pos K ltac:(lia)) as H10. pose proof (pow2_pos K ltac:(lia)) as H2.
  apply (Z.mul_le_mono_pos_r _ _ d Hd). replace (V * 2 ^ i * d) with (V * d * 2 ^ i) by ring. rewrite Er. clear Er Hval.
  set (a := 10 ^ K) in *. set (b := 2 ^ K) in *. set (c := 2 ^ i) in *. clearbody a b c. assert (d * (a * b) ≤ n * c * (a * b)) by nia. nia.
Qed.

(** It has a top bit. *)
Lemma value_top i : 0 ≤ i ≤ 2000 → d ≤ n * 2 ^ i → ∃ L, 1 - i ≤ L ∧ 2 ^ (L - 1 + K) * 10 ^ K ≤ V ∧ V < 2 ^ (L + K) * 10 ^ K.
Proof using All.
  intros Hi H. pose proof (value_above i ltac:(lia) H) as Ha. pose proof (pow10_pos K ltac:(lia)) as H10.
  assert (HV : 2 ^ (K - i) * 10 ^ K ≤ V).
  { apply (Z.mul_le_mono_pos_r _ _ (2 ^ i)); [apply pow2_pos; lia|]. eapply Z.le_trans; [|exact Ha].
    replace (2 ^ K) with (2 ^ (K - i) * 2 ^ i) by (rewrite <- pow2_add by lia; f_equal; lia). lia. }
  set (q := V / 10 ^ K). pose proof (Z.div_mod V (10 ^ K) ltac:(lia)) as Ed. pose proof (Z.mod_pos_bound V (10 ^ K) H10) as Hm. fold q in Ed.
  assert (Hq : 2 ^ (K - i) ≤ q) by (apply Z.div_le_lower_bound; lia). pose proof (pow2_pos (K - i) ltac:(lia)).
  destruct (Zdigits2_bounds q ltac:(lia)) as [[Hl Hu] _]. pose proof (Zdigits2_ge q (K - i + 1)) as Hge. rewrite Z.add_simpl_r in Hge.
  exists (Zdigits2 q - K). split; [lia|]. replace (Zdigits2 q - K - 1 + K) with (Zdigits2 q - 1) by lia. rewrite Z.sub_add.
  set (a := 10 ^ K) in *. set (l := 2 ^ (Zdigits2 q - 1)) in *. set (u := 2 ^ Zdigits2 q) in *. clearbody a l u q. nia.
Qed.

Context (L : Z) (HLK : 1 ≤ L - 150 + K) (HV1 : 2 ^ (L - 1 + K) * 10 ^ K ≤ V) (HV2 : V < 2 ^ (L + K) * 10 ^ K).

Lemma top_ge i : 0 ≤ i → d ≤ n * 2 ^ i → 1 - i ≤ L.
Proof using All.
  intros Hi H. pose proof (value_above i Hi H) as Ha. pose proof (pow10_pos K ltac:(lia)) as H10.
  assert (2 ^ K < 2 ^ (L + K + i)) as Hlt; [|apply pow2_lt_inv in Hlt; lia].
  rewrite pow2_add by lia. pose proof (pow2_pos i Hi). set (a := 10 ^ K) in *. set (u := 2 ^ (L + K)) in *. set (b := 2 ^ K) in *. set (c := 2 ^ i) in *.
  clearbody V. clearbody a u b c. assert (V * c < u * a * c) by nia. assert (a * b < a * (u * c)) by lia. nia.
Qed.

Lemma top_le rp r : N < 10 ^ (rp - E) → E ≤ rp → rp ≤ r → 0 ≤ r → L ≤ 4 * r.
Proof using All.
  intros HNr HEr Hr Hr0. pose proof (pow10_pos K ltac:(lia)) as H10. pose proof (pow2_pos K ltac:(lia)) as H2.
  assert (2 ^ (L - 1 + K) < 2 ^ (4 * r + K)) as Hlt; [|apply pow2_lt_inv in Hlt; lia].
  assert (HVr : V < 10 ^ (r + K) * 2 ^ K).
  { unfold V. apply Z.mul_lt_mono_pos_r; [done|]. apply (Z.lt_le_trans _ (10 ^ (rp - E) * 10 ^ (E + K))).
    - apply Z.mul_lt_mono_pos_r; [by apply pow10_pos|done].
    - rewrite <- Z.pow_add_r by lia. apply Z.pow_le_mono_r; lia. }
  assert (H16 : 10 ^ r ≤ 2 ^ (4 * r)) by (rewrite Z.pow_mul_r by lia; apply Z.pow_le_mono_l; lia).
  rewrite Z.pow_add_r in HVr by lia. rewrite (pow2_add (4 * r)) by lia.
  set (a := 10 ^ K) in *. set (b := 2 ^ K) in *. set (c := 2 ^ (4 * r)) in *. set (u := 2 ^ (L - 1 + K)) in *. set (w := 10 ^ r) in *.
  clearbody V. clearbody a b c u w. assert (u * a < w * b * a) by lia. assert (u < w * b) by nia. nia.
Qed.
End number.

(** ** Off the edge of the array

    [x[z-1] = 0] with [z] masked to zero is the element in front of the array.
    It happens when the number, less than 10^18, ends left of where its digits
    began; then it has many factors 5. *)
Definition no_edge (N E : Z) : Prop := 0 ≤ E ∨ N mod 10 ^ (- E) = 0 ∨ N mod 5 ^ (9 - E) ≠ 0.

Lemma divide_5 k j a : 0 ≤ k → 0 ≤ j → Z.divide (5 ^ k) (a * 2 ^ j) → Z.divide (5 ^ k) a.
Proof.
  intros Hk Hj H. rewrite Z.mul_comm in H. apply Z.gauss in H; [done|].
  apply Z.coprime_pow_l; [done|]. by apply Z.coprime_pow_r.
Qed.

Lemma edge_integer M q e I K : 0 ≤ q ≤ 2 → e ≤ 0 → 0 < I → 0 ≤ K → M * 10 ^ (9 * (1 + q)) = I * 2 ^ (- e) → I * 10 ^ K < 10 ^ (9 * q) * 10 ^ K → False.
Proof.
  intros Hq He HI HK HE Hlt. pose proof (pow10_pos K HK). assert (HIlt : I < 10 ^ (9 * q)) by nia.
  assert (Hdiv : Z.divide (5 ^ (9 * (1 + q))) I).
  { apply (divide_5 _ (- e)); [lia|lia|]. exists (M * 2 ^ (9 * (1 + q))). rewrite <- HE.
    change 10 with (2 * 5). rewrite Z.pow_mul_l. lia. }
  apply Z.divide_pos_le in Hdiv; [|done]. assert (q = 0 ∨ q = 1 ∨ q = 2) as [->|[->| ->]] by lia; lia.
Qed.

Lemma edge_free N E K l zf q e rp : 0 < N → 40000 ≤ K → 0 ≤ E + K → 0 ≤ e + K → no_edge N E → 1 ≤ zf ≤ 3 - q → 0 ≤ q ≤ 2 → e ≤ 0 →
  N < 10 ^ (rp - E) → E ≤ rp → rp ≤ 9 * q → l * 10 ^ (36 - 9 * zf + K) * 2 ^ (e + K) = N * 10 ^ (E + K) * 2 ^ K → False.
Proof.
  intros HN HK HE HeK Hno Hz Hq He HNr HEr Hr H. set (M := l * 10 ^ (36 - 9 * zf - 9 * (1 + q))).
  pose proof (pow10_pos K ltac:(lia)) as H10. pose proof (pow2_pos (e + K) HeK) as H2.
  assert (H1 : M * 10 ^ (9 * (1 + q)) * 10 ^ K = N * 10 ^ (E + K) * 2 ^ (- e)).
  { apply (Z.mul_cancel_r _ _ (2 ^ (e + K))); [lia|]. unfold M.
    replace (36 - 9 * zf + K) with (36 - 9 * zf - 9 * (1 + q) + (9 * (1 + q) + K)) in H by lia. rewrite (Z.pow_add_r 10 (_ - _)), (Z.pow_add_r 10 (9 * _)) in H by lia.
    replace (2 ^ K) with (2 ^ (- e) * 2 ^ (e + K)) in H by (rewrite <- pow2_add by lia; f_equal; lia). lia. }
  clear H. assert (Hlt : N * 10 ^ (E + K) < 10 ^ (9 * q) * 10 ^ K).
  { apply (Z.lt_le_trans _ (10 ^ (rp - E) * 10 ^ (E + K))).
    - apply Z.mul_lt_mono_pos_r; [by apply pow10_pos|done].
    - rewrite <- !Z.pow_add_r by lia. apply Z.pow_le_mono_r; lia. }
  assert (Hint : ∀ I, N * 10 ^ (E + K) = I * 10 ^ K → False).
  { intros I EI. pose proof (pow10_pos (E + K) HE). rewrite EI in H1, Hlt. apply (edge_integer M q e I K); try done; [nia|lia|].
    apply (Z.mul_cancel_r _ _ (10 ^ K)); lia. }
  destruct (Z_lt_le_dec E 0) as [HE0|HE0].
  - destruct Hno as [?|[Hno|Hno]]; [lia| |].
    + apply Z.mod_divide in Hno as [I EI]; [|pose proof (pow10_pos (- E)); lia]. apply (Hint I). rewrite EI.
      rewrite <- Z.mul_assoc, <- Z.pow_add_r by lia. do 2 f_equal. lia.
    + apply Hno. apply Z.mod_divide; [apply Z.pow_nonzero; lia|]. apply (divide_5 _ (- e)); [lia|lia|].
      exists (M * 5 ^ (9 * q) * 2 ^ (9 * (1 + q) - E)). apply (Z.mul_cancel_r _ _ (10 ^ (E + K))); [pose proof (pow10_pos (E + K) HE); lia|].
      transitivity (N * 10 ^ (E + K) * 2 ^ (- e)); [lia|]. rewrite <- H1.
      replace K with (- E + (E + K)) at 1 by lia. rewrite (Z.pow_add_r 10 (- E)) by lia.
      set (G := 10 ^ (E + K)). clearbody G. replace (9 * (1 + q) - E) with (9 * (1 + q) + - E) by lia. replace (9 - E) with (9 + - E) by lia. rewrite !Z.pow_add_r by lia.
      replace (9 * (1 + q)) with (9 + 9 * q) by lia. rewrite !Z.pow_add_r by lia. change 10 with (2 * 5). rewrite !Z.pow_mul_l. lia.
  - apply (Hint (N * 10 ^ E)). rewrite Z.pow_add_r by lia. lia.
Qed.

(** ** The ring *)

(** The end of [dec_value] *)
Definition ring_value (bits emin sign rp k : Z) (x : ring) : M rc_scan ld :=
  z <- drop_zeros x k ;;
  n <- align_radix (Ringnum x 0 z rp 0) ;;
  n <- upscale n ;;
  n <- downscale n ;;
  let* (y, x, z) := assemble (n_x n) (n_a n) (n_z n) in
  dec_round sign bits emin y x (n_a n) z (n_e2 n).

Section ring.
Context (n d N E K : Z) (Hn : 0 < n) (Hd : 0 < d) (HN : 0 < N) (HK : 40000 ≤ K) (HE : 0 ≤ E + K) (Hval : N * 10 ^ (E + K) * d = n * 10 ^ K).
Let V := N * 10 ^ (E + K) * 2 ^ K.
Context (L : Z) (HLK : 1 ≤ L - 150 + K) (HV1 : 2 ^ (L - 1 + K) * 10 ^ K ≤ V) (HV2 : V < 2 ^ (L + K) * 10 ^ K).
Context (ls : list Z) (rp : Z) (Hls : limbs ls * 10 ^ (rp - 9 * zlen ls + K) = N * 10 ^ (E + K)) (HErp : E ≤ rp) (Hrp : -1400 ≤ rp ≤ 540) (Hlen : zlen ls ≤ 1778).
Context (HL : -1100 ≤ L ≤ 2160).

(** Aligned, scaled up and down: the window that is assembled, which is four
    limbs before the point. *)
Lemma scale_run x (f : rc_scan) : cells x 0 ls → Forall limb_lt ls → 0 < hd 0 ls → List.last ls 0 ≠ 0 →
  ∃ n1 n2 n3 A l P, align_radix (Ringnum x 0 (zlen ls) rp 0) f = Ret n1 f ∧ upscale n1 f = Ret n2 f ∧ downscale n2 f = Ret n3 f ∧
    ring_is n3 A l ∧ good l ∧ small_limbs l th = true ∧ zlen l ≤ 2046 ∧ n_e2 n3 + 113 ≤ L ∧ 0 ≤ n_e2 n3 + K ∧
    9 * zlen l ≤ 36 + K ∧ l ≠ [] ∧ limbs l * 10 ^ (36 - 9 * zlen l + K) * 2 ^ (n_e2 n3 + K) = V ∧
    rp ≤ 9 * P ≤ rp + 8 ∧ A = P - 4.
Proof using All.
  intros Hx Hlt Hhd Hlast.
  destruct (align_radix_run x ls rp f Hx Hlt Hhd Hlast ltac:(lia)) as (n1 & A1 & ls1 & E1 & [Hr1 Hg1 H9 He1 [HA1 Hz1] Hpl Hal]).
  assert (Hv1 : has_value K V n1 ls1).
  { split; [lia|lia|]. rewrite He1. unfold V. f_equal. rewrite <- Hls.
    replace (n_rp n1 - 9 * zlen ls1 + K) with (n_rp n1 + 9 * A1 - rp + (rp - 9 * zlen ls1 - 9 * A1 + K)) by lia.
    rewrite (Z.pow_add_r 10 (_ - rp)) by lia. rewrite Z.mul_assoc, Hal, <- Z.mul_assoc. f_equal. unfold pow9. rewrite <- Z.pow_add_r by lia. f_equal. lia. }
  assert (Hi1 : ring_inv K V n1 A1 n1 A1 ls1) by (split; done).
  destruct (upscale_run K V L ltac:(lia) HLK HV1 HV2 n1 A1 ls1 f Hi1 He1 ltac:(lia) ltac:(lia) ltac:(lia))
    as (n2 & A2 & ls2 & E2 & Hi2 & He2 & HA2 & Hz2 & Hc2).
  pose proof Hi2 as [Hr2 Hg2 Hv2 H92 Hpl2].
  assert (Hroom : room = 313) by done. pose proof (zlen_nonneg ls2).
  destruct (downscale_run K V L ltac:(lia) HLK HV1 HV2 n1 A1 n2 A2 ls2 f Hi2 He2 ltac:(lia) ltac:(lia) ltac:(lia))
    as (n3 & A3 & ls3 & E3 & [Hr3 Hg3 [Hv31 Hv32 Hv33] H93 Hpl3] & He3 & Hrp3 & Hsm & Hee & HA3 & HA32).
  exists n1, n2, n3, A3, ls3, ((n_rp n1 + 9 * A1) / 9). rewrite Hrp3 in *.
  pose proof (zlen_nonneg ls3). repeat (split; [first [done|lia|by apply good_ne]|]). lia.
Qed.

Context (p mx : Z) (Hf : narrow p mx) (s : Z) (Hs : s = 1 ∨ s = -1).

Lemma ring_value_run x j (f : rc_scan) : cells x 0 (ls ++ replicate j 0) → Forall limb_lt ls → 0 < hd 0 ls → List.last ls 0 ≠ 0 →
  zlen ls + Z.of_nat j ≤ 2000 → no_edge N E → N < 10 ^ (rp - E) → emin p mx + 2 ≤ L →
  ∃ y f', ring_value p (emin p mx) s rp (zlen ls + Z.of_nat j) x f = Ret y f' ∧ to_format p mx y = quotient p mx s n d ∧
    (f' = f ∨ f' = Scan (sc_p f) ERANGE) ∧
    (emin p mx + p ≤ L → f' = if sf_infinite (quotient p mx s n d) then Scan (sc_p f) ERANGE else f).
Proof using All.
  intros Hx Hlt Hhd Hlast Hj Hno HNr HLe. assert (Hne : ls ≠ []) by (by intros ->). destruct (narrow_range p mx Hf) as (Hp & Hpm & Em & Hpp).
  destruct (scale_run x f) as (n1 & n2 & n3 & A & l & P & E1 & E2 & E3 & (Ha & Hz & Hc) & Hg & Hsm & Hl2046 & He & HeK & H9 & Hlne & HV & HP & HA);
    [by apply cells_app in Hx as [? _]|done..|].
  unfold ring_value. rewrite (bind_run _ _ _ _ _ (drop_zeros_run x ls j f Hx ltac:(lia) Hne Hlast)), (bind_run _ _ _ _ _ E1), (bind_run _ _ _ _ _ E2), (bind_run _ _ _ _ _ E3).
  rewrite Ha, Hz. pose proof (zlen_pos l Hlne) as Hl0. set (e2 := n_e2 n3) in *. clearbody e2.
  destruct (small_limbs_true l Hsm (good_limbs _ Hg)) as [HY0 HY].
  assert (Hedge : ∀ j, zlen l ≤ j < 4 → mask (A + j) ≠ 2047).
  { intros j' Hj' Hm. rewrite mask_mod in Hm. assert (Hq : 0 ≤ 3 - j' ≤ 2 ∧ P = 3 - j') by lia. destruct Hq as [Hq HPq].
    pose proof (zlen_nonneg ls).
    pose proof (top_le n d N E K Hn Hd HN HK HE Hval L HLK HV1 HV2 rp 18 HNr ltac:(lia) ltac:(lia) ltac:(lia)).
    apply (edge_free N E K (limbs l) (zlen l) (3 - j') e2 rp); try done; lia. }
  destruct (assemble_run (n_x n3) A l f (good_limbs _ Hg) Hc Hl2046 HY Hedge) as (x' & Hx' & Ey). rewrite (bind_run _ _ _ _ _ Ey).
  set (Y := limbs (head_limbs 4 l)) in *. set (T := drop 4 l) in *. set (D := pow9 (zlen T)).
  assert (HlT : Forall limb T) by (apply Forall_drop, Hg). pose proof (pow9_pos (zlen T) (zlen_nonneg T)) as HD. fold D in HD.
  pose proof (pow10_pos K ltac:(lia)) as H10. pose proof (pow2_pos (e2 + K) HeK) as H2.
  pose proof (head_tail l K H9 ltac:(lia)) as HYW. cbv zeta in HYW. fold T Y D in HYW.
  assert (HVD : (Y * D + limbs T) * 10 ^ K * 2 ^ (e2 + K) = V * D) by (rewrite HYW, <- HV; ring).
  (* the first 113 bits *)
  assert (HlowD : 2 ^ 112 * D ≤ Y * D + limbs T).
  { assert (H3 : 2 ^ (112 + (e2 + K)) * 10 ^ K ≤ V) by (eapply Z.le_trans; [|exact HV1]; apply Z.mul_le_mono_nonneg_r; [lia|]; apply Z.pow_le_mono_r; lia).
    rewrite pow2_add in H3 by lia. clear -H3 HVD HD H10 H2. set (a := 10 ^ K) in *. set (u := 2 ^ (e2 + K)) in *. clearbody a u V D Y.
    apply (Z.mul_le_mono_pos_r _ _ (a * u)); [nia|]. nia. }
  destruct (first_bits l Hg HlowD) as [HY1 _]. fold Y in HY1.
  assert (HtopL : L ≤ 113 + e2).
  { pose proof (high_bits l Hg HY) as Hhi. cbv zeta in Hhi. fold T Y D in Hhi.
    assert (H3 : 2 ^ (L - 1 + K) < 2 ^ (113 + (e2 + K))); [|apply pow2_lt_inv in H3; lia]. rewrite (pow2_add 113) by lia.
    clear -HV1 HVD HD H10 H2 Hhi. set (a := 10 ^ K) in *. set (u := 2 ^ (e2 + K)) in *. set (w := 2 ^ (L - 1 + K)) in *. clearbody a u w V D Y.
    apply (Z.mul_lt_mono_pos_r (a * D)); [nia|]. assert (w * a * D ≤ V * D) by nia. assert ((Y * D + limbs T) * (a * u) < 2 ^ 113 * D * (a * u)) by nia. lia. }
  pose proof (tail_size l ltac:(lia) (good_last _ Hg)) as HzT. fold T in HzT.
  destruct (dec_round_run p mx Hf s Hs Y L x' A T f ltac:(lia) ltac:(lia) Hx' (proj1 HzT) HlT (proj2 HzT)) as (tau & y & f' & Htau & Er & Hy & Hf1 & Hf2).
  exists y, f'. replace e2 with (L - 113) by lia. split; [exact Er|].
  assert (Hq : to_format p mx y = quotient p mx s n d).
  { rewrite Hy. replace L with (113 + e2) by lia. apply (kept_quotient p mx Hf s n d Hs Hn Hd l K e2 tau); try done; [lia| |lia].
    fold Y T D. apply (Z.mul_cancel_r _ _ (10 ^ K)); [lia|]. transitivity ((Y * D + limbs T) * 10 ^ K * 2 ^ (e2 + K) * d); [ring|].
    rewrite HVD. transitivity (V * d * D); [ring|]. unfold V. rewrite (value_ratio n d N E K) by done. ring. }
  split; [exact Hq|]. split; [done|]. intros Hnorm. rewrite (Hf2 Hnorm), <- Hq, Hy.
  replace (Z.min p (L - emin p mx)) with p by lia. rewrite rounded_infinite; [done|done|done| |lia].
  apply (kept_bounds s p Y tau); try done; [lia|]. destruct Htau as [[_ ->]|[_ ?]]; lia.
Qed.
End ring.
