(* ===== verification/DecCases.v ===== *)
(** [dec_value] (floatscan.c): the cases of [decfloat] behind the digits.  Zero,
    small integers and numbers that are too large do not need the ring's
    arithmetic; the others do ([ring_value_run]). *)
From S2P Require Import Prelude CMonad Kernel RcFd Ieee Rounding Ratio FloatBias FloatScan DecRing DecScale DecDigits DecRound DecValue.

(** ** Quotients that need no rounding, or none at all *)

Lemma quotient_integer p mx s n d I : narrow p mx → (s = 1 ∨ s = -1) → 0 < I → 0 < d → n = I * d → quotient p mx s n d = F p mx (s * I) 0.
Proof.
  intros Hf Hs HI Hd ->. destruct (narrow_range p mx Hf) as (Hp & Hpm & Em & Hpp). pose proof (pow2_pos (p + 3) ltac:(lia)) as Hc.
  assert (EX : stk (I * d * 2 ^ (p + 3)) (d * 2 ^ 0) = I * 2 ^ (p + 3 + 1)).
  { rewrite pow2_S by lia. replace (d * 2 ^ 0) with d by lia. replace (I * d * 2 ^ (p + 3)) with (I * 2 ^ (p + 3) * d + 0) by lia. rewrite stk_split by lia. cbn. lia. }
  pose proof (Zdigits2_bounds I HI) as [_ HdI].
  unfold quotient. rewrite (div_round p mx Hp Hpm (s <? 0) (Z.to_pos (I * d)) 0 false (Z.to_pos d) 0 (p + 3) 0);
    rewrite ?Z2Pos.id, ?EX by nia; [|lia|done|rewrite Zdigits2_shift by lia; lia].
  rewrite xorb_false_r, F_sign by nia. replace (s * I <? 0) with (s <? 0) by (destruct Hs as [->| ->]; lia). replace (Z.abs (s * I)) with I by (destruct Hs as [->| ->]; lia).
  replace (0 - 0 + 0 - (p + 3) - 1) with (0 - (p + 3 + 1)) by lia. apply binary_round_shift; [done|done|lia|]. rewrite !Z2Pos.id by nia. done.
Qed.

Lemma quotient_overflow p mx s n d : narrow p mx → 0 < n → 0 < d → d * 2 ^ mx ≤ n → quotient p mx s n d = S754_infinity (s <? 0).
Proof.
  intros Hf Hn Hd H. destruct (narrow_range p mx Hf) as (Hp & Hpm & Em & Hpp). pose proof (pow2_pos (p + 3) ltac:(lia)) as Hc. pose proof (pow2_pos mx ltac:(lia)) as Hmx.
  assert (HX : 2 ^ (mx + (p + 3)) * 2 ≤ stk (n * 2 ^ (p + 3)) (d * 2 ^ 0)).
  { replace (d * 2 ^ 0) with d by lia. unfold stk. assert (2 ^ (mx + (p + 3)) ≤ n * 2 ^ (p + 3) / d); [|destruct (_ =? 0); lia].
    apply Z.div_le_lower_bound; [done|]. rewrite pow2_add by lia. nia. }
  set (X := stk _ _) in *. pose proof (pow2_pos (mx + (p + 3)) ltac:(lia)). assert (HdX : mx + p + 5 ≤ Zdigits2 X).
  { apply Zdigits2_ge; [|lia]. replace (mx + p + 5 - 1) with (mx + (p + 3) + 1) by lia. rewrite pow2_S by lia. lia. }
  unfold quotient. rewrite (div_round p mx Hp Hpm (s <? 0) (Z.to_pos n) 0 false (Z.to_pos d) 0 (p + 3) 0); rewrite ?Z2Pos.id by lia; fold X; [|lia|done|lia].
  rewrite xorb_false_r. apply round_overflow; [done|done|]. rewrite Z2Pos.id by lia. lia.
Qed.

Lemma integer_finite p mx s I : narrow p mx → (s = 1 ∨ s = -1) → 0 < I < 2 ^ 100 → sf_infinite (F p mx (s * I) 0) = false.
Proof.
  intros Hf Hs HI. destruct (narrow_range p mx Hf) as (Hp & Hpm & Em & Hpp). rewrite F_sign by nia. replace (Z.abs (s * I)) with I by (destruct Hs as [->| ->]; lia).
  rewrite binary_round_spec by done. rewrite Z2Pos.id by lia. pose proof (Zdigits2_le I 100 ltac:(lia) ltac:(lia) ltac:(lia)) as Hdig.
  assert (Hl : last_bit p mx I 0 + 1 ≤ mx - p) by (unfold last_bit, fexp; lia). unfold pack.
  destruct (_ =? 2 ^ p).
  - destruct (2 ^ (p - 1)); try done. by rewrite (proj2 (Z.leb_le _ _)) by lia.
  - destruct (rnd _ _); try done. by rewrite (proj2 (Z.leb_le _ _)) by lia.
Qed.

(** A quotient of long doubles that is an integer *)
Lemma ld_div_exact s I P : (s = 1 ∨ s = -1) → 0 < I → 0 < P → I * P ≤ 2 ^ 113 → ld_div (ld_dyadic (s * (I * P)) 0) (ld_dyadic P 0) = ld_dyadic (s * I) 0.
Proof.
  intros Hs HI HP HIP. assert (HIP' : 0 < I * P) by nia. assert (P ≤ 2 ^ 113 ∧ I ≤ 2 ^ 113) as [HPb HIb] by nia.
  destruct (ld_finite (s * (I * P)) 0) as (m1 & e1 & -> & F1); [apply ld_fits_113; [lia|lia|done]|nia|].
  destruct (ld_finite P 0) as (m2 & e2 & -> & F2); [apply ld_fits_small; lia|lia|].
  replace (Z.abs (s * (I * P))) with (I * P) in F1 by (destruct Hs as [->| ->]; lia). rewrite Z.abs_eq in F2 by lia.
  set (k := Z.min 0 e1). set (l := Z.min 0 e2).
  pose proof (float_value _ _ _ _ _ _ F1 k ltac:(lia) ltac:(lia)) as V1. pose proof (float_value _ _ _ _ _ _ F2 l ltac:(lia) ltac:(lia)) as V2.
  rewrite !Z.sub_0_l in V1, V2. pose proof (pow2_pos (- k) ltac:(lia)) as Hk. pose proof (pow2_pos (- l) ltac:(lia)) as Hl. pose proof (pow2_pos 200 ltac:(lia)) as H200.
  assert (EX : stk (Zpos m1 * 2 ^ (e1 - k + (- l + 200))) (Zpos m2 * 2 ^ (e2 - l + - k)) = I * 2 ^ 201).
  { rewrite !pow2_add, !Z.mul_assoc by lia. rewrite <- V1, <- V2. replace (I * P * 2 ^ (- k) * 2 ^ (- l) * 2 ^ 200) with (I * 2 ^ 200 * (P * 2 ^ (- l) * 2 ^ (- k)) + 0) by ring.
    rewrite stk_split by nia. cbn [Z.eqb]. change (2 ^ 201) with (2 * 2 ^ 200). ring. }
  pose proof (Zdigits2_bounds I HI) as [_ HdI]. unfold ld_div.
  rewrite (div_round LDBL_MANT_DIG LDBL_MAX_EXP ltac:(done) ltac:(done) _ m1 e1 _ m2 e2 (e1 - k + (- l + 200)) (e2 - l + - k));
    rewrite ?EX; [|lia|lia|rewrite Zdigits2_shift by lia; unfold LDBL_MANT_DIG; lia].
  change (ld_dyadic (s * I) 0) with (F LDBL_MANT_DIG LDBL_MAX_EXP (s * I) 0). rewrite F_sign by nia.
  rewrite (proj2 (Z.ltb_ge P 0)), xorb_false_r by lia. replace (s * (I * P) <? 0) with (s * I <? 0) by (destruct Hs as [->| ->]; lia). replace (Z.abs (s * I)) with I by (destruct Hs as [->| ->]; lia).
  replace (e1 - e2 + _ - _ - 1) with (0 - 201) by lia. apply binary_round_shift; [done|done|lia|]. rewrite !Z2Pos.id by nia. done.
Qed.

(** ** Decimal numbers *)

(** [s * N * 10^E], rounded to the format *)
Definition dec_num (N E : Z) : Z := N * 10 ^ Z.max E 0.
Definition dec_den (E : Z) : Z := 10 ^ Z.max (- E) 0.
Definition nearest (p mx s N E : Z) : spec_float :=
  if N =? 0 then S754_zero (s <? 0) else quotient p mx s (dec_num N E) (dec_den E).

Lemma dec_den_pos E : 0 < dec_den E.
Proof. apply pow10_pos. lia. Qed.
Lemma dec_num_pos N E : 0 < N → 0 < dec_num N E.
Proof. intros. unfold dec_num. pose proof (pow10_pos (Z.max E 0)). nia. Qed.

(** Powers of ten across an equation *)
Lemma pow10_cross M a I b u v : M * 10 ^ a = I * 10 ^ b → 0 ≤ a → 0 ≤ b → 0 ≤ u → 0 ≤ v → a + v = b + u → M * 10 ^ u = I * 10 ^ v.
Proof.
  intros H Ha Hb Hu Hv E. apply (Z.mul_cancel_r _ _ (10 ^ (a + v))); [pose proof (pow10_pos (a + v)); lia|].
  rewrite E at 2. rewrite !Z.pow_add_r by lia. transitivity (M * 10 ^ a * (10 ^ u * 10 ^ v)); [ring|]. rewrite H. ring.
Qed.

Lemma dec_value_eq N E K : 0 ≤ K → 0 ≤ E + K → N * 10 ^ (E + K) * dec_den E = dec_num N E * 10 ^ K.
Proof.
  intros HK HE. unfold dec_num, dec_den. rewrite <- !Z.mul_assoc, <- !Z.pow_add_r by lia. do 2 f_equal. lia.
Qed.

Lemma stored_first ds d : stored ds d → dec_text ds → hd 0 ds ≠ 48 → ds ≠ [] → zlen ds ≤ 16000 →
  ∃ x0, d_x d !! mask 0 = Some x0 ∧ 0 < x0 ∧ (zlen ds < 10 → x0 = decval ds).
Proof.
  intros [Hdc Hk Hj (ls & q & Hx & Hls & Hlt & Hq & Hxk & HV) _ _] Ht Hd Hne Hlen. pose proof (zlen_pos ds Hne) as Hz.
  pose proof (decval_ge ds Ht Hd Hne) as Hge. set (j := d_j d) in *. set (k := d_k d) in *. clearbody j k.
  destruct ls as [|v t].
  - change (zlen []) with 0 in Hls. exists q. assert (0 < j) by lia. rewrite <- Hls in Hxk. change (limbs []) with 0 in HV. pose proof (pow10_pos (zlen ds - 1)).
    split; [apply Hxk; lia|]. split; lia.
  - destruct Hx as [Hv _]. exists v. split; [done|]. apply Forall_cons in Hlt as [Hv1 Hlt]. unfold limb_lt in Hv1. rewrite zlen_cons in Hls.
    pose proof (limbs_lt t Hlt) as Hlim. pose proof (zlen_nonneg t). rewrite limbs_cons in HV. split.
    + destruct (Z.eq_dec v 0) as [->|]; [|lia]. exfalso. assert (decval ds < pow9 (zlen t) * 10 ^ j) by nia.
      unfold pow9 in *. rewrite <- Z.pow_add_r in * by lia. pose proof (Z.pow_le_mono_r 10 (9 * zlen t + j) (zlen ds - 1) ltac:(lia) ltac:(lia)). lia.
    + intros H10. assert (zlen t = 0 ∧ j = 0) as [Ht0 Hj0] by lia. rewrite Hj0 in *. destruct t; [|rewrite zlen_cons in Ht0; pose proof (zlen_nonneg t); lia].
      change (limbs []) with 0 in HV. change (10 ^ 0) with 1 in *. change (pow9 (zlen [])) with 1 in HV. lia.
Qed.

Section value.
Context (p mx : Z) (Hf : narrow p mx) (s : Z) (Hs : s = 1 ∨ s = -1).

(** A result that is an integer *)
Lemma integer_case I n d : 0 < I < 2 ^ 100 → 0 < d → n = I * d →
  to_format p mx (ld_dyadic (s * I) 0) = quotient p mx s n d ∧ sf_infinite (quotient p mx s n d) = false.
Proof using All.
  intros HI Hd Hn. destruct (narrow_range p mx Hf) as (Hp & Hpm & _). rewrite (quotient_integer p mx s n d I Hf Hs) by (done || lia). split.
  - apply (to_format_F LDBL_MANT_DIG LDBL_MAX_EXP); [done..|]. apply ld_fits_small; [destruct Hs as [->| ->]; lia|lia].
  - by apply integer_finite.
Qed.

Lemma times_sign a : 0 < a < 2 ^ 100 → ld_mul (ld_of_int s) (ld_of_int a) = ld_dyadic (s * a) 0.
Proof using Hs. intros Ha. unfold ld_of_int. rewrite ld_mul_dyadic; [f_equal; lia|apply ld_fits_small; lia|apply ld_fits_small; lia|lia|lia]. Qed.

(** "Optimize small to mid-size integers" *)
Lemma fast_case ds d ls rp (N := decval ds) (E := rp - zlen ds) : stored ds d → dec_text ds → 0 < N → Forall limb_lt ls → 0 < zlen ls →
  zlen ds ≤ 9 * zlen ls → limbs ls = N * 10 ^ (9 * zlen ls - zlen ds) → d_lnz d < 9 → d_lnz d ≤ rp < 18 →
  let x0 := hd 0 ls in
  0 < x0 < B9 ∧ 1 ≤ rp ∧ ∃ I, 0 < I < 2 ^ 100 ∧ dec_num N E = I * dec_den E ∧
    (rp < 9 → x0 = I * 10 ^ (9 - rp)) ∧ (9 ≤ rp → I = x0 * 10 ^ (rp - 9)).
Proof using All.
  intros [_ _ _ _ ([Hn1 Hn2] & A & HA) _] Ht HN Hl Hz Hz2 HV Hn9 Hrp x0. set (lnz := d_lnz d) in *. pose proof (decval_bounds ds Ht) as Hb. fold N in HA, Hb.
  set (z := zlen ls) in *. pose proof (pow10_pos (zlen ds - lnz) ltac:(lia)) as Hp1.
  assert (HA0 : 0 < A) by nia.
  assert (Hx0 : limbs ls = x0 * pow9 (z - 1) ∧ x0 = A * 10 ^ (9 - lnz) ∧ x0 < B9).
  { assert (HV2 : limbs ls = A * 10 ^ (9 - lnz) * pow9 (z - 1)).
    { rewrite HV, HA. unfold pow9. rewrite <- !Z.mul_assoc, <- !Z.pow_add_r by lia. do 2 f_equal. lia. }
    subst x0 z. destruct Hl as [|v t Hv Hl]; [done|]. cbn [hd]. rewrite limbs_cons, zlen_cons in *. replace (1 + zlen t - 1) with (zlen t) in * by lia.
    pose proof (limbs_lt t Hl). pose proof (limbs_nonneg t (Forall_limb t Hl)). unfold limb_lt in Hv.
    assert (v = A * 10 ^ (9 - lnz)) by nia. split; [nia|]. split; [done|lia]. }
  destruct Hx0 as (HV2 & Hx0 & Hx9). pose proof (pow10_pos (9 - lnz) ltac:(lia)). assert (Hx0p : 0 < x0) by nia. split; [lia|].
  assert (Hlnz : 1 ≤ lnz).
  { destruct (Z.eq_dec lnz 0) as [E0|]; [|lia]. rewrite E0, Z.sub_0_r in HA. nia. }
  split; [lia|]. assert (HNx : N * 10 ^ (9 * z - zlen ds) = x0 * 10 ^ (9 * (z - 1))) by (rewrite <- HV, HV2; done).
  unfold dec_num, dec_den. clearbody x0. clear HV2 HV. unfold B9 in Hx9. assert (Hb100 : 1000000000 * 10 ^ 8 < 2 ^ 100) by done. destruct (Z_lt_le_dec rp 9) as [H9|H9].
  - exists (A * 10 ^ (rp - lnz)). pose proof (pow10_pos (rp - lnz) ltac:(lia)). pose proof (pow10_pos (9 - rp) ltac:(lia)).
    assert (Hx0' : x0 = A * 10 ^ (rp - lnz) * 10 ^ (9 - rp)) by (rewrite Hx0, <- Z.mul_assoc, <- Z.pow_add_r by lia; do 2 f_equal; lia).
    split; [nia|]. split; [|split; [done|lia]]. eapply (pow10_cross _ (9 * z - zlen ds) _ (9 - rp + 9 * (z - 1))); try lia.
    rewrite HNx, Hx0', (Z.pow_add_r 10 (9 - rp)) by lia. ring.
  - exists (x0 * 10 ^ (rp - 9)). pose proof (pow10_pos (rp - 9) ltac:(lia)). pose proof (Z.pow_le_mono_r 10 (rp - 9) 8 ltac:(lia) ltac:(lia)).
    split; [nia|]. split; [|split; [lia|done]]. rewrite <- Z.mul_assoc, <- Z.pow_add_r by lia.
    eapply (pow10_cross _ (9 * z - zlen ds) _ (9 * (z - 1))); lia || exact HNx.
Qed.

(** The rest *)
Lemma ring_case ds x ls rp (f : rc_scan) (N := decval ds) (E := rp - zlen ds) : dec_text ds → 0 < N → cells x 0 ls → Forall limb_lt ls → 0 < hd 0 ls →
  zlen ls ≤ 1778 → zlen ds ≤ 9 * zlen ls → limbs ls = N * 10 ^ (9 * zlen ls - zlen ds) → -1400 ≤ rp ≤ 540 → zlen ds ≤ 16000 →
  no_edge N E → dec_den E ≤ dec_num N E * 2 ^ (- emin p mx - 1) →
  ∃ y f', ring_value p (emin p mx) s rp (zlen ls) x f = Ret y f' ∧ to_format p mx y = quotient p mx s (dec_num N E) (dec_den E) ∧
    (f' = f ∨ f' = Scan (sc_p f) ERANGE) ∧
    (dec_den E ≤ dec_num N E * 2 ^ (1 - emin p mx - p) → f' = if sf_infinite (quotient p mx s (dec_num N E) (dec_den E)) then Scan (sc_p f) ERANGE else f).
Proof using All.
  intros Ht HN Hx Hl Hhd Hz Hz2 HV Hrp Hlen Hno Hmin. destruct (narrow_range p mx Hf) as (Hp & Hpm & Em & Hpp).
  destruct (trim_split ls) as (j & Els & Hlast). set (ls0 := trim ls) in *.
  assert (Hne : ls0 ≠ []).
  { intros E0. rewrite E0 in Els. cbn [app] in Els. rewrite Els in Hhd. destruct j; cbn [replicate hd] in Hhd; lia. }
  destruct Hlast as [?|Hlast]; [done|]. clearbody ls0. pose proof (decval_bounds ds Ht) as Hb. fold N in Hb. pose proof (zlen_nonneg ds).
  assert (Ez : zlen ls = zlen ls0 + Z.of_nat j) by (rewrite Els, zlen_app, zlen_replicate; done). pose proof (zlen_nonneg ls0).
  assert (∃ K, K = 40000) as [K HK] by eauto. assert (HEK : 0 ≤ E + K) by (unfold E; lia).
  pose proof (dec_value_eq N E K ltac:(lia) HEK) as Hval. pose proof (dec_num_pos N E HN) as Hn. pose proof (dec_den_pos E) as Hd.
  destruct (value_top (dec_num N E) (dec_den E) N E K Hn Hd HN ltac:(lia) HEK Hval (- emin p mx - 1) ltac:(lia) Hmin) as (L & HL & HV1 & HV2).
  assert (HNr : N < 10 ^ (rp - E)) by (replace (rp - E) with (zlen ds) by (unfold E; lia); lia).
  pose proof (top_le (dec_num N E) (dec_den E) N E K Hn Hd HN ltac:(lia) HEK Hval L ltac:(lia) HV1 HV2 rp 540 HNr ltac:(unfold E; lia) ltac:(lia) ltac:(lia)) as HL2.
  assert (Hls : limbs ls0 * 10 ^ (rp - 9 * zlen ls0 + K) = N * 10 ^ (E + K)).
  { apply (pow10_cross _ (9 * Z.of_nat j) _ (9 * zlen ls - zlen ds)); try lia.
    rewrite <- HV, Els, limbs_trailing. done. }
  rewrite Els in Hx, Hl, Hhd. apply Forall_app in Hl as [Hl _]. rewrite Ez.
  destruct (ring_value_run (dec_num N E) (dec_den E) N E K Hn Hd HN ltac:(lia) HEK Hval L ltac:(lia) HV1 HV2 ls0 rp Hls ltac:(unfold E; lia) ltac:(lia) ltac:(lia) ltac:(lia)
    p mx Hf s Hs x j f Hx Hl ltac:(by destruct ls0) Hlast ltac:(lia) Hno HNr ltac:(lia)) as (y & f' & Ey & Hy & Hf1 & Hf2).
  exists y, f'. split; [exact Ey|]. split; [done|]. split; [done|]. intros Hnorm. apply Hf2.
  pose proof (top_ge (dec_num N E) (dec_den E) N E K Hn Hd HN ltac:(lia) HEK Hval L ltac:(lia) HV1 HV2 (1 - emin p mx - p) ltac:(lia) Hnorm). lia.
Qed.

Lemma dec_large N E dc : 10 ^ (dc - 1) ≤ N → 0 < N → 1 ≤ dc → 0 ≤ E + dc - 1 → dec_den E * 10 ^ (E + dc - 1) ≤ dec_num N E.
Proof using.
  intros HN HN0 Hdc HE. unfold dec_den, dec_num. rewrite <- Z.pow_add_r by lia.
  eapply Z.le_trans; [|apply Z.mul_le_mono_nonneg_r; [pose proof (pow10_pos (Z.max E 0)); lia|exact HN]]. rewrite <- Z.pow_add_r by lia. apply Z.pow_le_mono_r; lia.
Qed.

Lemma dec_small N E dc : N < 10 ^ dc → 0 < N → 0 ≤ dc → E + dc ≤ 0 → dec_num N E * 10 ^ (- (E + dc)) < dec_den E.
Proof using.
  intros HN HN0 Hdc HE. unfold dec_den, dec_num. replace (Z.max E 0) with 0 by lia. replace (Z.max (- E) 0) with (dc + - (E + dc)) by lia.
  rewrite (Z.pow_add_r 10 dc) by lia. pose proof (pow10_pos (- (E + dc)) ltac:(lia)). change (10 ^ 0) with 1. nia.
Qed.

(** A number with so many digits is an infinity. *)
Lemma large_case N E dc : 10 ^ (dc - 1) ≤ N → 0 < N → 1 ≤ dc → Z.quot (- emin p mx) 2 < E + dc →
  quotient p mx s (dec_num N E) (dec_den E) = S754_infinity (s <? 0).
Proof using All.
  intros HN HN0 Hdc Hbig. destruct (narrow_range p mx Hf) as (_ & _ & _ & Hpp).
  assert (H74 : 2 ^ 128 ≤ 10 ^ 74) by (apply Z.leb_le; vm_compute; reflexivity).
  assert (H537 : 2 ^ 1024 ≤ 10 ^ 537) by (apply Z.leb_le; vm_compute; reflexivity).
  assert (Hmx : ∃ m, Z.quot (- emin p mx) 2 = m ∧ 0 ≤ m ∧ 2 ^ mx ≤ 10 ^ m).
  { destruct Hpp as [[-> ->]|[-> ->]]; [exists 74|exists 537]; split; try done; lia. }
  destruct Hmx as (m & Em & Hm0 & Hm). clear H74 H537. apply quotient_overflow; [done|by apply dec_num_pos|apply dec_den_pos|].
  eapply Z.le_trans; [|apply (dec_large N E dc); lia]. apply Z.mul_le_mono_nonneg_l; [pose proof (dec_den_pos E); lia|].
  eapply Z.le_trans; [exact Hm|]. apply Z.pow_le_mono_r; lia.
Qed.

Lemma overflowed_infinite : overflowed s = S754_infinity (s <? 0).
Proof using Hs. destruct Hs as [->| ->]; vm_compute; reflexivity. Qed.

(** From the padded digits on *)
Definition padded_value (lrp lnz : Z) (x : ring) (k : Z) : M rc_scan ld :=
  let rp := s32 lrp in
  x0 <- rd x 0 ;;
  let bitlim := p - 3 * (rp - 9) in
  let y := ld_mul (ld_of_int s) (ld_of_int x0) in
  if (lnz <? 9) && (lnz <=? rp) && (rp <? 18) && (rp =? 9) then ret y
  else if (lnz <? 9) && (lnz <=? rp) && (rp <? 9) then
    p10 <- p10_at (8 - rp) ;; ret (ld_div y (ld_of_int p10))
  else if (lnz <? 9) && (lnz <=? rp) && (rp <? 18) && ((30 <? bitlim) || (Z.shiftr x0 bitlim =? 0)) then
    p10 <- p10_at (rp - 10) ;; ret (ld_mul y (ld_of_int p10))
  else ring_value p (emin p mx) s rp k x.

(** The result, and errno *)
Definition rounded_to (q : spec_float) (N E : Z) (f : rc_scan) (r : outcome rc_scan ld) : Prop :=
  ∃ y f', r = Ret y f' ∧ to_format p mx y = q ∧ (f' = f ∨ f' = Scan (sc_p f) ERANGE) ∧
    (N = 0 ∨ dec_den E ≤ dec_num N E * 2 ^ (1 - emin p mx - p) → f' = if sf_infinite q then Scan (sc_p f) ERANGE else f).

Lemma rounded_integer I N E y (f : rc_scan) : 0 < I < 2 ^ 100 → dec_num N E = I * dec_den E → y = ld_dyadic (s * I) 0 →
  rounded_to (quotient p mx s (dec_num N E) (dec_den E)) N E f (Ret y f).
Proof using All.
  intros HI HnI ->. destruct (integer_case I _ _ HI (dec_den_pos E) HnI) as [H1 H2].
  eexists _, f. split; [reflexivity|]. split; [exact H1|]. split; [by left|]. by rewrite H2.
Qed.

Lemma padded_value_run ds d x ls lrp (f : rc_scan) (N := decval ds) (E := lrp - zlen ds) : stored ds d → dec_text ds → 0 < N → cells x 0 ls →
  Forall limb_lt ls → 0 < hd 0 ls → 0 < zlen ls ≤ 1778 → zlen ds ≤ 9 * zlen ls → limbs ls = N * 10 ^ (9 * zlen ls - zlen ds) → -1400 ≤ lrp ≤ 540 → zlen ds ≤ 16000 →
  no_edge N E → dec_den E ≤ dec_num N E * 2 ^ (- emin p mx - 1) →
  rounded_to (quotient p mx s (dec_num N E) (dec_den E)) N E f (padded_value lrp (d_lnz d) x (zlen ls) f).
Proof using All.
  intros Hst Ht HN Hx Hl Hhd Hz Hz3 HV Hlrp Hlen Hno Hmin. unfold padded_value. rewrite s32_id by (unfold INT_MIN, INT_MAX; lia). cbv zeta.
  assert (Hxh : x !! 0 = Some (hd 0 ls)) by (destruct ls as [|v t]; [done|destruct Hx as [Hv _]; by rewrite (mask_id 0) in Hv by lia]).
  rewrite (bind_run _ _ (hd 0 ls) f f) by (unfold rd; by rewrite Hxh).
  assert (Hfast : d_lnz d < 9 → d_lnz d ≤ lrp < 18 → 0 < hd 0 ls < B9 ∧ 1 ≤ lrp ∧ ∃ I, 0 < I < 2 ^ 100 ∧ dec_num N E = I * dec_den E ∧
    (lrp < 9 → hd 0 ls = I * 10 ^ (9 - lrp)) ∧ (9 ≤ lrp → I = hd 0 ls * 10 ^ (lrp - 9))) by (intros; apply (fast_case ds d); try done; lia).
  set (cb := (30 <? _) || _). clearbody cb.
  destruct ((d_lnz d <? 9) && (d_lnz d <=? lrp) && (lrp <? 18) && (lrp =? 9)) eqn:Hc1.
  { destruct Hfast as (Hh & _ & I & HI & HnI & _ & HI9); [lia|lia|]. apply (rounded_integer I); try done. rewrite times_sign by (unfold B9 in Hh; lia).
    rewrite HI9 by lia. replace (lrp - 9) with 0 by lia. do 2 f_equal. lia. }
  destruct ((d_lnz d <? 9) && (d_lnz d <=? lrp) && (lrp <? 9)) eqn:Hc2.
  { destruct Hfast as (Hh & Hr1 & I & HI & HnI & HI9 & _); [lia|lia|]. specialize (HI9 ltac:(lia)).
    rewrite (bind_run _ _ _ _ _ (proj1 (p10_run lrp f ltac:(lia)))). apply (rounded_integer I); try done. rewrite times_sign by (unfold B9 in Hh; lia).
    rewrite HI9. unfold ld_of_int. apply ld_div_exact; [done|lia|apply pow10_pos; lia|unfold B9 in Hh; lia]. }
  destruct ((d_lnz d <? 9) && (d_lnz d <=? lrp) && (lrp <? 18) && cb) eqn:Hc3.
  { destruct Hfast as (Hh & Hr1 & I & HI & HnI & _ & HI9); [lia|lia|]. specialize (HI9 ltac:(lia)).
    replace (lrp - 10) with (8 - (18 - lrp)) by lia. rewrite (bind_run _ _ _ _ _ (proj1 (p10_run (18 - lrp) f ltac:(lia)))). apply (rounded_integer I); try done.
    rewrite times_sign by (unfold B9 in Hh; lia). replace (9 - (18 - lrp)) with (lrp - 9) by lia.
    pose proof (Z.pow_le_mono_r 10 (lrp - 9) 8 ltac:(lia) ltac:(lia)). pose proof (pow10_pos (lrp - 9) ltac:(lia)).
    unfold ld_of_int. rewrite ld_mul_dyadic; [rewrite HI9; f_equal; lia|apply ld_fits_small; [destruct Hs as [->| ->]; unfold B9 in Hh; lia|lia]|apply ld_fits_small; lia|nia|lia]. }
  destruct (ring_case ds x ls lrp f Ht HN Hx Hl Hhd ltac:(lia) Hz3 HV Hlrp Hlen Hno Hmin) as (y & f' & Ey & Hy & Hf1 & Hf2).
  exists y, f'. split; [exact Ey|]. split; [done|]. split; [done|]. intros [?|Hnorm]; [lia|]. by apply Hf2.
Qed.

(** [dec_value], with the part behind the padding by name *)
Lemma dec_value_unfold bits emin0 lrp d : bits = p → emin0 = emin p mx → dec_value bits emin0 s lrp d =
  (x0 <- rd (d_x d) 0 ;;
   if x0 =? 0 then ret (signed_zero s)
   else if (lrp =? d_dc d) && (d_dc d <? 10) && ((30 <? p) || (Z.shiftr x0 p =? 0)) then ret (ld_mul (ld_of_int s) (ld_of_int x0))
   else if Z.quot (- emin p mx) 2 <? lrp then set_err ERANGE ;; ret (overflowed s)
   else if lrp <? emin p mx - 2 * LDBL_MANT_DIG then set_err ERANGE ;; ret (underflowed s)
   else let* (x, k) := pad_digits d in padded_value lrp (d_lnz d) x k).
Proof using. intros -> ->. unfold dec_value, padded_value, ring_value, pad_digits. cbv zeta. reflexivity. Qed.

Lemma dec_value_run ds d lrp (f : rc_scan) (N := decval ds) (E := lrp - zlen ds) : stored ds d → dec_text ds → hd 0 ds ≠ 48 → zlen ds ≤ 16000 →
  N = 0 ∨ no_edge N E ∧ dec_den E ≤ dec_num N E * 2 ^ (- emin p mx - 1) →
  rounded_to (nearest p mx s N E) N E f (dec_value p (emin p mx) s lrp d f).
Proof using All.
  intros Hst Ht Hd Hlen Hok. destruct (narrow_range p mx Hf) as (Hp & Hpm & Em & Hpp). unfold nearest.
  rewrite (dec_value_unfold p (emin p mx)) by done.
  destruct (decide (ds = [])) as [E0|Hne].
  { assert (HN : N = 0) by (unfold N; by rewrite E0). rewrite HN. cbn [Z.eqb]. pose proof (st_zero _ _ Hst E0) as H0.
    rewrite (bind_run _ _ 0 f f) by (unfold rd; by rewrite H0). exists (signed_zero s), f. split; [done|]. split; [done|]. split; [by left|done]. }
  pose proof (decval_ge ds Ht Hd Hne) as HNge. pose proof (decval_bounds ds Ht) as HNlt. fold N in HNge, HNlt. pose proof (zlen_pos ds Hne) as Hz.
  pose proof (pow10_pos (zlen ds - 1) ltac:(lia)). assert (HN : 0 < N) by lia. destruct Hok as [?|[Hno Hmin]]; [lia|].
  rewrite (proj2 (Z.eqb_neq N 0)) by lia.
  destruct (stored_first ds d Hst Ht Hd Hne Hlen) as (x0 & Hx0 & Hx0p & Hx0N). rewrite (mask_id 0) in Hx0 by lia.
  rewrite (bind_run _ _ x0 f f) by (unfold rd; by rewrite Hx0). rewrite (proj2 (Z.eqb_neq x0 0)) by lia. rewrite (st_dc _ _ Hst).
  destruct ((lrp =? zlen ds) && (zlen ds <? 10) && _) eqn:Hsmall.
  { (* a small integer *)
    assert (HE : E = 0 ∧ zlen ds ≤ 9) by (unfold E; lia). destruct HE as [HE Hz9]. assert (x0 = N) as -> by (apply Hx0N; lia).
    pose proof (Z.pow_le_mono_r 10 (zlen ds) 9 ltac:(lia) ltac:(lia)) as H9.
    apply (rounded_integer N); [lia|by rewrite HE|apply times_sign; lia]. }
  clear Hsmall. destruct (Z.ltb_spec (Z.quot (- emin p mx) 2) lrp) as [Hbig|Hbig].
  { rewrite (large_case N E (zlen ds)) by (unfold E; lia). rewrite overflowed_infinite.
    eexists _, (Scan (sc_p f) ERANGE). split; [reflexivity|]. split; [done|]. by split; [right|]. }
  assert (Hquot : Z.quot (- emin p mx) 2 ≤ 537) by (destruct Hpp as [[-> ->]|[-> ->]]; done).
  destruct (Z.ltb_spec lrp (emin p mx - 2 * LDBL_MANT_DIG)) as [Hlow|Hlow].
  { (* too small: excluded *)
    exfalso. unfold LDBL_MANT_DIG in Hlow. pose proof (dec_small N E (zlen ds) ltac:(lia) HN ltac:(lia) ltac:(unfold E; lia)) as Hsm.
    assert (2 ^ (- emin p mx - 1) ≤ 10 ^ (- (E + zlen ds))).
    { eapply Z.le_trans; [apply (Z.pow_le_mono_l 2 10); lia|]. apply Z.pow_le_mono_r; [done|]. unfold E. lia. }
    pose proof (dec_num_pos N E HN). nia. }
  unfold LDBL_MANT_DIG in Hlow. destruct (pad_digits_run ds d f Hst Ht Hd Hne Hlen) as (x & ls & Ep & Hx & Hl & Hhd & Hz1 & Hz3 & HV).
  rewrite (bind_run _ _ _ _ _ Ep). apply (padded_value_run ds); try done. lia.
Qed.
End value.
