(* ===== verification/FloatHex.v ===== *)
(** Hexadecimal floating constants: [hexfloat] of floatscan.c rounds correctly.

    The digits are collected in a 32-bit integer [x] and a fraction [y] of 85
    bits, the last of them sticky; the sum is rounded by adding a large [bias]
    and subtracting it again.  [hex_value_rounds] says that this is the Standard
    Library's [binary_round] of the number the digits mean, the theorems about
    strtof and strtod that the whole function, from the text on, is. *)
From S2P Require Import Prelude CMonad CMemory CBuffer Ctype Kernel RcFd Ieee Rounding FloatScan FloatBias.

(** ** [x] and [y] *)

Lemma half_85 : ld_dyadic 1 (-1) = ld_dyadic (2 ^ 84) (-85).
Proof. vm_compute. reflexivity. Qed.
Lemma one_85 : ld_of_int 1 = ld_dyadic (2 ^ 85) (-85).
Proof. vm_compute. reflexivity. Qed.

Lemma fits_85 n : Z.abs n ≤ 2 ^ 113 → ld_fits n (-85).
Proof. intros. by apply ld_fits_small. Qed.

(** [y >= 0.5] *)
Lemma ge_half n : 0 ≤ n < 2 ^ 85 → ld_ge (ld_dyadic n (-85)) (ld_dyadic 1 (-1)) = (2 ^ 84 <=? n).
Proof.
  intros Hn. destruct (Z.eq_dec n 0) as [->|]; [done|].
  rewrite half_85. apply ld_ge_dyadic; [apply fits_85; lia..|lia|lia].
Qed.

(** [y += y - 1], and [y += y] *)
Lemma double_minus_one n : 2 ^ 84 ≤ n < 2 ^ 85 →
  ld_add (ld_dyadic n (-85)) (ld_sub (ld_dyadic n (-85)) (ld_of_int 1)) = ld_dyadic (2 * n - 2 ^ 85) (-85).
Proof.
  intros Hn. rewrite one_85, ld_sub_dyadic by (apply fits_85; lia) || lia.
  rewrite ld_add_dyadic by (apply fits_85; lia) || lia. f_equal. lia.
Qed.

Lemma double_y n : 0 ≤ n < 2 ^ 85 → ld_add (ld_dyadic n (-85)) (ld_dyadic n (-85)) = ld_dyadic (2 * n) (-85).
Proof.
  intros Hn. destruct (Z.eq_dec n 0) as [->|]; [done|].
  rewrite ld_add_dyadic by (apply fits_85; lia) || lia. f_equal. lia.
Qed.

(** The number [x] and [y] make up, in units of [2^-85] *)
Lemma hex_normalize_spec x n e2 f : 0 < x < 2 ^ 32 → 0 ≤ n < 2 ^ 85 →
  ∃ x' n' j, hex_normalize x (ld_dyadic n (-85)) e2 f = Ret (x', ld_dyadic n' (-85), e2 - j) f ∧
    2 ^ 31 ≤ x' < 2 ^ 32 ∧ 0 ≤ n' < 2 ^ 85 ∧ 0 ≤ j ∧ x' * 2 ^ 85 + n' = (x * 2 ^ 85 + n) * 2 ^ j.
Proof.
  intros Hx Hn. enough (wp (hex_normalize x (ld_dyadic n (-85)) e2) (λ r f', f' = f ∧ ∃ x' n' j,
    r = (x', ld_dyadic n' (-85), e2 - j) ∧ 2 ^ 31 ≤ x' < 2 ^ 32 ∧ 0 ≤ n' < 2 ^ 85 ∧ 0 ≤ j ∧
    x' * 2 ^ 85 + n' = (x * 2 ^ 85 + n) * 2 ^ j) f) as H.
  { destruct (wp_inv _ _ _ H) as (r & f' & E & -> & x' & n' & j & -> & H'). eauto 10. }
  unfold hex_normalize. apply (wp_loop _ (λ '(x', y', e2') f', f' = f ∧ ∃ n' j, y' = ld_dyadic n' (-85) ∧ e2' = e2 - j ∧
    0 < x' < 2 ^ 32 ∧ 0 ≤ n' < 2 ^ 85 ∧ 0 ≤ j ∧ x' * 2 ^ 85 + n' = (x * 2 ^ 85 + n) * 2 ^ j)
    (λ '(x', _, _) _, 2 ^ 32 - x')).
  - intros [[x' y'] e2'] f' (_ & n' & j & _ & _ & H & _). lia.
  - intros [[x' y'] e2'] f' (-> & n' & j & -> & -> & H1 & H2 & H3 & H4).
    destruct (Z.ltb_spec x' 2147483648) as [Hlt|Hge].
    + rewrite ge_half by done. destruct (Z.leb_spec (2 ^ 84) n').
      * apply wp_ret. rewrite double_minus_one by lia. rewrite u32_id by lia. split; [|lia]. split; [done|].
        exists (2 * n' - 2 ^ 85), (j + 1). rewrite pow2_S by lia. repeat split; lia.
      * apply wp_ret. rewrite double_y by lia. rewrite u32_id by lia. split; [|lia]. split; [done|].
        exists (2 * n'), (j + 1). rewrite pow2_S by lia. repeat split; lia.
    + apply wp_ret. split; [done|]. exists x', n', j. repeat split; lia.
  - split; [done|]. exists n, 0. repeat split; lia.
  - lia.
Qed.

Lemma ld_of_int_85 x : 0 ≤ x < 2 ^ 32 → ∀ s, s = 1 ∨ s = -1 → ld_of_int (s * x) = ld_dyadic (s * (x * 2 ^ 85)) (-85).
Proof.
  intros Hx s Hs. unfold ld_of_int. rewrite <- (ld_dyadic_shift (s * x) 0 85) by lia. f_equal. lia.
Qed.

Lemma ld_mul_sign s a e : (s = 1 ∨ s = -1) → ld_fits a e → a ≠ 0 → ld_mul (ld_of_int s) (ld_dyadic a e) = ld_dyadic (s * a) e.
Proof.
  intros Hs Ha Ha0. unfold ld_of_int. rewrite ld_mul_dyadic; [done|apply ld_fits_small; lia|done|lia|done].
Qed.

(** All numbers strictly between two multiples of [2^86] round alike. *)
Lemma rne_between a r k : 87 ≤ k → 0 < r < 2 ^ 86 → rne (a * 2 ^ 86 + r) k = rne (2 * a + 1) (k - 85).
Proof.
  intros Hk Hr. replace k with (k - 85 + 86 - 1) at 1 by lia. rewrite <- rne_sticky by lia.
  replace (a * 2 ^ 86 + r) with (r + a * 2 ^ 86) by lia.
  rewrite Z.div_add, Z.mod_add, Z.div_small, Z.mod_small by lia. by replace (r =? 0) with false by lia.
Qed.

(** *** The sum [bias + sign*x + sign*y], when [bits] are kept *)
Section sum.
Context (s bits x n : Z) (Hs : s = 1 ∨ s = -1) (Hb : 0 ≤ bits < 113) (Hx : 2 ^ 31 ≤ x < 2 ^ 32) (Hn : 0 ≤ n < 2 ^ 85).
Let k := 117 - bits.

Lemma sum_bound r : 0 ≤ r < 2 ^ 85 → 0 ≤ x * 2 ^ 85 + r ∧ x * 2 ^ 85 + r < 2 ^ 117 ∧ 2 ^ 117 = 2 ^ bits * 2 ^ k ∧ 2 ^ bits ≤ 2 ^ 112.
Proof using All.
  intros Hr. rewrite <- pow2_add by lia. replace (bits + k) with 117 by lia.
  pose proof (Z.pow_le_mono_r 2 bits 112). lia.
Qed.

Lemma sum_rne r : 0 ≤ r < 2 ^ 85 → 0 ≤ rne (x * 2 ^ 85 + r) k ≤ 2 ^ bits.
Proof using All.
  intros Hr. destruct (sum_bound r Hr) as (H0 & H1 & H2 & _).
  split; [apply rne_nonneg; lia|]. apply rne_le; lia.
Qed.

Lemma sum_round M : 0 ≤ M < 2 ^ 112 * 2 ^ k →
  ld_dyadic (s * (2 ^ 112 * 2 ^ k + M)) (-85) = ld_dyadic (s * (2 ^ 112 + rne M k)) (32 - bits).
Proof using All. intros HM. rewrite ld_round_bias by lia. f_equal. lia. Qed.

Lemma sum_lt r : 0 ≤ r < 2 ^ 85 → x * 2 ^ 85 + r < 2 ^ 112 * 2 ^ k.
Proof using All. intros Hr. destruct (sum_bound r Hr) as (H0 & H1 & H2 & H3). pose proof (pow2_pos k). nia. Qed.

(** The first addition *)
Lemma sum_first : ld_add (ld_dyadic (s * 2 ^ 112) (32 - bits)) (ld_dyadic (s * (x * 2 ^ 85)) (-85)) =
  ld_dyadic (s * (2 ^ 112 * 2 ^ k + x * 2 ^ 85)) (-85).
Proof using All.
  rewrite <- (ld_dyadic_shift _ _ k) by lia. replace (32 - bits - k) with (-85) by lia.
  pose proof (pow2_pos k). rewrite ld_add_dyadic; [f_equal; lia| | |nia|nia].
  - apply ld_fits_pow; lia.
  - rewrite Z.mul_assoc. apply ld_fits_pow; lia.
Qed.

(** Without [y], the first addition rounds. *)
Lemma sum_only_x : ld_add (ld_dyadic (s * (2 ^ 112 * 2 ^ k + x * 2 ^ 85)) (-85)) (S754_zero (s <? 0)) =
  ld_dyadic (s * (2 ^ 112 + rne (x * 2 ^ 85) k)) (32 - bits).
Proof using All.
  pose proof (sum_rne 0 ltac:(lia)) as Hq. rewrite Z.add_0_r in Hq. pose proof (sum_lt 0 ltac:(lia)).
  pose proof (sum_bound 0 ltac:(lia)) as (_ & _ & _ & ?).
  rewrite sum_round by lia. apply ld_add_zero_r; [apply ld_fits_small; lia|lia].
Qed.

(** With all of [x] kept, the second one does. *)
Lemma sum_second : 32 ≤ bits → n ≠ 0 →
  ld_add (ld_dyadic (s * (2 ^ 112 * 2 ^ k + x * 2 ^ 85)) (-85)) (ld_dyadic (s * n) (-85)) =
  ld_dyadic (s * (2 ^ 112 + rne (x * 2 ^ 85 + n) k)) (32 - bits).
Proof using All.
  intros Hb32 Hn0. pose proof (sum_lt n Hn). pose proof (pow2_pos k).
  assert (x * 2 ^ 85 = x * 2 ^ (bits - 32) * 2 ^ k) as Ec by (rewrite <- Z.mul_assoc, <- pow2_add by lia; do 2 f_equal; lia).
  pose proof (pow2_pos (bits - 32)).
  rewrite ld_add_dyadic; [| |apply fits_85; lia|nia|nia].
  - rewrite <- Z.mul_add_distr_l, <- Z.add_assoc. apply sum_round. lia.
  - replace (s * _) with (s * (2 ^ 112 + x * 2 ^ (bits - 32)) * 2 ^ k) by (rewrite Ec; lia).
    apply ld_fits_pow; nia.
Qed.

(** With an odd [x] that is cut off, [y] changes nothing. *)
Lemma sum_sticky : bits < 31 → Z.odd x = true → rne (x * 2 ^ 85) k = rne (x * 2 ^ 85 + n) k.
Proof using All.
  intros Hb31 Hodd. apply Z.odd_spec in Hodd as [a ->].
  replace ((2 * a + 1) * 2 ^ 85) with (a * 2 ^ 86 + 2 ^ 85) by lia. rewrite <- Z.add_assoc.
  rewrite !rne_between by lia. done.
Qed.

Lemma sum_lost : bits < 31 → Z.odd x = true → n ≠ 0 →
  ld_add (ld_dyadic (s * (2 ^ 112 * 2 ^ k + x * 2 ^ 85)) (-85)) (ld_dyadic (s * n) (-85)) =
  ld_dyadic (s * (2 ^ 112 + rne (x * 2 ^ 85 + n) k)) (32 - bits).
Proof using All.
  intros Hb31 Hodd Hn0. pose proof (sum_rne n Hn) as Hq. pose proof (sum_lt 0 ltac:(lia)) as Hl.
  pose proof (Z.pow_le_mono_r 2 bits 111 ltac:(lia) ltac:(lia)) as Hb111. pose proof (pow2_pos k ltac:(lia)) as Hk.
  rewrite sum_round, sum_sticky by lia || done. set (q := rne (x * 2 ^ 85 + n) k) in *.
  replace (32 - bits) with (-85 + k) at 1 by lia. rewrite <- ld_dyadic_scale by lia.
  rewrite ld_add_dyadic; [|apply ld_fits_pow; lia|apply fits_85; lia|nia|nia].
  replace (s * (2 ^ 112 + q) * 2 ^ k + s * n) with (s * (2 ^ 112 * 2 ^ k + (q * 2 ^ k + n))) by lia.
  assert (Hn2 : 2 * n < 2 ^ k) by (pose proof (Z.pow_le_mono_r 2 87 k ltac:(lia) ltac:(lia)); lia).
  rewrite sum_round by nia. do 3 f_equal.
  rewrite rne_split by lia. by replace (2 * n <? 2 ^ k) with true by lia.
Qed.

Lemma sum_spec : 32 ≤ bits ∨ n = 0 ∨ bits < 31 ∧ Z.odd x = true →
  ld_add (ld_add (ld_dyadic (s * 2 ^ 112) (32 - bits)) (ld_dyadic (s * (x * 2 ^ 85)) (-85)))
         (if n =? 0 then S754_zero (s <? 0) else ld_dyadic (s * n) (-85)) =
  ld_dyadic (s * (2 ^ 112 + rne (x * 2 ^ 85 + n) k)) (32 - bits).
Proof using All.
  intros Hc. rewrite sum_first. destruct (Z.eqb_spec n 0) as [E|Hn0].
  - replace (x * 2 ^ 85 + n) with (x * 2 ^ 85) by lia. by apply sum_only_x.
  - destruct Hc as [?|[?|[??]]]; [by apply sum_second|done|by apply sum_lost].
Qed.
End sum.

(** The sign times [y], which may be a zero *)
Lemma ld_mul_sign_y s n : (s = 1 ∨ s = -1) → 0 ≤ n < 2 ^ 85 →
  ld_mul (ld_of_int s) (ld_dyadic n (-85)) = if n =? 0 then S754_zero (s <? 0) else ld_dyadic (s * n) (-85).
Proof.
  intros Hs Hn. destruct (Z.eqb_spec n 0) as [->|]; [by destruct Hs as [->| ->]|].
  apply ld_mul_sign; [done|apply fits_85; lia|done].
Qed.

(** Taking the bias away again, exactly *)
Lemma sub_bias s bits q : (s = 1 ∨ s = -1) → 0 ≤ bits < 113 → 0 ≤ q ≤ 2 ^ 112 →
  ld_sub (ld_dyadic (s * (2 ^ 112 + q)) (32 - bits)) (ld_dyadic (s * 2 ^ 112) (32 - bits)) = ld_dyadic (s * q) (32 - bits).
Proof.
  intros Hs Hb Hq. rewrite ld_sub_dyadic; [f_equal; lia|apply ld_fits_small; lia|apply ld_fits_small; lia|lia|lia].
Qed.

Lemma ld_mul_sign_x s x : (s = 1 ∨ s = -1) → 0 < x < 2 ^ 32 →
  ld_mul (ld_of_int s) (ld_of_int x) = ld_dyadic (s * (x * 2 ^ 85)) (-85).
Proof.
  intros Hs Hx. unfold ld_of_int at 2. rewrite <- (ld_dyadic_shift x 0 85) by lia.
  apply ld_mul_sign; [done| |lia]. apply ld_fits_pow; lia.
Qed.

(** All digits are kept: the addition of [y] rounds. *)
Lemma hex_round_all s x n : (s = 1 ∨ s = -1) → 2 ^ 31 ≤ x < 2 ^ 32 → 0 ≤ n < 2 ^ 85 →
  ld_add (ld_dyadic (s * (x * 2 ^ 85)) (-85)) (if n =? 0 then S754_zero (s <? 0) else ld_dyadic (s * n) (-85)) =
  ld_dyadic (s * rne (x * 2 ^ 85 + n) 4) (-81).
Proof.
  intros Hs Hx Hn.
  transitivity (ld_dyadic (s * (x * 2 ^ 85 + n)) (-85)).
  - assert (ld_fits (s * (x * 2 ^ 85)) (-85)) by (rewrite Z.mul_assoc; apply ld_fits_pow; lia).
    destruct (Z.eqb_spec n 0) as [->|]; [rewrite Z.add_0_r; apply ld_add_zero_r; [done|lia]|].
    rewrite ld_add_dyadic; [f_equal; lia|done|apply fits_85; lia|lia|lia].
  - replace (x * 2 ^ 85 + n) with (2 ^ 112 * 2 ^ 4 + (x * 2 ^ 85 + n - 2 ^ 116)) at 1 by lia.
    rewrite ld_round_bias by lia. f_equal. f_equal. rewrite <- rne_add_even by done. f_equal. lia.
Qed.

(** [hex_round] rounds the number [x + y] to [bits], to nearest and ties to even,
    but not when 31 of them are kept and some are in [y]. *)
Lemma hex_round_spec bits s x n : (s = 1 ∨ s = -1) → 0 ≤ bits ≤ 113 → 2 ^ 31 ≤ x < 2 ^ 32 → 0 ≤ n < 2 ^ 85 →
  bits ≠ 31 ∨ n = 0 →
  hex_round bits s x (ld_dyadic n (-85)) = ld_dyadic (s * rne (x * 2 ^ 85 + n) (117 - bits)) (32 - bits).
Proof.
  intros Hs Hb Hx Hn Hc. unfold hex_round. change LDBL_MANT_DIG with 113.
  rewrite (ld_zero_dyadic n (-85)) by (apply fits_85; lia).
  destruct (Z.ltb_spec bits 113) as [Hb113|].
  2:{ replace bits with 113 by lia. cbn [Z.ltb Z.compare andb Pos.compare Pos.compare_cont].
      change (32 - 113) with (-81). change (117 - 113) with 4.
      rewrite ld_mul_sign_y, ld_mul_sign_x by (done || lia). rewrite ld_add_zero_l by (lia || (rewrite Z.mul_assoc; apply ld_fits_pow; lia)).
      rewrite hex_round_all by done. apply ld_sub_zero_r. apply ld_fits_small; [|lia].
      pose proof (rne_nonneg (x * 2 ^ 85 + n) 4 ltac:(lia) ltac:(lia)). pose proof (rne_le (x * 2 ^ 85 + n) 4 (2 ^ 113)). lia. }
  rewrite bias_dyadic by lia.
  replace (ld_dyadic s (32 + 113 - bits - 1)) with (ld_dyadic (s * 2 ^ 112) (32 - bits))
    by (rewrite ld_dyadic_scale by lia; f_equal; lia).
  assert (Hsub : ∀ q, 0 ≤ q ≤ 2 ^ bits → ld_sub (ld_dyadic (s * (2 ^ 112 + q)) (32 - bits)) (ld_dyadic (s * 2 ^ 112) (32 - bits))
    = ld_dyadic (s * q) (32 - bits)).
  { intros q Hq. pose proof (Z.pow_le_mono_r 2 bits 112). apply sub_bias; lia. }
  destruct ((bits <? 32) && negb (n =? 0) && (Z.land x 1 =? 0)) eqn:E.
  - assert (∃ a, x = 2 * a) as [a Ea] by (exists (x / 2); rewrite land_1 in E; lia).
    rewrite u32_id, ld_mul_sign_x by (done || lia).
    replace (ld_mul (ld_of_int s) (S754_zero false)) with (S754_zero (s <? 0)) by (by destruct Hs as [->| ->]).
    pose proof (sum_spec s bits (x + 1) 0 Hs ltac:(lia) ltac:(lia) ltac:(lia)) as Hsum. rewrite Z.eqb_refl in Hsum.
    rewrite Hsum by lia. rewrite Hsub by (apply (sum_rne s bits (x + 1) 0); lia). f_equal. f_equal.
    rewrite Ea. replace ((2 * a + 1) * 2 ^ 85 + 0) with (a * 2 ^ 86 + 2 ^ 85) by lia.
    replace (2 * a * 2 ^ 85 + n) with (a * 2 ^ 86 + n) by lia. rewrite !rne_between by lia. done.
  - rewrite ld_mul_sign_y, ld_mul_sign_x by (done || lia).
    rewrite sum_spec; [|done|lia|done|done|].
    + apply Hsub. apply (sum_rne s bits x n); lia.
    + assert (Z.odd x = negb (Z.land x 1 =? 0)) as Hodd.
      { rewrite land_1, Zmod_odd. by destruct (Z.odd x). }
      rewrite Hodd. lia.
Qed.

(** ** The value *)

(** [V * 2^E] is a multiple of [2^g]. *)
Definition on_grid (V E g : Z) : Prop := ∃ k q, k ≤ E ∧ k ≤ g ∧ V * 2 ^ (E - k) = q * 2 ^ (g - k).

Lemma on_grid_div V E g : E ≤ g → on_grid V E g → ∃ q, V = q * 2 ^ (g - E).
Proof.
  intros HE (k & q & HkE & Hkg & H). exists q. pose proof (pow2_pos (E - k) ltac:(lia)).
  replace (g - k) with (g - E + (E - k)) in H by lia. rewrite pow2_add in H by lia. nia.
Qed.

Lemma on_grid_shift V E g j : 0 ≤ j → on_grid V E g → on_grid (V * 2 ^ j) (E - j) g.
Proof.
  intros Hj (k & q & HkE & Hkg & H). exists (k - j), q. split; [lia|]. split; [lia|].
  replace (E - j - (k - j)) with (E - k) by lia. replace (g - (k - j)) with (g - k + j) by lia. rewrite pow2_add by lia. nia.
Qed.

Section value.
Context (p mx : Z) (Hf : narrow p mx).

(** [hexfloat] from its digits on gives the rounded constant; errno is kept for
    a number in the range of the format, and is ERANGE or kept for others. *)
Lemma hex_value_rounds s x n e2 f (V := x * 2 ^ 85 + n) (top := Zdigits2 V + e2 - 85) :
  (s = 1 ∨ s = -1) → 0 < x < 2 ^ 32 → 0 ≤ n < 2 ^ 85 →
  (p = FLT_MANT_DIG ∨ top ≠ emin p mx + 31 ∨ on_grid V (e2 - 85) (emin p mx)) → (s = -1 → emin p mx < top) →
  ∃ y f', hex_value p (emin p mx) s e2 x (ld_dyadic n (-85)) f = Ret y f' ∧
    to_format p mx y = rounds_to p mx s V (e2 - 85) ∧
    (f' = f ∨ f' = Scan (sc_p f) ERANGE) ∧ (emin p mx < top ≤ mx → f' = f).
Proof using Hf.
  intros Hs Hx Hn H31 Hneg. destruct (narrow_range p mx Hf) as (Hp & Hpm & Em & Hpp). set (em := emin p mx) in *.
  assert (HV : 2 ^ 85 ≤ V) by (unfold V; lia).
  assert (Htop : e2 < top ≤ e2 + 32).
  { pose proof (Zdigits2_ge V 86 ltac:(lia) ltac:(lia)). pose proof (Zdigits2_le V 117 ltac:(lia) ltac:(lia)). unfold V in *. lia. }
  unfold hex_value. rewrite (proj2 (Z.eqb_neq x 0)) by lia. change LDBL_MANT_DIG with 113.
  destruct (Z.ltb_spec (- em) e2) as [Ho|Ho].
  { exists (overflowed s), (Scan (sc_p f) ERANGE). split; [done|]. split; [|split; [by right|lia]].
    unfold rounds_to. rewrite round_overflow by (try rewrite Z2Pos.id by lia; fold top; lia).
    by destruct Hs as [->| ->]. }
  destruct (Z.ltb_spec e2 (em - 2 * 113)) as [Hu|Hu].
  { exists (underflowed s), (Scan (sc_p f) ERANGE). split; [done|]. split; [|split; [by right|lia]].
    unfold rounds_to. rewrite round_underflow; [by destruct Hs as [->| ->]|done|done|].
    fold em. rewrite Z2Pos.id by lia. pose proof (Z.pow_le_mono_r 2 118 (em - (e2 - 85)) ltac:(lia) ltac:(lia)). unfold V. lia. }
  destruct (hex_normalize_spec x n e2 f Hx Hn) as (x' & n' & j & E & Hx' & Hn' & Hj & EV). fold V in EV.
  rewrite (bind_run _ _ _ _ _ E). clear E.
  assert (HV' : 2 ^ 116 ≤ x' * 2 ^ 85 + n' < 2 ^ 117) by lia.
  assert (Etop : top = 32 + (e2 - j)).
  { unfold top. enough (Zdigits2 V + j = 117) by lia. rewrite <- Zdigits2_shift, <- EV by lia. apply digits2_unique; lia. }
  pose proof (kept_rounds p mx Hf s (x' * 2 ^ 85 + n') top Hs HV' Hneg) as Hk. fold em in Hk. cbv zeta in Hk |- *. rewrite <- Etop.
  assert (HR : rounds_to p mx s (x' * 2 ^ 85 + n') (top - 117) = rounds_to p mx s V (e2 - 85)).
  { unfold rounds_to. replace (top - 117) with (e2 - 85 - j) by lia. apply binary_round_shift; [done..|].
    rewrite EV. pose proof (pow2_pos j). rewrite !Z2Pos.id by nia. done. }
  rewrite HR in Hk. clear HR.
  remember (if top - em <? p then if top - em <? 0 then 0 else top - em else p) as bits eqn:Eb.
  assert (Hbits : 0 ≤ bits ≤ p ∧ (bits = 31 → p = 53 ∧ top = em + 31)).
  { subst bits. destruct (Z.ltb_spec (top - em) p); [destruct (Z.ltb_spec (top - em) 0)|]; lia. }
  assert (Hb31 : bits ≠ 31 ∨ n' = 0).
  { destruct (Z.eq_dec bits 31) as [E31|]; [right|by left]. destruct (proj2 Hbits E31) as [E53 E31'].
    destruct H31 as [H31|[H31|H31]]; [unfold FLT_MANT_DIG in H31; lia|lia|].
    apply (on_grid_shift _ _ _ j Hj) in H31. rewrite <- EV in H31. apply on_grid_div in H31 as [q H31]; [|lia].
    replace (em - (e2 - 85 - j)) with 86 in H31 by lia. lia. }
  rewrite hex_round_spec by (lia || done).
  set (q := rne (x' * 2 ^ 85 + n') (117 - bits)) in *.
  assert (Hq : 0 ≤ q ≤ 2 ^ bits).
  { split; [apply rne_nonneg; lia|apply rne_le; [lia|]]. rewrite <- pow2_add by lia. replace (bits + (117 - bits)) with 117 by lia. lia. }
  pose proof (Z.pow_le_mono_r 2 bits 53 ltac:(lia) ltac:(lia)) as Hq53.
  assert (Hfit : ∀ e, -16000 ≤ e ≤ 16000 → ld_fits (s * q) e) by (intros; apply ld_fits_small; lia).
  rewrite ld_zero_dyadic by (apply Hfit; lia).
  assert (Hfin : to_format p mx (scalbnl (ld_dyadic (s * q) (32 - bits)) (e2 - j)) = rounds_to p mx s V (e2 - 85)).
  { rewrite scalbnl_dyadic by (apply Hfit; lia). rewrite <- Hk.
    replace (32 - bits + (e2 - j)) with (top - bits) by lia.
    apply (to_format_F 113 16384 p mx); [done..|]. apply Hfit. lia. }
  destruct (Z.eqb_spec (s * q) 0) as [H0|H0].
  - eexists _, _. split; [done|]. split; [exact Hfin|]. split; [by right|].
    intros Ht. exfalso. assert (1 ≤ bits) by (subst bits; destruct (Z.ltb_spec (top - em) p); [destruct (Z.ltb_spec (top - em) 0)|]; lia).
    assert (2 ^ (bits - 1) ≤ q).
    { apply rne_ge; [lia|]. rewrite <- pow2_add by lia. replace (bits - 1 + (117 - bits)) with 116 by lia. lia. }
    pose proof (pow2_pos (bits - 1)). lia.
  - eexists _, _. split; [done|]. split; [exact Hfin|]. split; [by left|done].
Qed.
End value.

(** ** The digits *)

Definition hexdig (c : Z) : Z := if 57 <? c then Z.lor c 32 + 10 - 97 else c - 48.
Definition hexval (cs : bytes) : Z := foldl (λ a c, a * 16 + hexdig c) 0 cs.

Lemma hexdig_range c : 0 ≤ c < 256 → is_hex c = true → 0 ≤ hexdig c < 16.
Proof.
  intros Hc H. assert (forallb (λ n, let c := Z.of_nat n in implb (is_hex c) ((0 <=? hexdig c) && (hexdig c <? 16))) (seq 0 256) = true) as Hall
    by (vm_compute; reflexivity).
  rewrite forallb_forall in Hall. specialize (Hall (Z.to_nat c)). cbv zeta in Hall. rewrite Z2Nat.id, H in Hall by lia.
  assert (In (Z.to_nat c) (seq 0 256)) as Hin by (apply in_seq; lia). specialize (Hall Hin). cbn [implb] in Hall. lia.
Qed.

Lemma hexdig_pos c : 0 ≤ c < 256 → is_hex c = true → c ≠ 48 → 0 < hexdig c.
Proof.
  intros Hc H H0. pose proof (hexdig_range c Hc H). enough (hexdig c ≠ 0) by lia. intros Hz. unfold hexdig, is_hex, is_dig in *.
  destruct (Z.ltb_spec 57 c); lia.
Qed.

Lemma hexval_snoc cs c : hexval (cs ++ [c]) = hexval cs * 16 + hexdig c.
Proof. unfold hexval. by rewrite foldl_app. Qed.

(** Digit characters *)
Definition hex_text (cs : bytes) : Prop := Forall (λ c, 0 ≤ c < 256 ∧ is_hex c = true) cs.

(** What [hex_digit] has collected of the digits [cs]: the first 8 in [h_x], the
    next 21 in [w], and whether the rest, [l], is zero. *)
Definition collected (cs : bytes) (h : hexa) : Prop :=
  let n := zlen cs in let k := Z.min 21 (Z.max 0 (n - 8)) in let c := Z.max 0 (n - 29) in
  h_dc h = n ∧ ∃ w l,
    hexval cs = (h_x h * 2 ^ (4 * k) + w) * 2 ^ (4 * c) + l ∧
    0 ≤ w < 2 ^ (4 * k) ∧ 0 ≤ l < 2 ^ (4 * c) ∧ 0 ≤ h_x h < 2 ^ (4 * Z.min 8 n) ∧
    h_y h = ld_dyadic (w * 2 ^ (85 - 4 * k) + if l =? 0 then 0 else 1) (-85) ∧
    h_gottail h = negb (l =? 0) ∧ h_scale h = ld_dyadic 1 (- (4 * k)).

Lemma scale_16 k : 0 ≤ k < 21 → ld_div (ld_dyadic 1 (- (4 * k))) (ld_of_int 16) = ld_dyadic 1 (- (4 * (k + 1))).
Proof.
  intros Hk. assert (k ∈ seqZ 0 21) as Hin by (apply elem_of_seqZ; lia). vm_compute in Hin.
  repeat (apply elem_of_cons in Hin as [->|Hin]; [vm_compute; reflexivity|]). by apply elem_of_nil in Hin.
Qed.

Lemma ld_add_85 a b : 0 ≤ a < 2 ^ 112 → 0 ≤ b < 2 ^ 112 → ld_add (ld_dyadic a (-85)) (ld_dyadic b (-85)) = ld_dyadic (a + b) (-85).
Proof.
  intros Ha Hb. destruct (Z.eq_dec a 0) as [->|Ha0]; destruct (Z.eq_dec b 0) as [->|Hb0]; [done|..].
  - apply ld_add_zero_l; [apply fits_85; lia|done].
  - rewrite Z.add_0_r. apply (ld_add_zero_r _ _ false); [apply fits_85; lia|done].
  - apply ld_add_dyadic; [apply fits_85; lia..|done|done].
Qed.

(** [d*scale] *)
Lemma ld_mul_scale d k : 0 ≤ d < 16 → 0 ≤ k ≤ 21 → ld_mul (ld_of_int d) (ld_dyadic 1 (- (4 * k))) = ld_dyadic (d * 2 ^ (85 - 4 * k)) (-85).
Proof.
  intros Hd Hk. rewrite ld_dyadic_scale by lia. replace (-85 + (85 - 4 * k)) with (- (4 * k)) by lia.
  destruct (Z.eq_dec d 0) as [->|Hd0].
  - destruct (F_fits LDBL_MANT_DIG LDBL_MAX_EXP ltac:(done) ltac:(done) 1 (- (4 * k))) as (m & e & E & _); [apply ld_fits_small; lia|done|].
    unfold ld_dyadic at 1. change (binary_normalize _ _ _ _ _) with (F LDBL_MANT_DIG LDBL_MAX_EXP 1 (- (4 * k))). by rewrite E.
  - unfold ld_of_int. rewrite ld_mul_dyadic; [by rewrite Z.mul_1_r|apply ld_fits_small; lia|apply ld_fits_small; lia|done|done].
Qed.

Lemma collected_nil gotrad gotdig rp : collected [] (Hexa 0 (S754_zero false) (ld_of_int 1) false gotrad gotdig rp 0).
Proof. split; [done|]. exists 0, 0. repeat split; done. Qed.

Lemma collected_step cs c h : collected cs h → 0 ≤ c < 256 → is_hex c = true → collected (cs ++ [c]) (hex_digit c h).
Proof.
  intros (Hdc & w & l & HV & Hw & Hl & Hx & Hy & Ht & Hsc) Hc Hh. pose proof (hexdig_range c Hc Hh) as Hd.
  pose proof (zlen_nonneg cs) as Hn. unfold collected. rewrite zlen_app. change (zlen [c]) with 1. rewrite hexval_snoc, HV.
  set (n := zlen cs) in *. unfold hex_digit. fold (hexdig c). rewrite Hdc.
  destruct (Z.ltb_spec n 8) as [H8|H8].
  - cbn [h_dc h_x h_y h_gottail h_scale]. split; [done|].
    replace (Z.min 21 (Z.max 0 (n - 8))) with 0 in * by lia. replace (Z.max 0 (n - 29)) with 0 in * by lia.
    replace (Z.min 21 (Z.max 0 (n + 1 - 8))) with 0 by lia. replace (Z.max 0 (n + 1 - 29)) with 0 by lia.
    change (2 ^ (4 * 0)) with 1 in *. assert (w = 0) as -> by lia. assert (l = 0) as -> by lia.
    replace (Z.min 8 n) with n in * by lia. replace (Z.min 8 (n + 1)) with (n + 1) by lia.
    assert (E16 : 2 ^ (4 * (n + 1)) = 16 * 2 ^ (4 * n)) by (change 16 with (2 ^ 4); rewrite <- pow2_add by lia; f_equal; lia).
    assert (2 ^ (4 * (n + 1)) ≤ 2 ^ 32) by (apply Z.pow_le_mono_r; lia).
    exists 0, 0. rewrite u32_id by lia. repeat split; try done; lia.
  - change (LDBL_MANT_DIG / 4 + 1) with 29. destruct (Z.ltb_spec n 29) as [H29|H29].
    + cbn [h_dc h_x h_y h_gottail h_scale]. split; [done|].
      replace (Z.min 21 (Z.max 0 (n - 8))) with (n - 8) in * by lia. replace (Z.max 0 (n - 29)) with 0 in * by lia.
      replace (Z.min 21 (Z.max 0 (n + 1 - 8))) with (n - 8 + 1) by lia. replace (Z.max 0 (n + 1 - 29)) with 0 by lia.
      set (k := n - 8) in *. change (2 ^ (4 * 0)) with 1 in *. assert (l = 0) as -> by lia.
      assert (E16 : 2 ^ (4 * (k + 1)) = 16 * 2 ^ (4 * k)) by (change 16 with (2 ^ 4); rewrite <- pow2_add by lia; f_equal; lia).
      assert (E85 : 2 ^ (85 - 4 * k) = 16 * 2 ^ (85 - 4 * (k + 1))) by (change 16 with (2 ^ 4); rewrite <- pow2_add by lia; f_equal; lia).
      assert (Ek : 2 ^ (4 * k) * 2 ^ (85 - 4 * k) = 2 ^ 85) by (rewrite <- pow2_add by lia; f_equal; lia).
      pose proof (pow2_pos (85 - 4 * (k + 1)) ltac:(lia)). pose proof (pow2_pos (4 * k) ltac:(lia)).
      exists (w * 16 + hexdig c), 0. rewrite Hsc, scale_16, Hy, ld_mul_scale by lia.
      replace (Z.min 8 (n + 1)) with (Z.min 8 n) by lia.
      repeat split; try done; try nia.
      change (0 =? 0) with true. cbn iota. rewrite !Z.add_0_r. rewrite ld_add_85 by nia. f_equal. nia.
    + replace (Z.min 21 (Z.max 0 (n - 8))) with 21 in * by lia. replace (Z.max 0 (n - 29)) with (n - 29) in * by lia.
      replace (Z.min 21 (Z.max 0 (n + 1 - 8))) with 21 by lia. replace (Z.max 0 (n + 1 - 29)) with (n - 29 + 1) by lia.
      replace (Z.min 8 (n + 1)) with 8 by lia. replace (Z.min 8 n) with 8 in * by lia. set (c' := n - 29) in *.
      assert (E16 : 2 ^ (4 * (c' + 1)) = 16 * 2 ^ (4 * c')) by (change 16 with (2 ^ 4); rewrite <- pow2_add by lia; f_equal; lia).
      change (2 ^ (85 - 4 * 21)) with 2 in *. change (- (4 * 21)) with (-84) in *.
      assert (HV' : ((h_x h * 2 ^ (4 * 21) + w) * 2 ^ (4 * c') + l) * 16 + hexdig c = (h_x h * 2 ^ (4 * 21) + w) * 2 ^ (4 * (c' + 1)) + (l * 16 + hexdig c)) by (rewrite E16; lia).
      rewrite HV', Ht, Hy, Hsc. clear HV' HV Ht Hy Hsc.
      destruct (Z.eqb_spec l 0) as [->|Hl0]; cbn [negb andb]; [destruct (Z.eqb_spec (hexdig c) 0) as [->|Hd0]|]; cbn [negb andb].
      * cbn [h_dc h_x h_y h_gottail h_scale]. split; [done|]. exists w, 0. repeat split; try done; lia.
      * cbn [h_dc h_x h_y h_gottail h_scale]. split; [done|]. exists w, (hexdig c). rewrite E16.
        replace (hexdig c =? 0) with false by lia. replace (ld_mul (ld_dyadic 1 (-1)) (ld_dyadic 1 (-84))) with (ld_dyadic 1 (-85)) by (vm_compute; reflexivity).
        rewrite ld_add_85 by lia. repeat split; try done; try lia. f_equal. lia.
      * rewrite andb_false_r. cbn [h_dc h_x h_y h_gottail h_scale]. split; [done|]. exists w, (l * 16 + hexdig c).
        replace (l * 16 + hexdig c =? 0) with false by lia. rewrite E16. repeat split; try done; lia.
Qed.

Lemma hexval_zeros n cs : hexval (replicate n 48 ++ cs) = hexval cs.
Proof. unfold hexval. rewrite foldl_app. f_equal. induction n; [done|]. cbn [replicate foldl]. done. Qed.

Lemma collected_run cs cs' h : collected cs h → hex_text cs' → let h' := foldl (λ h c, hex_digit c h) h cs' in
  collected (cs ++ cs') h' ∧ h_gotrad h' = h_gotrad h ∧ h_rp h' = h_rp h ∧
  h_gotdig h' = match cs' with [] => h_gotdig h | _ => true end.
Proof.
  intros Hc Ht. revert cs h Hc. induction Ht as [|c cs' [Hc Hh] Ht IH]; intros cs h H; [by rewrite app_nil_r|].
  cbn [foldl]. destruct (IH (cs ++ [c]) (hex_digit c h)) as (H1 & H2 & H3 & H4); [by apply collected_step|].
  rewrite <- app_assoc in H1. cbn [app] in H1. split; [done|].
  assert (h_gotrad (hex_digit c h) = h_gotrad h ∧ h_rp (hex_digit c h) = h_rp h ∧ h_gotdig (hex_digit c h) = true) as (E1 & E2 & E3).
  { unfold hex_digit. by destruct (if h_dc h <? 8 then _ else _) as [[[? ?] ?] ?]. }
  rewrite H2, H3, H4, E1, E2. split; [done|]. split; [done|]. by destruct cs'.
Qed.

(** *** Reading them *)

(** The text of the digits: before the point, and, with a point, behind it *)
Definition point (fp : option bytes) : bytes := match fp with Some fp => 46 :: fp | None => [] end.
Definition hex_read (h : hexa) (c : Z) : hexa :=
  if c =? 46 then Hexa (h_x h) (h_y h) (h_scale h) (h_gottail h) true (h_gotdig h) (h_dc h) (h_dc h) else hex_digit c h.

Lemma hex_not_point c : is_hex c = true → c ≠ 46.
Proof. by intros H ->. Qed.

Lemma hex_read_run h cs : hex_text cs → foldl hex_read h cs = foldl (λ h c, hex_digit c h) h cs.
Proof.
  intros Ht. revert h. induction Ht as [|c cs [_ Hh] Ht IH]; intros h; cbn [foldl]; [done|].
  unfold hex_read at 2. rewrite (proj2 (Z.eqb_neq c 46)) by (by apply hex_not_point). apply IH.
Qed.

(** The main loop over [cs], which may have a point if none was seen *)
Lemma hex_loop s cs d l h p e : sees s p (cs ++ d :: l) → zlen cs < 18446744073709551616 →
  all_along (λ h c, is_hex c = true ∨ c = 46 ∧ h_gotrad h = false) hex_read h cs →
  is_hex d = false → d ≠ 46 →
  loop (λ '(c, h),
    if is_hex c || (c =? 46) then
      if c =? 46 then
        if h_gotrad h then ret (Break (c, h))
        else
          c <- shgetc s ;;
          ret (Continue (c, Hexa (h_x h) (h_y h) (h_scale h) (h_gottail h) true (h_gotdig h) (h_dc h) (h_dc h)))
      else c' <- shgetc s ;; ret (Continue (c', hex_digit c h))
    else ret (Break (c, h))) (hd d cs, h) (Scan (p + 1) e) = Ret (d, foldl hex_read h cs) (Scan (p + zlen cs + 1) e).
Proof.
  intros Hs Hlen Hcs Hd H46.
  apply (read_loop s _ _ (λ c h, (c, h)) hex_read (λ h, (d, h)) cs d l h p e _ Hs Hcs Hlen); [| |done].
  - intros c h' f [Hc|[-> Hr]]; unfold hex_read.
    + rewrite Hc. cbn [orb]. by rewrite (proj2 (Z.eqb_neq c 46)) by (by apply hex_not_point).
    + cbn. by rewrite Hr.
  - intros f. rewrite Hd, (proj2 (Z.eqb_neq d 46)) by done. done.
Qed.

(** What [hex_digits] returns for the digits [ip], [fp] before [d] *)
Definition digits_read (ip : bytes) (fp : option bytes) (h : hexa) : Prop :=
  ∃ ds, collected ds h ∧ hexval ds = hexval (ip ++ default [] fp) ∧ (ds = [] ∨ 0 < hexdig (hd 0 ds)) ∧ hex_text ds ∧
    h_gotdig h = true ∧ (if h_gotrad h then h_rp h else h_dc h) - h_dc h = - zlen (default [] fp).

Lemma foldl_true (b : bool) n : foldl (λ _ (_ : Z), true) b (replicate n 48) = match n with O => b | _ => true end.
Proof. revert b. induction n as [|n IH]; intros b; [done|]. cbn [replicate foldl]. rewrite IH. by destruct n. Qed.

(** Zeros before the point *)
Lemma hex_zeros_int s n d l p e : sees s p (replicate n 48 ++ d :: l) → d ≠ 48 → Z.of_nat n < 18446744073709551616 →
  loop (λ '(c, gotdig), if c =? 48 then c <- shgetc s ;; ret (Continue (c, true)) else ret (Break (c, gotdig)))
    (hd d (replicate n 48), false) (Scan (p + 1) e) =
  Ret (d, match n with O => false | _ => true end) (Scan (p + Z.of_nat n + 1) e).
Proof.
  intros Hs Hd Hn. rewrite <- (foldl_true false n). rewrite <- (zlen_replicate n 48) at 1.
  apply (read_loop s _ (λ _ c, c = 48) (λ c b, (c, b)) (λ _ _, true) (λ b, (d, b)) (replicate n 48) d l false p e _ Hs).
  - apply (all_along_Forall _ (eq 48)); [by intros ? ? <-|apply zeros_are].
  - rewrite zlen_replicate. lia.
  - by intros c a f ->.
  - intros f. by rewrite (proj2 (Z.eqb_neq d 48)).
  - done.
Qed.

(** Zeros behind it *)
Lemma hex_zeros_frac s n d l p e b : sees s p (replicate n 48 ++ d :: l) → d ≠ 48 → Z.of_nat n < 18446744073709551616 →
  loop (λ '(c, gotdig, gotrad, rp),
      if c =? 48 then c <- shgetc s ;; ret (Continue (c, true, gotrad, rp - 1)) else ret (Break (c, gotdig, gotrad, rp)))
    (hd d (replicate n 48), b, true, 0) (Scan (p + 1) e) =
  Ret (d, match n with O => b | _ => true end, true, - Z.of_nat n) (Scan (p + Z.of_nat n + 1) e).
Proof.
  intros Hs Hd Hn.
  set (g := λ (a : bool * Z) (c : Z), (true, a.2 - 1)).
  assert (Hg : ∀ m b r, foldl g (b, r) (replicate m 48) = (match m with O => b | _ => true end, r - Z.of_nat m)).
  { clear. intros m. induction m as [|m IH]; intros b r; cbn [replicate foldl]; [by rewrite Z.sub_0_r|].
    unfold g at 2. cbn [snd]. rewrite IH. f_equal; [by destruct m|lia]. }
  rewrite <- (zlen_replicate n 48) at 2.
  rewrite (read_loop s _ (λ _ c, c = 48) (λ c a, (c, a.1, true, a.2)) g (λ a, (d, a.1, true, a.2)) (replicate n 48) d l (b, 0) p e _ Hs).
  - by rewrite Hg.
  - apply (all_along_Forall _ (eq 48)); [by intros ? ? <-|apply zeros_are].
  - rewrite zlen_replicate. lia.
  - by intros c a f ->.
  - intros f. by rewrite (proj2 (Z.eqb_neq d 48)).
  - done.
Qed.

(** The first digit that is not a zero *)
Lemma hd_digit cs : hex_text cs → hd 0 cs ≠ 48 → cs = [] ∨ 0 < hexdig (hd 0 cs).
Proof. intros Ht H. destruct Ht as [|c cs [Hc Hh] _]; [by left|right]. by apply hexdig_pos. Qed.

Lemma hex_text_app cs1 cs2 : hex_text (cs1 ++ cs2) ↔ hex_text cs1 ∧ hex_text cs2.
Proof. apply Forall_app. Qed.

(** The main loop over the digits of the fraction, the leading zeros gone *)
Lemma hex_read_frac a n cs h : hex_text cs → hd 0 cs ≠ 48 → collected [] h → h_gotrad h = true → h_rp h = - Z.of_nat n →
  (cs = [] → h_gotdig h = true) →
  digits_read (replicate a 48) (Some (replicate n 48 ++ cs)) (foldl hex_read h cs).
Proof.
  intros Ht Hd Hc Hr Hrp Hgot. rewrite hex_read_run by done.
  destruct (collected_run [] cs h Hc Ht) as (H1 & H2 & H3 & H4). exists cs. cbn [app default from_option id] in *.
  destruct H1 as [Hdc H1]. split; [done|]. split; [by rewrite !hexval_zeros|]. split; [by apply hd_digit|].
  split; [done|]. split; [rewrite H4; destruct cs; auto|].
  rewrite H2, Hr, H3, Hrp, Hdc. zlen_lia.
Qed.

(** The main loop over the digits before the point, and those behind it *)
Lemma hex_read_int a cs fp h : hex_text cs → hex_text (default [] fp) → hd 0 cs ≠ 48 → cs ≠ [] ∨ fp = None ∧ h_gotdig h = true →
  collected [] h → h_gotrad h = false →
  digits_read (replicate a 48 ++ cs) fp (foldl hex_read h (cs ++ point fp)).
Proof.
  intros Ht Htf Hd Hne Hc Hr. rewrite foldl_app, (hex_read_run h cs) by done.
  destruct (collected_run [] cs h Hc Ht) as (H1 & H2 & H3 & H4). cbn [app] in *.
  set (h1 := foldl (λ h c, hex_digit c h) h cs) in *.
  assert (Hgot : h_gotdig h1 = true) by (rewrite H4; destruct cs; [by destruct Hne as [?|[_ ?]]|done]).
  destruct fp as [fp|]; cbn [point foldl default from_option id] in *.
  - rewrite hex_read_run by done. unfold hex_read. cbn [Z.eqb Pos.eqb].
    destruct Hne as [Hne|[??]]; [|done].
    set (h2 := Hexa _ _ _ _ _ _ _ _).
    assert (collected cs h2) as Hc2 by exact H1.
    destruct (collected_run cs fp h2 Hc2 Htf) as (H5 & H6 & H7 & H8). exists (cs ++ fp).
    pose proof H5 as [Hdc _]. split; [done|]. split; [by rewrite <- app_assoc, hexval_zeros|].
    split; [right; destruct (hd_digit cs Ht Hd) as [->|?]; [done|by destruct cs]|].
    split; [by apply hex_text_app|]. split; [rewrite H8; by destruct fp|].
    rewrite H6, H7, Hdc. unfold h2. cbn [h_gotrad h_rp default from_option id]. destruct H1 as [-> _]. zlen_lia.
  - exists cs. pose proof H1 as [Hdc _]. split; [done|]. split; [by rewrite app_nil_r, hexval_zeros|].
    split; [by apply hd_digit|]. split; [done|]. split; [done|]. rewrite H2, Hr. cbn [default from_option]. change (zlen (@nil Z)) with 0. cbn iota. lia.
Qed.

(** The first digit, when only zeros before it were read *)
Definition hex_start (gotrad gotdig : bool) (rp : Z) : hexa := Hexa 0 (S754_zero false) (ld_of_int 1) false gotrad gotdig rp 0.
Definition any (n : nat) (b : bool) : bool := match n with O => b | _ => true end.

Lemma shgetc_zeros s n d l p e : sees s p (replicate n 48 ++ d :: l) →
  shgetc s (Scan p e) = Ret (hd d (replicate n 48)) (Scan (p + 1) e).
Proof. intros H. destruct n; by apply (shgetc_run _ _ _ _ _ H). Qed.

Lemma hex_zeros_no_point s a d l p e : sees s p (replicate a 48 ++ d :: l) → d ≠ 48 → d ≠ 46 → Z.of_nat a < 18446744073709551616 →
  hex_zeros s (Scan p e) = Ret (d, hex_start false (any a false) 0) (Scan (p + Z.of_nat a + 1) e).
Proof.
  intros Hs Hd Hd46 Ha. unfold hex_zeros. rewrite (bind_run _ _ _ _ _ (shgetc_zeros _ _ _ _ _ _ Hs)).
  rewrite (bind_run _ _ _ _ _ (hex_zeros_int s a d l p e Hs Hd Ha)). by rewrite (proj2 (Z.eqb_neq d 46)).
Qed.

Lemma hex_zeros_point s a n d l p e : sees s p (replicate a 48 ++ 46 :: replicate n 48 ++ d :: l) → d ≠ 48 →
  Z.of_nat a < 18446744073709551616 → Z.of_nat n < 18446744073709551616 →
  hex_zeros s (Scan p e) = Ret (d, hex_start true (any n (any a false)) (- Z.of_nat n)) (Scan (p + Z.of_nat a + 1 + Z.of_nat n + 1) e).
Proof.
  intros Hs Hd Ha Hn. unfold hex_zeros. rewrite (bind_run _ _ _ _ _ (shgetc_zeros _ _ _ _ _ _ Hs)).
  rewrite (bind_run _ _ _ _ _ (hex_zeros_int s a 46 _ p e Hs ltac:(done) Ha)). cbn [Z.eqb Pos.eqb].
  apply sees_app in Hs; [|done]. rewrite zlen_replicate in Hs. apply sees_cons in Hs as (Hs & _ & _).
  rewrite bind_assoc, (bind_run _ _ _ _ _ (shgetc_zeros _ _ _ _ _ _ Hs)).
  by rewrite (bind_run _ _ _ _ _ (hex_zeros_frac s n d l _ e _ Hs Hd Hn)).
Qed.

Lemma hex_text_along h cs : hex_text cs → all_along (λ h c, is_hex c = true ∨ c = 46 ∧ h_gotrad h = false) hex_read h cs.
Proof. apply all_along_Forall. intros ? c [_ ?]. by left. Qed.

(** The digits [ip] and [fp], up to [d] *)
Lemma hex_digits_run s ip fp d l p e : sees s p (ip ++ point fp ++ d :: l) → zlen (ip ++ point fp) < 4611686018427387904 →
  hex_text ip → hex_text (default [] fp) → ip ++ default [] fp ≠ [] → is_hex d = false → d ≠ 46 →
  ∃ h, hex_digits s (Scan p e) = Ret (d, h) (Scan (p + zlen (ip ++ point fp) + 1) e) ∧ digits_read ip fp h.
Proof.
  intros Hs Hlen Hi Hf Hne Hd Hd46. assert (Hd48 : d ≠ 48) by (by intros ->).
  destruct (split_zeros ip) as (a & cs & -> & Hcs). apply hex_text_app in Hi as [_ Hi].
  rewrite <- app_assoc in Hs. unfold hex_digits.
  assert (cs ≠ [] ∨ cs = [] ∧ fp = None ∨ cs = [] ∧ ∃ fs, fp = Some fs) as [Hc|[[-> ->]|[-> [fs ->]]]]
    by (destruct cs, fp; eauto).
  - destruct cs as [|c cs]; [done|]. pose proof (proj1 (Forall_cons _ _ _) Hi) as [[_ Hh] _].
    rewrite (bind_run _ _ _ _ _ (hex_zeros_no_point s a c (cs ++ point fp ++ d :: l) p e Hs Hcs (hex_not_point c Hh) ltac:(zlen_lia))).
    apply sees_app in Hs; [|done]. rewrite zlen_replicate, app_assoc in Hs.
    eexists. split; [|apply (hex_read_int a (c :: cs) fp (hex_start false (any a false) 0)); [done..|by left|apply collected_nil|done]].
    change c with (hd d ((c :: cs) ++ point fp)) at 1.
    rewrite (hex_loop s ((c :: cs) ++ point fp) d l _ _ e Hs); [f_equal; f_equal; zlen_lia|zlen_lia| |done|done].
    apply all_along_app; [by apply hex_text_along|]. destruct fp as [fp|]; [|done]. cbn [point all_along].
    rewrite hex_read_run by done. split; [right; split; [done|]|by apply hex_text_along].
    exact (proj1 (proj2 (collected_run [] (c :: cs) _ (collected_nil false (any a false) 0) Hi))).
  - rewrite app_nil_r in *. cbn [point app default from_option] in *.
    rewrite (bind_run _ _ _ _ _ (hex_zeros_no_point s a d l p e Hs Hd48 Hd46 ltac:(zlen_lia))).
    apply sees_app in Hs; [|done]. rewrite zlen_replicate in Hs.
    rewrite (hex_loop s [] d l _ _ e Hs); [|done..]. eexists. split; [do 2 f_equal; zlen_lia|].
    apply (hex_read_int a [] None); [done|done|done| |apply collected_nil|done].
    right. split; [done|]. by destruct a.
  - cbn [default from_option id point] in *. destruct (split_zeros fs) as (n & cs & -> & Hcs'). apply hex_text_app in Hf as [_ Hf].
    cbn [app] in Hs. rewrite <- app_assoc in Hs. rewrite app_nil_r in *.
    destruct (cs ++ d :: l) as [|d2 l2] eqn:E2; [by destruct cs|].
    assert (Hd2 : d2 = hd d cs) by (destruct cs; by inversion E2).
    assert (Hd2' : d2 ≠ 48) by (subst d2; by destruct cs).
    rewrite (bind_run _ _ _ _ _ (hex_zeros_point s a n d2 l2 p e Hs Hd2' ltac:(zlen_lia) ltac:(zlen_lia))).
    apply sees_app in Hs; [|done]. rewrite zlen_replicate in Hs. apply sees_cons in Hs as (Hs & _ & _).
    apply sees_app in Hs; [|done]. rewrite zlen_replicate, <- E2 in Hs. rewrite Hd2.
    eexists. split; [rewrite (hex_loop s cs d l _ _ e Hs); [f_equal; f_equal; zlen_lia|zlen_lia|by apply hex_text_along|done|done]|].
    apply hex_read_frac; [done|done|apply collected_nil|done|done|].
    intros ->. cbn [hex_start h_gotdig]. destruct n; [|done]. by destruct a.
Qed.

(** ** The number the digits mean *)

Lemma foldl_hex_bounds cs a : hex_text cs → 0 ≤ a →
  a * 2 ^ (4 * zlen cs) ≤ foldl (λ a c, a * 16 + hexdig c) a cs < (a + 1) * 2 ^ (4 * zlen cs).
Proof.
  intros Ht. revert a. induction Ht as [|c cs [Hc Hh] Ht IH]; intros a Ha; [change (2 ^ (4 * zlen (@nil Z))) with 1; cbn [foldl]; lia|].
  cbn [foldl]. pose proof (hexdig_range c Hc Hh). specialize (IH (a * 16 + hexdig c) ltac:(lia)). rewrite zlen_cons.
  replace (4 * (1 + zlen cs)) with (4 + 4 * zlen cs) by lia. pose proof (zlen_nonneg cs). pose proof (pow2_pos (4 * zlen cs)).
  rewrite pow2_add by lia. change (2 ^ 4) with 16. nia.
Qed.

(** The first digit gives the length of the number. *)
Lemma hexval_bounds cs : hex_text cs → 0 < hexdig (hd 0 cs) → cs ≠ [] →
  2 ^ (4 * (zlen cs - 1)) ≤ hexval cs < 2 ^ (4 * zlen cs).
Proof.
  intros Ht Hd Hne. destruct Ht as [|c cs [Hc Hh] Ht]; [done|]. cbn [hd] in Hd. unfold hexval. cbn [foldl].
  pose proof (hexdig_range c Hc Hh). pose proof (foldl_hex_bounds cs (0 * 16 + hexdig c) Ht ltac:(lia)). rewrite zlen_cons.
  pose proof (zlen_nonneg cs). pose proof (pow2_pos (4 * zlen cs)).
  replace (4 * (1 + zlen cs - 1)) with (4 * zlen cs) by lia.
  replace (4 * (1 + zlen cs)) with (4 + 4 * zlen cs) by lia. rewrite pow2_add by lia. change (2 ^ 4) with 16. nia.
Qed.

(** [x] filled up to 8 digits, and the fraction [y] *)
Definition padded (n x : Z) : Z := if n <? 8 then x * 2 ^ (4 * (8 - n)) else x.

Lemma pad_run n x (f : rc_scan) : 0 ≤ n → 0 ≤ x < 2 ^ (4 * Z.min 8 n) →
  loop (λ '(dc, x), if dc <? 8 then ret (Continue (dc + 1, u32 (x * 16))) else ret (Break x)) (n, x) f = Ret (padded n x) f.
Proof.
  intros Hn Hx. unfold padded. destruct (Z.ltb_spec n 8) as [H8|H8].
  - rewrite Z.min_r in Hx by lia.
    apply (loop_steps _ (λ k, (n + k, x * 2 ^ (4 * k))) (λ _, f) (8 - n)); [lia|peq|done| |].
    + intros k Hk. replace (n + k <? 8) with true by lia.
      assert (E16 : 2 ^ (4 * (k + 1)) = 2 ^ (4 * k) * 16) by (change 16 with (2 ^ 4); rewrite <- pow2_add by lia; f_equal; lia).
      assert (2 ^ (4 * n) * 2 ^ (4 * (k + 1)) ≤ 2 ^ 32) by (rewrite <- pow2_add by lia; apply Z.pow_le_mono_r; lia).
      pose proof (pow2_pos (4 * k)). rewrite u32_id by nia. unfold ret. do 3 f_equal; lia.
    + replace (n + (8 - n) <? 8) with false by lia. done.
  - apply loop_break. by replace (n <? 8) with false by lia.
Qed.

Lemma round_same p mx s N E M F j : narrow p mx → 0 < M → 0 ≤ j → N = M * 2 ^ j → E = F - j →
  rounds_to p mx s N E = rounds_to p mx s M F ∧ Zdigits2 N + E = Zdigits2 M + F ∧
  ∀ g, Zdigits2 M + F = g + 31 → on_grid M F g → on_grid N E g.
Proof.
  intros Hf HM Hj -> ->. destruct (narrow_range p mx Hf) as (Hp & Hpm & _). pose proof (pow2_pos j Hj).
  rewrite Zdigits2_shift by lia. split; [|split; [lia|intros g _; by apply on_grid_shift]]. unfold rounds_to. apply binary_round_shift; [done..|]. rewrite !Z2Pos.id by nia. done.
Qed.

Lemma digits_number p mx s ds h E (n := zlen ds) : narrow p mx → collected ds h → hex_text ds → 0 < hexdig (hd 0 ds) → ds ≠ [] →
  ∃ w, h_y h = ld_dyadic w (-85) ∧ 0 ≤ w < 2 ^ 85 ∧ 0 < padded n (h_x h) < 2 ^ 32 ∧
    let N := padded n (h_x h) * 2 ^ 85 + w in let F := E + 4 * n - 117 in
    rounds_to p mx s N F = rounds_to p mx s (hexval ds) E ∧ Zdigits2 N + F = Zdigits2 (hexval ds) + E ∧
    ∀ g, Zdigits2 (hexval ds) + E = g + 31 → on_grid (hexval ds) E g → on_grid N F g.
Proof.
  intros Hf (Hdc & w & l & HV & Hw & Hl & Hx & Hy & _ & _) Ht Hd Hne. fold n in HV, Hw, Hl, Hx, Hy.
  pose proof (hexval_bounds ds Ht Hd Hne) as HB. fold n in HB. pose proof (zlen_pos ds Hne) as Hn. fold n in Hn.
  destruct (narrow_range p mx Hf) as (Hp & Hpm & _ & Hpp).
  set (k := Z.min 21 (Z.max 0 (n - 8))) in *. set (c := Z.max 0 (n - 29)) in *. set (V := hexval ds) in *.
  pose proof (pow2_pos (4 * k) ltac:(lia)) as Hpk. pose proof (pow2_pos (4 * c) ltac:(lia)) as Hpc.
  pose proof (pow2_pos (4 * (n - 1)) ltac:(lia)) as Hpn.
  assert (Hx0 : 0 < h_x h).
  { destruct (Z.eq_dec (h_x h) 0) as [E0|]; [|lia]. rewrite E0 in HV. exfalso.
    assert (V < 2 ^ (4 * k) * 2 ^ (4 * c)) by nia. rewrite <- pow2_add in * by lia.
    pose proof (Z.pow_le_mono_r 2 (4 * k + 4 * c) (4 * (n - 1)) ltac:(lia) ltac:(lia)). lia. }
  assert (Hpad : 0 < padded n (h_x h) < 2 ^ 32).
  { unfold padded. destruct (Z.ltb_spec n 8) as [H8|H8]; [|rewrite Z.min_l in Hx by lia; lia].
    rewrite Z.min_r in Hx by lia. pose proof (pow2_pos (4 * (8 - n)) ltac:(lia)).
    assert (2 ^ (4 * n) * 2 ^ (4 * (8 - n)) = 2 ^ 32) by (rewrite <- pow2_add by lia; f_equal; lia). nia. }
  exists (w * 2 ^ (85 - 4 * k) + if l =? 0 then 0 else 1). split; [done|].
  assert (Hp85 : 2 ^ (4 * k) * 2 ^ (85 - 4 * k) = 2 ^ 85) by (rewrite <- pow2_add by lia; f_equal; lia).
  assert (H2 : 2 * 2 ^ (84 - 4 * k) = 2 ^ (85 - 4 * k)) by (rewrite <- pow2_S by lia; f_equal; lia).
  pose proof (pow2_pos (84 - 4 * k) ltac:(lia)).
  split; [destruct (l =? 0); nia|]. split; [done|]. cbv zeta.
  destruct (Z.le_gt_cases n 29) as [Hle|Hgt].
  - assert (c = 0) as Hc0 by lia. rewrite Hc0 in *. change (2 ^ (4 * 0)) with 1 in *. assert (l = 0) as -> by lia.
    rewrite Z.eqb_refl. apply (round_same p mx s _ _ V E (117 - 4 * n)); [done|lia|lia| |lia].
    unfold padded. destruct (Z.ltb_spec n 8) as [H8|H8].
    + assert (k = 0) as Hk0 by lia. rewrite Hk0 in *. change (2 ^ (4 * 0)) with 1 in *. assert (w = 0) as -> by lia.
      replace (117 - 4 * n) with (4 * (8 - n) + 85) by lia. rewrite pow2_add by lia. rewrite HV. lia.
    + replace (117 - 4 * n) with (85 - 4 * k) by lia. rewrite HV. nia.
  - unfold padded. replace (n <? 8) with false by lia. assert (k = 21) as Hk by lia. rewrite Hk in *.
    change (2 ^ (85 - 4 * 21)) with 2 in *. change (2 ^ (4 * 21)) with (2 ^ 84) in *.
    assert (HdV : 4 * (n - 1) < Zdigits2 V).
    { pose proof (Zdigits2_ge V (4 * (n - 1) + 1)). rewrite Z.add_simpl_r in *. lia. }
    assert (EN : h_x h * 2 ^ 85 + (w * 2 + if l =? 0 then 0 else 1) = 2 * (V / 2 ^ (4 * c)) + (if V mod 2 ^ (4 * c) =? 0 then 0 else 1)).
    { rewrite HV. replace ((h_x h * 2 ^ 84 + w) * 2 ^ (4 * c) + l) with (l + (h_x h * 2 ^ 84 + w) * 2 ^ (4 * c)) by lia.
      rewrite Z.div_add, Z.mod_add, Z.div_small, Z.mod_small by lia. destruct (l =? 0); lia. }
    rewrite EN. split; [|split; [rewrite sticky_digits by lia; lia|]].
    2:{ intros g Hg Hgrid. pose proof (on_grid_div V E g ltac:(lia) Hgrid) as [q Eq].
        assert (V = q * 2 ^ (g - E - 4 * c) * 2 ^ (4 * c)) as Eq' by (rewrite <- Z.mul_assoc, <- pow2_add by lia; rewrite Eq; do 2 f_equal; lia).
        assert (Hm : V mod 2 ^ (4 * c) = 0) by (rewrite Eq'; apply Z.mod_mul; lia).
        rewrite Hm. cbn [Z.eqb]. rewrite Z.add_0_r. destruct Hgrid as (k' & q' & Hk1 & Hk2 & Hq').
        exists k', q'. split; [lia|]. split; [lia|]. rewrite <- Hq'.
        replace (E + 4 * n - 117 - k') with (4 * c - 1 + (E - k')) by lia. rewrite pow2_add by lia.
        pose proof (Z.div_mod V (2 ^ (4 * c)) ltac:(lia)) as Hdm. rewrite Hm in Hdm. rewrite Hdm at 2.
        replace (2 ^ (4 * c)) with (2 * 2 ^ (4 * c - 1)) at 2 by (rewrite <- pow2_S by lia; f_equal; lia). lia. }
    unfold rounds_to.
    replace (E + 4 * n - 117) with (E + 4 * c - 1) by lia. apply round_sticky; [done|done|lia|rewrite Z2Pos.id by lia; lia|].
    rewrite !Z2Pos.id by (lia || destruct (_ =? 0); pose proof (Z.div_pos V (2 ^ (4 * c))); lia). done.
Qed.

(** ** Hexadecimal constants *)

(** White space, the sign, [x] or [X], the digits before the point and behind
    it, the exponent: [p] or [P], its sign and digits. *)
Record hex_const := HexConst {
  hc_space : bytes; hc_sign : option bool; hc_x : Z; hc_int : bytes; hc_frac : option bytes;
  hc_exp : option (Z * option bool * bytes);
}.

Definition exp_text (x : option (Z * option bool * bytes)) : bytes :=
  match x with Some (c, sg, cs) => c :: exp_sign sg ++ cs | None => [] end.
Definition exp_value (x : option (Z * option bool * bytes)) : Z :=
  match x with Some (_, Some true, cs) => - decval cs | Some (_, _, cs) => decval cs | None => 0 end.

Definition hc_digits (h : hex_const) : bytes := hc_int h ++ default [] (hc_frac h).
Definition hc_text (h : hex_const) : bytes :=
  hc_space h ++ exp_sign (hc_sign h) ++ 48 :: hc_x h :: hc_int h ++ point (hc_frac h) ++ exp_text (hc_exp h).
(** Its value is [hc_num * 2^hc_expo]. *)
Definition hc_neg (h : hex_const) : bool := match hc_sign h with Some true => true | _ => false end.
Definition hc_num (h : hex_const) : Z := (if hc_neg h then -1 else 1) * hexval (hc_digits h).
Definition hc_expo (h : hex_const) : Z := exp_value (hc_exp h) - 4 * zlen (default [] (hc_frac h)).

Definition exp_ok (is_e : Z → Prop) (x : option (Z * option bool * bytes)) : Prop :=
  match x with Some (c, _, cs) => is_e c ∧ dec_text cs ∧ cs ≠ [] ∧ decval cs < LLONG_MAX / 100 | None => True end.
Record hex_ok (h : hex_const) : Prop := {
  ok_space : Forall (λ c, isspace c = true) (hc_space h);
  ok_x : hc_x h = 120 ∨ hc_x h = 88;
  ok_int : hex_text (hc_int h);
  ok_frac : hex_text (default [] (hc_frac h));
  ok_digits : hc_digits h ≠ [];
  ok_exp : exp_ok (λ c, c = 112 ∨ c = 80) (hc_exp h);
  ok_len : zlen (hc_text h) < 4611686018427387904;
}.

(** A character that cannot go on with a constant *)
Definition ends (d : Z) : Prop := is_hex d = false ∧ d ≠ 46 ∧ Z.lor d 32 ≠ 112.

Lemma not_hex_not_dig d : is_hex d = false → is_dig d = false.
Proof. unfold is_hex. by intros [? _]%orb_false_iff. Qed.

(** The exponent: [c] is the character behind the digits. *)
Definition hex_exponent (s : bytes) (pok : bool) (c : Z) : M rc_scan (option Z) :=
  if Z.lor c 32 =? 112 then
    e2 <- scanexp s pok ;;
    if e2 =? LLONG_MIN then if pok then shunget ;; ret (Some 0) else ret None else ret (Some e2)
  else shunget ;; ret (Some 0).

Lemma hex_exponent_run s x d l p e pok : sees s p (exp_text x ++ d :: l) → exp_ok (λ c, c = 112 ∨ c = 80) x → ends d →
  zlen (exp_text x) < 4611686018427387904 →
  hex_exponent s pok (hd d (exp_text x)) (Scan (p + 1) e) = Ret (Some (exp_value x)) (Scan (p + zlen (exp_text x)) e).
Proof.
  intros Hs Hx (Hh & H46 & Hd) Hlen. destruct x as [[[c sg] cs]|]; cbn [exp_text app hd exp_value] in *; unfold hex_exponent.
  - destruct Hx as (Hc & Hcs & Hne & Hv). apply sees_cons in Hs as (Hs & _ & _). rewrite <- app_assoc in Hs.
    assert (Hl : Z.lor c 32 = 112) by (by destruct Hc as [->| ->]). rewrite Hl. cbn [Z.eqb Pos.eqb].
    rewrite (bind_run _ _ _ _ _ (scanexp_run s sg cs d l _ e pok Hs ltac:(zlen_lia) Hcs Hne (not_hex_not_dig d Hh) Hv)).
    pose proof (foldl_dec_mono cs Hcs 0 ltac:(lia)) as H0. fold (decval cs) in H0.
    rewrite (proj2 (Z.eqb_neq _ LLONG_MIN)) by (unfold LLONG_MIN, LLONG_MAX in *; destruct sg as [[|]|]; lia).
    unfold ret. do 2 f_equal. zlen_lia.
  - rewrite (proj2 (Z.eqb_neq _ _)) by done. rewrite (bind_run _ _ _ _ _ (shunget_run (p + 1) e ltac:(pose proof (proj1 Hs); lia))).
    unfold ret. f_equal. f_equal. change (zlen []) with 0. lia.
Qed.

Lemma to_format_signed_zero p mx s E : to_format p mx (signed_zero s) = binary_normalize p mx (s * 0) E (s <? 0).
Proof. rewrite Z.mul_0_r. done. Qed.

Lemma rounds_to_normalize p mx s V E : (s = 1 ∨ s = -1) → 0 < V → rounds_to p mx s V E = binary_normalize p mx (s * V) E (s <? 0).
Proof. intros [->| ->] HV; destruct V; done. Qed.

(** [hexfloat], from behind the [0x] on *)
Lemma hexfloat_rounds p mx sg s ip fp x d l q e (V := hexval (ip ++ default [] fp)) (E := exp_value x - 4 * zlen (default [] fp))
    (text := ip ++ point fp ++ exp_text x) (top := Zdigits2 V + E) :
  narrow p mx → (sg = 1 ∨ sg = -1) → sees s q (text ++ d :: l) → zlen text < 4611686018427387904 →
  hex_text ip → hex_text (default [] fp) → ip ++ default [] fp ≠ [] → exp_ok (λ c, c = 112 ∨ c = 80) x → ends d →
  (p = FLT_MANT_DIG ∨ top ≠ emin p mx + 31 ∨ on_grid V E (emin p mx)) → (sg = -1 → V = 0 ∨ emin p mx < top) →
  ∃ y e', hexfloat s p (emin p mx) sg true (Scan q e) = Ret y (Scan (q + zlen text) e') ∧
    to_format p mx y = binary_normalize p mx (sg * V) E (sg <? 0) ∧ (e' = e ∨ e' = ERANGE) ∧ (V = 0 ∨ emin p mx < top ≤ mx → e' = e).
Proof.
  intros Hf Hsg Hs Hlen Hi Hfr Hne Hx Hd H31 Hneg. unfold text in Hs, Hlen. pose proof (proj1 Hs) as Hq0.
  set (d1 := hd d (exp_text x)). set (l1 := tl (exp_text x ++ d :: l)).
  assert (Hd1 : exp_text x ++ d :: l = d1 :: l1) by (by destruct x as [[[c sg'] cs]|]).
  assert (Hd1h : is_hex d1 = false ∧ d1 ≠ 46).
  { unfold d1. destruct x as [[[c sg'] cs]|]; cbn [exp_text hd]; [|by destruct Hd as (? & ? & _)].
    destruct Hx as [[->| ->] _]; by split. }
  rewrite <- !app_assoc, Hd1 in Hs.
  destruct (hex_digits_run s ip fp d1 l1 q e Hs ltac:(zlen_lia) Hi Hfr Hne (proj1 Hd1h) (proj2 Hd1h)) as (h & Eh & ds & Hc & Hv & Hds & Ht & Hgot & Hrp).
  unfold hexfloat. rewrite (bind_run _ _ _ _ _ Eh), Hgot. cbn [negb].
  pose proof Hc as (Hdc & w & l0 & HV & Hw & Hl0 & Hhx & _). cbv zeta. rewrite Hdc in *.
  rewrite (bind_run _ _ _ _ _ (pad_run (zlen ds) (h_x h) _ (zlen_nonneg ds) Hhx)).
  fold (hex_exponent s true d1).
  assert (Hs1 : sees s (q + zlen (ip ++ point fp)) (exp_text x ++ d :: l)).
  { rewrite Hd1. apply sees_app; rewrite <- ?app_assoc; done. }
  rewrite (bind_run _ _ _ _ _ (hex_exponent_run s x d l _ e true Hs1 Hx Hd ltac:(zlen_lia))).
  replace (q + zlen (ip ++ point fp) + zlen (exp_text x)) with (q + zlen text) by (unfold text; zlen_lia).
  replace (exp_value x + 4 * (if negb (h_gotrad h) then zlen ds else h_rp h) - 32) with (E + 4 * zlen ds - 32)
    by (unfold E; destruct (h_gotrad h); cbn [negb]; lia).
  destruct ds as [|c0 ds0] eqn:Eds.
  - (* only zeros *)
    assert (V = 0) as HV0 by (unfold V; rewrite <- Hv; done).
    assert (h_x h = 0) as ->. { change (zlen []) with 0 in Hhx. cbn in Hhx. lia. }
    exists (signed_zero sg), e. rewrite HV0. split; [done|]. split; [apply to_format_signed_zero|]. split; [by left|done].
  - rewrite <- Eds in *. destruct Hds as [|Hd0]; [by subst|].
    destruct (digits_number p mx sg ds h E Hf Hc Ht Hd0) as (w' & Hy & Hw' & Hp32 & Hr); [by subst|].
    cbv zeta in Hr. destruct Hr as (Hr & Htop & Hgrid). rewrite Hv in Hr, Htop, Hgrid. fold V in Hr, Htop, Hgrid.
    pose proof (hexval_bounds ds Ht Hd0 ltac:(by subst)) as HB. rewrite Hv in HB. fold V in HB.
    assert (0 < V). { pose proof (pow2_pos (4 * (zlen ds - 1))). assert (0 < zlen ds) by (by apply zlen_pos; subst). lia. }
    rewrite Hy.
    assert (EF : E + 4 * zlen ds - 117 = E + 4 * zlen ds - 32 - 85) by lia. rewrite EF in Hr, Htop, Hgrid.
    destruct (hex_value_rounds p mx Hf sg (padded (zlen ds) (h_x h)) w' (E + 4 * zlen ds - 32) (Scan (q + zlen text) e)) as (y & f' & Ey & Hy' & Hf' & Hin);
      [done|done|done| |unfold top in Hneg; lia|].
    { destruct (Z.eq_dec top (emin p mx + 31)) as [Et|]; [|unfold top in *; lia].
      destruct H31 as [?|[?|?]]; [by left|done|right; right; by apply Hgrid]. }
    exists y, (sc_errno f'). cbn [sc_p] in *. split; [rewrite Ey; f_equal; by destruct Hf' as [->| ->]|].
    split; [rewrite Hy', Hr; apply rounds_to_normalize; [done|lia]|].
    split; [by destruct Hf' as [->| ->]; [left|right]|]. intros Hr'. rewrite Hin; [done|]. unfold top in Hr'. lia.
Qed.

(** ** The functions *)

(** [prec] of __floatscan, and the format *)
Definition format_of (prec : Z) : Z * Z := if prec =? 0 then (FLT_MANT_DIG, FLT_MAX_EXP) else (DBL_MANT_DIG, DBL_MAX_EXP).

Lemma sign_values sg : (sign_value sg = 1 ∨ sign_value sg = -1) ∧
  (sign_value sg <? 0) = match sg with Some true => true | _ => false end ∧
  sign_value sg = (if match sg with Some true => true | _ => false end then -1 else 1).
Proof. destruct sg as [[|]|]; cbn; lia. Qed.

(** [top]: the number is in [2^(top-1), 2^top). *)
Definition hc_top (h : hex_const) : Z := Zdigits2 (hexval (hc_digits h)) + hc_expo h.

Lemma floatscan_hex prec h rest e (p := fst (format_of prec)) (mx := snd (format_of prec)) :
  prec = 0 ∨ prec = 1 → hex_ok h → ends (hd 0 rest) →
  (prec = 0 ∨ hc_top h ≠ emin p mx + 31 ∨ on_grid (hexval (hc_digits h)) (hc_expo h) (emin p mx)) → (hc_neg h = true → hc_num h = 0 ∨ emin p mx < hc_top h) →
  ∃ y e', __floatscan (hc_text h ++ rest) prec true (Scan 0 e) = Ret y (Scan (zlen (hc_text h)) e') ∧
    to_format p mx y = binary_normalize p mx (hc_num h) (hc_expo h) (hc_neg h) ∧ (e' = e ∨ e' = ERANGE) ∧
    (hc_num h = 0 ∨ emin p mx < hc_top h ≤ mx → e' = e).
Proof.
  intros Hprec [Hsp Hx Hi Hfr Hne Hex Hlen] Hend H31 Hneg. set (s := hc_text h ++ rest). unfold hc_top in *.
  assert (Hf : narrow p mx) by (unfold p, mx, narrow; destruct Hprec as [->| ->]; cbn; auto).
  destruct (sign_values (hc_sign h)) as (Hsv & Hsn & Hsi).
  pose proof (sees_start s) as Hs. unfold s in Hs at 2. rewrite <- app_assoc in Hs.
  assert (∃ l, rest ++ [0] = hd 0 rest :: l) as [l El] by (destruct rest; by eexists). rewrite El in Hs.
  set (num := hc_int h ++ point (hc_frac h) ++ exp_text (hc_exp h)) in *.
  assert (Ht : hc_text h = hc_space h ++ exp_sign (hc_sign h) ++ 48 :: hc_x h :: num) by done.
  rewrite Ht in Hs. cbn [app] in Hs. rewrite <- !app_assoc in Hs. cbn [app] in Hs.
  assert (Hlen' : zlen (hc_text h) = zlen (hc_space h) + zlen (exp_sign (hc_sign h)) + 2 + zlen num) by (rewrite Ht; zlen_lia).
  assert (Hmatch : (if prec =? 0 then Some (FLT_MANT_DIG, FLT_MIN_EXP) else if prec =? 1 then Some (DBL_MANT_DIG, DBL_MIN_EXP)
    else if prec =? 2 then Some (LDBL_MANT_DIG, LDBL_MIN_EXP) else None) = Some (p, emin p mx + p)).
  { unfold p, mx. by destruct Hprec as [->| ->]. }
  unfold __floatscan. rewrite Hmatch, Z.add_simpl_r. clear Hmatch.
  rewrite <- bind_assoc, (bind_run _ _ _ _ _ (prefix_run s _ _ 48 _ 0 e Hs Hsp ltac:(done) ltac:(done) ltac:(done) ltac:(zlen_lia))).
  rewrite (bind_run _ _ _ _ _ (no_word s (str "infinity") 105 48 _ ltac:(done) ltac:(done))). cbn [Z.eqb Z.ltb Z.compare orb andb].
  rewrite (bind_run _ _ _ _ _ (no_word s (str "nan") 110 48 _ ltac:(done) ltac:(done))). cbn [Z.eqb Pos.eqb negb].
  rewrite app_assoc in Hs. apply sees_app in Hs; [|done]. rewrite zlen_app in Hs.
  destruct (sees_cons _ _ _ _ Hs) as (Hs1 & _ & _). destruct (sees_cons _ _ _ _ Hs1) as (Hs2 & _ & _).
  rewrite Z.add_0_l in *.
  set (q := zlen (hc_space h) + zlen (exp_sign (hc_sign h))) in *.
  rewrite (bind_run _ _ _ _ _ (shgetc_run _ _ _ _ _ Hs1)).
  replace (Z.lor (hc_x h) 32 =? 120) with true by (by destruct Hx as [->| ->]).
  unfold num in Hs2.
  destruct (hexfloat_rounds p mx (sign_value (hc_sign h)) s (hc_int h) (hc_frac h) (hc_exp h) (hd 0 rest) l (q + 1 + 1) e)
    as (y & e' & Ey & Hy & He & Hr); try done.
  { fold num. pose proof (zlen_nonneg (hc_space h)). pose proof (zlen_nonneg (exp_sign (hc_sign h))). lia. }
  { destruct H31 as [->|?]; [by left|right; done]. }
  { intros Hm. destruct Hneg as [H0|H0]; [|left|by right].
    - unfold hc_neg. rewrite Hsi in Hm. by destruct (hc_sign h) as [[|]|].
    - unfold hc_num in H0. unfold hc_digits in H0. destruct (hc_neg h); lia. }
  exists y, e'. fold s. split; [rewrite Ey; f_equal; f_equal; fold num; lia|].
  split; [rewrite Hy, Hsn; f_equal; unfold hc_num; by rewrite Hsi|]. split; [done|].
  intros H. apply Hr. destruct H as [H|H]; [left|by right]. unfold hc_num, hc_digits in H. destruct (hc_neg h); lia.
Qed.

(** C5: strtod rounds every hexadecimal constant correctly: with white space, a
    sign, digits before and behind the point, an exponent, in any number, the
    result is the double nearest to the constant, ties to even, an infinity when
    it is too large, and the end is behind the constant.  errno is kept for
    numbers in the range.  Two kinds of constants are excepted, and are treated
    wrongly: those that are rounded in the one binade where 31 bits are kept
    ([strtod_hex_31_wrong]), and negative ones that round to zero, whose sign
    is lost ([strtod_hex_zero_sign]). *)
Theorem strtod_hex h rest e : hex_ok h → ends (hd 0 rest) →
  hc_top h ≠ -1074 + 31 ∨ on_grid (hexval (hc_digits h)) (hc_expo h) (-1074) → (hc_neg h = true → hc_num h = 0 ∨ -1074 < hc_top h) →
  ∃ e', strtod (hc_text h ++ rest) e = Ret (binary_normalize 53 1024 (hc_num h) (hc_expo h) (hc_neg h), zlen (hc_text h)) e' ∧
    (e' = e ∨ e' = ERANGE) ∧ (hc_num h = 0 ∨ -1074 < hc_top h ≤ 1024 → e' = e).
Proof.
  intros Hok Hend H31 Hneg.
  destruct (floatscan_hex 1 h rest e) as (y & e' & Ey & Hy & He & Hr); [by right|done|done|by right|done|].
  exists e'. split; [|done]. unfold strtod, strtox, bind. rewrite Ey. unfold ret. cbn [sc_p sc_errno]. by rewrite <- (Hy : to_double y = binary_normalize 53 1024 _ _ _).
Qed.

(** Strtof rounds every hexadecimal constant correctly, once, from the
    constant to the nearest float: not first to a double or a long double. *)
Theorem strtof_hex h rest e : hex_ok h → ends (hd 0 rest) → (hc_neg h = true → hc_num h = 0 ∨ -149 < hc_top h) →
  ∃ e', strtof (hc_text h ++ rest) e = Ret (binary_normalize 24 128 (hc_num h) (hc_expo h) (hc_neg h), zlen (hc_text h)) e' ∧
    (e' = e ∨ e' = ERANGE) ∧ (hc_num h = 0 ∨ -149 < hc_top h ≤ 128 → e' = e).
Proof.
  intros Hok Hend Hneg.
  destruct (floatscan_hex 0 h rest e) as (y & e' & Ey & Hy & He & Hr); [by left|done|done|by left|done|].
  exists e'. split; [|done]. unfold strtof, strtox, bind. rewrite Ey. unfold ret. cbn [sc_p sc_errno]. by rewrite <- (Hy : to_float y = binary_normalize 24 128 _ _ _).
Qed.

(** " -0x1.8p-3," *)
Definition hex_example : hex_const := HexConst [32] (Some true) 120 [49] (Some [56]) (Some (112, Some true, [51])).

Lemma hex_example_ok : hex_ok hex_example.
Proof. split; [by repeat constructor|by left|by repeat constructor|by repeat constructor|done|by repeat split; [left|repeat constructor|]|done]. Qed.
Lemma comma_ends : ends 44.
Proof. done. Qed.

Lemma strtod_hex_witness : ∃ e', strtod (str " -0x1.8p-3,") 0 = Ret (binary_normalize 53 1024 (-24) (-7) true, 10) e' ∧
  (e' = 0 ∨ e' = ERANGE) ∧ (-24 = 0 ∨ -1074 < -2 ≤ 1024 → e' = 0).
Proof.
  exact (strtod_hex hex_example (str ",") 0 hex_example_ok comma_ends (or_introl (ltac:(done) : -2 ≠ -1074 + 31))
    (λ _, or_intror (ltac:(done) : -1074 < -2))).
Defined.

Lemma strtof_hex_witness : ∃ e', strtof (str " -0x1.8p-3,") 0 = Ret (binary_normalize 24 128 (-24) (-7) true, 10) e' ∧
  (e' = 0 ∨ e' = ERANGE) ∧ (-24 = 0 ∨ -149 < -2 ≤ 128 → e' = 0).
Proof.
  exact (strtof_hex hex_example (str ",") 0 hex_example_ok comma_ends (λ _, or_intror (ltac:(done) : -149 < -2))).
Defined.

(** *** Where rounding goes wrong *)

(** 0x80000001.8p-1075 lies between the denormal doubles 0x40000000 and
    0x40000001 times 2^-1074, nearer to the second one, and strtod returns the
    first one: of the 31 bits kept, [x++] and an odd [x] make a tie of what is
    more or less than one. *)
Lemma strtod_hex_31_wrong :
  strtod (str "0x80000001.8p-1075") 0 = Ret (S754_finite false 0x40000000 (-1074), 18) 0 ∧
  binary_normalize 53 1024 0x800000018 (-1079) false = S754_finite false 0x40000001 (-1074) ∧
  strtod (str "0x80000002.8p-1075") 0 = Ret (S754_finite false 0x40000002 (-1074), 18) 0 ∧
  binary_normalize 53 1024 0x800000028 (-1079) false = S754_finite false 0x40000001 (-1074).
Proof. vm_compute. repeat split; reflexivity. Qed.

(** strtold: digits behind the 29th count as half of the last bit kept, so that
    any of them makes a tie; a number just above an odd one is rounded up. *)
Lemma strtold_hex_tail_wrong :
  strtold (str "0x1.00000000000000000000000000010001") 0 = Ret (S754_finite false (2 ^ 112 + 2) (-112), 36) 0 ∧
  binary_normalize 113 16384 0x100000000000000000000000000010001 (-128) false = S754_finite false (2 ^ 112 + 1) (-112).
Proof. vm_compute. repeat split; reflexivity. Qed.

(** The sign of a negative constant that is rounded to zero is lost where the
    bias is taken away, and kept for one that is still smaller. *)
Lemma strtod_hex_zero_sign :
  strtod (str "-0x1p-1075") 0 = Ret (S754_zero false, 10) ERANGE ∧
  strtod (str "-0x1p-1500") 0 = Ret (S754_zero true, 10) ERANGE.
Proof. vm_compute. repeat split; reflexivity. Qed.

(** Overflow is an infinity, but errno says so only above 2^1106 or so: the test
    is made against [-emin], and the conversion to double behind it is not
    looked at.  Nor does underflow always set it. *)
Lemma strtod_hex_overflow_errno :
  strtod (str "0x1p1024") 0 = Ret (S754_infinity false, 8) 0 ∧
  strtod (str "0x1p1107") 0 = Ret (S754_infinity false, 8) ERANGE ∧
  strtod (str "1e309") 0 = Ret (S754_infinity false, 5) ERANGE ∧
  strtod (str "0x1.8p-1080") 0 = Ret (S754_zero false, 11) 0.
Proof. vm_compute. repeat split; reflexivity. Qed.
