(* ===== verification/FloatDec.v ===== *)
(** Decimal constants: [decfloat] (floatscan.c) is correctly rounded.

    The digits of the text go into the ring ([dec_digits_run]); the number they
    denote, times the power of ten of the exponent, is rounded once
    ([dec_value_run]).  [strtod_decimal] and [strtof_decimal] say so of the
    functions. *)
From S2P Require Import Prelude CMonad CBuffer Ctype Kernel RcFd Ieee Rounding FloatBias FloatScan DecRing DecScale DecDigits DecRound DecValue DecCases FloatHex.

(** ** Reading the digits *)

(** The state behind the leading zeros *)
Definition dec_start (gotrad gotdig : bool) (lrp : Z) : decimal := Decimal {[0 := 0]} 0 0 lrp 0 0 gotdig gotrad.

Lemma stored_start gotrad gotdig lrp : stored [] (dec_start gotrad gotdig lrp).
Proof.
  split; try done; cbn.
  - exists [], 0. done.
  - split; [done|]. by exists 0.
Qed.

Lemma dec_zeros_no_point s a d l p e : sees s p (replicate a 48 ++ d :: l) → d ≠ 48 → d ≠ 46 → Z.of_nat a < 18446744073709551616 →
  dec_zeros s (hd d (replicate a 48)) (Scan (p + 1) e) = Ret (d, dec_start false (any a false) 0) (Scan (p + Z.of_nat a + 1) e).
Proof.
  intros Hs Hd Hd46 Ha. unfold dec_zeros.
  rewrite (bind_run _ _ _ _ _ (hex_zeros_int s a d l p e Hs Hd Ha)). by rewrite (proj2 (Z.eqb_neq d 46)).
Qed.

Lemma dec_zeros_point s a n d l p e : sees s p (replicate a 48 ++ 46 :: replicate n 48 ++ d :: l) → d ≠ 48 →
  Z.of_nat a < 18446744073709551616 → Z.of_nat n < 18446744073709551616 →
  dec_zeros s (hd 46 (replicate a 48)) (Scan (p + 1) e) =
  Ret (d, dec_start true (any n (any a false)) (- Z.of_nat n)) (Scan (p + Z.of_nat a + 1 + Z.of_nat n + 1) e).
Proof.
  intros Hs Hd Ha Hn. unfold dec_zeros.
  rewrite (bind_run _ _ _ _ _ (hex_zeros_int s a 46 _ p e Hs ltac:(done) Ha)). cbn [Z.eqb Pos.eqb].
  apply sees_app in Hs; [|done]. rewrite zlen_replicate in Hs. apply sees_cons in Hs as (Hs & _ & _).
  rewrite bind_assoc, (bind_run _ _ _ _ _ (shgetc_zeros _ _ _ _ _ _ Hs)).
  by rewrite (bind_run _ _ _ _ _ (hex_zeros_frac s n d l _ e _ Hs Hd Hn)).
Qed.

(** One character of the main loop *)
Definition dec_read (d : decimal) (c : Z) : decimal :=
  if c =? 46 then Decimal (d_x d) (d_j d) (d_k d) (d_dc d) (d_dc d) (d_lnz d) (d_gotdig d) true
  else match dec_digit c d (Scan 0 0) with Ret d' _ => d' | _ => d end.
Definition dec_step_ok (d : decimal) (c : Z) : Prop :=
  is_dig c = true ∧ (∀ f, dec_digit c d f = Ret (dec_read d c) f) ∨ c = 46 ∧ d_gotrad d = false.

Lemma dec_loop_run s cs d l h p e : sees s p (cs ++ d :: l) → zlen cs < 18446744073709551616 → all_along dec_step_ok dec_read h cs →
  is_dig d = false → d ≠ 46 →
  loop (λ '(c, d),
    if is_dig c then d <- dec_digit c d ;; c <- shgetc s ;; ret (Continue (c, d))
    else if c =? 46 then
      if d_gotrad d then ret (Break (c, d))
      else
        c <- shgetc s ;;
        ret (Continue (c, Decimal (d_x d) (d_j d) (d_k d) (d_dc d) (d_dc d) (d_lnz d) (d_gotdig d) true))
    else ret (Break (c, d))) (hd d cs, h) (Scan (p + 1) e) = Ret (d, foldl dec_read h cs) (Scan (p + zlen cs + 1) e).
Proof.
  intros Hs Hlen Hcs Hd H46.
  apply (read_loop s _ _ (λ c h, (c, h)) dec_read (λ h, (d, h)) cs d l h p e _ Hs Hcs Hlen); [| |done].
  - intros c h' f [[Hc Hr]|[-> Hr]].
    + rewrite Hc. by rewrite (bind_run _ _ _ _ _ (Hr f)).
    + unfold dec_read. cbn. by rewrite Hr.
  - intros f. by rewrite Hd, (proj2 (Z.eqb_neq d 46)).
Qed.

(** Digits are stored one after the other. *)
Lemma stored_run ds cs d : stored ds d → dec_text cs → zlen ds + zlen cs ≤ 16000 → let d' := foldl dec_read d cs in
  all_along dec_step_ok dec_read d cs ∧ stored (ds ++ cs) d' ∧ same_point d d' ∧ d_gotdig d' = match cs with [] => d_gotdig d | _ => true end.
Proof.
  intros Hst Ht. revert ds d Hst. induction Ht as [|c cs Hc Ht IH]; intros ds d Hst Hlen; [by rewrite app_nil_r|].
  rewrite zlen_cons in Hlen. pose proof (zlen_nonneg cs).
  destruct (dec_digit_run ds c d Hst Hc ltac:(lia)) as (d1 & E1 & Hst1 & [Hl1 Hr1] & Hg1).
  assert (Hn46 : (c =? 46) = false) by (unfold is_dig in Hc; lia). assert (Ed : dec_read d c = d1) by (unfold dec_read; by rewrite Hn46, E1).
  cbn [foldl all_along]. rewrite Ed. destruct (IH (ds ++ [c]) d1 Hst1) as (H1 & H2 & [H3 H4] & H5); [rewrite zlen_app; change (zlen [c]) with 1; lia|].
  rewrite <- app_assoc in H2. cbn [app] in H2. split; [split; [left; rewrite Ed; by split|done]|]. split; [done|]. split; [split; congruence|].
  rewrite H5. by destruct cs.
Qed.

(** What [dec_digits] returns for the digits [ip], [fp]: the significant ones are
    in the ring, and the point is where it was. *)
Definition digits_stored (ip : bytes) (fp : option bytes) (d : decimal) : Prop :=
  ∃ ds, stored ds d ∧ dec_text ds ∧ hd 0 ds ≠ 48 ∧ decval ds = decval (ip ++ default [] fp) ∧ zlen ds ≤ zlen (ip ++ default [] fp) ∧
    d_gotdig d = true ∧ (if d_gotrad d then d_lrp d else d_dc d) - d_dc d = - zlen (default [] fp).

Lemma decval_zeros n cs : decval (replicate n 48 ++ cs) = decval cs.
Proof. unfold decval. rewrite foldl_app. f_equal. induction n; [done|]. cbn [replicate foldl]. done. Qed.

Lemma dec_text_app cs1 cs2 : dec_text (cs1 ++ cs2) ↔ dec_text cs1 ∧ dec_text cs2.
Proof. apply Forall_app. Qed.

(** Only zeros before the first digit, which is behind the point *)
Lemma dec_read_frac a n cs d : dec_text cs → hd 0 cs ≠ 48 → zlen cs ≤ 16000 → stored [] d → d_gotrad d = true → d_lrp d = - Z.of_nat n →
  (cs = [] → d_gotdig d = true) →
  all_along dec_step_ok dec_read d cs ∧ digits_stored (replicate a 48) (Some (replicate n 48 ++ cs)) (foldl dec_read d cs).
Proof.
  intros Ht Hd Hlen Hst Hr Hl Hgot. destruct (stored_run [] cs d Hst Ht ltac:(zlen_lia)) as (H1 & H2 & [H3 H4] & H5). split; [done|].
  exists cs. cbn [app default from_option id] in *. split; [done|]. split; [done|]. split; [done|]. split; [by rewrite !decval_zeros|].
  split; [zlen_lia|]. split; [rewrite H5; destruct cs; auto|]. rewrite H4, Hr, H3, Hl, (st_dc _ _ H2). zlen_lia.
Qed.

(** Digits before the point, and behind it *)
Lemma dec_read_int a cs fp d : dec_text cs → dec_text (default [] fp) → hd 0 cs ≠ 48 → zlen (cs ++ default [] fp) ≤ 16000 →
  cs ≠ [] ∨ fp = None ∧ d_gotdig d = true → stored [] d → d_gotrad d = false →
  all_along dec_step_ok dec_read d (cs ++ point fp) ∧ digits_stored (replicate a 48 ++ cs) fp (foldl dec_read d (cs ++ point fp)).
Proof.
  intros Ht Htf Hd Hlen Hne Hst Hr. rewrite foldl_app. rewrite zlen_app in Hlen. pose proof (zlen_nonneg (default [] fp)) as Hz.
  destruct (stored_run [] cs d Hst Ht ltac:(zlen_lia)) as (H1 & H2 & [H3 H4] & H5). cbn [app] in H2. set (d1 := foldl dec_read d cs) in *.
  assert (Hgot : d_gotdig d1 = true) by (rewrite H5; destruct cs; [by destruct Hne as [?|[_ ?]]|done]).
  destruct fp as [fp|]; cbn [point foldl default from_option id] in *.
  - destruct Hne as [Hne|[??]]; [|done]. set (d2 := dec_read d1 46).
    assert (stored cs d2) as Hst2 by (destruct H2; by split).
    destruct (stored_run cs fp d2 Hst2 Htf Hlen) as (H6 & H7 & [H8 H9] & H10).
    split; [apply all_along_app; [done|]; cbn [all_along]; split; [right; split; [done|fold d1; by rewrite H4]|done]|].
    exists (cs ++ fp). cbn [default from_option id]. split; [done|]. split; [by apply dec_text_app|]. split; [by destruct cs|]. split; [by rewrite <- app_assoc, decval_zeros|].
    split; [zlen_lia|]. split; [rewrite H10; by destruct fp|]. rewrite H9, H8, (st_dc _ _ H7). unfold d2, dec_read.
    cbn [Z.eqb Pos.eqb d_gotrad d_lrp]. rewrite (st_dc _ _ H2). zlen_lia.
  - rewrite app_nil_r. split; [done|]. exists cs. cbn [default from_option id]. split; [done|]. split; [done|]. split; [done|]. split; [by rewrite app_nil_r, decval_zeros|].
    split; [zlen_lia|]. split; [done|]. rewrite H4, Hr. change (zlen []) with 0. lia.
Qed.

(** The digits [ip] and [fp], up to [d] *)
Lemma dec_digits_run s ip fp d l p e : sees s p (ip ++ point fp ++ d :: l) → dec_text ip → dec_text (default [] fp) →
  ip ++ default [] fp ≠ [] → zlen (ip ++ default [] fp) ≤ 16000 → is_dig d = false → d ≠ 46 →
  ∃ h, dec_digits s (hd d (ip ++ point fp)) (Scan (p + 1) e) = Ret (d, h) (Scan (p + zlen (ip ++ point fp) + 1) e) ∧ digits_stored ip fp h.
Proof.
  intros Hs Hi Hf Hne Hlen Hd Hd46. assert (Hd48 : d ≠ 48) by (by intros ->).
  destruct (split_zeros ip) as (a & cs & -> & Hcs). apply dec_text_app in Hi as [_ Hi].
  rewrite <- app_assoc in Hs. unfold dec_digits. assert (Hpt : zlen (point fp) ≤ zlen (default [] fp) + 1) by (destruct fp; cbn [point default from_option id]; zlen_lia).
  assert (cs ≠ [] ∨ cs = [] ∧ fp = None ∨ cs = [] ∧ ∃ fs, fp = Some fs) as [Hc|[[-> ->]|[-> [fs ->]]]]
    by (destruct cs, fp; eauto).
  - destruct cs as [|c cs]; [done|]. pose proof (proj1 (Forall_cons _ _ _) Hi) as [Hc48 _].
    assert (c ≠ 46) by (by intros ->). replace (hd d ((replicate a 48 ++ c :: cs) ++ point fp)) with (hd c (replicate a 48)) by (by destruct a).
    rewrite (bind_run _ _ _ _ _ (dec_zeros_no_point s a c (cs ++ point fp ++ d :: l) p e Hs Hcs ltac:(done) ltac:(zlen_lia))).
    apply sees_app in Hs; [|done]. rewrite zlen_replicate, app_assoc in Hs.
    destruct (dec_read_int a (c :: cs) fp (dec_start false (any a false) 0)) as [Hok Hst]; try done; [zlen_lia|by left|apply stored_start|].
    eexists. split; [|exact Hst]. change c with (hd d ((c :: cs) ++ point fp)) at 1.
    rewrite (dec_loop_run s ((c :: cs) ++ point fp) d l _ _ e Hs); [f_equal; f_equal; zlen_lia|zlen_lia|done|done|done].
  - rewrite !app_nil_r in *. cbn [point app default from_option] in *. rewrite ?app_nil_r in *.
    rewrite (bind_run _ _ _ _ _ (dec_zeros_no_point s a d l p e Hs Hd48 Hd46 ltac:(zlen_lia))).
    apply sees_app in Hs; [|done]. rewrite zlen_replicate in Hs.
    destruct (dec_read_int a [] None (dec_start false (any a false) 0)) as [Hok Hst]; try done; [right; split; [done|by destruct a]|apply stored_start|].
    rewrite (dec_loop_run s [] d l _ _ e Hs); [|done..]. eexists. split; [do 2 f_equal; zlen_lia|]. rewrite app_nil_r in Hst. done.
  - cbn [default from_option id point] in *. destruct (split_zeros fs) as (n & cs & -> & Hcs'). apply dec_text_app in Hf as [_ Hf].
    cbn [app] in Hs. rewrite <- app_assoc in Hs. rewrite app_nil_r in *.
    destruct (cs ++ d :: l) as [|d2 l2] eqn:E2; [by destruct cs|].
    assert (Hd2 : d2 = hd d cs) by (destruct cs; by inversion E2).
    assert (Hd2' : d2 ≠ 48) by (subst d2; by destruct cs).
    replace (hd d (replicate a 48 ++ 46 :: replicate n 48 ++ cs)) with (hd 46 (replicate a 48)) by (by destruct a).
    rewrite (bind_run _ _ _ _ _ (dec_zeros_point s a n d2 l2 p e Hs Hd2' ltac:(zlen_lia) ltac:(zlen_lia))).
    apply sees_app in Hs; [|done]. rewrite zlen_replicate in Hs. apply sees_cons in Hs as (Hs & _ & _).
    apply sees_app in Hs; [|done]. rewrite zlen_replicate, <- E2 in Hs. rewrite Hd2.
    destruct (dec_read_frac a n cs (dec_start true (any n (any a false)) (- Z.of_nat n))) as [Hok Hst]; try done; [zlen_lia|apply stored_start| |].
    { intros ->. cbn [dec_start d_gotdig]. destruct n; [|done]. by destruct a. }
    eexists. split; [rewrite (dec_loop_run s cs d l _ _ e Hs); [f_equal; f_equal; zlen_lia|zlen_lia|done|done|done]|exact Hst].
Qed.

(** ** Decimal constants *)

(** White space, the sign, the digits before the point and behind it, the
    exponent: [e] or [E], its sign and digits. *)
Record dec_const := DecConst {
  kc_space : bytes; kc_sign : option bool; kc_int : bytes; kc_frac : option bytes; kc_exp : option (Z * option bool * bytes);
}.
Definition kc_digits (k : dec_const) : bytes := kc_int k ++ default [] (kc_frac k).
Definition kc_text (k : dec_const) : bytes :=
  kc_space k ++ exp_sign (kc_sign k) ++ kc_int k ++ point (kc_frac k) ++ exp_text (kc_exp k).
(** Its value is [kc_num * 10^kc_expo], with the sign. *)
Definition kc_neg (k : dec_const) : bool := match kc_sign k with Some true => true | _ => false end.
Definition kc_num (k : dec_const) : Z := decval (kc_digits k).
Definition kc_expo (k : dec_const) : Z := exp_value (kc_exp k) - zlen (default [] (kc_frac k)).

Record dec_ok (k : dec_const) : Prop := {
  dok_space : Forall (λ c, isspace c = true) (kc_space k);
  dok_int : dec_text (kc_int k);
  dok_frac : dec_text (default [] (kc_frac k));
  dok_digits : kc_digits k ≠ [];
  dok_many : zlen (kc_digits k) ≤ 16000;
  dok_exp : exp_ok (λ c, c = 101 ∨ c = 69) (kc_exp k);
  dok_len : zlen (kc_text k) < 4611686018427387904;
}.

(** A character that cannot go on with a constant *)
Definition dec_ends (d : Z) : Prop := is_dig d = false ∧ d ≠ 46 ∧ Z.lor d 32 ≠ 101 ∧ Z.lor d 32 ≠ 120.

Lemma dec_exponent_run s x d l lrp p e : sees s p (exp_text x ++ d :: l) → exp_ok (λ c, c = 101 ∨ c = 69) x → dec_ends d →
  zlen (exp_text x) < 4611686018427387904 →
  dec_exponent s (hd d (exp_text x)) lrp true true (Scan (p + 1) e) = Ret (Some (lrp + exp_value x)) (Scan (p + zlen (exp_text x)) e).
Proof.
  intros Hs Hx (Hd & H46 & He & _) Hlen. unfold dec_exponent. destruct x as [[[c sg] cs]|]; cbn [exp_text app hd exp_value andb] in *.
  - destruct Hx as (Hc & Hcs & Hne & Hv). apply sees_cons in Hs as (Hs & _ & _). rewrite <- app_assoc in Hs.
    assert (Hl : Z.lor c 32 = 101) by (by destruct Hc as [->| ->]). rewrite Hl. cbn [Z.eqb Pos.eqb].
    rewrite (bind_run _ _ _ _ _ (scanexp_run s sg cs d l _ e true Hs ltac:(zlen_lia) Hcs Hne Hd Hv)).
    pose proof (foldl_dec_mono cs Hcs 0 ltac:(lia)) as H0. fold (decval cs) in H0.
    rewrite (proj2 (Z.eqb_neq _ LLONG_MIN)) by (unfold LLONG_MIN, LLONG_MAX in *; destruct sg as [[|]|]; lia).
    unfold ret. do 2 f_equal. zlen_lia.
  - rewrite (proj2 (Z.eqb_neq _ _)) by done. rewrite (bind_run _ _ _ _ _ (shunget_run (p + 1) e ltac:(pose proof (proj1 Hs); lia))).
    unfold ret. rewrite Z.add_0_r. do 2 f_equal. change (zlen []) with 0. lia.
Qed.

(** The constant is read, rounded once, and errno is ERANGE when it is too large;
    [decfloat] begins behind its first character. *)
Lemma decfloat_rounds p mx sg s ip fp x d l q e (N := decval (ip ++ default [] fp)) (E := exp_value x - zlen (default [] fp))
    (text := ip ++ point fp ++ exp_text x) : narrow p mx → (sg = 1 ∨ sg = -1) → sees s q (text ++ d :: l) → zlen text < 4611686018427387904 →
  dec_text ip → dec_text (default [] fp) → ip ++ default [] fp ≠ [] → zlen (ip ++ default [] fp) ≤ 16000 →
  exp_ok (λ c, c = 101 ∨ c = 69) x → dec_ends d → N = 0 ∨ no_edge N E ∧ dec_den E ≤ dec_num N E * 2 ^ (- emin p mx - 1) →
  rounded_to p mx (nearest p mx sg N E) N E (Scan (q + zlen text) e) (decfloat s (hd d text) p (emin p mx) sg true (Scan (q + 1) e)).
Proof.
  intros Hf Hsg Hs Hlen Hi Hfr Hne Hmany Hx Hd Hok. unfold text in Hs, Hlen.
  set (d1 := hd d (exp_text x)). set (l1 := tl (exp_text x ++ d :: l)).
  assert (Hd1 : exp_text x ++ d :: l = d1 :: l1) by (by destruct x as [[[c sg'] cs]|]).
  assert (Hd1h : is_dig d1 = false ∧ d1 ≠ 46).
  { unfold d1. destruct x as [[[c sg'] cs]|]; cbn [exp_text hd]; [|by destruct Hd as (? & ? & _)]. destruct Hx as [[->| ->] _]; by split. }
  assert (Hhd : hd d text = hd d1 (ip ++ point fp)).
  { unfold text. rewrite app_assoc. destruct (ip ++ point fp) eqn:E0; [done|done]. }
  rewrite <- !app_assoc, Hd1 in Hs. unfold decfloat. rewrite Hhd.
  destruct (dec_digits_run s ip fp d1 l1 q e Hs Hi Hfr Hne Hmany (proj1 Hd1h) (proj2 Hd1h)) as (h & Eh & ds & Hst & Ht & Hd48 & HN & Hzl & Hgot & Hlrp).
  rewrite (bind_run _ _ _ _ _ Eh), Hgot. cbv zeta. set (lrp := if negb (d_gotrad h) then d_dc h else d_lrp h).
  assert (Hs1 : sees s (q + zlen (ip ++ point fp)) (exp_text x ++ d :: l)).
  { rewrite Hd1. apply sees_app; rewrite <- ?app_assoc; done. }
  rewrite (bind_run _ _ _ _ _ (dec_exponent_run s x d l lrp _ e Hs1 Hx Hd ltac:(zlen_lia))). cbn [negb].
  replace (q + zlen (ip ++ point fp) + zlen (exp_text x)) with (q + zlen text) by (unfold text; zlen_lia).
  assert (HE : lrp + exp_value x - zlen ds = E).
  { unfold lrp, E. rewrite (st_dc _ _ Hst) in *. destruct (d_gotrad h); cbn [negb]; lia. }
  assert (HdN : decval ds = N) by done. rewrite <- HE, <- HdN in *. apply dec_value_run; try done. lia.
Qed.

(** ** The functions *)

Lemma sign_char (c : Z) : is_dig c = true ∨ c = 46 → isspace c = false ∧ c ≠ 43 ∧ c ≠ 45 ∧ Z.lor c 32 ≠ 105 ∧ Z.lor c 32 ≠ 110.
Proof.
  intros Hc. assert (c ∈ seqZ 46 12) as Hin by (apply elem_of_seqZ; unfold is_dig in Hc; lia). vm_compute in Hin.
  repeat (apply elem_of_cons in Hin as [->|Hin]; [by repeat split|]). by apply elem_of_nil in Hin.
Qed.

(** A leading zero is looked behind, and read again. *)
Lemma zero_start s text d l q e (k : Z → M rc_scan ld) bits em sg : sees s q (text ++ d :: l) → text ≠ [] →
  (hd 0 text = 48 → Z.lor (hd d (tl text)) 32 ≠ 120) →
  (if hd 0 text =? 48 then
     c <- shgetc s ;; if Z.lor c 32 =? 120 then hexfloat s bits em sg true else shunget ;; k 48
   else k (hd 0 text)) (Scan (q + 1) e) = k (hd d text) (Scan (q + 1) e).
Proof.
  intros Hs Hne Hx. destruct text as [|c text]; [done|]. cbn [hd tl] in *. destruct (Z.eqb_spec c 48) as [->|]; [|done].
  cbn [app] in Hs. apply sees_cons in Hs as (Hs & Hq & _). assert (∃ l', text ++ d :: l = hd d text :: l') as [l' E] by (destruct text; by eexists). rewrite E in Hs.
  rewrite (bind_run _ _ _ _ _ (shgetc_run _ _ _ _ _ Hs)). rewrite (proj2 (Z.eqb_neq _ 120)) by auto.
  rewrite (bind_run _ _ _ _ _ (shunget_run (q + 1 + 1) e ltac:(pose proof (proj1 Hs); lia))). do 2 f_equal. lia.
Qed.

Lemma floatscan_dec prec k rest e (p := fst (format_of prec)) (mx := snd (format_of prec)) :
  prec = 0 ∨ prec = 1 → dec_ok k → dec_ends (hd 0 rest) →
  kc_num k = 0 ∨ no_edge (kc_num k) (kc_expo k) ∧ dec_den (kc_expo k) ≤ dec_num (kc_num k) (kc_expo k) * 2 ^ (- emin p mx - 1) →
  rounded_to p mx (nearest p mx (sign_value (kc_sign k)) (kc_num k) (kc_expo k)) (kc_num k) (kc_expo k) (Scan (zlen (kc_text k)) e)
    (__floatscan (kc_text k ++ rest) prec true (Scan 0 e)).
Proof.
  intros Hprec [Hsp Hi Hfr Hne Hmany Hex Hlen] Hend Hok. set (s := kc_text k ++ rest).
  assert (Hf : narrow p mx) by (unfold p, mx, narrow; destruct Hprec as [->| ->]; cbn; auto).
  destruct (sign_values (kc_sign k)) as (Hsv & _ & _).
  pose proof (sees_start s) as Hs. unfold s in Hs at 2. rewrite <- app_assoc in Hs.
  assert (∃ l, rest ++ [0] = hd 0 rest :: l) as [l El] by (destruct rest; by eexists). rewrite El in Hs.
  set (num := kc_int k ++ point (kc_frac k) ++ exp_text (kc_exp k)) in *.
  assert (Ht : kc_text k = kc_space k ++ exp_sign (kc_sign k) ++ num) by done.
  assert (Hnum : ∃ c t, num = c :: t ∧ (is_dig c = true ∨ c = 46)).
  { unfold num, kc_digits in *. destruct (kc_int k) as [|c t]; [|exists c; eexists; split; [done|]; apply Forall_cons in Hi as [? _]; by left].
    destruct (kc_frac k) as [fs|]; [|done]. exists 46. eexists. split; [done|by right]. }
  destruct Hnum as (c & t & Enum & Hc). destruct (sign_char c Hc) as (Hc1 & Hc2 & Hc3 & Hc4 & Hc5).
  rewrite Ht, <- !app_assoc in Hs.
  assert (Hlen' : zlen (kc_text k) = zlen (kc_space k) + zlen (exp_sign (kc_sign k)) + zlen num) by (rewrite Ht; zlen_lia).
  assert (Hmatch : (if prec =? 0 then Some (FLT_MANT_DIG, FLT_MIN_EXP) else if prec =? 1 then Some (DBL_MANT_DIG, DBL_MIN_EXP)
    else if prec =? 2 then Some (LDBL_MANT_DIG, LDBL_MIN_EXP) else None) = Some (p, emin p mx + p)).
  { unfold p, mx. by destruct Hprec as [->| ->]. }
  unfold __floatscan. rewrite Hmatch, Z.add_simpl_r. clear Hmatch.
  assert (Hs0 := Hs). rewrite Enum in Hs0. cbn [app] in Hs0. pose proof (zlen_nonneg (exp_sign (kc_sign k))). pose proof (zlen_nonneg num).
  rewrite <- bind_assoc, (bind_run _ _ _ _ _ (prefix_run s _ _ c _ 0 e Hs0 Hsp Hc1 Hc2 Hc3 ltac:(lia))).
  rewrite (bind_run _ _ _ _ _ (no_word s (str "infinity") 105 c _ ltac:(done) Hc4)). cbn [Z.eqb Z.ltb Z.compare orb andb].
  rewrite (bind_run _ _ _ _ _ (no_word s (str "nan") 110 c _ ltac:(done) Hc5)). cbn [Z.eqb Pos.eqb negb].
  rewrite app_assoc in Hs. apply sees_app in Hs; [|by destruct num]. rewrite zlen_app, Z.add_0_l in Hs. rewrite Z.add_0_l.
  set (q := zlen (kc_space k) + zlen (exp_sign (kc_sign k))) in *.
  replace c with (hd 0 num) by (by rewrite Enum).
  rewrite (zero_start s num (hd 0 rest) l q e (λ c, decfloat s c p (emin p mx) (sign_value (kc_sign k)) true) _ _ _ Hs); [|by rewrite Enum|].
  - rewrite Hlen'. apply (decfloat_rounds p mx _ s (kc_int k) (kc_frac k) (kc_exp k) (hd 0 rest) l q e); try done. fold num. pose proof (zlen_nonneg (kc_space k)). lia.
  - (* what is behind a leading zero *)
    intros H48. unfold num in H48 |- *. clear -H48 Hi Hfr Hex Hend Hne. destruct Hend as (Hd & _ & _ & Hd120).
    assert (Hdig : ∀ b, is_dig b = true ∨ b = 46 → Z.lor b 32 ≠ 120).
    { intros b Hb. assert (b ∈ seqZ 46 12) as Hin by (apply elem_of_seqZ; unfold is_dig in Hb; lia). vm_compute in Hin.
      repeat (apply elem_of_cons in Hin as [->|Hin]; [done|]). by apply elem_of_nil in Hin. }
    unfold kc_digits in Hne. destruct (kc_int k) as [|a [|b t]]; cbn [app hd tl] in *.
    + destruct (kc_frac k) as [fs|]; [discriminate H48|done].
    + destruct (kc_frac k) as [fs|]; [apply Hdig; by right|]. cbn [point app]. destruct (kc_exp k) as [[[b sg] cs]|]; [|done].
      destruct Hex as [[->| ->] _]; done.
    + apply Hdig. left. by apply Forall_cons in Hi as [_ [Hb _]%Forall_cons].
Qed.

(** C4: strtod rounds a decimal constant correctly: with white space, a sign,
    digits before and behind the point, an exponent, the result is the double
    nearest to the constant, ties to even, rounded once however long the
    constant is, denormal numbers included, an infinity when it is too large,
    and the end is behind the constant.  errno is ERANGE when it is too large and
    kept for the other normal numbers.  The constant is zero or at least 2^-1073,
    has 16000 digits at most, and does not make [decfloat] store in front of its
    array ([no_edge], [strtod_before_array]); below 2^-1073 negative constants are
    rounded wrongly ([strtod_tail_sign]). *)
Theorem strtod_decimal k rest e : dec_ok k → dec_ends (hd 0 rest) →
  kc_num k = 0 ∨ no_edge (kc_num k) (kc_expo k) ∧ dec_den (kc_expo k) ≤ dec_num (kc_num k) (kc_expo k) * 2 ^ 1073 →
  ∃ e', strtod (kc_text k ++ rest) e = Ret (nearest 53 1024 (sign_value (kc_sign k)) (kc_num k) (kc_expo k), zlen (kc_text k)) e' ∧
    (e' = e ∨ e' = ERANGE) ∧
    (kc_num k = 0 ∨ dec_den (kc_expo k) ≤ dec_num (kc_num k) (kc_expo k) * 2 ^ 1022 →
     e' = if sf_infinite (nearest 53 1024 (sign_value (kc_sign k)) (kc_num k) (kc_expo k)) then ERANGE else e).
Proof.
  intros Hok Hend Hv. destruct (floatscan_dec 1 k rest e) as (y & f' & Ey & Hy & He & Hr); [by right|done|done|exact Hv|].
  exists (sc_errno f'). unfold strtod, strtox, bind. rewrite Ey. unfold ret.
  assert (sc_p f' = zlen (kc_text k)) as -> by (by destruct He as [->| ->]).
  assert (to_double y = nearest 53 1024 (sign_value (kc_sign k)) (kc_num k) (kc_expo k)) as -> by exact Hy.
  split; [done|]. split; [destruct He as [->| ->]; auto|]. intros Hn. rewrite (Hr Hn). cbn [format_of fst snd Z.eqb]. by destruct (sf_infinite _).
Qed.

(** C22: strtof rounds a decimal constant correctly to the nearest float, once:
    not first to a double or a long double; errno is as with strtod, and so are
    the conditions on the constant, with 2^-148 for the bound. *)
Theorem strtof_decimal k rest e : dec_ok k → dec_ends (hd 0 rest) →
  kc_num k = 0 ∨ no_edge (kc_num k) (kc_expo k) ∧ dec_den (kc_expo k) ≤ dec_num (kc_num k) (kc_expo k) * 2 ^ 148 →
  ∃ e', strtof (kc_text k ++ rest) e = Ret (nearest 24 128 (sign_value (kc_sign k)) (kc_num k) (kc_expo k), zlen (kc_text k)) e' ∧
    (e' = e ∨ e' = ERANGE) ∧
    (kc_num k = 0 ∨ dec_den (kc_expo k) ≤ dec_num (kc_num k) (kc_expo k) * 2 ^ 126 →
     e' = if sf_infinite (nearest 24 128 (sign_value (kc_sign k)) (kc_num k) (kc_expo k)) then ERANGE else e).
Proof.
  intros Hok Hend Hv. destruct (floatscan_dec 0 k rest e) as (y & f' & Ey & Hy & He & Hr); [by left|done|done|exact Hv|].
  exists (sc_errno f'). unfold strtof, strtox, bind. rewrite Ey. unfold ret.
  assert (sc_p f' = zlen (kc_text k)) as -> by (by destruct He as [->| ->]).
  assert (to_float y = nearest 24 128 (sign_value (kc_sign k)) (kc_num k) (kc_expo k)) as -> by exact Hy.
  split; [done|]. split; [destruct He as [->| ->]; auto|]. intros Hn. rewrite (Hr Hn). cbn [format_of fst snd Z.eqb]. by destruct (sf_infinite _).
Qed.

(** " -12.345e-6," *)
Definition dec_example : dec_const := DecConst [32] (Some true) [49; 50] (Some [51; 52; 53]) (Some (101, Some true, [54])).

Lemma dec_example_ok : dec_ok dec_example.
Proof. split; [by repeat constructor|by repeat constructor|by repeat constructor|done|done|by repeat split; [left|repeat constructor|]|done]. Qed.
Lemma comma_ends_dec : dec_ends 44.
Proof. done. Qed.

Lemma dec_example_edge : no_edge 12345 (-9).
Proof. right. right. vm_compute. discriminate. Qed.

Lemma strtod_decimal_witness : ∃ e', strtod (str " -12.345e-6,") 0 = Ret (nearest 53 1024 (-1) 12345 (-9), 11) e' ∧
  (e' = 0 ∨ e' = ERANGE) ∧
  (12345 = 0 ∨ dec_den (-9) ≤ dec_num 12345 (-9) * 2 ^ 1022 → e' = if sf_infinite (nearest 53 1024 (-1) 12345 (-9)) then ERANGE else 0).
Proof.
  apply (strtod_decimal dec_example (str ",") 0 dec_example_ok comma_ends_dec).
  right. split; [exact dec_example_edge|]. apply Z.leb_le. vm_compute. reflexivity.
Defined.

Lemma strtof_decimal_witness : ∃ e', strtof (str " -12.345e-6,") 0 = Ret (nearest 24 128 (-1) 12345 (-9), 11) e' ∧
  (e' = 0 ∨ e' = ERANGE) ∧
  (12345 = 0 ∨ dec_den (-9) ≤ dec_num 12345 (-9) * 2 ^ 126 → e' = if sf_infinite (nearest 24 128 (-1) 12345 (-9)) then ERANGE else 0).
Proof.
  apply (strtof_decimal dec_example (str ",") 0 dec_example_ok comma_ends_dec).
  right. split; [exact dec_example_edge|]. apply Z.leb_le. vm_compute. reflexivity.
Defined.

(** *** Where rounding goes wrong *)

(** The digits of a number *)
Fixpoint digits_of (fuel : nat) (n : Z) (acc : bytes) : bytes :=
  match fuel with O => acc | S k => if n =? 0 then acc else digits_of k (n / 10) (48 + n mod 10 :: acc) end.

(** Just above half of the least denormal number, and just above one and a half
    of it: "frac++" makes a fraction that is zero count, but for a negative
    number it has the wrong sign. *)
Lemma strtod_tail_sign :
  let half := digits_of 2000 (5 ^ 1075 * 10 ^ 30 + 1) [] ++ str "e-1105" in
  let more := digits_of 2000 (3 * 5 ^ 1075 * 10 ^ 30 + 1) [] ++ str "e-1105" in
  strtod half 0 = Ret (S754_finite false 1 (-1074), 788) 0 ∧ strtod (45 :: half) 0 = Ret (S754_zero false, 789) ERANGE ∧
  strtod more 0 = Ret (S754_finite false 2 (-1074), 788) 0 ∧ strtod (45 :: more) 0 = Ret (S754_finite true 1 (-1074), 789) ERANGE.
Proof. vm_compute. repeat split; reflexivity. Qed.
