(* ===== verification/FmtFp.v ===== *)
(** Floating-point printing: src/lib/racccoon-libc/src/fmt_fp.inc, the %e, %f, %g
    and %a conversions.

    Like [vformat] it runs over an emitter.  [big], the array of base-10^9
    digits, is a map from indices, in which an element that was not written is
    missing: reading one, or storing outside the array, is a [Fault]; the
    pointers into it are indices.  A conversion of a long double to an integer
    type that cannot hold it is a [Fault] too.  [fp_text] is the text the
    conversion writes: what [Printf] takes as its parameter. *)
From S2P Require Import Prelude CMonad CMemory CBuffer Ctype CStdlib Ieee Printf.

Definition BIG : Z := 1842.     (* (LDBL_MANT_DIG+28)/29 + 1 + (LDBL_MAX_EXP+LDBL_MANT_DIG+28+8)/9 *)
Definition B1B : Z := 1000000000.
Definition digits9 : Type := gmap Z Z.
Definition prefixes : bytes := str "-0X+0X 0X-0x+0x 0x".
Definition xdigits : bytes := str "0123456789ABCDEF".

(** A conversion to an integer: towards zero *)
Definition ld_trunc (y : ld) : option Z :=
  match y with
  | S754_zero _ => Some 0
  | S754_finite s m e =>
      let n := if 0 <=? e then Zpos m * 2 ^ e else Zpos m / 2 ^ (- e) in Some (if s then - n else n)
  | _ => None
  end.
(** [frexpl]: a fraction in [1/2, 1) and the exponent *)
Definition frexpl (y : ld) : ld * Z :=
  match y with S754_finite _ _ _ => SFfrexp LDBL_MANT_DIG LDBL_MAX_EXP y | _ => (y, 0) end.
Definition ld_ne (x y : ld) : bool := negb (SFeqb x y).
Definition ld_two : ld := ld_dyadic 1 1.

Section fmt.
Context {S : Type} (emit : bytes → M S unit).

Definition to_int (y : ld) : M S Z :=
  n <- of_option (ld_trunc y) ;; int_ok n.
Definition to_uint32 (y : ld) : M S Z :=
  n <- of_option (ld_trunc y) ;; if (0 <=? n) && (n <? 4294967296) then ret n else fault.
Definition brd (x : digits9) (i : Z) : M S Z := of_option (x !! i).
Definition bwr (x : digits9) (i v : Z) : M S digits9 :=
  if (0 <=? i) && (i <? BIG) then ret (<[i := v]> x) else fault.
(** A text that has to fit into an array of [cap] characters *)
Definition fit (cap : Z) (s : bytes) : M S bytes := if zlen s <=? cap then ret s else fault.
Definition zeros_to (n : Z) (s : bytes) : bytes := replicate (Z.to_nat (n - zlen s)) 48 ++ s.
Definition lower (t : Z) : Z := Z.lor t 32.
Definition case_of (t : Z) : Z := Z.land t 32.

(** The magnitude, where its prefix starts in [prefixes], the length of the sign;
    [neg] is [signbit(y)], which a NaN has too *)
Definition fp_sign (neg : bool) (y : ld) (fl : Z) : ld * Z * Z :=
  if neg then (SFopp y, 0, 1)
  else if has_flag fl MARK_POS then (y, 3, 1)
  else if has_flag fl PAD_POS then (y, 6, 1)
  else (y, 1, 0).

Definition is_finite (y : ld) : bool := match y with S754_zero _ | S754_finite _ _ _ => true | _ => false end.

(** Infinities and NaNs *)
Definition fp_special (y : ld) (w fl t pi pl : Z) : M S Z :=
  let s := if SFeqb y y then if negb (case_of t =? 0) then str "inf" else str "INF"
           else if negb (case_of t =? 0) then str "nan" else str "NAN" in
  fp_pad emit 32 w (3 + pl) (Z.land fl (Z.lnot ZERO_PAD)) ;;
  emit (sliceZ pi pl prefixes) ;;
  emit s ;;
  fp_pad emit 32 w (3 + pl) (Z.lxor fl LEFT_ADJ) ;;
  ret (Z.max w (3 + pl)).

(** ** %a *)

(** Rounding to [p] digits, by adding and subtracting *)
Definition hex_to_prec (y : ld) (p pi : Z) : M S ld :=
  let re := if (p <? 0) || (LDBL_MANT_DIG / 4 - 1 <=? p) then 0 else LDBL_MANT_DIG / 4 - 1 - p in
  if re =? 0 then ret y
  else
    round <- loop (λ '(re, round),
      if re =? 0 then ret (Break round) else ret (Continue (re - 1, ld_mul round (ld_of_int 16))))
      (re, ld_mul (ld_of_int 8) (ld_of_int (Z.shiftl 1 (LDBL_MANT_DIG mod 4)))) ;;
    c <- of_option (idx prefixes pi) ;;
    if c =? 45 then ret (SFopp (ld_add (ld_sub (SFopp y) round) round))
    else ret (ld_sub (ld_add y round) round).

(** The exponent behind [c]: [pad] digits at least *)
Definition exp_chars (e2 c pad : Z) : M S bytes :=
  estr <- fp_fmt_u (Z.abs e2) [] ;;
  fit 12 (u8 c :: (if e2 <? 0 then 45 else 43) :: zeros_to pad estr).

(** [do { ... } while (y);]: the digits *)
Definition hex_chars (y : ld) (p fl t : Z) : M S bytes :=
  loop (λ '(y, s),
    x <- to_int y ;;
    c <- of_option (idx xdigits x) ;;
    s <- push 37 s (Z.lor c (case_of t)) ;;
    let y := ld_mul (ld_of_int 16) (ld_sub y (ld_of_int x)) in
    s <- (if (zlen s =? 1) && (negb (ld_zero y) || (0 <? p) || has_flag fl ALT_FORM) then push 37 s 46 else ret s) ;;
    if negb (ld_zero y) then ret (Continue (y, s)) else ret (Break s)) (y, []).

Definition fp_hex (y : ld) (e2 w p fl t pi pl : Z) : M S Z :=
  let pi := if negb (case_of t =? 0) then pi + 9 else pi in
  let pl := pl + 2 in
  y <- hex_to_prec y p pi ;;
  estr <- exp_chars e2 (t + 15) 1 ;;
  buf <- hex_chars y p fl t ;;
  if INT_MAX - 2 - zlen estr - pl <? p then ret (-1)
  else
    let l := if negb (p =? 0) && (zlen buf - 2 <? p) then p + 2 + zlen estr else zlen buf + zlen estr in
    fp_pad emit 32 w (pl + l) fl ;;
    emit (sliceZ pi pl prefixes) ;;
    fp_pad emit 48 w (pl + l) (Z.lxor fl ZERO_PAD) ;;
    emit buf ;;
    fp_pad emit 48 (l - zlen estr - zlen buf) 0 0 ;;
    emit estr ;;
    fp_pad emit 32 w (pl + l) (Z.lxor fl LEFT_ADJ) ;;
    ret (Z.max w (pl + l)).

(** ** The decimal expansion: [x], [a], [z] *)

(** [do { *z = y; y = 1000000000*(y-*z++); } while (y);] *)
Definition expand (y : ld) (z : Z) : M S (digits9 * Z) :=
  loop (λ '(y, x, z),
    v <- to_uint32 y ;;
    x <- bwr x z v ;;
    let y := ld_mul (ld_of_int B1B) (ld_sub y (ld_of_int v)) in
    if negb (ld_zero y) then ret (Continue (y, x, z + 1)) else ret (Break (x, z + 1))) (y, ∅, z).

(** [while (z>a && !z[-1]) z--;] *)
Definition trim (x : digits9) (a z : Z) : M S Z :=
  loop (λ z,
    if a <? z then v <- brd x (z - 1) ;; if v =? 0 then ret (Continue (z - 1)) else ret (Break z)
    else ret (Break z)) z.

(** Times [2^e2] *)
Definition scale_up (x : digits9) (a z e2 : Z) : M S (digits9 * Z * Z) :=
  loop (λ '(x, a, z, e2),
    if 0 <? e2 then
      let sh := Z.min 29 e2 in
      let* (x, carry) := loop (λ '(d, x, carry),
        if a <=? d then
          v <- brd x d ;;
          let n := Z.shiftl v sh + carry in
          x <- bwr x d (n mod B1B) ;; ret (Continue (d - 1, x, u32 (n / B1B)))
        else ret (Break (x, carry))) (z - 1, x, 0) in
      let* (x, a) := if negb (carry =? 0) then x <- bwr x (a - 1) carry ;; ret (x, a - 1) else ret (x, a) in
      z <- trim x a z ;;
      ret (Continue (x, a, z, e2 - sh))
    else ret (Break (x, a, z))) (x, a, z, e2).

(** Divided by [2^-e2]; digits past the requested precision are dropped. *)
Definition scale_down (x : digits9) (a z r e2 p t : Z) : M S (digits9 * Z * Z) :=
  loop (λ '(x, a, z, e2),
    if e2 <? 0 then
      let sh := Z.min 9 (- e2) in
      let need := 1 + u32 (p + LDBL_MANT_DIG / 3 + 8) / 9 in
      let* (x, carry) := loop (λ '(d, x, carry),
        if d <? z then
          v <- brd x d ;;
          x <- bwr x d (u32 (Z.shiftr v sh + carry)) ;;
          ret (Continue (d + 1, x, u32 (Z.shiftr B1B sh * Z.land v (Z.shiftl 1 sh - 1))))
        else ret (Break (x, carry))) (a, x, 0) in
      v <- brd x a ;;
      let a := if v =? 0 then a + 1 else a in
      let* (x, z) := if negb (carry =? 0) then x <- bwr x z carry ;; ret (x, z + 1) else ret (x, z) in
      let b := if lower t =? 102 then r else a in
      ret (Continue (x, a, if need <? z - b then b + need else z, e2 + sh))
    else ret (Break (x, a, z))) (x, a, z, e2).

(** The decimal exponent: [for (i=10, e=9*(r-a); *a>=i; i*=10, e++);] *)
Definition dec_expo (x : digits9) (a r : Z) : M S Z :=
  v <- brd x a ;;
  loop (λ '(i, e), if i <=? v then i <- int_ok (i * 10) ;; ret (Continue (i, e + 1)) else ret (Break e)) (10, 9 * (r - a)).

(** ** Rounding: [x], [a], [z], [e] *)

(** [while ( *d > 999999999) { *d--=0; if (d<a) *--a=0; ( *d)++; }] *)
Definition carry_up (x : digits9) (a d : Z) : M S (digits9 * Z) :=
  loop (λ '(x, a, d),
    v <- brd x d ;;
    if 999999999 <? v then
      x <- bwr x d 0 ;;
      let d := d - 1 in
      let* (x, a) := if d <? a then x <- bwr x (a - 1) 0 ;; ret (x, a - 1) else ret (x, a) in
      v <- brd x d ;;
      x <- bwr x d (u32 (v + 1)) ;;
      ret (Continue (x, a, d))
    else ret (Break (x, a))) (x, a, d).

(** Is the part [x], of a unit [i], behind [d] rounded up? *)
Definition rounds_up (v x i : Z) (odd_before last neg : bool) : bool :=
  let round := ld_dyadic 1 LDBL_MANT_DIG in                     (* 2/LDBL_EPSILON *)
  let round := if odd_before then ld_add round (ld_of_int 2) else round in
  let small := if x <? i / 2 then ld_dyadic 1 (-1) else if (x =? i / 2) && last then ld_of_int 1 else ld_dyadic 3 (-1) in
  let '(round, small) := if neg then (SFopp round, SFopp small) else (round, small) in
  ld_ne (ld_add round small) round.

Definition round_at (x : digits9) (a z r e j pi pl : Z) : M S (digits9 * Z * Z * Z) :=
  let d := r + 1 + (Z.quot (j + 9 * LDBL_MAX_EXP) 9 - LDBL_MAX_EXP) in
  let j := Z.rem (j + 9 * LDBL_MAX_EXP) 9 in
  i <- loop (λ '(i, j), if j <? 9 then ret (Continue (i * 10, j + 1)) else ret (Break i)) (10, j + 1) ;;
  v <- brd x d ;;
  let rest := v mod i in
  let* (x, a, e) :=
    (if negb (rest =? 0) || negb (d + 1 =? z) then
       odd <- (if negb (Z.land (v / i) 1 =? 0) then ret true
               else if (i =? B1B) && (a <? d) then u <- brd x (d - 1) ;; ret (negb (Z.land u 1 =? 0))
               else ret false) ;;
       c <- of_option (idx prefixes pi) ;;
       let neg := negb (pl =? 0) && (c =? 45) in
       x <- bwr x d (v - rest) ;;
       if rounds_up v rest i odd (d + 1 =? z) neg then
         x <- bwr x d (u32 (v - rest + i)) ;;
         let* (x, a) := carry_up x a d in
         e <- dec_expo x a r ;; ret (x, a, e)
       else ret (x, a, e)
     else ret (x, a, e)) in
  ret (x, a, if d + 1 <? z then d + 1 else z, e).

(** ** %g: the conversion and the precision *)
Definition fp_general (x : digits9) (a z r e p fl t : Z) : M S (Z * Z) :=
  let p := if p =? 0 then 1 else p in
  let '(t, p) := if (e <? p) && (-4 <=? e) then (t - 1, p - (e + 1)) else (t - 2, p - 1) in
  if has_flag fl ALT_FORM then ret (t, p)
  else
    v <- (if a <? z then brd x (z - 1) else ret 0) ;;
    j <- (if negb (v =? 0)
          then loop (λ '(i, j), if v mod i =? 0 then i <- int_ok (i * 10) ;; ret (Continue (i, j + 1)) else ret (Break j)) (10, 0)
          else ret 9) ;;
    if lower t =? 102 then ret (t, Z.min p (Z.max 0 (9 * (z - r - 1) - j)))
    else ret (t, Z.min p (Z.max 0 (9 * (z - r - 1) + e - j))).

(** ** Output *)

Definition emit_fixed (x : digits9) (a z r p fl : Z) : M S unit :=
  let a := if r <? a then r else a in
  loop (λ d,
    if d <=? r then
      v <- brd x d ;; s <- fp_fmt_u v [] ;; s <- fit 9 s ;;
      emit (if negb (d =? a) then zeros_to 9 s else zeros_to 1 s) ;;
      ret (Continue (d + 1))
    else ret (Break tt)) a ;;
  (if negb (p =? 0) || has_flag fl ALT_FORM then emit [46] else ret tt) ;;
  p <- loop (λ '(d, p),
    if (d <? z) && (0 <? p) then
      v <- brd x d ;; s <- fp_fmt_u v [] ;; s <- fit 9 s ;;
      emit (takeZ (Z.min 9 p) (zeros_to 9 s)) ;;
      ret (Continue (d + 1, p - 9))
    else ret (Break p)) (r + 1, p) ;;
  fp_pad emit 48 (p + 9) 9 0.

Definition emit_exp (x : digits9) (a z p fl : Z) (estr : bytes) : M S unit :=
  let z := if z <=? a then a + 1 else z in
  p <- loop (λ '(d, p),
    if (d <? z) && (0 <=? p) then
      v <- brd x d ;; s <- fp_fmt_u v [] ;; s <- fit 9 s ;;
      let s := zeros_to 1 s in
      s <- (if negb (d =? a) then ret (zeros_to 9 s)
            else
              emit (takeZ 1 s) ;;
              (if (0 <? p) || has_flag fl ALT_FORM then emit [46] else ret tt) ;;
              ret (dropZ 1 s)) ;;
      emit (takeZ (Z.min (zlen s) p) s) ;;
      ret (Continue (d + 1, p - zlen s))
    else ret (Break p)) (a, p) ;;
  fp_pad emit 48 (p + 18) 18 0 ;;
  emit estr.

Definition fp_dec (y : ld) (e2 w p fl t pi pl : Z) : M S Z :=
  let p := if p <? 0 then 6 else p in
  let '(y, e2) := if negb (ld_zero y) then (ld_mul y (ld_dyadic 1 28), e2 - 28) else (y, e2) in
  let r := if e2 <? 0 then 0 else BIG - LDBL_MANT_DIG - 1 in
  let* (x, z) := expand y r in
  let* (x, a, z) := scale_up x r z e2 in
  let* (x, a, z) := scale_down x a z r e2 p t in
  e <- (if a <? z then dec_expo x a r else ret 0) ;;
  let j := p - (if negb (lower t =? 102) then e else 0) - (if (lower t =? 103) && negb (p =? 0) then 1 else 0) in
  let* (x, a, z, e) := if j <? 9 * (z - r - 1) then round_at x a z r e j pi pl else ret (x, a, z, e) in
  z <- trim x a z ;;
  let* (t, p) := if lower t =? 103 then fp_general x a z r e p fl t else ret (t, p) in
  let point := if negb (p =? 0) || has_flag fl ALT_FORM then 1 else 0 in
  if INT_MAX - 1 - point <? p then ret (-1)
  else
    let l := 1 + p + point in
    let* (l, estr) :=
      (if lower t =? 102 then
         if INT_MAX - l <? e then ret (None, []) else ret (Some (if 0 <? e then l + e else l), [])
       else
         estr <- exp_chars e t 2 ;;
         if INT_MAX - l <? zlen estr then ret (None, []) else ret (Some (l + zlen estr), estr)) in
    match l with
    | None => ret (-1)
    | Some l =>
        if INT_MAX - pl <? l then ret (-1)
        else
          fp_pad emit 32 w (pl + l) fl ;;
          emit (sliceZ pi pl prefixes) ;;
          fp_pad emit 48 w (pl + l) (Z.lxor fl ZERO_PAD) ;;
          (if lower t =? 102 then emit_fixed x a z r p fl else emit_exp x a z p fl estr) ;;
          fp_pad emit 32 w (pl + l) (Z.lxor fl LEFT_ADJ) ;;
          ret (Z.max w (pl + l))
    end.

Definition fmt_fp (neg : bool) (y : ld) (w p fl t : Z) : M S Z :=
  let '(y, pi, pl) := fp_sign neg y fl in
  if negb (is_finite y) then fp_special y w fl t pi pl
  else
    let '(y, e2) := frexpl y in
    let y := ld_mul y ld_two in
    let e2 := if negb (ld_zero y) then e2 - 1 else e2 in
    if lower t =? 97 then fp_hex y e2 w p fl t pi pl else fp_dec y e2 w p fl t pi pl.
End fmt.

(** The argument of a conversion, as a long double *)
Definition slot_value (v : va_slot) : ld :=
  match v with
  | VDouble b => to_ldouble (of_bits DBL_MANT_DIG DBL_MAX_EXP b)
  | VLongDouble b => of_bits LDBL_MANT_DIG LDBL_MAX_EXP b
  | _ => S754_nan
  end.
(** Its sign bit: the conversion from double to long double keeps it, of a NaN
    too *)
Definition slot_sign (v : va_slot) : bool :=
  match v with VDouble b => Z.testbit b 63 | VLongDouble b => Z.testbit b 127 | _ => false end.
(** The text of a conversion *)
Definition fp_text (v : va_slot) (w p fl t : Z) : bytes :=
  match fmt_fp (λ s, modify (λ text : bytes, text ++ s)) (slot_sign v) (slot_value v) w p fl t [] with
  | Ret _ text => text
  | _ => []
  end.
