(* ===== verification/FloatRoundtrip.v ===== *)
(** Printing and reading a floating-point number: "%a" writes a hexadecimal
    constant, and strtod reads the number back, whatever it is. *)
From S2P Require Import Prelude CMonad CMemory CBuffer Ctype CStdlib Printf Kernel RcFd Ieee Rounding FloatScan FloatHex FmtFp.

(** ** fmt_fp on a text *)

Definition put_text (s : bytes) : M bytes unit := modify (λ text, text ++ s).

Lemma fp_pad_none c w l fl text : w ≤ l → fp_pad put_text c w l fl text = Ret tt text.
Proof. intros. unfold fp_pad. replace (w <=? l) with true by lia. by rewrite orb_true_r. Qed.

(** Decimal digits *)
Lemma fp_fmt_u_run {S} x (st : S) : 0 ≤ x < 18446744073709551616 →
  ∃ ds, fp_fmt_u x [] st = Ret ds st ∧ dec_text ds ∧ decval ds = x ∧ (ds = [] ∨ 10 ^ (zlen ds - 1) ≤ x).
Proof.
  intros Hx.
  enough (wp (fp_fmt_u x []) (λ ds st', st' = st ∧ dec_text ds ∧ decval ds = x ∧ (ds = [] ∨ 10 ^ (zlen ds - 1) ≤ x)) st) as H.
  { destruct (wp_inv _ _ _ H) as (ds & st' & E & -> & H'). by exists ds. }
  assert (Hshift : ∀ ds a, foldl (λ a c, 10 * a + (c - 48)) a ds = a * 10 ^ zlen ds + decval ds).
  { induction ds as [|c ds IH]; intros a; [change (10 ^ zlen (@nil Z)) with 1; cbn; lia|]. unfold decval. cbn [foldl]. rewrite IH, (IH (10 * 0 + (c - 48))), zlen_cons.
    rewrite Z.pow_add_r by (pose proof (zlen_nonneg ds); lia). lia. }
  apply (wp_loop _ (λ '(y, ds) st', st' = st ∧ dec_text ds ∧ x = y * 10 ^ zlen ds + decval ds ∧ 0 ≤ y ∧ 0 ≤ decval ds ∧
    (ds = [] ∨ 10 ^ (zlen ds - 1) ≤ x)) (λ '(y, _) _, y)).
  - intros [y ds] st' H. apply H.
  - intros [y ds] st' (-> & Ht & E & Hy & Hd & Hl). destruct (Z.eqb_spec y 0) as [->|Hy0].
    + apply wp_ret. split; [done|]. split; [done|]. split; [lia|done].
    + apply wp_ret. split; [|lia]. split; [done|]. split; [constructor; [unfold is_dig; lia|done]|].
      pose proof (zlen_nonneg ds). pose proof (Z.pow_pos_nonneg 10 (zlen ds) ltac:(lia) ltac:(lia)).
      assert (decval ((48 + y mod 10) :: ds) = y mod 10 * 10 ^ zlen ds + decval ds) as E1.
      { unfold decval at 1. cbn [foldl]. rewrite Hshift. do 2 f_equal. lia. }
      rewrite E1, zlen_cons, Z.pow_add_r by lia. change (10 ^ 1) with 10.
      split; [rewrite E; pose proof (Z.div_mod y 10 ltac:(lia)) as Hdm; rewrite Hdm at 1; lia|]. split; [lia|]. split; [nia|right].
      replace (1 + zlen ds - 1) with (zlen ds) by lia. nia.
  - change (10 ^ zlen (@nil Z)) with 1. change (decval []) with 0. repeat split; try lia; [by constructor|by left].
  - lia.
Qed.

(** The exponent, as a constant has it *)
Lemma exp_chars_run {S} e2 (st : S) : Z.abs e2 < 100000 →
  ∃ ds, exp_chars e2 112 1 st = Ret (exp_text (Some (112, Some (e2 <? 0), ds))) st ∧
    dec_text ds ∧ ds ≠ [] ∧ exp_value (Some (112, Some (e2 <? 0), ds)) = e2 ∧ decval ds < 100000 ∧ zlen ds ≤ 5.
Proof.
  intros He. destruct (fp_fmt_u_run (Z.abs e2) st ltac:(lia)) as (ds & E & Ht & Hv & Hl). unfold exp_chars.
  rewrite (bind_run _ _ _ _ _ E).
  assert (Hl5 : zlen ds ≤ 5).
  { destruct Hl as [->|Hl]; [done|]. destruct (Z_le_gt_dec (zlen ds) 5); [done|].
    pose proof (Z.pow_le_mono_r 10 5 (zlen ds - 1) ltac:(lia) ltac:(lia)). lia. }
  assert (∃ ds', zeros_to 1 ds = ds' ∧ dec_text ds' ∧ ds' ≠ [] ∧ decval ds' = Z.abs e2 ∧ zlen ds' ≤ 5) as (ds' & Eds & Ht' & Hne & Hv' & Hl').
  { unfold zeros_to. destruct ds as [|c ds].
    - exists [48]. change (zlen []) with 0. split; [done|]. split; [by repeat constructor|]. repeat split; done.
    - exists (c :: ds). rewrite zlen_cons in Hl5 |- *. pose proof (zlen_nonneg ds). replace (Z.to_nat (1 - (1 + zlen ds))) with 0%nat by lia.
      repeat split; done. }
  exists ds'. rewrite Eds. split.
  { unfold fit. change (u8 112) with 112. rewrite !zlen_cons. replace (_ <=? 12) with true by lia. cbn [exp_text exp_sign].
    by destruct (e2 <? 0). }
  repeat split; try done; [|lia]. cbn [exp_value]. rewrite Hv'. destruct (Z.ltb_spec e2 0); lia.
Qed.

(** ** The digits of %a *)

Abbreviation HF r := (ld_dyadic r (-112)) (only parsing).

Lemma ld_trunc_dyadic r e : ld_fits r e → 0 ≤ r → e ≤ 0 → ld_trunc (ld_dyadic r e) = Some (r / 2 ^ (- e)).
Proof.
  intros Hf Hr He. destruct (Z.eq_dec r 0) as [->|Hr0]; [done|].
  destruct (F_fits LDBL_MANT_DIG LDBL_MAX_EXP ltac:(done) ltac:(done) r e Hf Hr0) as (m & ez & E & Fm).
  change (F LDBL_MANT_DIG LDBL_MAX_EXP r e) with (ld_dyadic r e) in E. rewrite E. cbn [ld_trunc].
  replace (r <? 0) with false by lia. f_equal. pose proof (pow2_pos (- e) ltac:(lia)) as Hpe.
  destruct (Z_le_gt_dec e ez) as [Hle|Hgt].
  - pose proof (float_value _ _ _ _ _ _ Fm e ltac:(lia) ltac:(lia)) as Hv. rewrite Z.abs_eq, Z.sub_diag, Z.mul_1_r in Hv by lia. rewrite Hv.
    destruct (Z.leb_spec 0 ez).
    + replace (ez - e) with (ez + - e) by lia. rewrite pow2_add by lia. by rewrite Z.mul_assoc, Z.div_mul by lia.
    + pose proof (pow2_pos (ez - e) ltac:(lia)). pose proof (pow2_pos (- ez) ltac:(lia)).
      replace (2 ^ (- e)) with (2 ^ (- ez) * 2 ^ (ez - e)) by (rewrite <- pow2_add by lia; f_equal; lia).
      by rewrite Z.div_mul_cancel_r by lia.
  - pose proof (float_value _ _ _ _ _ _ Fm ez ltac:(lia) ltac:(lia)) as Hv. rewrite Z.abs_eq, Z.sub_diag, Z.mul_1_r in Hv by lia. rewrite <- Hv.
    replace (0 <=? ez) with false by lia. pose proof (pow2_pos (e - ez) ltac:(lia)).
    replace (2 ^ (- ez)) with (2 ^ (- e) * 2 ^ (e - ez)) by (rewrite <- pow2_add by lia; f_equal; lia).
    by rewrite Z.div_mul_cancel_r by lia.
Qed.

(** [y = 16*(y-x)] *)
Lemma hex_rest r : ld_fits r (-112) → 0 ≤ r < 2 ^ 116 →
  ld_mul (ld_of_int 16) (ld_sub (HF r) (ld_of_int (r / 2 ^ 112))) = HF (16 * (r mod 2 ^ 112)).
Proof.
  intros Hf Hr. assert (Hx : 0 ≤ r / 2 ^ 112 < 16) by lia.
  assert (Hfr : ld_fits (r mod 2 ^ 112) (-112)) by (apply ld_fits_small; lia).
  assert (ld_sub (HF r) (ld_of_int (r / 2 ^ 112)) = HF (r mod 2 ^ 112)) as ->.
  { destruct (Z.eq_dec (r / 2 ^ 112) 0) as [E0|Hx0].
    - rewrite E0. change (ld_of_int 0) with (S754_zero false). rewrite ld_sub_zero_r by done. f_equal. lia.
    - unfold ld_of_int. rewrite <- (ld_dyadic_shift (r / 2 ^ 112) 0 112) by lia. change (0 - 112) with (-112).
      rewrite ld_sub_dyadic; [f_equal; lia|done|apply ld_fits_pow; lia|lia|lia]. }
  destruct (Z.eq_dec (r mod 2 ^ 112) 0) as [->|]; [done|].
  unfold ld_of_int. by rewrite ld_mul_dyadic by (done || lia || by apply ld_fits_small).
Qed.

Lemma hex_char x : 0 ≤ x < 16 → ∃ c, idx xdigits x = Some c ∧ hexdig (Z.lor c 32) = x ∧ 0 ≤ Z.lor c 32 < 256 ∧ is_hex (Z.lor c 32) = true.
Proof.
  intros Hx. assert (x ∈ seqZ 0 16) as Hin by (apply elem_of_seqZ; lia). vm_compute in Hin.
  repeat (apply elem_of_cons in Hin as [->|Hin]; [eexists; vm_compute; repeat split; done|]). by apply elem_of_nil in Hin.
Qed.

(** One turn of the loop, [p] being negative and no flag set: the digit, and
    the point when it is the first of several. *)
Lemma hex_turn r s (st : bytes) : ld_fits r (-112) → 0 ≤ r < 2 ^ 116 → zlen s ≤ 35 → let r' := 16 * (r mod 2 ^ 112) in
  ∃ c, hexdig c = r / 2 ^ 112 ∧ 0 ≤ c < 256 ∧ is_hex c = true ∧
    (x <- to_int (HF r) ;;
     c <- of_option (idx xdigits x) ;;
     s <- push 37 s (Z.lor c (case_of 97)) ;;
     let y := ld_mul (ld_of_int 16) (ld_sub (HF r) (ld_of_int x)) in
     s <- (if (zlen s =? 1) && (negb (ld_zero y) || (0 <? -1) || has_flag 0 ALT_FORM) then push 37 s 46 else ret s) ;;
     if negb (ld_zero y) then ret (Continue (y, s)) else ret (Break s)) st =
    Ret (if r' =? 0 then Break (s ++ [c]) else Continue (HF r', s ++ [c] ++ if zlen s =? 0 then [46] else [])) st.
Proof.
  intros Hf Hr Hs r'. destruct (hex_char (r / 2 ^ 112) ltac:(lia)) as (c & Ec & Hd & Hb & Hh).
  exists (Z.lor c 32). split; [done|]. split; [done|]. split; [done|].
  unfold to_int. rewrite ld_trunc_dyadic by (done || lia). cbn [of_option]. rewrite bind_assoc, bind_ret. change (- -112) with 112.
  unfold int_ok. rewrite decide_True by (unfold INT_MIN, INT_MAX; lia). rewrite bind_ret, Ec. cbn [of_option]. rewrite bind_ret.
  change (case_of 97) with 32. rewrite (bind_run _ _ _ _ _ (push_run 37 s _ st ltac:(lia))).
  cbv zeta. rewrite hex_rest by done. fold r'.
  assert (Hf' : ld_fits r' (-112)) by (unfold r'; rewrite Z.mul_comm; change 16 with (2 ^ 4); apply ld_fits_pow; lia).
  rewrite ld_zero_dyadic by done. change (has_flag 0 ALT_FORM) with false. cbn [Z.ltb Z.compare]. rewrite !orb_false_r.
  rewrite zlen_app. change (zlen [Z.lor c 32]) with 1. pose proof (zlen_nonneg s).
  destruct (Z.eqb_spec r' 0) as [E0|E0]; cbn [negb]; [by rewrite andb_false_r|]. rewrite andb_true_r.
  replace (zlen s + 1 =? 1) with (zlen s =? 0) by lia. destruct (Z.eqb_spec (zlen s) 0).
  - rewrite (bind_run _ _ _ _ _ (push_run 37 (s ++ [Z.lor c 32]) 46 st ltac:(zlen_lia))). by rewrite <- app_assoc.
  - rewrite bind_ret. by rewrite app_nil_r.
Qed.

Lemma hexval_cons c cs : hexval (c :: cs) = hexdig c * 2 ^ (4 * zlen cs) + hexval cs.
Proof.
  assert (H : ∀ cs a, foldl (λ a c, a * 16 + hexdig c) a cs = a * 2 ^ (4 * zlen cs) + hexval cs).
  { clear. induction cs as [|c cs IH]; intros a; [change (2 ^ (4 * zlen (@nil Z))) with 1; cbn; lia|].
    unfold hexval. cbn [foldl]. rewrite IH, (IH (0 * 16 + hexdig c)), zlen_cons.
    replace (4 * (1 + zlen cs)) with (4 + 4 * zlen cs) by lia. rewrite pow2_add by (pose proof (zlen_nonneg cs); lia). lia. }
  unfold hexval at 1. cbn [foldl]. rewrite H. do 2 f_equal.
Qed.

(** The digits [cs] of [r * 2^-112] *)
Definition digits_of_float (cs : bytes) (r : Z) : Prop :=
  hex_text cs ∧ cs ≠ [] ∧ hexval cs * 2 ^ 112 = r * 2 ^ (4 * (zlen cs - 1)).

Lemma digits_one c r : hexdig c = r / 2 ^ 112 → 0 ≤ c < 256 → is_hex c = true → 16 * (r mod 2 ^ 112) = 0 → digits_of_float [c] r.
Proof.
  intros Hd Hb Hh H0. split; [by apply Forall_singleton|]. split; [done|]. unfold hexval. cbn [foldl]. rewrite Hd.
  change (zlen [c] - 1) with 0. change (2 ^ (4 * 0)) with 1. lia.
Qed.

Lemma digits_more c cs r : hexdig c = r / 2 ^ 112 → 0 ≤ c < 256 → is_hex c = true →
  digits_of_float cs (16 * (r mod 2 ^ 112)) → digits_of_float (c :: cs) r.
Proof.
  intros Hd Hb Hh (Ht & Hne & Hv). split; [by constructor|]. split; [done|]. rewrite hexval_cons, Hd, zlen_cons.
  pose proof (zlen_pos cs Hne). rewrite Z.mul_add_distr_r, Hv. replace (1 + zlen cs - 1) with (zlen cs) by lia.
  replace (4 * zlen cs) with (4 + 4 * (zlen cs - 1)) by lia. rewrite pow2_add by lia. change (2 ^ 4) with 16.
  pose proof (Z.div_mod r (2 ^ 112) ltac:(lia)) as E. rewrite E at 3. lia.
Qed.

(** The bits left after a digit *)
Lemma bits_left r k : 0 ≤ k → (∃ q, r = q * 2 ^ (112 - 4 * (k + 1))) → 4 * (k + 1) ≤ 112 → ∃ q, 16 * (r mod 2 ^ 112) = q * 2 ^ (112 - 4 * k).
Proof.
  intros Hk [q ->] H. exists (q mod 2 ^ (4 * (k + 1))).
  replace (2 ^ 112) with (2 ^ (4 * (k + 1)) * 2 ^ (112 - 4 * (k + 1))) by (rewrite <- pow2_add by lia; f_equal; lia).
  rewrite Z.mul_mod_distr_r by (pose proof (pow2_pos (4 * (k + 1))); pose proof (pow2_pos (112 - 4 * (k + 1))); lia).
  replace (112 - 4 * k) with (4 + (112 - 4 * (k + 1))) by lia. rewrite pow2_add by lia. change (2 ^ 4) with 16. lia.
Qed.

Lemma shifted_fits r : 0 ≤ r < 2 ^ 112 → ld_fits (16 * r) (-112).
Proof. intros. rewrite Z.mul_comm. change 16 with (2 ^ 4). apply ld_fits_pow; lia. Qed.

Lemma hex_loop_tail k : ∀ r s (st : bytes), ld_fits r (-112) → 0 ≤ r < 2 ^ 116 → (k ≤ 28)%nat → 2 ≤ zlen s → zlen s + Z.of_nat k ≤ 35 →
  (∃ q, r = q * 2 ^ (112 - 4 * Z.of_nat k)) →
  ∃ cs, digits_of_float cs r ∧ zlen cs ≤ 1 + Z.of_nat k ∧ ∃ n, (n ≤ k)%nat ∧
    loop_to (λ '(y, s),
      x <- to_int y ;;
      c <- of_option (idx xdigits x) ;;
      s <- push 37 s (Z.lor c (case_of 97)) ;;
      let y := ld_mul (ld_of_int 16) (ld_sub y (ld_of_int x)) in
      s <- (if (zlen s =? 1) && (negb (ld_zero y) || (0 <? -1) || has_flag 0 ALT_FORM) then push 37 s 46 else ret s) ;;
      if negb (ld_zero y) then ret (Continue (y, s)) else ret (Break s)) n (HF r, s) st (s ++ cs) st.
Proof.
  induction k as [|k IH]; intros r s st Hf Hr Hk Hs2 Hs Hq; destruct (hex_turn r s st Hf Hr ltac:(lia)) as (c & Hd & Hb & Hh & E);
    cbv zeta in E; replace (zlen s =? 0) with false in E by lia; rewrite ?app_nil_r in E.
  - destruct Hq as [q Eq]. assert (Hz : r mod 2 ^ 112 = 0) by (rewrite Eq; by rewrite Z.mod_mul).
    rewrite Hz in E. exists [c]. split; [apply digits_one; lia || done|]. split; [done|].
    exists 0%nat. split; [done|]. by constructor.
  - destruct (Z.eqb_spec (16 * (r mod 2 ^ 112)) 0) as [Hz|Hz].
    + exists [c]. split; [by apply digits_one|]. split; [change (zlen [c]) with 1; lia|]. exists 0%nat. split; [lia|]. by constructor.
    + destruct (IH (16 * (r mod 2 ^ 112)) (s ++ [c]) st) as (cs & Hcs & Hl & n & Hn & Hloop);
        [apply shifted_fits; lia|lia|lia|zlen_lia|zlen_lia|apply bits_left; [lia|by replace (Z.of_nat k + 1) with (Z.of_nat (Datatypes.S k)) by lia|lia]|].
      exists (c :: cs). split; [by apply digits_more|]. split; [rewrite zlen_cons; lia|].
      exists (Datatypes.S n). split; [lia|]. eapply loop_to_next; [exact E|]. by rewrite <- app_assoc in Hloop.
Qed.

(** The text of the digits: one, and the others behind a point *)
Lemma hex_chars_run r (st : bytes) : ld_fits r (-112) → 0 ≤ r < 2 ^ 116 →
  ∃ c fp, hex_chars (HF r) (-1) 0 97 st = Ret (c :: point fp) st ∧ digits_of_float (c :: default [] fp) r ∧
    zlen (default [] fp) ≤ 28.
Proof.
  intros Hf Hr. destruct (hex_turn r [] st Hf Hr ltac:(done)) as (c & Hd & Hb & Hh & E). cbv zeta in E. cbn [app] in E.
  change (zlen [] =? 0) with true in E. destruct (Z.eqb_spec (16 * (r mod 2 ^ 112)) 0) as [Hz|Hz].
  - exists c, None. split; [|split; [by apply digits_one|done]].
    unfold hex_chars. apply (loop_to_run _ 0); [|done]. by constructor.
  - destruct (hex_loop_tail 27 (16 * (r mod 2 ^ 112)) [c; 46] st) as (cs & Hcs & Hl & n & Hn & Hloop);
      [apply shifted_fits; lia|lia|lia|done|done| |].
    { exists (r mod 2 ^ 112). change (112 - 4 * Z.of_nat 27) with 4. lia. }
    exists c, (Some cs). cbn [default from_option point id]. split; [|split; [by apply digits_more|lia]].
    unfold hex_chars. apply (loop_to_run _ (Datatypes.S n)); [|lia]. eapply loop_to_next; [exact E|exact Hloop].
Qed.

(** The constant %a writes *)
Definition float_const (neg : bool) (c : Z) (fp : option bytes) (e2 : Z) (ds : bytes) : hex_const :=
  HexConst [] (if neg then Some true else None) 120 [c] fp (Some (112, Some (e2 <? 0), ds)).

Lemma fp_hex_run r e2 (neg : bool) : ld_fits r (-112) → 0 ≤ r < 2 ^ 116 → Z.abs e2 < 100000 →
  ∃ (c : Z) (fp : option bytes) (ds : bytes) (n : Z) (text : bytes), fp_hex put_text (HF r) e2 0 (-1) 0 97 (if neg : bool then 0 else 1) (if neg : bool then 1 else 0) [] = Ret n text ∧
    text = hc_text (float_const neg c fp e2 ds) ∧ digits_of_float (c :: default [] fp) r ∧ zlen text ≤ 50 ∧
    dec_text ds ∧ ds ≠ [] ∧ decval ds < 100000 ∧ exp_value (Some (112, Some (e2 <? 0), ds)) = e2.
Proof.
  intros Hf Hr He. destruct (exp_chars_run e2 (@nil Z) He) as (ds & Ee & Hds & Hne & Hev & Hdv & Hdl).
  destruct (hex_chars_run r (@nil Z) Hf Hr) as (c & fp & Ec & Hc & Hcl).
  exists c, fp, ds. unfold fp_hex. change (case_of 97) with 32. cbn [Z.eqb negb].
  unfold hex_to_prec. cbn [Z.ltb Z.compare orb Z.eqb]. rewrite bind_ret. change (97 + 15) with 112.
  rewrite (bind_run _ _ _ _ _ Ee), (bind_run _ _ _ _ _ Ec).
  set (buf := c :: point fp). set (estr := exp_text (Some (112, Some (e2 <? 0), ds))).
  assert (Hbl : 1 ≤ zlen buf ≤ 30).
  { unfold buf. destruct fp as [fp|]; cbn [point default from_option id] in *; zlen_lia. }
  assert (Hel : 3 ≤ zlen estr ≤ 7).
  { pose proof (zlen_pos ds Hne). unfold estr. cbn [exp_text exp_sign]. destruct (e2 <? 0); zlen_lia. }
  replace (INT_MAX - 2 - zlen estr - _ <? -1) with false by (unfold INT_MAX; destruct neg; lia).
  replace (zlen buf - 2 <? -1) with false by lia. rewrite andb_false_r. cbv zeta. cbn iota.
  erewrite bind_run; [|apply fp_pad_none; destruct neg; lia].
  rewrite (bind_run _ _ tt _ (sliceZ (if neg then 9 else 10) (if neg then 3 else 2) prefixes)) by (by destruct neg).
  erewrite bind_run; [|apply fp_pad_none; destruct neg; lia].
  rewrite (bind_run _ _ _ _ _ (eq_refl : put_text buf _ = _)).
  erewrite bind_run; [|apply fp_pad_none; lia].
  rewrite (bind_run _ _ _ _ _ (eq_refl : put_text estr _ = _)).
  erewrite bind_run; [|apply fp_pad_none; destruct neg; lia].
  eexists _, _. split; [done|]. split; [|split; [done|split; [|done]]].
  - unfold hc_text, float_const, buf, estr. cbn [hc_space hc_sign hc_x hc_int hc_frac hc_exp]. destruct neg; cbn; by rewrite <- app_assoc.
  - destruct neg; change (sliceZ _ _ prefixes) with (str "-0x") || change (sliceZ _ _ prefixes) with (str "0x"); rewrite !zlen_app;
      change (zlen (str "-0x")) with 3 || change (zlen (str "0x")) with 2; lia.
Qed.

(** ** A double *)

Lemma double_as_ld s m e : bounded 53 1024 m e = true →
  ∃ mz ez, to_ldouble (S754_finite s m e) = S754_finite s mz ez ∧ 2 ^ 112 ≤ Zpos mz < 2 ^ 113 ∧ -1200 < ez < 1000 ∧
    bounded 113 16384 mz ez = true ∧ ∀ k, k ≤ e → k ≤ ez → Zpos m * 2 ^ (e - k) = Zpos mz * 2 ^ (ez - k).
Proof.
  intros Hb. destruct (bounded_exp 53 1024 ltac:(done) ltac:(done) m e Hb) as (Hc & He & Hm & Hd).
  change (emin 53 1024) with (-1074) in Hm.
  destruct (Zdigits2_bounds (Zpos m)) as [[Hl Hu] Hd0]; [done|].
  pose proof (Z.pow_le_mono_r 2 (Zdigits2 (Zpos m)) 53 ltac:(lia) ltac:(lia)).
  destruct (fits_round 113 16384 ltac:(done) ltac:(done) s m e) as (mz & ez & E & Hbz & Hv).
  { apply fits_small; unfold emin; lia. }
  exists mz, ez. split; [exact E|].
  destruct (bounded_exp 113 16384 ltac:(done) ltac:(done) mz ez Hbz) as (Hcz & Hez & Hmz & Hdz).
  change (emin 113 16384) with (-16494) in Hmz. destruct (Zdigits2_bounds (Zpos mz)) as [[Hlz Huz] Hdz0]; [done|].
  assert (Hdd : Zdigits2 (Zpos mz) + ez = Zdigits2 (Zpos m) + e).
  { set (k := Z.min e ez). specialize (Hv k ltac:(lia) ltac:(lia)).
    pose proof (Zdigits2_shift (Zpos m) (e - k) ltac:(lia) ltac:(lia)). pose proof (Zdigits2_shift (Zpos mz) (ez - k) ltac:(lia) ltac:(lia)).
    rewrite Hv in *. lia. }
  assert (Hd113 : Zdigits2 (Zpos mz) = 113) by (unfold fexp, emin in Hcz; lia).
  rewrite Hd113 in Hlz, Huz. split; [done|]. split; [lia|]. done.
Qed.

Lemma finite_F s m e p mx : 1 < p → p < mx → bounded p mx m e = true → S754_finite s m e = F p mx (if s : bool then Zneg m else Zpos m) e.
Proof. intros ? ? Hb. rewrite <- (bounded_round p mx) by done. by destruct s. Qed.

(** frexpl and the doubling: a number in [1, 2) *)
Lemma frexp_double mz ez : 2 ^ 112 ≤ Zpos mz < 2 ^ 113 →
  frexpl (S754_finite false mz ez) = (S754_finite false mz (-113), ez + 113) ∧
  ld_mul (S754_finite false mz (-113)) ld_two = HF (Zpos mz) ∧ ld_zero (HF (Zpos mz)) = false ∧ ld_fits (Zpos mz) (-112).
Proof.
  intros Hm. assert (Hd : Zpos (digits2_pos mz) = 113) by (apply (digits2_unique (Zpos mz)); lia).
  assert (Hf : ld_fits (Zpos mz) (-112)) by (apply ld_fits_small; lia).
  split; [|split; [|split; [|done]]].
  - cbn [frexpl]. unfold SFfrexp. rewrite Hd. done.
  - rewrite (finite_F false mz (-113) 113 16384); [|done..|].
    + unfold ld_two. change (F 113 16384) with ld_dyadic. rewrite ld_mul_dyadic; [by rewrite Z.mul_1_r|apply ld_fits_small; lia|by apply ld_fits_small|done|done].
    + unfold bounded, canonical_mantissa. rewrite Hd. done.
  - rewrite ld_zero_dyadic by done. done.
Qed.

(** The constant %a writes for a double means the double. *)
Lemma const_value s m e mz ez c fp ds : bounded 53 1024 m e = true →
  (∀ k, k ≤ e → k ≤ ez → Zpos m * 2 ^ (e - k) = Zpos mz * 2 ^ (ez - k)) →
  digits_of_float (c :: default [] fp) (Zpos mz) → exp_value (Some (112, Some (ez + 112 <? 0), ds)) = ez + 112 →
  let h := float_const s c fp (ez + 112) ds in
  hexval (hc_digits h) ≠ 0 ∧ binary_normalize 53 1024 (hc_num h) (hc_expo h) (hc_neg h) = S754_finite s m e ∧
  Zdigits2 (hexval (hc_digits h)) + hc_expo h = Zdigits2 (Zpos m) + e ∧ on_grid (hexval (hc_digits h)) (hc_expo h) (-1074).
Proof.
  intros Hb Hv (Ht & _ & Hd) He h. destruct (bounded_exp 53 1024 ltac:(done) ltac:(done) m e Hb) as (Hc & Hem & Hm & Hdm).
  change (emin 53 1024) with (-1074) in Hm.
  set (n := zlen (default [] fp)). rewrite zlen_cons in Hd. fold n in Hd. replace (1 + n - 1) with n in Hd by lia.
  pose proof (zlen_nonneg (default [] fp)) as Hn. fold n in Hn.
  set (V := hexval (hc_digits h)). change (hexval (c :: default [] fp)) with V in Hd.
  assert (HE : hc_expo h = ez + 112 - 4 * n) by (unfold hc_expo, h, float_const; cbn [hc_exp hc_frac]; by rewrite He).
  set (E := hc_expo h) in *. pose proof (pow2_pos (4 * n) ltac:(lia)) as Hpn.
  assert (Hval : ∀ k, k ≤ E → k ≤ e → k ≤ ez → V * 2 ^ (E - k) = Zpos m * 2 ^ (e - k)).
  { intros k H1 H2 H3. rewrite Hv by done. apply (Z.mul_cancel_r _ _ (2 ^ 112)); [done|].
    replace (V * 2 ^ (E - k) * 2 ^ 112) with (V * 2 ^ 112 * 2 ^ (E - k)) by lia. rewrite Hd.
    rewrite <- !Z.mul_assoc, <- !pow2_add by lia. do 2 f_equal. lia. }
  assert (HV0 : 0 < V) by nia. set (k := Z.min (Z.min E e) ez). specialize (Hval k ltac:(lia) ltac:(lia) ltac:(lia)).
  split; [lia|]. split; [|split].
  - rewrite (finite_F s m e 53 1024) by done. unfold hc_num. fold V E.
    transitivity (F 53 1024 ((if hc_neg h then -1 else 1) * V) E).
    { unfold F, h, float_const, hc_neg. cbn [hc_sign]. destruct V; [lia| |lia]. by destruct s. }
    apply (F_eq 53 1024 ltac:(done) ltac:(done) _ _ _ _ k); [lia|lia|].
    unfold h, float_const, hc_neg. cbn [hc_sign]. destruct s; lia.
  - pose proof (Zdigits2_shift V (E - k) HV0 ltac:(lia)). pose proof (Zdigits2_shift (Zpos m) (e - k) ltac:(lia) ltac:(lia)).
    rewrite Hval in *. lia.
  - exists (Z.min k (-1074)), (Zpos m * 2 ^ (e - -1074)). split; [lia|]. split; [lia|].
    replace (E - Z.min k (-1074)) with (E - k + (k - Z.min k (-1074))) by lia. rewrite pow2_add by lia.
    rewrite Z.mul_assoc, Hval, <- !Z.mul_assoc, <- !pow2_add by lia. do 2 f_equal. lia.
Qed.

(** ** "%a" *)

Lemma format_percent_a fp b (text := fp (VDouble b) 0 (-1) 0 97) :
  format_full fp (str "%a") [VDouble b] = Ret (s32 (zlen text)) (Full text []).
Proof.
  unfold format_full, vformat. rewrite (bind_run _ _ tt _ (Full text [])); [done|].
  apply (loop_once _ _ _ (2, []) (Full text [])); [|done].
  rewrite (bind_run _ _ 37 _ (Full [] [])) by done. cbn [Z.eqb Pos.eqb negb].
  rewrite (bind_run _ _ (1, 0) _ (Full [] [])) by done.
  rewrite (bind_run _ _ (1, 0, 0, [VDouble b]) _ (Full [] [])) by done.
  rewrite (bind_run _ _ (1, -1, [VDouble b]) _ (Full [] [])) by done.
  rewrite (bind_run _ _ (1, 0, false) _ (Full [] [])) by done.
  rewrite (bind_run _ _ 97 _ (Full [] [])) by done. cbn [Z.eqb Pos.eqb].
  rewrite (bind_run _ _ [] _ (Full text [])) by done. done.
Qed.

(** A zero or a finite number *)
Lemma text_finite x b : slot_value (VDouble b) = to_ldouble x → slot_sign (VDouble b) = sign_of x → valid_binary 53 1024 x = true →
  match x with S754_zero _ | S754_finite _ _ _ => True | _ => False end →
  ∃ h, fp_text (VDouble b) 0 (-1) 0 97 = hc_text h ∧ hex_ok h ∧ zlen (hc_text h) ≤ 50 ∧
    binary_normalize 53 1024 (hc_num h) (hc_expo h) (hc_neg h) = x ∧
    on_grid (hexval (hc_digits h)) (hc_expo h) (-1074) ∧ (hc_num h = 0 ∨ -1074 < hc_top h ≤ 1024).
Proof.
  intros Hslot Hsign Hv Hfin. unfold fp_text. rewrite Hslot, Hsign. destruct x as [s| | |s m e]; try done.
  - exists (float_const s 48 None 0 [48]). destruct s; (split; [vm_compute; reflexivity|]);
      (split; [by split; (done || by left || by repeat constructor || by (repeat split; [left|repeat constructor|]))|]);
      (split; [done|]); (split; [done|split; [by exists (-1074), 0|by left]]).
  - cbn [valid_binary] in Hv. destruct (double_as_ld s m e Hv) as (mz & ez & -> & Hmz & Hez & Hbz & Hval).
    destruct (frexp_double mz ez Hmz) as (Hfr & Hmul & Hz & Hf).
    destruct (fp_hex_run (Zpos mz) (ez + 112) s Hf ltac:(lia) ltac:(lia)) as (c & fp & ds & n & text & E & -> & Hd & Hl & Hds & Hne & Hdv & Hev).
    exists (float_const s c fp (ez + 112) ds).
    destruct (const_value s m e mz ez c fp ds Hv Hval Hd Hev) as (Hnz & Hx & Htop & Hgrid).
    split; [|split; [|split; [done|split; [done|]]]].
    + fold put_text. unfold fmt_fp.
      replace (fp_sign (sign_of (S754_finite s m e)) (S754_finite s mz ez) 0) with (S754_finite false mz ez, if s then 0 else 1, if s then 1 else 0) by (by destruct s).
      cbn [is_finite negb]. rewrite Hfr. cbv zeta. rewrite Hmul, Hz. cbn [negb]. change (lower 97 =? 97) with true. cbn iota.
      replace (ez + 113 - 1) with (ez + 112) by lia. by rewrite E.
    + destruct Hd as (Ht & _ & _). apply Forall_cons in Ht as [Hc Ht].
      split; [by constructor|by left|by apply Forall_singleton|done|done| |lia].
      split; [by left|]. split; [done|]. split; [done|]. unfold LLONG_MAX. lia.
    + split; [done|right]. destruct (bounded_exp 53 1024 ltac:(done) ltac:(done) m e Hv) as (_ & He & Hm & Hdm).
      change (emin 53 1024) with (-1074) in Hm. destruct (Zdigits2_bounds (Zpos m)) as [_ Hd0]; [done|].
      unfold hc_top. rewrite Htop. lia.
Qed.

(** Every bit pattern is a number, or a NaN. *)
Lemma of_bits_valid b : valid_binary 53 1024 (of_bits 53 1024 b) = true.
Proof.
  unfold of_bits. change (Z.shiftl 1 (53 - 1)) with (2 ^ 52). change (2 * 1024) with 2048. change (2 * 1024 - 1) with 2047.
  set (frac := b mod 2 ^ 52). set (ex := Z.shiftr b (53 - 1) mod 2048).
  assert (Hf : 0 ≤ frac < 2 ^ 52) by (unfold frac; lia). assert (He : 0 ≤ ex < 2048) by (unfold ex; lia).
  destruct (Z.eqb_spec ex (2048 - 1)); [by destruct (frac =? 0)|].
  assert (Hb : ∀ m e, (Zdigits2 (Zpos m) = 53 ∧ -1074 ≤ e ≤ 971 ∨ Zdigits2 (Zpos m) ≤ 53 ∧ e = -1074) → bounded 53 1024 m e = true).
  { intros m e H. unfold bounded, canonical_mantissa. change (Zpos (digits2_pos m)) with (Zdigits2 (Zpos m)). unfold fexp, emin.
    destruct (Zdigits2_bounds (Zpos m)) as [_ ?]; [done|]. lia. }
  destruct (Z.eqb_spec ex 0).
  - destruct frac as [|m|m] eqn:Em; [done| |lia]. apply Hb. right. split; [apply Zdigits2_le; lia|lia].
  - destruct (frac + 2 ^ 52) as [|m|m] eqn:Em; [lia| |lia]. apply Hb. left. split; [apply digits2_unique; lia|lia].
Qed.

(** The bits of a double: its sign, its exponent field, its fraction. *)
Lemma double_fields b : 0 ≤ b < 2 ^ 64 →
  let frac := b mod 2 ^ 52 in let ex := Z.shiftr b 52 mod 2048 in
  b = (if Z.testbit b 63 then 2 ^ 63 else 0) + ex * 2 ^ 52 + frac ∧ 0 ≤ frac < 2 ^ 52 ∧ 0 ≤ ex < 2048 ∧
  b mod 2 ^ 63 = ex * 2 ^ 52 + frac.
Proof.
  intros Hb frac ex. unfold ex. rewrite Z.shiftr_div_pow2, Z.testbit_eqb by lia.
  set (h := b / 2 ^ 63). assert (h = 0 ∨ h = 1) as Hh by (unfold h; lia).
  assert (b / 2 ^ 52 = 2048 * h + b / 2 ^ 52 mod 2048) as E1.
  { unfold h. change (2 ^ 63) with (2 ^ 52 * 2048). rewrite <- Z.div_div by lia. apply Z.div_mod. lia. }
  pose proof (Z.div_mod b (2 ^ 52) ltac:(lia)) as E2. fold frac in E2.
  assert (0 ≤ frac < 2 ^ 52) by (unfold frac; lia). set (ex' := b / 2 ^ 52 mod 2048) in *.
  assert (0 ≤ ex' < 2048) by (unfold ex'; lia).
  assert (b = h * 2 ^ 63 + (ex' * 2 ^ 52 + frac)) as E3 by (rewrite E2, E1; lia).
  split_and!; [|lia..|].
  - clearbody h frac ex'. clear E1 E2. destruct Hh as [Eh|Eh]; rewrite Eh in *.
    + change (0 mod 2 =? 1) with false. cbn iota. lia.
    + change (1 mod 2 =? 1) with true. cbn iota. lia.
  - clearbody h frac ex'. rewrite E3, Z.add_comm, Z.mod_add by lia. apply Z.mod_small. lia.
Qed.

(** The bits of a NaN: all exponent bits, and a fraction. *)
Definition double_nan (b : Z) : bool := 2047 * 2 ^ 52 <? b mod 2 ^ 63.

Lemma of_bits_nan b : 0 ≤ b < 2 ^ 64 → double_nan b = true → of_bits 53 1024 b = S754_nan.
Proof.
  intros Hb Hn. destruct (double_fields b Hb) as (_ & Hf & He & Em). unfold double_nan in Hn. rewrite Em in Hn.
  unfold of_bits. change (Z.shiftl 1 (53 - 1)) with (2 ^ 52). change (2 * 1024) with 2048. change (53 - 1) with 52.
  set (ex := Z.shiftr b 52 mod 2048) in *. set (frac := b mod 2 ^ 52) in *.
  replace (ex =? 2048 - 1) with true by lia. by replace (frac =? 0) with false by lia.
Qed.

(** The representation of a number is the only one, and has its sign. *)
Lemma of_bits_number b : 0 ≤ b < 2 ^ 64 → double_nan b = false →
  bits_of 53 1024 (of_bits 53 1024 b) = b ∧ sign_of (of_bits 53 1024 b) = Z.testbit b 63.
Proof.
  intros Hb Hn. destruct (double_fields b Hb) as (Eb & Hf & He & Em). unfold double_nan in Hn. rewrite Em in Hn.
  unfold of_bits. change (Z.shiftl 1 (53 - 1)) with (2 ^ 52). change (2 * 1024) with 2048. change (53 - 1) with 52.
  change (52 + Z.log2 2048) with 63.
  set (ex := Z.shiftr b 52 mod 2048) in *. set (frac := b mod 2 ^ 52) in *. set (s := Z.testbit b 63) in *.
  assert (∀ k, Z.shiftl ((if s then 2 * 1024 else 0) + k) 52 = (if s then 2 ^ 63 else 0) + k * 2 ^ 52) as Hpack
    by (intros k; rewrite Z.shiftl_mul_pow2 by lia; destruct s; lia).
  clearbody ex frac s. unfold bits_of. cbv zeta. change (53 - 1) with 52. change (Z.shiftl 1 52) with (2 ^ 52).
  destruct (Z.eqb_spec ex (2048 - 1)) as [E|E].
  - replace (frac =? 0) with true by lia. rewrite Hpack. split; [lia|done].
  - destruct (Z.eqb_spec ex 0) as [E0|E0].
    + destruct frac as [|m|m]; [| |lia]; rewrite ?Hpack.
      * split; [lia|done].
      * replace (Zpos m <? 2 ^ 52) with true by lia. split; [lia|done].
    + destruct (frac + 2 ^ 52) as [|m|m] eqn:Em'; [lia| |lia]. replace (Zpos m <? 2 ^ 52) with false by lia.
      rewrite Hpack. split; [lia|done].
Qed.

(** C3: Printing a double with "%a" and reading it with strtod gives back the
    same bits, for every bit pattern that is not a NaN: normal and denormal
    numbers, zeros and infinities of either sign.  A NaN prints as "nan", or
    "-nan" if its sign bit is set, and reads as the positive quiet NaN, sign and
    payload lost.  The whole text is read and errno is left alone. *)
Theorem percent_a_roundtrip b e (Hb : 0 ≤ b < 2 ^ 64) :
  ∃ text x, format_full fp_text (str "%a") [VDouble b] = Ret (zlen text) (Full text []) ∧
    strtod text e = Ret (x, zlen text) e ∧
    if double_nan b
    then text = (if Z.testbit b 63 then str "-nan" else str "nan") ∧ bits_of 53 1024 x = 2047 * 2 ^ 52 + 2 ^ 51
    else bits_of 53 1024 x = b.
Proof.
  exists (fp_text (VDouble b) 0 (-1) 0 97). rewrite format_percent_a.
  destruct (double_nan b) eqn:En.
  - exists S754_nan. unfold fp_text, slot_value. rewrite (of_bits_nan b Hb En : of_bits DBL_MANT_DIG DBL_MAX_EXP b = _).
    unfold slot_sign. destruct (Z.testbit b 63); (split; [vm_compute; reflexivity|]); (split; [vm_compute; reflexivity|]); by vm_compute.
  - destruct (of_bits_number b Hb En) as [Ebits Hsign]. set (x := of_bits 53 1024 b) in *. exists x.
    pose proof (of_bits_valid b) as Hv. fold x in Hv.
    assert (Hslot : slot_value (VDouble b) = to_ldouble x) by done.
    assert (x ≠ S754_nan) as Hnn.
    { unfold x, of_bits in *. unfold double_nan in En. destruct (double_fields b Hb) as (_ & Hf & He & Em). rewrite Em in En.
      change (Z.shiftl 1 (53 - 1)) with (2 ^ 52). change (2 * 1024) with 2048. change (53 - 1) with 52.
      set (ex := Z.shiftr b 52 mod 2048) in *. set (frac := b mod 2 ^ 52) in *.
      destruct (Z.eqb_spec ex (2048 - 1)); [by replace (frac =? 0) with true by lia|].
      destruct (Z.eqb_spec ex 0); [by destruct frac|]. destruct (frac + 2 ^ 52) eqn:Ef; [lia|done|lia]. }
    clearbody x. symmetry in Hsign.
    assert (match x with S754_zero _ | S754_finite _ _ _ => True | _ => False end ∨ (∃ s, x = S754_infinity s)) as [Hx|Hx]
      by (destruct x; eauto).
    + destruct (text_finite x b Hslot Hsign Hv Hx) as (h & -> & Hok & Hl & Hval & Hgrid & Hr).
      split; [by rewrite s32_id by (unfold INT_MIN, INT_MAX; pose proof (zlen_nonneg (hc_text h)); lia)|].
      destruct (floatscan_hex 1 h [] e) as (y & e' & E & Hy & _ & He'); [by right|done|done|by right; right|intros _; tauto|].
      rewrite app_nil_r in E. split; [|done]. unfold strtod, strtox, bind. rewrite E. unfold ret. cbn [sc_p sc_errno].
      rewrite He' by exact Hr. by rewrite (Hy : to_double y = binary_normalize 53 1024 _ _ _), Hval.
    + unfold fp_text. change (slot_sign (VDouble b)) with (Z.testbit b 63). rewrite Hslot.
      destruct Hx as [s ->]. rewrite <- Hsign || rewrite Hsign. destruct s; (split; [vm_compute; reflexivity|]); (split; [vm_compute; reflexivity|done]).
Qed.

(** One tenth; a NaN with its sign bit set. *)
Lemma percent_a_roundtrip_witness :
  (∃ text x, format_full fp_text (str "%a") [VDouble 4591870180066957722] = Ret (zlen text) (Full text []) ∧
     strtod text 0 = Ret (x, zlen text) 0 ∧ bits_of 53 1024 x = 4591870180066957722) ∧
  (∃ text x, format_full fp_text (str "%a") [VDouble 18444492273895866368] = Ret (zlen text) (Full text []) ∧
     strtod text 0 = Ret (x, zlen text) 0 ∧ text = str "-nan" ∧ bits_of 53 1024 x = 2047 * 2 ^ 52 + 2 ^ 51).
Proof.
  split.
  - exact (percent_a_roundtrip 4591870180066957722 0 ltac:(done)).
  - exact (percent_a_roundtrip 18444492273895866368 0 ltac:(done)).
Defined.
