(* ===== verification/Errno.v ===== *)
(** strerror: src/lib/racccoon-libc/src/errno.c.

    The variable errno itself is a field of the POSIX layer's state; strerror's
    static buffer is its contents. *)
From S2P Require Import Prelude CMonad CMemory CBuffer Kernel RcFs RcFd Ctype CStdlib Printf.

(** The switch: number, name. *)
Definition strerror_names : list (Z * bytes) :=
  [(0, str "Success"); (1, str "Operation not permitted"); (2, str "No such file or directory");
   (3, str "No such process"); (4, str "Interrupted system call"); (5, str "Input/output error");
   (7, str "Argument list too long"); (8, str "Exec format error"); (9, str "Bad file descriptor");
   (10, str "No child processes"); (11, str "Resource temporarily unavailable"); (12, str "Cannot allocate memory");
   (13, str "Permission denied"); (14, str "Bad address"); (16, str "Device or resource busy");
   (17, str "File exists"); (18, str "Invalid cross-device link"); (20, str "Not a directory");
   (21, str "Is a directory"); (22, str "Invalid argument"); (24, str "Too many open files");
   (25, str "Inappropriate ioctl for device"); (28, str "No space left on device"); (29, str "Illegal seek");
   (30, str "Read-only file system"); (32, str "Broken pipe"); (34, str "Numerical result out of range");
   (36, str "File name too long"); (38, str "Function not implemented"); (39, str "Directory not empty");
   (40, str "Too many levels of symbolic links")].

(** The digits of [e], the last one first, into [d[12]]. *)
Definition strerror_digits {S} (e : Z) : M S bytes :=
  loop (λ '(d, e),
    d <- push 12 d (48 + e mod 10) ;;
    if negb (e / 10 =? 0) then ret (Continue (d, e / 10)) else ret (Break d)) ([], e).

Definition strerror {S} (e : Z) : M S bytes :=
  match find (λ x, x.1 =? e) strerror_names with
  | Some (_, s) => ret s
  | None =>
      let p := str "error " in
      let* (p, e) := if e <? 0 then p <- push 24 p 45 ;; e <- int_ok (- e) ;; ret (p, e) else ret (p, e) in
      d <- strerror_digits e ;;
      p <- put_back 24 d p ;;
      _ <- push 24 p 0 ;; ret p
  end.

(** The result and [buf] after; [n] is a size_t. *)
Definition strerror_r {S} (e : Z) (buf : bytes) (n : Z) : M S (Z * bytes) :=
  s <- strerror e ;;
  let* (i, buf) := loop (λ '(i, buf),
    c <- chr s i ;;
    if negb (c =? 0) && (u64 (i + 1) <? n) then
      buf <- of_option (upd buf i c) ;; ret (Continue (i + 1, buf))
    else ret (Break (i, buf))) (0, buf) in
  buf <- (if negb (n =? 0) then of_option (upd buf i 0) else ret buf) ;;
  ret (0, buf).

(** * What it says *)

(** The text for an error number. *)
Definition strerror_text (e : Z) (s : bytes) : Prop :=
  match find (λ x, x.1 =? e) strerror_names with
  | Some (_, name) => s = name
  | None => ∃ ds, s = str "error " ++ (if e <? 0 then [45] else []) ++ ds ∧ numeral 10 (Z.abs e) ds ∧ 0 < zlen ds ≤ 10
  end.

Lemma put_back_run {S} cap d p (st : S) : zlen d + zlen p ≤ cap → put_back cap d p st = Ret (p ++ reverse d) st.
Proof.
  revert p. induction d as [|c d IH]; intros p H; [by rewrite app_nil_r|]. rewrite zlen_cons in H. cbn [put_back].
  rewrite (bind_run _ _ _ _ _ (IH p ltac:(lia))). rewrite reverse_cons, app_assoc. apply push_run.
  rewrite zlen_app. unfold zlen in *. rewrite length_reverse. lia.
Qed.

Lemma strerror_digits_run {S} v (st : S) : 0 ≤ v ≤ INT_MAX →
  ∃ d, strerror_digits v st = Ret d st ∧ numeral 10 v (reverse d) ∧ 0 < zlen d ≤ 10.
Proof.
  unfold INT_MAX. intros Hv.
  assert (wp (strerror_digits v) (λ d st', st' = st ∧ numeral 10 v (reverse d) ∧ 0 < zlen d ≤ 10) st) as Hw.
  2:{ apply wp_inv in Hw as (d & st' & E & -> & ? & ?). by exists d. }
  unfold strerror_digits. destruct (decide (v = 0)) as [->|Hne].
  { apply (wp_of_eq _ _ [48] _ st); [by apply loop_break|]. split; [done|]. split; [by apply numeral_48|done]. }
  assert (∀ d : bytes, zlen (reverse d) = zlen d) as Hrl by (intros; unfold zlen; by rewrite length_reverse).
  apply (wp_loop _ (λ '(d, e) st', st' = st ∧ e ≠ 0 ∧ utoa_inv 10 v e (reverse d)) (λ '(_, e) _, e)); [| | |lia].
  - intros [d e] st' (_ & _ & [? _ _ _ _ _]). done.
  - intros [d e] st' (-> & Hne' & Hinv). pose proof (ui_nonneg _ _ _ _ Hinv).
    assert (digit_val (48 + e mod 10) = e mod 10 ∧ 48 ≤ 48 + e mod 10 < 128) as [Hdc Hcr].
    { unfold digit_val. split; [|lia]. by replace ((48 <=? 48 + e mod 10) && (48 + e mod 10 <=? 57)) with true by lia; lia. }
    destruct (utoa_inv_step 10 v e (reverse d) (48 + e mod 10) ltac:(lia) ltac:(lia) Hne' Hinv Hdc Hcr) as [_ Hinv'].
    rewrite <- reverse_snoc in Hinv'.
    assert (zlen (d ++ [48 + e mod 10]) ≤ 10) as Hlen.
    { destruct Hinv' as [_ _ _ _ Hpow _]. rewrite Hrl in Hpow. specialize (Hpow ltac:(by rewrite reverse_snoc) Hne).
      destruct (decide (zlen (d ++ [48 + e mod 10]) ≤ 10)); [done|]. exfalso.
      pose proof (Z.pow_le_mono_r 10 10 (zlen (d ++ [48 + e mod 10]) - 1) ltac:(lia) ltac:(lia)). lia. }
    rewrite zlen_app in Hlen. change (zlen [48 + e mod 10]) with 1 in Hlen.
    apply wp_bind. eapply wp_of_eq; [apply push_run; lia|]. destruct (Z.eqb_spec (e / 10) 0) as [E0|E0]; cbn [negb].
    + apply wp_ret. split; [done|]. destruct Hinv' as [_ Hn _ _ _ _]. rewrite E0, Z.mul_0_l, Z.sub_0_r in Hn.
      split; [done|]. rewrite zlen_app. change (zlen [48 + e mod 10]) with 1. pose proof (zlen_nonneg d). lia.
    + apply wp_ret. split; [done|]. apply Z.div_lt; lia.
  - split; [done|]. split; [done|]. change (reverse []) with (@nil Z).
    split; change (zlen []) with 0; rewrite ?Z.pow_0_r, ?Z.mul_1_r, ?Z.sub_diag; try done; lia.
Qed.

Lemma strerror_run {S} e (st : S) : INT_MIN < e ≤ INT_MAX →
  ∃ s, strerror e st = Ret s st ∧ strerror_text e s.
Proof.
  intros He. unfold strerror, strerror_text, INT_MIN, INT_MAX in *. destruct (find _ _) as [[x s]|]; [by exists s|].
  destruct (strerror_digits_run (Z.abs e) st) as (d & Ed & Hn & Hd); [unfold INT_MAX; lia|].
  assert (zlen (reverse d) = zlen d) as Hrl by (unfold zlen; by rewrite length_reverse).
  exists (str "error " ++ (if e <? 0 then [45] else []) ++ reverse d). split; [|by exists (reverse d); rewrite Hrl].
  set (p := str "error " ++ (if e <? 0 then [45] else [])).
  assert (6 ≤ zlen p ≤ 7) as Hp by (subst p; by destruct (e <? 0)).
  rewrite (bind_run _ _ (p, Z.abs e) st st).
  2:{ subst p. destruct (Z.ltb_spec e 0).
      - rewrite (bind_run _ _ _ _ _ (push_run 24 (str "error ") 45 st ltac:(done))). unfold int_ok, INT_MIN, INT_MAX.
        rewrite decide_True, bind_ret by lia. by rewrite Z.abs_neq by lia.
      - by rewrite Z.abs_eq by lia. }
  cbn beta iota. rewrite (bind_run _ _ _ _ _ Ed).
  rewrite (bind_run _ _ _ _ _ (put_back_run 24 d p st ltac:(lia))).
  rewrite (bind_run _ _ _ _ _ (push_run 24 (p ++ reverse d) 0 st ltac:(rewrite zlen_app, Hrl; lia))).
  subst p. by rewrite <- app_assoc.
Qed.

Lemma strerror_text_chars e s : strerror_text e s → c_chars s ∧ zlen s ≤ 40.
Proof.
  unfold strerror_text. destruct (find _ _) as [[x name]|] eqn:E.
  - intros ->. apply find_some in E as [Hin _].
    assert (forallb (λ x, c_chars_b x.2 && (zlen x.2 <=? 40)) strerror_names = true) as H by reflexivity.
    apply (proj1 (forallb_forall _ _)) with (x := (x, name)) in H; [|done]. cbn [snd] in H.
    apply andb_prop in H as [H1 H2]. split; [by apply c_chars_b_sound|lia].
  - intros (ds & -> & [Hd _] & Hl). split.
    + apply c_chars_app. split; [by apply c_chars_b_sound|]. apply c_chars_app. split; [by destruct (e <? 0); constructor|].
      eapply Forall_impl; [exact Hd|]. intros x [_ ?]. lia.
    + rewrite !zlen_app. change (zlen (str "error ")) with 6. destruct (e <? 0); zlen_lia.
Qed.

(** Every error number has a text: the name of a known one, "error" and the
    number in decimal for any other, and strerror_r fits it into whatever
    buffer it is given: at most [n - 1] characters and a terminator, nothing
    behind it, and nothing at all for size 0. *)
Theorem strerror_r_correct {S} e (buf : bytes) n (st : S)
  (He : INT_MIN < e ≤ INT_MAX) (Hn : 0 ≤ n ≤ zlen buf) (Hl : zlen buf < SIZE_MAX) :
  ∃ s, strerror_text e s ∧ strerror e st = Ret s st ∧
    strerror_r e buf n st =
      Ret (0, if n =? 0 then buf
              else takeZ (n - 1) s ++ 0 :: dropZ (Z.min (n - 1) (zlen s) + 1) buf) st.
Proof.
  destruct (strerror_run e st He) as (s & E & Ht). exists s. split; [done|]. split; [done|].
  destruct (strerror_text_chars e s Ht) as [Hs Hls]. pose proof (zlen_nonneg s). unfold SIZE_MAX in Hl.
  unfold strerror_r. rewrite (bind_run _ _ _ _ _ E).
  set (m := Z.max 0 (Z.min (n - 1) (zlen s))).
  rewrite (bind_run _ _ (m, takeZ m s ++ dropZ m buf) st st).
  - cbn beta iota. destruct (Z.eqb_spec n 0) as [->|]; cbn [negb].
    + by replace m with 0 by lia.
    + assert (takeZ (n - 1) s = takeZ m s) as ->.
      { destruct (decide (n - 1 ≤ zlen s)); [by f_equal; lia|]. by rewrite !takeZ_all by lia. }
      replace (Z.min (n - 1) (zlen s)) with m by lia.
      assert (zlen (takeZ m s) = m) as Hm by (apply zlen_takeZ; lia).
      pose proof (upd_end_at (takeZ m s) buf m 0 Hm ltac:(lia)) as Eu. by rewrite Eu.
  - apply (loop_steps _ (λ k, (k, takeZ k s ++ dropZ k buf)) (λ _, st) m); [lia|by rewrite takeZ_0, dropZ_0|done| |].
    + intros k Hk. destruct (idx_is_Some s k) as [c Hc]; [lia|].
      rewrite (bind_run _ _ _ _ _ (chr_run s k st ltac:(lia))). unfold chrv. rewrite Hc. cbn [default from_option id].
      pose proof (idx_c_char _ _ _ Hs Hc). rewrite u64_id by lia.
      replace (negb (c =? 0) && (k + 1 <? n)) with true by lia. cbn iota.
      by rewrite (upd_front s buf k c ltac:(lia) Hc).
    + rewrite (bind_run _ _ _ _ _ (chr_run s m st ltac:(lia))). rewrite u64_id by lia.
      destruct (decide (m + 1 < n)).
      * replace m with (zlen s) by lia. unfold chrv. by rewrite idx_None by lia.
      * replace (m + 1 <? n) with false by lia. by rewrite andb_false_r.
Qed.

(** "error -42" into five bytes. *)
Lemma strerror_r_correct_witness :
  strerror_r (-42) (replicate 6 7) 5 tt = Ret (0, str "erro" ++ [0; 7]) tt ∧
  ∃ s, strerror_text (-42) s ∧ strerror (-42) tt = Ret s tt ∧
    strerror_r (-42) (replicate 6 7) 5 tt =
      Ret (0, if 5 =? 0 then replicate 6 7
              else takeZ (5 - 1) s ++ 0 :: dropZ (Z.min (5 - 1) (zlen s) + 1) (replicate 6 7)) tt.
Proof.
  split; [vm_compute; reflexivity|].
  apply (strerror_r_correct (-42) (replicate 6 7) 5 tt); unfold INT_MIN, INT_MAX; [lia|split; done|done].
Defined.
