(* ===== verification/Locale.v ===== *)
(** <locale.h> and nl_langinfo: src/lib/racccoon-libc/src/locale.c.

    The one locale there is.  A [locale_t] is NULL ([None]), the static object or
    LC_GLOBAL_LOCALE; a name may be a null pointer. *)
From S2P Require Import Prelude CMonad CMemory CBuffer Kernel RcFd.

Inductive locale := c_locale | LC_GLOBAL_LOCALE.
#[export] Instance locale_eq_dec : EqDecision locale.
Proof. solve_decision. Defined.

Definition LC_CTYPE : Z := 0.
Definition LC_ALL : Z := 6.
Definition LC_ALL_MASK : Z := 63.

(** [!strncmp(name, "C.", 2)] *)
Definition is_c (name : option bytes) : bool :=
  match name with
  | None => true
  | Some name =>
      (zlen name =? 0) || bool_decide (name = str "C") || bool_decide (name = str "POSIX")
      || bool_decide (takeZ 2 name = str "C.")
  end.

(** The string returned, [None] for NULL. *)
Definition setlocale (category : Z) (name : option bytes) : option bytes :=
  if (category <? LC_CTYPE) || (LC_ALL <? category) then None
  else if is_c name then Some (str "C") else None.

(** The strings of struct lconv, and its numbers. *)
Definition c_lconv : list bytes * list Z :=
  ([str "."; []; []; []; []; []; []; []; []; []], replicate 14 127).
Definition localeconv : list bytes * list Z := c_lconv.

(** nl_item: <langinfo.h> *)
Definition CODESET : Z := 0.
Definition RADIXCHAR : Z := 1.
Definition THOUSEP : Z := 2.
Definition D_T_FMT : Z := 3.
Definition D_FMT : Z := 4.
Definition T_FMT : Z := 5.
Definition T_FMT_AMPM : Z := 6.
Definition AM_STR : Z := 7.
Definition PM_STR : Z := 8.
Definition DAY_1 : Z := 9.
Definition DAY_2 : Z := 10.
Definition DAY_3 : Z := 11.
Definition DAY_4 : Z := 12.
Definition DAY_5 : Z := 13.
Definition DAY_6 : Z := 14.
Definition DAY_7 : Z := 15.
Definition ABDAY_1 : Z := 16.
Definition ABDAY_2 : Z := 17.
Definition ABDAY_3 : Z := 18.
Definition ABDAY_4 : Z := 19.
Definition ABDAY_5 : Z := 20.
Definition ABDAY_6 : Z := 21.
Definition ABDAY_7 : Z := 22.
Definition MON_1 : Z := 23.
Definition MON_2 : Z := 24.
Definition MON_3 : Z := 25.
Definition MON_4 : Z := 26.
Definition MON_5 : Z := 27.
Definition MON_6 : Z := 28.
Definition MON_7 : Z := 29.
Definition MON_8 : Z := 30.
Definition MON_9 : Z := 31.
Definition MON_10 : Z := 32.
Definition MON_11 : Z := 33.
Definition MON_12 : Z := 34.
Definition ABMON_1 : Z := 35.
Definition ABMON_2 : Z := 36.
Definition ABMON_3 : Z := 37.
Definition ABMON_4 : Z := 38.
Definition ABMON_5 : Z := 39.
Definition ABMON_6 : Z := 40.
Definition ABMON_7 : Z := 41.
Definition ABMON_8 : Z := 42.
Definition ABMON_9 : Z := 43.
Definition ABMON_10 : Z := 44.
Definition ABMON_11 : Z := 45.
Definition ABMON_12 : Z := 46.
Definition ERA : Z := 47.
Definition ERA_D_FMT : Z := 48.
Definition ALT_DIGITS : Z := 49.
Definition ERA_D_T_FMT : Z := 50.
Definition ERA_T_FMT : Z := 51.
Definition YESEXPR : Z := 52.
Definition NOEXPR : Z := 53.
Definition CRNCYSTR : Z := 54.

(** The initialiser of an array: each string, with its designator if it has one,
    is put at the index the designator says or behind the string before it; the
    array ends at the last one, what no string is for is NULL. *)
Fixpoint initialised (at_ : Z) (l : list (option Z * bytes)) : gmap Z bytes * Z :=
  match l with
  | [] => (∅, at_)
  | (d, s) :: l =>
      let i := default at_ d in
      let '(m, n) := initialised (i + 1) l in
      (match m !! i with Some _ => m | None => <[i := s]> m end, Z.max (i + 1) n)
  end.

(** The named strings, those that follow one of them *)
Definition named (item : Z) (s : string) : option Z * bytes := (Some item, str s).
Definition next (s : string) : option Z * bytes := (None, str s).

Definition c_langinfo : gmap Z bytes * Z := initialised 0 [
  named CODESET "ANSI_X3.4-1968"; named RADIXCHAR "."; named THOUSEP "";
  named D_T_FMT "%a %b %e %H:%M:%S %Y"; named D_FMT "%m/%d/%y"; named T_FMT "%H:%M:%S";
  named T_FMT_AMPM "%I:%M:%S %p"; named AM_STR "AM"; named PM_STR "PM";
  named DAY_1 "Sunday"; next "Monday"; next "Tuesday"; next "Wednesday"; next "Thursday"; next "Friday"; next "Saturday";
  named ABDAY_1 "Sun"; next "Mon"; next "Tue"; next "Wed"; next "Thu"; next "Fri"; next "Sat";
  named MON_1 "January"; next "February"; next "March"; next "April"; next "May"; next "June"; next "July";
  next "August"; next "September"; next "October"; next "November"; next "December";
  named ABMON_1 "Jan"; next "Feb"; next "Mar"; next "Apr"; next "May"; next "Jun"; next "Jul"; next "Aug"; next "Sep";
  next "Oct"; next "Nov"; next "Dec";
  named ERA ""; named ERA_D_FMT ""; named ALT_DIGITS ""; named ERA_D_T_FMT ""; named ERA_T_FMT "";
  named YESEXPR "^[yY]"; named NOEXPR "^[nN]"; named CRNCYSTR "-"].
Definition nl_langinfo (item : Z) : bytes :=
  if (item <? 0) || (c_langinfo.2 <=? item) then [] else default [] (c_langinfo.1 !! item).
Definition nl_langinfo_l (item : Z) : bytes := nl_langinfo item.

Section locale.
Context {K : Type} `{!Kernel K}.

Definition newlocale (mask : Z) (name : option bytes) (base : option locale) : M (posix K) (option locale) :=
  if negb (Z.land mask (Z.lnot LC_ALL_MASK) =? 0) then set_errno EINVAL ;; ret None
  else if negb (is_c name) then set_errno ENOENT ;; ret None
  else ret (Some c_locale).
Definition duplocale (l : option locale) : M (posix K) (option locale) := ret (Some c_locale).
Definition freelocale (l : option locale) : M (posix K) unit := ret tt.
End locale.

(** On the static [current]. *)
Definition uselocale (l : option locale) : M locale locale :=
  old <- get ;;
  match l with Some l => put l ;; ret old | None => ret old end.

(** Every item of <langinfo.h> has its own string, the array has no hole and ends
    with the last of them. *)
Lemma langinfo_table : c_langinfo.2 = CRNCYSTR + 1 ∧ size (c_langinfo.1) = Z.to_nat (c_langinfo.2).
Proof. by vm_compute. Qed.

(** An abbreviated name begins the full one: ABDAY_1 and ABMON_1 number the same
    days and months as DAY_1 and MON_1. *)
Lemma langinfo_abbreviations k :
  (0 ≤ k < 7 → nl_langinfo (ABDAY_1 + k) = takeZ 3 (nl_langinfo (DAY_1 + k)) ∧ zlen (nl_langinfo (ABDAY_1 + k)) = 3) ∧
  (0 ≤ k < 12 → nl_langinfo (ABMON_1 + k) = takeZ 3 (nl_langinfo (MON_1 + k)) ∧ zlen (nl_langinfo (ABMON_1 + k)) = 3).
Proof.
  split; intros Hk.
  - assert (forallb (λ i, bool_decide (nl_langinfo (ABDAY_1 + Z.of_nat i) = takeZ 3 (nl_langinfo (DAY_1 + Z.of_nat i)) ∧
      zlen (nl_langinfo (ABDAY_1 + Z.of_nat i)) = 3)) (seq 0 7) = true) as H by (by vm_compute).
    rewrite forallb_forall in H. specialize (H (Z.to_nat k) ltac:(apply in_seq; lia)).
    rewrite Z2Nat.id in H by lia. by apply bool_decide_eq_true in H.
  - assert (forallb (λ i, bool_decide (nl_langinfo (ABMON_1 + Z.of_nat i) = takeZ 3 (nl_langinfo (MON_1 + Z.of_nat i)) ∧
      zlen (nl_langinfo (ABMON_1 + Z.of_nat i)) = 3)) (seq 0 12) = true) as H by (by vm_compute).
    rewrite forallb_forall in H. specialize (H (Z.to_nat k) ltac:(apply in_seq; lia)).
    rewrite Z2Nat.id in H by lia. by apply bool_decide_eq_true in H.
Qed.

Example langinfo_examples :
  nl_langinfo CRNCYSTR = str "-" ∧ nl_langinfo MON_12 = str "December" ∧ nl_langinfo ABMON_12 = str "Dec" ∧
  nl_langinfo DAY_7 = str "Saturday" ∧ nl_langinfo (-1) = [] ∧ nl_langinfo (CRNCYSTR + 1) = [].
Proof. by vm_compute. Qed.
