(* ===== verification/RcMalloc.v ===== *)
(** The heap's source of memory: src/lib/racccoon-libc/src/rc_malloc.c.

    rc_morecore is what the vendored dlmalloc calls for more memory, and
    aligned_alloc its one addition; dlmalloc itself is a parameter here and the
    operation [heap_alloc] of Kernel elsewhere.  [heap_st K] is the kernel with
    this file's statics.  A pointer is its address, MFAIL is 2^64 - 1. *)
From S2P Require Import Prelude CMonad Kernel.

Record heap_st (K : Type) := Heap {
  hp_world : K;
  __rc_heap_mapped : Z;
  rc_top : Z;
}.
Arguments Heap {K}.
Arguments hp_world {K}.
Arguments __rc_heap_mapped {K}.
Arguments rc_top {K}.

Definition MFAIL : Z := 18446744073709551615.

Section malloc.
Context {K : Type} `{!Kernel K}.
Abbreviation H := (heap_st K).

Program Definition hp_lens : lens H K := Lens _ _ hp_world (λ w s, Heap w (__rc_heap_mapped s) (rc_top s)) _ _ _.
Next Obligation. done. Qed.
Next Obligation. by intros []. Qed.
Next Obligation. done. Qed.

(** [n] is a ptrdiff_t. *)
Definition rc_morecore (n : Z) : M H Z :=
  if n =? 0 then s <- get ;; ret (if negb (rc_top s =? 0) then rc_top s else MFAIL)
  else if n <? 0 then ret MFAIL
  else
    let want := Z.land (u64 (n + 4095)) (u64 (Z.lnot 4095)) in
    p <- zoom hp_lens (__rc_map_pages want) ;;
    if p =? 0 then ret MFAIL
    else
      modify (λ s, Heap (hp_world s) (u64 (__rc_heap_mapped s + want)) (u64 (p + want))) ;;
      ret p.

(** memalign is dlmalloc's. *)
Definition aligned_alloc (memalign : Z → Z → M H Z) (align size : Z) : M H Z := memalign align size.

(** Rounding up to whole pages. *)
Lemma page_round n : 0 < n < 9223372036854775808 →
  Z.land (u64 (n + 4095)) (u64 (Z.lnot 4095)) = (n + 4095) / 4096 * 4096.
Proof.
  intros Hn. rewrite (u64_id (n + 4095)) by lia. set (x := n + 4095).
  assert (0 ≤ x < 2 ^ 64) as Hx by (subst x; lia).
  assert (Z.land x (u64 (Z.lnot 4095)) = Z.land x (Z.lnot (Z.ones 12))) as ->.
  { apply Z.bits_inj'. intros i Hi. rewrite !Z.land_spec. destruct (decide (i < 64)).
    - unfold u64. change 18446744073709551616 with (2 ^ 64). by rewrite Z.mod_pow2_bits_low by lia.
    - replace (Z.testbit x i) with false; [done|]. symmetry.
      apply (Z.bounded_iff_bits_nonneg 64 x); lia. }
  change (Z.land x (Z.lnot (Z.ones 12))) with (Z.ldiff x (Z.ones 12)).
  rewrite Z.ldiff_ones_r, Z.shiftr_div_pow2, Z.shiftl_mul_pow2 by lia. done.
Qed.

(** What the kernel gives is a run of whole pages at the address it says. *)
Theorem morecore_correct n s p w (Hn : 0 < n < 9223372036854775808)
  (Hmap : sys_map ((n + 4095) / 4096 * 4096) (hp_world s) = Ret p w)
  (Hp : p = -1 ∨ 0 < p ∧ p + (n + 4095) / 4096 * 4096 < 18446744073709551616)
  (Hm : 0 ≤ __rc_heap_mapped s < 9223372036854775808) :
  let want := (n + 4095) / 4096 * 4096 in
  n ≤ want < n + 4096 ∧ want mod 4096 = 0 ∧
  (p = -1 → rc_morecore n s = Ret MFAIL (Heap w (__rc_heap_mapped s) (rc_top s))) ∧
  (p ≠ -1 → rc_morecore n s = Ret p (Heap w (__rc_heap_mapped s + want) (p + want)) ∧
     rc_morecore 0 (Heap w (__rc_heap_mapped s + want) (p + want)) = Ret (p + want) (Heap w (__rc_heap_mapped s + want) (p + want))).
Proof.
  intros want. assert (n ≤ want < n + 4096 ∧ want mod 4096 = 0) as [Hw Hw2] by (subst want; lia).
  split; [done|]. split; [done|].
  unfold rc_morecore at 1 2. rewrite page_round by done. fold want. fold want in Hmap, Hp.
  replace (n =? 0) with false by lia. replace (n <? 0) with false by lia. cbn zeta.
  assert (zoom hp_lens (__rc_map_pages want) s = Ret (if p =? -1 then 0 else p) (Heap w (__rc_heap_mapped s) (rc_top s))) as E.
  { unfold zoom, __rc_map_pages, bind. cbn [lget lset hp_lens]. by rewrite Hmap. }
  split.
  - intros ->. by rewrite (bind_run _ _ _ _ _ E).
  - intros Hne. rewrite (bind_run _ _ _ _ _ E). replace (p =? -1) with false by lia. replace (p =? 0) with false by lia.
    unfold modify, bind. cbn. rewrite (u64_id (_ + want)), (u64_id (p + want)) by lia. split; [done|].
    unfold rc_morecore. cbn. by replace (p + want =? 0) with false by lia.
Qed.
End malloc.
