(* ===== verification/RcNet.v ===== *)
(** The transfer core of the socket layer, which read, write and close of
    rc_posix.c call: src/lib/racccoon-libc/src/rc_socket.c.

    A socket is a /net conversation; its descriptor keeps the conversation's
    directory as its path.  The retry loops have no bound of their own in C
    (a peer may stay silent for ever); here they have the fuel of every loop. *)
From S2P Require Import Prelude CMonad CBuffer Kernel RcFs RcFd.

Definition NETF_TCP : Z := 1.
Definition NETF_HEADERS : Z := 2.
Definition NET_RETRY : Z := -2.

(** [for (i = 0; s[i] && o < lim; i++) out[o++] = s[i];] into [out[128]] *)
Definition append_limit {S} (lim : Z) (out s : bytes) : M S bytes :=
  loop (λ '(i, out),
    c <- chr s i ;;
    if negb (c =? 0) && (zlen out <? lim) then out <- push 128 out c ;; ret (Continue (i + 1, out))
    else ret (Break out)) (0, out).

Definition netpath {S} (dir file : bytes) : M S bytes :=
  out <- append_limit 100 [] dir ;;
  out <- push 128 out 47 ;;
  out <- append_limit 126 out file ;;
  push 128 out 0 ;; ret out.

Section net.
Context {K : Type} `{!Kernel K} (junk : bytes).

Definition sleep_ticks (t : Z) : M (posix K) unit := sys (sys_await 0 t) ;; ret tt.

Definition ctl (dir cmd : bytes) : M (posix K) Z :=
  p <- netpath dir (str "ctl") ;;
  r <- sys (__rc_fs_write junk p cmd (zlen cmd)) ;;
  ret (if r <? 0 then -1 else 0).

(** [errno = ENOTSOCK] unless [fd] is a socket *)
Definition sock (fd : Z) : M (posix K) (option fdent) :=
  d <- __rc_fd_net_dir fd ;;
  match d with Some e => ret (Some e) | None => set_errno ENOTSOCK ;; ret None end.

(** The result, the bytes for the caller's buffer, the peer header. *)
Definition net_recv (dir : bytes) (flags n : Z) : M (posix K) (Z * bytes * bytes) :=
  p <- netpath dir (str "data") ;;
  let headers := negb (Z.land flags NETF_HEADERS =? 0) in
  let want := u64 (n + (if headers then 6 else 0)) in
  let want := if RC_FS_MSG_MAX - 8 <? want then RC_FS_MSG_MAX - 8 else want in
  let* (r, tmp) := loop (λ _,
    let* (r, tmp) := sys (__rc_fs_read junk p want) in
    if r =? NET_RETRY then ret (Continue tt) else ret (Break (r, tmp))) tt in
  if r <? 0 then r <- fail ECONNRESET ;; ret (r, [], [])
  else if headers then
    if r <? 6 then ret (0, [], [])
    else hdr <- peek 0 6 tmp ;; data <- peek 6 (r - 6) tmp ;; ret (r - 6, data, hdr)
  else data <- peek 0 r tmp ;; ret (r, data, []).

Definition net_send (dir : bytes) (flags : Z) (buf : bytes) (n : Z) : M (posix K) Z :=
  p <- netpath dir (str "data") ;;
  hz <- sys __rc_timebase_hz ;;
  loop (λ done,
    if done <? n then
      let chunk := s64 (n - done) in
      let chunk := if RC_FS_MSG_MAX - 120 <? chunk then RC_FS_MSG_MAX - 120 else chunk in
      data <- peek done chunk buf ;;
      w <- sys (__rc_fs_write junk p data chunk) ;;
      if w <? 0 then
        if negb (done =? 0) then ret (Break done)
        else r <- fail (if negb (Z.land flags NETF_TCP =? 0) then ECONNRESET else EINVAL) ;; ret (Break r)
      else if w =? 0 then sleep_ticks (hz / 200) ;; ret (Continue done)
      else if Z.land flags NETF_TCP =? 0 then ret (Break (done + w))
      else ret (Continue (done + w))
    else ret (Break done)) 0.

Definition __rc_net_read (fd n : Z) : M (posix K) (Z * bytes) :=
  d <- sock fd ;;
  match d with
  | None => ret (-1, [])
  | Some e => let* (r, data, _) := net_recv (fd_path e) (fd_flags e) n in ret (r, data)
  end.

Definition __rc_net_write (fd : Z) (buf : bytes) (n : Z) : M (posix K) Z :=
  d <- sock fd ;;
  match d with
  | None => ret (-1)
  | Some e => net_send (fd_path e) (fd_flags e) buf n
  end.

Definition __rc_net_close (fd : Z) : M (posix K) unit :=
  d <- __rc_fd_net_dir fd ;;
  match d with
  | None => ret tt
  | Some e => ctl (fd_path e) (str "hangup") ;; ret tt
  end.
End net.
