(* ===== verification/RcSocket.v ===== *)
(** BSD sockets over /net conversations: src/lib/racccoon-libc/src/rc_socket.c,
    without the resolver (RcDns.v), and include/netinet/in.h.

    A [struct sockaddr *] argument is the caller's object as bytes; a result
    parameter is the object before the call and the object after it. *)
From S2P Require Import Prelude CMonad CMemory CBuffer Ctype CStdlib Printf Kernel RcFs Ram RcFd RcNet.

Definition AF_UNSPEC : Z := 0.
Definition AF_INET : Z := 2.
Definition SOCK_STREAM : Z := 1.
Definition SOCK_DGRAM : Z := 2.
Definition SHUT_WR : Z := 1.
Definition SHUT_RDWR : Z := 2.
Definition INADDR_NONE : Z := 4294967295.
(** [sizeof(struct sockaddr_in)] *)
Definition sizeof_sockaddr_in : Z := 16.

(** Byte order: [uint16_t] and [uint32_t] arguments. *)
Definition htons (v : Z) : Z := u16 (Z.lor (Z.shiftl v 8) (Z.shiftr v 8)).
Definition ntohs (v : Z) : Z := htons v.
Definition htonl (v : Z) : Z :=
  Z.lor (Z.lor (Z.lor (u32 (Z.shiftl (Z.land v 255) 24)) (u32 (Z.shiftl (Z.land v 65280) 8)))
    (Z.land (Z.shiftr v 8) 65280)) (Z.shiftr v 24).
Definition ntohl (v : Z) : Z := htonl v.

(** [struct sockaddr_in]: the port and the address are in network order. *)
Record sockaddr_in := SockaddrIn { sin_family : Z; sin_port : Z; sin_addr : Z }.
(** Its bytes, [sin_zero] at the end; and the fields of an object. *)
Definition sin_bytes (sin : sockaddr_in) : bytes :=
  le_split 2 (sin_family sin) ++ le_split 2 (sin_port sin) ++ le_split 4 (sin_addr sin) ++ replicate 8 0.
Definition sa_family {S} (addr : bytes) : M S Z := bs <- peek 0 2 addr ;; ret (le_combine bs).
Definition load_sin {S} (addr : bytes) : M S sockaddr_in :=
  f <- peek 0 2 addr ;; p <- peek 2 2 addr ;; a <- peek 4 4 addr ;;
  ret (SockaddrIn (le_combine f) (le_combine p) (le_combine a)).

(** [buf[n] = 0] in an array of [cap] bytes whose first [n] were filled: the
    string in it. *)
Definition terminate {S} (cap n : Z) (buf : bytes) : M S bytes :=
  if (0 <=? n) && (n <? cap) then ret (c_str (takeZ n buf)) else fault.

Section text.
Context {S : Type} (fmt_fp : va_slot → Z → Z → Z → Z → bytes).

(** sprintf into a local array of [cap] bytes: the result, the text. *)
Definition sprintf_in (cap : Z) (fmt : bytes) (ap : list va_slot) : M S (Z * bytes) :=
  let* (r, b, _) := sprintf fmt_fp fmt ap in
  if zlen b <=? cap then ret (r, takeZ (zlen b - 1) b) else fault.

(** The third word of "tcp 3 Established rx ...": its position. *)
Definition status_state (st : bytes) : M S Z :=
  loop (λ '(p, sp),
    c <- chr st p ;;
    if negb (c =? 0) && (sp <? 2) then
      ret (Continue (p + 1, if c =? 32 then sp + 1 else sp))
    else ret (Break p)) (0, 0).

(** [ip] in host order; the text goes to [out] of [cap] bytes. *)
Definition fmt_ip (cap ip : Z) : M S (Z * bytes) :=
  sprintf_in cap (str "%u.%u.%u.%u")
    [VInt (Z.land (Z.shiftr ip 24) 255); VInt (Z.land (Z.shiftr ip 16) 255);
     VInt (Z.land (Z.shiftr ip 8) 255); VInt (Z.land ip 255)].

(** One number of a dotted quad, from [p] on: the position behind it and its
    value, [None] when it exceeds 255. *)
Definition quad_byte (s : bytes) (p : Z) : M S (option (Z * Z)) :=
  loop (λ '(p, b),
    c <- chr s p ;;
    if (48 <=? c) && (c <=? 57) then
      let b := u32 (b * 10 + (c - 48)) in
      if 255 <? b then ret (Break None) else ret (Continue (p + 1, b))
    else ret (Break (Some (p, b)))) (p, 0).

(** Dotted quad at [p]: the position behind it and the address in host order. *)
Definition parse_quad (s : bytes) (p : Z) : M S (option (Z * Z)) :=
  loop (λ '(k, v, p),
    if k <? 4 then
      c <- chr s p ;;
      if (c <? 48) || (57 <? c) then ret (Break None)
      else
        r <- quad_byte s p ;;
        match r with
        | None => ret (Break None)
        | Some (p, b) =>
            let v := Z.lor (u32 (Z.shiftl v 8)) b in
            if k <? 3 then
              c <- chr s p ;;
              if negb (c =? 46) then ret (Break None) else ret (Continue (k + 1, v, p + 1))
            else ret (Continue (k + 1, v, p))
        end
    else ret (Break (Some (p, v)))) (0, 0, p).

(** "a.b.c.d!port": the address and the port. *)
Definition parse_hostport (s : bytes) : M S (option (Z * Z)) :=
  q <- parse_quad s 0 ;;
  match q with
  | None => ret None
  | Some (p, ip) =>
      c <- chr s p ;;
      if negb (c =? 33) then ret None
      else
        c <- chr s (p + 1) ;;
        if (c <? 48) || (57 <? c) then ret None
        else
          port <- loop (λ '(p, port),
            c <- chr s p ;;
            if (48 <=? c) && (c <=? 57) then ret (Continue (p + 1, u32 (port * 10 + (c - 48))))
            else ret (Break port)) (p + 1, 0) ;;
          ret (Some (ip, port))
  end.

(** What fill_addr stores through [addr] and [len]: [None] when one is NULL,
    else the object and [*len], before and after the call. *)
Definition fill_addr (dst : option (bytes * Z)) (ip port : Z) : M S (option (bytes * Z)) :=
  match dst with
  | None => ret None
  | Some (addr, len) =>
      let sin := sin_bytes (SockaddrIn AF_INET (htons (u16 port)) (htonl ip)) in
      let n := if len <? sizeof_sockaddr_in then len else sizeof_sockaddr_in in
      addr <- splice 0 (takeZ n sin) addr ;;
      ret (Some (addr, sizeof_sockaddr_in))
  end.

(** The address in network order; [None] is the result 0. *)
Definition inet_aton (cp : bytes) : M S (option Z) :=
  q <- parse_quad cp 0 ;;
  match q with
  | None => ret None
  | Some (p, ip) =>
      c <- chr cp p ;;
      if negb (c =? 0) then ret None else ret (Some (htonl ip))
  end.

Definition inet_addr (cp : bytes) : M S Z :=
  a <- inet_aton cp ;; ret (match a with Some a => a | None => INADDR_NONE end).

Definition inet_ntoa (s_addr : Z) : M S bytes :=
  let* (_, buf) := fmt_ip 16 (ntohl s_addr) in ret buf.
End text.

Section socket.
Context {K : Type} `{!Kernel K} (junk : bytes) (fmt_fp : va_slot → Z → Z → Z → Z → bytes).
Abbreviation P := (posix K).

(** The result and the string in [out], an array of [cap] bytes. *)
Definition read_status (dir : bytes) (cap : Z) : M P (Z * bytes) :=
  p <- netpath dir (str "status") ;;
  let* (n, out) := sys (__rc_fs_read junk p (cap - 1)) in
  if n <? 0 then ret (-1, [])
  else out <- terminate cap n out ;; ret (n, out).

Definition socket (domain type : Z) : M P Z :=
  if negb (domain =? AF_INET) then fail EAFNOSUPPORT
  else
    let type := Z.land type 15 in
    if negb (type =? SOCK_STREAM) && negb (type =? SOCK_DGRAM) then fail EPROTONOSUPPORT
    else
      let proto := if type =? SOCK_STREAM then str "tcp" else str "udp" in
      let* (_, clone) := sprintf_in fmt_fp 32 (str "/net/%s/clone") [VStr (Some proto)] in
      let* (n, num) := sys (__rc_fs_read junk clone 15) in
      if n <=? 0 then fail ENFILE
      else
        num <- terminate 16 n num ;;
        conv <- atoi num ;;
        let* (_, dir) := sprintf_in fmt_fp 32 (str "/net/%s/%d") [VStr (Some proto); VInt conv] in
        fd <- __rc_fd_new_net dir (if type =? SOCK_STREAM then NETF_TCP else 0) ;;
        if fd <? 0 then ctl junk dir (str "hangup") ;; ret (-1) else ret fd.

(** [*port = p]: the port lives in the descriptor's [off]. *)
Definition bind_ (fd : Z) (addr : bytes) (len : Z) : M P Z :=
  d <- sock fd ;;
  match d with
  | None => ret (-1)
  | Some e =>
      family <- (if len <? sizeof_sockaddr_in then ret AF_UNSPEC else sa_family addr) ;;
      if (len <? sizeof_sockaddr_in) || negb (family =? AF_INET) then fail EINVAL
      else
        sin <- load_sin addr ;;
        let p := ntohs (sin_port sin) in
        fd_set_off fd p ;;
        if p =? 0 then ret 0
        else
          let* (_, cmd) := sprintf_in fmt_fp 32 (str "bind %u") [VInt p] in
          r <- ctl junk (fd_path e) cmd ;;
          if r <? 0 then fail EADDRINUSE else ret 0
  end.

Definition listen (fd : Z) : M P Z :=
  d <- sock fd ;;
  match d with
  | None => ret (-1)
  | Some e =>
      let* (_, cmd) := sprintf_in fmt_fp 32 (str "announce %lu") [VInt (fd_off e)] in
      if fd_off e =? 0 then fail EADDRINUSE
      else
        r <- ctl junk (fd_path e) cmd ;;
        if r <? 0 then fail EADDRINUSE else ret 0
  end.

(** The address and the port in the file [file] of [dir]. *)
Definition read_addr (dir file : bytes) : M P (option (Z * Z)) :=
  p <- netpath dir file ;;
  let* (n, buf) := sys (__rc_fs_read junk p 47) in
  if n <=? 0 then ret None
  else buf <- terminate 48 n buf ;; parse_hostport buf.

(** The result and the caller's [addr], [len] afterwards. *)
Definition accept (fd : Z) (dst : option (bytes * Z)) : M P (Z * option (bytes * Z)) :=
  d <- sock fd ;;
  match d with
  | None => ret (-1, dst)
  | Some e =>
      p <- netpath (fd_path e) (str "listen") ;;
      let* (n, num) := loop (λ _,
        let* (n, num) := sys (__rc_fs_read junk p 15) in
        if n =? NET_RETRY then ret (Continue tt) else ret (Break (n, num))) tt in
      if n <=? 0 then r <- fail EINVAL ;; ret (r, dst)
      else
        num <- terminate 16 n num ;;
        conv <- atoi num ;;
        let* (_, ndir) := sprintf_in fmt_fp 32 (str "/net/tcp/%d") [VInt conv] in
        nfd <- __rc_fd_new_net ndir NETF_TCP ;;
        if nfd <? 0 then ctl junk ndir (str "hangup") ;; ret (-1, dst)
        else
          a <- read_addr ndir (str "remote") ;;
          dst <- match a with Some (ip, rport) => fill_addr dst ip rport | None => ret dst end ;;
          ret (nfd, dst)
  end.

(** connect's wait for a TCP conversation: at most 1000 looks at its status. *)
Definition await_established (dir : bytes) (hz : Z) : M P Z :=
  loop (λ i,
    if i <? 1000 then
      let* (n, st) := read_status dir 96 in
      if n <? 0 then r <- fail ETIMEDOUT ;; ret (Break r)
      else
        s <- status_state st ;;
        c <- chr st s ;;
        if c =? 69 then ret (Break 0)
        else
          refused <- (if c =? 82 then ret true
                      else if c =? 67 then c1 <- chr st (s + 1) ;; ret (c1 =? 108) else ret false) ;;
          if refused then r <- fail ECONNREFUSED ;; ret (Break r)
          else sleep_ticks (hz / 100) ;; ret (Continue (i + 1))
    else r <- fail ETIMEDOUT ;; ret (Break r)) 0.

Definition connect (fd : Z) (addr : bytes) (len : Z) : M P Z :=
  d <- sock fd ;;
  match d with
  | None => ret (-1)
  | Some e =>
      family <- (if len <? sizeof_sockaddr_in then ret AF_UNSPEC else sa_family addr) ;;
      if (len <? sizeof_sockaddr_in) || negb (family =? AF_INET) then fail EAFNOSUPPORT
      else
        sin <- load_sin addr ;;
        let* (o, t1) := sprintf_in fmt_fp 48 (str "connect ") [] in
        let* (o2, t2) := fmt_ip fmt_fp (48 - o) (ntohl (sin_addr sin)) in
        let* (_, t3) := sprintf_in fmt_fp (48 - (o + o2)) (str "!%u") [VInt (ntohs (sin_port sin))] in
        r <- ctl junk (fd_path e) (t1 ++ t2 ++ t3) ;;
        if r <? 0 then fail ECONNREFUSED
        else if Z.land (fd_flags e) NETF_TCP =? 0 then ret 0
        else hz <- sys __rc_timebase_hz ;; await_established (fd_path e) hz
  end.

Definition send (fd : Z) (buf : bytes) (n : Z) : M P Z := __rc_net_write junk fd buf n.
Definition recv (fd n : Z) : M P (Z * bytes) := __rc_net_read junk fd n.

(** [*fl |= NETF_HEADERS]; the flags afterwards come with the result. *)
Definition ensure_headers (fd : Z) (e : fdent) : M P (Z * Z) :=
  if negb (Z.land (fd_flags e) NETF_HEADERS =? 0) then ret (0, fd_flags e)
  else
    r <- ctl junk (fd_path e) (str "headers") ;;
    if r <? 0 then ret (-1, fd_flags e)
    else
      let fl := Z.lor (fd_flags e) NETF_HEADERS in
      fd_set_flags fd fl ;; ret (0, fl).

(** [to]: the destination, [None] for NULL. *)
Definition sendto (fd : Z) (buf : bytes) (n : Z) (to : option bytes) (tolen : Z) : M P Z :=
  d <- sock fd ;;
  match d with
  | None => ret (-1)
  | Some e =>
      match to with
      | Some to =>
          if negb (Z.land (fd_flags e) NETF_TCP =? 0) then net_send junk (fd_path e) (fd_flags e) buf n
          else if tolen <? sizeof_sockaddr_in then fail EINVAL
          else
            let* (h, fl) := ensure_headers fd e in
            if h <? 0 then fail EINVAL
            else
              let n := if 1480 - 6 <? n then 1480 - 6 else n in
              a <- peek 4 4 to ;;
              p <- peek 2 2 to ;;
              data <- peek 0 n buf ;;
              r <- net_send junk (fd_path e) fl (a ++ p ++ data) (n + 6) ;;
              ret (if r <? 0 then -1 else n)
      | None => net_send junk (fd_path e) (fd_flags e) buf n
      end
  end.

(** The result, the data, the caller's [from], [fromlen] afterwards.  [net_recv]
    fills the peer header only when a datagram had one: [[]] is the
    uninitialised array, and reading it a fault. *)
Definition recvfrom (fd n : Z) (dst : option (bytes * Z)) : M P (Z * bytes * option (bytes * Z)) :=
  d <- sock fd ;;
  match d with
  | None => ret (-1, [], dst)
  | Some e =>
      if negb (Z.land (fd_flags e) NETF_TCP =? 0) then
        let* (r, data, _) := net_recv junk (fd_path e) (fd_flags e) n in ret (r, data, dst)
      else
        let* (h, fl) := ensure_headers fd e in
        if h <? 0 then r <- fail EINVAL ;; ret (r, [], dst)
        else
          let* (r, data, hdr) := net_recv junk (fd_path e) fl n in
          if (0 <=? r) && bool_decide (is_Some dst) then
            h0 <- of_option (idx hdr 0) ;; h1 <- of_option (idx hdr 1) ;;
            h2 <- of_option (idx hdr 2) ;; h3 <- of_option (idx hdr 3) ;;
            h4 <- of_option (idx hdr 4) ;; h5 <- of_option (idx hdr 5) ;;
            let ip := Z.lor (Z.lor (Z.lor (Z.shiftl h0 24) (Z.shiftl h1 16)) (Z.shiftl h2 8)) h3 in
            dst <- fill_addr dst ip (Z.lor (Z.shiftl h4 8) h5) ;;
            ret (r, data, dst)
          else ret (r, data, dst)
  end.

Definition shutdown (fd how : Z) : M P Z :=
  d <- sock fd ;;
  match d with
  | None => ret (-1)
  | Some e =>
      (if ((how =? SHUT_WR) || (how =? SHUT_RDWR)) && negb (Z.land (fd_flags e) NETF_TCP =? 0)
       then ctl junk (fd_path e) (str "close") ;; ret tt else ret tt) ;;
      ret 0
  end.

Definition setsockopt (fd : Z) : M P Z :=
  d <- __rc_fd_net_dir fd ;;
  match d with Some _ => ret 0 | None => fail ENOTSOCK end.

(** [val]: is it not NULL; [len]: [*len], if not NULL.  The second result is
    what [*val] and [*len] were set to, [None] when they were not. *)
Definition getsockopt (fd : Z) (val : bool) (len : option Z) : M P (Z * option (Z * Z)) :=
  d <- __rc_fd_net_dir fd ;;
  match d with
  | None => r <- fail ENOTSOCK ;; ret (r, None)
  | Some _ =>
      match val, len with
      | true, Some n => if 4 <=? n then ret (0, Some (0, 4)) else ret (0, None)
      | _, _ => ret (0, None)
      end
  end.

Definition getsockname (fd : Z) (dst : option (bytes * Z)) : M P (Z * option (bytes * Z)) :=
  d <- sock fd ;;
  match d with
  | None => ret (-1, dst)
  | Some e =>
      a <- read_addr (fd_path e) (str "local") ;;
      match a with
      | None => r <- fail EINVAL ;; ret (r, dst)
      | Some (ip, p) => dst <- fill_addr dst ip p ;; ret (0, dst)
      end
  end.

Definition getpeername (fd : Z) (dst : option (bytes * Z)) : M P (Z * option (bytes * Z)) :=
  d <- sock fd ;;
  match d with
  | None => ret (-1, dst)
  | Some e =>
      a <- read_addr (fd_path e) (str "remote") ;;
      match a with
      | None => r <- fail ENOTCONN ;; ret (r, dst)
      | Some (ip, p) =>
          if ip =? 0 then r <- fail ENOTCONN ;; ret (r, dst)
          else dst <- fill_addr dst ip p ;; ret (0, dst)
      end
  end.

(** The result, the four bytes for [dst]. *)
Definition inet_pton (af : Z) (src : bytes) : M P (Z * option Z) :=
  if negb (af =? AF_INET) then r <- fail EAFNOSUPPORT ;; ret (r, None)
  else a <- inet_aton src ;; ret (match a with Some _ => 1 | None => 0 end, a).

(** [NULL], or the string in [dst]. *)
Definition inet_ntop (af s_addr size : Z) : M P (option bytes) :=
  if negb (af =? AF_INET) then set_errno EAFNOSUPPORT ;; ret None
  else
    let* (_, tmp) := fmt_ip fmt_fp 16 (ntohl s_addr) in
    if size <? zlen tmp + 1 then set_errno ENOSPC ;; ret None
    else ret (Some tmp).
End socket.

(** * Dotted quads *)

(** What a dotted quad denotes, read off the text: [n] numbers, the first of
    which starts at [r], after the value [v]; the text behind it, the value. *)
Fixpoint quad_at (n : nat) (v : Z) (r : bytes) : option (bytes * Z) :=
  match n with
  | O => Some (r, v)
  | S n =>
      let ds := take_while isdigit r in
      let b := digits_val 10 ds in
      let rest := dropZ (zlen ds) r in
      let v := Z.lor (u32 (Z.shiftl v 8)) b in
      if bool_decide (ds = []) || (255 <? b) then None
      else match n with
      | O => Some (rest, v)
      | S _ => if hd 0 rest =? 46 then quad_at n v (dropZ 1 rest) else None
      end
  end.

Lemma digits_val_app10 ds1 ds2 :
  Forall (λ c, isdigit c = true) ds2 → 0 ≤ digits_val 10 ds1 →
  digits_val 10 ds1 ≤ digits_val 10 (ds1 ++ ds2).
Proof.
  intros H H1. induction ds2 as [|c ds2 IH] using rev_ind; [by rewrite app_nil_r|].
  apply Forall_app in H as [H Hc]. apply Forall_inv in Hc. rewrite app_assoc, digits_val_snoc.
  specialize (IH H). pose proof (digit_val_range c). lia.
Qed.

Lemma digits_val_nonneg base ds : 0 ≤ base → 0 ≤ digits_val base ds.
Proof.
  intros Hb. induction ds as [|c ds IH] using rev_ind; [done|]. rewrite digits_val_snoc.
  pose proof (digit_val_range c). nia.
Qed.

Lemma isdigit_val c : isdigit c = true → digit_val c = c - 48 ∧ 48 ≤ c ≤ 57.
Proof. unfold isdigit, digit_val. intros E. rewrite E. lia. Qed.

Section quads.
Context {S : Type}.
Implicit Types (st : S).

Lemma quad_byte_run s p st : 0 ≤ p ≤ zlen s → zlen s < 18446744073709551616 →
  let ds := take_while isdigit (dropZ p s) in
  quad_byte s p st =
    Ret (if 255 <? digits_val 10 ds then None else Some (p + zlen ds, digits_val 10 ds)) st.
Proof.
  intros Hp Hl ds. destruct (take_while_split isdigit (dropZ p s)) as (rest & E & Hr). fold ds in E.
  pose proof (take_while_Forall isdigit (dropZ p s)) as Hd. fold ds in Hd.
  pose proof (zlen_dropZ p s ltac:(lia)) as Hlen. rewrite E in Hlen.
  unfold quad_byte. apply (loop_pure _ (λ '(q, _), zlen s - q) (λ '(q, b), ∃ d1 d2, ds = d1 ++ d2 ∧
    q = p + zlen d1 ∧ b = digits_val 10 d1 ∧ b ≤ 255)).
  - intros [q b] (d1 & d2 & Eds & -> & -> & Hb). rewrite Eds in Hlen. split; [zlen_lia|].
    rewrite (bind_run _ _ _ _ _ (chr_run s (p + zlen d1) st ltac:(zlen_lia))).
    assert (chrv s (p + zlen d1) = hd 0 (d2 ++ rest)) as ->.
    { rewrite chrv_hd by zlen_lia. rewrite <- dropZ_dropZ by zlen_lia.
      by rewrite E, Eds, <- app_assoc, dropZ_app_zlen. }
    rewrite Eds in Hd. apply Forall_app in Hd as [Hd1 Hd2]. destruct d2 as [|c d2]; cbn [app hd].
    + left. rewrite app_nil_r in Eds. subst d1.
      assert (isdigit (hd 0 rest) = false) as Hn by (destruct rest; [done|by eapply Hr]).
      unfold isdigit in Hn. rewrite Hn. by replace (255 <? digits_val 10 ds) with false by lia.
    + pose proof (Forall_inv Hd2) as Hc. pose proof (isdigit_val c Hc) as [Hv Hcr].
      pose proof (digits_val_nonneg 10 d1 ltac:(lia)).
      replace ((48 <=? c) && (c <=? 57)) with true by lia. cbn zeta. rewrite u32_id by lia.
      assert (digits_val 10 d1 * 10 + (c - 48) = digits_val 10 (d1 ++ [c])) as -> by (rewrite digits_val_snoc; lia).
      destruct (Z.ltb_spec 255 (digits_val 10 (d1 ++ [c]))).
      * left. assert (255 < digits_val 10 ds) as Hbig.
        { rewrite Eds. change (c :: d2) with ([c] ++ d2). rewrite app_assoc.
          pose proof (digits_val_app10 (d1 ++ [c]) d2 (Forall_inv_tail Hd2)). lia. }
        by replace (255 <? digits_val 10 ds) with true by lia.
      * right. eexists. split; [reflexivity|]. split; [|lia].
        exists (d1 ++ [c]), d2. rewrite <- app_assoc. split_and!; [done|zlen_lia|done|done].
  - exists [], ds. split_and!; [done|change (zlen []) with 0; lia|done|done].
  - lia.
Qed.

Lemma quad_at_suffix n v r r' v' : quad_at n v r = Some (r', v') → ∃ d, r = d ++ r'.
Proof.
  revert v r. induction n as [|n IH]; intros v r; cbn [quad_at]; [intros [= <- _]; by exists []|].
  cbn zeta. set (ds := take_while isdigit r). destruct (_ || _); [done|].
  destruct (take_while_split isdigit r) as (rest & E & _). fold ds in E.
  assert (dropZ (zlen ds) r = rest) as -> by (rewrite E; apply dropZ_app_zlen). destruct n as [|n]; [intros [= <- _]; by exists ds|].
  destruct (Z.eqb_spec (hd 0 rest) 46); [|done]. destruct rest as [|c rest]; [done|].
  change (dropZ 1 (c :: rest)) with rest. intros (d & Ed)%IH. exists (ds ++ c :: d).
  rewrite E, Ed at 1. by rewrite <- app_assoc.
Qed.

Lemma parse_quad_run s p st : 0 ≤ p ≤ zlen s → zlen s < 18446744073709551616 →
  parse_quad s p st = Ret (match quad_at 4 0 (dropZ p s) with
    | Some (r, v) => Some (zlen s - zlen r, v) | None => None end) st.
Proof.
  intros Hp Hl. unfold parse_quad.
  apply (loop_pure _ (λ '(k, _, _), 4 - k) (λ '(k, v, q), 0 ≤ k ≤ 4 ∧ 0 ≤ q ≤ zlen s ∧
     quad_at (Z.to_nat (4 - k)) v (dropZ q s) = quad_at 4 0 (dropZ p s))); [|split_and!; try done; lia|lia].
  intros [[k v] q] (Hk & Hq & <-). split; [lia|]. clear p Hp. destruct (Z.ltb_spec k 4) as [Hk4|Hk4].
  2:{ left. replace k with 4 by lia. cbn [quad_at Z.to_nat Z.sub Z.add Z.opp Z.pos_sub].
      change (Z.to_nat (4 - 4)) with 0%nat. cbn [quad_at]. unfold ret. do 3 f_equal.
      rewrite zlen_dropZ by lia. f_equal. lia. }
  replace (Z.to_nat (4 - k)) with (Datatypes.S (Z.to_nat (3 - k))) by lia. cbn [quad_at]. cbn zeta.
  rewrite (bind_run _ _ _ _ _ (chr_run s q st Hq)). rewrite (chrv_hd s q) by lia.
  pose proof (quad_byte_run s q st Hq Hl) as Hb. cbn zeta in Hb.
  destruct (take_while_split isdigit (dropZ q s)) as (rest & E & Hr).
  pose proof (take_while_Forall isdigit (dropZ q s)) as Hd.
  set (ds := take_while isdigit (dropZ q s)) in *. set (b := digits_val 10 ds) in *.
  pose proof (zlen_dropZ q s ltac:(lia)) as Hlen. rewrite E in Hlen |- *. rewrite dropZ_app_zlen.
  destruct ds as [|c ds'] eqn:Eds.
  { left. cbn [app]. rewrite bool_decide_eq_true_2 by done. cbn [orb].
    assert (isdigit (hd 0 rest) = false) as Hn by (destruct rest; [done|by eapply Hr]).
    unfold isdigit in Hn. by replace ((hd 0 rest <? 48) || (57 <? hd 0 rest)) with true by lia. }
  rewrite <- Eds in *. rewrite (bool_decide_eq_false_2 (ds = [])) by (by rewrite Eds). cbn [orb].
  assert ((hd 0 (ds ++ rest) <? 48) || (57 <? hd 0 (ds ++ rest)) = false) as ->.
  { rewrite Eds in Hd |- *. apply Forall_inv in Hd. cbn [app hd]. unfold isdigit in Hd. lia. }
  rewrite (bind_run _ _ _ _ _ Hb). destruct (255 <? b); [by left|]. cbn zeta.
  pose proof (zlen_nonneg rest). pose proof (zlen_nonneg ds). rewrite zlen_app in Hlen.
  assert (dropZ (q + zlen ds) s = rest) as Erest.
  { rewrite <- dropZ_dropZ by lia. by rewrite E, dropZ_app_zlen. }
  destruct (Z.ltb_spec k 3) as [Hk3|Hk3].
  - rewrite (bind_run _ _ _ _ _ (chr_run s (q + zlen ds) st ltac:(lia))).
    rewrite chrv_hd, Erest by lia.
    replace (Z.to_nat (3 - k)) with (Datatypes.S (Z.to_nat (2 - k))) by lia.
    destruct (Z.eqb_spec (hd 0 rest) 46); cbn [negb]; [|by left].
    right. eexists. split; [reflexivity|]. split; [|lia]. split; [lia|].
    destruct rest as [|x rest']; [done|]. split; [zlen_lia|].
    replace (Z.to_nat (4 - (k + 1))) with (Datatypes.S (Z.to_nat (2 - k))) by lia. f_equal.
    rewrite <- dropZ_dropZ by lia. by rewrite Erest.
  - right. replace k with 3 by lia. change (Z.to_nat (3 - 3)) with 0%nat.
    eexists. split; [reflexivity|]. split; [|lia]. split; [lia|]. split; [lia|].
    change (Z.to_nat (4 - (3 + 1))) with 0%nat. cbn [quad_at]. by rewrite Erest.
Qed.
End quads.

(** ** Bytes and bits *)

Lemma shift_in v b : 0 ≤ v < 16777216 → is_byte b → Z.lor (u32 (Z.shiftl v 8)) b = v * 256 + b.
Proof.
  intros Hv Hb. rewrite Z.shiftl_mul_pow2 by lia. change (2 ^ 8) with 256. rewrite u32_id by lia.
  apply (lor_add v b 8); lia.
Qed.
Lemma land_ones_mod x k : 0 ≤ k → Z.land x (2 ^ k - 1) = x mod 2 ^ k.
Proof. intros. rewrite <- Z.land_ones by lia. by rewrite Z.ones_equiv. Qed.

Lemma land255 x : Z.land x 255 = x mod 256.
Proof. exact (land_ones_mod x 8 ltac:(lia)). Qed.

Lemma land_ff00 x : Z.land x 65280 = x / 256 mod 256 * 256.
Proof.
  change 65280 with (Z.shiftl 255 8). change 256 with (2 ^ 8) at 1. rewrite <- Z.shiftr_div_pow2 by lia.
  rewrite <- land255. change 256 with (2 ^ 8). rewrite <- Z.shiftl_mul_pow2 by lia.
  apply Z.bits_inj'. intros n Hn. rewrite Z.land_spec, !Z.shiftl_spec by lia.
  destruct (decide (n < 8)).
  - rewrite !(Z.testbit_neg_r _ (n - 8)) by lia. by rewrite andb_false_r.
  - rewrite Z.land_spec, Z.shiftr_spec by lia. do 2 f_equal. lia.
Qed.

Lemma htonl_arith v : 0 ≤ v < 4294967296 →
  htonl v = v mod 256 * 16777216 + v / 256 mod 256 * 65536 + v / 65536 mod 256 * 256 + v / 16777216.
Proof.
  intros Hv. unfold htonl. rewrite !land_ff00, land255, !Z.shiftl_mul_pow2, !Z.shiftr_div_pow2 by lia.
  change (2 ^ 24) with 16777216. change (2 ^ 8) with 256. unfold u32. rewrite (Z.mod_small (_ * 16777216)), (Z.mod_small (_ * 256 * 256)) by lia.
  pose proof (lor_add (v mod 256) (v / 256 mod 256 * 256 * 256) 24) as E1.
  change (2 ^ 24) with 16777216 in E1. rewrite E1 by lia.
  pose proof (lor_add (v mod 256 * 256 + v / 256 mod 256) (v / 256 / 256 mod 256 * 256) 16) as E2.
  change (2 ^ 16) with 65536 in E2.
  replace (v mod 256 * 16777216 + v / 256 mod 256 * 256 * 256)
    with ((v mod 256 * 256 + v / 256 mod 256) * 65536) by lia. rewrite E2 by lia.
  pose proof (lor_add ((v mod 256 * 256 + v / 256 mod 256) * 256 + v / 256 / 256 mod 256) (v / 16777216) 8) as E3.
  change (2 ^ 8) with 256 in E3.
  replace ((v mod 256 * 256 + v / 256 mod 256) * 65536 + v / 256 / 256 mod 256 * 256)
    with (((v mod 256 * 256 + v / 256 mod 256) * 256 + v / 256 / 256 mod 256) * 256) by lia.
  rewrite E3 by lia. rewrite Z.div_div by lia. change (256 * 256) with 65536. lia.
Qed.

Lemma htonl_range v : 0 ≤ v < 4294967296 → 0 ≤ htonl v < 4294967296.
Proof. intros. rewrite htonl_arith by done. lia. Qed.

Lemma htonl_bytes a b c d : is_byte a → is_byte b → is_byte c → is_byte d →
  htonl (a + b * 256 + c * 65536 + d * 16777216) = d + c * 256 + b * 65536 + a * 16777216.
Proof. intros. rewrite htonl_arith by lia. lia. Qed.

Lemma u32_bytes v : 0 ≤ v < 4294967296 →
  ∃ a b c d, (is_byte a ∧ is_byte b ∧ is_byte c ∧ is_byte d) ∧ v = a + b * 256 + c * 65536 + d * 16777216.
Proof.
  intros. exists (v mod 256), (v / 256 mod 256), (v / 65536 mod 256), (v / 16777216). lia.
Qed.

Lemma htonl_htonl v : 0 ≤ v < 4294967296 → htonl (htonl v) = v.
Proof.
  intros (a & b & c & d & (? & ? & ? & ?) & ->)%u32_bytes. rewrite htonl_bytes by done.
  by apply htonl_bytes.
Qed.

(** ** What the text of an address is *)

Definition octet (ds : bytes) : Prop :=
  ds ≠ [] ∧ Forall (λ c, isdigit c = true) ds ∧ digits_val 10 ds ≤ 255.
(** Numbers separated by dots, and the value they stand for. *)
Fixpoint dots (l : list bytes) : bytes :=
  match l with
  | [] => []
  | [ds] => ds
  | ds :: l => ds ++ 46 :: dots l
  end.
Definition dots_val (v : Z) (l : list bytes) : Z :=
  foldl (λ v ds, Z.lor (u32 (Z.shiftl v 8)) (digits_val 10 ds)) v l.

Lemma octet_run ds rest : octet ds → isdigit (hd 0 rest) = false →
  take_while isdigit (ds ++ rest) = ds.
Proof.
  intros (_ & Hd & _) Hr. apply take_while_stop; [done|]. intros x r ->. done.
Qed.

Lemma quad_at_octet n v ds rest : octet ds → isdigit (hd 0 rest) = false →
  quad_at (Datatypes.S n) v (ds ++ rest) =
    let v := Z.lor (u32 (Z.shiftl v 8)) (digits_val 10 ds) in
    match n with
    | O => Some (rest, v)
    | Datatypes.S _ => if hd 0 rest =? 46 then quad_at n v (dropZ 1 rest) else None
    end.
Proof.
  intros Ho Hr. cbn [quad_at]. cbn zeta. rewrite (octet_run ds rest Ho Hr), dropZ_app_zlen.
  destruct Ho as (Hne & _ & Hv). rewrite bool_decide_eq_false_2 by done.
  by replace (255 <? digits_val 10 ds) with false by lia.
Qed.

Lemma quad_at_S n v r : quad_at (Datatypes.S n) v r =
  let ds := take_while isdigit r in
  let v := Z.lor (u32 (Z.shiftl v 8)) (digits_val 10 ds) in
  if bool_decide (ds = []) || (255 <? digits_val 10 ds) then None
  else match n with
  | O => Some (dropZ (zlen ds) r, v)
  | Datatypes.S _ =>
      if hd 0 (dropZ (zlen ds) r) =? 46 then quad_at n v (dropZ 1 (dropZ (zlen ds) r)) else None
  end.
Proof. reflexivity. Qed.

(** [quad_at] accepts the dotted texts and nothing else. *)
Lemma quad_at_dots l v rest : Forall octet l → l ≠ [] → isdigit (hd 0 rest) = false →
  quad_at (length l) v (dots l ++ rest) = Some (rest, dots_val v l).
Proof.
  intros Ho Hne Hr. revert v. induction Ho as [|ds l Hds Ho IH]; [done|]. intros v. cbn [length].
  destruct l as [|ds2 l].
  - cbn [dots]. by rewrite (quad_at_octet _ _ _ _ Hds Hr).
  - change (dots (ds :: ds2 :: l)) with (ds ++ 46 :: dots (ds2 :: l)).
    rewrite <- app_assoc, <- app_comm_cons, quad_at_octet by done. cbn zeta.
    change (hd 0 (46 :: _)) with 46. rewrite Z.eqb_refl. cbn [length].
    change (dropZ 1 (46 :: ?x)) with x. by apply (IH ltac:(done)).
Qed.

Lemma quad_at_Some n v r rest v' : quad_at (Datatypes.S n) v r = Some (rest, v') →
  ∃ l, length l = Datatypes.S n ∧ Forall octet l ∧ r = dots l ++ rest ∧ v' = dots_val v l ∧
    isdigit (hd 0 rest) = false.
Proof.
  revert v r. induction n as [|n IH]; intros v r.
  all: destruct (take_while_split isdigit r) as (tl & E & Htl);
    pose proof (take_while_Forall isdigit r) as Hd;
    assert (dropZ (zlen (take_while isdigit r)) r = tl) as Etl by (rewrite E at 2; apply dropZ_app_zlen);
    assert (isdigit (hd 0 tl) = false) as Hhd by (destruct tl; [done|by eapply Htl]).
  all: rewrite quad_at_S; cbn zeta; rewrite Etl;
    set (ds := take_while isdigit r) in *; destruct (bool_decide_reflect (ds = [])) as [|Hne]; [done|];
    cbn [orb]; destruct (Z.ltb_spec 255 (digits_val 10 ds)); [done|].
  - intros [= <- <-]. exists [ds]. split_and!; [done| |done..]. constructor; [done|constructor].
  - destruct (Z.eqb_spec (hd 0 tl) 46); [|done].
    intros (l & Hl & Ho & Er & -> & Hr)%IH. exists (ds :: l).
    split_and!; [by rewrite <- Hl|by constructor| |done|done].
    destruct l as [|d2 l]; [done|]. destruct tl as [|c tl]; [done|]. cbn [hd] in *. subst c.
    change (dropZ 1 (46 :: tl)) with tl in Er.
    change (dots (ds :: d2 :: l)) with (ds ++ 46 :: dots (d2 :: l)).
    rewrite E, Er. by rewrite <- app_assoc, <- app_comm_cons.
Qed.

(** [cp] is the dotted quad of the address [ip]. *)
Definition dotted (cp : bytes) (ip : Z) : Prop :=
  ∃ d1 d2 d3 d4, octet d1 ∧ octet d2 ∧ octet d3 ∧ octet d4 ∧
    cp = dots [d1; d2; d3; d4] ∧
    ip = ((digits_val 10 d1 * 256 + digits_val 10 d2) * 256 + digits_val 10 d3) * 256 + digits_val 10 d4.

Lemma octet_range ds : octet ds → is_byte (digits_val 10 ds).
Proof. intros (_ & _ & ?). pose proof (digits_val_nonneg 10 ds ltac:(lia)). lia. Qed.

Lemma dots_val_quad d1 d2 d3 d4 : octet d1 → octet d2 → octet d3 → octet d4 →
  dots_val 0 [d1; d2; d3; d4] =
  ((digits_val 10 d1 * 256 + digits_val 10 d2) * 256 + digits_val 10 d3) * 256 + digits_val 10 d4.
Proof.
  intros H1%octet_range H2%octet_range H3%octet_range H4%octet_range. unfold dots_val. cbn [foldl].
  rewrite (shift_in 0 (digits_val 10 d1)), (shift_in _ (digits_val 10 d2)), (shift_in _ (digits_val 10 d3)),
    (shift_in _ (digits_val 10 d4)) by lia. lia.
Qed.

Lemma quad_at_dotted cp ip : dotted cp ip ↔ quad_at 4 0 cp = Some ([], ip).
Proof.
  split.
  - intros (d1 & d2 & d3 & d4 & H1 & H2 & H3 & H4 & -> & ->). rewrite <- dots_val_quad by done.
    rewrite <- (app_nil_r (dots _)). apply (quad_at_dots [d1; d2; d3; d4]); [|done..]. by rewrite !Forall_cons.
  - intros (l & Hl & Ho & E & -> & _)%quad_at_Some. rewrite app_nil_r in E.
    destruct l as [|d1 [|d2 [|d3 [|d4 [|]]]]]; try done.
    rewrite !Forall_cons in Ho. destruct Ho as (H1 & H2 & H3 & H4 & _).
    exists d1, d2, d3, d4. rewrite dots_val_quad by done. done.
Qed.

Lemma inet_aton_run {S} cp (st : S) : c_chars cp → zlen cp < 18446744073709551616 →
  inet_aton cp st = Ret (match quad_at 4 0 cp with Some ([], ip) => Some (htonl ip) | _ => None end) st.
Proof.
  intros Hc Hl. unfold inet_aton. rewrite (bind_run _ _ _ _ _ (parse_quad_run cp 0 st ltac:(zlen_lia) Hl)).
  rewrite dropZ_0. destruct (quad_at 4 0 cp) as [[r v]|] eqn:E; [|done].
  destruct (quad_at_suffix _ _ _ _ _ E) as [d Ed]. subst cp.
  rewrite (bind_run _ _ _ _ _ (chr_run (d ++ r) (zlen (d ++ r) - zlen r) st ltac:(zlen_lia))).
  replace (zlen (d ++ r) - zlen r) with (zlen d) by zlen_lia. rewrite chrv_app_r.
  destruct r as [|c r]; [done|]. apply c_chars_app in Hc as [_ Hc%Forall_inv]. cbn [hd].
  by replace (c =? 0) with false by lia.
Qed.

(** ** Printing *)

Lemma utoa_octet {S} b (st : S) : is_byte b →
  ∃ ds, utoa b 10 false st = Ret ds st ∧ octet ds ∧ digits_val 10 ds = b ∧ zlen ds ≤ 3.
Proof.
  intros Hb. destruct (decide (b = 0)) as [->|E0].
  { exists [48]. split_and!; [reflexivity| |done|done]. split; [done|]. split; [by repeat constructor|done]. }
  destruct (utoa_run_pow b 10 false st ltac:(lia) ltac:(lia)) as (ds & E & [Hd Hv] & Hl & Hp).
  exists ds. split; [done|]. split; [|split; [done|]].
  - split; [intros ->; by change (zlen []) with 0 in Hl|]. split; [|lia].
    eapply Forall_impl; [exact Hd|]. cbn beta. intros c [Hc Hr]. revert Hc. unfold digit_val, isdigit.
    repeat match goal with |- context [if ?b then _ else _] => destruct b eqn:? end; lia.
  - destruct (decide (zlen ds ≤ 3)); [done|]. specialize (Hp E0).
    pose proof (Z.pow_le_mono_r 10 3 (zlen ds - 1)). lia.
Qed.

(** "%u.%u.%u.%u" on the full text. *)
Lemma format_quad fmt_fp a b c d : is_byte a → is_byte b → is_byte c → is_byte d →
  ∃ text, dotted text (((a * 256 + b) * 256 + c) * 256 + d) ∧ zlen text ≤ 15 ∧
    format_full fmt_fp (str "%u.%u.%u.%u") [VInt a; VInt b; VInt c; VInt d] =
    Ret (s32 (zlen text)) (Full text []).
Proof.
  intros Ha Hb Hc Hd.
  destruct (utoa_octet a (Full [] []) Ha) as (d1 & E1 & H1 & V1 & L1).
  destruct (utoa_octet b (Full (d1 ++ [46]) []) Hb) as (d2 & E2 & H2 & V2 & L2).
  destruct (utoa_octet c (Full (((d1 ++ [46]) ++ d2) ++ [46]) []) Hc) as (d3 & E3 & H3 & V3 & L3).
  destruct (utoa_octet d (Full (((((d1 ++ [46]) ++ d2) ++ [46]) ++ d3) ++ [46]) []) Hd) as (d4 & E4 & H4 & V4 & L4).
  exists (dots [d1; d2; d3; d4]).
  split; [exists d1, d2, d3, d4; by rewrite V1, V2, V3, V4|].
  split; [cbn [dots]; zlen_lia|].
  rewrite format_full_eq. unfold vformat.
  rewrite (bind_run _ _ tt _ (Full (dots [d1; d2; d3; d4]) [])); [done|].
  set (t4 := dots [d1; d2; d3; d4]).
  apply (loop_to_run _ 7); [|done].
  apply (loop_to_next _ _ _ _ (2, [VInt b; VInt c; VInt d]) (Full d1 [])).
  { exact (bind_run _ _ _ _ _ (convert_u fmt_fp a _ d1 [] [] ltac:(lia) ltac:(lia) E1)). }
  apply (loop_to_next _ _ _ _ (3, [VInt b; VInt c; VInt d]) (Full (d1 ++ [46]) [])); [reflexivity|].
  apply (loop_to_next _ _ _ _ (5, [VInt c; VInt d]) (Full ((d1 ++ [46]) ++ d2) [])).
  { exact (bind_run _ _ _ _ _ (convert_u fmt_fp b _ d2 _ [] ltac:(lia) ltac:(lia) E2)). }
  apply (loop_to_next _ _ _ _ (6, [VInt c; VInt d]) (Full (((d1 ++ [46]) ++ d2) ++ [46]) [])); [reflexivity|].
  apply (loop_to_next _ _ _ _ (8, [VInt d]) (Full ((((d1 ++ [46]) ++ d2) ++ [46]) ++ d3) [])).
  { exact (bind_run _ _ _ _ _ (convert_u fmt_fp c _ d3 _ [] ltac:(lia) ltac:(lia) E3)). }
  apply (loop_to_next _ _ _ _ (9, [VInt d]) (Full (((((d1 ++ [46]) ++ d2) ++ [46]) ++ d3) ++ [46]) [])); [reflexivity|].
  apply (loop_to_next _ _ _ _ (11, []) (Full t4 [])).
  { replace t4 with ((((((d1 ++ [46]) ++ d2) ++ [46]) ++ d3) ++ [46]) ++ d4)
      by (unfold t4; cbn [dots]; by rewrite <- !app_assoc).
    exact (bind_run _ _ _ _ _ (convert_u fmt_fp d _ d4 _ [] ltac:(lia) ltac:(lia) E4)). }
  apply loop_to_break. reflexivity.
Qed.

Lemma fmt_ip_run {S} fmt_fp cap ip (st : S) : 0 ≤ ip < 4294967296 → 16 ≤ cap →
  ∃ text, dotted text ip ∧ 7 ≤ zlen text ≤ 15 ∧ fmt_ip fmt_fp cap ip st = Ret (s32 (zlen text), text) st.
Proof.
  intros (d & c & b & a & (Hd & Hc & Hb & Ha) & E)%u32_bytes Hcap.
  destruct (format_quad fmt_fp a b c d Ha Hb Hc Hd) as (text & Ht & Hl & Ef).
  assert (7 ≤ zlen text) as Hmin.
  { destruct Ht as (d1 & d2 & d3 & d4 & (N1 & _) & (N2 & _) & (N3 & _) & (N4 & _) & -> & _).
    destruct d1, d2, d3, d4; try done. cbn [dots]. zlen_lia. }
  exists text. split; [|split; [lia|]].
  { subst ip. by replace (d + c * 256 + b * 65536 + a * 16777216) with (((a * 256 + b) * 256 + c) * 256 + d) by lia. }
  unfold fmt_ip, sprintf_in, sprintf.
  rewrite !land255, !Z.shiftr_div_pow2 by lia. change (2 ^ 24) with 16777216. change (2 ^ 16) with 65536. change (2 ^ 8) with 256.
  replace (ip / 16777216 mod 256) with a by lia. replace (ip / 65536 mod 256) with b by lia.
  replace (ip / 256 mod 256) with c by lia. replace (ip mod 256) with d by lia.
  rewrite (bind_run _ _ _ _ _ (vsprintf_run fmt_fp _ _ _ text [] st ltac:(unfold SIZE_MAX; lia) Ef)).
  rewrite zlen_app. change (zlen [0]) with 1. replace (zlen text + 1 <=? cap) with true by lia.
  replace (zlen text + 1 - 1) with (zlen text) by lia. by rewrite takeZ_app_zlen.
Qed.

Lemma octet_chars ds : octet ds → c_chars ds.
Proof.
  intros (_ & H & _). eapply Forall_impl; [exact H|]. cbn beta. intros c []%isdigit_val. lia.
Qed.

Lemma dotted_chars cp ip : dotted cp ip → c_chars cp.
Proof.
  intros (d1 & d2 & d3 & d4 & H1%octet_chars & H2%octet_chars & H3%octet_chars & H4%octet_chars & -> & _).
  cbn [dots]. unfold c_chars in *. repeat (rewrite Forall_app || rewrite Forall_cons). split_and!; done || lia.
Qed.

(** * The theorems *)

(** C33: inet_aton accepts a string exactly when it is a dotted quad, four
    decimal numbers of at most 255 with single dots between them and nothing
    behind, and gives the address in network order. *)
Theorem inet_aton_correct {S} cp (st : S)
  (Hc : c_chars cp) (Hl : zlen cp < 18446744073709551616) :
  (∃ ip, dotted cp ip ∧ inet_aton cp st = Ret (Some (htonl ip)) st) ∨
  ((∀ ip, ¬ dotted cp ip) ∧ inet_aton cp st = Ret None st).
Proof.
  rewrite inet_aton_run by done. destruct (quad_at 4 0 cp) as [[[|c r] ip]|] eqn:E.
  - left. exists ip. by rewrite quad_at_dotted.
  - right. split; [|done]. intros ip'. rewrite quad_at_dotted, E. congruence.
  - right. split; [|done]. intros ip'. by rewrite quad_at_dotted, E.
Qed.

Section statements.
Context {K : Type} `{!Kernel K} (fmt_fp : va_slot → Z → Z → Z → Z → bytes).

(** C20: inet_ntop and inet_pton invert each other on every IPv4 address: into
    a buffer of INET_ADDRSTRLEN bytes inet_ntop always prints, at most 15
    characters, and inet_pton reads the same address back; a buffer too small
    for the text is refused with ENOSPC, not overrun. *)
Theorem inet_roundtrip (s_addr size : Z) (st : posix K) (Ha : 0 ≤ s_addr < 4294967296) :
  ∃ text, zlen text ≤ 15 ∧
    inet_ntop fmt_fp AF_INET s_addr size st =
      (if size <? zlen text + 1 then Ret None (set_errno_ ENOSPC st) else Ret (Some text) st) ∧
    inet_pton AF_INET text st = Ret (1, Some s_addr) st.
Proof.
  destruct (fmt_ip_run fmt_fp 16 (ntohl s_addr) st (htonl_range _ Ha) ltac:(lia)) as (text & Ht & Hl & E).
  exists text. split; [lia|]. split.
  - unfold inet_ntop. change (negb (AF_INET =? AF_INET)) with false. cbn iota.
    rewrite (bind_run _ _ _ _ _ E). by destruct (size <? zlen text + 1).
  - unfold inet_pton. change (negb (AF_INET =? AF_INET)) with false. cbn iota.
    pose proof (inet_aton_run text st (dotted_chars _ _ Ht) ltac:(lia)) as Er.
    rewrite (proj1 (quad_at_dotted _ _) Ht) in Er. rewrite (bind_run _ _ _ _ _ Er).
    unfold ntohl. by rewrite htonl_htonl.
Qed.
End statements.

(** A datagram shorter than the peer header: recvfrom returns 0 bytes, but
    computes the peer's address from the header array that was never filled. *)
Section short_datagram.
Context {K : Type} `{!Kernel K} (junk : bytes).

Theorem recvfrom_short_datagram (p : posix K) fd e n dst path r tmp w
  (Hp : ready p) (He : idx (fdtab p) fd = Some e) (Hk : fd_kind e = K_NET) (Hf : fd_flags e = NETF_HEADERS)
  (Hpath : ∀ s : posix K, netpath (fd_path e) (str "data") s = Ret path s) (Hn : 0 ≤ n ≤ 1024)
  (Hread : __rc_fs_read junk path (n + 6) (world p) = Ret (r, tmp) w) (Hr : 0 ≤ r < 6) :
  recvfrom junk fd n (Some dst) p = Fault.
Proof.
  unfold recvfrom, sock, __rc_fd_net_dir.
  rewrite (bind_run _ _ (Some e) _ p).
  2:{ rewrite (bind_run _ _ (Some e) _ p); [done|].
      rewrite (bind_run _ _ _ _ _ (fd_init_run p (proj2 Hp))). by apply fd_of_kind_run. }
  rewrite Hf. change (negb (Z.land NETF_HEADERS NETF_TCP =? 0)) with false. cbn iota.
  unfold ensure_headers. rewrite Hf. change (negb (Z.land NETF_HEADERS NETF_HEADERS =? 0)) with true. cbn iota.
  rewrite bind_ret. change (0 <? 0) with false. cbn iota.
  rewrite (bind_run _ _ (0, [], []) _ (set_world w p)); [done|].
  unfold net_recv. rewrite (bind_run _ _ _ _ _ (Hpath p)).
  change (negb (Z.land NETF_HEADERS NETF_HEADERS =? 0)) with true. cbn zeta iota.
  rewrite u64_id by lia. replace (RC_FS_MSG_MAX - 8 <? n + 6) with false by (unfold RC_FS_MSG_MAX; lia).
  rewrite (bind_run _ _ (r, tmp) _ (set_world w p)).
  2:{ apply loop_break. rewrite (bind_run _ _ _ _ _ (sys_run _ _ _ _ Hread)).
      by replace (r =? NET_RETRY) with false by (unfold NET_RETRY; lia). }
  replace (r <? 0) with false by lia. by replace (r <? 6) with true by lia.
Qed.
End short_datagram.

Lemma inet_aton_correct_witness :
  (∃ ip, dotted (str "10.0.2.15") ip ∧ inet_aton (str "10.0.2.15") tt = Ret (Some (htonl ip)) tt) ∨
  ((∀ ip, ¬ dotted (str "10.0.2.15") ip) ∧ inet_aton (str "10.0.2.15") tt = Ret None tt).
Proof.
  apply (inet_aton_correct (str "10.0.2.15") tt); [apply c_chars_b_sound; reflexivity|reflexivity].
Defined.

Lemma inet_roundtrip_witness (st := posix_start (ex_ram [] [])) :
  ∃ text, zlen text ≤ 15 ∧
    inet_ntop (λ _ _ _ _ _, []) AF_INET 251789322 16 st =
      (if 16 <? zlen text + 1 then Ret None (set_errno_ ENOSPC st) else Ret (Some text) st) ∧
    inet_pton AF_INET text st = Ret (1, Some 251789322) st.
Proof. apply (inet_roundtrip (λ _ _ _ _ _, []) 251789322 16 st). lia. Defined.

Definition ex_socket : posix ram :=
  set_inited true (fd_upd 3 (Fdent K_NET NETF_HEADERS 0 (str "/net/udp/3"))
    (posix_start (ex_ram (str "/net/udp/3/data") [1; 2; 3]))).

Lemma recvfrom_short_datagram_witness : recvfrom ex_junk 3 512 (Some (replicate 16 0, 16)) ex_socket = Fault.
Proof.
  eapply (recvfrom_short_datagram ex_junk ex_socket 3 (Fdent K_NET NETF_HEADERS 0 (str "/net/udp/3")) 512
    (replicate 16 0, 16) (str "/net/udp/3/data") 3 [1; 2; 3]).
  - by split.
  - reflexivity.
  - reflexivity.
  - reflexivity.
  - intros s. reflexivity.
  - done.
  - vm_compute. reflexivity.
  - done.
Defined.
