(* ===== verification/RcPosix.v ===== *)
(** The POSIX layer over descriptors and paths: src/lib/racccoon-libc/src/rc_posix.c.

    A buffer a call fills is returned next to its result, a buffer it reads is
    an argument; a [struct stat *] result is an option, [None] for -1. *)
From S2P Require Import Prelude CMonad CMemory CBuffer Kernel RcFs RcFd RcNet FileServer.

(** ** Data *)

Record stat_t := Stat {
  st_dev : Z; st_ino : Z; st_mode : Z; st_nlink : Z; st_size : Z; st_blksize : Z; st_blocks : Z;
}.
Definition S_IFREG : Z := 32768.
Definition S_IFDIR : Z := 16384.
Definition S_IFCHR : Z := 8192.
Definition S_IFMT : Z := 61440.
Definition S_ISREG (m : Z) : bool := Z.land m S_IFMT =? S_IFREG.
Definition S_ISDIR (m : Z) : bool := Z.land m S_IFMT =? S_IFDIR.
Definition S_ISCHR (m : Z) : bool := Z.land m S_IFMT =? S_IFCHR.

(** [struct __dir], an open directory stream *)
Record dirstream := Dir { d_fd : Z; d_count : Z; d_pos : Z; d_buf : bytes }.
(** [struct dirent] *)
Record dirent := Dirent { d_name : bytes; d_type : Z; d_ino : Z }.
Definition DT_DIR : Z := 4.
Definition DT_REG : Z := 8.
Definition DIR_LIST_MAX : Z := 512.

(** [struct pollfd] *)
Record pollfd := Pollfd { poll_fd : Z; poll_events : Z; poll_revents : Z }.
Definition POLLIN : Z := 1.
Definition POLLOUT : Z := 4.
Definition POLLNVAL : Z := 32.
Definition RC_AW_STDIN : Z := 2.
Definition RC_AW_NOTE : Z := 8.

(** [fill_stat] *)
Definition fill_stat (size type : Z) : stat_t := {|
  st_dev := 0; st_ino := 0;
  st_mode := if type =? 1 then Z.lor S_IFDIR 493 else Z.lor S_IFREG 420;
  st_nlink := 1; st_size := s64 size; st_blksize := 4096; st_blocks := u64 (size + 511) / 512;
|}.

(** 64-bit FNV-1a of the path *)
Definition fnv1a (ap : bytes) : Z :=
  foldl (λ h c, u64 (Z.lxor h c * 1099511628211)) 1469598103934665603 ap.

Section posix.
Context {K : Type} `{!Kernel K} (junk : bytes).
Abbreviation P := (posix K).

(** ** Direct system calls *)

Definition getpid : M P Z := r <- sys sys_getpid ;; ret (s32 r).
Definition getppid : M P Z :=
  pid <- getpid ;;
  r <- sys (sys_parent_info pid) ;; ret (if r <? 0 then 0 else s32 r).
Definition getuid : M P Z := r <- sys sys_getuid ;; ret (s32 r).

Definition chdir (path : bytes) : M P Z :=
  ap <- sys (__rc_abspath path) ;;
  r <- sys (sys_chdir ap) ;;
  if negb (r =? 0) then fail ENOENT else ret 0.

(** [NULL], or the buffer *)
Definition getcwd (size : Z) : M P (option bytes) :=
  let* (n, buf) := sys (sys_getcwd size) in
  let n := s32 n in
  if n <? 0 then set_errno ERANGE ;; ret None
  else if (n =? 0) || (hd 0 buf =? 0) then ret (Some (if 2 <=? size then [47; 0] else buf))
  else ret (Some buf).

(** ** open, close, read, write, lseek *)

Definition has (flags bit : Z) : bool := negb (Z.land flags bit =? 0).

Definition open (path : bytes) (flags : Z) : M P Z :=
  fd_init ;;
  ap <- sys (__rc_abspath path) ;;
  st <- sys (__rc_fs_stat junk ap) ;;
  let exists_ := bool_decide (is_Some st) in
  let type := match st with Some (_, t) => t | None => 0 end in
  let size := match st with Some (n, _) => n | None => 0 end in
  if has flags O_DIRECTORY && negb (exists_ && (type =? 1)) then fail ENOTDIR
  else
    let finish (size : Z) : M P Z :=
      fd <- fd_alloc ;;
      if fd <? 0 then ret (-1)
      else
        fd_store fd (Fdent K_FILE flags (if has flags O_APPEND then size else 0) (takeZ 127 ap)) ;;
        ret fd in
    if negb exists_ then
      if negb (has flags O_CREAT) then fail ENOENT
      else
        w <- sys (__rc_fs_write_at junk ap [] 0 0) ;;
        if w <? 0 then fail EIO else finish 0
    else if has flags O_CREAT && has flags O_EXCL then fail EEXIST
    else if has flags O_TRUNC && has flags (Z.lor O_WRONLY O_RDWR) then
      sys (__rc_fs_delete junk ap 0) ;;
      w <- sys (__rc_fs_write_at junk ap [] 0 0) ;;
      if w <? 0 then fail EIO else finish 0
    else finish size.

Definition creat (path : bytes) : M P Z := open path (Z.lor (Z.lor O_WRONLY O_CREAT) O_TRUNC).

Definition close (fd : Z) : M P Z :=
  fd_init ;;
  e <- fd_open fd ;;
  match e with
  | None => fail EBADF
  | Some e =>
      (if decide (fd_kind e = K_NET) then __rc_net_close junk fd else ret tt) ;;
      (if 3 <=? fd then fd_set_kind K_FREE fd else ret tt) ;;
      ret 0
  end.

Definition console_write (buf : bytes) (n : Z) : M P Z :=
  if n =? 0 then ret 0
  else data <- peek 0 n buf ;; r <- sys (sys_write data) ;; ret (if r <? 0 then -1 else r).

(** The bytes up to a line end, the count, or the end of input. *)
Definition console_read (n : Z) : M P (Z * bytes) :=
  loop (λ '(i, p),
    if i <? n then
      c <- sys sys_getchar ;;
      if c <? 0 then ret (Break (i, p))
      else
        let p := p ++ [u8 c] in
        if (c =? 10) || (c =? 13) then ret (Break (i + 1, p)) else ret (Continue (i + 1, p))
    else ret (Break (i, p))) (0, []).

(** The loop of read on a regular file. *)
Definition file_read (fd count : Z) : M P (Z * bytes) :=
  loop (λ '(done, p),
    if done <? count then
      e <- fd_load fd ;;
      let* (got, data) := sys (__rc_fs_read_at junk (fd_path e) (s64 (count - done)) (fd_off e)) in
      if got <? 0 then
        if negb (done =? 0) then ret (Break (done, p))
        else r <- fail EIO ;; ret (Break (r, []))
      else if got =? 0 then ret (Break (done, p))
      else fd_set_off fd (u64 (fd_off e + got)) ;; ret (Continue (done + got, p ++ data))
    else ret (Break (done, p))) (0, []).

Definition read (fd count : Z) : M P (Z * bytes) :=
  fd_init ;;
  e <- fd_open fd ;;
  match e with
  | None => r <- fail EBADF ;; ret (r, [])
  | Some e =>
      if decide (fd_kind e = K_CONSOLE) then console_read count
      else if decide (fd_kind e = K_NET) then __rc_net_read junk fd count
      else file_read fd count
  end.

Definition file_write (fd : Z) (buf : bytes) (count : Z) : M P Z :=
  loop (λ done,
    if done <? count then
      let chunk := s64 (count - done) in
      let chunk := if RC_FS_WRITE_AT_MAXCHUNK <? chunk then RC_FS_WRITE_AT_MAXCHUNK else chunk in
      e <- fd_load fd ;;
      w <- sys (__rc_fs_write_at junk (fd_path e) (dropZ done buf) chunk (fd_off e)) ;;
      if w <? 0 then
        if negb (done =? 0) then ret (Break done)
        else r <- fail EIO ;; ret (Break r)
      else
        fd_set_off fd (u64 (fd_off e + w)) ;;
        if w <? chunk then ret (Break (done + w)) else ret (Continue (done + w))
    else ret (Break done)) 0.

Definition write (fd : Z) (buf : bytes) (count : Z) : M P Z :=
  fd_init ;;
  e <- fd_open fd ;;
  match e with
  | None => fail EBADF
  | Some e =>
      if decide (fd_kind e = K_CONSOLE) then console_write buf count
      else if decide (fd_kind e = K_NET) then __rc_net_write junk fd buf count
      else file_write fd buf count
  end.

Definition lseek (fd offset whence : Z) : M P Z :=
  fd_init ;;
  e <- fd_of_kind K_FILE fd ;;
  match e with
  | None => fail ESPIPE
  | Some e =>
      let finish (base : Z) : M P Z :=
        let np := s64 base + offset in
        if decide (LLONG_MIN ≤ np ≤ LLONG_MAX) then
          if np <? 0 then fail EINVAL else fd_set_off fd np ;; ret np
        else fault in
      if whence =? SEEK_SET then finish 0
      else if whence =? SEEK_CUR then finish (fd_off e)
      else if whence =? SEEK_END then
        st <- sys (__rc_fs_stat junk (fd_path e)) ;;
        match st with None => fail EIO | Some (size, _) => finish size end
      else fail EINVAL
  end.

Definition dup (fd : Z) : M P Z :=
  fd_init ;;
  e <- fd_open fd ;;
  match e with
  | None => fail EBADF
  | Some e =>
      nf <- fd_alloc ;;
      if nf <? 0 then ret (-1) else fd_store nf e ;; ret nf
  end.

Definition dup2 (oldfd newfd : Z) : M P Z :=
  fd_init ;;
  e <- fd_open oldfd ;;
  match e with
  | None => fail EBADF
  | Some e =>
      if (newfd <? 0) || (FD_MAX <=? newfd) then fail EBADF
      else if oldfd =? newfd then ret newfd
      else fd_store newfd e ;; ret newfd
  end.

(** The result, and the [l_type] F_GETLK stores. *)
Definition fcntl (fd cmd : Z) : M P (Z * option Z) :=
  fd_init ;;
  e <- fd_open fd ;;
  match e with
  | None => r <- fail EBADF ;; ret (r, None)
  | Some e =>
      if cmd =? F_GETFL then ret (fd_flags e, None)
      else if cmd =? F_DUPFD then r <- dup fd ;; ret (r, None)
      else if cmd =? F_GETLK then ret (0, Some F_UNLCK)
      else ret (0, None)
  end.

Definition isatty (fd : Z) : M P Z :=
  fd_init ;;
  e <- fd_open fd ;;
  match e with
  | None => set_errno EBADF ;; ret 0
  | Some e =>
      if decide (fd_kind e = K_CONSOLE) then
        if fd =? 0 then sys __rc_stdin_is_console else ret 1
      else ret 0
  end.

(** ** Metadata *)

(** [fill_identity]: the device and the inode number of a path *)
Definition fill_identity (st : stat_t) (path : bytes) : M P stat_t :=
  ap <- sys (__rc_abspath path) ;;
  let h := fnv1a ap in
  ret {| st_dev := 1; st_ino := if h =? 0 then 1 else h; st_mode := st_mode st;
         st_nlink := st_nlink st; st_size := st_size st; st_blksize := st_blksize st;
         st_blocks := st_blocks st |}.

Definition stat (path : bytes) : M P (option stat_t) :=
  r <- sys (__rc_fs_stat junk path) ;;
  match r with
  | None => set_errno ENOENT ;; ret None
  | Some (size, type) => st <- fill_identity (fill_stat size type) path ;; ret (Some st)
  end.
Definition lstat (path : bytes) : M P (option stat_t) := stat path.

Definition fstat (fd : Z) : M P (option stat_t) :=
  fd_init ;;
  e <- fd_open fd ;;
  match e with
  | None => set_errno EBADF ;; ret None
  | Some e =>
      if decide (fd_kind e = K_CONSOLE) then ret (Some (Stat 0 0 (Z.lor S_IFCHR 438) 0 0 0 0))
      else stat (fd_path e)
  end.

Definition mkdir (path : bytes) : M P Z :=
  st <- stat path ;;
  match st with
  | Some _ => fail EEXIST
  | None => r <- sys (__rc_fs_mkdir junk path) ;; if negb (r =? 0) then fail EIO else ret 0
  end.

Definition umask (mask : Z) : M P Z := ret 18.

Definition unlink (path : bytes) : M P Z :=
  r <- sys (__rc_fs_delete junk path 0) ;; if negb (r =? 0) then fail ENOENT else ret 0.
Definition rmdir (path : bytes) : M P Z :=
  r <- sys (__rc_fs_delete junk path 0) ;; if negb (r =? 0) then fail ENOTEMPTY else ret 0.
Definition rename (oldp newp : bytes) : M P Z :=
  r <- sys (__rc_fs_rename junk oldp newp) ;; if negb (r =? 0) then fail EIO else ret 0.
Definition access (path : bytes) : M P Z :=
  r <- sys (__rc_fs_stat junk path) ;;
  match r with None => fail ENOENT | Some _ => ret 0 end.

(** ** Directories *)

Definition opendir (path : bytes) : M P (option dirstream) :=
  st <- sys (__rc_fs_stat junk path) ;;
  match st with
  | None => set_errno ENOENT ;; ret None
  | Some (_, type) =>
      if negb (type =? 1) then set_errno ENOTDIR ;; ret None
      else
        ok <- sys (heap_alloc (104 + DIR_LIST_MAX * RC_FS_LIST_ENTRY_SIZE)) ;;
        if negb ok then set_errno ENOMEM ;; ret None
        else
          let* (n, buf) := sys (__rc_fs_list junk path DIR_LIST_MAX) in
          if n <? 0 then set_errno EIO ;; ret None else ret (Some (Dir (-1) n 0 buf))
  end.

(** The entry, if there is one left, and the stream after it. *)
Definition readdir (d : option dirstream) : M P (option dirent * option dirstream) :=
  match d with
  | None => ret (None, None)
  | Some d =>
      if d_count d <=? d_pos d then ret (None, Some d)
      else
        rec <- peek (d_pos d * RC_FS_LIST_ENTRY_SIZE) RC_FS_LIST_ENTRY_SIZE (d_buf d) ;;
        t <- of_option (idx rec RC_FS_LIST_NAME_MAX) ;;
        ret (Some (Dirent (c_str (takeZ RC_FS_LIST_NAME_MAX rec)) (if t =? 1 then DT_DIR else DT_REG)
                     (d_pos d + 1)),
             Some (Dir (d_fd d) (d_count d) (d_pos d + 1) (d_buf d)))
  end.

Definition rewinddir (d : option dirstream) : option dirstream :=
  match d with Some d => Some (Dir (d_fd d) (d_count d) 0 (d_buf d)) | None => None end.

Definition closedir (d : dirstream) : M P Z :=
  (if 0 <=? d_fd d then close (d_fd d) ;; ret tt else ret tt) ;; ret 0.

(** [resolved]: does the caller pass a buffer? *)
Definition realpath (path : bytes) (resolved : bool) : M P (option bytes) :=
  tmp <- sys (__rc_abspath path) ;;
  st <- sys (__rc_fs_stat junk tmp) ;;
  match st with
  | None => set_errno ENOENT ;; ret None
  | Some _ =>
      ok <- (if resolved then ret true else sys (heap_alloc 128)) ;;
      if negb ok then set_errno ENOMEM ;; ret None else ret (Some tmp)
  end.

Definition chmod (path : bytes) (mode : Z) : M P Z := ret 0.

(** Appending zeros, 1024 at a time. *)
Definition grow_file (path : bytes) (size want : Z) : M P Z :=
  loop (λ size,
    if size <? want then
      let n := if 1024 <? want - size then 1024 else s64 (want - size) in
      w <- sys (__rc_fs_write_at junk path (replicate 1024 0) n size) ;;
      if negb (w =? n) then r <- fail EIO ;; ret (Break r)
      else ret (Continue (u64 (size + n)))
    else ret (Break 0)) size.

(** Keeping the first [want] bytes: the buffer, or [None] after an error. *)
Definition keep_prefix (path : bytes) (want : Z) : M P (option bytes) :=
  loop (λ '(got, keep),
    if got <? want then
      let* (n, data) := sys (__rc_fs_read_at junk path (s64 (want - got)) got) in
      if n <=? 0 then set_errno EIO ;; ret (Break None)
      else ret (Continue (u64 (got + n), keep ++ data))
    else ret (Break (Some keep))) (0, []).

Definition ftruncate (fd length : Z) : M P Z :=
  fd_init ;;
  e <- fd_of_kind K_FILE fd ;;
  match e with
  | None => fail EBADF
  | Some e =>
      if length <? 0 then fail EINVAL
      else
        let path := fd_path e in
        st <- sys (__rc_fs_stat junk path) ;;
        match st with
        | None => fail EIO
        | Some (size, _) =>
            let want := length in
            if want =? size then ret 0
            else if size <? want then grow_file path size want
            else
              ok <- (if want =? 0 then ret true else sys (heap_alloc want)) ;;
              if negb ok then fail ENOMEM
              else
                keep <- keep_prefix path want ;;
                match keep with
                | None => ret (-1)
                | Some keep =>
                    sys (__rc_fs_delete junk path 0) ;;
                    w <- sys (__rc_fs_write_at junk path keep want 0) ;;
                    if negb (w =? want) then fail EIO else ret 0
                end
        end
  end.

Definition pipe : M P Z := fail ENOSYS.

Definition sysconf (name : Z) : M P Z :=
  ret (if name =? 1 then 4096
       else if name =? 2 then 1
       else if name =? 3 then 1000000
       else if name =? 4 then FD_MAX
       else if name =? 6 then 1024
       else if name =? 5 then 4096
       else -1).

Definition getpagesize : M P Z := ret 4096.

Definition usleep (usec : Z) : M P Z :=
  hz <- sys __rc_timebase_hz ;;
  if hz =? 0 then ret 0
  else
    let ticks := u64 (usec * hz) / 1000000 in
    start <- sys rdtime ;;
    loop (λ _,
      now <- sys rdtime ;;
      if u64 (now - start) <? ticks then ret (Continue tt) else ret (Break tt)) tt ;;
    ret 0.
Definition sleep (sec : Z) : M P Z := usleep (u32 (sec * 1000000)) ;; ret 0.

(** ** poll *)

(** The updated entries, how many are ready, and whether one waits for stdin. *)
Fixpoint poll_scan (fds : list pollfd) (stdin_ready : bool) : M P (list pollfd * Z * bool) :=
  match fds with
  | [] => ret ([], 0, false)
  | p :: rest =>
      let* (revents, counted, want) :=
        (if poll_fd p <? 0 then ret (0, false, false)
         else
           e <- fd_open (poll_fd p) ;;
           match e with
           | None => ret (POLLNVAL, true, false)
           | Some e =>
               if decide (fd_kind e = K_FILE ∨ fd_kind e = K_NET) then
                 let r := Z.land (poll_events p) (Z.lor POLLIN POLLOUT) in
                 ret (r, negb (r =? 0), false)
               else
                 let r := Z.land (poll_events p) POLLOUT in
                 let waits := (poll_fd p =? 0) && has (poll_events p) POLLIN in
                 let r := if waits && stdin_ready then Z.lor r POLLIN else r in
                 ret (r, negb (r =? 0), waits && negb stdin_ready)
           end) in
      let* (rest, count, want') := poll_scan rest stdin_ready in
      ret (Pollfd (poll_fd p) (poll_events p) revents :: rest,
           (if counted : bool then 1 else 0) + count, (want : bool) || want')
  end.

Definition poll (fds : list pollfd) (timeout_ms : Z) : M P (Z * list pollfd) :=
  fd_init ;;
  let* (fds, n, want_stdin) := poll_scan fds false in
  if (0 <? n) || (negb want_stdin && (timeout_ms =? 0)) then ret (n, fds)
  else
    hz <- (if 0 <? timeout_ms then sys __rc_timebase_hz else ret 0) ;;
    let ticks := if timeout_ms =? 0 then 1
                 else if 0 <? timeout_ms then u64 (hz / 1000 * timeout_ms + 1) else 0 in
    r <- sys (sys_await (if want_stdin : bool then RC_AW_STDIN else 0) (s64 ticks)) ;;
    if r <? 0 then e <- fail EINVAL ;; ret (e, fds)
    else if has r RC_AW_NOTE then e <- fail EINTR ;; ret (e, fds)
    else let* (fds, n, _) := poll_scan fds (has r RC_AW_STDIN) in ret (n, fds).

(** ** Transfers at an explicit offset *)

(** The check of pread and pwrite: the file's entry, or errno set. *)
Definition seekable (fd off : Z) : M P (option fdent) :=
  e <- fd_open fd ;;
  match e with
  | None => set_errno EBADF ;; ret None
  | Some e =>
      if decide (fd_kind e = K_FILE) then
        if off <? 0 then set_errno EINVAL ;; ret None else ret (Some e)
      else set_errno ESPIPE ;; ret None
  end.

Definition pread (fd count off : Z) : M P (Z * bytes) :=
  fd_init ;;
  e <- seekable fd off ;;
  match e with
  | None => ret (-1, [])
  | Some e =>
      let save := fd_off e in
      fd_set_off fd off ;;
      let* (r, data) := read fd count in
      fd_set_off fd save ;; ret (r, data)
  end.

Definition pwrite (fd : Z) (buf : bytes) (count off : Z) : M P Z :=
  fd_init ;;
  e <- seekable fd off ;;
  match e with
  | None => ret (-1)
  | Some e =>
      let save := fd_off e in
      fd_set_off fd off ;;
      r <- write fd buf count ;;
      fd_set_off fd save ;; ret r
  end.

(** A call on the path of an open file, EBADF for any other descriptor. *)
Definition on_file {A} (none : A) (fd : Z) (k : bytes → M P A) : M P A :=
  fd_init ;;
  e <- fd_of_kind K_FILE fd ;;
  match e with None => set_errno EBADF ;; ret none | Some e => k (fd_path e) end.

Definition fchmod (fd mode : Z) : M P Z := on_file (-1) fd (λ path, chmod path mode).
Definition fsync (fd : Z) : M P Z := ret 0.
Definition fdatasync (fd : Z) : M P Z := ret 0.

Definition readlink (path : bytes) : M P Z :=
  st <- stat path ;;
  match st with None => ret (-1) | Some _ => fail EINVAL end.
Definition symlink (target path : bytes) : M P Z := fail EPERM.
Definition link (oldp newp : bytes) : M P Z := fail EPERM.

Definition chown (path : bytes) (uid gid : Z) : M P Z :=
  st <- stat path ;;
  match st with
  | None => ret (-1)
  | Some _ => if (uid =? 4294967295) && (gid =? 4294967295) then ret 0 else fail EPERM
  end.
Definition lchown (path : bytes) (uid gid : Z) : M P Z := chown path uid gid.
Definition fchown (fd uid gid : Z) : M P Z := on_file (-1) fd (λ path, chown path uid gid).

(** stat's result alone: 0 or -1 *)
Definition stat_status (path : bytes) : M P Z :=
  st <- stat path ;; ret (match st with Some _ => 0 | None => -1 end).
Definition utime (path : bytes) : M P Z := stat_status path.

(** ** Temporary files *)

Definition tmp_chars : bytes := str "abcdefghijklmnopqrstuvwxyz0123456789".

(** The six characters for a seed. *)
Fixpoint tmp_name (n : nat) (seed : Z) : bytes :=
  match n with
  | O => []
  | S n => default 0 (idx tmp_chars (seed mod 36)) :: tmp_name n (seed / 36)
  end.

Definition rc_fill_template (tmpl : bytes) (seed : Z) : M P (option bytes) :=
  let n := zlen tmpl in
  if (n <? 6) || negb (bool_decide (dropZ (n - 6) tmpl = str "XXXXXX")) then
    set_errno EINVAL ;; ret None
  else ret (Some (takeZ (n - 6) tmpl ++ tmp_name 6 seed)).

Definition rc_tmp_seed : M P Z :=
  t <- sys rdtime ;;
  pid <- getpid ;;
  p <- get ;;
  let counter := u64 (tmp_counter p + 1) in
  put (set_counter counter p) ;;
  ret (u64 (Z.lxor t (u64 (Z.shiftl pid 20)) + 7919 * counter)).

(** The result and the template as it is left. *)
Definition mkstemp (tmpl : bytes) : M P (Z * bytes) :=
  loop (λ '(tries, tmpl),
    if tries <? 100 then
      seed <- rc_tmp_seed ;;
      t <- rc_fill_template tmpl seed ;;
      match t with
      | None => ret (Break (-1, tmpl))
      | Some tmpl =>
          fd <- open tmpl (Z.lor (Z.lor O_RDWR O_CREAT) O_EXCL) ;;
          e <- gets errno ;;
          if (0 <=? fd) || negb (e =? EEXIST) then ret (Break (fd, tmpl))
          else ret (Continue (tries + 1, tmpl))
      end
    else r <- fail EEXIST ;; ret (Break (r, tmpl))) (0, tmpl).

Definition mkdtemp (tmpl : bytes) : M P (option bytes) :=
  loop (λ '(tries, tmpl),
    if tries <? 100 then
      seed <- rc_tmp_seed ;;
      t <- rc_fill_template tmpl seed ;;
      match t with
      | None => ret (Break None)
      | Some tmpl =>
          r <- mkdir tmpl ;;
          e <- gets errno ;;
          if r =? 0 then ret (Break (Some tmpl))
          else if negb (e =? EEXIST) then ret (Break None)
          else ret (Continue (tries + 1, tmpl))
      end
    else set_errno EEXIST ;; ret (Break None)) (0, tmpl).

(** ** The *at family *)

Definition rc_at_path (dirfd : Z) (path : bytes) (cap : Z) : M P (option bytes) :=
  if (hd 0 path =? 47) || (dirfd =? AT_FDCWD) then
    if cap <=? zlen path then set_errno ENAMETOOLONG ;; ret None else ret (Some path)
  else
    fd_init ;;
    e <- fd_of_kind K_FILE dirfd ;;
    match e with
    | None => set_errno EBADF ;; ret None
    | Some e =>
        if cap <=? zlen (fd_path e) + 1 + zlen path then set_errno ENAMETOOLONG ;; ret None
        else ret (Some (fd_path e ++ 47 :: path))
    end.

Definition at_path {A} (none : A) (dirfd : Z) (path : bytes) (k : bytes → M P A) : M P A :=
  p <- rc_at_path dirfd path 256 ;;
  match p with None => ret none | Some p => k p end.

Definition openat (dirfd : Z) (path : bytes) (flags : Z) : M P Z :=
  at_path (-1) dirfd path (λ p, open p flags).
Definition unlinkat (dirfd : Z) (path : bytes) (flags : Z) : M P Z :=
  at_path (-1) dirfd path (λ p, if has flags AT_REMOVEDIR then rmdir p else unlink p).
Definition fstatat (dirfd : Z) (path : bytes) : M P (option stat_t) :=
  at_path None dirfd path stat.
Definition mkdirat (dirfd : Z) (path : bytes) : M P Z := at_path (-1) dirfd path mkdir.

Definition fdopendir (fd : Z) : M P (option dirstream) :=
  on_file None fd (λ path,
    d <- opendir path ;;
    ret (match d with Some d => Some (Dir fd (d_count d) (d_pos d) (d_buf d)) | None => None end)).

Definition dirfd (d : dirstream) : M P Z := if d_fd d <? 0 then fail ENOTSUP else ret (d_fd d).

Definition truncate (path : bytes) (length : Z) : M P Z :=
  fd <- open path O_WRONLY ;;
  if fd <? 0 then ret (-1) else r <- ftruncate fd length ;; close fd ;; ret r.

Definition pathconf (path : bytes) (name : Z) : M P Z :=
  st <- stat path ;;
  match st with
  | None => ret (-1)
  | Some _ =>
      if name =? 3 then ret 255
      else if name =? 4 then ret 4096
      else if name =? 0 then ret 1
      else fail EINVAL
  end.
Definition fpathconf (fd name : Z) : M P Z := on_file (-1) fd (λ path, pathconf path name).

Definition utimes (path : bytes) : M P Z := stat_status path.
Definition utimensat (dirfd : Z) (path : bytes) : M P Z := at_path (-1) dirfd path stat_status.
Definition futimens (fd : Z) : M P Z := on_file (-1) fd (λ _, ret 0).
Definition fchmodat (dirfd : Z) (path : bytes) (mode : Z) : M P Z :=
  at_path (-1) dirfd path (λ p, chmod p mode).
End posix.

(** The macros of <sys/stat.h> tell what fill_stat put in the mode. *)
Lemma fill_stat_kind size type :
  S_ISDIR (st_mode (fill_stat size type)) = (type =? 1) ∧
  S_ISREG (st_mode (fill_stat size type)) = negb (type =? 1) ∧
  S_ISCHR (st_mode (fill_stat size type)) = false.
Proof. unfold fill_stat. cbn [st_mode]. by destruct (type =? 1). Qed.

(** * Files behind descriptors *)

Section files.
Context {K : Type} `{FileServer K} (junk : bytes).
Context (Hjunk : zlen junk = RC_FS_MSG_MAX) (Hjb : is_bytes junk).
Implicit Types (p : posix K) (e : fdent) (c : bytes).

(** Descriptor [fd] is an open file with entry [e], and [c] is what a file
    server holds under [t]: the name that reading from the descriptor leads to,
    or the one that writing to it leads to. *)
Record file_on (t : Z * bytes) p (fd : Z) e c : Prop := {
  file_ready : ready p;
  file_entry : idx (fdtab p) fd = Some e;
  file_kind : fd_kind e = K_FILE;
  file_path : abs_ok (fd_path e);
  file_contents : held (world p) t = Some c;
  file_is_file : t ∉ v_dirs (view (world p));
}.
Definition file_at p fd e c : Prop := file_on (srv (fd_path e)) p fd e c.
Definition file_at_c p fd e c : Prop := file_on (srv_c (fd_path e)) p fd e c.

(** The state after a transfer moved the offset of [fd] to [off]. *)
Definition moved p (fd : Z) e (off : Z) (w : K) : posix K :=
  set_world w (fd_upd fd (with_off off e) p).

Lemma moved_entry t p fd e c off w : file_on t p fd e c →
  idx (fdtab (moved p fd e off w)) fd = Some (with_off off e).
Proof using. intros Hf. unfold moved. simpl. apply (idx_fd_upd_eq p fd _ e). by destruct Hf. Qed.

Lemma moved_again p fd e off off' w w' :
  set_world w' (fd_upd fd (with_off off' (with_off off e)) (moved p fd e off w)) = moved p fd e off' w'.
Proof using. unfold moved. rewrite fd_upd_world, fd_upd_upd, set_world_world. done. Qed.

Lemma moved_start t p fd e c : file_on t p fd e c → moved p fd e (fd_off e) (world p) = p.
Proof using.
  intros Hf. unfold moved. replace (with_off (fd_off e) e) with e by (by destruct e).
  rewrite fd_upd_id by (by destruct Hf). apply set_world_id.
Qed.

Lemma file_read_run p fd e c count :
  file_at p fd e c → 0 ≤ count ≤ INT_MAX → 0 ≤ fd_off e → fd_off e + count < 4294967296 →
  ∃ w, view w = view (world p) ∧
    let n := Z.max 0 (Z.min count (zlen c - fd_off e)) in
    file_read junk fd count p = Ret (n, sliceZ (fd_off e) n c) (moved p fd e (fd_off e + n) w).
Proof using Hjb Hjunk.
  intros Hf Hcount Hoff Hmax. pose proof (zlen_nonneg c). unfold INT_MAX in Hcount.
  set (off := fd_off e) in *. set (avail := Z.max 0 (zlen c - off)).
  set (post := λ (r : Z * bytes) s, ∃ w, view w = view (world p) ∧
    let n := Z.min count avail in r = (n, sliceZ off n c) ∧ s = moved p fd e (off + n) w).
  assert (wp (file_read junk fd count) post p) as Hw.
  - unfold file_read.
    apply (wp_loop _ (λ '(done, data) s, ∃ w, s = moved p fd e (off + done) w ∧ view w = view (world p) ∧
        0 ≤ done ≤ Z.min count avail ∧ data = sliceZ off done c)
      (λ '(done, _) _, count - done)); [| | |lia].
    + intros [done data] s (w & _ & _ & ? & _). lia.
    + intros [done data] s (w & -> & Hv & Hdone & ->).
      destruct (Z.ltb_spec done count).
      * apply wp_bind. wp_eq fd_load_run; [by eapply moved_entry|].
        destruct (read_at_run junk Hjunk Hjb w (fd_path e) (count - done) (off + done) c)
          as (got & w' & E & Hv' & Hg1 & Hg2 & Hg3); [by destruct Hf| |unfold INT_MAX; lia|lia|].
        { destruct Hf as [_ _ _ _ Hc _]. unfold v_file, held in *. by rewrite Hv. }
        apply wp_bind. eapply wp_of_eq.
        { apply sys_run. simpl. rewrite s64_id by (unfold LLONG_MIN, LLONG_MAX; lia). exact E. }
        cbn beta iota. replace (got <? 0) with false by lia.
        destruct (Z.eqb_spec got 0) as [->|Hgot].
        -- apply wp_ret. exists w'. split; [congruence|]. cbn zeta.
           assert (zlen c ≤ off + done) by (destruct (decide (off + done < zlen c)); [exfalso|]; lia).
           replace (Z.min count avail) with done by (unfold avail in *; lia). split; [done|].
           unfold moved. by rewrite set_world_world.
        -- apply wp_bind. wp_eq fd_set_off_run; [by eapply moved_entry|]. apply wp_ret. split; [|lia].
           exists w'. split_and!; try lia.
           ++ simpl fd_off. rewrite u64_id by (unfold avail in *; lia).
              fold (fd_upd fd (with_off (off + done + got) (with_off (off + done) e))
                (set_world w' (moved p fd e (off + done) w))).
              rewrite fd_upd_world, moved_again. by rewrite Z.add_assoc.
           ++ congruence.
           ++ by rewrite <- sliceZ_app by lia.
      * apply wp_ret. exists w. split; [done|]. cbn zeta. by replace (Z.min count avail) with done by lia.
    + exists (world p). rewrite Z.add_0_r. unfold off. rewrite (moved_start _ p fd e c Hf).
      split_and!; try done; lia.
  - apply wp_inv in Hw as (r & s & E & w & Hv & -> & ->). exists w. split; [done|]. cbn zeta.
    replace (Z.max 0 (Z.min count (zlen c - off))) with (Z.min count avail) by lia. exact E.
Qed.

Lemma read_run p fd e c count :
  file_at p fd e c → 0 ≤ count ≤ INT_MAX → 0 ≤ fd_off e → fd_off e + count < 4294967296 →
  ∃ w, view w = view (world p) ∧
    let n := Z.max 0 (Z.min count (zlen c - fd_off e)) in
    read junk fd count p = Ret (n, sliceZ (fd_off e) n c) (moved p fd e (fd_off e + n) w).
Proof using Hjb Hjunk.
  intros Hf ? ? ?. destruct (file_read_run p fd e c count) as (w & Hv & E); [done..|].
  exists w. split; [done|]. destruct Hf as [Hr He Hk _ _ _]. unfold read.
  rewrite (bind_run _ _ _ _ _ (fd_init_run p (proj2 Hr))).
  rewrite (bind_run _ _ _ _ _ (fd_open_run p fd e Hr He ltac:(by rewrite Hk))).
  rewrite !decide_False by (by rewrite Hk). exact E.
Qed.

(** What the file in the create member holds after the first [n] bytes of [buf] were written. *)
Definition written p (fd : Z) e c (buf : bytes) (n : Z) (w : K) : Prop :=
  view w = set_files (<[srv_c (fd_path e) := write_at (fd_off e) (takeZ n buf) c]> (v_files (view (world p))))
             (view (world p)).

Lemma written_0 p fd e c buf : file_at_c p fd e c → 0 ≤ fd_off e ≤ zlen c → written p fd e c buf 0 (world p).
Proof using.
  intros [_ _ _ _ Hc _] ?. unfold written. rewrite takeZ_0, write_at_nil by done.
  rewrite insert_id by done. by destruct (view (world p)).
Qed.

Lemma written_file p fd e c buf n w : written p fd e c buf n w →
  held w (srv_c (fd_path e)) = Some (write_at (fd_off e) (takeZ n buf) c) ∧
  v_dirs (view w) = v_dirs (view (world p)).
Proof using. unfold written, held. intros ->. simpl. split; [by rewrite lookup_insert_eq|done]. Qed.

(** Reading leads elsewhere than writing: what it finds is untouched. *)
Lemma written_other p fd e c buf n w t : written p fd e c buf n w → t ≠ srv_c (fd_path e) →
  held w t = held (world p) t.
Proof using. unfold written, held. intros -> ?. simpl. by rewrite lookup_insert_ne. Qed.

Lemma file_writable t p fd e c : file_on t p fd e c → writable (world p) t.
Proof using.
  intros [_ _ _ _ Hc Hd]. split; [|done]. apply (files_fsd (world p) _ t.2).
  rewrite <- surjective_pairing. by exists c.
Qed.

(** A failing first chunk leaves the file alone; otherwise [r] bytes are there. *)
Lemma file_write_run p fd e c buf count :
  file_at_c p fd e c → is_bytes buf → 0 ≤ count ≤ INT_MAX → count ≤ zlen buf →
  0 ≤ fd_off e ≤ zlen c → fd_off e + count < 4294967295 →
  ∃ r w, (0 ≤ r ≤ count ∧ written p fd e c buf r w ∧
          file_write junk fd buf count p = Ret r (moved p fd e (fd_off e + r) w)) ∨
         (r = -1 ∧ 0 < count ∧ view w = view (world p) ∧
          file_write junk fd buf count p = Ret r (set_errno_ EIO (moved p fd e (fd_off e) w))).
Proof using Hjb Hjunk.
  intros Hf Hb Hcount Hbuf Hoff Hmax. unfold INT_MAX in Hcount. pose proof (zlen_nonneg c).
  set (post := λ r s, ∃ w, (0 ≤ r ≤ count ∧ written p fd e c buf r w ∧ s = moved p fd e (fd_off e + r) w) ∨
         (r = -1 ∧ 0 < count ∧ view w = view (world p) ∧ s = set_errno_ EIO (moved p fd e (fd_off e) w))).
  assert (wp (file_write junk fd buf count) post p) as Hw.
  - unfold file_write.
    apply (wp_loop _ (λ done s, ∃ w, s = moved p fd e (fd_off e + done) w ∧
        written p fd e c buf done w ∧ 0 ≤ done ≤ count) (λ done _, count - done)); [| | |lia].
    + intros done s (w & _ & _ & ?). lia.
    + intros done s (w & -> & Hwr & Hdone).
      destruct (Z.ltb_spec done count);
        [|apply wp_ret; exists w; left; split; [lia|done]].
      cbn zeta. rewrite s64_id by (unfold LLONG_MIN, LLONG_MAX; lia).
      set (chunk := if RC_FS_WRITE_AT_MAXCHUNK <? count - done then RC_FS_WRITE_AT_MAXCHUNK else count - done).
      assert (0 < chunk ≤ RC_FS_WRITE_AT_MAXCHUNK ∧ chunk ≤ count - done) as Hch.
      { unfold chunk, RC_FS_WRITE_AT_MAXCHUNK. destruct (Z.ltb_spec (8192 - 108) (count - done)); lia. }
      apply wp_bind. wp_eq fd_load_run; [by eapply moved_entry|].
      assert (zlen (takeZ done buf) = done) as Hzd by (apply zlen_takeZ; lia).
      pose proof (zlen_write_at (fd_off e) (takeZ done buf) c Hoff) as Hzc. rewrite Hzd in Hzc.
      destruct (written_file p fd e c buf done w Hwr) as [Hcw Hdw].
      destruct (write_at_run junk Hjunk Hjb w (fd_path e) (dropZ done buf) chunk (fd_off e + done)
        (write_at (fd_off e) (takeZ done buf) c)) as (n & w' & E & Hres);
        [by destruct Hf|split; [apply (file_writable _ _ _ _ _ Hf)|rewrite Hdw; by destruct Hf]|by rewrite Hcw|
         by apply Forall_dropZ|lia|
         rewrite zlen_dropZ; lia|lia|lia|].
      apply wp_bind. eapply wp_of_eq; [apply sys_run; simpl; exact E|].
      destruct Hres as [[-> Hv]|[Hn Hv]].
      * cbn [Z.ltb Z.compare]. destruct (Z.eqb_spec done 0) as [->|]; cbn [negb].
        -- apply wp_bind. unfold fail, set_errno. apply wp_bind, wp_modify, wp_ret, wp_ret.
           exists w'. right. split_and!; [done|lia| |].
           ++ rewrite Hv. unfold written in Hwr. rewrite Hwr. symmetry.
              exact (written_0 p fd e c buf Hf Hoff).
           ++ rewrite Z.add_0_r. done.
        -- apply wp_ret. exists w'. left. split; [lia|]. split; [|done].
           unfold written in *. by rewrite Hv.
      * replace (n <? 0) with false by lia.
        apply wp_bind. wp_eq fd_set_off_run; [by eapply moved_entry|].
        assert (written p fd e c buf (done + n) w') as Hwr'.
        { unfold written in *. rewrite Hv, Hwr. unfold set_files. simpl. rewrite insert_insert_eq.
          do 2 f_equal. replace (fd_off e + done) with (fd_off e + zlen (takeZ done buf)) by lia. rewrite write_at_write_at by done. f_equal.
          rewrite takeZ_slice by lia. done. }
        simpl fd_off. rewrite u64_id by lia.
        fold (fd_upd fd (with_off (fd_off e + done + n) (with_off (fd_off e + done) e))
                (set_world w' (moved p fd e (fd_off e + done) w))).
        rewrite fd_upd_world, moved_again, <- Z.add_assoc.
        destruct (Z.ltb_spec n chunk); apply wp_ret.
        -- exists w'. left. split; [lia|done].
        -- split; [|lia]. exists w'. split_and!; [done..|lia|lia].
    + exists (world p). rewrite Z.add_0_r, (moved_start _ p fd e c Hf). split_and!; [done| |lia|lia].
      by apply written_0.
  - apply wp_inv in Hw as (r & s & E & w & [(?&?&->)|(?&?&?&->)]); exists r, w; [left|right]; done.
Qed.

Lemma write_run p fd e c buf count :
  file_at_c p fd e c → is_bytes buf → 0 ≤ count ≤ INT_MAX → count ≤ zlen buf →
  0 ≤ fd_off e ≤ zlen c → fd_off e + count < 4294967295 →
  ∃ r w, (0 ≤ r ≤ count ∧ written p fd e c buf r w ∧
          write junk fd buf count p = Ret r (moved p fd e (fd_off e + r) w)) ∨
         (r = -1 ∧ 0 < count ∧ view w = view (world p) ∧
          write junk fd buf count p = Ret r (set_errno_ EIO (moved p fd e (fd_off e) w))).
Proof using Hjb Hjunk.
  intros Hf ? ? ? ? ?. destruct (file_write_run p fd e c buf count) as (r & w & Hres); [done..|].
  destruct Hf as [Hr He Hk _ _ _].
  assert (write junk fd buf count p = file_write junk fd buf count p) as ->; [|by exists r, w].
  unfold write. rewrite (bind_run _ _ _ _ _ (fd_init_run p (proj2 Hr))).
  rewrite (bind_run _ _ _ _ _ (fd_open_run p fd e Hr He ltac:(by rewrite Hk))).
  by rewrite !decide_False by (by rewrite Hk).
Qed.

(** Where lseek starts from. *)
Definition seek_base p e c (whence : Z) : option Z :=
  if whence =? SEEK_SET then Some 0
  else if whence =? SEEK_CUR then Some (fd_off e)
  else if whence =? SEEK_END then Some (zlen c)
  else None.

Lemma lseek_run p fd e c offset whence :
  file_at p fd e c → zlen c < 4294967296 → 0 ≤ fd_off e ≤ LLONG_MAX →
  LLONG_MIN ≤ offset ≤ LLONG_MAX - Z.max (fd_off e) (zlen c) →
  ∃ w, view w = view (world p) ∧
    lseek junk fd offset whence p =
      match seek_base p e c whence with
      | Some base =>
          if base + offset <? 0 then Ret (-1) (set_errno_ EINVAL (set_world w p))
          else Ret (base + offset) (moved p fd e (base + offset) w)
      | None => Ret (-1) (set_errno_ EINVAL (set_world w p))
      end.
Proof using Hjb Hjunk.
  intros Hf Hc Hoff Hofs. pose proof (zlen_nonneg c).
  pose proof Hf as [Hr He Hk Hp Hfile Hd]. unfold LLONG_MAX, LLONG_MIN in *.
  assert (∀ base w, 0 ≤ base ≤ Z.max (fd_off e) (zlen c) → view w = view (world p) →
    (let np := s64 base + offset in
     if decide (- 9223372036854775808 ≤ np ≤ 9223372036854775807) then
       if np <? 0 then fail EINVAL else fd_set_off fd np ;; ret np
     else fault) (set_world w p) =
    (if base + offset <? 0 then Ret (-1) (set_errno_ EINVAL (set_world w p))
     else Ret (base + offset) (moved p fd e (base + offset) w))) as Hfin.
  { intros base w Hb Hv. cbn zeta. rewrite s64_id by (unfold LLONG_MIN, LLONG_MAX; lia).
    rewrite decide_True by lia. destruct (base + offset <? 0); [done|].
    rewrite (bind_run _ _ _ _ _ (fd_set_off_run (set_world w p) fd e _ He)). done. }
  unfold lseek, LLONG_MAX, LLONG_MIN. unfold seek_base.
  rewrite (bind_run _ _ _ _ _ (fd_init_run p (proj2 Hr))).
  rewrite (bind_run _ _ _ _ _ (fd_of_kind_run p fd e K_FILE Hr He Hk)).
  destruct (whence =? SEEK_SET).
  { exists (world p). split; [done|]. rewrite <- (Hfin 0 (world p)) by (done || lia). by rewrite set_world_id. }
  destruct (whence =? SEEK_CUR).
  { exists (world p). split; [done|]. rewrite <- (Hfin (fd_off e) (world p)) by (done || lia). by rewrite set_world_id. }
  destruct (whence =? SEEK_END).
  - destruct (stat_run junk Hjunk Hjb (world p) (fd_path e) c Hp Hfile Hc) as (w & Hv & E).
    exists w. split; [done|].
    rewrite (bind_run _ _ _ _ _ (sys_run _ _ _ p E)). cbn beta iota. apply Hfin; [lia|done].
  - exists (world p). split; [done|]. by rewrite set_world_id.
Qed.

(** The file of a descriptor after the world moved on under it. *)
Lemma file_on_moved t p fd e c c' off w :
  file_on t p fd e c → held w t = Some c' → v_dirs (view w) = v_dirs (view (world p)) →
  file_on t (moved p fd e off w) fd (with_off off e) c'.
Proof using.
  intros [Hr He Hk Hp Hc Hd] Hc' Hd'. split; [by apply ready_upd| |done..|by simpl; rewrite Hd'].
  unfold moved. simpl. by apply (idx_fd_upd_eq p fd _ e).
Qed.

Lemma file_on_view t p fd e c off w :
  file_on t p fd e c → view w = view (world p) → file_on t (moved p fd e off w) fd (with_off off e) c.
Proof using.
  intros Hf Hv. apply (file_on_moved t p fd e c); [done| |by rewrite Hv].
  unfold held. rewrite Hv. by destruct Hf.
Qed.

Lemma moved_errno p fd e off w : errno (moved p fd e off w) = errno p.
Proof using. done. Qed.
End files.

(** ** Properties *)

(** C18: read on a regular file returns exactly min(count, size - offset)
    bytes, the ones at the descriptor's offset, however little the server
    delivers per message; the offset advances by as much, and neither the files
    nor the other descriptors nor errno change. *)
Theorem read_correct {K} `{FileServer K} (junk : bytes) (p : posix K) (fd : Z) (e : fdent) (c : bytes)
    (count : Z) (Hjunk : zlen junk = RC_FS_MSG_MAX) (Hjb : is_bytes junk)
    (Hf : file_at p fd e c) (Hcount : 0 ≤ count ≤ INT_MAX) (Hoff : 0 ≤ fd_off e)
    (Hmax : fd_off e + count < 4294967296) :
  ∃ w, view w = view (world p) ∧
    let n := Z.max 0 (Z.min count (zlen c - fd_off e)) in
    read junk fd count p = Ret (n, sliceZ (fd_off e) n c) (moved p fd e (fd_off e + n) w).
Proof. by apply read_run. Qed.

(** C19: write on a regular file, the one the create member of the path's union
    holds, stores a prefix of the buffer at the descriptor's offset (overwriting,
    or extending the file at its end), moves the offset behind it and returns its
    length; or it returns -1 with EIO, and then nothing changed.  It never reports
    bytes it did not store. *)
Theorem write_correct {K} `{FileServer K} (junk : bytes) (p : posix K) (fd : Z) (e : fdent)
    (c buf : bytes) (count : Z) (Hjunk : zlen junk = RC_FS_MSG_MAX) (Hjb : is_bytes junk)
    (Hf : file_at_c p fd e c) (Hb : is_bytes buf) (Hcount : 0 ≤ count ≤ INT_MAX)
    (Hbuf : count ≤ zlen buf) (Hoff : 0 ≤ fd_off e ≤ zlen c)
    (Hmax : fd_off e + count < 4294967295) :
  ∃ r w, (0 ≤ r ≤ count ∧ written p fd e c buf r w ∧
          write junk fd buf count p = Ret r (moved p fd e (fd_off e + r) w)) ∨
         (r = -1 ∧ 0 < count ∧ view w = view (world p) ∧
          write junk fd buf count p = Ret r (set_errno_ EIO (moved p fd e (fd_off e) w))).
Proof. by apply write_run. Qed.

(** Writing a buffer, seeking back and reading it again. *)
Definition write_seek_read {K} `{Kernel K} (junk : bytes) (fd : Z) (buf : bytes) (off : Z) :
    M (posix K) (option (Z * bytes)) :=
  r <- write junk fd buf (zlen buf) ;;
  if r <? 0 then ret None
  else lseek junk fd off SEEK_SET ;; let* (n, data) := read junk fd r in ret (Some (n, data)).

(** What it comes to in general: write and read each do what they promise, on
    the file their own member of the union holds. *)
Lemma write_seek_read_run {K} `{FileServer K} (junk : bytes) (p : posix K) (fd : Z) (e : fdent)
    (c c' buf : bytes) (Hjunk : zlen junk = RC_FS_MSG_MAX) (Hjb : is_bytes junk)
    (Hf : file_at_c p fd e c) (Hf' : file_at p fd e c') (Hb : is_bytes buf) (Hlen : zlen buf ≤ INT_MAX)
    (Hoff : 0 ≤ fd_off e ≤ zlen c) (Hmax : fd_off e + zlen buf < 4294967295)
    (Hc : zlen c < 4294967295) (Hc' : zlen c' < 4294967295) :
  (∃ r s, 0 ≤ r ≤ zlen buf ∧
    let found := if decide (srv (fd_path e) = srv_c (fd_path e))
                 then write_at (fd_off e) (takeZ r buf) c else c' in
    let n := Z.max 0 (Z.min r (zlen found - fd_off e)) in
    write_seek_read junk fd buf (fd_off e) p = Ret (Some (n, sliceZ (fd_off e) n found)) s) ∨
  (∃ s, write_seek_read junk fd buf (fd_off e) p = Ret None s ∧ view (world s) = view (world p)).
Proof.
  pose proof (zlen_nonneg buf) as Hb0. unfold write_seek_read.
  destruct (write_run junk Hjunk Hjb p fd e c buf (zlen buf)) as (r & w & [(Hr & Hw & E)|(-> & _ & Hv & E)]);
    [done..|lia|left|right].
  - set (p1 := moved p fd e (fd_off e + r) w) in *. exists r.
    destruct (written_file p fd e c buf r w Hw) as [Hcw Hdw].
    assert (zlen (takeZ r buf) = r) as Hzr by (apply zlen_takeZ; lia).
    pose proof (zlen_write_at (fd_off e) (takeZ r buf) c Hoff) as Hzc. rewrite Hzr in Hzc.
    set (found := if decide _ then write_at _ _ _ else c').
    assert (file_at p1 fd (with_off (fd_off e + r) e) found) as Hf1.
    { apply (file_on_moved (srv (fd_path e)) p fd e c'); [done| |done]. unfold found. case_decide as Es; [by rewrite Es|].
      rewrite (written_other _ _ _ _ _ _ _ _ Hw Es). by destruct Hf'. }
    assert (zlen found < 4294967295) as Hzf by (unfold found; case_decide; lia).
    rewrite (bind_run _ _ _ _ _ E). replace (r <? 0) with false by lia.
    pose proof (zlen_nonneg found).
    destruct (lseek_run junk Hjunk Hjb p1 fd _ _ (fd_off e) SEEK_SET Hf1) as (w2 & Hv2 & E2);
      [lia|unfold LLONG_MAX; simpl; lia|unfold LLONG_MIN, LLONG_MAX; simpl; lia|].
    unfold seek_base in E2. rewrite Z.eqb_refl, Z.add_0_l in E2. replace (fd_off e <? 0) with false in E2 by lia.
    rewrite (bind_run _ _ _ _ _ E2).
    pose proof (file_on_view _ _ _ _ _ (fd_off e) w2 Hf1 Hv2) as Hf2.
    change (srv (fd_path (with_off (fd_off e + r) e)))
      with (srv (fd_path (with_off (fd_off e) (with_off (fd_off e + r) e)))) in Hf2.
    destruct (read_run junk Hjunk Hjb _ fd _ _ r Hf2) as (w3 & Hv3 & E3); [lia|simpl; lia|simpl; lia|].
    cbn [fd_off with_off] in E3. cbn zeta in E3.
    rewrite (bind_run _ _ _ _ _ E3). eexists. split; [done|]. reflexivity.
  - rewrite (bind_run _ _ _ _ _ E). eexists. split; [reflexivity|exact Hv].
Qed.

(** C13: what write stored is what read gets back after seeking to where the
    write began: the same bytes, as many as write reported; when the path's
    first union member is the one that receives creation, as it is when there is
    no union (otherwise read looks into another file than write wrote:
    [union_write_read_apart]). *)
Theorem write_seek_read_roundtrip {K} `{FileServer K} (junk : bytes) (p : posix K) (fd : Z) (e : fdent)
    (c buf : bytes) (Hjunk : zlen junk = RC_FS_MSG_MAX) (Hjb : is_bytes junk)
    (Hone : srv_c (fd_path e) = srv (fd_path e))
    (Hf : file_at p fd e c) (Hb : is_bytes buf) (Hlen : zlen buf ≤ INT_MAX)
    (Hoff : 0 ≤ fd_off e ≤ zlen c) (Hmax : fd_off e + zlen buf < 4294967295)
    (Hc : zlen c < 4294967295) :
  ∃ res s, write_seek_read junk fd buf (fd_off e) p = Ret res s ∧
    match res with
    | Some (n, data) => data = takeZ n buf ∧ 0 ≤ n ≤ zlen buf ∧ zlen data = n
    | None => view (world s) = view (world p)
    end.
Proof.
  assert (file_at_c p fd e c) as Hfc by (unfold file_at_c; by rewrite Hone).
  destruct (write_seek_read_run junk p fd e c c buf) as [(r & s & Hr & E)|(s & E & Hv)]; [done..| |].
  - rewrite decide_True in E by done. cbn zeta in E. eexists _, _. split; [exact E|].
    pose proof (zlen_takeZ r buf Hr) as Hzr.
    pose proof (zlen_write_at (fd_off e) (takeZ r buf) c Hoff) as Hzc. rewrite Hzr in Hzc.
    replace (Z.max 0 (Z.min r _)) with r by lia.
    pose proof (sliceZ_write_at (fd_off e) (takeZ r buf) c Hoff) as Hdata. rewrite Hzr in Hdata.
    rewrite Hdata. split_and!; [done|lia|lia|done].
  - by exists None, s.
Qed.

(** In a union whose create member is not the first the two calls part: what
    comes back is what the first member's file had all along. *)
Lemma union_write_read_apart {K} `{FileServer K} (junk : bytes) (p : posix K) (fd : Z) (e : fdent)
    (c c' buf : bytes) (Hjunk : zlen junk = RC_FS_MSG_MAX) (Hjb : is_bytes junk)
    (Happart : srv_c (fd_path e) ≠ srv (fd_path e))
    (Hf : file_at_c p fd e c) (Hf' : file_at p fd e c') (Hb : is_bytes buf) (Hlen : zlen buf ≤ INT_MAX)
    (Hoff : 0 ≤ fd_off e ≤ zlen c) (Hmax : fd_off e + zlen buf < 4294967295)
    (Hc : zlen c < 4294967295) (Hc' : zlen c' < 4294967295) n data s
    (E : write_seek_read junk fd buf (fd_off e) p = Ret (Some (n, data)) s) :
  data = sliceZ (fd_off e) n c'.
Proof.
  destruct (write_seek_read_run junk p fd e c c' buf) as [(r & s' & Hr & E')|(s' & E' & _)]; [done..| |congruence].
  rewrite decide_False in E' by congruence. cbn zeta in E'. congruence.
Qed.

(** ** Truncation *)

Section shrink.
Context {K : Type} `{FileServer K} (junk : bytes).
Context (Hjunk : zlen junk = RC_FS_MSG_MAX) (Hjb : is_bytes junk).
Implicit Types (p : posix K) (c : bytes).

Lemma keep_prefix_run p path c want :
  abs_ok path → v_file (world p) path = Some c → 0 ≤ want ≤ zlen c → want ≤ INT_MAX →
  ∃ w, view w = view (world p) ∧
    keep_prefix junk path want p = Ret (Some (takeZ want c)) (set_world w p).
Proof using Hjb Hjunk.
  intros Hp Hc Hwant Hmax. unfold INT_MAX in Hmax.
  assert (wp (keep_prefix junk path want)
    (λ r s, ∃ w, view w = view (world p) ∧ r = Some (takeZ want c) ∧ s = set_world w p) p) as Hw.
  - unfold keep_prefix.
    apply (wp_loop _ (λ '(got, keep) s, ∃ w, s = set_world w p ∧ view w = view (world p) ∧
        0 ≤ got ≤ want ∧ keep = takeZ got c) (λ '(got, _) _, want - got)); [| | |lia].
    + intros [got keep] s (w & _ & _ & ? & _). lia.
    + intros [got keep] s (w & -> & Hv & Hgot & ->). destruct (Z.ltb_spec got want).
      * destruct (read_at_run junk Hjunk Hjb w path (want - got) got c) as (n & w' & E & Hv' & Hn1 & Hn2 & Hn3);
          [done| |unfold INT_MAX; lia|lia|]. { unfold v_file, held in *. by rewrite Hv. }
        apply wp_bind. eapply wp_of_eq.
        { apply sys_run. simpl. rewrite s64_id by (unfold LLONG_MIN, LLONG_MAX; lia). exact E. }
        cbn beta iota. replace (n <=? 0) with false by lia. apply wp_ret. split; [|rewrite u64_id; lia].
        exists w'. rewrite set_world_world, u64_id by lia. split_and!; [done|congruence|lia|lia|].
        by rewrite takeZ_slice by lia.
      * apply wp_ret. exists w. split_and!; [done| |done]. by replace want with got by lia.
    + exists (world p). rewrite set_world_id, takeZ_0. split_and!; done || lia.
  - apply wp_inv in Hw as (r & s & E & w & Hv & -> & ->). by exists w.
Qed.

(** Shrinking below the old size: the first [want] bytes are rewritten in one
    message.  (The deletion is of the first member's file; the rewriting goes to
    the create member.) *)
Lemma ftruncate_shrink_run p fd e c want :
  file_at p fd e c → writable (world p) (srv_c (fd_path e)) →
  0 < want < zlen c → zlen c ≤ INT_MAX → is_bytes c →
  (∀ s, ∃ w, heap_alloc want s = Ret true w ∧ view w = view s) →
  ∃ r w, ftruncate junk fd want p = Ret r (if r <? 0 then set_errno_ EIO (set_world w p) else set_world w p) ∧
    ((r = -1 ∧ (v_file w (fd_path e) = Some c ∨ v_file w (fd_path e) = None ∨
        ∃ n, 0 ≤ n ≤ Z.min want RC_FS_WRITE_AT_MAXCHUNK ∧ v_file w (fd_path e) = Some (takeZ n c))) ∨
     (r = 0 ∧ want ≤ RC_FS_WRITE_AT_MAXCHUNK ∧
        (v_file w (fd_path e) = Some (takeZ want c) ∨ v_file w (fd_path e) = Some c ∨
         (srv_c (fd_path e) ≠ srv (fd_path e) ∧ v_file w (fd_path e) = None)))).
Proof using Hjb Hjunk.
  intros Hf [Hfc Hdc] Hwant Hsz Hcb Halloc. pose proof Hf as [Hr He Hk Hp Hc Hd]. unfold INT_MAX in Hsz.
  unfold ftruncate. rewrite (bind_run _ _ _ _ _ (fd_init_run p (proj2 Hr))).
  rewrite (bind_run _ _ _ _ _ (fd_of_kind_run p fd e K_FILE Hr He Hk)). replace (want <? 0) with false by lia.
  destruct (stat_run junk Hjunk Hjb (world p) (fd_path e) c Hp Hc ltac:(lia)) as (w1 & Hv1 & E1).
  cbn zeta. rewrite (bind_run _ _ _ _ _ (sys_run _ _ _ p E1)). cbn beta iota.
  replace (want =? zlen c) with false by lia. replace (zlen c <? want) with false by lia.
  replace (want =? 0) with false by lia.
  destruct (Halloc w1) as (w2 & E2 & Hv2).
  rewrite (bind_run _ _ _ _ _ (sys_run _ _ _ (set_world w1 p) E2)). cbn [negb].
  destruct (keep_prefix_run (set_world w2 p) (fd_path e) c want Hp) as (w3 & Hv3 & E3);
    [simpl; unfold v_file, held in *; by rewrite Hv2, Hv1|lia|unfold INT_MAX; lia|].
  rewrite set_world_world. rewrite (bind_run _ _ _ _ _ E3). rewrite set_world_world in *. simpl in Hv3.
  assert (view w3 = view (world p)) as Hv by congruence.
  assert (v_file w3 (fd_path e) = Some c) as Hc3 by (unfold v_file, held in *; by rewrite Hv).
  destruct (delete_run junk Hjunk Hjb w3 (fd_path e) 0 Hp) as (d & w4 & E4 & Hdel); [by rewrite Hc3|lia|].
  rewrite (bind_run _ _ _ _ _ (sys_run _ _ _ (set_world w3 p) E4)). rewrite set_world_world.
  assert (zlen (takeZ want c) = want) as Hzk by (apply zlen_takeZ; lia).
  set (len := Z.min want RC_FS_WRITE_AT_MAXCHUNK). unfold RC_FS_WRITE_AT_MAXCHUNK in len.
  assert (v_file w4 (fd_path e) = Some c ∨ v_file w4 (fd_path e) = None) as Hcase.
  { unfold v_file, held in *. destruct Hdel as [[_ Hv4]|[_ Hv4]]; rewrite Hv4; [by left|].
    right. apply lookup_delete_eq. }
  assert (v_dirs (view w4) = v_dirs (view (world p))) as Hd4
    by (destruct Hdel as [[_ Hv4]|[_ Hv4]]; rewrite Hv4; simpl; by rewrite Hv).
  assert (writable w4 (srv_c (fd_path e))) as Hw4 by (split; [done|by rewrite Hd4]).
  pose proof (zlen_nonneg (default [] (held w4 (srv_c (fd_path e))))).
  destruct (write_at_run junk Hjunk Hjb w4 (fd_path e) (takeZ want c) len 0 _ Hp
    Hw4 eq_refl)
    as (n & w5 & E5 & Hres); [by apply Forall_takeZ|unfold RC_FS_WRITE_AT_MAXCHUNK; lia|lia|lia|lia|].
  pose proof (write_at_clamp junk w4 (fd_path e) (takeZ want c) want 0 ltac:(lia)) as Hclamp.
  unfold RC_FS_WRITE_AT_MAXCHUNK in Hclamp. fold len in Hclamp.
  rewrite (bind_run _ _ _ _ _ (sys_run _ _ _ (set_world w4 p) (eq_trans Hclamp E5))). rewrite set_world_world.
  assert (v_file w5 (fd_path e) = Some c ∨ v_file w5 (fd_path e) = None ∧ (n = -1 ∨ srv_c (fd_path e) ≠ srv (fd_path e)) ∨
    0 ≤ n ≤ len ∧ v_file w5 (fd_path e) = Some (takeZ n c)) as Hfinal.
  { destruct Hres as [[-> Hv5]|[Hn Hv5]].
    - unfold v_file, held in *. rewrite Hv5. destruct Hcase; auto.
    - assert (takeZ n (takeZ want c) = takeZ n c) as Htt
        by (unfold takeZ; rewrite take_take; f_equal; lia).
      assert (v_file w5 (fd_path e) = if decide (srv (fd_path e) = srv_c (fd_path e))
        then Some (write_at 0 (takeZ n c) (default [] (v_file w4 (fd_path e)))) else v_file w4 (fd_path e)) as ->.
      { unfold v_file, held in *. rewrite Hv5, Htt. simpl. case_decide as Es.
        - by rewrite Es, lookup_insert_eq.
        - by rewrite lookup_insert_ne. }
      assert (zlen (takeZ n c) = n) as Hzn by (apply zlen_takeZ; lia).
      case_decide.
      + destruct Hcase as [E|E]; rewrite E; cbn [default from_option id]; unfold write_at; rewrite takeZ_0, app_nil_l.
        * left. f_equal. rewrite Hzn. apply takeZ_dropZ.
        * right; right. split; [done|]. f_equal. unfold dropZ. by rewrite drop_nil, app_nil_r.
      + destruct Hcase as [E|E]; auto. }
  destruct (Z.eqb_spec n want) as [->|Hne]; cbn [negb].
  - exists 0, w5. split; [done|]. right.
    destruct Hres as [[? _]|[Hn _]]; [lia|]. unfold RC_FS_WRITE_AT_MAXCHUNK. split_and!; [done|lia|].
    destruct Hfinal as [?|[[? [?|?]]|[_ ?]]]; [by right; left|lia|by right; right|by left].
  - exists (-1), w5. split; [done|]. left. split; [done|]. unfold RC_FS_WRITE_AT_MAXCHUNK.
    destruct Hfinal as [?|[[? _]|[? ?]]]; [by left|by right; left|right; right; eauto].
Qed.
End shrink.


(** ** Temporary names *)

Lemma idx_tmp_chars i : 0 ≤ i < 36 → ∃ c, idx tmp_chars i = Some c ∧ c ≠ 88 ∧ 0 < c < 128.
Proof.
  intros Hi. destruct (idx_is_Some tmp_chars i) as [c Hc]; [exact Hi|]. exists c. split; [done|].
  assert (Forall (λ c, c ≠ 88 ∧ 0 < c < 128) tmp_chars) as Hall by (vm_compute; repeat constructor; discriminate).
  exact (idx_Forall _ _ _ _ Hall Hc).
Qed.

Lemma tmp_name_len n seed : zlen (tmp_name n seed) = Z.of_nat n.
Proof. revert seed. induction n; intros; cbn [tmp_name]; [done|]. rewrite zlen_cons, IHn. lia. Qed.

Lemma tmp_name_not_template seed : tmp_name 6 seed ≠ str "XXXXXX".
Proof.
  cbn [tmp_name]. intros [= E _ _ _ _ _].
  destruct (idx_tmp_chars (seed mod 36)) as (c & Hc & Hne & _); [lia|]. rewrite Hc in E. done.
Qed.

Lemma fill_template_run {K} `{Kernel K} pre seed (p : posix K) :
  rc_fill_template (pre ++ str "XXXXXX") seed p = Ret (Some (pre ++ tmp_name 6 seed)) p.
Proof.
  unfold rc_fill_template. assert (zlen (pre ++ str "XXXXXX") - 6 = zlen pre) as E
    by (rewrite zlen_app; change (zlen (str "XXXXXX")) with 6; lia).
  pose proof (zlen_nonneg pre). rewrite E, dropZ_app_zlen, bool_decide_true by done.
  replace (zlen (pre ++ str "XXXXXX") <? 6) with false by lia. cbn [orb negb].
  by rewrite takeZ_app_zlen.
Qed.

Lemma fill_template_again {K} `{Kernel K} pre seed seed2 (p : posix K) :
  rc_fill_template (pre ++ tmp_name 6 seed) seed2 p = Ret None (set_errno_ EINVAL p).
Proof.
  unfold rc_fill_template. assert (zlen (pre ++ tmp_name 6 seed) - 6 = zlen pre) as E
    by (rewrite zlen_app, tmp_name_len; lia).
  rewrite E, dropZ_app_zlen, bool_decide_false by apply tmp_name_not_template.
  cbn [negb]. by rewrite orb_true_r.
Qed.

(** Mkstemp does not retry: when the first candidate name is taken, the
    second turn of its loop finds the template already filled in and fails with
    EINVAL, for every template, seed and kernel; the 100 tries never happen. *)
Theorem mkstemp_collision_fails {K} `{Kernel K} (junk pre : bytes) (seed seed2 : Z)
    (p p1 p2 p3 : posix K)
    (Hseed : rc_tmp_seed p = Ret seed p1)
    (Hopen : open junk (pre ++ tmp_name 6 seed) (Z.lor (Z.lor O_RDWR O_CREAT) O_EXCL) p1 = Ret (-1) p2)
    (Hexists : errno p2 = EEXIST)
    (Hseed2 : rc_tmp_seed p2 = Ret seed2 p3) :
  mkstemp junk (pre ++ str "XXXXXX") p = Ret (-1, pre ++ tmp_name 6 seed) (set_errno_ EINVAL p3).
Proof.
  unfold mkstemp.
  apply (loop_steps _ (λ k, if decide (k = 0) then (0, pre ++ str "XXXXXX") else (k, pre ++ tmp_name 6 seed))
    (λ k, if decide (k = 0) then p else p2) 1); [lia|done|done| |].
  - intros k Hk. replace k with 0 by lia. rewrite !decide_True, !decide_False by lia. cbn beta iota.
    cbn [Z.ltb Z.compare]. rewrite (bind_run _ _ _ _ _ Hseed), (bind_run _ _ _ _ _ (fill_template_run pre seed p1)).
    cbn beta iota. rewrite (bind_run _ _ _ _ _ Hopen). unfold gets, bind at 1. rewrite Hexists. done.
  - rewrite !decide_False by lia. cbn beta iota. cbn [Z.ltb Z.compare].
    change (1 <? 100) with true. cbn iota. rewrite (bind_run _ _ _ _ _ Hseed2).
    rewrite (bind_run _ _ _ _ _ (fill_template_again pre seed seed2 p3)). done.
Qed.

(** ** Concrete runs, on the in-memory kernel *)

From S2P Require Import Ram.

Definition ex_path : bytes := str "/tmp/a.txt".
Definition ex_ent (off : Z) : fdent := Fdent K_FILE O_RDWR off ex_path.
Definition ex_posix (contents : bytes) (off : Z) : posix ram :=
  Posix (ex_ram ex_path contents) 0
    (replicate 3 (with_kind K_CONSOLE fd_zero) ++ ex_ent off :: replicate 60 fd_zero) true 0.

Lemma ex_file_at contents off : file_at (ex_posix contents off) 3 (ex_ent off) contents.
Proof.
  split; try reflexivity.
  - by split.
  - split_and!; [apply c_chars_b_sound; reflexivity|reflexivity|vm_compute; reflexivity|vm_compute; reflexivity].
  - change (srv (fd_path (ex_ent off))) with (1, ex_path). rewrite (ram_view_dir (ex_ram ex_path contents)).
    simpl. set_solver.
Qed.

(** The path of the examples is in no union. *)
Lemma ex_one_member : srv_c (K := ram) ex_path = srv ex_path.
Proof. vm_compute. reflexivity. Qed.
Lemma ex_file_at_c contents off : file_at_c (ex_posix contents off) 3 (ex_ent off) contents.
Proof.
  unfold file_at_c. change (fd_path (ex_ent off)) with ex_path. rewrite ex_one_member. apply ex_file_at.
Qed.

Lemma read_correct_witness :
  ∃ w, view w = view (world (ex_posix (str "hello, world") 7)) ∧
    read ex_junk 3 100 (ex_posix (str "hello, world") 7) =
      Ret (5, str "world") (moved (ex_posix (str "hello, world") 7) 3 (ex_ent 7) 12 w).
Proof.
  destruct (read_correct ex_junk (ex_posix (str "hello, world") 7) 3 (ex_ent 7) (str "hello, world") 100
    ex_junk_len ex_junk_bytes (ex_file_at _ _)) as (w & Hv & E);
    [vm_compute; split; discriminate|vm_compute; discriminate|reflexivity|].
  exists w. split; [exact Hv|exact E].
Defined.

Lemma write_correct_witness :
  ∃ r w, (0 ≤ r ≤ 5 ∧ written (ex_posix (str "hello, world") 7) 3 (ex_ent 7) (str "hello, world") (str "there") r w ∧
      write ex_junk 3 (str "there") 5 (ex_posix (str "hello, world") 7) =
        Ret r (moved (ex_posix (str "hello, world") 7) 3 (ex_ent 7) (7 + r) w)) ∨
    (r = -1 ∧ 0 < 5 ∧ view w = view (world (ex_posix (str "hello, world") 7)) ∧
      write ex_junk 3 (str "there") 5 (ex_posix (str "hello, world") 7) =
        Ret r (set_errno_ EIO (moved (ex_posix (str "hello, world") 7) 3 (ex_ent 7) 7 w))).
Proof.
  apply (write_correct ex_junk (ex_posix (str "hello, world") 7) 3 (ex_ent 7) (str "hello, world") (str "there") 5
    ex_junk_len ex_junk_bytes (ex_file_at_c _ _));
    [apply is_bytes_b_sound; reflexivity|vm_compute; split; discriminate|vm_compute; discriminate|
     vm_compute; split; discriminate|reflexivity].
Defined.

Lemma write_seek_read_roundtrip_witness :
  ∃ res s, write_seek_read ex_junk 3 (str "there") 7 (ex_posix (str "hello, world") 7) = Ret res s ∧
    match res with
    | Some (n, data) => data = takeZ n (str "there") ∧ 0 ≤ n ≤ 5 ∧ zlen data = n
    | None => view (world s) = view (world (ex_posix (str "hello, world") 7))
    end.
Proof.
  apply (write_seek_read_roundtrip ex_junk (ex_posix (str "hello, world") 7) 3 (ex_ent 7)
    (str "hello, world") (str "there") ex_junk_len ex_junk_bytes ex_one_member (ex_file_at _ _));
    [apply is_bytes_b_sound; reflexivity|vm_compute; discriminate|
     vm_compute; split; discriminate|reflexivity|reflexivity].
Defined.

(** In a union the file a program creates is not there when it looks: on the
    name space where "/bin/" is bound over "/usr/" for creation, open with
    O_CREAT and write succeed and opening the same path again fails with
    ENOENT; under "/tmp/" it succeeds. *)
Definition ex_create_reopen (path : bytes) : M (posix ram) (Z * Z * Z * Z) :=
  fd <- open ex_junk path (Z.lor O_RDWR O_CREAT) ;;
  n <- write ex_junk fd (str "hello") 5 ;;
  close ex_junk fd ;;
  fd2 <- open ex_junk path 0 ;;
  e <- gets errno ;;
  ret (fd, n, fd2, e).

Example union_create_not_found :
  (∃ s, ex_create_reopen (str "/bin/x") (posix_start ram0) = Ret (3, 5, -1, ENOENT) s ∧
     ram_files (world s) !! str "/usr/x" = Some (str "hello")) ∧
  (∃ s, ex_create_reopen (str "/tmp/x") (posix_start ram0) = Ret (3, 5, 3, 0) s).
Proof. split; eexists; [split|]; vm_compute; reflexivity. Qed.

Definition ex_large : bytes := replicate (Z.to_nat 9000) 65.


Definition out_state {S A} (d : S) (o : outcome S A) : S :=
  match o with Ret _ s | Halt _ s => s | _ => d end.

Definition ex_candidate : bytes := str "/tmp/x" ++ tmp_name 6 7347951.
Definition ex_p : posix ram :=
  out_state (posix_start (ex_ram ex_candidate [])) (fd_init (posix_start (ex_ram ex_candidate []))).
Definition ex_p1 : posix ram := out_state ex_p (rc_tmp_seed ex_p).
Definition ex_p2 : posix ram :=
  out_state ex_p (open ex_junk ex_candidate (Z.lor (Z.lor O_RDWR O_CREAT) O_EXCL) ex_p1).
Definition ex_p3 : posix ram := out_state ex_p (rc_tmp_seed ex_p2).

Lemma mkstemp_collision_fails_witness :
  mkstemp ex_junk (str "/tmp/x" ++ str "XXXXXX") ex_p = Ret (-1, ex_candidate) (set_errno_ EINVAL ex_p3).
Proof.
  apply (mkstemp_collision_fails ex_junk (str "/tmp/x") 7347951
    (u64 (Z.lxor 1000 (u64 (Z.shiftl 7 20)) + 7919 * 2)) ex_p ex_p1 ex_p2 ex_p3);
    vm_compute; reflexivity.
Defined.
