(* ===== verification/RcDns.v ===== *)
(** The resolver: src/lib/racccoon-libc/src/rc_socket.c from dns_server on, and
    the data of include/netdb.h.

    A DNS reply is the bytes one read of the conversation gave; what lies behind
    them in the C array is uninitialised, so reading it is a [Fault]. *)
From S2P Require Import Prelude CMonad CMemory CBuffer Ctype CString CStdlib Printf Kernel RcFs Ram RcFd RcNet RcSocket RcPosix.

Definition AI_PASSIVE : Z := 1.
Definition AI_NUMERICHOST : Z := 4.
Definition EAI_NONAME : Z := -2.
Definition EAI_FAMILY : Z := -6.
Definition EAI_SERVICE : Z := -8.
Definition EAI_MEMORY : Z := -10.
Definition IPPROTO_TCP : Z := 6.
Definition IPPROTO_UDP : Z := 17.
Definition INADDR_LOOPBACK : Z := 2130706433.

(** [struct addrinfo] as a hint, and as the result with its [sockaddr_in];
    [struct hostent]. *)
Record ai_hints := AiHints { h_family : Z; h_socktype : Z; h_flags : Z }.
Record addrinfo := Addrinfo {
  ai_family : Z; ai_socktype : Z; ai_protocol : Z; ai_addrlen : Z; ai_addr : sockaddr_in;
}.
Record hostent := Hostent { h_name : bytes; h_addrtype : Z; h_length : Z; h_addr : Z }.

(** ** The wire format *)

Section wire.
Context {S : Type}.

(** [memcpy(q + qn, s, l)] into [q[300]] *)
Definition append (q data : bytes) : M S bytes :=
  if zlen q + zlen data <=? 300 then ret (q ++ data) else fault.

(** One turn of the loop over the labels of [name]: [s] is the position. *)
Definition label_turn (name : bytes) : Z * bytes → M S (step (Z * bytes) (option bytes)) := λ '(s, q),
  c <- chr name s ;;
  if c =? 0 then ret (Break (Some q))
  else
    let l := match index_of (Z.eqb 46) (dropZ s name) with Some d => d | None => zlen name - s end in
    if (l <=? 0) || (63 <? l) || (290 <? zlen q + l + 6) then ret (Break None)
    else
      q <- push 300 q (u8 l) ;;
      label <- peek s l name ;;
      q <- append q label ;;
      c <- chr name (s + l) ;;
      ret (Continue (if c =? 46 then s + l + 1 else s + l, q)).
(** The labels, behind the header: [None] for [return -1]. *)
Definition dns_labels (name q : bytes) : M S (option bytes) := loop (label_turn name) (0, q).

(** The query: header, name, type A, class IN. *)
Definition dns_question (id : Z) (name : bytes) : M S (option bytes) :=
  let header := [u8 (Z.shiftr id 8); u8 id; 1; 0; 0; 1] ++ replicate 6 0 in
  q <- dns_labels name header ;;
  match q with
  | None => ret None
  | Some q => q <- append q [0; 0; 1; 0; 1] ;; ret (Some q)
  end.

Definition dns_skip (m : bytes) (len at_ : Z) : M S Z :=
  loop (λ at_,
    if at_ <? len then
      l <- of_option (idx m at_) ;;
      if l =? 0 then ret (Break (at_ + 1))
      else if Z.land l 192 =? 192 then ret (Break (at_ + 2))
      else ret (Continue (at_ + l + 1))
    else ret (Break (-1))) at_.

(** [(r[at] << 8) | r[at + 1]] *)
Definition be16 (r : bytes) (at_ : Z) : M S Z :=
  h <- of_option (idx r at_) ;; l <- of_option (idx r (at_ + 1)) ;;
  ret (Z.lor (Z.shiftl h 8) l).

(** One turn of the loop over the [an] records: [a] counts them, [at_] is the
    position. *)
Definition answer_turn (r : bytes) (rn an : Z) : Z * Z → M S (step (Z * Z) (option Z)) := λ '(a, at_),
  if (a <? an) && (0 <? at_) && (at_ + 10 <=? rn) then
    at_ <- dns_skip r rn at_ ;;
    if (at_ <? 0) || (rn <? at_ + 10) then ret (Break None)
    else
      type <- be16 r at_ ;;
      rdlen <- be16 r (at_ + 8) ;;
      let at_ := at_ + 10 in
      if (type =? 1) && (rdlen =? 4) && (at_ + 4 <=? rn) then
        b0 <- of_option (idx r at_) ;; b1 <- of_option (idx r (at_ + 1)) ;;
        b2 <- of_option (idx r (at_ + 2)) ;; b3 <- of_option (idx r (at_ + 3)) ;;
        ret (Break (Some (Z.lor (Z.lor (Z.lor (Z.shiftl b0 24) (Z.shiftl b1 16)) (Z.shiftl b2 8)) b3)))
      else ret (Continue (a + 1, at_ + rdlen))
  else ret (Break None).
(** The first address among them. *)
Definition dns_answers (r : bytes) (rn an at_ : Z) : M S (option Z) :=
  loop (answer_turn r rn an) (0, at_).

(** What the loop over the attempts makes of a reply [r] of [rn] bytes to the
    query [q]: try again, stop, or an address. *)
Inductive verdict := Again | Stop | Found (ip : Z).

Definition dns_reply (q r : bytes) (rn : Z) : M S verdict :=
  if rn <? 12 then ret Again
  else
    r0 <- of_option (idx r 0) ;; q0 <- of_option (idx q 0) ;;
    if negb (r0 =? q0) then ret Again
    else
      r1 <- of_option (idx r 1) ;; q1 <- of_option (idx q 1) ;;
      if negb (r1 =? q1) then ret Again
      else
        r3 <- of_option (idx r 3) ;;
        if negb (Z.land r3 15 =? 0) then ret Stop
        else
          an <- be16 r 6 ;;
          at_ <- dns_skip r rn 12 ;;
          if at_ <? 0 then ret Stop
          else
            ip <- dns_answers r rn an (at_ + 4) ;;
            ret (match ip with Some ip => Found ip | None => Again end).
End wire.

Section resolver.
Context {K : Type} `{!Kernel K} (junk : bytes) (fmt_fp : va_slot → Z → Z → Z → Z → bytes).
Abbreviation P := (posix K).

(** The server's address in host order, 0 when no interface has one. *)
Definition dns_server : M P Z :=
  loop (λ i,
    if i <? 4 then
      let* (_, p) := sprintf_in fmt_fp 32 (str "/net/ipifc/%d/status") [VInt i] in
      let* (n, st) := sys (__rc_fs_read junk p 255) in
      if n <=? 0 then ret (Continue (i + 1))
      else
        st <- terminate 256 n st ;;
        match str_find (str " dns ") st with
        | None => ret (Continue (i + 1))
        | Some d =>
            q <- parse_quad st (d + 5) ;;
            match q with
            | Some (_, ip) => if negb (ip =? 0) then ret (Break ip) else ret (Continue (i + 1))
            | None => ret (Continue (i + 1))
            end
        end
    else ret (Break 0)) 0.

(** Host order; [None] for the result -1. *)
Definition dns_query (name : bytes) : M P (option Z) :=
  server <- dns_server ;;
  if server =? 0 then ret None
  else
    pid <- sys sys_getpid ;;
    let id := Z.lxor (u32 (u32 pid * 7919)) 23130 in
    q <- dns_question id name ;;
    match q with
    | None => ret None
    | Some q =>
        fd <- socket junk fmt_fp AF_INET SOCK_DGRAM ;;
        if fd <? 0 then ret None
        else
          let sa := sin_bytes (SockaddrIn AF_INET (htons 53) (htonl server)) in
          r <- connect junk fmt_fp fd sa sizeof_sockaddr_in ;;
          found <- (if r =? 0 then
            d <- __rc_fd_net_dir fd ;;
            match d with
            | None => fault                                  (* dir is NULL *)
            | Some e =>
                p <- netpath (fd_path e) (str "data") ;;
                loop (λ attempt,
                  if attempt <? 2 then
                    sys (__rc_fs_write junk p q (zlen q)) ;;
                    let* (rn, r) := sys (__rc_fs_read junk p 1024) in
                    v <- dns_reply q r rn ;;
                    match v with
                    | Again => ret (Continue (attempt + 1))
                    | Stop => ret (Break None)
                    | Found ip => ret (Break (Some ip))
                    end
                  else ret (Break None)) 0
            end
          else ret None) ;;
          close junk fd ;;
          ret found
    end.

(** The port of a service: [None] for EAI_SERVICE. *)
Definition service_port (service : bytes) : M P (option Z) :=
  let* (v, end_) := strtol service 10 in
  c <- chr service end_ ;;
  if negb (c =? 0) || (v <? 0) || (65535 <? v) then
    ret (if str_cmp service (str "http") =? 0 then Some 80
         else if str_cmp service (str "https") =? 0 then Some 443
         else if str_cmp service (str "domain") =? 0 then Some 53
         else if str_cmp service (str "telnet") =? 0 then Some 23
         else None)
  else ret (Some v).

(** The address of a node in host order: [None] for EAI_NONAME. *)
Definition node_address (node : option bytes) (flags : Z) : M P (option Z) :=
  match node with
  | None => ret (Some (if negb (Z.land flags AI_PASSIVE =? 0) then 0 else INADDR_LOOPBACK))
  | Some node =>
      a <- inet_aton node ;;
      match a with
      | Some a => ret (Some (ntohl a))
      | None =>
          if str_cmp node (str "localhost") =? 0 then ret (Some INADDR_LOOPBACK)
          else if negb (Z.land flags AI_NUMERICHOST =? 0) then ret None
          else dns_query node
      end
  end.

(** The result and, when it is 0, [*res]. *)
Definition getaddrinfo (node service : option bytes) (hints : option ai_hints) : M P (Z * option addrinfo) :=
  let family := match hints with Some h => h_family h | None => AF_UNSPEC end in
  if negb (family =? AF_UNSPEC) && negb (family =? AF_INET) then ret (EAI_FAMILY, None)
  else
    let socktype := match hints with Some h => h_socktype h | None => 0 end in
    let flags := match hints with Some h => h_flags h | None => 0 end in
    port <- match service with Some s => service_port s | None => ret (Some 0) end ;;
    match port with
    | None => ret (EAI_SERVICE, None)
    | Some port =>
        ip <- node_address node flags ;;
        match ip with
        | None => ret (EAI_NONAME, None)
        | Some ip =>
            ok <- sys (heap_alloc (48 + sizeof_sockaddr_in)) ;;
            if negb ok then ret (EAI_MEMORY, None)
            else
              let socktype := if socktype =? 0 then SOCK_STREAM else socktype in
              ret (0, Some {|
                ai_family := AF_INET; ai_socktype := socktype;
                ai_protocol := if socktype =? SOCK_DGRAM then IPPROTO_UDP else IPPROTO_TCP;
                ai_addrlen := sizeof_sockaddr_in;
                ai_addr := SockaddrIn AF_INET (htons (u16 port)) (htonl ip) |})
        end
    end.

(** The static [hname[256]] holds at most 255 characters of the name. *)
Definition gethostbyname (name : bytes) : M P (option hostent) :=
  let* (r, ai) := getaddrinfo (Some name) None None in
  match ai with
  | Some ai =>
      ret (Some {| h_name := takeZ 255 name; h_addrtype := AF_INET; h_length := 4;
                   h_addr := sin_addr (ai_addr ai) |})
  | None => ret None
  end.
End resolver.

(** The chain of results as a list; [free] is the allocator's. *)
Definition freeaddrinfo {S A} (free : A → M S unit) (res : list A) : M S unit :=
  loop (λ res, match res with
               | [] => ret (Break tt)
               | ai :: n => free ai ;; ret (Continue n)
               end) res.

Definition gai_strerror (err : Z) : bytes :=
  if err =? EAI_NONAME then str "name does not resolve"
  else if err =? EAI_FAMILY then str "address family not supported"
  else if err =? EAI_SERVICE then str "unknown service"
  else if err =? EAI_MEMORY then str "out of memory"
  else str "lookup failed".

(** Every result of a chain is freed once, in order. *)
Lemma freeaddrinfo_run {S A} (free : A → M S unit) (f : A → S → S) (res : list A) (st : S) :
  (∀ ai st, free ai st = Ret tt (f ai st)) → zlen res < 18446744073709551616 →
  freeaddrinfo free res st = Ret tt (foldl (λ st ai, f ai st) st res).
Proof.
  intros Hf Hl. pose proof (zlen_nonneg res).
  apply (loop_steps _ (λ k, dropZ k res) (λ k, foldl (λ st ai, f ai st) st (takeZ k res)) (zlen res)); [lia|..].
  - by rewrite dropZ_0.
  - by rewrite takeZ_0.
  - intros k Hk. destruct (idx_is_Some res k Hk) as [ai Hi]. rewrite (dropZ_cons _ _ _ Hi).
    rewrite (bind_run _ _ _ _ _ (Hf ai _)), (takeZ_snoc _ _ _ Hi), foldl_app. done.
  - rewrite dropZ_all by lia. by rewrite takeZ_all by lia.
Qed.

(** * Any reply is handled without reading outside it *)

Section safety.
Context {S : Type}.
Implicit Types (st : S).

Lemma dns_skip_total m len at_ st : is_bytes m → 0 ≤ at_ → len ≤ zlen m → len < 2147483648 →
  ∃ r, dns_skip m len at_ st = Ret r st ∧ (r = -1 ∨ at_ < r ≤ len + 1).
Proof.
  intros Hm Ha Hl Hlen.
  assert (wp (dns_skip m len at_) (λ r st', st' = st ∧ (r = -1 ∨ at_ < r ≤ len + 1)) st) as Hw.
  2:{ apply wp_inv in Hw as (r & st' & E & -> & ?). by exists r. }
  apply (wp_loop _ (λ p st', st' = st ∧ at_ ≤ p) (λ p _, Z.max 0 (len - p))); [lia| |split; [done|lia]|lia].
  intros p st' [-> Hp]. destruct (Z.ltb_spec p len).
  - destruct (idx_is_Some m p ltac:(lia)) as [l El]. pose proof (idx_is_byte _ _ _ Hm El).
    apply wp_bind. rewrite El. apply wp_ret. destruct (l =? 0); [apply wp_ret; split; [done|lia]|].
    destruct (Z.land l 192 =? 192); [apply wp_ret; split; [done|lia]|]. apply wp_ret. split; [split; [done|]|]; lia.
  - apply wp_ret. split; [done|lia].
Qed.

Lemma be16_total r at_ st : 0 ≤ at_ → at_ + 2 ≤ zlen r → is_bytes r →
  ∃ v, be16 r at_ st = Ret v st ∧ 0 ≤ v < 65536.
Proof.
  intros Ha Hl Hr. unfold be16.
  destruct (idx_is_Some r at_ ltac:(lia)) as [h Eh]. destruct (idx_is_Some r (at_ + 1) ltac:(lia)) as [l El].
  pose proof (idx_is_byte _ _ _ Hr Eh). pose proof (idx_is_byte _ _ _ Hr El).
  rewrite Eh, El. eexists. split; [reflexivity|].
  pose proof (lor_add h l 8 ltac:(lia) ltac:(lia)) as E. rewrite Z.shiftl_mul_pow2 by lia.
  change (2 ^ 8) with 256 in *. lia.
Qed.

Lemma dns_answers_total r rn an at_ st : is_bytes r → rn ≤ zlen r → rn < 2147483648 → an < 65536 →
  ∃ ip, dns_answers r rn an at_ st = Ret ip st.
Proof.
  intros Hr Hl Hrn Han.
  assert (wp (dns_answers r rn an at_) (λ _ st', st' = st) st) as Hw.
  2:{ apply wp_inv in Hw as (ip & st' & E & ->). by exists ip. }
  apply (wp_loop _ (λ '(a, p) st', st' = st ∧ 0 ≤ a) (λ '(a, p) _, Z.max 0 (an - a))); [| |split; [done|lia]|lia].
  { intros [a p] st' _. lia. }
  intros [a p] st' [-> Ha]. unfold answer_turn. destruct ((a <? an) && (0 <? p) && (p + 10 <=? rn)) eqn:Ec; [|by apply wp_ret].
  destruct (dns_skip_total r rn p st Hr ltac:(lia) Hl Hrn) as (p' & E & Hp').
  apply wp_bind. wp_eq E. destruct ((p' <? 0) || (rn <? p' + 10)) eqn:Ec2; [by apply wp_ret|].
  destruct (be16_total r p' st ltac:(lia) ltac:(lia) Hr) as (ty & Ety & _).
  destruct (be16_total r (p' + 8) st ltac:(lia) ltac:(lia) Hr) as (len & Elen & ?).
  apply wp_bind. wp_eq Ety. apply wp_bind. wp_eq Elen. cbn zeta.
  destruct ((ty =? 1) && (len =? 4) && (p' + 10 + 4 <=? rn)) eqn:Ec3; [|apply wp_ret; split; [split; [done|]|]; lia].
  destruct (idx_is_Some r (p' + 10) ltac:(lia)) as [b0 E0].
  destruct (idx_is_Some r (p' + 10 + 1) ltac:(lia)) as [b1 E1].
  destruct (idx_is_Some r (p' + 10 + 2) ltac:(lia)) as [b2 E2].
  destruct (idx_is_Some r (p' + 10 + 3) ltac:(lia)) as [b3 E3].
  rewrite E0, E1, E2, E3. by repeat first [apply wp_bind | apply wp_ret].
Qed.

End safety.

(** * A well-formed reply is understood *)

(** A name as it stands in a message: labels up to the root or a pointer. *)
Inductive wire_name : bytes → Prop :=
  | wire_root : wire_name [0]
  | wire_pointer a b : 192 ≤ a < 256 → wire_name [a; b]
  | wire_label s rest : 0 < zlen s < 64 → wire_name rest → wire_name (zlen s :: s ++ rest).

Definition be16_bytes (v : Z) : bytes := [v / 256; v mod 256].
(** A resource record; [rr_fixed] is its class and time to live. *)
Record rr := Rr { rr_name : bytes; rr_type : Z; rr_fixed : bytes; rr_data : bytes }.
Definition rr_ok (x : rr) : Prop :=
  wire_name (rr_name x) ∧ 0 ≤ rr_type x < 65536 ∧ zlen (rr_fixed x) = 6 ∧ zlen (rr_data x) < 65536 ∧
  is_bytes (rr_data x).
Definition rr_bytes (x : rr) : bytes :=
  rr_name x ++ be16_bytes (rr_type x) ++ rr_fixed x ++ be16_bytes (zlen (rr_data x)) ++ rr_data x.
(** The address of the first A record. *)
Fixpoint first_address (l : list rr) : option Z :=
  match l with
  | [] => None
  | x :: l =>
      match rr_type x, rr_data x with
      | 1, [b0; b1; b2; b3] => Some (((b0 * 256 + b1) * 256 + b2) * 256 + b3)
      | _, _ => first_address l
      end
  end.

Section wellformed.
Context {S : Type}.
Implicit Types (st : S).

Lemma land192_label l : 0 ≤ l < 64 → Z.land l 192 = 0.
Proof.
  intros Hl. assert (forallb (λ n, Z.land (Z.of_nat n) 192 =? 0) (seq 0 64) = true)
    as H%Is_true_eq_left%forallb_True by reflexivity.
  rewrite Forall_forall in H. specialize (H (Z.to_nat l) ltac:(apply elem_of_seq; lia)).
  rewrite Z2Nat.id in H by lia. apply Is_true_eq_true in H. lia.
Qed.

Lemma land192_pointer a : 192 ≤ a < 256 → Z.land a 192 = 192.
Proof.
  intros Ha. assert (forallb (λ n, Z.land (Z.of_nat n) 192 =? 192) (seq 192 64) = true)
    as H%Is_true_eq_left%forallb_True by reflexivity.
  rewrite Forall_forall in H. specialize (H (Z.to_nat a) ltac:(apply elem_of_seq; lia)).
  rewrite Z2Nat.id in H by lia. apply Is_true_eq_true in H. lia.
Qed.

Lemma wire_name_pos w : wire_name w → 0 < zlen w.
Proof. intros []; zlen_lia. Qed.

Lemma of_idx {A} (l1 l2 : list A) x st : of_option (idx (l1 ++ x :: l2) (zlen l1)) st = Ret x st.
Proof. by rewrite idx_middle. Qed.

(** dns_skip moves exactly over a name. *)
Lemma dns_skip_name w pre post st : wire_name w →
  zlen (pre ++ w ++ post) < 2147483648 →
  dns_skip (pre ++ w ++ post) (zlen (pre ++ w ++ post)) (zlen pre) st = Ret (zlen pre + zlen w) st.
Proof.
  intros Hw Hl. set (m := pre ++ w ++ post) in *.
  assert (∀ done w', m = done ++ w' ++ post → wire_name w' → ∃ n, Z.of_nat n ≤ zlen w' ∧
    loop_to (λ at_,
    if at_ <? zlen m then
      l <- of_option (idx m at_) ;;
      if l =? 0 then ret (Break (at_ + 1))
      else if Z.land l 192 =? 192 then ret (Break (at_ + 2))
      else ret (Continue (at_ + l + 1))
    else ret (Break (-1))) n (zlen done) st (zlen done + zlen w') st) as H.
  { intros done w' E Hw'. revert done E. induction Hw' as [|a b Ha|s rest Hs Hw' IH]; intros done E.
    - exists 0%nat. split; [zlen_lia|]. apply loop_to_break.
      replace (zlen done <? zlen m) with true by (rewrite E; zlen_lia).
      rewrite E. rewrite (bind_run _ _ _ _ _ (of_idx done post 0 st)). done.
    - exists 0%nat. split; [zlen_lia|]. apply loop_to_break.
      replace (zlen done <? zlen m) with true by (rewrite E; zlen_lia).
      rewrite E. rewrite (bind_run _ _ _ _ _ (of_idx done (b :: post) a st)).
      replace (a =? 0) with false by lia. by rewrite land192_pointer.
    - destruct (IH (done ++ zlen s :: s)) as (n & Hn & Hto); [rewrite E, <- !app_assoc; cbn [app]; by rewrite <- app_assoc|].
      exists (Datatypes.S n). split; [zlen_lia|].
      replace (zlen done + zlen (zlen s :: s ++ rest)) with (zlen (done ++ zlen s :: s) + zlen rest) by zlen_lia.
      eapply loop_to_next; [|exact Hto].
      replace (zlen done <? zlen m) with true by (rewrite E; zlen_lia).
      rewrite E. rewrite (bind_run _ _ _ _ _ (of_idx done ((s ++ rest) ++ post) (zlen s) st)).
      replace (zlen s =? 0) with false by lia. rewrite land192_label by lia. cbn [Z.eqb].
      unfold ret. do 2 f_equal. zlen_lia. }
  destruct (H pre w eq_refl Hw) as (n & Hn & Hto). apply (loop_to_run _ n); [exact Hto|].
  unfold m in Hl. rewrite !zlen_app in Hl. pose proof (zlen_nonneg pre). pose proof (zlen_nonneg post). lia.
Qed.

Lemma be16_run pre v post st : 0 ≤ v < 65536 → be16 (pre ++ be16_bytes v ++ post) (zlen pre) st = Ret v st.
Proof.
  intros Hv. unfold be16, be16_bytes. cbn [app].
  rewrite (bind_run _ _ _ _ _ (of_idx pre (v mod 256 :: post) (v / 256) st)).
  pose proof (of_idx (pre ++ [v / 256]) post (v mod 256) st) as E. rewrite <- app_assoc, zlen_app in E.
  rewrite (bind_run _ _ _ _ _ E). unfold ret. f_equal.
  pose proof (lor_add (v / 256) (v mod 256) 8) as El. rewrite Z.shiftl_mul_pow2 by lia.
  change (2 ^ 8) with 256 in *. rewrite El by lia. lia.
Qed.

Lemma be16_at m i v pre post st : m = pre ++ be16_bytes v ++ post → i = zlen pre → 0 ≤ v < 65536 →
  be16 m i st = Ret v st.
Proof. intros -> -> ?. by apply be16_run. Qed.

Lemma zlen_rr x : rr_ok x → zlen (rr_bytes x) = zlen (rr_name x) + 10 + zlen (rr_data x).
Proof. intros (_ & _ & Hf & _). unfold rr_bytes, be16_bytes. zlen_lia. Qed.

Lemma address_value b0 b1 b2 b3 : is_bytes [b0; b1; b2; b3] →
  Z.lor (Z.lor (Z.lor (Z.shiftl b0 24) (Z.shiftl b1 16)) (Z.shiftl b2 8)) b3
  = ((b0 * 256 + b1) * 256 + b2) * 256 + b3.
Proof.
  unfold is_bytes. rewrite !Forall_cons. intros (? & ? & ? & ? & _). rewrite !Z.shiftl_mul_pow2 by lia.
  change (2 ^ 24) with (2 ^ 8 * 2 ^ 16). change (2 ^ 16) with (2 ^ 8 * 2 ^ 8). rewrite !Z.mul_assoc.
  pose proof (lor_add (b0 * 2 ^ 8 * 2 ^ 8) (b1 * 2 ^ 8 * 2 ^ 8) 24) as E1.
  pose proof (lor_add b0 (b1 * 2 ^ 16) 24) as E2. pose proof (lor_add (b0 * 256 + b1) (b2 * 2 ^ 8) 16) as E3.
  pose proof (lor_add ((b0 * 256 + b1) * 256 + b2) b3 8) as E4.
  change (2 ^ 8) with 256 in *. change (2 ^ 16) with 65536 in *. change (2 ^ 24) with 16777216 in *.
  replace (b0 * 256 * 256 * 256) with (b0 * 16777216) by lia.
  replace (b1 * 256 * 256) with (b1 * 65536) by lia. rewrite E2 by lia.
  replace (b0 * 16777216 + b1 * 65536) with ((b0 * 256 + b1) * 65536) by lia. rewrite E3 by lia.
  replace ((b0 * 256 + b1) * 65536 + b2 * 256) with (((b0 * 256 + b1) * 256 + b2) * 256) by lia. by rewrite E4 by lia.
Qed.

Lemma answer_turn_run pre x post a an st : rr_ok x → 0 < zlen pre → a < an →
  zlen (pre ++ rr_bytes x ++ post) < 2147483648 →
  answer_turn (pre ++ rr_bytes x ++ post) (zlen (pre ++ rr_bytes x ++ post)) an (a, zlen pre) st =
  Ret (match rr_type x, rr_data x with
    | 1, [b0; b1; b2; b3] => Break (Some (((b0 * 256 + b1) * 256 + b2) * 256 + b3))
    | _, _ => Continue (a + 1, zlen (pre ++ rr_bytes x))
    end) st.
Proof.
  intros Hx Hpre Ha Hl. pose proof Hx as (Hn & Ht & Hf & Hd & Hb). pose proof (zlen_rr x Hx) as Hz.
  pose proof (wire_name_pos _ Hn) as Hnp. set (m := pre ++ rr_bytes x ++ post) in *.
  assert (zlen m = zlen pre + zlen (rr_name x) + 10 + zlen (rr_data x) + zlen post) as Hm
    by (unfold m; rewrite !zlen_app, Hz; lia).
  pose proof (zlen_nonneg post). pose proof (zlen_nonneg (rr_data x)).
  unfold answer_turn. replace ((a <? an) && (0 <? zlen pre) && (zlen pre + 10 <=? zlen m)) with true by lia.
  assert (m = pre ++ rr_name x ++ be16_bytes (rr_type x) ++ rr_fixed x ++ be16_bytes (zlen (rr_data x)) ++ rr_data x ++ post)
    as Em by (unfold m, rr_bytes; by rewrite <- !app_assoc).
  pose proof (dns_skip_name (rr_name x) pre (be16_bytes (rr_type x) ++ rr_fixed x ++ be16_bytes (zlen (rr_data x)) ++ rr_data x ++ post)
    st Hn) as Es. rewrite <- Em in Es. specialize (Es Hl). rewrite (bind_run _ _ _ _ _ Es). clear Es.
  set (p := zlen pre + zlen (rr_name x)).
  replace ((p <? 0) || (zlen m <? p + 10)) with false by lia.
  rewrite (bind_run _ _ _ _ _ (be16_at m p (rr_type x) (pre ++ rr_name x)
    (rr_fixed x ++ be16_bytes (zlen (rr_data x)) ++ rr_data x ++ post) st
    ltac:(rewrite Em, <- !app_assoc; done) ltac:(unfold p; zlen_lia) Ht)).
  rewrite (bind_run _ _ _ _ _ (be16_at m (p + 8) (zlen (rr_data x)) (pre ++ rr_name x ++ be16_bytes (rr_type x) ++ rr_fixed x)
    (rr_data x ++ post) st ltac:(rewrite Em, <- !app_assoc; done)
    ltac:(unfold p; rewrite !zlen_app, Hf; change (zlen (be16_bytes _)) with 2; lia) ltac:(lia))).
  cbn zeta. assert (zlen (pre ++ rr_bytes x) = p + 10 + zlen (rr_data x)) as Hend by (rewrite zlen_app, Hz; lia).
  destruct ((rr_type x =? 1) && (zlen (rr_data x) =? 4) && (p + 10 + 4 <=? zlen m)) eqn:Ec.
  - assert (rr_type x = 1) as -> by lia. assert (zlen (rr_data x) = 4) as Hd4 by lia.
    destruct (rr_data x) as [|b0 [|b1 [|b2 [|b3 [|]]]]]; try (exfalso; zlen_lia).
    assert (∀ l1 b l2 i, [b0; b1; b2; b3] = l1 ++ b :: l2 → i = zlen l1 → idx m (p + 10 + i) = Some b) as Hi.
    { intros l1 b l2 i E ->. rewrite Em, E.
      set (q := pre ++ rr_name x ++ be16_bytes (rr_type x) ++ rr_fixed x ++ be16_bytes (zlen (l1 ++ b :: l2))).
      replace (pre ++ _) with ((q ++ l1) ++ b :: (l2 ++ post)) by (unfold q; by rewrite <- !app_assoc, <- app_comm_cons).
      replace (p + 10 + zlen l1) with (zlen (q ++ l1)); [apply idx_middle|].
      unfold q, p. rewrite !zlen_app, Hf. change (zlen (be16_bytes _)) with 2. change (zlen (be16_bytes _)) with 2. lia. }
    rewrite <- (Z.add_0_r (p + 10)) at 1.
    rewrite (Hi [] b0 [b1; b2; b3] 0), (Hi [b0] b1 [b2; b3] 1), (Hi [b0; b1] b2 [b3] 2), (Hi [b0; b1; b2] b3 [] 3) by done.
    cbn [of_option]. rewrite !bind_ret. by rewrite address_value.
  - rewrite Hend. destruct (Z.eq_dec (rr_type x) 1) as [E1|E1].
    + rewrite E1 in *. destruct (rr_data x) as [|b0 [|b1 [|b2 [|b3 [|]]]]]; try done. exfalso.
      change (zlen [b0; b1; b2; b3]) with 4 in *. lia.
    + destruct (rr_type x) as [|[]|]; done.
Qed.

Lemma dns_answers_run l pre post st : Forall rr_ok l → 0 < zlen pre →
  zlen (pre ++ concat (map rr_bytes l) ++ post) < 2147483648 →
  dns_answers (pre ++ concat (map rr_bytes l) ++ post) (zlen (pre ++ concat (map rr_bytes l) ++ post))
    (zlen l) (zlen pre) st = Ret (first_address l) st.
Proof.
  intros Hl Hpre Hlen. set (m := pre ++ concat (map rr_bytes l) ++ post) in *. set (an := zlen l).
  assert (∀ done a l', Forall rr_ok l' → m = done ++ concat (map rr_bytes l') ++ post → a + zlen l' = an → 0 < zlen done →
    ∃ n, Z.of_nat n ≤ zlen l' ∧
    loop_to (answer_turn m (zlen m) an) n (a, zlen done) st (first_address l') st) as H.
  { intros done a l' Hok. revert done a. induction Hok as [|x l' Hx Hok IH]; intros done a Em Ha Hd.
    - exists 0%nat. split; [zlen_lia|]. apply loop_to_break. unfold answer_turn.
      change (zlen []) with 0 in Ha. by replace (a <? an) with false by lia.
    - cbn [map concat] in Em. rewrite <- app_assoc in Em.
      pose proof (answer_turn_run done x (concat (map rr_bytes l') ++ post) a an st Hx Hd ltac:(zlen_lia)) as Et.
      rewrite <- Em in Et. specialize (Et Hlen). cbn [first_address].
      assert (∃ n, Z.of_nat n ≤ zlen l' ∧
        loop_to (answer_turn m (zlen m) an) n (a + 1, zlen (done ++ rr_bytes x)) st (first_address l') st)
        as (n & Hn & Hto).
      { apply IH; [by rewrite <- app_assoc|zlen_lia|zlen_lia]. }
      destruct (rr_type x) as [|[]|]; try (exists (Datatypes.S n); split; [zlen_lia|]; by eapply loop_to_next).
      destruct (rr_data x) as [|b0 [|b1 [|b2 [|b3 [|]]]]];
        try (exists (Datatypes.S n); split; [zlen_lia|]; by eapply loop_to_next).
      exists 0%nat. split; [zlen_lia|]. by apply loop_to_break. }
  destruct (H pre 0 l Hl eq_refl eq_refl Hpre) as (n & Hn & Hto). apply (loop_to_run _ n); [exact Hto|].
  assert (zlen l ≤ zlen m); [|lia]. unfold m. rewrite !zlen_app.
  pose proof (zlen_nonneg pre). pose proof (zlen_nonneg post). cut (zlen l ≤ zlen (concat (map rr_bytes l))); [lia|].
  clear -Hl. induction Hl as [|x l Hx Hl IH]; [done|]. cbn [map concat]. pose proof (zlen_rr x Hx).
  destruct Hx as (Hn & _). apply wire_name_pos in Hn. pose proof (zlen_nonneg (rr_data x)). rewrite zlen_cons, zlen_app. lia.
Qed.
End wellformed.

(** * The question *)

Definition wire_labels (l : list bytes) : bytes := concat (map (λ s, zlen s :: s) l).
Definition label_ok (s : bytes) : Prop := s ≠ [] ∧ Forall (λ c, 0 < c < 256 ∧ c ≠ 46) s.
(** What fits: labels of at most 63 characters and 285 bytes up to the root. *)
Definition labels_fit (q : bytes) (l : list bytes) : bool :=
  forallb (λ s, zlen s <=? 63) l && ((zlen q + zlen (wire_labels l) <=? 285) || bool_decide (l = [])).

Lemma label_ok_pos s : label_ok s → 0 < zlen s.
Proof. intros [Hne _]. destruct s; [done|]. zlen_lia. Qed.

Lemma wire_labels_cons s l : wire_labels (s :: l) = (zlen s :: s) ++ wire_labels l.
Proof. done. Qed.

Lemma labels_fit_cons q s l : 0 < zlen s →
  labels_fit q (s :: l) =
  negb ((63 <? zlen s) || (290 <? zlen q + zlen s + 6)) && labels_fit (q ++ zlen s :: s) l.
Proof.
  intros Hs. unfold labels_fit. cbn [forallb]. rewrite (bool_decide_eq_false_2 (s :: l = [])) by done.
  rewrite wire_labels_cons, !zlen_app, !zlen_cons. pose proof (zlen_nonneg (wire_labels l)).
  destruct (forallb _ l); rewrite ?andb_false_r; [|done]. cbn [andb].
  destruct (decide (l = [])) as [->|Hne].
  - rewrite (bool_decide_eq_true_2 (@nil bytes = [])) by done. change (zlen (wire_labels [])) with 0. lia.
  - rewrite (bool_decide_eq_false_2 (l = [])) by done. lia.
Qed.

Lemma wire_labels_name l : Forall label_ok l → forallb (λ s, zlen s <=? 63) l = true → wire_name (wire_labels l ++ [0]).
Proof.
  intros H. induction H as [|s l Hs Hl IH]; [intros _; apply wire_root|]. cbn [forallb].
  intros [H1 H2]%andb_true_iff. rewrite wire_labels_cons. cbn [app]. rewrite <- app_assoc. apply wire_label; [|by apply IH].
  apply label_ok_pos in Hs. lia.
Qed.

Lemma index_of_dot s rest : Forall (λ c, 0 < c < 256 ∧ c ≠ 46) s →
  index_of (Z.eqb 46) (s ++ 46 :: rest) = Some (zlen s).
Proof.
  intros H. apply index_of_Some. exists s, 46, rest. split_and!; try done.
  eapply Forall_impl; [exact H|]. cbn beta. intros c ?. lia.
Qed.

Lemma index_of_no_dot s : Forall (λ c, 0 < c < 256 ∧ c ≠ 46) s → index_of (Z.eqb 46) s = None.
Proof.
  intros H. induction H as [|c s Hc Hs IH]; [done|]. cbn [index_of].
  replace (46 =? c) with false by lia. by rewrite IH.
Qed.

Section question.
Context {S : Type}.
Implicit Types (st : S).

Lemma label_turn_run pre s l q st : label_ok s →
  label_turn (pre ++ dots (s :: l)) (zlen pre, q) st =
  Ret (if (63 <? zlen s) || (290 <? zlen q + zlen s + 6) then Break None
       else Continue (zlen pre + zlen s + (if bool_decide (l = []) then 0 else 1), q ++ zlen s :: s)) st.
Proof.
  intros Hs. pose proof (label_ok_pos _ Hs) as Hpos. destruct Hs as [Hne Hs].
  set (name := pre ++ dots (s :: l)). set (tl := match l with [] => [] | _ => 46 :: dots l end).
  assert (dots (s :: l) = s ++ tl) as Edots by (unfold tl; destruct l; [by rewrite app_nil_r|done]).
  assert (name = pre ++ s ++ tl) as En by (unfold name; by rewrite Edots).
  assert (zlen name = zlen pre + zlen s + zlen tl) as Hzl by (rewrite En, !zlen_app; lia).
  pose proof (zlen_nonneg pre). pose proof (zlen_nonneg tl).
  unfold label_turn. rewrite (bind_run _ _ _ _ _ (chr_run name (zlen pre) st ltac:(lia))).
  assert (chrv name (zlen pre) = hd 0 (s ++ tl)) as -> by (rewrite En; apply chrv_app_r).
  assert (0 < hd 0 (s ++ tl)) as Hhd by (destruct Hs; [done|]; cbn [app hd]; lia).
  replace (hd 0 (s ++ tl) =? 0) with false by lia. cbn zeta.
  assert (match index_of (Z.eqb 46) (dropZ (zlen pre) name) with Some d => d | None => zlen name - zlen pre end = zlen s) as ->.
  { rewrite En, dropZ_app_zlen. unfold tl. destruct l as [|s2 l].
    - rewrite app_nil_r, index_of_no_dot by done. rewrite zlen_app. lia.
    - by rewrite index_of_dot. }
  replace (zlen s <=? 0) with false by lia. cbn [orb].
  destruct ((63 <? zlen s) || (290 <? zlen q + zlen s + 6)) eqn:Ec; [done|].
  rewrite u8_id by lia. rewrite (bind_run _ _ _ _ _ (push_run 300 q (zlen s) st ltac:(lia))).
  rewrite (bind_run _ _ _ _ _ (peek_run (zlen pre) (zlen s) name st ltac:(lia) ltac:(lia) ltac:(lia))).
  assert (sliceZ (zlen pre) (zlen s) name = s) as ->.
  { unfold sliceZ. by rewrite En, dropZ_app_zlen, takeZ_app_zlen. }
  unfold append. replace (zlen (q ++ [zlen s]) + zlen s <=? 300) with true by zlen_lia. rewrite bind_ret.
  rewrite (bind_run _ _ _ _ _ (chr_run name (zlen pre + zlen s) st ltac:(lia))).
  assert (chrv name (zlen pre + zlen s) = hd 0 tl) as ->.
  { rewrite En, app_assoc, <- zlen_app. apply chrv_app_r. }
  rewrite <- app_assoc. unfold tl. unfold ret. destruct l as [|s2 l]; cbn [hd].
  - rewrite bool_decide_eq_true_2 by done. cbn [Z.eqb app]. do 3 f_equal. lia.
  - rewrite bool_decide_eq_false_2 by done. done.
Qed.

Lemma dns_labels_run l q st : Forall label_ok l → zlen (dots l) < 2147483648 →
  dns_labels (dots l) q st = Ret (if labels_fit q l then Some (q ++ wire_labels l) else None) st.
Proof.
  intros Hl Hlen. set (name := dots l) in *.
  assert (∀ pre q, name = pre ++ dots l → ∃ n, Z.of_nat n ≤ zlen (dots l) ∧
    loop_to (label_turn name) n (zlen pre, q) st (if labels_fit q l then Some (q ++ wire_labels l) else None) st) as H.
  { clearbody name. clear Hlen. induction Hl as [|s l Hs Hl IH]; intros pre q' E.
    - exists 0%nat. split; [done|]. apply loop_to_break. unfold label_turn. cbn [dots] in E.
      rewrite app_nil_r in E. subst pre. rewrite (bind_run _ _ _ _ _ (chr_run name (zlen name) st ltac:(zlen_lia))).
      unfold chrv. rewrite (idx_None name (zlen name)) by lia. cbn [default from_option id]. rewrite Z.eqb_refl.
      unfold labels_fit. cbn [forallb andb]. rewrite bool_decide_eq_true_2, orb_true_r by done.
      unfold wire_labels. cbn [map concat]. by rewrite app_nil_r.
    - pose proof (label_turn_run pre s l q' st Hs) as Et. rewrite <- E in Et.
      pose proof (label_ok_pos _ Hs) as Hpos. rewrite labels_fit_cons by done.
      destruct ((63 <? zlen s) || (290 <? zlen q' + zlen s + 6)); cbn [negb andb].
      + exists 0%nat. split; [zlen_lia|]. by apply loop_to_break.
      + set (p' := pre ++ s ++ if bool_decide (l = []) then [] else [46]) in *.
        destruct (IH p' (q' ++ zlen s :: s)) as (n & Hn & Hto).
        { rewrite E. unfold p'. destruct l as [|s2 l].
          - rewrite bool_decide_eq_true_2 by done. cbn [dots]. by rewrite !app_nil_r.
          - rewrite bool_decide_eq_false_2 by done. change (dots (s :: s2 :: l)) with (s ++ 46 :: dots (s2 :: l)).
            by rewrite <- !app_assoc. }
        exists (Datatypes.S n). split.
        { destruct l as [|s2 l]; [cbn [dots] in *; change (zlen []) with 0 in Hn; lia|].
          change (dots (s :: s2 :: l)) with (s ++ 46 :: dots (s2 :: l)). zlen_lia. }
        rewrite wire_labels_cons, app_assoc. eapply loop_to_next; [|exact Hto]. rewrite Et.
        do 3 f_equal. unfold p'. rewrite !zlen_app. destruct (bool_decide (l = [])).
        * change (zlen []) with 0. lia.
        * change (zlen [46]) with 1. lia. }
  destruct (H [] q eq_refl) as (n & Hn & Hto). unfold name in Hlen. apply (loop_to_run _ n); [exact Hto|lia].
Qed.
End question.

(** * The theorems *)

Section statements.
Context {S : Type}.
Implicit Types (st : S).

(** C15: whatever bytes come back as a DNS reply, of any length and however
    malformed (truncated records, a compression pointer as the last byte, a
    record longer than the message), the resolver reaches a verdict: its loops
    end and it never reads a byte the reply did not have. *)
Theorem dns_reply_safe q r st (Hq : 2 ≤ zlen q) (Hr : is_bytes r) (Hl : zlen r < 2147483648) :
  ∃ v, dns_reply q r (zlen r) st = Ret v st.
Proof.
  unfold dns_reply. destruct (Z.ltb_spec (zlen r) 12); [by eexists|].
  destruct (idx_is_Some r 0 ltac:(lia)) as [r0 ->]. destruct (idx_is_Some r 1 ltac:(lia)) as [r1 ->].
  destruct (idx_is_Some r 3 ltac:(lia)) as [r3 ->].
  destruct (idx_is_Some q 0 ltac:(lia)) as [q0 ->]. destruct (idx_is_Some q 1 ltac:(lia)) as [q1 ->].
  cbn [of_option]. rewrite !bind_ret. destruct (negb (r0 =? q0)); [by eexists|].
  rewrite !bind_ret. destruct (negb (r1 =? q1)); [by eexists|].
  rewrite !bind_ret. destruct (negb (Z.land r3 15 =? 0)); [by eexists|].
  destruct (be16_total r 6 st ltac:(lia) ltac:(lia) Hr) as (an & Ean & ?).
  rewrite (bind_run _ _ _ _ _ Ean).
  destruct (dns_skip_total r (zlen r) 12 st Hr ltac:(lia) ltac:(lia) Hl) as (p & Ep & _).
  rewrite (bind_run _ _ _ _ _ Ep). destruct (p <? 0); [by eexists|].
  destruct (dns_answers_total r (zlen r) an (p + 4) st Hr ltac:(lia) Hl ltac:(lia)) as [ip Eip].
  rewrite (bind_run _ _ _ _ _ Eip). by eexists.
Qed.

(** C14: a well-formed reply is understood: with the query's id, no error code,
    one question and [an] answer records in any mixture of types, names spelled
    out or compressed, and anything behind them, the verdict is the address of
    the first A record, and to try again when there is none. *)
Theorem dns_reply_correct q0 q1 q fl rc qd (rest : bytes) qname qfixed (rrs : list rr) (extra : bytes) st
  (Hrc : Z.land rc 15 = 0) (Hqd : zlen qd = 2) (Hrest : zlen rest = 4) (Hqf : zlen qfixed = 4)
  (Hqname : wire_name qname) (Hrrs : Forall rr_ok rrs) (Han : zlen rrs < 65536) :
  let r := [q0; q1; fl; rc] ++ qd ++ be16_bytes (zlen rrs) ++ rest ++ qname ++ qfixed ++
           concat (map rr_bytes rrs) ++ extra in
  zlen r < 2147483648 →
  dns_reply (q0 :: q1 :: q) r (zlen r) st =
    Ret (match first_address rrs with Some ip => Found ip | None => Again end) st.
Proof.
  intros r Hl. set (l := concat (map rr_bytes rrs) ++ extra).
  assert (zlen r = 16 + zlen qname + zlen l) as Hz.
  { unfold r, l. rewrite !zlen_app, Hqd, Hrest, Hqf. change (zlen (be16_bytes _)) with 2.
    change (zlen [q0; q1; fl; rc]) with 4. lia. }
  pose proof (zlen_nonneg l). pose proof (wire_name_pos _ Hqname).
  unfold dns_reply. replace (zlen r <? 12) with false by lia. cbn iota.
  do 2 (rewrite (bind_run _ _ q0 _ st) by reflexivity). rewrite Z.eqb_refl. cbn [negb].
  do 2 (rewrite (bind_run _ _ q1 _ st) by reflexivity). rewrite Z.eqb_refl. cbn [negb].
  rewrite (bind_run _ _ rc _ st) by reflexivity. rewrite Hrc. cbn [Z.eqb negb].
  rewrite (bind_run _ _ _ _ _ (be16_at r 6 (zlen rrs) ([q0; q1; fl; rc] ++ qd) (rest ++ qname ++ qfixed ++ l) st
    ltac:(unfold r; by rewrite <- app_assoc) ltac:(zlen_lia) ltac:(zlen_lia))).
  set (header := [q0; q1; fl; rc] ++ qd ++ be16_bytes (zlen rrs) ++ rest).
  assert (zlen header = 12) as Hh by (unfold header; rewrite !zlen_app, Hqd, Hrest; done).
  assert (r = header ++ qname ++ (qfixed ++ l)) as Er by (unfold r, header; by rewrite <- !app_assoc).
  pose proof (dns_skip_name qname header (qfixed ++ l) st Hqname) as Es. rewrite <- Er, Hh in Es.
  rewrite (bind_run _ _ _ _ _ (Es Hl)). replace (12 + zlen qname <? 0) with false by lia.
  assert (r = (header ++ qname ++ qfixed) ++ concat (map rr_bytes rrs) ++ extra) as Er2
    by (rewrite Er; unfold l; by rewrite <- !app_assoc).
  pose proof (dns_answers_run rrs (header ++ qname ++ qfixed) extra st Hrrs) as Ea. rewrite <- Er2 in Ea.
  rewrite !zlen_app, Hh, Hqf in Ea. specialize (Ea ltac:(lia) Hl).
  replace (12 + zlen qname + 4) with (12 + (zlen qname + 4)) by lia.
  by rewrite (bind_run _ _ _ _ _ Ea).
Qed.

(** C17: the query for a name of labels: it is refused exactly when a label has
    more than 63 characters or the whole more than 272, before anything is
    written behind [q[300]]; otherwise it is the header, the labels with their
    lengths, the root and the question for an A record, and dns_skip, which
    walks replies, finds the end of the name the resolver wrote. *)
Theorem dns_question_correct id l st (Hl : Forall label_ok l) (Hne : l ≠ []) (Hlen : zlen (dots l) < 2147483648) :
  let header := [u8 (Z.shiftr id 8); u8 id; 1; 0; 0; 1; 0; 0; 0; 0; 0; 0] in
  let q := header ++ (wire_labels l ++ [0]) ++ [0; 1; 0; 1] in
  dns_question id (dots l) st =
    Ret (if forallb (λ s, zlen s <=? 63) l && (zlen (dots l) <=? 272) then Some q else None) st ∧
  (forallb (λ s, zlen s <=? 63) l && (zlen (dots l) <=? 272) = true → dns_skip q (zlen q) 12 st = Ret (zlen q - 4) st).
Proof.
  intros header q.
  assert (zlen (wire_labels l) = zlen (dots l) + 1) as Hw.
  { clear -Hl Hne. induction Hl as [|s l Hs Hl IH]; [done|]. rewrite wire_labels_cons.
    destruct l as [|s2 l]; [cbn [dots]; change (wire_labels []) with (@nil Z); zlen_lia|].
    change (dots (s :: s2 :: l)) with (s ++ 46 :: dots (s2 :: l)). specialize (IH ltac:(done)). zlen_lia. }
  pose proof (zlen_nonneg (dots l)). split.
  - unfold dns_question. rewrite (bind_run _ _ _ _ _ (dns_labels_run l _ st Hl Hlen)).
    unfold labels_fit. rewrite (bool_decide_eq_false_2 (l = [])), orb_false_r by done.
    change (zlen (_ ++ replicate 6 0)) with 12. rewrite Hw.
    destruct (forallb _ l); [|done]. cbn [andb].
    destruct (Z.leb_spec (12 + (zlen (dots l) + 1)) 285), (Z.leb_spec (zlen (dots l)) 272); try lia; [|done].
    unfold append. rewrite !zlen_app, Hw. change (zlen (replicate 6 0)) with 6. change (zlen [0; 0; 1; 0; 1]) with 5.
    change (zlen [u8 (Z.shiftr id 8); u8 id; 1; 0; 0; 1]) with 6.
    replace (6 + 6 + (zlen (dots l) + 1) + 5 <=? 300) with true by lia. rewrite bind_ret.
    unfold ret. do 2 f_equal. unfold q, header. by rewrite <- !app_assoc.
  - intros [Hf Hs]%andb_true_iff. pose proof (wire_labels_name l Hl Hf) as Hwn.
    pose proof (dns_skip_name (wire_labels l ++ [0]) header [0; 1; 0; 1] st Hwn) as Es. fold q in Es.
    assert (zlen q = 17 + zlen (wire_labels l)) as Hq.
    { unfold q. rewrite !zlen_app. change (zlen header) with 12. change (zlen [0]) with 1. change (zlen [0; 1; 0; 1]) with 4. lia. }
    specialize (Es ltac:(lia)). change (zlen header) with 12 in Es. rewrite Es. unfold ret. f_equal.
    rewrite Hq, zlen_app. change (zlen [0]) with 1. lia.
Qed.
End statements.

(** * Examples *)

Definition ex_labels : list bytes := [str "example"; str "com"].
Definition ex_query : bytes := [90; 107; 1; 0; 0; 1; 0; 0; 0; 0; 0; 0].
(** A CNAME and then an address, both names compressed. *)
Definition ex_records : list rr :=
  [Rr [192; 12] 5 [0; 1; 0; 0; 1; 44] (3 :: str "www" ++ [192; 12]);
   Rr [192; 41] 1 [0; 1; 0; 0; 1; 44] [93; 184; 216; 34]].
Definition ex_extra : bytes := [0; 0; 41; 2].

Lemma dns_reply_safe_witness :
  ∃ v, dns_reply ex_query (ex_query ++ [192]) (zlen (ex_query ++ [192])) tt = Ret v tt.
Proof. apply (dns_reply_safe ex_query (ex_query ++ [192]) tt); [done|apply is_bytes_b_sound; reflexivity|done]. Defined.

Lemma dns_reply_correct_witness (qname := wire_labels ex_labels ++ [0])
  (r := [90; 107; 129; 128] ++ [0; 1] ++ be16_bytes (zlen ex_records) ++ [0; 0; 0; 1] ++ qname ++ [0; 1; 0; 1] ++
        concat (map rr_bytes ex_records) ++ ex_extra) :
  dns_reply ex_query r (zlen r) tt = Ret (Found 1572395042) tt.
Proof.
  apply (dns_reply_correct 90 107 (dropZ 2 ex_query) 129 128 [0; 1] [0; 0; 0; 1] qname [0; 1; 0; 1]
    ex_records ex_extra tt); try reflexivity.
  - apply (wire_label (str "example")); [done|]. apply (wire_label (str "com")); [done|]. apply wire_root.
  - unfold ex_records. rewrite !Forall_cons. split_and!; [| |done]; (split; [by apply wire_pointer|]);
      (split; [done|]); (split; [reflexivity|]); (split; [reflexivity|apply is_bytes_b_sound; reflexivity]).
Defined.

Lemma dns_question_correct_witness
  (q := [90; 107; 1; 0; 0; 1; 0; 0; 0; 0; 0; 0] ++ (wire_labels ex_labels ++ [0]) ++ [0; 1; 0; 1]) :
  dns_question 23147 (str "example.com") tt = Ret (Some q) tt ∧
  (forallb (λ s, zlen s <=? 63) ex_labels && (zlen (dots ex_labels) <=? 272) = true →
    dns_skip q (zlen q) 12 tt = Ret (zlen q - 4) tt).
Proof.
  apply (dns_question_correct 23147 ex_labels tt); [|done|reflexivity].
  assert (∀ s, forallb (λ c, (0 <? c) && (c <? 256) && negb (c =? 46)) s = true → s ≠ [] → label_ok s) as Hok.
  { intros s Hs%Is_true_eq_left%forallb_True Hne. split; [done|]. eapply Forall_impl; [exact Hs|].
    cbn beta. intros c Hc%Is_true_eq_true. lia. }
  unfold ex_labels. rewrite !Forall_cons. split_and!; [by apply Hok|by apply Hok|done].
Defined.
