(* ===== verification/FdTable.v ===== *)
(** The descriptor table over a whole run of the program: rc_posix.c and
    rc_socket.c as one state machine.

    A [call] is one call of the POSIX or the socket layer with its arguments;
    [posix_step] runs one, on any kernel whatever it answers; the states a
    program can be in are those [rtc posix_step] reaches from the zeroed
    statics. *)
From S2P Require Import Prelude CMonad CBuffer Printf Kernel RcFs Ram RcFd RcNet RcSocket RcPosix RcDns.

(** * The invariant *)

(** A path fits its array with the terminator; a socket's flags are the two of
    rc_socket.c. *)
Definition entry_ok (e : fdent) : Prop :=
  zlen (fd_path e) ≤ 127 ∧ (fd_kind e = K_NET → 0 ≤ fd_flags e < 4).

Record table_ok {K} (p : posix K) : Prop := {
  t_len : zlen (fdtab p) = FD_MAX;
  t_entries : Forall entry_ok (fdtab p);
  t_console : fdtab_inited p = true →
    ∀ fd e, 0 ≤ fd < 3 → idx (fdtab p) fd = Some e → fd_kind e ≠ K_FREE;
}.

Section table.
Context {K : Type} `{!Kernel K}.
Implicit Types (p : posix K) (e : fdent).

Lemma table_start (w : K) : table_ok (posix_start w).
Proof.
  split; [done| |done]. apply Forall_replicate. by split.
Qed.

Lemma table_set_fdtab p fd e : table_ok p → 0 ≤ fd < FD_MAX → entry_ok e →
  (fd < 3 → fdtab_inited p = true → fd_kind e ≠ K_FREE) → table_ok (set_fdtab (<[Z.to_nat fd := e]> (fdtab p)) p).
Proof.
  intros [Hl He Hc] Hfd Ho Hk. split; simpl.
  - unfold zlen in *. by rewrite length_insert.
  - by apply Forall_insert.
  - intros Hi j e' Hj E. unfold idx in E. rewrite decide_False in E by lia.
    destruct (decide (j = fd)) as [->|Hne].
    + rewrite list_lookup_insert_eq in E by (unfold zlen, FD_MAX in *; lia). injection E as <-. by apply Hk; [lia|].
    + rewrite list_lookup_insert_ne in E by lia. apply (Hc Hi j); [done|]. unfold idx. by rewrite decide_False by lia.
Qed.

Lemma keeps_sys {A} (c : M K A) : keeps table_ok (sys c) (λ _, True).
Proof.
  intros p [Hl He Hc]. unfold sys, zoom. simpl. by destruct (c (world p)).
Qed.

Lemma keeps_set_errno x : keeps table_ok (set_errno (K := K) x) (λ _, True).
Proof. apply keeps_modify. intros p [Hl He Hc]. by split. Qed.

Lemma keeps_fail x : keeps table_ok (fail (K := K) x) (λ r, r = -1).
Proof. eapply keeps_bind; [apply keeps_set_errno|]. intros _ _. by apply keeps_ret. Qed.

Lemma keeps_fd_load fd : keeps table_ok (fd_load (K := K) fd) entry_ok.
Proof.
  intros p Hp. unfold fd_load, bind, get. destruct (idx (fdtab p) fd) as [e|] eqn:E; [|done].
  split; [done|]. apply (idx_Forall _ _ _ _ (t_entries p Hp) E).
Qed.

(** [fdtab[fd] = e]: the console's descriptors stay open. *)
Lemma keeps_fd_store fd e : entry_ok e → (fd < 3 → fd_kind e ≠ K_FREE) →
  keeps table_ok (fd_store (K := K) fd e) (λ _, True).
Proof.
  intros He Hk p Hp. unfold fd_store, bind, get. pose proof (t_len p Hp). unfold upd.
  case_decide; [|done]. split; [|done]. apply table_set_fdtab; [done|lia|done|auto].
Qed.

Lemma keeps_fd_update (f : fdent → fdent) fd : (∀ e, entry_ok e → entry_ok (f e)) → (∀ e, fd_kind (f e) = fd_kind e) →
  keeps table_ok (e <- fd_load (K := K) fd ;; fd_store fd (f e)) (λ _, True).
Proof.
  intros Hf Hk p Hp. unfold fd_load, fd_store, bind, get. destruct (idx (fdtab p) fd) as [e|] eqn:E; [|done].
  simpl. unfold get. pose proof (idx_Some_range _ _ _ E). rewrite upd_Some by done. split; [|done].
  pose proof (t_len p Hp). apply table_set_fdtab; [done|lia| |].
  - apply Hf. apply (idx_Forall _ _ _ _ (t_entries p Hp) E).
  - intros H3 Hi. rewrite Hk. apply (t_console p Hp Hi fd); [lia|done].
Qed.

Lemma keeps_fd_set_off fd off : keeps table_ok (fd_set_off (K := K) fd off) (λ _, True).
Proof. by apply keeps_fd_update. Qed.

Lemma keeps_fd_set_flags fd flags : 0 ≤ flags < 4 → keeps table_ok (fd_set_flags (K := K) fd flags) (λ _, True).
Proof. intros. apply keeps_fd_update; [|done]. intros e []. by split. Qed.

Lemma keeps_fd_set_kind k fd : k = K_CONSOLE ∨ (k = K_FREE ∧ 3 ≤ fd) → keeps table_ok (fd_set_kind (K := K) k fd) (λ _, True).
Proof.
  intros Hk. eapply keeps_bind; [apply keeps_fd_load|]. intros e [He Hn]. apply keeps_fd_store.
  - split; [done|]. simpl. by destruct Hk as [-> | [-> _]].
  - simpl. destruct Hk as [-> | [-> ?]]; [done|lia].
Qed.

(** Setting up opens the three console descriptors before [inited]. *)
Lemma keeps_fd_init : keeps table_ok (fd_init (K := K)) (λ _, True).
Proof.
  intros p Hp. destruct (fdtab_inited p) eqn:Ei; [by rewrite fd_init_run|].
  assert (∀ (q : posix K) fd e, table_ok q → fdtab_inited q = false → 0 ≤ fd < 3 → idx (fdtab q) fd = Some e →
    let q' := fd_upd fd (with_kind K_CONSOLE e) q in table_ok q' ∧ fdtab_inited q' = false) as Hset.
  { intros q fd e Hq Hi Hfd E. split; [|done]. pose proof (idx_Forall _ _ _ _ (t_entries q Hq) E) as [He _].
    apply table_set_fdtab; [done|unfold FD_MAX; lia|by split|done]. }
  pose proof (t_len p Hp) as Hl. unfold FD_MAX in Hl.
  destruct (idx_is_Some (fdtab p) 2 ltac:(lia)) as [e2 E2]. destruct (Hset p 2 e2 Hp Ei ltac:(lia) E2) as [Hp1 Hi1].
  set (p1 := fd_upd 2 (with_kind K_CONSOLE e2) p) in *. pose proof (t_len p1 Hp1) as Hl1. unfold FD_MAX in Hl1.
  destruct (idx_is_Some (fdtab p1) 1 ltac:(lia)) as [e1 E1]. destruct (Hset p1 1 e1 Hp1 Hi1 ltac:(lia) E1) as [Hp2 Hi2].
  set (p2 := fd_upd 1 (with_kind K_CONSOLE e1) p1) in *. pose proof (t_len p2 Hp2) as Hl2. unfold FD_MAX in Hl2.
  destruct (idx_is_Some (fdtab p2) 0 ltac:(lia)) as [e0 E0]. destruct (Hset p2 0 e0 Hp2 Hi2 ltac:(lia) E0) as [Hp3 Hi3].
  set (p3 := fd_upd 0 (with_kind K_CONSOLE e0) p2) in *.
  assert (fd_init p = Ret tt (set_inited true p3)) as ->.
  { unfold fd_init. rewrite (bind_run _ _ p _ p) by done. rewrite Ei.
    rewrite (bind_run _ _ _ _ _ (fd_set_kind_run p 2 e2 K_CONSOLE E2)).
    rewrite (bind_run _ _ _ _ _ (fd_set_kind_run p1 1 e1 K_CONSOLE E1)).
    by rewrite (bind_run _ _ _ _ _ (fd_set_kind_run p2 0 e0 K_CONSOLE E0)). }
  split; [|done]. split; [by destruct Hp3|by destruct Hp3|].
  intros _ fd e Hfd. change (fdtab (set_inited true p3)) with (fdtab p3).
  unfold p3. rewrite (idx_fd_upd p2) by lia. unfold p2. rewrite (idx_fd_upd p1) by lia.
  unfold p1. rewrite (idx_fd_upd p) by lia.
  assert (fd = 0 ∨ fd = 1 ∨ fd = 2) as [-> | [-> | ->]] by lia; simpl; by intros [= <-].
Qed.

Lemma keeps_fd_open fd : keeps table_ok (fd_open (K := K) fd)
  (λ o, ∀ e, o = Some e → entry_ok e ∧ fd_kind e ≠ K_FREE).
Proof.
  unfold fd_open. destruct (_ || _); [by apply keeps_ret|].
  eapply keeps_bind; [apply keeps_fd_load|]. intros e He. apply keeps_ret. intros e'. case_decide; [done|].
  by intros [= <-].
Qed.

Lemma keeps_fd_of_kind k fd : keeps table_ok (fd_of_kind (K := K) k fd)
  (λ o, ∀ e, o = Some e → entry_ok e ∧ fd_kind e = k).
Proof.
  unfold fd_of_kind. destruct (_ || _); [by apply keeps_ret|].
  eapply keeps_bind; [apply keeps_fd_load|]. intros e He. apply keeps_ret. intros e'. case_decide; [|done].
  by intros [= <-].
Qed.

Lemma keeps_fd_alloc : keeps table_ok (fd_alloc (K := K)) (λ fd, fd < 0 ∨ 3 ≤ fd < FD_MAX).
Proof.
  eapply keeps_bind; [apply keeps_fd_init|]. intros _ _.
  apply (keeps_loop _ _ (λ i, 3 ≤ i)); [|lia]. intros i Hi. destruct (Z.ltb_spec i FD_MAX).
  - eapply keeps_bind; [apply keeps_fd_load|]. intros e _. case_decide; apply keeps_ret; [right; lia|lia].
  - eapply keeps_bind; [apply keeps_fail|]. intros r ->. apply keeps_ret. left. lia.
Qed.

Lemma entry_ok_file flags off path : entry_ok (Fdent K_FILE flags off (takeZ 127 path)).
Proof. split; [|done]. simpl. unfold zlen, takeZ. rewrite length_take. lia. Qed.

Lemma keeps_new_net dir flags : 0 ≤ flags < 4 → keeps table_ok (__rc_fd_new_net (K := K) dir flags) (λ _, True).
Proof.
  intros Hf. eapply keeps_bind; [apply keeps_fd_alloc|]. intros fd Hfd. destruct (fd <? 0); [by apply keeps_ret|].
  eapply keeps_bind; [apply keeps_fd_store|]; [|done|intros; by apply keeps_ret].
  split; [|done]. simpl. unfold zlen, takeZ. rewrite length_take. lia.
Qed.

Lemma keeps_net_dir fd : keeps table_ok (__rc_fd_net_dir (K := K) fd)
  (λ o, ∀ e, o = Some e → entry_ok e ∧ fd_kind e = K_NET).
Proof. eapply keeps_bind; [apply keeps_fd_init|]. intros _ _. apply keeps_fd_of_kind. Qed.
End table.

(** * The state machine *)

Inductive posix_call :=
  | c_chdir (path : bytes)
  | c_getcwd (size : Z)
  | c_open (path : bytes) (flags : Z)
  | c_creat (path : bytes)
  | c_close (fd : Z)
  | c_read (fd count : Z)
  | c_write (fd : Z) (buf : bytes) (count : Z)
  | c_lseek (fd offset whence : Z)
  | c_dup (fd : Z)
  | c_dup2 (oldfd newfd : Z)
  | c_fcntl (fd cmd : Z)
  | c_isatty (fd : Z)
  | c_stat (path : bytes)
  | c_fstat (fd : Z)
  | c_mkdir (path : bytes)
  | c_unlink (path : bytes)
  | c_rmdir (path : bytes)
  | c_rename (oldp newp : bytes)
  | c_access (path : bytes)
  | c_opendir (path : bytes)
  | c_readdir (d : option dirstream)
  | c_closedir (d : dirstream)
  | c_realpath (path : bytes) (resolved : bool)
  | c_ftruncate (fd length : Z)
  | c_truncate (path : bytes) (length : Z)
  | c_usleep (usec : Z)
  | c_sleep (sec : Z)
  | c_poll (fds : list pollfd) (timeout : Z)
  | c_pread (fd count off : Z)
  | c_pwrite (fd : Z) (buf : bytes) (count off : Z)
  | c_fchmod (fd mode : Z)
  | c_readlink (path : bytes)
  | c_symlink (target path : bytes)
  | c_link (oldp newp : bytes)
  | c_chown (path : bytes) (uid gid : Z)
  | c_fchown (fd uid gid : Z)
  | c_utime (path : bytes)
  | c_mkstemp (tmpl : bytes)
  | c_mkdtemp (tmpl : bytes)
  | c_openat (dirfd : Z) (path : bytes) (flags : Z)
  | c_unlinkat (dirfd : Z) (path : bytes) (flags : Z)
  | c_fstatat (dirfd : Z) (path : bytes)
  | c_mkdirat (dirfd : Z) (path : bytes)
  | c_fdopendir (fd : Z)
  | c_dirfd (d : dirstream)
  | c_pathconf (path : bytes) (name : Z)
  | c_fpathconf (fd name : Z)
  | c_utimensat (dirfd : Z) (path : bytes)
  | c_futimens (fd : Z)
  | c_fchmodat (dirfd : Z) (path : bytes) (mode : Z)
  | c_socket (domain type : Z)
  | c_bind (fd : Z) (addr : bytes) (len : Z)
  | c_listen (fd : Z)
  | c_accept (fd : Z) (dst : option (bytes * Z))
  | c_connect (fd : Z) (addr : bytes) (len : Z)
  | c_send (fd : Z) (buf : bytes) (n : Z)
  | c_recv (fd n : Z)
  | c_sendto (fd : Z) (buf : bytes) (n : Z) (to : option bytes) (tolen : Z)
  | c_recvfrom (fd n : Z) (dst : option (bytes * Z))
  | c_shutdown (fd how : Z)
  | c_getsockopt (fd : Z) (val : bool) (len : option Z)
  | c_setsockopt (fd : Z)
  | c_getsockname (fd : Z) (dst : option (bytes * Z))
  | c_getpeername (fd : Z) (dst : option (bytes * Z))
  | c_getaddrinfo (node service : option bytes) (hints : option ai_hints)
  | c_gethostbyname (name : bytes).

Section machine.
Context {K : Type} `{!Kernel K} (junk : bytes) (fmt_fp : va_slot → Z → Z → Z → Z → bytes).

Definition run_call (c : posix_call) : M (posix K) unit :=
  match c with
  | c_chdir path => chdir path ;; ret tt
  | c_getcwd size => getcwd size ;; ret tt
  | c_open path flags => open junk path flags ;; ret tt
  | c_creat path => creat junk path ;; ret tt
  | c_close fd => close junk fd ;; ret tt
  | c_read fd count => read junk fd count ;; ret tt
  | c_write fd buf count => write junk fd buf count ;; ret tt
  | c_lseek fd offset whence => lseek junk fd offset whence ;; ret tt
  | c_dup fd => dup fd ;; ret tt
  | c_dup2 oldfd newfd => dup2 oldfd newfd ;; ret tt
  | c_fcntl fd cmd => fcntl fd cmd ;; ret tt
  | c_isatty fd => isatty fd ;; ret tt
  | c_stat path => stat junk path ;; ret tt
  | c_fstat fd => fstat junk fd ;; ret tt
  | c_mkdir path => mkdir junk path ;; ret tt
  | c_unlink path => unlink junk path ;; ret tt
  | c_rmdir path => rmdir junk path ;; ret tt
  | c_rename oldp newp => rename junk oldp newp ;; ret tt
  | c_access path => access junk path ;; ret tt
  | c_opendir path => opendir junk path ;; ret tt
  | c_readdir d => readdir d ;; ret tt
  | c_closedir d => closedir junk d ;; ret tt
  | c_realpath path resolved => realpath junk path resolved ;; ret tt
  | c_ftruncate fd length => ftruncate junk fd length ;; ret tt
  | c_truncate path length => truncate junk path length ;; ret tt
  | c_usleep usec => usleep usec ;; ret tt
  | c_sleep sec => sleep sec ;; ret tt
  | c_poll fds timeout => poll fds timeout ;; ret tt
  | c_pread fd count off => pread junk fd count off ;; ret tt
  | c_pwrite fd buf count off => pwrite junk fd buf count off ;; ret tt
  | c_fchmod fd mode => fchmod fd mode ;; ret tt
  | c_readlink path => readlink junk path ;; ret tt
  | c_symlink target path => symlink target path ;; ret tt
  | c_link oldp newp => link oldp newp ;; ret tt
  | c_chown path uid gid => chown junk path uid gid ;; ret tt
  | c_fchown fd uid gid => fchown junk fd uid gid ;; ret tt
  | c_utime path => utime junk path ;; ret tt
  | c_mkstemp tmpl => mkstemp junk tmpl ;; ret tt
  | c_mkdtemp tmpl => mkdtemp junk tmpl ;; ret tt
  | c_openat dirfd path flags => openat junk dirfd path flags ;; ret tt
  | c_unlinkat dirfd path flags => unlinkat junk dirfd path flags ;; ret tt
  | c_fstatat dirfd path => fstatat junk dirfd path ;; ret tt
  | c_mkdirat dirfd path => mkdirat junk dirfd path ;; ret tt
  | c_fdopendir fd => fdopendir junk fd ;; ret tt
  | c_dirfd d => dirfd d ;; ret tt
  | c_pathconf path name => pathconf junk path name ;; ret tt
  | c_fpathconf fd name => fpathconf junk fd name ;; ret tt
  | c_utimensat dirfd path => utimensat junk dirfd path ;; ret tt
  | c_futimens fd => futimens fd ;; ret tt
  | c_fchmodat dirfd path mode => fchmodat dirfd path mode ;; ret tt
  | c_socket domain type => socket junk fmt_fp domain type ;; ret tt
  | c_bind fd addr len => bind_ junk fmt_fp fd addr len ;; ret tt
  | c_listen fd => listen junk fmt_fp fd ;; ret tt
  | c_accept fd dst => accept junk fmt_fp fd dst ;; ret tt
  | c_connect fd addr len => connect junk fmt_fp fd addr len ;; ret tt
  | c_send fd buf n => send junk fd buf n ;; ret tt
  | c_recv fd n => recv junk fd n ;; ret tt
  | c_sendto fd buf n to tolen => sendto junk fd buf n to tolen ;; ret tt
  | c_recvfrom fd n dst => recvfrom junk fd n dst ;; ret tt
  | c_shutdown fd how => shutdown junk fd how ;; ret tt
  | c_getsockopt fd val len => getsockopt fd val len ;; ret tt
  | c_setsockopt fd => setsockopt fd ;; ret tt
  | c_getsockname fd dst => getsockname junk fd dst ;; ret tt
  | c_getpeername fd dst => getpeername junk fd dst ;; ret tt
  | c_getaddrinfo node service hints => getaddrinfo junk fmt_fp node service hints ;; ret tt
  | c_gethostbyname name => gethostbyname junk fmt_fp name ;; ret tt
  end.

(** One call that returned. *)
Definition posix_step (p p' : posix K) : Prop := ∃ c, run_call c p = Ret tt p'.
End machine.

(** * Every call *)

#[export] Hint Resolve keeps_sys keeps_set_errno keeps_fail keeps_fd_load keeps_fd_set_off keeps_fd_init
  keeps_fd_open keeps_fd_of_kind keeps_fd_alloc keeps_net_dir keeps_of_option keeps_gets : rc.

Lemma keeps_any {S A} (I : S → Prop) (c : M S A) (Q : A → Prop) : keeps I c Q → keeps I c (λ _, True).
Proof. intros H. by eapply keeps_mono. Qed.

(** Walks through a function: [ret], [bind], loops, case distinctions and known
    calls; anything else is unfolded.  It stops at stores into the table. *)
Ltac kp_known := solve [simple eapply keeps_any; eauto 1 with rc | eauto 1 with rc].
Ltac head_of c := lazymatch c with ?f _ => head_of f | _ => c end.
Ltac kp :=
  cbn beta iota zeta;
  lazymatch goal with
  | |- keeps _ (ret _) _ => apply keeps_ret; try done
  | |- keeps _ fault _ => apply keeps_fault
  | |- keeps _ (if ?b then _ else _) _ => destruct b eqn:?; kp
  | |- keeps _ (match ?x with _ => _ end) _ => destruct x eqn:?; kp
  | |- keeps _ (bind get _) _ => eapply keeps_bind; [apply keeps_get|intros ? ?; kp]
  | |- keeps _ (bind _ _) _ =>
      first [ eapply keeps_bind; [solve [eauto 1 with rc]|intros ? ?; kp]
            | apply (keeps_bind _ _ _ (λ _, True)); [kp|intros ? _; kp] ]
  | |- keeps _ (loop _ _) _ => apply (keeps_loop _ _ (λ _, True)); [intros ? _; kp|done]
  | |- keeps _ (fd_store _ _) _ => idtac
  | |- keeps _ (fd_set_flags _ _) _ => idtac
  | |- keeps _ (fd_set_kind _ _) _ => idtac
  | |- keeps _ (put _) _ => idtac
  | |- keeps _ ?c _ =>
      first [ kp_known
            | let h := head_of c in unfold h; kp ]
  end.

Section helpers.
Context {S : Type} (I : S → Prop) (fmt_fp : va_slot → Z → Z → Z → Z → bytes).

Lemma keeps_chr s i : keeps I (chr s i) (λ _, True).
Proof using. unfold chr. case_decide; [by apply keeps_ret|]. eapply keeps_any, keeps_of_option. Qed.

Lemma keeps_peek i n buf : keeps I (peek i n buf) (λ _, True).
Proof using. unfold peek. by kp. Qed.

Lemma keeps_sprintf_in cap fmt ap : keeps I (sprintf_in (S := S) fmt_fp cap fmt ap) (λ _, True).
Proof using.
  apply (keeps_bind _ _ _ (λ _, True)).
  - intros s Hs. unfold sprintf, vsprintf. destruct (format_str _ _ _ _); try done. by destruct (_ =? _).
  - intros [[r b] st] _. destruct (_ <=? _); [by apply keeps_ret|done].
Qed.
End helpers.
#[export] Hint Resolve keeps_chr keeps_peek keeps_sprintf_in : rc.

Section files.
Context {K : Type} `{!Kernel K} (junk : bytes).

Lemma keeps_net_close fd : keeps table_ok (__rc_net_close (K := K) junk fd) (λ _, True).
Proof using. kp. Qed.

Lemma keeps_close fd : keeps table_ok (close (K := K) junk fd) (λ _, True).
Proof using.
  unfold close. kp. apply keeps_fd_set_kind. right. split; [done|lia].
Qed.

Lemma keeps_open path flags : keeps table_ok (open (K := K) junk path flags) (λ _, True).
Proof using. unfold open. kp. all: apply keeps_fd_store; [apply entry_ok_file|done]. Qed.
End files.

Lemma net_entry_ok flags off dir : 0 ≤ flags < 4 → entry_ok (Fdent K_NET flags off (takeZ 127 dir)).
Proof. intros Hf. split; [|done]. simpl. unfold zlen, takeZ. rewrite length_take. lia. Qed.

Lemma headers_ok flags : 0 ≤ flags < 4 → 0 ≤ Z.lor flags NETF_HEADERS < 4.
Proof.
  intros Hf. assert (flags = 0 ∨ flags = 1 ∨ flags = 2 ∨ flags = 3) as [-> | [-> | [-> | ->]]] by lia; done.
Qed.
#[export] Hint Resolve keeps_close keeps_open keeps_net_close : rc.

Section machine_ok.
Context {K : Type} `{!Kernel K}.

Lemma keeps_tmp_seed : keeps (table_ok (K := K)) rc_tmp_seed (λ _, True).
Proof using. unfold rc_tmp_seed. kp. apply keeps_put. match goal with Hq : table_ok _ |- _ => destruct Hq end. by split. Qed.

Lemma keeps_sock fd : keeps (table_ok (K := K)) (sock fd) (λ o, ∀ e, o = Some e → entry_ok e ∧ fd_kind e = K_NET).
Proof using.
  eapply keeps_bind; [apply keeps_net_dir|]. intros [e|] He; [by apply keeps_ret|].
  eapply keeps_bind; [apply keeps_set_errno|]. intros _ _. by apply keeps_ret.
Qed.

Lemma keeps_poll_scan fds ready : keeps (table_ok (K := K)) (poll_scan fds ready) (λ _, True).
Proof using. induction fds as [|f fds IH]; cbn [poll_scan]; kp. Qed.

End machine_ok.
#[export] Hint Resolve keeps_tmp_seed keeps_sock keeps_poll_scan : rc.

Section reachable.
Context {K : Type} `{!Kernel K} (junk : bytes) (fmt_fp : va_slot → Z → Z → Z → Z → bytes).

Lemma keeps_call c : keeps (table_ok (K := K)) (run_call junk fmt_fp c) (λ _, True).
Proof using.
  destruct c; cbn [run_call]; (apply (keeps_bind _ _ _ (λ _, True)); [|intros; by apply keeps_ret]).
  all: try kp.
  (* what is left are the stores *)
  all: try (match goal with Ho : ∀ e, Some ?f = Some e → _ |- _ => destruct (Ho f eq_refl) as [He Hk] end).
  all: first [ by apply keeps_fd_store
             | apply keeps_fd_set_flags, headers_ok; destruct He as [_ He]; by apply He
             | apply keeps_fd_store; [|done]; apply net_entry_ok; unfold NETF_TCP; repeat case_match; lia ].
Qed.

Fixpoint run_calls (l : list posix_call) : M (posix K) unit :=
  match l with
  | [] => ret tt
  | c :: l => run_call junk fmt_fp c ;; run_calls l
  end.

Lemma run_calls_rtc l p p' : run_calls l p = Ret tt p' → rtc (posix_step junk fmt_fp) p p'.
Proof using.
  revert p. induction l as [|c l IH]; intros p; cbn [run_calls]; [intros [= ->]; apply rtc_refl|].
  intros ([] & q & E & E')%bind_Ret_inv. eapply rtc_l; [by exists c|]. by apply IH.
Qed.

(** C8: the descriptor table is sound in every state a program can reach from
    its start by any sequence of calls of the POSIX and socket layers with any
    arguments, on a kernel that may answer anything: it has its 64 entries, the
    console's three are never handed out or freed, every stored path fits its
    128 bytes with the terminator, and a socket's flags are only the two bits
    rc_socket.c knows. *)
Theorem reachable_table_ok (w : K) (p : posix K)
  (Hp : rtc (posix_step junk fmt_fp) (posix_start w) p) : table_ok p.
Proof using.
  assert (∀ q q', rtc (posix_step junk fmt_fp) q q' → table_ok q → table_ok q') as Hrun.
  { induction 1 as [q|q q' q'' (c & E) _ IH]; [done|]. intros Hq. apply IH.
    pose proof (keeps_call c q Hq) as Hk. rewrite E in Hk. by destruct Hk. }
  exact (Hrun _ _ Hp (table_start w)).
Qed.
End reachable.

(** Opening two files and dup2 of one over the other. *)
Definition ex_start : posix ram := posix_start (ex_ram (str "/f") (str "hello")).
Definition ex_calls : list posix_call :=
  [c_open (str "/f") 0; c_open (str "/f") O_RDWR; c_dup2 3 4; c_read 4 3; c_close 3; c_close 1].
Definition ex_end : posix ram := out_state ex_start (run_calls ex_junk (λ _ _ _ _ _, []) ex_calls ex_start).

Lemma reachable_table_ok_witness : rtc (posix_step ex_junk (λ _ _ _ _ _, [])) ex_start ex_end ∧ table_ok ex_end.
Proof.
  assert (rtc (posix_step ex_junk (λ _ _ _ _ _, [])) ex_start ex_end) as H.
  { apply (run_calls_rtc _ _ ex_calls). vm_compute. reflexivity. }
  split; [exact H|]. apply (reachable_table_ok ex_junk (λ _ _ _ _ _, []) (ex_ram (str "/f") (str "hello")) ex_end H).
Defined.
