(* ===== verification/Stdio.v ===== *)
(** Buffered streams: src/lib/racccoon-libc/src/stdio.c, and the stream members of
    the printf family in printf.c.

    A function on one open stream runs on [stream K]: the POSIX layer's state
    and the [FILE] it is given.  A function that makes, ends or looks up streams
    runs on [stdio K], the table of open streams by handle ([on h] runs a stream
    function there; a freed or unknown handle is a [Fault]).  The handles 1, 2
    and 3 are stdin, stdout and stderr.  The buffer is its full contents, fresh
    memory holds [junk]; a buffer the caller fills is returned next to the
    result.  A memory stream's block and size variable are part of it. *)
From S2P Require Import Prelude CMonad CMemory CBuffer Kernel RcFs RcFd RcNet FileServer RcPosix CStdlib Printf.

Definition EOF : Z := -1.
Definition BUFSIZ : Z := 4096.
Definition L_tmpnam : Z := 32.
Definition _IOFBF : Z := 0.
Definition _IOLBF : Z := 1.
Definition _IONBF : Z := 2.

(** [ms_bufp], [ms_sizep], [ms_len], [ms_cap]: the block, the size reported, the
    bytes in it, its capacity *)
Record mstream := Mstream { ms_block : bytes; ms_size : Z; ms_len : Z; ms_cap : Z }.

(** [struct __FILE] *)
Record FILE := File {
  f_fd : Z;
  f_rmode : bool;
  f_wmode : bool;
  f_err : bool;
  f_eof : bool;
  f_bufmode : Z;
  f_owned : bool;
  f_buf : option bytes;
  f_cap : Z;
  f_rpos : Z;
  f_rlen : Z;
  f_wlen : Z;
  f_pos : Z;
  f_ungot : Z;
  f_ms : option mstream;
}.

Definition with_fd fd rd wr (f : FILE) : FILE :=
  File fd rd wr (f_err f) (f_eof f) (f_bufmode f) (f_owned f) (f_buf f) (f_cap f) (f_rpos f) (f_rlen f)
    (f_wlen f) (f_pos f) (f_ungot f) (f_ms f).
Definition with_err e (f : FILE) : FILE :=
  File (f_fd f) (f_rmode f) (f_wmode f) e (f_eof f) (f_bufmode f) (f_owned f) (f_buf f) (f_cap f) (f_rpos f)
    (f_rlen f) (f_wlen f) (f_pos f) (f_ungot f) (f_ms f).
Definition with_eof e (f : FILE) : FILE :=
  File (f_fd f) (f_rmode f) (f_wmode f) (f_err f) e (f_bufmode f) (f_owned f) (f_buf f) (f_cap f) (f_rpos f)
    (f_rlen f) (f_wlen f) (f_pos f) (f_ungot f) (f_ms f).
Definition with_bufmode m (f : FILE) : FILE :=
  File (f_fd f) (f_rmode f) (f_wmode f) (f_err f) (f_eof f) m (f_owned f) (f_buf f) (f_cap f) (f_rpos f)
    (f_rlen f) (f_wlen f) (f_pos f) (f_ungot f) (f_ms f).
(** buf_owned, buf and bufcap *)
Definition with_buf owned buf cap (f : FILE) : FILE :=
  File (f_fd f) (f_rmode f) (f_wmode f) (f_err f) (f_eof f) (f_bufmode f) owned buf cap (f_rpos f)
    (f_rlen f) (f_wlen f) (f_pos f) (f_ungot f) (f_ms f).
(** rpos and rlen *)
Definition with_read rpos rlen (f : FILE) : FILE :=
  File (f_fd f) (f_rmode f) (f_wmode f) (f_err f) (f_eof f) (f_bufmode f) (f_owned f) (f_buf f) (f_cap f)
    rpos rlen (f_wlen f) (f_pos f) (f_ungot f) (f_ms f).
Definition with_wlen wlen (f : FILE) : FILE :=
  File (f_fd f) (f_rmode f) (f_wmode f) (f_err f) (f_eof f) (f_bufmode f) (f_owned f) (f_buf f) (f_cap f)
    (f_rpos f) (f_rlen f) wlen (f_pos f) (f_ungot f) (f_ms f).
Definition with_pos pos (f : FILE) : FILE :=
  File (f_fd f) (f_rmode f) (f_wmode f) (f_err f) (f_eof f) (f_bufmode f) (f_owned f) (f_buf f) (f_cap f)
    (f_rpos f) (f_rlen f) (f_wlen f) pos (f_ungot f) (f_ms f).
Definition with_ungot c (f : FILE) : FILE :=
  File (f_fd f) (f_rmode f) (f_wmode f) (f_err f) (f_eof f) (f_bufmode f) (f_owned f) (f_buf f) (f_cap f)
    (f_rpos f) (f_rlen f) (f_wlen f) (f_pos f) c (f_ms f).
Definition with_ms ms (f : FILE) : FILE :=
  File (f_fd f) (f_rmode f) (f_wmode f) (f_err f) (f_eof f) (f_bufmode f) (f_owned f) (f_buf f) (f_cap f)
    (f_rpos f) (f_rlen f) (f_wlen f) (f_pos f) (f_ungot f) ms.

(** A new stream: zeroed but for what every stream sets. *)
Definition new_file fd rd wr bufmode ms : FILE :=
  File fd rd wr false false bufmode false None 0 0 0 0 0 (-1) ms.
Definition _stdin : FILE := new_file 0 true false _IOLBF None.
Definition _stdout : FILE := new_file 1 false true _IOLBF None.
Definition _stderr : FILE := new_file 2 false true _IONBF None.

(** A stream and the system below it. *)
Record stream (K : Type) := Stream { s_os : posix K; s_file : FILE }.
Arguments Stream {K}.
Arguments s_os {K}.
Arguments s_file {K}.

(** [parse_mode]: rd, wr, append, trunc, or -1 *)
Definition parse_mode (mode : bytes) : option (bool * bool * bool * bool) :=
  let plus := existsb (Z.eqb 43) (dropZ 1 mode) in
  match mode with
  | c :: _ =>
      if c =? 114 then Some (true, plus, false, false)
      else if c =? 119 then Some (plus, true, false, true)
      else if c =? 97 then Some (plus, true, true, false)
      else None
  | [] => None
  end.

Section stream.
Context {K : Type} `{!Kernel K} (junk : bytes).
Abbreviation F := (stream K).

Definition set_os (p : posix K) (s : F) : F := Stream p (s_file s).
Program Definition os_lens : lens F (posix K) := Lens _ _ s_os set_os _ _ _.
Next Obligation. done. Qed.
Next Obligation. by intros []. Qed.
Next Obligation. done. Qed.
Definition os {A} (c : M (posix K) A) : M F A := zoom os_lens c.

(** [f->x = v] *)
Definition fset (u : FILE → FILE) : M F unit := modify (λ s, Stream (s_os s) (u (s_file s))).
Definition the_file : M F FILE := gets s_file.

(** [n] bytes from malloc, or NULL *)
Definition malloc (n : Z) : M F (option bytes) :=
  ok <- os (sys (heap_alloc n)) ;;
  ret (if ok then Some (takeZ n (junk ++ replicate (Z.to_nat n) 0)) else None).
(** [realloc] of [old] to [n] bytes *)
Definition realloc (old : bytes) (n : Z) : M F (option bytes) :=
  b <- malloc n ;;
  ret (match b with Some b => Some (takeZ n (old ++ dropZ (zlen old) b)) | None => None end).

Definition ensure_buf : M F Z :=
  f <- the_file ;;
  match f_buf f with
  | Some _ => ret 0
  | None =>
      b <- malloc BUFSIZ ;;
      match b with
      | None => fset (with_err true) ;; os (set_errno ENOMEM) ;; ret (-1)
      | Some b => fset (with_buf true (Some b) BUFSIZ) ;; ret 0
      end
  end.

Definition ms_append (m : mstream) (src : bytes) (n : Z) : M F Z :=
  m <- (if ms_cap m <? u64 (ms_len m + n + 1) then
          nc <- loop (λ nc,
            if nc <? u64 (ms_len m + n + 1) then ret (Continue (u64 (nc * 2))) else ret (Break nc))
            (if ms_cap m =? 0 then 128 else u64 (ms_cap m * 2)) ;;
          nb <- realloc (ms_block m) nc ;;
          match nb with
          | None => ret None
          | Some nb => ret (Some (Mstream nb (ms_size m) (ms_len m) nc))
          end
        else ret (Some m)) ;;
  match m with
  | None => fset (with_err true) ;; os (set_errno ENOMEM) ;; ret EOF
  | Some m =>
      src <- peek 0 n src ;;
      b <- splice (ms_len m) src (ms_block m) ;;
      let len := u64 (ms_len m + n) in
      b <- splice len [0] b ;;
      fset (with_ms (Some (Mstream b len len (ms_cap m)))) ;; ret 0
  end.

(** The buffer as an argument: NULL is no object. *)
Definition the_buf : M F bytes := f <- the_file ;; of_option (f_buf f).
(** [f->pos += n], on [long] *)
Definition advance (n : Z) : M F unit :=
  f <- the_file ;;
  if decide (LLONG_MIN ≤ f_pos f + s64 n ≤ LLONG_MAX) then fset (with_pos (f_pos f + s64 n)) else fault.

(** [write(f->fd, f->buf + done, f->wlen - done)] until all is out; -1 on an error *)
Definition flush_loop : M F Z :=
  loop (λ done,
    f <- the_file ;;
    if done <? f_wlen f then
      buf <- the_buf ;;
      w <- os (write junk (f_fd f) (dropZ done buf) (f_wlen f - done)) ;;
      if w <=? 0 then fset (with_err true) ;; ret (Break EOF) else ret (Continue (done + w))
    else ret (Break 0)) 0.

Definition flush_write : M F Z :=
  f <- the_file ;;
  if f_wlen f =? 0 then ret 0
  else
    r <- (match f_ms f with
          | Some m => buf <- the_buf ;; ms_append m buf (f_wlen f)
          | None => flush_loop
          end) ;;
    if r =? EOF then ret EOF
    else advance (f_wlen f) ;; fset (with_wlen 0) ;; ret 0.

Definition drop_read : M F unit :=
  f <- the_file ;;
  (if f_rpos f <? f_rlen f then
     target <- (if decide (LLONG_MIN ≤ f_pos f + f_rpos f ≤ LLONG_MAX) then ret (f_pos f + f_rpos f) else fault) ;;
     os (lseek junk (f_fd f) target SEEK_SET) ;; ret tt
   else ret tt) ;;
  fset (with_read 0 0).

(** fflush on a stream *)
Definition fflush1 : M F Z := flush_write.

Definition refill : M F Z :=
  f <- the_file ;;
  (if negb (f_wlen f =? 0) then flush_write ;; ret tt else ret tt) ;;
  r <- ensure_buf ;;
  if r <? 0 then ret EOF
  else
    f <- the_file ;;
    advance (f_rlen f) ;;
    fset (with_read 0 0) ;;
    let* (n, data) := os (read junk (f_fd f) (f_cap f)) in
    if n <=? 0 then
      (if n =? 0 then fset (with_eof true) else fset (with_err true)) ;; ret EOF
    else
      buf <- the_buf ;;
      buf <- splice 0 data buf ;;
      fset (with_buf (f_owned f) (Some buf) (f_cap f)) ;;
      fset (with_read 0 n) ;; ret 0.

Definition fgetc : M F Z :=
  f <- the_file ;;
  if 0 <=? f_ungot f then fset (with_ungot (-1)) ;; ret (f_ungot f)
  else
    r <- (if f_rlen f <=? f_rpos f then refill else ret 0) ;;
    if r =? EOF then ret EOF
    else
      f <- the_file ;;
      buf <- the_buf ;;
      c <- of_option (idx buf (f_rpos f)) ;;
      fset (with_read (f_rpos f + 1) (f_rlen f)) ;; ret c.
Definition getc : M F Z := fgetc.

Definition ungetc (c : Z) : M F Z :=
  f <- the_file ;;
  if (c =? EOF) || (0 <=? f_ungot f) then ret EOF
  else fset (with_ungot (Z.land c 255)) ;; fset (with_eof false) ;; ret (Z.land c 255).

(** The characters stored in [s], without the terminator. *)
Definition fgets (n : Z) : M F (option bytes) :=
  if n <=? 0 then ret None
  else
    loop (λ s,
      if zlen s <? n - 1 then
        c <- fgetc ;;
        if c =? EOF then ret (Break (if zlen s =? 0 then None else Some s))
        else if c =? 10 then ret (Break (Some (s ++ [u8 c])))
        else ret (Continue (s ++ [u8 c]))
      else ret (Break (Some s))) [].

Definition fread (size nmemb : Z) : M F (Z * bytes) :=
  if (size =? 0) || (nmemb =? 0) then ret (0, [])
  else
    let total := u64 (size * nmemb) in
    p <- loop (λ p,
      if zlen p <? total then
        c <- fgetc ;;
        if c =? EOF then ret (Break p) else ret (Continue (p ++ [u8 c]))
      else ret (Break p)) [] ;;
    ret (zlen p / size, p).

(** ** Output *)

Definition fputc (c : Z) : M F Z :=
  f <- the_file ;;
  (if (f_rpos f <? f_rlen f) || (0 <=? f_ungot f) then drop_read ;; fset (with_ungot (-1)) else ret tt) ;;
  if f_bufmode f =? _IONBF then
    w <- os (write junk (f_fd f) [u8 c] 1) ;;
    if negb (w =? 1) then fset (with_err true) ;; ret EOF
    else advance 1 ;; ret (u8 c)
  else
    r <- ensure_buf ;;
    if r <? 0 then ret EOF
    else
      f <- the_file ;;
      buf <- the_buf ;;
      buf <- of_option (upd buf (f_wlen f) (u8 c)) ;;
      fset (with_buf (f_owned f) (Some buf) (f_cap f)) ;;
      fset (with_wlen (f_wlen f + 1)) ;;
      r <- (if (f_wlen f + 1 =? f_cap f) || ((f_bufmode f =? _IOLBF) && (c =? 10)) then flush_write else ret 0) ;;
      if r =? EOF then ret EOF else ret (u8 c).
Definition putc (c : Z) : M F Z := fputc c.

Definition fputs (s : bytes) : M F Z :=
  loop (λ i,
    c <- chr s i ;;
    if c =? 0 then ret (Break 0)
    else r <- fputc c ;; if r =? EOF then ret (Break EOF) else ret (Continue (i + 1))) 0.

Definition fwrite (ptr : bytes) (size nmemb : Z) : M F Z :=
  if (size =? 0) || (nmemb =? 0) then ret 0
  else
    let total := u64 (size * nmemb) in
    put <- loop (λ i,
      if i <? total then
        c <- of_option (idx ptr i) ;;
        r <- fputc c ;;
        if r =? EOF then ret (Break i) else ret (Continue (i + 1))
      else ret (Break i)) 0 ;;
    ret (put / size).

(** ** Positioning *)

Definition fseek (off whence : Z) : M F Z :=
  r <- flush_write ;;
  if r =? EOF then ret (-1)
  else
    fset (with_ungot (-1)) ;;
    fset (with_read 0 0) ;;
    f <- the_file ;;
    np <- os (lseek junk (f_fd f) off whence) ;;
    if np <? 0 then ret (-1)
    else fset (with_pos np) ;; fset (with_eof false) ;; ret 0.

Definition ftell : M F Z :=
  f <- the_file ;;
  let t := f_pos f + s64 (if negb (f_wlen f =? 0) then f_wlen f else f_rpos f) in
  if decide (LLONG_MIN ≤ t ≤ LLONG_MAX) then ret t else fault.

Definition rewind : M F unit := fseek 0 SEEK_SET ;; fset (with_err false).
(** The position, -1 for an error. *)
Definition fgetpos : M F (Z * option Z) :=
  t <- ftell ;; ret (if t <? 0 then (-1, None) else (0, Some t)).
Definition fsetpos (pos : Z) : M F Z := fseek pos SEEK_SET.
Definition fseeko (off whence : Z) : M F Z := fseek off whence.
Definition ftello : M F Z := ftell.

Definition feof : M F bool := gets (λ s, f_eof (s_file s)).
Definition ferror : M F bool := gets (λ s, f_err (s_file s)).
Definition clearerr : M F unit := fset (λ f, with_eof false (with_err false f)).
Definition fileno : M F Z := gets (λ s, f_fd (s_file s)).

(** [buf]: the caller's array *)
Definition setvbuf (buf : option bytes) (mode size : Z) : M F Z :=
  fflush1 ;;
  fset (with_buf false buf (if size =? 0 then BUFSIZ else size)) ;;
  fset (with_bufmode mode) ;; ret 0.
Definition setbuf (buf : option bytes) : M F unit :=
  setvbuf buf (match buf with Some _ => _IOFBF | None => _IONBF end) BUFSIZ ;; ret tt.

(** getdelim: the result, [*lineptr] and [*n] as they are left *)
Definition getdelim (line : option bytes) (n delim : Z) : M F (Z * option bytes * Z) :=
  let* (line, n) := (match line with
    | Some b => if n =? 0 then b <- malloc 128 ;; ret (b, 128) else ret (Some b, n)
    | None => b <- malloc 128 ;; ret (b, 128)
    end) in
  match line with
  | None => ret (-1, None, n)
  | Some b =>
      let finish (len n : Z) (b : bytes) : M F (Z * option bytes * Z) :=
        b <- splice len [0] b ;; ret (s64 len, Some b, n) in
      let* (r, b, n) := loop (λ '(len, b, n),
        c <- fgetc ;;
        if c =? EOF then ret (Break (if len =? 0 then None else Some len, b, n))
        else
          nb <- (if n <? u64 (len + 2) then
                   nb <- realloc b (u64 (n * 2)) ;;
                   ret (match nb with Some nb => Some (nb, u64 (n * 2)) | None => None end)
                 else ret (Some (b, n))) ;;
          match nb with
          | None => ret (Break (None, b, n))
          | Some (b, n) =>
              b <- of_option (upd b len (u8 c)) ;;
              if c =? delim then ret (Break (Some (len + 1), b, n)) else ret (Continue (len + 1, b, n))
          end) (0, b, n) in
      match r with
      | None => ret (-1, Some b, n)
      | Some len => finish len n b
      end
  end.
Definition getline (line : option bytes) (n : Z) : M F (Z * option bytes * Z) := getdelim line n 10.

(** ** printf.c on a stream *)

(** [emit_file] and [o->len], the struct out of vfprintf *)
Definition emit_file (s : bytes) : M (F * (Z * list (Z * Z * Z))) unit := λ '(st, (len, np)),
  match fwrite s 1 (zlen s) st with
  | Ret _ st => Ret tt (st, (u64 (len + zlen s), np))
  | Halt code st => Halt code (st, (len, np))
  | Fault => Fault
  | Diverge => Diverge
  end.
Definition file_len : M (F * (Z * list (Z * Z * Z))) Z := gets (λ s, s.2.1).
Definition file_store_n (np lng n : Z) : M (F * (Z * list (Z * Z * Z))) unit :=
  modify (λ '(st, (len, l)), (st, (len, l ++ [(np, lng, if 1 <=? lng then s64 n else s32 n)]))).

(** The result and the stores of %n. *)
Definition vfprintf fmt_fp (fmt : bytes) (ap : list va_slot) : M F (Z * list (Z * Z * Z)) := λ st,
  match vformat emit_file file_len file_store_n fmt_fp fmt ap (st, (0, [])) with
  | Ret r (st, (_, np)) => Ret (r, np) st
  | Halt code (st, _) => Halt code st
  | Fault => Fault
  | Diverge => Diverge
  end.
Definition fprintf fmt_fp (fmt : bytes) (ap : list va_slot) : M F (Z * list (Z * Z * Z)) :=
  vfprintf fmt_fp fmt ap.
End stream.

(** ** The table of streams *)

Record stdio (K : Type) := Stdio {
  io_posix : posix K;
  io_files : gmap Z FILE;
  io_next : Z;            (* the handle the next stream gets *)
  io_tmp_ctr : Z;         (* __tmp_ctr *)
}.
Arguments Stdio {K}.
Arguments io_posix {K}.
Arguments io_files {K}.
Arguments io_next {K}.
Arguments io_tmp_ctr {K}.

Definition stdin : Z := 1.
Definition stdout : Z := 2.
Definition stderr : Z := 3.
Definition stdio_start {K} (p : posix K) : stdio K :=
  Stdio p (<[stdin := _stdin]> (<[stdout := _stdout]> {[stderr := _stderr]})) 4 0.

Section stdio.
Context {K : Type} `{!Kernel K} (junk : bytes).
Abbreviation IO := (stdio K).

Definition set_posix (p : posix K) (s : IO) : IO := Stdio p (io_files s) (io_next s) (io_tmp_ctr s).
Program Definition posix_lens : lens IO (posix K) := Lens _ _ io_posix set_posix _ _ _.
Next Obligation. done. Qed.
Next Obligation. by intros []. Qed.
Next Obligation. done. Qed.
Definition px {A} (c : M (posix K) A) : M IO A := zoom posix_lens c.

(** A stream function on the stream [h]. *)
Definition on {A} (h : Z) (c : M (stream K) A) : M IO A := λ s,
  match io_files s !! h with
  | None => Fault
  | Some f =>
      let back (t : stream K) : IO := Stdio (s_os t) (<[h := s_file t]> (io_files s)) (io_next s) (io_tmp_ctr s) in
      match c (Stream (io_posix s) f) with
      | Ret a t => Ret a (back t)
      | Halt code t => Halt code (back t)
      | Fault => Fault
      | Diverge => Diverge
      end
  end.

(** calloc'ing a stream: its handle. *)
Definition new_stream (f : FILE) : M IO Z :=
  s <- get ;;
  put (Stdio (io_posix s) (<[io_next s := f]> (io_files s)) (io_next s + 1) (io_tmp_ctr s)) ;;
  ret (io_next s).
Definition free_stream (h : Z) : M IO unit :=
  modify (λ s, Stdio (io_posix s) (delete h (io_files s)) (io_next s) (io_tmp_ctr s)).
(** [sizeof(struct __FILE)] *)
Definition FILE_SIZE : Z := 120.
Definition heap (n : Z) : M IO bool := px (sys (heap_alloc n)).

(** [fflush(f)]; [None] is NULL *)
Definition fflush (h : option Z) : M IO Z :=
  match h with
  | None =>
      a <- on stdout (flush_write junk) ;;
      b <- on stderr (flush_write junk) ;;
      ret (if (a =? EOF) || (b =? EOF) then EOF else 0)
  | Some h => on h (flush_write junk)
  end.

Definition __libc_stdio_exit_flush : M IO unit :=
  on stdout (flush_write junk) ;; on stderr (flush_write junk) ;; ret tt.

Definition fdopen (fd : Z) (mode : bytes) : M IO (option Z) :=
  match parse_mode mode with
  | None => px (set_errno EINVAL) ;; ret None
  | Some (rd, wr, _, _) =>
      ok <- heap FILE_SIZE ;;
      if negb ok then px (set_errno ENOMEM) ;; ret None
      else
        tty <- px (isatty fd) ;;
        h <- new_stream (new_file fd rd wr (if negb (tty =? 0) then _IOLBF else _IOFBF) None) ;;
        ret (Some h)
  end.

(** [bufp] and [sizep] are not NULL. *)
Definition open_memstream : M IO (option Z) :=
  ok <- heap FILE_SIZE ;;
  if negb ok then px (set_errno ENOMEM) ;; ret None
  else
    ok <- heap 1 ;;
    if negb ok then px (set_errno ENOMEM) ;; ret None
    else h <- new_stream (new_file (-1) false true _IOFBF (Some (Mstream [0] 0 0 1))) ;; ret (Some h).

(** The flags of open for a mode. *)
Definition open_flags (rd wr ap tr : bool) : Z :=
  let fl := if rd && wr then O_RDWR else if wr then O_WRONLY else 0 in
  let fl := if wr then Z.lor fl O_CREAT else fl in
  let fl := if tr then Z.lor fl O_TRUNC else fl in
  if ap then Z.lor fl O_APPEND else fl.

Definition fopen (path mode : bytes) : M IO (option Z) :=
  match parse_mode mode with
  | None => px (set_errno EINVAL) ;; ret None
  | Some (rd, wr, ap, tr) =>
      fd <- px (open junk path (open_flags rd wr ap tr)) ;;
      if fd <? 0 then ret None
      else
        f <- fdopen fd mode ;;
        match f with
        | None => px (close junk fd) ;; ret None
        | Some h => ret (Some h)
        end
  end.

Definition freopen (path mode : bytes) (h : option Z) : M IO (option Z) :=
  match h with
  | None => ret None
  | Some h =>
      fflush (Some h) ;;
      fd <- on h (fileno) ;;
      (if 2 <? fd then px (close junk fd) ;; ret tt else ret tt) ;;
      match parse_mode mode with
      | None => px (set_errno EINVAL) ;; ret None
      | Some (rd, wr, ap, tr) =>
          fd <- px (open junk path (open_flags rd wr ap tr)) ;;
          if fd <? 0 then ret None
          else
            on h (fset (λ f, with_ungot (-1) (with_pos 0 (with_wlen 0 (with_read 0 0
              (with_eof false (with_err false (with_fd fd rd wr f)))))))) ;;
            ret (Some h)
      end
  end.

Definition fclose (h : option Z) : M IO Z :=
  match h with
  | None => ret EOF
  | Some h =>
      r <- on h (flush_write junk) ;;
      fd <- on h fileno ;;
      r <- (if 2 <? fd then c <- px (close junk fd) ;; ret (if negb (c =? 0) then EOF else r) else ret r) ;;
      (if negb ((h =? stdin) || (h =? stdout) || (h =? stderr)) then free_stream h else ret tt) ;;
      ret r
  end.

Definition getchar : M IO Z := on stdin (fgetc junk).
Definition putchar (c : Z) : M IO Z := on stdout (fputc junk c).
Definition puts (s : bytes) : M IO Z :=
  r <- on stdout (fputs junk s) ;;
  if r =? EOF then ret EOF
  else r <- on stdout (fputc junk 10) ;; ret (if r =? EOF then EOF else 0).
Definition vprintf fmt_fp (fmt : bytes) (ap : list va_slot) : M IO (Z * list (Z * Z * Z)) :=
  on stdout (vfprintf junk fmt_fp fmt ap).
Definition printf fmt_fp (fmt : bytes) (ap : list va_slot) : M IO (Z * list (Z * Z * Z)) :=
  on stdout (vfprintf junk fmt_fp fmt ap).

(** The digits of [e] in front of [b], at most 16 of them. *)
Definition perror_digits (e : Z) : M IO bytes :=
  b <- (if e =? 0 then push_front 16 [] 48 else ret []) ;;
  loop (λ '(e, b),
    if e =? 0 then ret (Break b)
    else b <- push_front 16 b (48 + e mod 10) ;; ret (Continue (e / 10, b))) (e, b).
Definition perror (s : option bytes) : M IO unit :=
  (match s with
   | Some (c :: s) => on stderr (fputs junk (c :: s)) ;; on stderr (fputs junk (str ": ")) ;; ret tt
   | _ => ret tt
   end) ;;
  e <- px (gets errno) ;;
  e <- (if e <? 0 then on stderr (fputc junk 45) ;; neg_signed INT_MAX e else ret e) ;;
  b <- perror_digits e ;;
  on stderr (fwrite junk b 1 (zlen b)) ;;
  on stderr (fputc junk 10) ;; ret tt.

Definition remove (path : bytes) : M IO Z := px (unlink junk path).

(** The name tmpnam makes, eight hexadecimal digits. *)
Fixpoint hex_digits (n : nat) (id : Z) : bytes :=
  match n with
  | O => []
  | S n => default 0 (idx (digits_of false) (Z.land (Z.shiftr id (4 * Z.of_nat n)) 15)) :: hex_digits n id
  end.
Definition tmpnam : M IO bytes :=
  pid <- px getpid ;;
  s <- get ;;
  let ctr := u32 (io_tmp_ctr s + 1) in
  put (Stdio (io_posix s) (io_files s) (io_next s) ctr) ;;
  hz <- px (sys __rc_timebase_hz) ;;
  let id := Z.lxor (Z.lxor (u32 (Z.shiftl (u32 pid) 8)) ctr) (u32 hz) in
  ret (str "/tmp/t" ++ hex_digits 8 id).
Definition tmpfile : M IO (option Z) := nm <- tmpnam ;; fopen nm (str "w+").
End stdio.

(** * Reading a file through a stream *)

(** The line fgets reads: up to and with a newline, at most [n - 1] characters. *)
Definition line_of (n : Z) (c : bytes) : bytes :=
  let l := take_while (λ b, negb (b =? 10)) c in
  takeZ (n - 1) (if zlen l <? zlen c then l ++ [10] else l).

(** The character behind [k] of a line's. *)
Lemma idx_line c k : 0 ≤ k ≤ zlen (take_while (λ b, negb (b =? 10)) c) →
  idx c k = if k <? zlen (take_while (λ b, negb (b =? 10)) c)
            then idx (take_while (λ b, negb (b =? 10)) c) k
            else if k <? zlen c then Some 10 else None.
Proof.
  intros Hk. destruct (take_while_split (λ b, negb (b =? 10)) c) as (rest & E & Hr).
  set (l := take_while _ c) in *. rewrite E. destruct (Z.ltb_spec k (zlen l)).
  - by rewrite idx_app_l by lia.
  - replace k with (zlen l) by lia. destruct rest as [|x rest].
    + rewrite app_nil_r, idx_None by lia. by rewrite Z.ltb_irrefl.
    + rewrite idx_middle. specialize (Hr x rest eq_refl). cbn beta in Hr.
      replace (zlen l <? zlen (l ++ x :: rest)) with true by zlen_lia. f_equal. lia.
Qed.

Section reading.
Context {K : Type} `{FileServer K} (junk : bytes).
Context (Hjunk : zlen junk = RC_FS_MSG_MAX) (Hjb : is_bytes junk).
Context (Halloc : ∀ s, ∃ w, heap_alloc BUFSIZ s = Ret true w ∧ view w = view s).
Implicit Types (s : stream K) (c : bytes).

(** The stream reads the file [path], which holds [c], and stands at [pos]: the
    buffer holds what the file has from [f_pos] on, the descriptor is at the
    buffer's end. *)
Record reads s (path : bytes) c (pos : Z) : Prop := {
  r_file : ∃ e, file_at (s_os s) (f_fd (s_file s)) e c ∧ fd_path e = path ∧
             fd_off e = f_pos (s_file s) + f_rlen (s_file s);
  r_ungot : f_ungot (s_file s) = -1;
  r_wlen : f_wlen (s_file s) = 0;
  r_rpos : 0 ≤ f_rpos (s_file s) ≤ f_rlen (s_file s);
  r_fpos : 0 ≤ f_pos (s_file s);
  r_pos : pos = f_pos (s_file s) + f_rpos (s_file s);
  r_end : f_pos (s_file s) + f_rlen (s_file s) ≤ zlen c;
  r_buf : match f_buf (s_file s) with
          | None => f_rlen (s_file s) = 0
          | Some b => zlen b = f_cap (s_file s) ∧ 0 < f_cap (s_file s) ≤ INT_MAX ∧
              takeZ (f_rlen (s_file s)) b = sliceZ (f_pos (s_file s)) (f_rlen (s_file s)) c
          end;
  r_small : zlen c + Z.max BUFSIZ (f_cap (s_file s)) < 4294967296;
}.

Lemma os_run {A} (m : M (posix K) A) a p s : m (s_os s) = Ret a p → os m s = Ret a (Stream p (s_file s)).
Proof using. intros E. unfold os, zoom. simpl. by rewrite E. Qed.

Lemma advance_run n s : 0 ≤ n → 0 ≤ f_pos (s_file s) → f_pos (s_file s) + n ≤ LLONG_MAX →
  advance n s = Ret tt (Stream (s_os s) (with_pos (f_pos (s_file s) + n) (s_file s))).
Proof using.
  intros. unfold LLONG_MAX in *. unfold advance, bind, the_file, gets.
  rewrite s64_id by (unfold LLONG_MIN, LLONG_MAX; lia).
  by rewrite decide_True by (unfold LLONG_MIN, LLONG_MAX; lia).
Qed.

(** The part of the state a stream's own steps keep. *)
Lemma ensure_buf_reads s path c pos : reads s path c pos →
  ∃ s' b, ensure_buf junk s = Ret 0 s' ∧ reads s' path c pos ∧ f_buf (s_file s') = Some b ∧
    view (world (s_os s')) = view (world (s_os s)) ∧
    f_eof (s_file s') = f_eof (s_file s) ∧ f_rpos (s_file s') = f_rpos (s_file s) ∧
    f_rlen (s_file s') = f_rlen (s_file s).
Proof using Hjunk Halloc.
  intros Hr. unfold ensure_buf. rewrite (bind_run _ _ (s_file s) s s) by done.
  destruct (f_buf (s_file s)) as [b|] eqn:Eb; [exists s, b; done|].
  destruct (Halloc (world (s_os s))) as (w & Ew & Hv). unfold malloc.
  set (b := takeZ BUFSIZ (junk ++ replicate (Z.to_nat BUFSIZ) 0)).
  assert (zlen b = BUFSIZ) as Hb.
  { unfold b, BUFSIZ. apply zlen_takeZ. rewrite zlen_app, Hjunk. unfold RC_FS_MSG_MAX. zlen_lia. }
  rewrite (bind_run _ _ (Some b) _ (Stream (set_world w (s_os s)) (s_file s))).
  2:{ rewrite (bind_run _ _ _ _ _ (os_run _ _ _ _ (sys_run _ _ _ _ Ew))). done. }
  cbn beta iota. eexists _, b. split; [reflexivity|].
  destruct Hr as [(e & Hf & He & Ho) H1 H2 H3 H4 H5 H6 H7 H8]. rewrite Eb in H7.
  split; [|split; [done|]; split; [done|split; done]].
  split; cbn [s_file s_os f_fd f_rlen f_rpos f_pos f_ungot f_wlen f_buf f_cap with_buf]; try done.
  - exists e. split; [|done]. destruct Hf as [? ? ? ? Hc Hd]. split; try done; unfold held in *;
      cbn [s_os world set_world]; by rewrite Hv.
  - rewrite H7, sliceZ_0, takeZ_0. split; [done|]. split; [unfold INT_MAX, BUFSIZ; lia|done].
  - unfold BUFSIZ in *. lia.
Qed.

(** Reading the next block. *)
Lemma refill_reads s path c pos : reads s path c pos → f_rlen (s_file s) ≤ f_rpos (s_file s) →
  ∃ s', refill junk s = Ret (if pos <? zlen c then 0 else EOF) s' ∧ reads s' path c pos ∧
    view (world (s_os s')) = view (world (s_os s)) ∧
    (if pos <? zlen c then f_rpos (s_file s') < f_rlen (s_file s') ∧ f_eof (s_file s') = f_eof (s_file s)
     else f_eof (s_file s') = true).
Proof using Hjunk Hjb Halloc.
  intros Hr Hempty. unfold refill. rewrite (bind_run _ _ (s_file s) s s) by done.
  rewrite (r_wlen _ _ _ _ Hr). rewrite (bind_run _ _ tt s s) by done.
  destruct (ensure_buf_reads s path c pos Hr) as (s1 & b & E1 & Hr1 & Hb1 & Hv1 & Heof & Hp1 & Hl1).
  rewrite (bind_run _ _ _ _ _ E1). change (0 <? 0) with false. cbn beta iota.
  destruct Hr1 as [(e & Hf & He & Ho) G1 G2 G3 G4 G5 G6 G7 G8]. rewrite Hb1 in G7.
  destruct G7 as (Gb & Gc & _). destruct s1 as [p1 f1]. cbn [s_os s_file] in *.
  assert (f_rpos f1 = f_rlen f1) as Heq by lia.
  rewrite (bind_run _ _ f1 (Stream p1 f1) (Stream p1 f1)) by done.
  unfold BUFSIZ, INT_MAX in *.
  rewrite (bind_run _ _ _ _ _ (advance_run (f_rlen f1) (Stream p1 f1) ltac:(cbn [s_file]; lia)
    ltac:(cbn [s_file]; lia) ltac:(unfold LLONG_MAX; cbn [s_file]; lia))).
  cbn [s_os s_file].
  set (f2 := with_read 0 0 (with_pos (f_pos f1 + f_rlen f1) f1)).
  rewrite (bind_run _ _ tt _ (Stream p1 f2)) by done.
  destruct (read_run junk Hjunk Hjb p1 (f_fd f1) e c (f_cap f1) Hf) as (w & Hw & Er);
    [unfold INT_MAX; lia|lia|lia|]. cbn zeta in Er.
  set (n := Z.max 0 (Z.min (f_cap f1) (zlen c - fd_off e))) in *.
  rewrite (bind_run _ _ _ _ _ (os_run (read junk (f_fd f1) (f_cap f1)) _ _ (Stream p1 f2) Er)).
  cbn beta iota. cbn [s_file].
  assert (file_at (moved p1 (f_fd f1) e (fd_off e + n) w) (f_fd f1) (with_off (fd_off e + n) e) c) as Hf2.
  { by apply (file_on_view (srv (fd_path e))). }
  replace pos with (fd_off e) in * by lia.
  destruct (Z.ltb_spec (fd_off e) (zlen c)).
  - replace (n <=? 0) with false by lia.
    assert (zlen (sliceZ (fd_off e) n c) = n) as Hz by (apply zlen_sliceZ; lia).
    rewrite (bind_run _ _ b _ (Stream (moved p1 (f_fd f1) e (fd_off e + n) w) f2)).
    2:{ unfold the_buf, bind, the_file, gets. cbn [s_file]. change (f_buf f2) with (f_buf f1). by rewrite Hb1. }
    rewrite (bind_run _ _ _ _ _ (splice_run 0 (sliceZ (fd_off e) n c) b _ ltac:(lia) ltac:(lia))).
    eexists. split; [reflexivity|]. cbn beta iota. cbn [s_file s_os].
    split; [|split; [cbn [world moved set_world]; congruence|]].
    2:{ cbn [f_rpos f_rlen with_read with_buf]. split; [lia|done]. }
    split; cbn [s_file s_os f_fd f_rlen f_rpos f_pos f_ungot f_wlen f_buf f_cap with_buf with_read with_pos f2]; try done; try lia.
    + exists (with_off (fd_off e + n) e). split; [exact Hf2|]. split; [done|]. cbn [fd_off with_off]. lia.
    + split; [rewrite zlen_spliced; lia|]. split; [unfold INT_MAX; lia|].
      replace (f_pos f1 + f_rlen f1) with (fd_off e) by lia.
      rewrite <- Hz at 1. unfold spliced. rewrite takeZ_0, app_nil_l. apply takeZ_app_zlen.
  - assert (n = 0) as Hn by lia. replace (n <=? 0) with true by lia. replace (n =? 0) with true by lia.
    eexists. split; [reflexivity|]. cbn beta iota. cbn [s_file s_os].
    split; [|split; [cbn [world moved set_world]; congruence|done]].
    split; cbn [s_file s_os f_fd f_rlen f_rpos f_pos f_ungot f_wlen f_buf f_cap with_eof with_read with_pos f2]; try done; try lia.
    + exists (with_off (fd_off e + n) e). split; [exact Hf2|]. split; [done|]. cbn [fd_off with_off]. lia.
    + rewrite Hb1. split; [done|]. split; [unfold INT_MAX; lia|]. by rewrite takeZ_0, sliceZ_0.
Qed.

(** One character more of what the buffer holds. *)
Lemma reads_next s path c pos b : reads s path c pos → f_buf (s_file s) = Some b →
  f_rpos (s_file s) < f_rlen (s_file s) →
  idx b (f_rpos (s_file s)) = idx c pos ∧
  reads (Stream (s_os s) (with_read (f_rpos (s_file s) + 1) (f_rlen (s_file s)) (s_file s))) path c (pos + 1).
Proof using.
  intros [Hf H1 H2 H3 H4 H5 H6 H7 H8] Hb Hlt. rewrite Hb in H7. destruct H7 as (Hl & Hc & Hs). split.
  - rewrite <- (idx_takeZ (f_rlen (s_file s))), Hs, idx_sliceZ by lia. f_equal. lia.
  - split; cbn [s_file s_os f_fd f_rlen f_rpos f_pos f_ungot f_wlen f_buf f_cap with_read]; try done; try lia.
    by rewrite Hb.
Qed.

Lemma fgetc_reads s path c pos : reads s path c pos →
  ∃ s', fgetc junk s = Ret (default EOF (idx c pos)) s' ∧
    view (world (s_os s')) = view (world (s_os s)) ∧
    (if pos <? zlen c then reads s' path c (pos + 1) ∧ f_eof (s_file s') = f_eof (s_file s)
     else reads s' path c pos ∧ f_eof (s_file s') = true).
Proof using Hjunk Hjb Halloc.
  intros Hr. unfold fgetc. rewrite (bind_run _ _ (s_file s) s s) by done.
  rewrite (r_ungot _ _ _ _ Hr). change (0 <=? -1) with false. cbn iota.
  assert (∃ s1, (if f_rlen (s_file s) <=? f_rpos (s_file s) then refill junk else ret 0) s
      = Ret (if pos <? zlen c then 0 else EOF) s1 ∧ reads s1 path c pos ∧
      view (world (s_os s1)) = view (world (s_os s)) ∧
      (if pos <? zlen c then f_rpos (s_file s1) < f_rlen (s_file s1) ∧ f_eof (s_file s1) = f_eof (s_file s)
       else f_eof (s_file s1) = true)) as (s1 & E1 & Hr1 & Hv1 & Hcase).
  { destruct (Z.leb_spec (f_rlen (s_file s)) (f_rpos (s_file s))); [by apply refill_reads|].
    exists s. pose proof (r_pos _ _ _ _ Hr). pose proof (r_end _ _ _ _ Hr).
    by replace (pos <? zlen c) with true by lia. }
  rewrite (bind_run _ _ _ _ _ E1). destruct (Z.ltb_spec pos (zlen c)).
  - destruct Hcase as [Hlt Heof]. change (0 =? EOF) with false. cbn iota.
    rewrite (bind_run _ _ (s_file s1) s1 s1) by done.
    pose proof (r_buf _ _ _ _ Hr1) as Hb. pose proof (r_rpos _ _ _ _ Hr1).
    destruct (f_buf (s_file s1)) as [b|] eqn:Eb; [|lia].
    rewrite (bind_run _ _ b s1 s1) by (unfold the_buf, bind, the_file, gets; by rewrite Eb).
    destruct (reads_next s1 path c pos b Hr1 Eb Hlt) as [Hi Hr2].
    rewrite Hi. pose proof (r_pos _ _ _ _ Hr1). pose proof (r_fpos _ _ _ _ Hr1).
    destruct (idx_is_Some c pos) as [x Hx]; [lia|]. rewrite Hx.
    eexists. split; [reflexivity|]. split; [done|]. split; [exact Hr2|done].
  - change (EOF =? EOF) with true. cbn iota. exists s1. rewrite idx_None by lia. done.
Qed.

(** fread takes what is there, up to the count. *)
Lemma fread_reads s path c pos n : reads s path c pos → 0 < n → n ≤ INT_MAX →
  let m := Z.min n (zlen c - pos) in is_bytes c →
  ∃ s', fread junk 1 n s = Ret (m, sliceZ pos m c) s' ∧ reads s' path c (pos + m) ∧
    view (world (s_os s')) = view (world (s_os s)) ∧
    f_eof (s_file s') = (f_eof (s_file s) || (m <? n)).
Proof using Hjunk Hjb Halloc.
  intros Hr Hn Hmax m Hc. unfold INT_MAX in Hmax.
  assert (0 ≤ pos ≤ zlen c) as Hpos by (destruct Hr; lia).
  unfold fread. replace ((1 =? 0) || (n =? 0)) with false by lia. rewrite Z.mul_1_l, u64_id by lia. cbn zeta.
  set (post := λ (r : bytes) s', r = sliceZ pos m c ∧ reads s' path c (pos + m) ∧
    view (world (s_os s')) = view (world (s_os s)) ∧ f_eof (s_file s') = (f_eof (s_file s) || (m <? n))).
  match goal with |- ∃ s', bind ?l _ _ = _ ∧ _ => assert (wp l post s) as Hw end.
  2:{ apply wp_inv in Hw as (p & s' & E & -> & Hr' & Hv & He). exists s'.
      rewrite (bind_run _ _ _ _ _ E), zlen_sliceZ, Z.div_1_r by lia. done. }
  apply (wp_loop _ (λ p s', 0 ≤ zlen p ≤ m ∧ p = sliceZ pos (zlen p) c ∧ reads s' path c (pos + zlen p) ∧
      view (world (s_os s')) = view (world (s_os s)) ∧ f_eof (s_file s') = f_eof (s_file s))
    (λ p _, n - zlen p)).
  - intros p s' (? & _). lia.
  - intros p s' (Hp & Ep & Hr' & Hv & Heof). destruct (Z.ltb_spec (zlen p) n).
    + destruct (fgetc_reads s' path c (pos + zlen p) Hr') as (s2 & E & Hv2 & Hcase).
      apply wp_bind. eapply wp_of_eq; [exact E|]. destruct (Z.ltb_spec (pos + zlen p) (zlen c)).
      * destruct Hcase as [Hr2 He2]. destruct (idx_is_Some c (pos + zlen p)) as [x Hx]; [lia|].
        rewrite Hx. cbn [default from_option id]. pose proof (idx_is_byte _ _ _ Hc Hx).
        replace (x =? EOF) with false by (unfold EOF; lia). apply wp_ret. rewrite u8_id by lia.
        split; [|zlen_lia]. rewrite zlen_app. change (zlen [x]) with 1. rewrite Z.add_assoc.
        split; [lia|]. split; [|split; [done|split; congruence]].
        rewrite sliceZ_app by lia. f_equal; [done|]. unfold sliceZ. by rewrite (dropZ_cons _ _ _ Hx).
      * destruct Hcase as [Hr2 He2]. rewrite idx_None by lia. cbn [default from_option].
        change (EOF =? EOF) with true. apply wp_ret.
        assert (zlen p = m) as Em by lia. split; [by rewrite <- Em|]. split; [by rewrite <- Em|].
        split; [congruence|]. rewrite He2. replace (m <? n) with true by lia. by rewrite orb_true_r.
    + apply wp_ret. assert (zlen p = m) as Em by lia. split; [by rewrite <- Em|]. split; [by rewrite <- Em|].
      split; [done|]. rewrite Heof. replace (m <? n) with false by lia. by rewrite orb_false_r.
  - change (zlen []) with 0. rewrite Z.add_0_r. split; [lia|done].
  - change (zlen []) with 0. lia.
Qed.

Lemma fgets_reads s path c pos n : reads s path c pos → 0 < n → n ≤ INT_MAX → is_bytes c →
  let line := line_of n (dropZ pos c) in
  ∃ s', fgets junk n s = Ret (if (pos =? zlen c) && (1 <? n) then None else Some line) s' ∧
    reads s' path c (pos + zlen line) ∧ view (world (s_os s')) = view (world (s_os s)).
Proof using Hjunk Hjb Halloc.
  intros Hr Hn Hmax Hc line. unfold INT_MAX in Hmax.
  assert (0 ≤ pos ≤ zlen c) as Hpos by (destruct Hr; lia).
  set (r := dropZ pos c) in *. assert (zlen r = zlen c - pos) as Hzr by (apply zlen_dropZ; lia).
  set (l := take_while (λ b, negb (b =? 10)) r).
  pose proof (zlen_take_while_le (λ b, negb (b =? 10)) r) as Hlr. fold l in Hlr. pose proof (zlen_nonneg l).
  unfold fgets. replace (n <=? 0) with false by lia.
  set (post := λ (o : option bytes) s', o = (if (pos =? zlen c) && (1 <? n) then None else Some line) ∧
    reads s' path c (pos + zlen line) ∧ view (world (s_os s')) = view (world (s_os s))).
  match goal with |- ∃ s', ?m _ = _ ∧ _ => assert (wp m post s) as Hw end.
  2:{ apply wp_inv in Hw as (p & s' & E & -> & Hr' & Hv). by exists s'. }
  apply (wp_loop _ (λ p s', 0 ≤ zlen p ≤ Z.min (n - 1) (zlen l) ∧ p = takeZ (zlen p) l ∧
      reads s' path c (pos + zlen p) ∧ view (world (s_os s')) = view (world (s_os s)))
    (λ p _, n - zlen p)).
  - intros p s' (? & _). lia.
  - intros p s' (Hp & Ep & Hr' & Hv). destruct (Z.ltb_spec (zlen p) (n - 1)).
    + destruct (fgetc_reads s' path c (pos + zlen p) Hr') as (s2 & E & Hv2 & Hcase).
      apply wp_bind. eapply wp_of_eq; [exact E|].
      pose proof (idx_line r (zlen p) ltac:(fold l; lia)) as Hi. fold l in Hi.
      rewrite <- (idx_dropZ pos (zlen p) c) by lia. fold r. rewrite Hi.
      destruct (Z.ltb_spec (zlen p) (zlen l)).
      * replace (pos + zlen p <? zlen c) with true in Hcase by lia. destruct Hcase as [Hr2 _].
        destruct (idx_is_Some l (zlen p)) as [x Hx]; [lia|]. rewrite Hx. cbn [default from_option id].
        rewrite Hx in Hi. pose proof (idx_is_byte r _ _ (Forall_dropZ _ _ _ Hc) Hi).
        pose proof (idx_Forall _ _ _ _ (take_while_Forall _ r) Hx) as Hx10. cbn beta in Hx10.
        replace (x =? EOF) with false by (unfold EOF; lia). replace (x =? 10) with false by lia.
        apply wp_ret. rewrite u8_id by lia. rewrite zlen_app. change (zlen [x]) with 1. split; [|lia].
        split; [lia|]. split; [by rewrite (takeZ_snoc _ _ _ Hx), <- Ep|].
        rewrite Z.add_assoc. split; [done|congruence].
      * assert (p = l) as -> by (rewrite Ep; apply takeZ_all; lia).
        destruct (Z.ltb_spec (zlen l) (zlen r)).
        -- cbn [default from_option id]. change (10 =? EOF) with false. change (10 =? 10) with true. apply wp_ret.
           replace (pos + zlen l <? zlen c) with true in Hcase by lia. destruct Hcase as [Hr2 _].
           assert (line = l ++ [10]) as Eline.
           { unfold line, line_of. fold l. replace (zlen l <? zlen r) with true by lia. apply takeZ_all. zlen_lia. }
           split; [|split; [|congruence]].
           ++ replace (pos =? zlen c) with false by lia. by rewrite Eline.
           ++ rewrite Eline, zlen_app. change (zlen [10]) with 1. by rewrite Z.add_assoc.
        -- cbn [default from_option]. change (EOF =? EOF) with true. apply wp_ret.
           replace (pos + zlen l <? zlen c) with false in Hcase by lia. destruct Hcase as [Hr2 _].
           assert (line = l) as Eline.
           { unfold line, line_of. fold l. replace (zlen l <? zlen r) with false by lia. apply takeZ_all. zlen_lia. }
           split; [|split; [by rewrite Eline|congruence]].
           rewrite Eline. replace (1 <? n) with true by lia. rewrite andb_true_r.
           destruct (Z.eqb_spec (zlen l) 0), (Z.eqb_spec pos (zlen c)); done || lia.
    + apply wp_ret. assert (line = p) as Eline.
      { unfold line, line_of. fold l. rewrite Ep. replace (zlen p) with (n - 1) by lia.
        destruct (zlen l <? zlen r); [|done]. unfold takeZ. apply take_app_le. unfold zlen in *. lia. }
      split; [|split; [by rewrite Eline|done]]. rewrite Eline.
      destruct (Z.eqb_spec pos (zlen c)), (Z.ltb_spec 1 n); try done. exfalso. lia.
  - change (zlen []) with 0. rewrite Z.add_0_r. split; [lia|done].
  - change (zlen []) with 0. lia.
Qed.
End reading.


(** * Writing a file through a stream *)

Section writing.
Context {K : Type} `{FileServer K} (junk : bytes).
Context (Hjunk : zlen junk = RC_FS_MSG_MAX) (Hjb : is_bytes junk).
Context (Halloc : ∀ s, ∃ w, heap_alloc BUFSIZ s = Ret true w ∧ view w = view s).
(** The file: where it is, what it and the others held when writing started, and
    the offset writing started at.  What is written can be found again: the
    path is in no union, or the first member is the one that receives creation. *)
Context (path : bytes) (v0 : fsview) (c0 : bytes) (off : Z) (Hoff : 0 ≤ off ≤ zlen c0).
Context (Hone : srv_c path = srv path).
Implicit Types (s : stream K) (p : posix K).

(** [pre] has reached the file through [fd], and nothing else happened. *)
Definition flushed p (fd : Z) (pre : bytes) : Prop :=
  ∃ e, file_at p fd e (write_at off pre c0) ∧ fd_path e = path ∧ fd_off e = off + zlen pre ∧
    view (world p) = set_files (<[srv path := write_at off pre c0]> (v_files v0)) v0.

Lemma flushed_write p fd pre buf n :
  flushed p fd pre → is_bytes buf → 0 < n ≤ INT_MAX → n ≤ zlen buf → off + zlen pre + n < 4294967295 →
  ∃ r p', write junk fd buf n p = Ret r p' ∧
    ((0 ≤ r ≤ n ∧ flushed p' fd (pre ++ takeZ r buf)) ∨ (r = -1 ∧ flushed p' fd pre)).
Proof using Hjunk Hjb Hoff Hone.
  intros (e & Hf & He & Ho & Hv) Hb Hn Hl Hmax. pose proof (zlen_write_at off pre c0 Hoff).
  pose proof (zlen_nonneg pre).
  assert (file_at_c p fd e (write_at off pre c0)) as Hfc by (unfold file_at_c; by rewrite He, Hone, <- He).
  destruct (write_run junk Hjunk Hjb p fd e (write_at off pre c0) buf n Hfc Hb) as (r & w & Hres); [lia..|].
  pose proof Hf as [Hr Hent Hk Hp Hc Hd].
  destruct Hres as [(Hr0 & Hw & E)|(-> & _ & Hw & E)]; eexists _, _; (split; [exact E|]); [left|right].
  - split; [done|]. exists (with_off (fd_off e + r) e).
    destruct (written_file _ _ _ _ _ _ _ Hw) as [Hc' Hd'].
    assert (write_at (fd_off e) (takeZ r buf) (write_at off pre c0) = write_at off (pre ++ takeZ r buf) c0) as Ew
      by (rewrite Ho; by apply write_at_write_at).
    rewrite He, Hone, Ew in Hc'.
    split; [apply (file_on_moved (srv (fd_path e)) p fd e (write_at off pre c0)); [done|by rewrite He|done]|].
    split; [done|]. split; [cbn [fd_off with_off]; rewrite zlen_app, zlen_takeZ by lia; lia|].
    unfold written in Hw. cbn [world moved set_world]. rewrite Hw, Hv, Ew, He, Hone.
    unfold set_files. cbn [v_files v_dirs]. by rewrite insert_insert_eq.
  - split; [done|]. exists (with_off (fd_off e) e). split; [|split; [done|split; [done|]]].
    + destruct (file_on_view _ _ _ _ _ (fd_off e) w Hf Hw) as [? ? ? ? ? ?]. by split.
    + cbn [world moved set_world set_errno_]. by rewrite Hw.
Qed.

(** The stream has put [pre] into the file and holds [pend] in its buffer. *)
Record writes s (pre pend : bytes) : Prop := {
  w_file : flushed (s_os s) (f_fd (s_file s)) pre;
  w_wlen : f_wlen (s_file s) = zlen pend;
  w_pos : f_pos (s_file s) = off + zlen pre;
  w_read : f_rpos (s_file s) = 0 ∧ f_rlen (s_file s) = 0 ∧ f_ungot (s_file s) = -1;
  w_ms : f_ms (s_file s) = None;
  w_cap : f_cap (s_file s) ≤ INT_MAX;
  w_unbuf : f_bufmode (s_file s) = _IONBF → pend = [];
  w_buf : match f_buf (s_file s) with
          | None => pend = []
          | Some b => zlen b = f_cap (s_file s) ∧ 0 < f_cap (s_file s) ≤ INT_MAX ∧ is_bytes b ∧
              zlen pend < f_cap (s_file s) ∧ takeZ (zlen pend) b = pend
          end;
}.

(** An error was reported; the file has some prefix of what was put in. *)
Definition failed s (data : bytes) : Prop :=
  f_err (s_file s) = true ∧ ∃ k, 0 ≤ k ≤ zlen data ∧ flushed (s_os s) (f_fd (s_file s)) (takeZ k data).

(** Flushing a buffer that holds [pend], full or not. *)
Lemma flush_loop_run s pre pend b :
  flushed (s_os s) (f_fd (s_file s)) pre → f_wlen (s_file s) = zlen pend → f_buf (s_file s) = Some b →
  is_bytes b → zlen pend ≤ zlen b → takeZ (zlen pend) b = pend → zlen b ≤ INT_MAX →
  off + zlen pre + zlen pend < 4294967295 →
  ∃ r s', flush_loop junk s = Ret r s' ∧
    ((r = 0 ∧ flushed (s_os s') (f_fd (s_file s)) (pre ++ pend) ∧ s_file s' = s_file s) ∨
     (r = EOF ∧ failed s' (pre ++ pend) ∧ s_file s' = with_err true (s_file s))).
Proof using Hjunk Hjb Hoff Hone.
  intros Hfl Hwl Hb Hbb Hle Hpend Hcap Hmax. pose proof (zlen_nonneg pre). pose proof (zlen_nonneg pend).
  unfold INT_MAX in Hcap.
  set (post := λ r s', (r = 0 ∧ flushed (s_os s') (f_fd (s_file s)) (pre ++ pend) ∧ s_file s' = s_file s) ∨
     (r = EOF ∧ failed s' (pre ++ pend) ∧ s_file s' = with_err true (s_file s))).
  assert (wp (flush_loop junk) post s) as Hw.
  2:{ apply wp_inv in Hw as (r & s' & E & Hres). by exists r, s'. }
  unfold flush_loop.
  apply (wp_loop _ (λ done s', 0 ≤ done ≤ zlen pend ∧ s_file s' = s_file s ∧
      flushed (s_os s') (f_fd (s_file s)) (pre ++ takeZ done pend)) (λ done _, zlen pend - done)).
  - intros done s' (? & _). lia.
  - intros done s' (Hd & Hfile & Hfl'). apply wp_bind, wp_gets. rewrite Hfile, Hwl.
    destruct (Z.ltb_spec done (zlen pend)).
    + apply wp_bind. eapply (wp_of_eq _ _ b s').
      { unfold the_buf, bind, the_file, gets. by rewrite Hfile, Hb. }
      assert (zlen (takeZ done pend) = done) as Hzt by (apply zlen_takeZ; lia).
      destruct (flushed_write (s_os s') (f_fd (s_file s)) (pre ++ takeZ done pend) (dropZ done b)
        (zlen pend - done) Hfl') as (r & p' & E & Hres);
        [by apply Forall_dropZ|unfold INT_MAX; lia|rewrite zlen_dropZ; lia|rewrite zlen_app; lia|].
      apply wp_bind. eapply wp_of_eq; [apply os_run; exact E|].
      assert (∀ r, 0 ≤ r ≤ zlen pend - done → takeZ done pend ++ takeZ r (dropZ done b) = takeZ (done + r) pend) as Happ.
      { intros r' Hr'. rewrite takeZ_slice by lia. f_equal. unfold sliceZ. rewrite <- Hpend at 1.
        unfold takeZ, dropZ. rewrite skipn_firstn_comm, take_take. f_equal. lia. }
      destruct Hres as [[Hr Hfl2]|[-> Hfl2]].
      * rewrite <- app_assoc, Happ in Hfl2 by lia.
        destruct (Z.leb_spec r 0).
        -- replace r with 0 in * by lia. rewrite Z.add_0_r in Hfl2.
           unfold fset. apply wp_bind, wp_modify, wp_ret. right. split; [done|]. cbn [s_os s_file].
           split; [|by rewrite Hfile]. split; [done|]. exists (zlen pre + done).
           split; [zlen_lia|]. cbn [s_os s_file f_fd with_err]. rewrite Hfile.
           replace (takeZ (zlen pre + done) (pre ++ pend)) with (pre ++ takeZ done pend); [done|].
           unfold takeZ, zlen in *. rewrite take_app_ge by lia. do 2 f_equal. lia.
        -- apply wp_ret. split; [|lia]. split; [lia|]. split; [done|exact Hfl2].
      * change (-1 <=? 0) with true. unfold fset. apply wp_bind, wp_modify, wp_ret. right. split; [done|].
        cbn [s_os s_file]. split; [|by rewrite Hfile]. split; [done|]. exists (zlen pre + done).
        split; [zlen_lia|]. cbn [s_os s_file f_fd with_err]. rewrite Hfile.
        replace (takeZ (zlen pre + done) (pre ++ pend)) with (pre ++ takeZ done pend); [done|].
        unfold takeZ, zlen in *. rewrite take_app_ge by lia. do 2 f_equal. lia.
    + apply wp_ret. left. replace done with (zlen pend) in * by lia. rewrite takeZ_all in Hfl' by lia.
      split; [done|]. by split.
  - rewrite takeZ_0, app_nil_r. split; [lia|done].
  - lia.
Qed.

Lemma flush_write_run s pre pend b :
  flushed (s_os s) (f_fd (s_file s)) pre → f_wlen (s_file s) = zlen pend → f_buf (s_file s) = Some b →
  is_bytes b → zlen pend ≤ zlen b → takeZ (zlen pend) b = pend → zlen b ≤ INT_MAX →
  off + zlen pre + zlen pend < 4294967295 → f_ms (s_file s) = None → f_pos (s_file s) = off + zlen pre →
  ∃ r s', flush_write junk s = Ret r s' ∧
    ((r = 0 ∧ flushed (s_os s') (f_fd (s_file s)) (pre ++ pend) ∧
      s_file s' = with_wlen 0 (with_pos (off + zlen (pre ++ pend)) (s_file s))) ∨
     (r = EOF ∧ failed s' (pre ++ pend))).
Proof using Hjunk Hjb Hoff Hone.
  intros Hfl Hwl Hb Hbb Hle Hpend Hcap Hmax Hms Hpos. pose proof (zlen_nonneg pre). pose proof (zlen_nonneg pend).
  unfold flush_write. rewrite (bind_run _ _ (s_file s) s s) by done. rewrite Hwl, Hms.
  destruct (Z.eqb_spec (zlen pend) 0) as [E0|Hne].
  - exists 0, s. split; [done|]. left. split; [done|]. destruct pend as [|? ?]; [|zlen_lia].
    rewrite app_nil_r. split; [done|]. rewrite <- Hpos. change (zlen []) with 0 in *. destruct (s_file s).
    cbn in *. by subst.
  - destruct (flush_loop_run s pre pend b) as (r & s' & E & Hres); [done..|].
    rewrite (bind_run _ _ _ _ _ E). destruct Hres as [(-> & Hfl' & Hfile)|(-> & Hfail & _)].
    + change (0 =? EOF) with false. cbn iota.
      rewrite (bind_run _ _ _ _ _ (advance_run (zlen pend) s' ltac:(lia) ltac:(rewrite Hfile; lia)
        ltac:(rewrite Hfile; unfold LLONG_MAX; lia))).
      eexists _, _. split; [reflexivity|]. left. split; [done|]. cbn [s_os s_file]. split; [done|].
      rewrite Hfile, Hpos, zlen_app. by rewrite Z.add_assoc.
    + change (EOF =? EOF) with true. exists EOF, s'. split; [done|]. by right.
Qed.
Lemma ensure_buf_writes s pre pend : writes s pre pend →
  ∃ s' b, ensure_buf junk s = Ret 0 s' ∧ writes s' pre pend ∧ f_buf (s_file s') = Some b ∧
    f_bufmode (s_file s') = f_bufmode (s_file s).
Proof using Hjunk Hjb Halloc.
  intros Hw. unfold ensure_buf. rewrite (bind_run _ _ (s_file s) s s) by done.
  destruct (f_buf (s_file s)) as [b|] eqn:Eb; [exists s, b; done|].
  destruct (Halloc (world (s_os s))) as (w & Ew & Hv). unfold malloc.
  set (b := takeZ BUFSIZ (junk ++ replicate (Z.to_nat BUFSIZ) 0)).
  assert (zlen b = BUFSIZ) as Hb.
  { unfold b, BUFSIZ. apply zlen_takeZ. rewrite zlen_app, Hjunk. unfold RC_FS_MSG_MAX. zlen_lia. }
  rewrite (bind_run _ _ (Some b) _ (Stream (set_world w (s_os s)) (s_file s))).
  2:{ rewrite (bind_run _ _ _ _ _ (os_run _ _ _ _ (sys_run _ _ _ _ Ew))). done. }
  cbn beta iota. eexists _, b. split; [reflexivity|]. split; [|done].
  destruct Hw as [(e & Hf & He & Ho & Hv0) H1 H2 H3 H4 H7 H5 H6]. rewrite Eb in H6.
  split; cbn [s_file s_os f_fd f_rlen f_rpos f_pos f_ungot f_wlen f_buf f_cap f_ms f_bufmode with_buf]; try done.
  - exists e. destruct Hf as [? ? ? ? Hc Hd]. split.
    + split; try done; unfold held in *; cbn [world set_world]; by rewrite Hv.
    + split; [done|]. split; [done|]. cbn [world set_world]. by rewrite Hv.
  - rewrite H6. split; [done|]. split; [unfold INT_MAX, BUFSIZ; lia|]. split; [|done].
    apply Forall_takeZ, Forall_app. split; [done|]. apply Forall_replicate. lia.
Qed.

(** The state after one more character was put into the buffer. *)
Lemma buffer_char s pre pend b c : writes s pre pend → f_buf (s_file s) = Some b → is_byte c →
  ∃ b', upd b (f_wlen (s_file s)) c = Some b' ∧ zlen b' = zlen b ∧ is_bytes b' ∧
    takeZ (zlen (pend ++ [c])) b' = pend ++ [c].
Proof using.
  clear Hjunk. intros [_ Hwl _ _ _ _ _ Hb] Eb Hc. rewrite Eb in Hb. destruct Hb as (Hl & Hcap & Hbb & Hlt & Ht).
  pose proof (zlen_nonneg pend). rewrite Hwl. exists (<[Z.to_nat (zlen pend) := c]> b).
  split; [by apply upd_Some; lia|]. split; [unfold zlen; by rewrite length_insert|].
  split; [by apply Forall_insert|].
  assert (idx (<[Z.to_nat (zlen pend):=c]> b) (zlen pend) = Some c) as Hi.
  { unfold idx. rewrite decide_False by lia. apply list_lookup_insert_eq. unfold zlen in *. lia. }
  rewrite zlen_app. change (zlen [c]) with 1. rewrite (takeZ_snoc _ _ _ Hi). f_equal.
  rewrite <- Ht at 3. unfold takeZ, zlen. rewrite Nat2Z.id. by apply take_insert_ge.
Qed.

Lemma fputc_writes s pre pend c : writes s pre pend → is_byte c →
  off + zlen pre + zlen pend + 1 < 4294967295 →
  ∃ r s', fputc junk c s = Ret r s' ∧
    ((r = c ∧ ∃ pre' pend', pre' ++ pend' = (pre ++ pend) ++ [c] ∧ writes s' pre' pend') ∨
     (r = EOF ∧ failed s' ((pre ++ pend) ++ [c]))).
Proof using Hjunk Hjb Halloc Hoff Hone.
  intros Hw Hc Hmax. pose proof (zlen_nonneg pre). pose proof (zlen_nonneg pend). unfold fputc.
  rewrite (bind_run _ _ (s_file s) s s) by done.
  destruct (w_read _ _ _ Hw) as (Hrp & Hrl & Hu). rewrite Hrp, Hrl, Hu.
  change ((0 <? 0) || (0 <=? -1)) with false. cbn iota.
  rewrite (bind_run _ _ tt s s) by done. rewrite u8_id by done.
  destruct (Z.eqb_spec (f_bufmode (s_file s)) _IONBF) as [Emode|Emode].
  - assert (pend = []) as -> by exact (w_unbuf _ _ _ Hw Emode). rewrite app_nil_r. change (zlen []) with 0 in *.
    pose proof Hw as [Hfl G1 G2 G3 G4 G7 G5 G6].
    destruct (flushed_write (s_os s) (f_fd (s_file s)) pre [c] 1 Hfl) as (r & p' & E & Hres);
      [by constructor|unfold INT_MAX; lia|reflexivity|lia|].
    rewrite (bind_run _ _ _ _ _ (os_run _ _ _ s E)).
    destruct (Z.eqb_spec r 1) as [->|Hr1]; cbn [negb].
    + destruct Hres as [[_ Hfl']|[? _]]; [|lia]. rewrite takeZ_all in Hfl' by done.
      rewrite (bind_run _ _ _ _ _ (advance_run 1 (Stream p' (s_file s)) ltac:(lia) ltac:(cbn [s_file]; lia)
        ltac:(unfold LLONG_MAX; cbn [s_file]; lia))).
      eexists c, _. split; [reflexivity|]. left. split; [done|]. exists (pre ++ [c]), [].
      split; [by rewrite app_nil_r|]. cbn [s_os s_file].
      split; cbn [s_file s_os f_fd f_rlen f_rpos f_pos f_ungot f_wlen f_buf f_cap f_ms f_bufmode with_pos]; try done.
      rewrite G2. zlen_lia.
    + eexists EOF, _. split; [reflexivity|]. right. split; [done|]. split; [done|]. cbn [s_file s_os f_fd with_err].
      exists (zlen pre). split; [zlen_lia|]. rewrite takeZ_app_zlen.
      destruct Hres as [[Hr Hfl']|[_ Hfl']]; [|done]. replace r with 0 in * by lia.
      by rewrite takeZ_0, app_nil_r in Hfl'.
  - destruct (ensure_buf_writes s pre pend Hw) as (s1 & b & E1 & Hw1 & Hb1 & Em1).
    rewrite (bind_run _ _ _ _ _ E1). change (0 <? 0) with false. cbn iota.
    rewrite (bind_run _ _ (s_file s1) s1 s1) by done.
    rewrite (bind_run _ _ b s1 s1) by (unfold the_buf, bind, the_file, gets; by rewrite Hb1).
    destruct (buffer_char s1 pre pend b c Hw1 Hb1 Hc) as (b' & -> & Hl' & Hbb' & Ht').
    pose proof Hw1 as [Hfl G1 G2 G3 G4 G7 G5 G6]. rewrite Hb1 in G6. destruct G6 as (Hl & Hcap & Hbb & Hlt & Ht).
    rewrite (bind_run _ _ b' s1 s1) by done.
    set (s2 := Stream (s_os s1) (with_wlen (f_wlen (s_file s1) + 1)
      (with_buf (f_owned (s_file s1)) (Some b') (f_cap (s_file s1)) (s_file s1)))).
    rewrite (bind_run _ _ tt s1 (Stream (s_os s1) (with_buf (f_owned (s_file s1)) (Some b') (f_cap (s_file s1)) (s_file s1)))) by done.
    rewrite (bind_run _ _ tt _ s2) by done.
    assert (zlen (pend ++ [c]) = zlen pend + 1) as Hzp by zlen_lia.
    destruct (((f_wlen (s_file s1) + 1 =? f_cap (s_file s1)) ||
      (f_bufmode (s_file s1) =? _IOLBF) && (c =? 10))) eqn:Efl.
    + destruct (flush_write_run s2 pre (pend ++ [c]) b') as (r & s3 & E3 & Hres);
        unfold s2; cbn [s_file s_os f_fd f_pos f_wlen f_buf f_ms with_wlen with_buf]; try done; try lia;
        rewrite ?Hzp; try lia.
      fold s2. rewrite (bind_run _ _ _ _ _ E3). destruct Hres as [(-> & Hfl' & Hfile)|(-> & Hfail)].
      * change (0 =? EOF) with false. exists c, s3. split; [done|]. left. split; [done|].
        exists (pre ++ pend ++ [c]), []. split; [by rewrite app_nil_r, <- app_assoc|].
        split; rewrite Hfile; unfold s2;
          cbn [s_file s_os f_fd f_rlen f_rpos f_pos f_ungot f_wlen f_buf f_cap f_ms f_bufmode with_pos with_wlen with_buf]; try done.
        -- change (zlen []) with 0. split; [lia|]. split; [done|]. split; [done|]. split; [lia|done].
      * change (EOF =? EOF) with true. exists EOF, s3. split; [done|]. right. split; [done|].
        by rewrite <- app_assoc.
    + rewrite (bind_run _ _ 0 s2 s2) by done. change (0 =? EOF) with false. exists c, s2. split; [done|].
      left. split; [done|]. exists pre, (pend ++ [c]). split; [by rewrite app_assoc|].
      unfold s2. split; cbn [s_file s_os f_fd f_rlen f_rpos f_pos f_ungot f_wlen f_buf f_cap f_ms f_bufmode with_wlen with_buf]; try done.
      * lia.
      * rewrite Em1. done.
      * split; [lia|]. split; [lia|]. split; [done|]. split; [lia|done].
Qed.
Lemma fwrite_writes s pre pend data n : writes s pre pend → is_bytes data → zlen data = n → 0 < n →
  off + zlen pre + zlen pend + n < 4294967295 →
  ∃ k s', fwrite junk data 1 n s = Ret k s' ∧
    ((k = n ∧ ∃ pre' pend', pre' ++ pend' = (pre ++ pend) ++ data ∧ writes s' pre' pend') ∨
     (0 ≤ k < n ∧ failed s' ((pre ++ pend) ++ takeZ (k + 1) data))).
Proof using Hjunk Hjb Halloc Hoff Hone.
  intros Hw Hd Hn Hpos Hmax. pose proof (zlen_nonneg pre). pose proof (zlen_nonneg pend).
  unfold fwrite. replace ((1 =? 0) || (n =? 0)) with false by lia. rewrite Z.mul_1_l, u64_id by lia. cbn zeta.
  set (post := λ k s', (k = n ∧ ∃ pre' pend', pre' ++ pend' = (pre ++ pend) ++ data ∧ writes s' pre' pend') ∨
     (0 ≤ k < n ∧ failed s' ((pre ++ pend) ++ takeZ (k + 1) data))).
  match goal with |- ∃ k s', bind ?l _ _ = _ ∧ _ => assert (wp l post s) as Hwp end.
  2:{ apply wp_inv in Hwp as (k & s' & E & Hres). exists k, s'.
      by rewrite (bind_run _ _ _ _ _ E), Z.div_1_r. }
  apply (wp_loop _ (λ i s', 0 ≤ i ≤ n ∧
      ∃ pre' pend', pre' ++ pend' = (pre ++ pend) ++ takeZ i data ∧ writes s' pre' pend') (λ i _, n - i)).
  - intros i s' [? _]. lia.
  - intros i s' (Hi & pre' & pend' & Eapp & Hw'). pose proof (f_equal zlen Eapp) as Elen.
    rewrite !zlen_app, zlen_takeZ in Elen by lia.
    destruct (Z.ltb_spec i n).
    + destruct (idx_is_Some data i) as [c Hc]; [lia|]. rewrite Hc. apply wp_bind, wp_ret.
      pose proof (idx_is_byte _ _ _ Hd Hc).
      destruct (fputc_writes s' pre' pend' c Hw') as (r & s2 & E & Hres); [done|lia|].
      apply wp_bind. eapply wp_of_eq; [exact E|].
      rewrite Eapp, <- app_assoc, <- (takeZ_snoc _ _ _ Hc) in Hres.
      destruct Hres as [(-> & Hnext)|(-> & Hfail)].
      * replace (c =? EOF) with false by (unfold EOF; lia). apply wp_ret. split; [|lia]. split; [lia|done].
      * change (EOF =? EOF) with true. apply wp_ret. right. split; [lia|done].
    + apply wp_ret. replace i with n in * by lia. left. split; [done|].
      rewrite takeZ_all in Eapp by lia. eauto.
  - split; [lia|]. exists pre, pend. by rewrite takeZ_0, app_nil_r.
  - lia.
Qed.

Lemma flush_writes s pre pend : writes s pre pend → off + zlen pre + zlen pend < 4294967295 →
  ∃ r s', flush_write junk s = Ret r s' ∧
    ((r = 0 ∧ writes s' (pre ++ pend) []) ∨ (r = EOF ∧ failed s' (pre ++ pend))).
Proof using Hjunk Hjb Hoff Hone.
  intros Hw Hmax. pose proof Hw as [Hfl G1 G2 G3 G4 G7 G5 G6].
  destruct (f_buf (s_file s)) as [b|] eqn:Eb.
  - destruct G6 as (Hl & Hcap & Hbb & Hlt & Ht).
    destruct (flush_write_run s pre pend b) as (r & s' & E & Hres); [done|done|done|done|lia|done|lia|done|done|done|].
    exists r, s'. split; [done|]. destruct Hres as [(-> & Hfl' & Hfile)|?]; [left|by right].
    split; [done|]. split; rewrite Hfile;
      cbn [f_fd f_rlen f_rpos f_pos f_ungot f_wlen f_buf f_cap f_ms f_bufmode with_pos with_wlen]; try done.
    rewrite Eb. change (zlen []) with 0. split; [done|]. split; [done|]. split; [done|]. split; [lia|done].
  - subst pend. change (zlen []) with 0 in *. exists 0, s. split.
    + unfold flush_write. rewrite (bind_run _ _ (s_file s) s s) by done. by rewrite G1.
    + left. rewrite app_nil_r. split; [done|]. split; try done. by rewrite Eb.
Qed.

(** Going back to the start, ready to read what was written. *)
Lemma fseek_writes s pre pend : writes s pre pend →
  Z.max (zlen c0) (off + zlen pre + zlen pend) < 2147483648 →
  ∃ r s', fseek junk off SEEK_SET s = Ret r s' ∧
    ((r = 0 ∧ reads s' path (write_at off (pre ++ pend) c0) off ∧
      view (world (s_os s')) = set_files (<[srv path := write_at off (pre ++ pend) c0]> (v_files v0)) v0) ∨
     (r = -1 ∧ failed s' (pre ++ pend))).
Proof using Hjunk Hjb Hoff Hone.
  intros Hw Hmax. pose proof (zlen_nonneg pre). pose proof (zlen_nonneg pend).
  destruct (flush_writes s pre pend Hw ltac:(lia)) as (r & s1 & E & Hres).
  unfold fseek. rewrite (bind_run _ _ _ _ _ E).
  destruct Hres as [(-> & Hw1)|(-> & Hfail)].
  2:{ change (EOF =? EOF) with true. exists (-1), s1. split; [done|]. by right. }
  change (0 =? EOF) with false. cbn iota.
  destruct s1 as [p1 f1]. destruct Hw1 as [(e & Hf & He & Ho & Hv) G1 G2 G3 G4 G7 G5 G6]. cbn [s_os s_file] in *.
  rewrite (bind_run _ _ tt _ (Stream p1 (with_ungot (-1) f1))) by done.
  set (f2 := with_read 0 0 (with_ungot (-1) f1)).
  rewrite (bind_run _ _ tt _ (Stream p1 f2)) by done.
  rewrite (bind_run _ _ f2 (Stream p1 f2) (Stream p1 f2)) by done.
  set (c := write_at off (pre ++ pend) c0) in *.
  assert (zlen c = Z.max (zlen c0) (off + zlen pre + zlen pend)) as Hzc.
  { unfold c. rewrite zlen_write_at by done. rewrite zlen_app. lia. }
  rewrite zlen_app in Ho.
  destruct (lseek_run junk Hjunk Hjb p1 (f_fd f1) e c off SEEK_SET Hf) as (w & Hvw & El);
    [lia|unfold LLONG_MAX; lia|unfold LLONG_MIN, LLONG_MAX; lia|].
  cbn [seek_base SEEK_SET Z.eqb] in El. change (seek_base p1 e c SEEK_SET) with (Some 0) in El. cbn beta iota in El.
  rewrite Z.add_0_l in El. replace (off <? 0) with false in El by lia.
  rewrite (bind_run _ _ _ _ _ (os_run (lseek junk (f_fd f1) off SEEK_SET) _ _ (Stream p1 f2) El)).
  cbn [s_file]. replace (off <? 0) with false by lia.
  eexists 0, _. split; [reflexivity|]. left. split; [done|]. cbn [s_os s_file].
  split; [|cbn [world moved set_world]; congruence].
  split; cbn [s_file s_os f_fd f_rlen f_rpos f_pos f_ungot f_wlen f_buf f_cap with_eof with_pos with_read with_ungot f2]; try done; try lia.
  - exists (with_off off e). split; [|split; [done|cbn [fd_off with_off]; lia]].
    by apply (file_on_view (srv (fd_path e))).
  - destruct (f_buf f1) as [b|]; [|done]. destruct G6 as (Hl & Hcap & _ & _ & _).
    split; [done|]. split; [done|]. by rewrite takeZ_0, sliceZ_0.
  - unfold BUFSIZ, INT_MAX in *. lia.
Qed.
End writing.

(** fwrite, back with fseek, fread: the characters read, or [None] at the first
    call that reports an error. *)
Definition put_and_get {K} `{Kernel K} (junk : bytes) (off : Z) (data : bytes) : M (stream K) (option bytes) :=
  k <- fwrite junk data 1 (zlen data) ;;
  if k <? zlen data then ret None
  else
    r <- fseek junk off SEEK_SET ;;
    if negb (r =? 0) then ret None
    else let* (_, got) := fread junk 1 (zlen data) in ret (Some got).

(** C2: what is written into a stream comes back when it is read again: fwrite,
    fseek to where writing started and fread yield exactly the characters
    written, and the file holds them in place, or one of the calls reports an
    error, the stream's error flag is set, and the file has at most a prefix of
    them more; whatever the buffering mode, the state of the buffer and the
    amount the file server takes and delivers at a time.  This holds of a path
    that is in no union, or whose first union member is the one that receives
    creation ([Hone]): elsewhere what is read is another file than what was
    written ([RcPosix.union_write_read_apart]).  The heap serves the stream's
    buffer, and the file stays below 2 GiB. *)
Theorem stdio_roundtrip {K} `{FileServer K} (junk : bytes) (path c0 : bytes) (v0 : fsview) (off : Z)
    (s : stream K) (data : bytes)
    (Hjunk : zlen junk = RC_FS_MSG_MAX) (Hjb : is_bytes junk)
    (Halloc : ∀ s, ∃ w, heap_alloc BUFSIZ s = Ret true w ∧ view w = view s)
    (Hone : srv_c path = srv path)
    (Hoff : 0 ≤ off ≤ zlen c0) (Hc0 : is_bytes c0) (Hd : is_bytes data) (Hne : data ≠ [])
    (Hmax : zlen c0 + zlen data < 2147483648)
    (Hw : writes path v0 c0 off s [] []) :
  ∃ res s', put_and_get junk off data s = Ret res s' ∧
    match res with
    | Some got => got = data ∧
        view (world (s_os s')) = set_files (<[srv path := write_at off data c0]> (v_files v0)) v0
    | None => f_err (s_file s') = true ∧ ∃ k, 0 ≤ k ≤ zlen data ∧
        v_file (world (s_os s')) path = Some (write_at off (takeZ k data) c0)
    end.
Proof.
  assert (0 < zlen data) by (destruct data; [done|zlen_lia]).
  assert (∀ s k, 0 ≤ k ≤ zlen data → failed path v0 c0 off s (takeZ k data) →
    f_err (s_file s) = true ∧ ∃ k, 0 ≤ k ≤ zlen data ∧
        v_file (world (s_os s)) path = Some (write_at off (takeZ k data) c0)) as Hfailed.
  { intros s1 k Hk (He & j & Hj & e & Hf & Hp & _ & _). split; [done|]. rewrite zlen_takeZ in Hj by lia.
    exists j. split; [lia|]. destruct Hf as [_ _ _ _ Hc _]. unfold v_file. rewrite Hp in Hc. rewrite Hc. do 2 f_equal.
    unfold takeZ. rewrite take_take. f_equal. lia. }
  unfold put_and_get.
  destruct (fwrite_writes junk Hjunk Hjb Halloc path v0 c0 off Hoff Hone s [] [] data (zlen data) Hw)
    as (k & s1 & E1 & Hres1); [done|done|done|change (zlen []) with 0; lia|].
  rewrite (bind_run _ _ _ _ _ E1). cbn [app] in Hres1.
  destruct Hres1 as [(-> & pre & pend & Eapp & Hw1)|(Hk & Hfail)].
  2:{ replace (k <? zlen data) with true by lia. exists None, s1. split; [done|].
      apply (Hfailed s1 (k + 1)); [lia|done]. }
  rewrite Z.ltb_irrefl. pose proof (f_equal zlen Eapp) as Elen. rewrite zlen_app in Elen.
  destruct (fseek_writes junk Hjunk Hjb path v0 c0 off Hoff Hone s1 pre pend Hw1 ltac:(lia)) as (r & s2 & E2 & Hres2).
  rewrite (bind_run _ _ _ _ _ E2). rewrite Eapp in Hres2.
  destruct Hres2 as [(-> & Hr2 & Hv2)|(-> & Hfail)].
  2:{ exists None, s2. split; [done|]. apply (Hfailed s2 (zlen data)); [lia|]. by rewrite takeZ_all by lia. }
  change (negb (0 =? 0)) with false. cbn iota.
  assert (is_bytes (write_at off data c0)) as Hwb.
  { unfold write_at. apply Forall_app. split; [by apply Forall_takeZ|]. apply Forall_app.
    split; [done|by apply Forall_dropZ]. }
  pose proof (zlen_write_at off data c0 Hoff) as Hzw.
  destruct (fread_reads junk Hjunk Hjb Halloc s2 path _ off (zlen data) Hr2) as (s3 & E3 & _ & Hv3 & _);
    [lia|unfold INT_MAX; lia|done|].
  rewrite (bind_run _ _ _ _ _ E3). cbn beta iota. eexists (Some _), s3. split; [reflexivity|].
  replace (Z.min (zlen data) _) with (zlen data) by lia.
  split; [by apply sliceZ_write_at|congruence].
Qed.

(** C28: fgets reads the next line and nothing else: the characters up to and
    including the newline, but at most [n - 1], from wherever the stream stands,
    however the file falls into buffers; NULL exactly at the end of the file.
    The stream then stands behind the line and the files are unchanged.  (The
    heap serves the stream's buffer.) *)
Theorem fgets_correct {K} `{FileServer K} (junk : bytes) (s : stream K) (path c : bytes) (pos n : Z)
    (Hjunk : zlen junk = RC_FS_MSG_MAX) (Hjb : is_bytes junk)
    (Halloc : ∀ s, ∃ w, heap_alloc BUFSIZ s = Ret true w ∧ view w = view s)
    (Hr : reads s path c pos) (Hn : 1 < n ≤ INT_MAX) (Hc : is_bytes c) :
  let line := line_of n (dropZ pos c) in
  ∃ s', fgets junk n s = Ret (if pos =? zlen c then None else Some line) s' ∧
    reads s' path c (pos + zlen line) ∧ view (world (s_os s')) = view (world (s_os s)).
Proof.
  cbn zeta. destruct (fgets_reads junk Hjunk Hjb Halloc s path c pos n Hr ltac:(lia) ltac:(lia) Hc)
    as (s' & E & ? & ?).
  exists s'. split; [|done]. rewrite E. replace (1 <? n) with true by lia. by rewrite andb_true_r.
Qed.

(** C30: a write error is not survivable.  When the character that fills the
    buffer of a stream is put in and the flush fails, fputc returns EOF with
    the buffer still marked full, and the next fputc on the stream, with any
    character, stores outside the buffer. *)
Theorem fputc_after_error_overflows {K} `{Kernel K} (junk : bytes) (s : stream K) (b b' : bytes)
    (c c' w : Z) (p' : posix K)
    (Hbuf : f_buf (s_file s) = Some b) (Hcap : f_cap (s_file s) = zlen b)
    (Hfull : f_wlen (s_file s) + 1 = zlen b) (Hpos : 0 ≤ f_wlen (s_file s))
    (Hmode : f_bufmode (s_file s) ≠ _IONBF) (Hms : f_ms (s_file s) = None)
    (Hread : f_rlen (s_file s) ≤ f_rpos (s_file s)) (Hungot : f_ungot (s_file s) = -1)
    (Hput : upd b (f_wlen (s_file s)) (u8 c) = Some b')
    (Herr : write junk (f_fd (s_file s)) b' (zlen b) (s_os s) = Ret w p') (Hw : w ≤ 0) :
  ∃ s', fputc junk c s = Ret EOF s' ∧ fputc junk c' s' = Fault.
Proof.
  set (f1 := with_wlen (zlen b) (with_buf (f_owned (s_file s)) (Some b') (f_cap (s_file s)) (s_file s))).
  assert (zlen b' = zlen b) as Hl'.
  { unfold upd in Hput. case_decide; [|done]. injection Hput as <-. unfold zlen. by rewrite length_insert. }
  assert (∀ c (s : stream K) b, f_buf (s_file s) = Some b → f_rlen (s_file s) ≤ f_rpos (s_file s) →
    f_ungot (s_file s) = -1 → f_bufmode (s_file s) ≠ _IONBF →
    fputc junk c s = (buf <- of_option (upd b (f_wlen (s_file s)) (u8 c)) ;;
      fset (with_buf (f_owned (s_file s)) (Some buf) (f_cap (s_file s))) ;;
      fset (with_wlen (f_wlen (s_file s) + 1)) ;;
      r <- (if (f_wlen (s_file s) + 1 =? f_cap (s_file s)) || ((f_bufmode (s_file s) =? _IOLBF) && (c =? 10))
            then flush_write junk else ret 0) ;;
      if r =? EOF then ret EOF else ret (u8 c)) s) as Hstep.
  { intros c1 s1 b1 Eb Er Eu Em. unfold fputc. rewrite (bind_run _ _ (s_file s1) s1 s1) by done.
    rewrite Eu. replace (f_rpos (s_file s1) <? f_rlen (s_file s1)) with false by lia.
    change (false || (0 <=? -1)) with false. cbn iota. rewrite (bind_run _ _ tt s1 s1) by done.
    replace (f_bufmode (s_file s1) =? _IONBF) with false by lia.
    rewrite (bind_run _ _ 0 s1 s1).
    2:{ unfold ensure_buf. rewrite (bind_run _ _ (s_file s1) s1 s1) by done. by rewrite Eb. }
    change (0 <? 0) with false. cbn iota. rewrite (bind_run _ _ (s_file s1) s1 s1) by done.
    by rewrite (bind_run _ _ b1 s1 s1) by (unfold the_buf, bind, the_file, gets; by rewrite Eb). }
  exists (Stream p' (with_err true f1)). split.
  - rewrite (Hstep c s b) by done. rewrite Hput, (bind_run _ _ b' s s) by done.
    rewrite (bind_run _ _ tt s (Stream (s_os s) (with_buf (f_owned (s_file s)) (Some b') (f_cap (s_file s)) (s_file s)))) by done.
    rewrite (bind_run _ _ tt _ (Stream (s_os s) f1)) by (unfold fset, modify, f1; cbn [s_file s_os]; by rewrite Hfull).
    rewrite Hcap, Hfull, Z.eqb_refl. cbn [orb].
    rewrite (bind_run _ _ EOF _ (Stream p' (with_err true f1))); [done|].
    unfold flush_write. rewrite (bind_run _ _ f1 (Stream (s_os s) f1) (Stream (s_os s) f1)) by done.
    change (f_wlen f1) with (zlen b). replace (zlen b =? 0) with false by lia.
    change (f_ms f1) with (f_ms (s_file s)). rewrite Hms.
    rewrite (bind_run _ _ EOF _ (Stream p' (with_err true f1))); [done|].
    unfold flush_loop. apply loop_break.
    rewrite (bind_run _ _ f1 (Stream (s_os s) f1) (Stream (s_os s) f1)) by done.
    change (f_wlen f1) with (zlen b). replace (0 <? zlen b) with true by lia.
    rewrite (bind_run _ _ b' (Stream (s_os s) f1) (Stream (s_os s) f1)) by done.
    rewrite dropZ_0, Z.sub_0_r.
    rewrite (bind_run _ _ w _ (Stream p' f1)) by (by apply (os_run _ _ _ (Stream (s_os s) f1))).
    replace (w <=? 0) with true by lia. done.
  - rewrite (Hstep c' _ b') by done. cbn [s_file f_wlen with_err f1 with_wlen].
    unfold upd. rewrite decide_False by lia. done.
Qed.

(** ** Concrete runs *)

From S2P Require Import Ram.

Definition ex_stream (contents : bytes) (off : Z) : stream ram :=
  Stream (ex_posix contents off) (with_pos off (new_file 3 true true _IOFBF None)).
Definition ex_v0 (contents : bytes) : fsview := view (world (ex_posix contents 0)).

Lemma ex_alloc (s : ram) : ∃ w, heap_alloc BUFSIZ s = Ret true w ∧ view w = view s.
Proof. exists s. split; reflexivity. Qed.

Lemma ex_writes contents off : 0 ≤ off ≤ zlen contents →
  writes ex_path (ex_v0 contents) contents off (ex_stream contents off) [] [].
Proof.
  intros Hoff. split; try done.
  - exists (ex_ent off). rewrite write_at_nil by done. split; [apply ex_file_at|]. split; [done|].
    split; [change (zlen []) with 0; cbn [fd_off ex_ent]; lia|]. cbn [ex_stream s_os ex_posix world ex_v0].
    pose proof (ex_file_at contents off) as [_ _ _ _ Hc _]. unfold v_file in Hc. cbn [fd_path ex_ent ex_posix world] in Hc.
    rewrite insert_id by exact Hc. change (ex_v0 contents) with (view (ex_ram ex_path contents)).
    unfold set_files. by destruct (view (ex_ram ex_path contents)).
  - change (zlen []) with 0. cbn [ex_stream s_file with_pos f_pos]. lia.
Qed.

Lemma ex_reads contents : zlen contents + BUFSIZ < 4294967296 → reads (ex_stream contents 0) ex_path contents 0.
Proof.
  intros Hs. pose proof (zlen_nonneg contents).
  split; cbn [s_file s_os f_fd f_rlen f_rpos f_pos f_ungot f_wlen f_buf f_cap ex_stream with_pos new_file]; try done; try lia.
  - exists (ex_ent 0). split; [apply ex_file_at|done].
Qed.

(** "there" over "world" in "hello, world". *)
Lemma stdio_roundtrip_witness :
  ∃ res s', put_and_get ex_junk 7 (str "there") (ex_stream (str "hello, world") 7) = Ret res s' ∧
    match res with
    | Some got => got = str "there" ∧ view (world (s_os s')) =
        set_files (<[srv ex_path := str "hello, there"]> (v_files (ex_v0 (str "hello, world")))) (ex_v0 (str "hello, world"))
    | None => f_err (s_file s') = true ∧ ∃ k, 0 ≤ k ≤ 5 ∧
        v_file (world (s_os s')) ex_path = Some (write_at 7 (takeZ k (str "there")) (str "hello, world"))
    end.
Proof.
  apply (stdio_roundtrip ex_junk ex_path (str "hello, world") (ex_v0 (str "hello, world")) 7
    (ex_stream (str "hello, world") 7) (str "there") ex_junk_len ex_junk_bytes ex_alloc ex_one_member);
    [vm_compute; split; discriminate|apply is_bytes_b_sound; reflexivity|apply is_bytes_b_sound; reflexivity|done|
     reflexivity|apply ex_writes; vm_compute; split; discriminate].
Defined.

Lemma fgets_correct_witness :
  ∃ s', fgets ex_junk 80 (ex_stream (str "two" ++ [10] ++ str "lines") 0) = Ret (Some (str "two" ++ [10])) s' ∧
    reads s' ex_path (str "two" ++ [10] ++ str "lines") 4 ∧
    view (world (s_os s')) = view (world (s_os (ex_stream (str "two" ++ [10] ++ str "lines") 0))).
Proof.
  apply (fgets_correct ex_junk (ex_stream (str "two" ++ [10] ++ str "lines") 0) ex_path
    (str "two" ++ [10] ++ str "lines") 0 80 ex_junk_len ex_junk_bytes ex_alloc);
    [apply ex_reads; reflexivity|vm_compute; split; [reflexivity|discriminate]|apply is_bytes_b_sound; reflexivity].
Defined.

(** A stream on the closed descriptor 9 with a buffer of two bytes, one used. *)
Definition ex_bad_stream : stream ram :=
  Stream (ex_posix [] 0) (with_wlen 1 (with_buf true (Some [65; 0]) 2 (new_file 9 false true _IOFBF None))).

Lemma fputc_after_error_overflows_witness :
  ∃ s', fputc ex_junk 66 ex_bad_stream = Ret EOF s' ∧ fputc ex_junk 67 s' = Fault.
Proof.
  apply (fputc_after_error_overflows ex_junk ex_bad_stream [65; 0] [65; 66] 66 67 (-1)
    (set_errno_ EBADF (ex_posix [] 0))); done.
Defined.
