(* ===== verification/Scanf.v ===== *)
(** <stdio.h>, the scanning family: src/lib/racccoon-libc/src/scanf.c.

    The arguments are the pointers [ap] gives; what is stored through them is
    returned as a list in the order of the stores.  [strtold] is a parameter:
    the value's bits and the end offset, as [FloatScan] computes them. *)
From S2P Require Import Prelude CMonad CMemory CBuffer Ctype Kernel RcFd RcPosix CStdlib Printf Stdio.

(** [enum { L_NONE, L_HH, L_H, L_L, L_LL, L_J, L_Z, L_T, L_BIGL }] *)
Inductive len_mod := L_NONE | L_HH | L_H | L_L | L_LL | L_J | L_Z | L_T | L_BIGL.

(** What one store puts in memory: an integer of the type the modifier names, a
    pointer, a floating-point number, characters. *)
Inductive stored :=
  | SInt (len : len_mod) (v : Z)
  | SPtr (v : Z)
  | SFloat (len : len_mod) (v : Z)
  | SText (s : bytes).

Definition s8 (x : Z) : Z := (x + 128) mod 256 - 128.
Definition s16 (x : Z) : Z := (x + 32768) mod 65536 - 32768.

Definition store_int (len : len_mod) (v : Z) : stored :=
  SInt len match len with
  | L_HH => s8 v
  | L_H => s16 v
  | L_L | L_LL | L_J | L_T => s64 v
  | L_Z => u64 v
  | _ => s32 v
  end.

Section scanf.
Context {S : Type} (strtold : bytes → Z * Z).

(** [if (out)]: the stores through a pointer, none through NULL. *)
Definition store_text (out : option Z) (text : bytes) (stores : list (Z * stored)) : list (Z * stored) :=
  match out with Some q => if q =? 0 then stores else stores ++ [(q, SText text)] | None => stores end.

Definition va_ptr (ap : list Z) : M S (Z * list Z) :=
  match ap with p :: ap => ret (p, ap) | [] => fault end.

(** [while (isspace( *s)) s++;] *)
Definition skip_space (s : bytes) (p : Z) : M S Z :=
  loop (λ p, c <- chr s p ;; if isspace c then ret (Continue (p + 1)) else ret (Break p)) p.

Definition scan_width (fmt : bytes) (f : Z) : M S (Z * Z) :=
  loop (λ '(f, width),
    c <- chr fmt f ;;
    if isdigit c then width <- int_ok (width * 10 + (c - 48)) ;; ret (Continue (f + 1, width))
    else ret (Break (f, width))) (f, 0).

Definition scan_length (fmt : bytes) (f : Z) : M S (Z * len_mod) :=
  c <- chr fmt f ;;
  if c =? 104 then
    c <- chr fmt (f + 1) ;; ret (if c =? 104 then (f + 2, L_HH) else (f + 1, L_H))
  else if c =? 108 then
    c <- chr fmt (f + 1) ;; ret (if c =? 108 then (f + 2, L_LL) else (f + 1, L_L))
  else if c =? 106 then ret (f + 1, L_J)
  else if c =? 122 then ret (f + 1, L_Z)
  else if c =? 116 then ret (f + 1, L_T)
  else if c =? 76 then ret (f + 1, L_BIGL)
  else ret (f, L_NONE).

(** [unsigned char set[256]]; [set[c] = 1] for [c] from [a] to [b]. *)
Definition set_chars (a b : Z) (set : list Z) : M S (list Z) :=
  loop (λ '(c, set),
    if c <=? b then set <- of_option (upd set c 1) ;; ret (Continue (c + 1, set))
    else ret (Break set)) (a, set).

(** A [...] set from [f] on: the position behind it, the set, is it negated. *)
Definition scan_set (fmt : bytes) (f : Z) : M S (Z * list Z * Z) :=
  let set := replicate 256 0 in
  c <- chr fmt f ;;
  let '(neg, f) := if c =? 94 then (1, f + 1) else (0, f) in
  c <- chr fmt f ;;
  let* (f, set) := if c =? 93 then set <- of_option (upd set 93 1) ;; ret (f + 1, set) else ret (f, set) in
  let* (f, set) := loop (λ '(f, set),
    c <- chr fmt f ;;
    if (c =? 0) || (c =? 93) then ret (Break (f, set))
    else
      c1 <- chr fmt (f + 1) ;;
      range <- (if c1 =? 45 then
                  c2 <- chr fmt (f + 2) ;; ret (if (c2 =? 0) || (c2 =? 93) then None else Some c2)
                else ret None) ;;
      match range with
      | Some c2 => set <- set_chars c c2 set ;; ret (Continue (f + 3, set))
      | None => set <- of_option (upd set c 1) ;; ret (Continue (f + 1, set))
      end) (f, set) in
  c <- chr fmt f ;;
  ret (if c =? 93 then f + 1 else f, set, neg).

(** %c: the characters read, and were there enough of them? *)
Definition scan_chars (s : bytes) (p n : Z) : M S (bytes * bool) :=
  loop (λ '(i, out),
    if i <? n then
      c <- chr s (p + i) ;;
      if c =? 0 then ret (Break (out, false)) else ret (Continue (i + 1, out ++ [c]))
    else ret (Break (out, true))) (0, []).

(** %s ([None]) and %[: the characters taken. *)
Definition scan_run_of (s : bytes) (p width : Z) (set : option (list Z * Z)) : M S bytes :=
  loop (λ '(n, out),
    c <- chr s (p + n) ;;
    if negb (c =? 0) && ((width =? 0) || (n <? width)) then
      take <- match set with
              | None => ret (negb (isspace c))
              | Some (set, neg) => v <- of_option (idx set c) ;; ret (negb (v =? neg))
              end ;;
      if negb take then ret (Break out) else ret (Continue (n + 1, out ++ [c]))
    else ret (Break out)) (0, []).

(** At most [max] characters of the input into [buf[512]]. *)
Definition scan_buf (s : bytes) (p max : Z) : M S bytes :=
  loop (λ '(k, buf),
    if k <? max then
      c <- chr s (p + k) ;;
      if c =? 0 then ret (Break buf) else buf <- push 512 buf c ;; ret (Continue (k + 1, buf))
    else ret (Break buf)) (0, []).

(** A number: the characters it takes and what is stored, [None] when there is
    none. *)
Definition scan_number (conv width : Z) (len : len_mod) (s : bytes) (p : Z) : M S (option (Z * stored)) :=
  let max := if negb (width =? 0) && (width <? 511) then width else 511 in
  buf <- scan_buf s p max ;;
  buf <- push 512 buf 0 ;;
  let buf := takeZ (zlen buf - 1) buf in
  if existsb (Z.eqb conv) (str "fegaEGAF") then
    let '(v, e) := strtold buf in
    ret (if e =? 0 then None else Some (e, SFloat len v))
  else if negb (existsb (Z.eqb conv) (str "diuoxXp")) then ret None
  else
    let base := if existsb (Z.eqb conv) (str "du") then 10
                else if conv =? 111 then 8
                else if existsb (Z.eqb conv) (str "xXp") then 16 else 0 in
    let* (v, e) := if existsb (Z.eqb conv) (str "di") then
                     let* (v, e) := strtoll buf base in ret (u64 v, e)
                   else strtoull buf base in
    ret (if e =? 0 then None else Some (e, if conv =? 112 then SPtr v else store_int len v)).

Definition result : Type := Z * list (Z * stored).
Definition scan_state : Type := Z * Z * Z * list Z * list (Z * stored).

(** One conversion that takes input: format position, input position, count,
    pointers and stores after it, or the result of the call. *)
Definition scan_convert (conv width : Z) (len : len_mod) (skip : bool) (fmt s : bytes) (st : scan_state)
    : M S (step scan_state result) :=
  let '(f, p, count, ap, stores) := st in
  if conv =? 99 then
    let n := if width =? 0 then 1 else width in
    let* (out, ap) := if skip then ret (None, ap) else let* (q, ap) := va_ptr ap in ret (Some q, ap) in
    let* (text, ok) := scan_chars s p n in
    let stores := store_text out text stores in
    if ok : bool then ret (Continue (f, p + n, if skip then count else count + 1, ap, stores))
    else ret (Break (count, stores))
  else if (conv =? 115) || (conv =? 91) then
    let* (f, set) := if conv =? 91 then let* (f, set, neg) := scan_set fmt f in ret (f, Some (set, neg))
                     else ret (f, None) in
    let* (out, ap) := if skip then ret (None, ap) else let* (q, ap) := va_ptr ap in ret (Some q, ap) in
    text <- scan_run_of s p width set ;;
    match text with
    | [] => ret (Break (count, stores))
    | _ =>
        let stores := store_text out (text ++ [0]) stores in
        ret (Continue (f, p + zlen text, if skip then count else count + 1, ap, stores))
    end
  else
    r <- scan_number conv width len s p ;;
    match r with
    | None => ret (Break (count, stores))
    | Some (used, v) =>
        if skip then ret (Continue (f, p + used, count, ap, stores))
        else let* (q, ap) := va_ptr ap in
             ret (Continue (f, p + used, count + 1, ap, stores ++ [(q, v)]))
    end.

(** One turn of the loop over the format. *)
Definition scan_turn (str_ fmt : bytes) (st : scan_state) : M S (step scan_state result) :=
  let '(f, p, count, ap, stores) := st in
  c <- chr fmt f ;;
  if c =? 0 then ret (Break (count, stores))
  else if isspace c then p <- skip_space str_ p ;; ret (Continue (f + 1, p, count, ap, stores))
  else
    c1 <- chr fmt (f + 1) ;;
    if negb (c =? 37) || (c1 =? 37) then
      let f := if c =? 37 then f + 1 else f in
      want <- chr fmt f ;;
      got <- chr str_ p ;;
      if negb (got =? want) then ret (Break (count, stores)) else ret (Continue (f + 1, p + 1, count, ap, stores))
    else
      let f := f + 1 in
      let '(skip, f) := if c1 =? 42 then (true, f + 1) else (false, f) in
      let* (f, width) := scan_width fmt f in
      let* (f, len) := scan_length fmt f in
      conv <- chr fmt f ;;
      if conv =? 0 then ret (Break (count, stores))
      else
        let f := f + 1 in
        if conv =? 110 then
          if skip : bool then ret (Continue (f, p, count, ap, stores))
          else let* (q, ap) := va_ptr ap in
               ret (Continue (f, p, count, ap, stores ++ [(q, store_int len p)]))
        else
          p <- (if negb (conv =? 99) && negb (conv =? 91) then skip_space str_ p else ret p) ;;
          c <- chr str_ p ;;
          if c =? 0 then ret (Break (if count =? 0 then EOF else count, stores))
          else scan_convert conv width len skip fmt str_ (f, p, count, ap, stores).

Definition vsscanf (str_ fmt : bytes) (ap : list Z) : M S result :=
  loop (scan_turn str_ fmt) (0, 0, 0, ap, []).
Definition sscanf (str_ fmt : bytes) (ap : list Z) : M S result := vsscanf str_ fmt ap.
End scanf.

(** ** Stream scanning: one line, then the string scanner *)
Section stream.
Context {K : Type} `{!Kernel K} (junk : bytes) (strtold : bytes → Z * Z).

Definition vfscanf (fmt : bytes) (ap : list Z) : M (stream K) result :=
  line <- fgets junk 4096 ;;
  match line with
  | None => ret (EOF, [])
  | Some line => vsscanf strtold (c_str line) fmt ap
  end.
Definition fscanf (fmt : bytes) (ap : list Z) : M (stream K) result := vfscanf fmt ap.
Definition scanf (fmt : bytes) (ap : list Z) : M (stdio K) result := on stdin (vfscanf fmt ap).
End stream.

(** * Lemmas *)

Lemma skip_space_run {S} (s : bytes) p (st : S) : 0 ≤ p ≤ zlen s → zlen s < 18446744073709551616 →
  skip_space s p st = Ret (p + zlen (take_while isspace (dropZ p s))) st.
Proof. by apply scan_run. Qed.

Lemma scan_buf_run {S} (s : bytes) p max (st : S) : c_chars s → 0 ≤ p ≤ zlen s → 0 ≤ max ≤ 511 →
  scan_buf s p max st = Ret (takeZ max (dropZ p s)) st.
Proof.
  intros Hs Hp Hm. pose proof (zlen_dropZ p s ltac:(lia)) as Hd.
  set (r := dropZ p s) in *. pose proof (zlen_nonneg r).
  apply (loop_steps _ (λ k, (k, takeZ k r)) (λ _, st) (Z.min max (zlen r))); [lia| |done| |].
  - by rewrite takeZ_0.
  - intros k Hk. destruct (idx_is_Some r k) as [c Hc]; [lia|]. cbn beta iota.
    replace (k <? max) with true by lia.
    rewrite (bind_run _ _ _ _ _ (chr_run s (p + k) st ltac:(lia))).
    unfold chrv. rewrite <- idx_dropZ by lia. fold r. rewrite Hc. cbn [default from_option id].
    pose proof (idx_c_char _ _ _ (Forall_dropZ _ p _ Hs) Hc). replace (c =? 0) with false by lia.
    rewrite (bind_run _ _ _ _ _ (push_run 512 (takeZ k r) c st ltac:(rewrite zlen_takeZ by lia; lia))).
    by rewrite (takeZ_snoc _ _ _ Hc).
  - cbn beta iota. destruct (Z.ltb_spec (Z.min max (zlen r)) max).
    + rewrite (bind_run _ _ _ _ _ (chr_run s (p + Z.min max (zlen r)) st ltac:(lia))).
      unfold chrv. rewrite <- idx_dropZ by lia. fold r. rewrite idx_None by lia. cbn [default from_option id].
      change (0 =? 0) with true. cbn iota. rewrite !takeZ_all by lia. done.
    + unfold ret. do 2 f_equal. f_equal. lia.
Qed.

(** A decimal number with anything but a digit behind it, and at most 511
    characters long, is read as it stands. *)
Lemma scan_number_run {S} strtold width len (s : bytes) p (neg : bool) v ds b (st : S) :
  c_chars s → 0 ≤ p ≤ zlen s → zlen s < 18446744073709551616 → width = 0 →
  dropZ p s = (if neg then [45] else []) ++ ds ++ replicate b 32 →
  numeral 10 v ds → ds ≠ [] → 1 + zlen ds ≤ 511 → 0 ≤ v ≤ LLONG_MAX →
  scan_number strtold 100 width len s p st
  = Ret (Some ((if neg then 1 else 0) + zlen ds, store_int len (u64 (if neg then - v else v)))) st.
Proof.
  intros Hs Hp Hlen -> E Hnum Hne Hl Hv. unfold scan_number, LLONG_MAX in *.
  change (negb (0 =? 0) && (0 <? 511)) with false. cbn iota zeta.
  rewrite (bind_run _ _ _ _ _ (scan_buf_run s p 511 st Hs Hp ltac:(lia))).
  remember (if neg then [45] else []) as sign eqn:Es.
  assert (zlen sign = if neg then 1 else 0) as Hsg by (subst sign; by destruct neg).
  assert (0 ≤ zlen sign ≤ 1) as Hsg2 by (rewrite Hsg; destruct neg; lia).
  assert (∃ b', takeZ 511 (dropZ p s) = sign ++ ds ++ replicate b' 32) as (b' & Eb).
  { rewrite E, !app_assoc. eexists. rewrite app_assoc, takeZ_app_r by zlen_lia.
    by rewrite takeZ_replicate. }
  rewrite Eb. pose proof (zlen_dropZ p s ltac:(lia)) as Hd.
  assert (zlen (sign ++ ds ++ replicate b' 32) ≤ 511) as Hb by (rewrite <- Eb; apply zlen_takeZ_le; lia).
  rewrite (bind_run _ _ _ _ _ (push_run 512 (sign ++ ds ++ replicate b' 32) 0 st ltac:(lia))). rewrite zlen_app.
  change (zlen [0]) with 1. rewrite Z.add_simpl_r, takeZ_app_zlen.
  change (existsb (Z.eqb 100) (str "fegaEGAF")) with false.
  change (existsb (Z.eqb 100) (str "diuoxXp")) with true.
  change (existsb (Z.eqb 100) (str "du")) with true.
  change (existsb (Z.eqb 100) (str "di")) with true. cbn [negb]. cbn iota zeta.
  unfold strtoll.
  rewrite (bind_run _ _ (u64 (if neg then - v else v), zlen sign + zlen ds) st st).
  - cbn iota beta. pose proof (zlen_pos ds Hne).
    replace (zlen sign + zlen ds =? 0) with false by lia. by rewrite Hsg.
  - rewrite (bind_run _ _ (if neg then - v else v, zlen sign + zlen ds) st st); [done|].
    rewrite (bind_run _ _ (u64 (if neg then - v else v), zlen sign + zlen ds) st st).
    + rewrite s64_u64 by (destruct neg; lia). done.
    + rewrite strtoull_run by lia.
      pose proof (number_at_field 0 neg v ds (replicate b' 32) Hnum Hne ltac:(by destruct b')) as Hf.
      cbn [replicate app] in Hf. rewrite <- Es in Hf. rewrite Hf.
      rewrite (u64_id v) by lia. replace (v =? 9223372036854775808) with false by lia.
      rewrite andb_false_r. rewrite Hsg. done.
Qed.

(** The whole call on "%ld". *)
Lemma sscanf_ld {S} strtold (s : bytes) q k (neg : bool) v ds b (st : S) :
  c_chars s → zlen s < 18446744073709551616 → s = replicate k 32 ++ (if neg then [45] else []) ++ ds ++ replicate b 32 →
  numeral 10 v ds → ds ≠ [] → 1 + zlen ds ≤ 511 → 0 ≤ v ≤ LLONG_MAX →
  sscanf strtold s (str "%ld") [q] st = Ret (1, [(q, SInt L_L (if neg then - v else v))]) st.
Proof.
  intros Hs Hlen E Hnum Hne Hl Hv. unfold LLONG_MAX in *.
  set (r := (if neg then [45] else []) ++ ds ++ replicate b 32) in *.
  assert (∃ c r', r = c :: r' ∧ isspace c = false) as (c & r' & Er & Hc).
  { subst r. destruct neg; [by eexists _, _|]. destruct ds as [|d ds]; [done|]. eexists _, _. split; [done|].
    destruct Hnum as [[Hd _]%Forall_cons _]. unfold isspace. lia. }
  assert (take_while isspace s = replicate k 32) as Htw.
  { rewrite E. apply take_while_stop; [by apply Forall_replicate|]. rewrite Er. intros x y [= <- _]. done. }
  assert (dropZ (Z.of_nat k) s = r) as Hdr.
  { rewrite E, <- (zlen_replicate k 32). apply dropZ_app_zlen. }
  assert (0 ≤ Z.of_nat k ≤ zlen s) as Hk by (rewrite E; zlen_lia).
  assert (chrv s (Z.of_nat k) = c) as Hch by (rewrite chrv_hd, Hdr, Er by lia; done).
  assert (0 < c) as Hc0.
  { rewrite E, Er in Hs. apply c_chars_app in Hs as [_ [? _]%Forall_cons]. lia. }
  set (used := (if neg then 1 else 0) + zlen ds).
  apply (loop_once _ _ _ (3, Z.of_nat k + used, 1, [], [(q, SInt L_L (if neg then - v else v))]) st); [|done].
  unfold scan_turn.
  rewrite (bind_run _ _ 37 _ st) by done. change (37 =? 0) with false. change (isspace 37) with false. cbn beta iota.
  rewrite (bind_run _ _ 108 _ st) by done. change (negb (37 =? 37) || (108 =? 37)) with false. cbn beta iota zeta.
  change (108 =? 42) with false. cbn beta iota.
  rewrite (bind_run _ _ (1, 0) _ st) by (by apply loop_break). cbn beta iota.
  rewrite (bind_run _ _ (2, L_L) _ st) by done. cbn beta iota.
  rewrite (bind_run _ _ 100 _ st) by done. change (100 =? 0) with false. change (100 =? 110) with false.
  change (negb (100 =? 99) && negb (100 =? 91)) with true. cbn beta iota zeta.
  rewrite (bind_run _ _ _ _ _ (skip_space_run s 0 st ltac:(lia) Hlen)). rewrite dropZ_0, Htw, zlen_replicate, Z.add_0_l.
  rewrite (bind_run _ _ _ _ _ (chr_run s (Z.of_nat k) st Hk)), Hch. replace (c =? 0) with false by lia. cbn iota.
  unfold scan_convert. change (100 =? 99) with false. change ((100 =? 115) || (100 =? 91)) with false. cbn iota.
  rewrite (bind_run _ _ _ _ _ (scan_number_run strtold 0 L_L s (Z.of_nat k) neg v ds b st Hs Hk Hlen eq_refl Hdr
    Hnum Hne Hl ltac:(unfold LLONG_MAX; lia))). cbn beta iota.
  unfold va_ptr. rewrite bind_ret. cbn beta iota. unfold store_int.
  rewrite s64_u64 by (destruct neg; lia). done.
Qed.

Lemma c_chars_numeral base v ds : numeral base v ds → c_chars ds.
Proof.
  intros [Hd _]. eapply Forall_impl; [exact Hd|]. intros x [_ Hx]. cbn beta in Hx. lia.
Qed.



(** Sets, suppression, characters, %n and the end of the input. *)
Example sscanf_mixed :
  sscanf (λ _, (0, 0)) (str "key-1 = [0x1F] xyz") (str "%[a-z-]%d = [%i] %2c%n %s %d") [1; 2; 3; 4; 5; 6; 7] tt
  = Ret (5, [(1, SText (str "key-" ++ [0])); (2, SInt L_NONE 1); (3, SInt L_NONE 31); (4, SText (str "xy"));
             (5, SInt L_NONE 17); (6, SText (str "z" ++ [0]))]) tt.
Proof. vm_compute. reflexivity. Qed.
Example sscanf_eof : sscanf (λ _, (0, 0)) (str "  ") (str "%d") [1] tt = Ret (EOF, []) tt.
Proof. vm_compute. reflexivity. Qed.
