(* ===== verification/Inttypes.v ===== *)
(** <inttypes.h>, <stdint.h>, <limits.h>: the headers of these names in
    src/lib/racccoon-libc/include.

    The integer types with the C types they are, their limits, and the tables of
    the format macros: [PRI c t] is the text of PRI<c><t>, [SCN c t] that of
    SCN<c><t>, for the conversion character [c] and the type [t].  The theorems
    connect the tables to printf.c and scanf.c: the macros of a type print every
    value of it and read it back into exactly its bytes. *)
From S2P Require Import Prelude CMonad CMemory CBuffer Ctype CStdlib Printf Scanf.

(** The standard integer types, each the signed and the unsigned one. *)
Inductive c_int := Char | Short | Int | Long.
Definition sizeof (t : c_int) : Z := match t with Char => 1 | Short => 2 | Int => 4 | Long => 8 end.
Definition bits (t : c_int) : Z := 8 * sizeof t.

Inductive width := W8 | W16 | W32 | W64.
(** intN_t, int_leastN_t, int_fastN_t, intmax_t, intptr_t *)
Inductive int_type := Exact (w : width) | Least (w : width) | Fast (w : width) | MAX | PTR.
Definition nominal (w : width) : Z := match w with W8 => 8 | W16 => 16 | W32 => 32 | W64 => 64 end.

Definition int_t (t : int_type) : c_int :=
  match t with
  | Exact W8 | Least W8 => Char
  | Exact W16 | Least W16 => Short
  | Exact W32 | Least W32 => Int
  | Exact W64 | Least W64 => Long
  | Fast W8 | Fast W16 | Fast W32 => Int
  | Fast W64 => Long
  | MAX | PTR => Long
  end.
Definition uint_t (t : int_type) : c_int :=
  match t with
  | Exact W8 | Least W8 => Char
  | Exact W16 | Least W16 => Short
  | Exact W32 | Least W32 => Int
  | Exact W64 | Least W64 => Long
  | Fast W8 | Fast W16 | Fast W32 => Int
  | Fast W64 => Long
  | MAX | PTR => Long
  end.
Definition type_of (sgn : bool) (t : int_type) : c_int := if sgn then int_t t else uint_t t.

Definition INT8_MIN : Z := -128.
Definition INT16_MIN : Z := -32768.
Definition INT32_MIN : Z := -2147483647 - 1.
Definition INT64_MIN : Z := -9223372036854775807 - 1.
Definition INT8_MAX : Z := 127.
Definition INT16_MAX : Z := 32767.
Definition INT32_MAX : Z := 2147483647.
Definition INT64_MAX : Z := 9223372036854775807.
Definition UINT8_MAX : Z := 255.
Definition UINT16_MAX : Z := 65535.
Definition UINT32_MAX : Z := 4294967295.
Definition UINT64_MAX : Z := 18446744073709551615.
Definition INTPTR_MIN : Z := INT64_MIN.
Definition INTPTR_MAX : Z := INT64_MAX.
Definition UINTPTR_MAX : Z := UINT64_MAX.
Definition INTMAX_MIN : Z := INT64_MIN.
Definition INTMAX_MAX : Z := INT64_MAX.
Definition UINTMAX_MAX : Z := UINT64_MAX.

(** <limits.h>, for the types by their C names *)
Definition CHAR_BIT : Z := 8.
Definition SCHAR_MIN : Z := -128.
Definition SCHAR_MAX : Z := 127.
Definition UCHAR_MAX : Z := 255.
Definition CHAR_MIN : Z := SCHAR_MIN.
Definition CHAR_MAX : Z := SCHAR_MAX.
Definition SHRT_MIN : Z := -32768.
Definition SHRT_MAX : Z := 32767.
Definition USHRT_MAX : Z := 65535.
Definition UINT_MAX : Z := 4294967295.
Definition LONG_MAX : Z := 9223372036854775807.
Definition LONG_MIN : Z := - LONG_MAX - 1.
Definition ULONG_MAX : Z := 18446744073709551615.
Definition ULLONG_MAX : Z := 18446744073709551615.

(** The macros; 108 is 'l', 104 is 'h'. *)
Definition PRI (c : Z) (t : int_type) : bytes :=
  match t with
  | Exact W8 | Exact W16 | Exact W32 => [c]
  | Exact W64 => [108; c]
  | Least W8 | Least W16 | Least W32 => [c]
  | Least W64 => [108; c]
  | Fast W8 | Fast W16 | Fast W32 => [c]
  | Fast W64 => [108; c]
  | MAX | PTR => [108; c]
  end.
Definition SCN (c : Z) (t : int_type) : bytes :=
  match t with
  | Exact W8 => [104; 104; c]
  | Exact W16 => [104; c]
  | Exact W32 => [c]
  | Exact W64 => [108; c]
  | Least W8 => [104; 104; c]
  | Least W16 => [104; c]
  | Least W32 => [c]
  | Least W64 => [108; c]
  | Fast W8 | Fast W16 | Fast W32 => [c]
  | Fast W64 => [108; c]
  | MAX | PTR => [108; c]
  end.

(** ** The values of a type *)

Definition in_type (sgn : bool) (t : int_type) (v : Z) : Prop :=
  let b := bits (type_of sgn t) in
  if sgn then - 2 ^ (b - 1) ≤ v < 2 ^ (b - 1) else 0 ≤ v < 2 ^ b.

(** The limits stdint.h gives a type. *)
Definition limits (sgn : bool) (t : int_type) : option (Z * Z) :=
  match t, sgn with
  | Exact W8, true => Some (INT8_MIN, INT8_MAX) | Exact W8, false => Some (0, UINT8_MAX)
  | Exact W16, true => Some (INT16_MIN, INT16_MAX) | Exact W16, false => Some (0, UINT16_MAX)
  | Exact W32, true => Some (INT32_MIN, INT32_MAX) | Exact W32, false => Some (0, UINT32_MAX)
  | Exact W64, true => Some (INT64_MIN, INT64_MAX) | Exact W64, false => Some (0, UINT64_MAX)
  | MAX, true => Some (INTMAX_MIN, INTMAX_MAX) | MAX, false => Some (0, UINTMAX_MAX)
  | PTR, true => Some (INTPTR_MIN, INTPTR_MAX) | PTR, false => Some (0, UINTPTR_MAX)
  | _, _ => None
  end.

(** Every limit is the end of its type. *)
Lemma limits_correct sgn t lo hi v : limits sgn t = Some (lo, hi) → in_type sgn t v ↔ lo ≤ v ≤ hi.
Proof.
  destruct t as [[]|[]|[]| |], sgn; intros [= <- <-]; unfold in_type, bits; cbn;
    unfold INT8_MIN, INT16_MIN, INT32_MIN, INT64_MIN, INT8_MAX, INT16_MAX, INT32_MAX, INT64_MAX, UINT8_MAX, UINT16_MAX,
      UINT32_MAX, UINT64_MAX, INTPTR_MIN, INTPTR_MAX, UINTPTR_MAX, INTMAX_MIN, INTMAX_MAX, UINTMAX_MAX,
      INT64_MIN, INT64_MAX, UINT64_MAX; lia.
Qed.
(** The limits <limits.h> gives a C type, signed or unsigned. *)
Definition c_limits (sgn : bool) (t : c_int) : Z * Z :=
  match t with
  | Char => if sgn then (SCHAR_MIN, SCHAR_MAX) else (0, UCHAR_MAX)
  | Short => if sgn then (SHRT_MIN, SHRT_MAX) else (0, USHRT_MAX)
  | Int => if sgn then (INT_MIN, INT_MAX) else (0, UINT_MAX)
  | Long => if sgn then (LONG_MIN, LONG_MAX) else (0, ULONG_MAX)
  end.
Lemma c_limits_correct sgn t :
  c_limits sgn t = (if sgn then - 2 ^ (CHAR_BIT * sizeof t - 1) else 0,
                    2 ^ (CHAR_BIT * sizeof t - (if sgn then 1 else 0)) - 1) ∧
  (LLONG_MIN, LLONG_MAX) = c_limits true Long ∧ (0, ULLONG_MAX) = c_limits false Long.
Proof. by destruct sgn, t. Qed.

(** The limits of plain char are those of a signed one, but a byte of a string
    is a number up to 255 here: char is unsigned on RISC-V. *)
Lemma char_limits_signed : CHAR_MIN = -128 ∧ CHAR_MAX = 127 ∧ u8 (-1) = 255 ∧ ¬ (CHAR_MIN ≤ u8 (-1) ≤ CHAR_MAX).
Proof. split_and!; [done..|]. unfold CHAR_MIN, CHAR_MAX, SCHAR_MIN, SCHAR_MAX, u8. lia. Qed.

(** An exact type has the bits of its name, the others at least those. *)
Lemma widths_correct sgn w :
  bits (type_of sgn (Exact w)) = nominal w ∧ nominal w ≤ bits (type_of sgn (Least w)) ∧
  nominal w ≤ bits (type_of sgn (Fast w)) ∧ bits (type_of sgn (Exact w)) ≤ bits (type_of sgn MAX).
Proof. by destruct sgn, w. Qed.

(** The bytes a store of scanf writes. *)
Definition stored_bits (len : len_mod) : Z :=
  match len with L_HH => 8 | L_H => 16 | L_L | L_LL | L_J | L_T | L_Z => 64 | _ => 32 end.

(** The conversions of a signedness: one that prints, and one that reads it. *)
Definition conversions (sgn : bool) : list (Z * Z) :=
  if sgn then [(100, 100); (100, 105); (105, 100); (105, 105)]     (* d, i *)
  else [(117, 117); (111, 111); (120, 120); (88, 120)].            (* u, o, x, X *)
Definition base_of (c : Z) : Z := if c =? 111 then 8 else if (c =? 120) || (c =? 88) then 16 else 10.

(** * Printing *)

(** The numeral utoa writes: no zero in front. *)
Definition canonical (base v : Z) (ds : bytes) : Prop :=
  numeral base v ds ∧ 0 < zlen ds ≤ 22 ∧ (hd 0 ds = 48 → v = 0 ∧ ds = [48]).

Lemma digits_val_bound base ds : 2 ≤ base → Forall (λ c, digit_val c < base ∧ 48 ≤ c < 128) ds →
  digits_val base ds < base ^ zlen ds.
Proof.
  intros Hb. induction 1 as [|c ds [Hc _] _ IH]; [done|].
  rewrite digits_val_cons, zlen_cons, Z.pow_add_r, Z.pow_1_r by zlen_lia. nia.
Qed.

Lemma utoa_canonical {S} v base upper (st : S) : 0 ≤ v < 18446744073709551616 → 8 ≤ base ≤ 16 →
  ∃ ds, utoa v base upper st = Ret ds st ∧ canonical base v ds.
Proof.
  intros Hv Hb. destruct (decide (v = 0)) as [->|Hne].
  - exists [48]. split.
    + unfold utoa. change (0 =? 0) with true. cbn iota. rewrite (bind_run _ _ [48] _ st) by done.
      by apply loop_break.
    + split; [by apply numeral_48; lia|]. split; [done|]. done.
  - destruct (utoa_run_pow v base upper st Hv Hb) as (ds & E & Hn & Hl & Hp). exists ds. split; [done|].
    split; [done|]. split; [done|]. intros H48. exfalso. specialize (Hp Hne).
    destruct ds as [|c ds]; [done|]. cbn [hd] in H48. subst c. destruct Hn as [[_ Hd]%Forall_cons Hval].
    rewrite digits_val_cons in Hval. change (digit_val 48) with 0 in Hval.
    pose proof (digits_val_bound base ds ltac:(lia) Hd). rewrite zlen_cons in Hp.
    replace (1 + zlen ds - 1) with (zlen ds) in Hp by lia. lia.
Qed.

(** A number without width, precision and flags is its digits behind its sign. *)
Lemma put_number_plain ds (neg : bool) t st : zlen ds ≤ 22 →
  put_number emit_full ds neg None 0 0 (-1) (Full t st)
  = Ret tt (Full (t ++ (if neg then [45] else []) ++ ds) st).
Proof.
  intros Hl. pose proof (zlen_nonneg ds).
  rewrite put_number_full_run; unfold INT_MIN, INT_MAX; cbn [default from_option]; change (zlen []) with 0; try lia.
  do 3 f_equal. unfold number_field, number_body. cbn [default from_option].
  change (has_flag 0 _) with false. cbn [andb negb app]. cbn zeta.
  change (0 <=? -1) with false. cbn iota.
  change (has_flag 0 F_PLUS) with false. change (has_flag 0 F_SPACE) with false. cbn iota. cbn [app].
  change (has_flag 0 F_ZERO) with false. cbn [andb].
  replace (Z.to_nat (0 - zlen ds)) with 0%nat by lia. cbn [replicate app].
  replace (Z.to_nat _) with 0%nat by (destruct neg; zlen_lia). by destruct neg.
Qed.

(** Does the macro have the modifier l, and which does scanf see? *)
Definition pri_lng (t : int_type) : Z :=
  match t with Exact W64 | Least W64 | Fast W64 | MAX | PTR => 1 | _ => 0 end.
Definition scn_len (t : int_type) : len_mod :=
  match t with
  | Exact W8 | Least W8 => L_HH
  | Exact W16 | Least W16 => L_H
  | Exact W32 | Least W32 | Fast W8 | Fast W16 | Fast W32 => L_NONE
  | _ => L_L
  end.
Lemma PRI_lng c t : PRI c t = (if pri_lng t =? 1 then [108] else []) ++ [c].
Proof. by destruct t as [[]|[]|[]| |]. Qed.
Lemma pri_lng_cases t : pri_lng t = 0 ∨ pri_lng t = 1.
Proof. destruct t as [[]|[]|[]| |]; auto. Qed.
Lemma SCN_len c t : SCN c t = match scn_len t with L_HH => [104; 104] | L_H => [104] | L_L => [108] | _ => [] end ++ [c].
Proof. by destruct t as [[]|[]|[]| |]. Qed.
Lemma scn_len_bits sgn t : stored_bits (scn_len t) = bits (type_of sgn t).
Proof. by destruct sgn, t as [[]|[]|[]| |]. Qed.
Lemma scn_len_cases t : scn_len t = L_HH ∨ scn_len t = L_H ∨ scn_len t = L_NONE ∨ scn_len t = L_L.
Proof. destruct t as [[]|[]|[]| |]; auto. Qed.

(** A value of a type fits the slot its PRI macros make printf take. *)
Lemma in_type_slot sgn t v : in_type sgn t v →
  if pri_lng t =? 1 then (if sgn then LLONG_MIN ≤ v ≤ LLONG_MAX else 0 ≤ v < 18446744073709551616)
  else (if sgn then INT_MIN ≤ v ≤ INT_MAX else 0 ≤ v < 4294967296).
Proof.
  unfold LLONG_MIN, LLONG_MAX, INT_MIN, INT_MAX, in_type, bits.
  destruct sgn, t as [[]|[]|[]| |]; cbn; lia.
Qed.

Lemma convert_signed fmt_fp c lng v : c = 100 ∨ c = 105 → lng = 0 ∨ lng = 1 →
  (if lng =? 1 then LLONG_MIN < v ≤ LLONG_MAX else INT_MIN ≤ v ≤ INT_MAX) →
  ∃ ds, canonical 10 (Z.abs v) ds ∧
    convert emit_full full_len full_store_n fmt_fp c 0 0 (-1) lng false [VInt v] (Full [] [])
    = Ret [] (Full ((if v <? 0 then [45] else []) ++ ds) []).
Proof.
  intros Hc Hlng Hv.
  assert (LLONG_MIN < v ≤ LLONG_MAX) as Hv'
    by (unfold LLONG_MIN, LLONG_MAX, INT_MIN, INT_MAX in *; destruct (lng =? 1); lia).
  unfold LLONG_MIN, LLONG_MAX in Hv'.
  destruct (utoa_canonical (Z.abs v) 10 false (Full [] []) ltac:(lia) ltac:(lia)) as (ds & Eu & Hds).
  exists ds. split; [done|]. destruct Hds as (_ & Hl & _). unfold convert.
  replace ((c =? 100) || (c =? 105)) with true by lia. cbn iota.
  rewrite (bind_run _ _ (v, []) _ (Full [] [])).
  2:{ destruct Hlng as [-> | ->]; cbn; unfold va_int, va_long.
      - by rewrite s32_id by exact Hv.
      - by rewrite s64_id by (unfold LLONG_MIN, LLONG_MAX; lia). }
  cbn iota beta zeta. rewrite (bind_run _ _ (Z.abs v) _ (Full [] [])).
  2:{ destruct (Z.ltb_spec v 0); [|by rewrite Z.abs_eq by lia].
      unfold neg_signed. rewrite decide_True by (unfold LLONG_MAX; lia). rewrite bind_ret.
      rewrite u64_id, Z.abs_neq by lia. done. }
  rewrite (bind_run _ _ _ _ _ Eu).
  by rewrite (bind_run _ _ _ _ _ (put_number_plain ds (v <? 0) [] [] ltac:(lia))).
Qed.

Lemma convert_unsigned fmt_fp c lng v : In c [117; 111; 120; 88] → lng = 0 ∨ lng = 1 →
  (if lng =? 1 then 0 ≤ v < 18446744073709551616 else 0 ≤ v < 4294967296) →
  ∃ ds, canonical (base_of c) v ds ∧
    convert emit_full full_len full_store_n fmt_fp c 0 0 (-1) lng false [VInt v] (Full [] [])
    = Ret [] (Full ds []).
Proof.
  intros Hc Hlng Hv.
  assert (0 ≤ v < 18446744073709551616) as Hv' by (destruct (lng =? 1); lia).
  assert (8 ≤ base_of c ≤ 16) as Hb by (repeat destruct Hc as [<-|Hc]; done).
  destruct (utoa_canonical v (base_of c) (c =? 88) (Full [] []) ltac:(lia) Hb) as (ds & Eu & Hds).
  exists ds. split; [done|]. destruct Hds as (_ & Hl & _). unfold convert.
  replace ((c =? 100) || (c =? 105)) with false by (repeat destruct Hc as [<-|Hc]; done).
  replace ((c =? 117) || (c =? 111) || (c =? 120) || (c =? 88)) with true by (repeat destruct Hc as [<-|Hc]; done).
  cbn iota. rewrite (bind_run _ _ (v, []) _ (Full [] [])).
  2:{ destruct Hlng as [-> | ->]; cbn [Z.eqb Z.leb] in *; cbn -[u32 u64 s32 s64]; unfold bind, ret; do 2 f_equal.
      - unfold u32, s32. lia.
      - unfold u64, s64. lia. }
  cbn iota beta zeta.
  replace (if c =? 111 then 8 else if c =? 117 then 10 else 16) with (base_of c)
    by (repeat destruct Hc as [<-|Hc]; done).
  rewrite (bind_run _ _ _ _ _ Eu). change (has_flag 0 F_HASH) with false. cbn [andb].
  by rewrite (bind_run _ _ _ _ _ (put_number_plain ds false [] [] ltac:(lia))).
Qed.

(** The format that is one macro behind its percent sign. *)
Lemma format_pri fmt_fp c t v text : In c [100; 105; 117; 111; 120; 88] →
  convert emit_full full_len full_store_n fmt_fp c 0 0 (-1) (pri_lng t) false [VInt v] (Full [] [])
    = Ret [] (Full text []) →
  format_full fmt_fp (37 :: PRI c t) [VInt v] = Ret (s32 (zlen text)) (Full text []).
Proof.
  intros Hc E. rewrite PRI_lng. unfold format_full, vformat.
  rewrite (bind_run _ _ tt _ (Full text [])); [done|].
  apply (loop_once _ _ _ (2 + pri_lng t, []) (Full text [])).
  - rewrite (bind_run _ _ 37 _ (Full [] [])) by done. change (37 =? 0) with false. change (negb (37 =? 37)) with false.
    cbn iota. destruct (pri_lng_cases t) as [Et|Et]; rewrite Et in *; cbn [Z.eqb Pos.eqb app Z.add] in *.
    + rewrite (bind_run _ _ (1, 0) _ (Full [] [])) by (apply loop_break; repeat destruct Hc as [<-|Hc]; done).
      cbn iota beta.
      rewrite (bind_run _ _ (1, 0, 0, [VInt v]) _ (Full [] [])) by (repeat destruct Hc as [<-|Hc]; done).
      cbn iota beta.
      rewrite (bind_run _ _ (1, -1, [VInt v]) _ (Full [] [])) by (repeat destruct Hc as [<-|Hc]; done).
      cbn iota beta.
      rewrite (bind_run _ _ (1, 0, false) _ (Full [] [])) by (apply loop_break; repeat destruct Hc as [<-|Hc]; done).
      cbn iota beta. rewrite (bind_run _ _ c _ (Full [] [])) by done.
      replace (c =? 0) with false by (repeat destruct Hc as [<-|Hc]; done). cbn iota.
      by rewrite (bind_run _ _ _ _ _ E).
    + rewrite (bind_run _ _ (1, 0) _ (Full [] [])) by (by apply loop_break). cbn iota beta.
      rewrite (bind_run _ _ (1, 0, 0, [VInt v]) _ (Full [] [])) by done. cbn iota beta.
      rewrite (bind_run _ _ (1, -1, [VInt v]) _ (Full [] [])) by done. cbn iota beta.
      rewrite (bind_run _ _ (2, 1, false) _ (Full [] []))
        by (apply (loop_once _ _ _ (2, 1, false) (Full [] [])); repeat destruct Hc as [<-|Hc]; done).
      cbn iota beta. rewrite (bind_run _ _ c _ (Full [] [])) by done.
      replace (c =? 0) with false by (repeat destruct Hc as [<-|Hc]; done). cbn iota.
      by rewrite (bind_run _ _ _ _ _ E).
  - by destruct (pri_lng_cases t) as [-> | ->].
Qed.

(** * Reading *)

(** The base scanf passes on; 0 lets the prefix choose. *)
Definition scan_base (c : Z) : Z :=
  if (c =? 100) || (c =? 117) then 10 else if c =? 111 then 8 else if c =? 120 then 16 else 0.

Lemma number_at_base0 (neg : bool) ds : hd 0 ds ≠ 48 → Forall (λ c, digit_val c < 10 ∧ 48 ≤ c < 128) ds → ds ≠ [] →
  number_at ((if neg then [45] else []) ++ ds) 0 = number_at ((if neg then [45] else []) ++ ds) 10.
Proof.
  intros H48 Hd Hne. destruct ds as [|c ds]; [done|]. cbn [hd] in H48. apply Forall_inv in Hd as [Hc1 Hc2].
  assert (isspace c = false) as Hsp by (unfold isspace; lia).
  set (s := (if neg then [45] else []) ++ c :: ds).
  assert (skip_sign (dropZ (zlen (take_while isspace s)) s) = (neg, c :: ds)) as E.
  { subst s. destruct neg.
    - cbn [app take_while]. change (isspace 45) with false. cbn iota. change (zlen []) with 0. by rewrite dropZ_0.
    - cbn [app take_while]. rewrite Hsp. cbn iota. change (zlen []) with 0. rewrite dropZ_0. unfold skip_sign.
      replace (c =? 45) with false by lia. by replace (c =? 43) with false by lia. }
  unfold number_at. rewrite E. unfold radix.
  assert (hex_prefix (c :: ds) = false) as ->.
  { unfold hex_prefix. replace (c =? 48) with false by lia. by destruct ds as [|? [|? ?]]. }
  cbn [hd]. change ((0 =? 0) || (0 =? 16)) with true. change ((10 =? 0) || (10 =? 16)) with false. cbn iota.
  cbn [andb]. change (0 =? 0) with true. change (10 =? 0) with false. cbn iota. by replace (c =? 48) with false by lia.
Qed.

(** A canonical numeral is the number it stands for, in its base and, for base
    ten, in base 0 too: it has no prefix. *)
Lemma number_at_canonical (neg : bool) base b v ds : canonical base v ds →
  base = b ∧ 8 ≤ b ≤ 16 ∧ (neg = true → b = 10) ∨ base = 10 ∧ b = 0 →
  number_at ((if neg then [45] else []) ++ ds) b = (neg, v, zlen ((if neg then [45] else []) ++ ds)).
Proof.
  intros (Hn & Hl & H48) Hb.
  assert (ds ≠ []) as Hne by (intros ->; by destruct Hl).
  assert (∀ neg : bool, numeral 10 v ds → number_at ((if neg then [45] else []) ++ ds) 10
    = (neg, v, zlen ((if neg then [45] else []) ++ ds))) as H10.
  { clear neg Hb. intros neg Hn10.
    pose proof (number_at_field 0 neg v ds [] Hn10 Hne ltac:(done)) as E. cbn [replicate app] in E.
    rewrite app_nil_r in E. rewrite E. f_equal. destruct neg; zlen_lia. }
  destruct Hb as [(-> & Hb & Hneg) | [-> ->]].
  - destruct (decide (b = 10)) as [->|]; [by apply H10|]. destruct neg; [by rewrite Hneg in *|].
    cbn [app]. rewrite <- (app_nil_r ds) at 1. apply number_at_numeral; [done..| |done].
    cbn [hd]. change (digit_val 0) with 99. lia.
  - destruct (decide (hd 0 ds = 48)) as [E|E].
    + destruct (H48 E) as [-> ->]. by destruct neg.
    + rewrite number_at_base0; [by apply H10|done| |done]. by destruct Hn.
Qed.

Lemma c_chars_signed base v (neg : bool) ds : canonical base v ds → c_chars ((if neg then [45] else []) ++ ds).
Proof.
  intros (Hn & _). apply c_chars_app. split; [by destruct neg; repeat constructor|].
  by eapply c_chars_numeral.
Qed.

(** A text that is one number is taken whole. *)
Lemma scan_number_text {S} strtold c len (s : bytes) (neg : bool) v (st : S) :
  In c [100; 105; 117; 111; 120] → c_chars s → 0 < zlen s ≤ 511 → number_at s (scan_base c) = (neg, v, zlen s) →
  0 ≤ v < 18446744073709551616 → (c = 100 ∨ c = 105 → v ≤ LLONG_MAX) → (neg = true → v ≤ LLONG_MAX) →
  scan_number strtold c 0 len s 0 st = Ret (Some (zlen s, store_int len (u64 (if neg then - v else v)))) st.
Proof.
  unfold LLONG_MAX. intros Hc Hs Hl E Hv Hd Hneg. unfold scan_number.
  change (negb (0 =? 0) && (0 <? 511)) with false. cbn iota zeta.
  rewrite (bind_run _ _ _ _ _ (scan_buf_run s 0 511 st Hs ltac:(lia) ltac:(lia))).
  rewrite dropZ_0, takeZ_all by lia.
  rewrite (bind_run _ _ _ _ _ (push_run 512 s 0 st ltac:(lia))). rewrite zlen_app.
  change (zlen [0]) with 1. rewrite Z.add_simpl_r, takeZ_app_zlen.
  assert (strtoull s (scan_base c) st = Ret (u64 (if neg then - v else v), zlen s) st) as Eu.
  { assert (scan_base c = 0 ∨ 2 ≤ scan_base c ≤ 36) by (unfold scan_base; repeat case_match; lia).
    rewrite strtoull_run, E by (done || lia).
    rewrite (u64_id v) by lia. destruct neg; [|done]. cbn [andb].
    by replace (v =? 9223372036854775808) with false by (specialize (Hneg eq_refl); lia). }
  assert (c = 100 ∨ c = 105 → strtoll s (scan_base c) st = Ret (if neg then - v else v, zlen s) st) as Ell.
  { intros H. unfold strtoll. rewrite (bind_run _ _ _ _ _ Eu). cbn iota beta.
    rewrite s64_u64; [done|]. specialize (Hd H). destruct neg; lia. }
  replace (existsb (Z.eqb c) (str "fegaEGAF")) with false by (repeat destruct Hc as [<-|Hc]; done).
  replace (existsb (Z.eqb c) (str "diuoxXp")) with true by (repeat destruct Hc as [<-|Hc]; done).
  cbn [negb]. cbn iota zeta.
  replace (if existsb (Z.eqb c) (str "du") then 10 else _) with (scan_base c)
    by (repeat destruct Hc as [<-|Hc]; done).
  rewrite (bind_run _ _ (u64 (if neg then - v else v), zlen s) _ st).
  - cbn iota beta. replace (zlen s =? 0) with false by lia.
    by replace (c =? 112) with false by (repeat destruct Hc as [<-|Hc]; done).
  - assert (existsb (Z.eqb c) (str "di") = true ∧ (c = 100 ∨ c = 105) ∨ existsb (Z.eqb c) (str "di") = false)
      as [[-> H]| ->] by (repeat destruct Hc as [<-|Hc]; auto; done); [|done].
    by rewrite (bind_run _ _ _ _ _ (Ell H)).
Qed.

(** The call whose format is one macro behind its percent sign. *)
Lemma sscanf_scn {S} strtold c t (s : bytes) q (neg : bool) v (st : S) :
  In c [100; 105; 117; 111; 120] → c_chars s → 0 < zlen s ≤ 511 → isspace (hd 0 s) = false →
  number_at s (scan_base c) = (neg, v, zlen s) →
  0 ≤ v < 18446744073709551616 → (c = 100 ∨ c = 105 → v ≤ LLONG_MAX) → (neg = true → v ≤ LLONG_MAX) →
  sscanf strtold s (37 :: SCN c t) [q] st
  = Ret (1, [(q, store_int (scn_len t) (u64 (if neg then - v else v)))]) st.
Proof.
  intros Hc Hs Hl Hsp E Hv Hd Hneg. rewrite SCN_len.
  set (x := store_int _ _). set (len := scn_len t) in *.
  set (f := match len with L_HH => 3 | L_H => 2 | L_L => 2 | _ => 1 end).
  set (fmt := 37 :: _).
  apply (loop_once _ _ _ (f + 1, zlen s, 1, [], [(q, x)]) st).
  2:{ unfold scan_turn. rewrite (bind_run _ _ 0 _ st); [done|]. subst f fmt.
      by destruct (scn_len_cases t) as [H|[H|[H|H]]]; subst len; rewrite H. }
  unfold scan_turn. rewrite (bind_run _ _ 37 _ st) by done.
  change (37 =? 0) with false. change (isspace 37) with false. cbn beta iota.
  rewrite (bind_run _ _ (match len with L_HH | L_H => 104 | L_L => 108 | _ => c end) _ st)
    by (subst fmt; by destruct len).
  replace (negb (37 =? 37) || _) with false by (destruct len; repeat destruct Hc as [<-|Hc]; done).
  replace (_ =? 42) with false by (destruct len; repeat destruct Hc as [<-|Hc]; done). cbn beta iota zeta.
  rewrite (bind_run _ _ (1, 0) _ st).
  2:{ apply loop_break. subst fmt. destruct len; repeat destruct Hc as [<-|Hc]; done. }
  cbn beta iota. rewrite (bind_run _ _ (f, len) _ st).
  2:{ subst f fmt. destruct (scn_len_cases t) as [H|[H|[H|H]]]; subst len; rewrite H;
        repeat destruct Hc as [<-|Hc]; done. }
  cbn beta iota. rewrite (bind_run _ _ c _ st).
  2:{ subst f fmt. destruct (scn_len_cases t) as [H|[H|[H|H]]]; subst len; rewrite H; done. }
  replace (c =? 0) with false by (repeat destruct Hc as [<-|Hc]; done).
  replace (c =? 110) with false by (repeat destruct Hc as [<-|Hc]; done).
  replace (negb (c =? 99) && negb (c =? 91)) with true by (repeat destruct Hc as [<-|Hc]; done).
  cbn beta iota zeta.
  destruct s as [|d s']; [by destruct Hl|]. cbn [hd] in Hsp. set (s := d :: s') in *.
  rewrite (bind_run _ _ 0 _ st).
  2:{ rewrite skip_space_run by lia. rewrite dropZ_0. subst s. cbn [take_while]. by rewrite Hsp. }
  rewrite (bind_run _ _ d _ st) by done.
  replace (d =? 0) with false by (apply Forall_inv in Hs; lia). cbn iota. unfold scan_convert.
  replace (c =? 99) with false by (repeat destruct Hc as [<-|Hc]; done).
  replace ((c =? 115) || (c =? 91)) with false by (repeat destruct Hc as [<-|Hc]; done). cbn iota.
  by rewrite (bind_run _ _ _ _ _ (scan_number_text strtold c len s neg v st Hc Hs Hl E Hv Hd Hneg)).
Qed.

(** What is stored is the value, modulo the type's range. *)
Lemma store_int_wrap sgn t v : ∃ w, store_int (scn_len t) (u64 v) = SInt (scn_len t) w ∧
  w mod 2 ^ bits (type_of sgn t) = v mod 2 ^ bits (type_of sgn t).
Proof.
  rewrite <- (scn_len_bits sgn t). eexists. split; [reflexivity|]. unfold u64.
  destruct (scn_len_cases t) as [-> | [-> | [-> | ->]]]; cbn [stored_bits];
    [change (2 ^ 8) with 256|change (2 ^ 16) with 65536|change (2 ^ 32) with 4294967296
    |change (2 ^ 64) with 18446744073709551616]; unfold s8, s16, s32, s64; lia.
Qed.

(** C23: the macros of <inttypes.h> do what they are for: for every integer type
    of <stdint.h>, signed or unsigned, every conversion and every value of the
    type (but the least 64-bit one), snprintf with "%" PRI<c><t> prints the
    value's numeral and nothing else, and sscanf with the matching "%" SCN<c><t>
    takes the whole text and stores the value through the pointer, in exactly as
    many bytes as the type has. *)
Theorem inttypes_roundtrip {S} fmt_fp strtold sgn t pc sc v q n (st : S)
  (Hconv : In (pc, sc) (conversions sgn)) (Hv : in_type sgn t v) (Hmin : v ≠ INT64_MIN)
  (Hn : 24 ≤ n ≤ SIZE_MAX) :
  ∃ ds len w,
    let text := (if v <? 0 then [45] else []) ++ ds in
    numeral (base_of pc) (Z.abs v) ds ∧
    snprintf fmt_fp n (37 :: PRI pc t) [VInt v] st = Ret (zlen text, text ++ [0], []) st ∧
    sscanf strtold text (37 :: SCN sc t) [q] st = Ret (1, [(q, SInt len w)]) st ∧
    stored_bits len = bits (type_of sgn t) ∧
    w mod 2 ^ bits (type_of sgn t) = v mod 2 ^ bits (type_of sgn t).
Proof.
  pose proof (in_type_slot sgn t v Hv) as Hslot.
  unfold INT64_MIN in Hmin.
  assert (∃ ds, canonical (base_of pc) (Z.abs v) ds ∧
    format_full fmt_fp (37 :: PRI pc t) [VInt v]
    = Ret (s32 (zlen ((if v <? 0 then [45] else []) ++ ds))) (Full ((if v <? 0 then [45] else []) ++ ds) []) ∧
    (v < 0 → sgn = true)) as (ds & Hds & Ef & Hsg).
  { destruct sgn; cbn iota in Hslot.
    - destruct (convert_signed fmt_fp pc (pri_lng t) v) as (ds & Hds & E).
      + repeat destruct Hconv as [[= <- <-]|Hconv]; auto; done.
      + apply pri_lng_cases.
      + unfold LLONG_MIN, LLONG_MAX in *. destruct (pri_lng t =? 1); lia.
      + exists ds. split; [|split; [|done]].
        * by replace (base_of pc) with 10 by (repeat destruct Hconv as [[= <- <-]|Hconv]; done).
        * apply format_pri; [|done]. repeat destruct Hconv as [[= <- <-]|Hconv]; cbn; auto 10; done.
    - assert (0 ≤ v) as Hv0 by (destruct (pri_lng t =? 1); lia).
      destruct (convert_unsigned fmt_fp pc (pri_lng t) v) as (ds & Hds & E).
      + repeat destruct Hconv as [[= <- <-]|Hconv]; cbn; auto 10; done.
      + apply pri_lng_cases.
      + by destruct (pri_lng t =? 1).
      + exists ds. replace (v <? 0) with false by lia. cbn [app]. rewrite Z.abs_eq by lia.
        split; [done|]. split; [|lia]. apply format_pri; [|done].
        repeat destruct Hconv as [[= <- <-]|Hconv]; cbn; auto 10; done. }
  destruct (store_int_wrap sgn t v) as (w & Ew & Hw).
  exists ds, (scn_len t), w. cbn zeta. set (text := _ ++ ds) in *.
  assert (0 < zlen text ≤ 23) as Hl.
  { destruct Hds as (_ & ? & _). subst text. destruct (v <? 0); zlen_lia. }
  split; [by destruct Hds|]. split; [|split; [|split; [apply scn_len_bits|done]]].
  - unfold snprintf. unfold SIZE_MAX in *.
    rewrite (vsnprintf_run fmt_fp n _ _ _ text _ st ltac:(lia) ltac:(unfold SIZE_MAX; lia) Ef).
    rewrite s32_id by (unfold INT_MIN, INT_MAX; lia). replace (n =? 0) with false by lia.
    by rewrite takeZ_all by lia.
  - assert (-9223372036854775808 < v < 18446744073709551616) as Hr
      by (unfold LLONG_MIN, LLONG_MAX, INT_MIN, INT_MAX in *; destruct sgn, (pri_lng t =? 1); lia).
    rewrite (sscanf_scn strtold sc t text q (v <? 0) (Z.abs v) st); unfold LLONG_MAX.
    + rewrite <- Ew. replace (if v <? 0 then - Z.abs v else Z.abs v) with v; [done|]. destruct (Z.ltb_spec v 0); lia.
    + destruct sgn; repeat destruct Hconv as [[= <- <-]|Hconv]; cbn; auto 10; done.
    + by apply (c_chars_signed _ _ _ _ Hds).
    + lia.
    + subst text. destruct (v <? 0); [done|]. destruct Hds as ((Hd & _) & Hlen & _). cbn [app].
      destruct ds as [|d ds]; [by destruct Hlen|]. apply Forall_inv in Hd. cbn [hd]. unfold isspace. lia.
    + apply (number_at_canonical _ _ _ _ _ Hds).
      destruct sgn; repeat destruct Hconv as [[= <- <-]|Hconv]; try done; auto;
        left; (split; [done|split; [done|]]); try done; intros H%Z.ltb_lt; by specialize (Hsg H).
    + lia.
    + intros Hsc. assert (sgn = true) as -> by
        (destruct sgn; [done|]; exfalso; repeat destruct Hconv as [[= <- <-]|Hconv]; try done; lia).
      unfold LLONG_MIN, LLONG_MAX, INT_MIN, INT_MAX in *; destruct (pri_lng t =? 1); lia.
    + intros H%Z.ltb_lt. lia.
Qed.

Lemma inttypes_roundtrip_witness :
  In (88, 120) (conversions false) ∧ in_type false (Least W8) 254 ∧
  ∃ ds len w,
    let text := (if 254 <? 0 then [45] else []) ++ ds in
    numeral (base_of 88) (Z.abs 254) ds ∧
    snprintf (S := unit) (λ _ _ _ _ _, []) 64 (37 :: PRI 88 (Least W8)) [VInt 254] tt
      = Ret (zlen text, text ++ [0], []) tt ∧
    sscanf (λ _, (0, 0)) text (37 :: SCN 120 (Least W8)) [4096] tt = Ret (1, [(4096, SInt len w)]) tt ∧
    stored_bits len = bits (type_of false (Least W8)) ∧
    w mod 2 ^ bits (type_of false (Least W8)) = 254 mod 2 ^ bits (type_of false (Least W8)).
Proof.
  assert (In (88, 120) (conversions false)) as H1 by (cbn; auto 10).
  assert (in_type false (Least W8) 254) as H2 by (split; vm_compute; done).
  split; [exact H1|]. split; [exact H2|].
  apply (inttypes_roundtrip (λ _ _ _ _ _, []) (λ _, (0, 0)) false (Least W8) 88 120 254 4096 64 tt H1 H2);
    unfold INT64_MIN, SIZE_MAX; lia.
Defined.

(** The last branch of a table: PRIX32, and SCNi8 on a negative number. *)
Example pri_scn_examples :
  snprintf (S := unit) (λ _ _ _ _ _, []) 20 (37 :: PRI 88 (Exact W32)) [VInt 3735928559] tt
    = Ret (8, str "DEADBEEF" ++ [0], []) tt ∧
  sscanf (S := unit) (λ _, (0, 0)) (str "-0x10") (37 :: SCN 105 (Exact W8)) [4] tt
    = Ret (1, [(4, SInt L_HH (-16))]) tt.
Proof. by vm_compute. Qed.
