(* ===== verification/StreamType.v ===== *)
(** The type of a stream: what holds of the [FILE]s of [Stdio] in every state a
    program can reach, whatever calls of stdio.c, printf.c and scanf.c it makes,
    and whatever the descriptor layer answers; and the room its buffer has for the
    next character, as long as no error was recorded on it. *)
From S2P Require Import Prelude CMonad CMemory CBuffer Kernel RcFs RcFd RcNet RcPosix FdTable Printf Stdio Scanf.

(** ** A partial-correctness logic

    [wlp c Q s]: if [c] returns from [s], [Q] holds of the result and the
    state. *)
Definition wlp {S A} (c : M S A) (Q : A → S → Prop) (s : S) : Prop :=
  match c s with Ret a s' => Q a s' | _ => True end.

Section wlp.
Context {S : Type} (I : S → Prop).

Lemma keeps_wlp {A} (c : M S A) (Q : A → Prop) :
  (∀ s, I s → wlp c (λ a s', I s' ∧ Q a) s) → keeps I c Q.
Proof. done. Qed.

Lemma wlp_of_keeps {A} (c : M S A) (Q : A → Prop) s : I s → keeps I c Q → wlp c (λ a s', I s' ∧ Q a) s.
Proof. intros Hs Hc. exact (Hc s Hs). Qed.

Lemma wlp_mono {A} (c : M S A) (Q Q' : A → S → Prop) s :
  wlp c Q s → (∀ a s', Q a s' → Q' a s') → wlp c Q' s.
Proof. unfold wlp. destruct (c s); auto. Qed.

Lemma wlp_bind {A B} (c : M S A) (k : A → M S B) Q s :
  wlp c (λ a s', wlp (k a) Q s') s → wlp (bind c k) Q s.
Proof. unfold wlp, bind. by destruct (c s). Qed.

Lemma wlp_of_option {A} (o : option A) (Q : A → S → Prop) s : (∀ a, o = Some a → Q a s) → wlp (of_option o) Q s.
Proof. intros HQ. unfold wlp. destruct o; simpl; auto. Qed.

Lemma wlp_keeps {A B} (c : M S A) (k : A → M S B) (R : A → Prop) (Q : B → S → Prop) s :
  I s → keeps I c R → (∀ a s', I s' → R a → wlp (k a) Q s') → wlp (bind c k) Q s.
Proof.
  intros Hs Hc Hk. apply wlp_bind. unfold wlp at 1. specialize (Hc s Hs). destruct (c s); try done.
  destruct Hc as [H1 H2]. by apply Hk.
Qed.

Lemma wlp_loop {X R} (body : X → M S (step X R)) (P : X → S → Prop) (Q : R → S → Prop) x s :
  (∀ x s, P x s → wlp (body x) (λ r s', match r with Continue x' => P x' s' | Break r => Q r s' end) s) →
  P x s → wlp (loop body x) Q s.
Proof.
  intros Hb Hx. unfold loop. apply wlp_bind.
  apply (wlp_mono _ (λ r s', match r with Continue x' => P x' s' | Break r => Q r s' end)).
  - revert x s Hx. induction loop_fuel as [p IH|p IH|]; intros x s Hx; simpl iter_pos; [| |by apply Hb];
      apply wlp_bind; eapply wlp_mono; try (by apply Hb); try (by apply IH); cbn beta; intros [x1|r1] s1 H1; try done.
    + apply wlp_bind. eapply wlp_mono; [by apply IH|]. intros [x2|r2] s2 H2; [by apply IH|done].
    + by apply IH.
  - intros [x'|r] s' H; [done|exact H].
Qed.
End wlp.

(** ** The type *)

(** The positions lie in the buffer, and the buffer has the size it should. *)
Record file_ok (f : FILE) : Prop := {
  fo_read : 0 ≤ f_rpos f ≤ f_rlen f;
  fo_wlen : 0 ≤ f_wlen f;
  fo_ungot : -1 ≤ f_ungot f < 256;
  fo_buf : match f_buf f with
           | Some b => zlen b = f_cap f ∧ 0 < f_cap f ∧ f_rlen f ≤ f_cap f ∧ f_wlen f ≤ f_cap f
           | None => f_rlen f = 0 ∧ f_wlen f = 0
           end;
}.

(** There is room in the buffer for the next character: [fputc] stores it at
    [wlen] before it looks whether the buffer is full. *)
Definition room (f : FILE) : Prop :=
  match f_buf f with Some _ => f_wlen f < f_cap f | None => True end.

(** What is read is never more than was stored in the buffer. *)
Definition got (r : Z * bytes) : Prop := r.1 ≤ zlen r.2.

Lemma keeps_true {S A} (c : M S A) : keeps (λ _, True) c (λ _, True).
Proof. intros s _. by destruct (c s). Qed.

Lemma peek_data_len {S} (I : S → Prop) (i n : Z) buf : keeps I (peek i n buf) (λ d, zlen d = n).
Proof.
  unfold peek. destruct ((0 <=? i) && (0 <=? n) && (i + n <=? zlen buf)) eqn:E; [|done].
  apply keeps_ret, zlen_sliceZ; lia.
Qed.

Section posix.
Context {K : Type} `{!Kernel K} (junk : bytes).
Abbreviation any := (λ _, True).

Lemma fail_neg e : keeps any (RcFd.fail (K := K) e) (λ r, r = -1).
Proof. eapply keeps_bind; [apply keeps_true|]. intros _ _. by apply keeps_ret. Qed.

Lemma sys_keeps {A} (c : M K A) (Q : A → Prop) : keeps any c Q → keeps (any : posix K → Prop) (sys c) Q.
Proof. intros Hc p _. specialize (Hc (world p) I). unfold sys, zoom. simpl. by destruct (c (world p)). Qed.

Lemma got_reply len req : keeps any (reply_data (K := K) len req) got.
Proof.
  unfold reply_data. eapply keeps_bind; [apply keeps_true|]. intros r _.
  destruct (Z.ltb_spec r 0); [apply keeps_ret; unfold got; cbn [fst snd]; zlen_lia|]. cbn zeta.
  eapply keeps_bind; [apply peek_data_len|]. intros d Hd. cbn beta in Hd. apply keeps_ret. unfold got. cbn [fst snd]. rewrite Hd. apply Z.le_refl.
Qed.

Lemma got_read_at path len off : keeps any (__rc_fs_read_at (K := K) junk path len off) got.
Proof.
  unfold __rc_fs_read_at. eapply keeps_bind; [apply keeps_true|]. intros ap _.
  eapply keeps_bind; [apply keeps_true|]. intros [pid req] _. destruct (pid <? 0); [by apply keeps_ret|].
  do 2 (eapply keeps_bind; [apply keeps_true|]; intros ? _).
  eapply keeps_bind; [apply keeps_true|]. intros [[from rv] reply] _.
  destruct (_ || _); [by apply keeps_ret|apply got_reply].
Qed.

Lemma got_console n : keeps any (console_read (K := K) n) got.
Proof.
  apply (keeps_loop _ _ (λ '(i, p), i = zlen p)); [|done]. intros [i p] ->. destruct (_ <? n); [|by apply keeps_ret, Z.le_refl].
  eapply keeps_bind; [apply keeps_true|]. intros c _. destruct (c <? 0); [by apply keeps_ret, Z.le_refl|]. cbn zeta.
  destruct (_ || _); apply keeps_ret; unfold got; cbn [fst snd]; zlen_lia.
Qed.

Lemma got_file fd count : keeps any (file_read (K := K) junk fd count) got.
Proof.
  apply (keeps_loop _ _ (λ '(i, p), i ≤ zlen p)); [|done]. intros [i p] Hi. destruct (i <? count); [|by apply keeps_ret].
  eapply keeps_bind; [apply keeps_true|]. intros e _.
  eapply keeps_bind; [apply sys_keeps, got_read_at|]. intros [n data] Hn. unfold got in Hn. cbn [fst snd] in Hn.
  destruct (n <? 0).
  - destruct (negb _); [by apply keeps_ret|]. eapply keeps_bind; [apply fail_neg|]. intros r ->. by apply keeps_ret.
  - destruct (n =? 0); [by apply keeps_ret|]. eapply keeps_bind; [apply keeps_true|]. intros _ _.
    apply keeps_ret. zlen_lia.
Qed.

Lemma got_net fd n : keeps any (__rc_net_read (K := K) junk fd n) got.
Proof.
  unfold __rc_net_read. eapply keeps_bind; [apply keeps_true|]. intros [e|] _; [|by apply keeps_ret].
  assert (keeps any (net_recv (K := K) junk (fd_path e) (fd_flags e) n) (λ r, got r.1)) as Hr.
  { unfold net_recv. eapply keeps_bind; [apply keeps_true|]. intros p _. cbn zeta.
    eapply keeps_bind; [apply keeps_true|]. intros [r tmp] _. destruct (Z.ltb_spec r 0).
    - eapply keeps_bind; [apply fail_neg|]. intros x ->. by apply keeps_ret.
    - destruct (negb _).
      + destruct (r <? 6); [by apply keeps_ret|]. eapply keeps_bind; [apply keeps_true|]. intros hdr _.
        eapply keeps_bind; [apply peek_data_len|]. intros d Hd. cbn beta in Hd. apply keeps_ret. unfold got. cbn [fst snd]. lia.
      + eapply keeps_bind; [apply peek_data_len|]. intros d Hd. cbn beta in Hd. apply keeps_ret. unfold got. cbn [fst snd]. lia. }
  eapply keeps_bind; [apply Hr|]. intros [[r data] hdr] Hg. by apply keeps_ret.
Qed.

Lemma got_read fd count : keeps any (read (K := K) junk fd count) got.
Proof.
  unfold read. eapply keeps_bind; [apply keeps_true|]. intros _ _.
  eapply keeps_bind; [apply keeps_true|]. intros [e|] _.
  - repeat case_decide; [apply got_console|apply got_net|apply got_file].
  - eapply keeps_bind; [apply fail_neg|]. intros x ->. by apply keeps_ret.
Qed.
End posix.

(** ** The formatting engines touch the state through their parameters only *)

Section engines.
Context {S : Type} (I : S → Prop).

Lemma keeps_vsscanf strtold text fmt ap : keeps I (vsscanf strtold text fmt ap) (λ _, True).
Proof. kp. Qed.

Context (emit : bytes → M S unit) (out_len : M S Z) (store_n : Z → Z → Z → M S unit).
Context (Hemit : ∀ s, keeps I (emit s) (λ _, True)) (Hlen : keeps I out_len (λ _, True)).
Context (Hstore : ∀ np lng n, keeps I (store_n np lng n) (λ _, True)).

Lemma keeps_vformat fmt_fp fmt ap : keeps I (vformat emit out_len store_n fmt_fp fmt ap) (λ _, True).
Proof. kp. Qed.
End engines.

(** ** One stream *)

Create HintDb stream discriminated.

(** Of the error indicator [e], [B e] says that the buffer may be full. *)
Definition typed (B : bool → Prop) (f : FILE) : Prop := file_ok f ∧ (B (f_err f) ∨ room f).
Definition stream_ok {K} (B : bool → Prop) (s : stream K) : Prop := typed B (s_file s).

(** Closes [typed B (u f)] for an update that leaves the positions in order,
    and wlen or 0 in it. *)
Ltac file_ok := intros; unfold stream_ok, typed in *; cbn [s_file s_os] in *;
  repeat match goal with
  | H : _ ∧ _ |- _ => destruct H
  | H : file_ok ?f |- _ =>
    let H1 := fresh in let H2 := fresh in let H3 := fresh in let H4 := fresh in
    destruct H as [H1 H2 H3 H4] end;
  split; [split; cbn; repeat case_match; try lia; try (split_and?; lia); try done
         | match goal with H : _ ∨ room _ |- _ => destruct H as [H|H] end;
           first [left; done | right; unfold room in *; cbn; repeat case_match; try done; lia
               | left; cbn; match goal with H : ?full ?e |- ?full true => destruct e; auto end] ].

Section stream.
Context {K : Type} `{!Kernel K} (junk : bytes) (full : bool → Prop) (Hfull : full false → full true).
Abbreviation ok := (stream_ok (K := K) full).
Implicit Types (s : stream K).

Lemma wlp_the_file {A} (k : FILE → M (stream K) A) Q s :
  wlp (k (s_file s)) Q s → wlp (bind the_file k) Q s.
Proof. done. Qed.
Lemma wlp_fset {A} u (k : unit → M (stream K) A) Q s :
  wlp (k tt) Q (Stream (s_os s) (u (s_file s))) → wlp (bind (fset u) k) Q s.
Proof. done. Qed.
Lemma wlp_the_buf {A} (k : bytes → M (stream K) A) Q s :
  (∀ b, f_buf (s_file s) = Some b → wlp (k b) Q s) → wlp (bind the_buf k) Q s.
Proof. intros Hk. apply wlp_bind, wlp_the_file, wlp_of_option, Hk. Qed.
Lemma wlp_advance {A} n (k : unit → M (stream K) A) Q s :
  (∀ pos, wlp (k tt) Q (Stream (s_os s) (with_pos pos (s_file s)))) → wlp (bind (advance n) k) Q s.
Proof. intros Hk. apply wlp_bind, wlp_the_file. case_decide; [apply Hk|done]. Qed.
Lemma wlp_os {A B} (c : M (posix K) A) (k : A → M (stream K) B) R Q s :
  keeps (λ _, True) c R → (∀ a p, R a → wlp (k a) Q (Stream p (s_file s))) → wlp (bind (os c) k) Q s.
Proof.
  intros Hc Hk. apply wlp_bind. unfold wlp at 1, os, zoom. specialize (Hc (s_os s) I). simpl.
  destruct (c (s_os s)) as [a p|code p| |]; try done. apply Hk. by destruct Hc.
Qed.

Lemma ok_the_file : keeps ok the_file (typed full).
Proof. by intros s Hs. Qed.
Lemma ok_the_buf : keeps ok the_buf (λ _, True).
Proof. eapply keeps_bind; [apply ok_the_file|]. intros f _. eapply keeps_any, keeps_of_option. Qed.
Lemma ok_fset u : (∀ f, typed full f → typed full (u f)) → keeps ok (fset u) (λ _, True).
Proof. intros Hu. apply keeps_modify. intros s. apply Hu. Qed.
Lemma ok_os {A} (c : M (posix K) A) : keeps ok (os c) (λ _, True).
Proof. intros s Hs. unfold os, zoom. simpl. by destruct (c (s_os s)). Qed.

Lemma ok_advance n : keeps ok (advance n) (λ _, True).
Proof.
  eapply keeps_bind; [apply ok_the_file|]. intros f _. case_decide; [|done]. apply ok_fset. file_ok.
Qed.

Lemma ok_err : keeps ok (fset (with_err true)) (λ _, True).
Proof.
  apply ok_fset. intros f [Hf H]. split; [by destruct Hf; split|]. destruct H as [H|H]; [left|by right].
  cbn. destruct (f_err f); auto.
Qed.

Lemma wlp_malloc {A} n (k : option bytes → M (stream K) A) Q s : 0 ≤ n →
  (∀ b p, (∀ b', b = Some b' → zlen b' = n) → wlp (k b) Q (Stream p (s_file s))) →
  wlp (bind (malloc junk n) k) Q s.
Proof.
  intros Hn Hk. apply wlp_bind. eapply wlp_os; [apply keeps_true|]. intros r p _. apply Hk.
  intros b'. destruct r; [|done]. intros [= <-]. pose proof (zlen_nonneg junk). apply zlen_takeZ. zlen_lia.
Qed.

Lemma ok_ensure_buf : keeps ok (ensure_buf junk) (λ _, True).
Proof.
  apply keeps_wlp. intros s Hs. apply wlp_the_file. destruct (f_buf (s_file s)) eqn:Eb; [done|].
  apply wlp_malloc; [done|]. intros [b|] p Hb.
  - apply wlp_fset. split; [|done]. specialize (Hb b eq_refl). destruct Hs as [[H1 H2 H3 H4] _].
    rewrite Eb in H4. destruct H4 as [H4 H5]. unfold stream_ok, typed, room. cbn. rewrite H5.
    split; [|by right]. split; cbn; try done. rewrite H4, H5. done.
  - eapply (wlp_keeps ok); [exact Hs|apply ok_err|]. intros _ s' Hs' _.
    eapply (wlp_keeps ok); [exact Hs'|apply ok_os|]. intros _ s'' Hs'' _. done.
Qed.

(** Walks through a function whose steps each keep the type: what is left are
    the updates of the stream. *)
Ltac ks :=
  cbn beta iota zeta;
  lazymatch goal with
  | |- keeps _ (ret _) _ => apply keeps_ret; try done
  | |- keeps _ fault _ => apply keeps_fault
  | |- keeps _ (if ?b then _ else _) _ => destruct b; ks
  | |- keeps _ (match ?x with _ => _ end) _ => destruct x; ks
  | |- keeps _ (bind _ _) _ =>
      first [ eapply keeps_bind; [solve [eauto 1 with stream]|intros ? ?; ks]
            | apply (keeps_bind _ _ _ (λ _, True)); [ks|intros ? _; ks] ]
  | |- keeps _ (loop _ _) _ => apply (keeps_loop _ _ (λ _, True)); [intros ? _; ks|done]
  | |- keeps _ (fset _) _ => apply ok_fset; try solve [file_ok]
  | |- keeps _ ?c _ => try solve [eapply keeps_any; eauto 1 with stream]
  end.
#[local] Hint Resolve ok_err ok_the_file ok_the_buf ok_os ok_advance ok_ensure_buf keeps_of_option keeps_chr keeps_peek : stream.

Lemma splice_len {S} (J : S → Prop) i d b : keeps J (splice i d b) (λ b', zlen b' = zlen b ∧ zlen d ≤ zlen b).
Proof.
  unfold splice. destruct ((0 <=? i) && (i + zlen d <=? zlen b)) eqn:E; [|done].
  apply keeps_ret. split; [apply zlen_spliced; lia|lia].
Qed.
#[local] Hint Resolve splice_len : stream.

Lemma ok_flush_loop : keeps ok (flush_loop junk) (λ _, True).
Proof. unfold flush_loop. ks. Qed.

Lemma ok_ms_append m src n : keeps ok (ms_append junk m src n) (λ _, True).
Proof. unfold ms_append, realloc, malloc. ks. Qed.
#[local] Hint Resolve ok_flush_loop ok_ms_append : stream.

Lemma ok_flush_write : keeps ok (flush_write junk) (λ _, True).
Proof. unfold flush_write. ks. Qed.

Lemma ok_drop_read : keeps ok (drop_read junk) (λ _, True).
Proof. unfold drop_read. ks. Qed.
#[local] Hint Resolve ok_flush_write ok_drop_read : stream.

Lemma wlp_splice {A} i d b (k : bytes → M (stream K) A) Q s :
  (∀ b', zlen b' = zlen b → zlen d ≤ zlen b → wlp (k b') Q s) → wlp (bind (splice i d b) k) Q s.
Proof.
  intros Hk. apply wlp_bind. unfold splice. destruct ((0 <=? i) && (i + zlen d <=? zlen b)) eqn:E; [|done].
  apply Hk; [apply zlen_spliced; lia|lia].
Qed.

(** What refill leaves has a character to read. *)
Lemma refill_ok s : ok s →
  wlp (refill junk) (λ r s', ok s' ∧ (r ≠ EOF → f_rpos (s_file s') < f_rlen (s_file s'))) s.
Proof.
  intros Hs. apply wlp_the_file. eapply (wlp_keeps ok); [done|by apply (keeps_any _ _ (λ _, True)); ks|].
  clear s Hs. intros _ s Hs _. eapply (wlp_keeps ok); [done|apply ok_ensure_buf|]. clear s Hs. intros r s Hs _.
  destruct (r <? 0); [by split|]. apply wlp_the_file, wlp_advance. intros pos. apply wlp_fset. cbn [s_file s_os].
  eapply wlp_os; [apply got_read|].
  intros [n data] p Hg. unfold got in Hg. cbn [fst snd] in Hg. destruct (Z.leb_spec n 0).
  - destruct (n =? 0); apply wlp_bind, wlp_fset; (split; [file_ok|done]).
  - apply wlp_the_buf. cbn [s_file]. intros b Hb. apply wlp_splice. intros b' Hl Hd.
    apply wlp_fset, wlp_fset. change (f_buf (s_file s) = Some b) in Hb.
    destruct Hs as [[H1 H2 H3 H4] H5]. unfold room in H5. rewrite Hb in H4, H5.
    split; [|by intros _]. split; [split; cbn; lia || done|exact H5].
Qed.

Lemma ok_refill : keeps ok (refill junk) (λ _, True).
Proof. intros s Hs. pose proof (refill_ok s Hs) as H. unfold wlp in H. destruct (refill junk s); try done. by destruct H. Qed.

Lemma ok_fgetc : keeps ok (fgetc junk) (λ _, True).
Proof.
  apply keeps_wlp. intros s Hs. apply wlp_the_file. destruct (0 <=? f_ungot (s_file s)).
  { apply wlp_fset. split; [file_ok|done]. }
  apply wlp_bind. apply (wlp_mono _ (λ r s', ok s' ∧ (r ≠ EOF → f_rpos (s_file s') < f_rlen (s_file s')))).
  { destruct (Z.leb_spec (f_rlen (s_file s)) (f_rpos (s_file s))); [by apply refill_ok|by split]. }
  clear s Hs. intros r s [Hs Hr]. destruct (Z.eqb_spec r EOF); [done|]. specialize (Hr n).
  apply wlp_the_file, wlp_the_buf. intros b Hb. apply wlp_bind, wlp_of_option. intros c _. apply wlp_fset.
  split; [file_ok|done].
Qed.

(** A flush of a full buffer too leaves the positions in order: one that fails
    sets the error indicator, one that does not empties the buffer. *)
Definition flushed (r : Z) s : Prop := file_ok (s_file s) ∧ (r = EOF → f_err (s_file s) = true).

Lemma flushed_error r s : file_ok (s_file s) → flushed r (Stream (s_os s) (with_err true (s_file s))).
Proof. intros []. split; [by split|done]. Qed.

Lemma flush_loop_flushed s : file_ok (s_file s) → wlp (flush_loop junk) flushed s.
Proof.
  intros Hs. apply (wlp_loop _ (λ _ s, file_ok (s_file s))); [|done]. clear s Hs. intros done s Hs. apply wlp_the_file.
  destruct (done <? f_wlen (s_file s)); [|by split]. apply wlp_the_buf. intros b _.
  eapply wlp_os; [apply keeps_true|]. intros w p _.
  destruct (w <=? 0); [apply wlp_fset; by apply (flushed_error _ (Stream p (s_file s)))|done].
Qed.

Lemma ms_append_flushed m src n s : file_ok (s_file s) → wlp (ms_append junk m src n) flushed s.
Proof.
  intros Hs. eapply (wlp_keeps (λ s, file_ok (s_file s)) _ _ (λ _, True)); [done| |].
  { unfold realloc, malloc. destruct (ms_cap m <? _); [|by apply keeps_ret].
    apply (keeps_bind _ _ _ (λ _, True)).
    { apply (keeps_loop _ _ (λ _, True)); [|done]. intros nc _. destruct (nc <? _); by apply keeps_ret. }
    intros nc _. apply (keeps_bind _ _ _ (λ _, True)).
    { apply (keeps_bind _ _ _ (λ _, True)); [|intros; by apply keeps_ret].
      apply (keeps_bind _ _ _ (λ _, True)); [|intros; by apply keeps_ret].
      intros t Ht. unfold os, zoom. simpl. by destruct (sys _ _). }
    intros [nb|] _; by apply keeps_ret. }
  clear s Hs. intros [m'|] s Hs _.
  - unfold peek. destruct (_ && _); [|done]. apply wlp_bind. apply wlp_splice. intros b1 _ _.
    apply wlp_splice. intros b2 _ _. apply wlp_fset. split; [|done]. by destruct Hs; split.
  - apply wlp_fset. eapply wlp_os; [apply keeps_true|]. intros _ p _.
    by apply (flushed_error _ (Stream p (s_file s))).
Qed.

Lemma flush_empties s : file_ok (s_file s) →
  wlp (flush_write junk) (λ r s', flushed r s' ∧ (r ≠ EOF → f_wlen (s_file s') = 0)) s.
Proof.
  intros Hs. apply wlp_the_file. destruct (Z.eqb_spec (f_wlen (s_file s)) 0); [split; [split; [exact Hs|done]|by intros _]|].
  apply wlp_bind. apply (wlp_mono _ flushed).
  { destruct (f_ms (s_file s)); [apply wlp_the_buf; intros b _; by apply ms_append_flushed|by apply flush_loop_flushed]. }
  intros r s1 [H1 H1']. destruct (Z.eqb_spec r EOF) as [->|]; [by split; [split; auto|]|].
  apply wlp_advance. intros pos. apply wlp_fset. split; [|done]. split; [|done]. cbn [s_file].
  destruct H1 as [H2 H3 H4 H5]. split; cbn; repeat case_match; try done; lia.
Qed.

(** A stream whose buffer is empty has room. *)
Lemma empty_room f : file_ok f → f_wlen f = 0 → room f.
Proof. intros [_ _ _ H] H0. unfold room. destruct (f_buf f); [lia|done]. Qed.

Lemma ok_fseek off whence : keeps ok (fseek junk off whence) (λ _, True).
Proof. unfold fseek. ks. Qed.
#[local] Hint Resolve ok_fseek : stream.

(** rewind and clearerr forget the error, but not a full buffer. *)
Lemma ok_forget u : (∀ e, full e → full false) → (∀ f, u f = with_err false f ∨ u f = with_eof false (with_err false f)) →
  keeps ok (fset (K := K) u) (λ _, True).
Proof.
  intros Hf Hu. apply ok_fset. intros f [[H1 H2 H3 H4] H].
  split; [destruct (Hu f) as [-> | ->]; by split|].
  destruct H as [H|H]; [left|right]; destruct (Hu f) as [-> | ->]; try done; by apply (Hf (f_err f)).
Qed.
Lemma ok_rewind : (∀ e, full e → full false) → keeps ok (rewind junk) (λ _, True).
Proof.
  intros Hf. apply (keeps_bind _ _ _ (λ _, True)); [apply ok_fseek|]. intros _ _. apply ok_forget; [done|]. by left.
Qed.
Lemma ok_clearerr : (∀ e, full e → full false) → keeps ok (clearerr (K := K)) (λ _, True).
Proof. intros Hf. apply ok_forget; [done|]. by right. Qed.

(** From here on a stream that recorded an error may be full. *)
Context (Herr : full true).

Lemma ok_fputc c : keeps ok (fputc junk c) (λ _, True).
Proof.
  apply keeps_wlp. intros s Hs. apply wlp_the_file.
  eapply (wlp_keeps ok); [done|by apply (keeps_any _ _ (λ _, True)); ks|].
  intros _ s1 Hs1 _. destruct (f_bufmode (s_file s) =? _IONBF).
  { eapply (wlp_keeps ok); [done|apply ok_os|]. intros w s2 Hs2 _.
    apply (wlp_of_keeps ok); [done|]. destruct (negb (w =? 1)); ks. }
  eapply (wlp_keeps ok); [done|apply ok_ensure_buf|]. intros r s2 Hs2 _. destruct (r <? 0); [done|].
  apply wlp_the_file, wlp_the_buf. intros b Hb. apply wlp_bind, wlp_of_option. intros b' Hb'.
  apply wlp_fset, wlp_fset. cbn [s_os s_file]. set (s3 := Stream _ _).
  assert (file_ok (s_file s3)) as H3.
  { unfold upd in Hb'. case_decide; [|done]. injection Hb' as <-.
    destruct Hs2 as [[H1 H2 H3 H4] _]. rewrite Hb in H4. split; cbn; try done; [lia|].
    unfold zlen in *. rewrite length_insert. lia. }
  apply wlp_bind, (wlp_mono _ (λ _ s', ok s')); [|intros x s4 H4; by destruct (x =? EOF)].
  destruct (_ || _) eqn:Efull.
  - eapply wlp_mono; [by apply flush_empties|]. intros x s4 [[H4 He] H0]. split; [done|].
    destruct (decide (x = EOF)) as [Hx|Hx]; [left; by rewrite (He Hx)|right; by apply empty_room, H0].
  - apply orb_false_iff in Efull as [Efull _]. split; [done|right]. destruct H3 as [_ _ _ H3].
    unfold room. cbn in *. lia.
Qed.
#[local] Hint Resolve ok_fgetc ok_fputc : stream.

Lemma ok_ungetc c : keeps ok (ungetc c) (λ _, True).
Proof.
  unfold ungetc. ks. pose proof (Z.land_ones c 8 ltac:(done)) as E. change (Z.ones 8) with 255 in E.
  rewrite E. change (2 ^ 8) with 256. file_ok.
Qed.

Lemma ok_fgets n : keeps ok (fgets junk n) (λ _, True).
Proof. unfold fgets. ks. Qed.
Lemma ok_fread size n : keeps ok (fread junk size n) (λ _, True).
Proof. unfold fread. ks. Qed.
Lemma ok_fputs str : keeps ok (fputs junk str) (λ _, True).
Proof. unfold fputs. ks. Qed.
Lemma ok_fwrite ptr size n : keeps ok (fwrite junk ptr size n) (λ _, True).
Proof. unfold fwrite. ks. Qed.
Lemma ok_ftell : keeps ok (ftell (K := K)) (λ _, True).
Proof. unfold ftell. ks. Qed.
#[local] Hint Resolve ok_fgets ok_ftell : stream.
Lemma ok_fgetpos : keeps ok (fgetpos (K := K)) (λ _, True).
Proof. unfold fgetpos. ks. Qed.
Lemma ok_getdelim line n delim : keeps ok (getdelim junk line n delim) (λ _, True).
Proof. unfold getdelim, realloc, malloc. ks. Qed.

Lemma ok_vfprintf fmt_fp fmt ap : keeps ok (vfprintf junk fmt_fp fmt ap) (λ _, True).
Proof.
  intros s Hs. unfold vfprintf.
  assert (keeps (λ x : stream K * (Z * list (Z * Z * Z)), ok x.1)
    (vformat (emit_file junk) file_len file_store_n fmt_fp fmt ap) (λ _, True)) as Hk.
  { apply keeps_vformat.
    - intros b [t [l np]] Ht. pose proof (ok_fwrite b 1 (zlen b) t Ht) as Hw. unfold emit_file.
      destruct (fwrite junk b 1 (zlen b) t); try done.
    - by intros x Hx.
    - intros np lng n. apply keeps_modify. by intros [t [l ns]]. }
  specialize (Hk (s, (0, [])) Hs). destruct (vformat _ _ _ _ _ _ _) as [r [t [l np]]|code [t x]| |]; try done.
Qed.

Lemma ok_vfscanf strtold fmt ap : keeps ok (vfscanf junk strtold fmt ap) (λ _, True).
Proof. unfold vfscanf. ks. apply keeps_vsscanf. Qed.

(** setvbuf before anything is in the buffer *)
Lemma setvbuf_ok buf mode size s : ok s → f_rlen (s_file s) = 0 → f_wlen (s_file s) = 0 →
  (∀ b, buf = Some b → zlen b = if size =? 0 then BUFSIZ else size) → 0 ≤ size →
  wlp (setvbuf junk buf mode size) (λ _ s', ok s') s.
Proof.
  intros Hs Hr Hw Hb Hsz. unfold setvbuf, fflush1. apply wlp_bind. apply (wlp_mono _ (λ _ s', s' = s)).
  { unfold flush_write. apply wlp_the_file. by rewrite Hw. }
  intros _ ? ->. apply wlp_fset, wlp_fset. destruct Hs as [[H1 H2 H3 H4] _].
  assert (file_ok (with_bufmode mode (with_buf false buf (if size =? 0 then BUFSIZ else size) (s_file s)))) as Hok.
  { split; cbn; try done. rewrite Hr, Hw. destruct buf as [b|]; [|done]. rewrite (Hb b eq_refl). split; [done|].
    unfold BUFSIZ. destruct (Z.eqb_spec size 0); lia. }
  split; [exact Hok|right]. by apply empty_room.
Qed.
End stream.

(** ** All streams *)

Inductive stream_call :=
  | s_getc | s_ungetc (c : Z) | s_gets (n : Z) | s_read (size n : Z) | s_getdelim (line : option bytes) (n delim : Z)
  | s_scanf (fmt : bytes) (ap : list Z)
  | s_putc (c : Z) | s_puts (text : bytes) | s_write (ptr : bytes) (size n : Z)
  | s_printf (fmt : bytes) (ap : list va_slot)
  | s_seek (off whence : Z) | s_tell | s_rewind | s_getpos | s_eof | s_error | s_clearerr | s_fileno.

Inductive stdio_call :=
  | f_stream (h : Z) (c : stream_call)
  | f_posix (c : posix_call)
  | f_open (path mode : bytes)
  | f_dopen (fd : Z) (mode : bytes)
  | f_reopen (path mode : bytes) (h : option Z)
  | f_close (h : option Z)
  | f_flush (h : option Z)
  | f_memstream
  | f_tmpfile
  | f_tmpnam
  | f_remove (path : bytes)
  | f_perror (text : option bytes)
  | f_putline (text : bytes)
  | f_exit_flush.

Section stdio.
Context {K : Type} `{!Kernel K} (junk : bytes) (fmt_fp : va_slot → Z → Z → Z → Z → bytes) (strtold : bytes → Z * Z).

Definition run_stream_call (c : stream_call) : M (stream K) unit :=
  match c with
  | s_getc => fgetc junk ;; ret tt
  | s_ungetc c => ungetc c ;; ret tt
  | s_gets n => fgets junk n ;; ret tt
  | s_read size n => fread junk size n ;; ret tt
  | s_getdelim line n delim => getdelim junk line n delim ;; ret tt
  | s_scanf fmt ap => vfscanf junk strtold fmt ap ;; ret tt
  | s_putc c => fputc junk c ;; ret tt
  | s_puts text => fputs junk text ;; ret tt
  | s_write ptr size n => fwrite junk ptr size n ;; ret tt
  | s_printf fmt ap => vfprintf junk fmt_fp fmt ap ;; ret tt
  | s_seek off whence => fseek junk off whence ;; ret tt
  | s_tell => ftell ;; ret tt
  | s_rewind => rewind junk ;; ret tt
  | s_getpos => fgetpos ;; ret tt
  | s_eof => feof ;; ret tt
  | s_error => ferror ;; ret tt
  | s_clearerr => clearerr ;; ret tt
  | s_fileno => fileno ;; ret tt
  end.

Definition run_stdio_call (c : stdio_call) : M (stdio K) unit :=
  match c with
  | f_stream h c => on h (run_stream_call c) ;; ret tt
  | f_posix c => px (run_call junk fmt_fp c) ;; ret tt
  | f_open path mode => fopen junk path mode ;; ret tt
  | f_dopen fd mode => fdopen fd mode ;; ret tt
  | f_reopen path mode h => freopen junk path mode h ;; ret tt
  | f_close h => fclose junk h ;; ret tt
  | f_flush h => fflush junk h ;; ret tt
  | f_memstream => open_memstream ;; ret tt
  | f_tmpfile => tmpfile junk ;; ret tt
  | f_tmpnam => tmpnam ;; ret tt
  | f_remove path => remove junk path ;; ret tt
  | f_perror text => perror junk text ;; ret tt
  | f_putline text => puts junk text ;; ret tt
  | f_exit_flush => __libc_stdio_exit_flush junk ;; ret tt
  end.

(** One call that returned; setvbuf is for a stream with nothing in its buffer,
    with an array of the size it says. *)
Inductive stdio_step : stdio K → stdio K → Prop :=
  | step_call c s s' : run_stdio_call c s = Ret tt s' → stdio_step s s'
  | step_setvbuf h f buf mode size r s s' :
      io_files s !! h = Some f → f_rlen f = 0 → f_wlen f = 0 → 0 ≤ size →
      (∀ b, buf = Some b → zlen b = if size =? 0 then BUFSIZ else size) →
      on h (setvbuf junk buf mode size) s = Ret r s' → stdio_step s s'.

(** The streams whose error indicator is set. *)
Definition errored (s : stdio K) : gset Z := dom (filter (λ hf : Z * FILE, f_err hf.2 = true) (io_files s)).

(** A program up to one of its calls: the streams on which the error indicator
    was set after a call so far, and the state. *)
Inductive stdio_run (p : posix K) : gset Z → stdio K → Prop :=
  | run_start : stdio_run p ∅ (stdio_start p)
  | run_step E s s' : stdio_run p E s → stdio_step s s' → stdio_run p (E ∪ errored s') s'.

Definition io_ok (full : Z → bool → Prop) (s : stdio K) : Prop := map_Forall (λ h, typed (full h)) (io_files s).

Lemma io_ok_mono full full' s : (∀ h f, io_files s !! h = Some f → full h (f_err f) → full' h (f_err f)) →
  io_ok full s → io_ok full' s.
Proof. intros H Hs h f Hf. destruct (Hs h f Hf) as [H1 H2]. split; [done|]. destruct H2; eauto. Qed.

Lemma io_on {A} full h (c : M (stream K) A) :
  keeps (stream_ok (full h)) c (λ _, True) → keeps (io_ok full) (on h c) (λ _, True).
Proof.
  intros Hc s Hs. unfold on. destruct (io_files s !! h) as [f|] eqn:Ef; [|done].
  specialize (Hc (Stream (io_posix s) f) (Hs h f Ef)).
  destruct (c (Stream (io_posix s) f)); try done. destruct Hc as [Hc _]. split; [|done]. by apply map_Forall_insert_2.
Qed.

Lemma new_file_typed full fd rd wr mode ms : typed full (new_file fd rd wr mode ms).
Proof. split; [by split|by right]. Qed.

Section io.
Context (full : Z → bool → Prop) (Hfull : ∀ h, full h true).
Abbreviation ok := (io_ok full).

Lemma io_px {A} (c : M (posix K) A) : keeps ok (px c) (λ _, True).
Proof. intros s Hs. unfold px, zoom. simpl. by destruct (c (io_posix s)). Qed.

Lemma io_new_stream fd rd wr mode ms : keeps ok (new_stream (K := K) (new_file fd rd wr mode ms)) (λ _, True).
Proof.
  intros s Hs. split; [|done]. apply map_Forall_insert_2; [apply new_file_typed|done].
Qed.

Lemma io_free_stream h : keeps ok (free_stream (K := K) h) (λ _, True).
Proof. apply keeps_modify. intros s Hs. by apply map_Forall_delete. Qed.

Lemma io_heap n : keeps ok (heap (K := K) n) (λ _, True).
Proof. apply io_px. Qed.

Lemma io_flush h : keeps ok (on h (flush_write junk)) (λ _, True).
Proof. apply io_on, ok_flush_write. auto. Qed.
#[local] Hint Resolve io_px io_heap io_flush io_new_stream io_free_stream keeps_get : rc.

Lemma io_put_char h c : keeps ok (on h (fputc junk c)) (λ _, True).
Proof. apply io_on, ok_fputc; auto. Qed.
Lemma io_put_str h text : keeps ok (on h (fputs junk text)) (λ _, True).
Proof. apply io_on, ok_fputs; auto. Qed.
Lemma io_write h ptr size n : keeps ok (on h (fwrite junk ptr size n)) (λ _, True).
Proof. apply io_on, ok_fwrite; auto. Qed.
Lemma io_fileno h : keeps ok (on h (fileno (K := K))) (λ _, True).
Proof. apply io_on. by intros s Hs. Qed.
#[local] Hint Resolve io_put_char io_put_str io_write io_fileno : rc.

Lemma io_tmpnam : keeps ok (tmpnam (K := K)) (λ _, True).
Proof. kp. by apply keeps_put. Qed.

(** freopen forgets what is in the buffer. *)
Lemma io_reset h fd rd wr : keeps ok (on h (fset (K := K) (λ f, with_ungot (-1) (with_pos 0 (with_wlen 0
  (with_read 0 0 (with_eof false (with_err false (with_fd fd rd wr f))))))))) (λ _, True).
Proof.
  apply io_on, ok_fset. intros f [[H1 H2 H3 H4] _].
  assert (file_ok (with_ungot (-1) (with_pos 0 (with_wlen 0 (with_read 0 0 (with_eof false (with_err false (with_fd fd rd wr f)))))))) as H.
  { split; cbn; try lia. destruct (f_buf f); [lia|done]. }
  split; [exact H|right]. by apply empty_room.
Qed.
#[local] Hint Resolve io_tmpnam io_reset : rc.

(** The calls that clear the error indicator and leave the buffer as it is *)
Definition forgets (c : stdio_call) : bool :=
  match c with f_stream _ s_rewind | f_stream _ s_clearerr => true | _ => false end.

Lemma io_call c : forgets c = false → keeps ok (run_stdio_call c) (λ _, True).
Proof.
  intros Hc. destruct c; cbn [run_stdio_call]; (apply (keeps_bind _ _ _ (λ _, True)); [|intros; by apply keeps_ret]).
  2-14: kp.
  apply io_on. assert (full h false → full h true) as Hh by auto.
  destruct c; try done; (apply (keeps_bind _ _ _ (λ _, True)); [|intros; by apply keeps_ret]); try by intros s Hs.
  - by apply ok_fgetc.
  - by apply ok_ungetc.
  - by apply ok_fgets.
  - by apply ok_fread.
  - by apply ok_getdelim.
  - by apply ok_vfscanf.
  - by apply ok_fputc.
  - by apply ok_fputs.
  - by apply ok_fwrite.
  - by apply ok_vfprintf.
  - by apply ok_fseek.
  - by apply ok_ftell.
  - by apply ok_fgetpos.
Qed.
End io.

Lemma io_forgets (full : Z → Prop) c : forgets c = true → keeps (io_ok (λ h _, full h)) (run_stdio_call c) (λ _, True).
Proof.
  destruct c as [h c| | | | | | | | | | | | |]; try done. cbn [run_stdio_call]. intros Hc.
  apply (keeps_bind _ _ _ (λ _, True)); [|intros; by apply keeps_ret]. apply io_on.
  destruct c; try done; (apply (keeps_bind _ _ _ (λ _, True)); [|intros; by apply keeps_ret]).
  - by apply ok_rewind.
  - by apply ok_clearerr.
Qed.

(** One step: a buffer is full only if it may have been before, or if the
    error indicator is set now. *)
Lemma io_step (E : gset Z) s s' : stdio_step s s' → io_ok (λ h _, h ∈ E) s → io_ok (λ h _, h ∈ E ∪ errored s') s'.
Proof.
  set (now h e := h ∈ E ∨ e = true). intros Hstep Hs.
  assert (io_ok now s) as Hnow by (eapply io_ok_mono; [|exact Hs]; by left).
  enough (io_ok now s') as H'.
  { eapply io_ok_mono; [|exact H']. intros h f Hf [H|H]; [by apply elem_of_union_l|]. apply elem_of_union_r.
    unfold errored. apply elem_of_dom. exists f. by apply map_lookup_filter_Some. }
  destruct Hstep as [c s1 s2 Hrun|h f buf mode size r s1 s2 Hf Hr Hw Hsz Hb Hrun].
  - destruct (forgets c) eqn:Ef.
    + pose proof (io_forgets (.∈ E) c Ef s1 Hs) as Hk. rewrite Hrun in Hk.
      eapply io_ok_mono; [|apply Hk]. by left.
    + pose proof (io_call now ltac:(by right) c Ef s1 Hnow) as Hk. rewrite Hrun in Hk. apply Hk.
  - unfold on in Hrun. rewrite Hf in Hrun.
    pose proof (setvbuf_ok junk (now h) buf mode size (Stream (io_posix s1) f) (Hnow h f Hf) Hr Hw Hb Hsz) as Hk.
    unfold wlp in Hk. destruct (setvbuf junk buf mode size _); try done. injection Hrun as _ <-.
    by apply map_Forall_insert_2.
Qed.

Lemma io_start full p : io_ok full (stdio_start (K := K) p).
Proof. repeat apply map_Forall_insert_2; [apply new_file_typed..|]. apply map_Forall_empty. Qed.

Lemma io_run p E s : stdio_run p E s → io_ok (λ h _, h ∈ E) s.
Proof. induction 1 as [|E s s' _ IH Hstep]; [apply io_start|by eapply io_step]. Qed.

(** C9: every open stream is well typed in every state a program can reach, by
    any calls of stdio.c, printf.c, scanf.c and the descriptor layer with any
    arguments, as long as they return, on a kernel that may answer anything:
    0 <= rpos <= rlen <= bufcap, 0 <= wlen <= bufcap, the buffer has bufcap > 0
    bytes, without a buffer there is nothing to read or write, and a character
    pushed back is a byte.  Moreover wlen < bufcap, so that the store of the next
    fputc lies in the buffer, on every stream whose error indicator no call left
    set ([E] has the others: a full buffer stays full when its flush fails, and
    [fputc_after_error_overflows] shows the store after that).  (setvbuf is
    called as C requires, with nothing in the buffer and an array as long as it
    says.) *)
Theorem reachable_streams_typed (p : posix K) (E : gset Z) (s : stdio K) (h : Z) (f : FILE)
  (Hs : stdio_run p E s) (Hf : io_files s !! h = Some f) :
  file_ok f ∧ (h ∉ E → room f ∧ ∀ b c, f_buf f = Some b → is_Some (upd b (f_wlen f) c)).
Proof.
  destruct (io_run p E s Hs h f Hf) as [H1 H2]. split; [done|]. intros HE. destruct H2 as [H2|H2]; [done|].
  split; [done|]. intros b c Hb. destruct H1 as [_ H3 _ H4]. unfold room in H2. rewrite Hb in H2, H4.
  unfold upd. rewrite decide_True by lia. done.
Qed.

(** The calls one after the other, and [E]. *)
Fixpoint run_stdio_calls (l : list stdio_call) (E : gset Z) : M (stdio K) (gset Z) :=
  match l with
  | [] => ret E
  | c :: l => run_stdio_call c ;; s <- get ;; run_stdio_calls l (E ∪ errored s)
  end.

Lemma run_stdio_calls_run p l E E' s s' :
  stdio_run p E s → run_stdio_calls l E s = Ret E' s' → stdio_run p E' s'.
Proof.
  revert E s. induction l as [|c l IH]; intros E s Hs; cbn [run_stdio_calls]; [by intros [= -> ->]|].
  intros ([] & s1 & H1 & H2)%bind_Ret_inv. apply (IH (E ∪ errored s1) s1); [|exact H2]. eapply run_step; [exact Hs|by eapply step_call].
Qed.
End stdio.

(** A failed flush is not noticed by refill: it reads over the characters that
    are still to be written, which wlen goes on counting, so that the next flush
    writes what was read. *)
Theorem refill_overwrites_unwritten {K} `{Kernel K} (junk : bytes) (s : stream K) (b data : bytes) (w : Z) (p p' : posix K)
    (Hbuf : f_buf (s_file s) = Some b) (Hcap : f_cap (s_file s) = zlen b) (Hms : f_ms (s_file s) = None)
    (Hwlen : 0 < f_wlen (s_file s)) (Hrlen : f_rlen (s_file s) = 0)
    (Hpos : LLONG_MIN ≤ f_pos (s_file s) ≤ LLONG_MAX)
    (Hwrite : write junk (f_fd (s_file s)) b (f_wlen (s_file s)) (s_os s) = Ret w p) (Hw : w ≤ 0)
    (Hread : read junk (f_fd (s_file s)) (zlen b) p = Ret (zlen data, data) p') (Hdata : 0 < zlen data ≤ zlen b) :
  ∃ s', refill junk s = Ret 0 s' ∧ f_wlen (s_file s') = f_wlen (s_file s) ∧
    f_buf (s_file s') = Some (data ++ dropZ (zlen data) b).
Proof.
  destruct s as [p0 [fd rd wr err eof mode owned buf cap rpos rlen wlen pos ungot ms]]. cbn [s_os s_file f_buf f_cap f_ms
    f_wlen f_rlen f_fd f_pos] in *. subst buf cap ms rlen.
  set (f0 := File fd rd wr err eof mode owned (Some b) (zlen b) rpos 0 wlen pos ungot None).
  set (f1 := File fd rd wr true eof mode owned (Some b) (zlen b) rpos 0 wlen pos ungot None).
  assert (flush_write junk (Stream p0 f0) = Ret EOF (Stream p f1)) as E.
  { unfold flush_write. rewrite (bind_run _ _ f0 (Stream p0 f0) (Stream p0 f0)) by done. cbn [f0 f_wlen f_ms].
    replace (wlen =? 0) with false by lia.
    rewrite (bind_run _ _ EOF _ (Stream p f1)); [done|]. apply loop_break.
    rewrite (bind_run _ _ f0 (Stream p0 f0) (Stream p0 f0)) by done. cbn [f0 f_wlen f_fd].
    replace (0 <? wlen) with true by lia.
    rewrite (bind_run _ _ b (Stream p0 f0) (Stream p0 f0)) by done. rewrite dropZ_0, Z.sub_0_r.
    rewrite (bind_run _ _ w _ (Stream p f0)) by (by apply (os_run _ _ _ (Stream p0 f0))).
    by replace (w <=? 0) with true by lia. }
  set (f2 := File fd rd wr true eof mode owned (Some b) (zlen b) 0 0 wlen pos ungot None).
  unfold refill. rewrite (bind_run _ _ f0 (Stream p0 f0) (Stream p0 f0)) by done. cbn [f0 f_wlen].
  replace (negb (wlen =? 0)) with true by lia. cbn iota.
  rewrite (bind_run _ _ tt _ (Stream p f1)) by (by rewrite (bind_run _ _ _ _ _ E)).
  rewrite (bind_run _ _ 0 _ (Stream p f1)) by done. change (0 <? 0) with false. cbn iota.
  rewrite (bind_run _ _ f1 (Stream p f1) (Stream p f1)) by done.
  rewrite (bind_run _ _ tt _ (Stream p f1)).
  2:{ unfold advance. rewrite (bind_run _ _ f1 (Stream p f1) (Stream p f1)) by done. change (s64 (f_rlen f1)) with 0.
      rewrite Z.add_0_r. by rewrite decide_True by done. }
  rewrite (bind_run _ _ tt _ (Stream p f2)) by done.
  rewrite (bind_run _ _ (zlen data, data) _ (Stream p' f2)) by (by apply (os_run _ _ _ (Stream p f2))).
  cbn beta iota. replace (zlen data <=? 0) with false by lia.
  rewrite (bind_run _ _ b _ (Stream p' f2)) by done.
  rewrite (bind_run _ _ _ _ _ (splice_run 0 data b (Stream p' f2) ltac:(lia) ltac:(lia))).
  eexists. split; [done|]. done.
Qed.

(** Opening a file, reading half a line, pushing a character back, writing. *)
From S2P Require Import Ram.

Definition ex_stdio : stdio ram := stdio_start (posix_start (ex_ram (str "/f") (str "hello, world"))).
Definition ex_io_calls : list stdio_call :=
  [f_open (str "/f") (str "r+"); f_stream 4 (s_gets 6); f_stream 4 (s_ungetc 65); f_stream 4 s_getc;
   f_stream 4 (s_printf (str "%d!") [VInt 42]); f_stream 4 s_tell; f_putline (str "done"); f_flush None].
Definition ex_io_run : outcome (stdio ram) (gset Z) :=
  run_stdio_calls ex_junk (λ _ _ _ _ _, []) (λ _, (0, 0)) ex_io_calls ∅ ex_stdio.
Definition ex_io_end : stdio ram := match ex_io_run with Ret _ s | Halt _ s => s | _ => ex_stdio end.
Definition ex_io_file : FILE := default _stdin (io_files ex_io_end !! 4).

Lemma reachable_streams_typed_witness :
  f_rlen ex_io_file = 0 ∧ f_wlen ex_io_file = 3 ∧ f_cap ex_io_file = 4096 ∧ file_ok ex_io_file ∧
  room ex_io_file ∧ ∀ b c, f_buf ex_io_file = Some b → is_Some (upd b (f_wlen ex_io_file) c).
Proof.
  split; [vm_compute; reflexivity|]. split; [vm_compute; reflexivity|]. split; [vm_compute; reflexivity|].
  edestruct (reachable_streams_typed ex_junk (λ _ _ _ _ _, []) (λ _, (0, 0)) (io_posix ex_stdio) ∅ ex_io_end 4) as [H1 H2].
  3: { split; [exact H1|]. by apply H2, not_elem_of_empty. }
  - apply (run_stdio_calls_run _ _ _ (io_posix ex_stdio) ex_io_calls ∅ ∅ ex_stdio); [apply run_start|].
    vm_compute. reflexivity.
  - vm_compute. reflexivity.
Defined.
