(* ===== verification/Wchar.v ===== *)
(** <wchar.h>, <wctype.h> and the multibyte half of <stdlib.h>:
    src/lib/racccoon-libc/src/wchar.c.

    A wide character is its [int]; a [const wchar_t *] that is only read is its
    contents without the terminator, as for the byte strings of CBuffer.  A
    destination array is the list of its elements at its full length; an access
    outside is a [Fault], and it does not overlap the source, which is what the
    copying functions ask for.  wmemcpy and wmemmove are on the byte memory.  The
    floating-point parsers are parameters, which [FloatScan] defines. *)
From S2P Require Import Prelude CMonad CMemory CBuffer Kernel RcFs RcFd RcPosix Ctype CString CStdlib Printf Stdio.

Definition WEOF : Z := -1.
Definition EOVERFLOW : Z := 75.

(** [d[i]] and [d[i] = c] of an array *)
Definition aget {S} (d : list Z) (i : Z) : M S Z := of_option (idx d i).
Definition aput {S} (d : list Z) (i c : Z) : M S (list Z) := of_option (upd d i c).

(** ** Strings *)

Definition wcslen {S} (s : list Z) : M S Z :=
  loop (λ p, c <- chr s p ;; if negb (c =? 0) then ret (Continue (p + 1)) else ret (Break p)) 0.

(** wcscpy to [d + o] *)
Definition wcscpy_at {S} (d : list Z) (o : Z) (s : list Z) : M S (list Z) :=
  loop (λ '(i, d),
    c <- chr s i ;; d <- aput d (o + i) c ;;
    if negb (c =? 0) then ret (Continue (i + 1, d)) else ret (Break d)) (0, d).
Definition wcscpy {S} (d s : list Z) : M S (list Z) := wcscpy_at d 0 s.

Definition wcsncpy {S} (d s : list Z) (n : Z) : M S (list Z) :=
  let* (i, d) := loop (λ '(i, d),
    if i <? n then
      c <- chr s i ;;
      if negb (c =? 0) then d <- aput d i c ;; ret (Continue (i + 1, d)) else ret (Break (i, d))
    else ret (Break (i, d))) (0, d) in
  loop (λ '(i, d),
    if i <? n then d <- aput d i 0 ;; ret (Continue (i + 1, d)) else ret (Break d)) (i, d).

Definition wcscat {S} (d s : list Z) : M S (list Z) :=
  t <- get_str 0 d ;; o <- wcslen t ;; wcscpy_at d o s.

Definition wcsncat {S} (d s : list Z) (n : Z) : M S (list Z) :=
  t <- get_str 0 d ;; o <- wcslen t ;;
  let* (p, d) := loop (λ '(i, d),
    if negb (n - i =? 0) then
      c <- chr s i ;;
      if negb (c =? 0) then d <- aput d (o + i) c ;; ret (Continue (i + 1, d)) else ret (Break (i, d))
    else ret (Break (i, d))) (0, d) in
  aput d (o + p) 0.

Definition wcscmp {S} (a b : list Z) : M S Z :=
  loop (λ i,
    x <- chr a i ;; y <- chr b i ;;
    if negb (x =? 0) && (x =? y) then ret (Continue (i + 1))
    else ret (Break (if x <? y then -1 else if y <? x then 1 else 0))) 0.

Definition wcsncmp {S} (a b : list Z) (n : Z) : M S Z :=
  loop (λ i,
    if negb (n - i =? 0) then
      x <- chr a i ;; y <- chr b i ;;
      if negb (x =? y) then ret (Break (if x <? y then -1 else 1))
      else if x =? 0 then ret (Break 0) else ret (Continue (i + 1))
    else ret (Break 0)) 0.

Definition wcscoll {S} (a b : list Z) : M S Z := wcscmp a b.
(** The length, and the array after. *)
Definition wcsxfrm {S} (d s : list Z) (n : Z) : M S (Z * list Z) :=
  len <- wcslen s ;;
  d <- (if negb (n =? 0) then wcsncpy d s (if len <? n then len + 1 else n) else ret d) ;;
  ret (len, d).
Definition wcscoll_l {S} (a b : list Z) : M S Z := wcscoll a b.
Definition wcsxfrm_l {S} (d s : list Z) (n : Z) : M S (Z * list Z) := wcsxfrm d s n.

(** A pointer into the string is its offset, [None] is NULL. *)
Definition wcschr {S} (s : list Z) (c : Z) : M S (option Z) :=
  loop (λ i,
    x <- chr s i ;;
    if x =? c then ret (Break (Some i)) else if x =? 0 then ret (Break None) else ret (Continue (i + 1))) 0.

Definition wcsrchr {S} (s : list Z) (c : Z) : M S (option Z) :=
  loop (λ '(i, r),
    x <- chr s i ;;
    let r := if x =? c then Some i else r in
    if x =? 0 then ret (Break r) else ret (Continue (i + 1, r))) (0, None).

(** The length of the longest run of characters that are, or are not, in [set]. *)
Definition wcs_span {S} (member : bool) (s set : list Z) : M S Z :=
  loop (λ n,
    c <- chr s n ;;
    if c =? 0 then ret (Break n)
    else r <- wcschr set c ;;
         if eqb (bool_decide (r ≠ None)) member then ret (Continue (n + 1)) else ret (Break n)) 0.
Definition wcsspn {S} (s accept : list Z) : M S Z := wcs_span true s accept.
Definition wcscspn {S} (s reject : list Z) : M S Z := wcs_span false s reject.

Definition wcspbrk {S} (s accept : list Z) : M S (option Z) :=
  n <- wcscspn s accept ;; c <- chr s n ;; ret (if negb (c =? 0) then Some n else None).

Definition wcsstr {S} (h n : list Z) : M S (option Z) :=
  nl <- wcslen n ;;
  if nl =? 0 then ret (Some 0)
  else loop (λ p,
    c <- chr h p ;;
    if c =? 0 then ret (Break None)
    else
      c0 <- chr n 0 ;;
      if c =? c0 then
        r <- wcsncmp (dropZ p h) n nl ;;
        if r =? 0 then ret (Break (Some p)) else ret (Continue (p + 1))
      else ret (Continue (p + 1))) 0.

(** In the array [buf], from [s] or, where it is NULL, from the saved offset: the
    token's offset, the array and the saved offset after. *)
Definition wcstok {S} (buf : list Z) (s : option Z) (delim : list Z) (save : Z) : M S (option Z * list Z * Z) :=
  let s := default save s in
  t <- get_str s buf ;;
  n <- wcsspn t delim ;;
  let s := s + n in
  t <- get_str s buf ;;
  c <- chr t 0 ;;
  if c =? 0 then ret (None, buf, s)
  else
    n <- wcscspn t delim ;;
    let e := s + n in
    c <- chr t n ;;
    if negb (c =? 0) then buf <- aput buf e 0 ;; ret (Some s, buf, e + 1) else ret (Some s, buf, e).

Definition wmemchr {S} (s : list Z) (c n : Z) : M S (option Z) :=
  loop (λ i,
    if negb (n - i =? 0) then
      x <- aget s i ;; if x =? c then ret (Break (Some i)) else ret (Continue (i + 1))
    else ret (Break None)) 0.

Definition wmemcmp {S} (a b : list Z) (n : Z) : M S Z :=
  loop (λ i,
    if negb (n - i =? 0) then
      x <- aget a i ;; y <- aget b i ;;
      if negb (x =? y) then ret (Break (if x <? y then -1 else 1)) else ret (Continue (i + 1))
    else ret (Break 0)) 0.

Definition wmemset {S} (d : list Z) (c n : Z) : M S (list Z) :=
  loop (λ '(i, d), if i <? n then d <- aput d i c ;; ret (Continue (i + 1, d)) else ret (Break d)) (0, d).

Definition wmemcpy (d s n : Z) : M mem Z := memcpy d s (u64 (n * 4)).
Definition wmemmove (d s n : Z) : M mem Z := memmove d s (u64 (n * 4)).

(** ** Numbers *)

(** [NARROW(s, buf)]: the text of [buf[cap]] *)
Definition narrow {S} (cap : Z) (s : list Z) : M S bytes :=
  buf <- loop (λ buf,
    let i := zlen buf in
    if i <? cap - 1 then
      c <- chr s i ;;
      if (0 <? c) && (c <? 128) then buf <- push cap buf (u8 c) ;; ret (Continue buf) else ret (Break buf)
    else ret (Break buf)) [] ;;
  _ <- push cap buf 0 ;; ret buf.

Definition wcstol {S} (s : list Z) (base : Z) : M S (Z * Z) := b <- narrow 128 s ;; strtol b base.
Definition wcstoul {S} (s : list Z) (base : Z) : M S (Z * Z) := b <- narrow 128 s ;; strtoul b base.
Definition wcstoll {S} (s : list Z) (base : Z) : M S (Z * Z) := b <- narrow 128 s ;; strtoll b base.
Definition wcstoull {S} (s : list Z) (base : Z) : M S (Z * Z) := b <- narrow 128 s ;; strtoull b base.

Section floats.
(** a number's bits and the end offset *)
Context {S : Type} (strtod strtof strtold : bytes → Z * Z).
Definition wcstod (s : list Z) : M S (Z * Z) := b <- narrow 512 s ;; ret (strtod b).
Definition wcstof (s : list Z) : M S (Z * Z) := b <- narrow 512 s ;; ret (strtof b).
Definition wcstold (s : list Z) : M S (Z * Z) := b <- narrow 512 s ;; ret (strtold b).
End floats.

(** ** Multibyte characters: one byte each *)

Definition btowc (c : Z) : Z := if c =? -1 then WEOF else u8 c.
Definition wctob (c : Z) : Z := if (0 <=? c) && (c <=? 255) then c else -1.
Definition mbsinit : Z := 1.

(** The result, and [*pwc]. *)
Definition mbrtowc {S} (s : option bytes) (n : Z) : M S (Z * option Z) :=
  match s with
  | None => ret (0, None)
  | Some s =>
      if n =? 0 then ret (18446744073709551614, None)
      else c <- chr s 0 ;; ret (if c =? 0 then 0 else 1, Some c)
  end.
Definition mbrlen {S} (s : option bytes) (n : Z) : M S Z := let* (r, _) := mbrtowc s n in ret r.

(** From [src] into [d], an array or NULL: the count, the array after, and [*src],
    an offset or NULL. *)
Definition mbsnrtowcs {S} (d : option (list Z)) (src : bytes) (nms n : Z) : M S (Z * option (list Z) * option Z) :=
  loop (λ '(i, d),
    if (i <? nms) && (bool_decide (d = None) || (i <? n)) then
      c <- chr src i ;;
      d' <- match d with Some d => d <- aput d i c ;; ret (Some d) | None => ret None end ;;
      if c =? 0 then ret (Break (i, d', if d' is Some _ then None else Some 0)) else ret (Continue (i + 1, d'))
    else ret (Break (i, d, if d is Some _ then Some i else Some 0))) (0, d).
Definition mbsrtowcs {S} (d : option (list Z)) (src : bytes) (n : Z) : M S (Z * option (list Z) * option Z) :=
  mbsnrtowcs d src SIZE_MAX n.

Definition mblen {S} (s : option bytes) (n : Z) : M S Z :=
  match s with
  | Some s => if n =? 0 then ret 0 else c <- chr s 0 ;; ret (if c =? 0 then 0 else 1)
  | None => ret 0
  end.

(** The result, and [*pwc]. *)
Definition mbtowc {S} (s : option bytes) (n : Z) : M S (Z * option Z) :=
  match s with
  | None => ret (0, None)
  | Some s => if n =? 0 then ret (-1, None) else c <- chr s 0 ;; ret (if c =? 0 then 0 else 1, Some c)
  end.

Definition mbstowcs {S} (d : option (list Z)) (s : bytes) (n : Z) : M S (Z * option (list Z)) :=
  let* (r, d, _) := mbsrtowcs d s n in ret (r, d).

Definition no_byte (c : Z) : bool := (c <? 0) || (255 <? c).

Section errno.
Context {K : Type} `{!Kernel K}.
Abbreviation P := (posix K).

(** The result and the byte stored ([s] not NULL). *)
Definition wcrtomb (s : bool) (wc : Z) : M P (Z * option Z) :=
  if negb s then ret (1, None)
  else if no_byte wc then set_errno EILSEQ ;; ret (SIZE_MAX, None)
  else ret (1, Some (u8 wc)).

Definition wcsnrtombs (d : option bytes) (src : list Z) (nwc n : Z) : M P (Z * option bytes * option Z) :=
  loop (λ '(i, d),
    if (i <? nwc) && (bool_decide (d = None) || (i <? n)) then
      c <- chr src i ;;
      if no_byte c then set_errno EILSEQ ;; ret (Break (SIZE_MAX, d, if d is Some _ then Some i else Some 0))
      else
        d' <- match d with Some d => d <- aput d i (u8 c) ;; ret (Some d) | None => ret None end ;;
        if c =? 0 then ret (Break (i, d', if d' is Some _ then None else Some 0)) else ret (Continue (i + 1, d'))
    else ret (Break (i, d, if d is Some _ then Some i else Some 0))) (0, d).
Definition wcsrtombs (d : option bytes) (src : list Z) (n : Z) : M P (Z * option bytes * option Z) :=
  wcsnrtombs d src SIZE_MAX n.

Definition wctomb (s : bool) (wc : Z) : M P (Z * option Z) :=
  if negb s then ret (0, None)
  else if no_byte wc then set_errno EILSEQ ;; ret (-1, None)
  else ret (1, Some (u8 wc)).
Definition wcstombs (d : option bytes) (s : list Z) (n : Z) : M P (Z * option bytes) :=
  let* (r, d, _) := wcsrtombs d s n in ret (r, d).
End errno.

(** ** Classes *)

Definition ASCII (c : Z) : bool := (0 <=? c) && (c <? 128).
Definition iswalnum (c : Z) : bool := ASCII c && isalnum c.
Definition iswalpha (c : Z) : bool := ASCII c && isalpha c.
Definition iswblank (c : Z) : bool := ASCII c && isblank c.
Definition iswcntrl (c : Z) : bool := ASCII c && iscntrl c.
Definition iswdigit (c : Z) : bool := ASCII c && isdigit c.
Definition iswgraph (c : Z) : bool := ASCII c && isgraph c.
Definition iswlower (c : Z) : bool := ASCII c && islower c.
Definition iswprint (c : Z) : bool := ASCII c && isprint c.
Definition iswpunct (c : Z) : bool := ASCII c && ispunct c.
Definition iswspace (c : Z) : bool := ASCII c && isspace c.
Definition iswupper (c : Z) : bool := ASCII c && isupper c.
Definition iswxdigit (c : Z) : bool := ASCII c && isxdigit c.
Definition towlower (c : Z) : Z := if ASCII c then tolower c else c.
Definition towupper (c : Z) : Z := if ASCII c then toupper c else c.

Definition class_names : list bytes :=
  [str "alnum"; str "alpha"; str "blank"; str "cntrl"; str "digit"; str "graph";
   str "lower"; str "print"; str "punct"; str "space"; str "upper"; str "xdigit"].
Definition class_fns : list (Z → bool) :=
  [iswalnum; iswalpha; iswblank; iswcntrl; iswdigit; iswgraph;
   iswlower; iswprint; iswpunct; iswspace; iswupper; iswxdigit].

Definition wctype (name : bytes) : Z :=
  match list_find (λ n, name = n) class_names with Some (i, _) => Z.of_nat i + 1 | None => 0 end.
Definition iswctype (c t : Z) : bool :=
  if (1 <=? t) && (t <=? zlen class_fns)
  then match idx class_fns (t - 1) with Some f => f c | None => false end else false.

(** The two static objects a [wctrans_t] points to, or NULL. *)
Inductive trans := trans_lower | trans_upper.
#[export] Instance trans_eq_dec : EqDecision trans.
Proof. solve_decision. Defined.
Definition wctrans (name : bytes) : option trans :=
  if decide (name = str "tolower") then Some trans_lower
  else if decide (name = str "toupper") then Some trans_upper else None.
Definition towctrans (c : Z) (t : option trans) : Z :=
  if decide (t = Some trans_lower) then towlower c
  else if decide (t = Some trans_upper) then towupper c else c.

Definition iswalnum_l (c : Z) : bool := iswalnum c.
Definition iswalpha_l (c : Z) : bool := iswalpha c.
Definition iswblank_l (c : Z) : bool := iswblank c.
Definition iswcntrl_l (c : Z) : bool := iswcntrl c.
Definition iswdigit_l (c : Z) : bool := iswdigit c.
Definition iswgraph_l (c : Z) : bool := iswgraph c.
Definition iswlower_l (c : Z) : bool := iswlower c.
Definition iswprint_l (c : Z) : bool := iswprint c.
Definition iswpunct_l (c : Z) : bool := iswpunct c.
Definition iswspace_l (c : Z) : bool := iswspace c.
Definition iswupper_l (c : Z) : bool := iswupper c.
Definition iswxdigit_l (c : Z) : bool := iswxdigit c.
Definition iswctype_l (c t : Z) : bool := iswctype c t.
Definition towlower_l (c : Z) : Z := towlower c.
Definition towupper_l (c : Z) : Z := towupper c.

(** ** Formatting: the result and the array after; the stores of %n *)
Section swprintf.
Context {K : Type} `{!Kernel K} (fmt_fp : va_slot → Z → Z → Z → Z → bytes).
Abbreviation P := (posix K).

(** [nfmt]; [None] with errno when the format has no narrow form or is too long *)
Definition narrow_fmt (fmt : list Z) : M P (option bytes) :=
  r <- loop (λ nfmt,
    let i := zlen nfmt in
    c <- chr fmt i ;;
    if negb (c =? 0) && (i <? 255) then
      if no_byte c then ret (Break None) else nfmt <- push 256 nfmt (u8 c) ;; ret (Continue nfmt)
    else ret (Break (Some nfmt))) [] ;;
  match r with
  | None => set_errno EILSEQ ;; ret None
  | Some nfmt =>
      c <- chr fmt (zlen nfmt) ;;
      if negb (c =? 0) then set_errno EOVERFLOW ;; ret None else ret (Some nfmt)
  end.

(** The characters of [s] into [d], the terminator with them. *)
Definition widen_into (d : list Z) (out : bytes) (len : Z) : M P (list Z) :=
  loop (λ '(k, d),
    if k <=? len then c <- of_option (idx out k) ;; d <- aput d k c ;; ret (Continue (k + 1, d))
    else ret (Break d)) (0, d).

Definition vswprintf (d : list Z) (n : Z) (fmt : list Z) (ap : list va_slot) : M P (Z * list Z * list (Z * Z * Z)) :=
  nfmt <- narrow_fmt fmt ;;
  match nfmt with
  | None => ret (-1, d, [])
  | Some nfmt =>
      let* (len, out, stores) := vsnprintf fmt_fp 1024 nfmt ap in
      if (len <? 0) || (1024 <=? len) || (n <=? len) then set_errno EOVERFLOW ;; ret (-1, d, stores)
      else d <- widen_into d out len ;; ret (len, d, stores)
  end.
Definition swprintf (d : list Z) (n : Z) (fmt : list Z) (ap : list va_slot) : M P (Z * list Z * list (Z * Z * Z)) :=
  vswprintf d n fmt ap.
End swprintf.

(** ** Wide stdio *)
Section wide_stdio.
Context {K : Type} `{!Kernel K} (junk : bytes).
Abbreviation F := (stream K).

Definition fgetwc : M F Z := c <- fgetc junk ;; ret (if c =? EOF then WEOF else u8 c).
Definition getwc : M F Z := fgetwc.
Definition getwchar : M (stdio K) Z := on stdin fgetwc.
Definition ungetwc (c : Z) : M F Z :=
  if (c =? WEOF) || no_byte c then ret WEOF
  else r <- ungetc c ;; ret (if r =? EOF then WEOF else c).
Definition fputwc (c : Z) : M F Z :=
  if no_byte c then os (set_errno EILSEQ) ;; ret WEOF
  else r <- fputc junk c ;; ret (if r =? EOF then WEOF else c).
Definition putwc (c : Z) : M F Z := fputwc c.
Definition putwchar (c : Z) : M (stdio K) Z := on stdout (fputwc c).
Definition fputws (s : list Z) : M F Z :=
  loop (λ i,
    c <- chr s i ;;
    if negb (c =? 0) then
      r <- fputwc c ;; if r =? WEOF then ret (Break (-1)) else ret (Continue (i + 1))
    else ret (Break 0)) 0.
Definition fgetws (n : Z) : M F (option (list Z)) :=
  n1 <- int_ok (n - 1) ;;
  s <- loop (λ s,
    if zlen s <? n1 then
      c <- fgetwc ;;
      if c =? WEOF then ret (Break s)
      else if c =? 10 then ret (Break (s ++ [c])) else ret (Continue (s ++ [c]))
    else ret (Break s)) [] ;;
  ret (if zlen s =? 0 then None else Some s).
Definition fwide (mode : Z) : M F Z := ret mode.
End wide_stdio.

(** * Lemmas *)

(** A conversion into an array that holds the text and its terminator. *)
Lemma mbsnrtowcs_run {S} (s : bytes) (d : list Z) nms n (st : S) : c_chars s → zlen s < n → zlen s < nms → zlen s < zlen d →
  zlen s < 18446744073709551616 →
  mbsnrtowcs (Some d) s nms n st = Ret (zlen s, Some (s ++ 0 :: dropZ (zlen s + 1) d), None) st.
Proof.
  intros Hs Hn Hm Hd Hl. pose proof (zlen_nonneg s).
  apply (loop_steps _ (λ k, (k, Some (takeZ k s ++ dropZ k d))) (λ _, st) (zlen s)); [lia| |done| |].
  - by rewrite takeZ_0, dropZ_0.
  - intros k Hk. replace ((k <? nms) && (bool_decide (Some (takeZ k s ++ dropZ k d) = None) || (k <? n))) with true
      by (rewrite bool_decide_false by done; lia). cbn iota.
    destruct (idx_is_Some s k Hk) as [c Hc]. rewrite (bind_run _ _ _ _ _ (chr_run s k st ltac:(lia))).
    unfold chrv. rewrite Hc. cbn [default from_option id]. pose proof (idx_c_char _ _ _ Hs Hc).
    unfold aput. rewrite (upd_front s d k c ltac:(lia) Hc). unfold of_option. rewrite bind_assoc, bind_ret, bind_ret.
    by replace (c =? 0) with false by lia.
  - rewrite takeZ_all by lia.
    replace ((zlen s <? nms) && (bool_decide (Some (s ++ dropZ (zlen s) d) = None) || (zlen s <? n))) with true
      by (rewrite bool_decide_false by done; lia). cbn iota.
    rewrite (bind_run _ _ _ _ _ (chr_run s (zlen s) st ltac:(lia))). unfold chrv. rewrite idx_None by lia.
    cbn [default from_option id]. unfold aput. by rewrite upd_end.
Qed.

(** Counting only. *)
Lemma mbsnrtowcs_count {S} (s : bytes) nms n (st : S) : c_chars s → zlen s < nms → zlen s < 18446744073709551616 →
  mbsnrtowcs None s nms n st = Ret (zlen s, None, Some 0) st.
Proof.
  intros Hs Hm Hl. pose proof (zlen_nonneg s).
  apply (loop_steps _ (λ k, (k, None)) (λ _, st) (zlen s)); [lia|done|done| |].
  - intros k Hk. replace ((k <? nms) && _) with true by (rewrite bool_decide_true by done; lia). cbn iota.
    destruct (idx_is_Some s k Hk) as [c Hc]. rewrite (bind_run _ _ _ _ _ (chr_run s k st ltac:(lia))).
    unfold chrv. rewrite Hc. cbn [default from_option id]. pose proof (idx_c_char _ _ _ Hs Hc).
    rewrite bind_ret. by replace (c =? 0) with false by lia.
  - replace ((zlen s <? nms) && _) with true by (rewrite bool_decide_true by done; lia). cbn iota.
    rewrite (bind_run _ _ _ _ _ (chr_run s (zlen s) st ltac:(lia))). unfold chrv. by rewrite idx_None by lia.
Qed.

(** Where every wide character has a byte, the two directions do the same. *)
Lemma wcsnrtombs_bytes {K} (s : list Z) d nwc n (st : posix K) : c_chars s →
  wcsnrtombs d s nwc n st = mbsnrtowcs d s nwc n st.
Proof.
  intros Hs. apply loop_ext. intros [i d'] st'. destruct (_ && _); [|done].
  apply bind_congr. intros c st2 E.
  assert (0 ≤ c < 256) as Hc.
  { unfold chr in E. case_decide; [by injection E as <- _|]. destruct (idx s i) as [x|] eqn:Ei; [|done].
    injection E as <- _. pose proof (idx_c_char _ _ _ Hs Ei). lia. }
  replace (no_byte c) with false by (unfold no_byte; lia). by rewrite u8_id.
Qed.

(** A character without a byte, behind [s]: the conversion stops there. *)
Lemma wcsnrtombs_illegal {K} (s rest : list Z) c (d : bytes) nwc n (st : posix K) : c_chars s → no_byte c = true →
  zlen s < n → zlen s < nwc → zlen s ≤ zlen d → zlen (s ++ c :: rest) < 18446744073709551616 →
  wcsnrtombs (Some d) (s ++ c :: rest) nwc n st
  = Ret (SIZE_MAX, Some (s ++ dropZ (zlen s) d), Some (zlen s)) (set_errno_ EILSEQ st).
Proof.
  intros Hs Hc Hn Hw Hd Hl. pose proof (zlen_nonneg s). pose proof (zlen_nonneg rest). rewrite zlen_app, zlen_cons in Hl.
  apply (loop_steps _ (λ k, (k, Some (takeZ k s ++ dropZ k d))) (λ _, st) (zlen s)); [lia| |done| |].
  - by rewrite takeZ_0, dropZ_0.
  - intros k Hk. replace ((k <? nwc) && (bool_decide (Some (takeZ k s ++ dropZ k d) = None) || (k <? n))) with true
      by (rewrite bool_decide_false by done; lia). cbn iota.
    destruct (idx_is_Some s k Hk) as [x Hx].
    rewrite (bind_run _ _ _ _ _ (chr_run (s ++ c :: rest) k st ltac:(zlen_lia))).
    unfold chrv. rewrite idx_app_l, Hx by lia. cbn [default from_option id]. pose proof (idx_c_char _ _ _ Hs Hx).
    replace (no_byte x) with false by (unfold no_byte; lia). rewrite u8_id by lia.
    unfold aput. rewrite (upd_front s d k x ltac:(lia) Hx). unfold of_option. rewrite bind_assoc, bind_ret, bind_ret.
    by replace (x =? 0) with false by lia.
  - rewrite takeZ_all by lia.
    replace ((zlen s <? nwc) && (bool_decide (Some (s ++ dropZ (zlen s) d) = None) || (zlen s <? n))) with true
      by (rewrite bool_decide_false by done; lia). cbn iota.
    rewrite (bind_run _ _ _ _ _ (chr_run (s ++ c :: rest) (zlen s) st ltac:(zlen_lia))).
    rewrite chrv_app_r. cbn [hd]. by rewrite Hc.
Qed.

(** C39: mbstowcs and wcstombs round trip: any byte string, converted to wide
    characters in an array with room for it and back again, is itself, terminator
    included, and nothing behind the terminators is touched; mbstowcs with NULL
    counts the same; and a string with a wide character that has no byte is
    refused with EILSEQ, the characters before it converted. *)
Theorem mbstowcs_wcstombs_roundtrip {K} (s : bytes) (d1 : list Z) (d2 : bytes) n c rest (st : posix K)
  (Hs : c_chars s) (Hn : zlen s < n) (H1 : n ≤ zlen d1) (H2 : n ≤ zlen d2)
  (Hc : no_byte c = true) (Hl : zlen d1 + zlen rest < SIZE_MAX) :
  mbstowcs (Some d1) s n st = Ret (zlen s, Some (s ++ 0 :: dropZ (zlen s + 1) d1)) st ∧
  mbstowcs None s 0 st = Ret (zlen s, None) st ∧
  wcstombs (Some d2) (c_str (s ++ 0 :: dropZ (zlen s + 1) d1)) n st = Ret (zlen s, Some (s ++ 0 :: dropZ (zlen s + 1) d2)) st ∧
  wcstombs (Some d2) (s ++ c :: rest) n st = Ret (SIZE_MAX, Some (s ++ dropZ (zlen s) d2)) (set_errno_ EILSEQ st).
Proof.
  pose proof (zlen_nonneg s). pose proof (zlen_nonneg rest). unfold SIZE_MAX in Hl. rewrite c_str_app_nul by done.
  unfold mbstowcs, wcstombs, mbsrtowcs, wcsrtombs. split_and!.
  - by rewrite (bind_run _ _ _ _ _ (mbsnrtowcs_run s d1 SIZE_MAX n st Hs Hn ltac:(unfold SIZE_MAX; lia) ltac:(lia) ltac:(lia))).
  - by rewrite (bind_run _ _ _ _ _ (mbsnrtowcs_count s SIZE_MAX 0 st Hs ltac:(unfold SIZE_MAX; lia) ltac:(lia))).
  - rewrite (bind_run _ _ (zlen s, Some (s ++ 0 :: dropZ (zlen s + 1) d2), None) st st); [done|].
    rewrite wcsnrtombs_bytes by done. apply mbsnrtowcs_run; unfold SIZE_MAX; (done || lia).
  - by rewrite (bind_run _ _ _ _ _ (wcsnrtombs_illegal s rest c d2 SIZE_MAX n st Hs Hc Hn ltac:(unfold SIZE_MAX; lia)
      ltac:(lia) ltac:(zlen_lia))).
Qed.

(** ** Numbers *)

Definition is_narrow (c : Z) : bool := (0 <? c) && (c <? 128).

Lemma narrow_run {S} cap (s : list Z) (st : S) : 1 ≤ cap → zlen s < 18446744073709551616 → cap < 18446744073709551616 →
  narrow cap s st = Ret (takeZ (cap - 1) (take_while is_narrow s)) st.
Proof.
  intros Hcap Hl Hc. destruct (take_while_split is_narrow s) as (rest & E & Hrest).
  set (w := take_while is_narrow s) in *. pose proof (zlen_nonneg w). pose proof (zlen_nonneg rest).
  set (m := Z.min (cap - 1) (zlen w)).
  assert (takeZ (cap - 1) w = takeZ m w) as Em.
  { subst m. destruct (decide (cap - 1 ≤ zlen w)); [by rewrite Z.min_l by lia|]. by rewrite !takeZ_all by lia. }
  assert (zlen (takeZ m w) = m) as Hm by (apply zlen_takeZ; lia).
  pose proof (f_equal zlen E) as El. rewrite zlen_app in El.
  assert (∀ k, idx s k = idx (w ++ rest) k) as Hidx by (intros; by rewrite <- E).
  unfold narrow. rewrite Em. rewrite (bind_run _ _ (takeZ m w) st st).
  { by rewrite (bind_run _ _ _ _ _ (push_run cap (takeZ m w) 0 st ltac:(lia))). }
  apply (loop_steps _ (λ k, takeZ k w) (λ _, st) m); [lia|by rewrite takeZ_0|done| |].
  - intros k Hk. cbn zeta. rewrite zlen_takeZ by lia. replace (k <? cap - 1) with true by lia.
    destruct (idx_is_Some w k) as [c Hi]; [lia|]. rewrite (bind_run _ _ _ _ _ (chr_run s k st ltac:(lia))).
    unfold chrv. rewrite Hidx, idx_app_l, Hi by lia. cbn [default from_option id].
    pose proof (idx_Forall _ _ _ _ (take_while_Forall is_narrow s) Hi) as Hn. unfold is_narrow in Hn. cbn beta in Hn.
    rewrite Hn. rewrite u8_id by lia. rewrite (bind_run _ _ _ _ _ (push_run cap (takeZ k w) c st ltac:(rewrite zlen_takeZ by lia; lia))).
    by rewrite (takeZ_snoc _ _ _ Hi).
  - cbn zeta. rewrite Hm. destruct (Z.ltb_spec m (cap - 1)); [|done].
    rewrite (bind_run _ _ _ _ _ (chr_run s m st ltac:(lia))). replace m with (zlen w) by lia.
    unfold chrv. rewrite Hidx. destruct rest as [|c rest].
    + rewrite app_nil_r, idx_None by lia. done.
    + rewrite idx_middle. cbn [default from_option id].
      pose proof (Hrest c rest eq_refl) as Hn. unfold is_narrow in Hn. by rewrite Hn.
Qed.

(** The wide number parsers are the narrow ones on the text's ASCII beginning:
    on every wide string and base, wcstoull, wcstoul, wcstoll and wcstol return
    what strtoull, strtoul, strtoll and strtol return on its characters up to the
    first that is not ASCII, at most 127 of them, end offset included; on an ASCII
    string of at most 127 characters that is the string itself. *)
Theorem wcsto_narrow {S} (s : list Z) base (st : S) (Hl : zlen s < SIZE_MAX) :
  let t := takeZ 127 (take_while is_narrow s) in
  wcstoull s base st = strtoull t base st ∧ wcstoul s base st = strtoul t base st ∧
  wcstoll s base st = strtoll t base st ∧ wcstol s base st = strtol t base st ∧
  (Forall (λ c, 0 < c < 128) s → zlen s ≤ 127 → t = s).
Proof.
  intros t. unfold SIZE_MAX in Hl. pose proof (narrow_run 128 s st ltac:(lia) ltac:(lia) ltac:(lia)) as E. fold t in E.
  unfold wcstoull, wcstoul, wcstoll, wcstol. rewrite !(bind_run _ _ _ _ _ E). split_and!; try done.
  intros Hs H127. subst t.
  assert (take_while is_narrow s = s) as ->; [|by apply takeZ_all].
  destruct (take_while_split is_narrow s) as (rest & Es & Hrest). destruct rest as [|c rest].
  - by rewrite app_nil_r in Es.
  - specialize (Hrest c rest eq_refl). rewrite Es in Hs. apply Forall_app in Hs as [_ [Hc _]%Forall_cons].
    unfold is_narrow in Hrest. lia.
Qed.

(** ** swprintf *)

Lemma narrow_fmt_run {K} (fmt : bytes) (st : posix K) : c_chars fmt → zlen fmt ≤ 255 →
  narrow_fmt fmt st = Ret (Some fmt) st.
Proof.
  intros Hs Hl. pose proof (zlen_nonneg fmt). unfold narrow_fmt. rewrite (bind_run _ _ (Some fmt) st st).
  - rewrite (bind_run _ _ _ _ _ (chr_run fmt (zlen fmt) st ltac:(lia))). unfold chrv. by rewrite idx_None by lia.
  - apply (loop_steps _ (λ k, takeZ k fmt) (λ _, st) (zlen fmt)); [lia|by rewrite takeZ_0|done| |].
    + intros k Hk. cbn zeta. rewrite zlen_takeZ by lia. destruct (idx_is_Some fmt k Hk) as [c Hc].
      rewrite (bind_run _ _ _ _ _ (chr_run fmt k st ltac:(lia))). unfold chrv. rewrite Hc. cbn [default from_option id].
      pose proof (idx_c_char _ _ _ Hs Hc). replace (negb (c =? 0) && (k <? 255)) with true by lia. cbn iota.
      replace (no_byte c) with false by (unfold no_byte; lia). rewrite u8_id by lia.
      rewrite (bind_run _ _ _ _ _ (push_run 256 (takeZ k fmt) c st ltac:(rewrite zlen_takeZ by lia; lia))).
      by rewrite (takeZ_snoc _ _ _ Hc).
    + cbn zeta. rewrite takeZ_all by lia. rewrite (bind_run _ _ _ _ _ (chr_run fmt (zlen fmt) st ltac:(lia))).
      unfold chrv. by rewrite idx_None by lia.
Qed.

Lemma widen_into_run {K} (d : list Z) (out : bytes) len (st : posix K) : 0 ≤ len → zlen out = len + 1 → len < zlen d →
  len < 9223372036854775808 →
  widen_into d out len st = Ret (out ++ dropZ (len + 1) d) st.
Proof.
  intros H0 Hout Hd Hl.
  apply (loop_steps _ (λ k, (k, takeZ k out ++ dropZ k d)) (λ _, st) (len + 1)); [lia| |done| |].
  - by rewrite takeZ_0, dropZ_0.
  - intros k Hk. replace (k <=? len) with true by lia. cbn iota. destruct (idx_is_Some out k) as [c Hc]; [lia|].
    rewrite Hc. unfold of_option at 1. rewrite bind_ret. unfold aput. by rewrite (upd_front out d k c ltac:(lia) Hc).
  - replace (len + 1 <=? len) with false by lia. cbn iota. by rewrite takeZ_all by lia.
Qed.

(** Swprintf stores the text printf would print, widened, with its
    terminator, touches nothing behind it, and returns its length, exactly when
    the text with its terminator fits the array and the 1024 bytes it is
    formatted in; otherwise the result is -1 with EOVERFLOW and the array is not
    touched. *)
Theorem swprintf_correct {K} fmt_fp d n (fmt : bytes) ap r text stores (st : posix K)
  (Hfmt : c_chars fmt) (Hlf : zlen fmt ≤ 255) (Hn : 0 ≤ n ≤ zlen d) (Hl : zlen text ≤ INT_MAX)
  (Htext : format_full fmt_fp fmt ap = Ret r (Full text stores)) :
  swprintf fmt_fp d n fmt ap st =
    if (zlen text <? 1024) && (zlen text <? n)
    then Ret (zlen text, text ++ 0 :: dropZ (zlen text + 1) d, stores) st
    else Ret (-1, d, stores) (set_errno_ EOVERFLOW st).
Proof.
  pose proof (zlen_nonneg text). unfold INT_MAX in Hl.
  assert (r = zlen text) as ->.
  { rewrite (format_full_result _ _ _ _ _ Htext). apply s32_id. cbn [f_text]. unfold INT_MIN, INT_MAX. lia. }
  unfold swprintf, vswprintf. rewrite (bind_run _ _ _ _ _ (narrow_fmt_run fmt st Hfmt Hlf)). cbn beta iota.
  rewrite (bind_run _ _ _ _ _ (vsnprintf_run fmt_fp 1024 fmt ap _ text stores st ltac:(lia)
    ltac:(unfold SIZE_MAX; lia) Htext)). cbn beta iota.
  destruct (Z.ltb_spec (zlen text) 1024); [destruct (Z.ltb_spec (zlen text) n)|].
  - replace ((zlen text <? 0) || (1024 <=? zlen text) || (n <=? zlen text)) with false by lia. cbn [andb].
    change (1024 =? 0) with false. cbn iota. rewrite takeZ_all by lia.
    rewrite (bind_run _ _ _ _ _ (widen_into_run d (text ++ [0]) (zlen text) st ltac:(lia) ltac:(zlen_lia) ltac:(lia) ltac:(lia))).
    by rewrite <- app_assoc.
  - by replace ((zlen text <? 0) || (1024 <=? zlen text) || (n <=? zlen text)) with true by lia.
  - by replace ((zlen text <? 0) || (1024 <=? zlen text) || (n <=? zlen text)) with true by lia.
Qed.

(** ** Witnesses *)

Lemma mbstowcs_wcstombs_roundtrip_witness :
  mbstowcs (Some (replicate 6 7)) (str "abc") 5 (posix_start tt) = Ret (3, Some (str "abc" ++ [0; 7; 7])) (posix_start tt) ∧
  mbstowcs None (str "abc") 0 (posix_start tt) = Ret (3, None) (posix_start tt) ∧
  wcstombs (Some (replicate 5 9)) (str "abc") 5 (posix_start tt) = Ret (3, Some (str "abc" ++ [0; 9])) (posix_start tt) ∧
  wcstombs (Some (replicate 5 9)) (str "abc" ++ 8364 :: str "d") 5 (posix_start tt)
    = Ret (SIZE_MAX, Some (str "abc" ++ [9; 9])) (set_errno_ EILSEQ (posix_start tt)).
Proof.
  apply (mbstowcs_wcstombs_roundtrip (str "abc") (replicate 6 7) (replicate 5 9) 5 8364 (str "d") (posix_start tt));
    [by apply c_chars_b_sound|done|done|done|done|done].
Defined.

Lemma wcsto_narrow_witness :
  (let t := takeZ 127 (take_while is_narrow [45; 49; 50; 8364]) in
   wcstoull [45; 49; 50; 8364] 10 tt = strtoull t 10 tt ∧ wcstoul [45; 49; 50; 8364] 10 tt = strtoul t 10 tt ∧
   wcstoll [45; 49; 50; 8364] 10 tt = strtoll t 10 tt ∧ wcstol [45; 49; 50; 8364] 10 tt = strtol t 10 tt ∧
   (Forall (λ c, 0 < c < 128) [45; 49; 50; 8364] → zlen [45; 49; 50; 8364] ≤ 127 → t = [45; 49; 50; 8364])) ∧
  wcstol [45; 49; 50; 8364] 10 tt = Ret (-12, 3) tt.
Proof.
  split; [apply (wcsto_narrow [45; 49; 50; 8364] 10 tt); reflexivity|vm_compute; reflexivity].
Defined.

Lemma swprintf_correct_witness :
  swprintf (λ _ _ _ _ _, []) (replicate 8 7) 8 (str "%s=%d") [VStr (Some (str "n")); VInt (-5)] (posix_start tt)
  = Ret (4, str "n=-5" ++ [0; 7; 7; 7], []) (posix_start tt).
Proof.
  apply (swprintf_correct (λ _ _ _ _ _, []) (replicate 8 7) 8 (str "%s=%d") [VStr (Some (str "n")); VInt (-5)] 4
    (str "n=-5") [] (posix_start tt)); [by apply c_chars_b_sound|done|done|done|vm_compute; reflexivity].
Defined.
