(* ===== verification/RcEnv.v ===== *)
(** The environment: src/lib/racccoon-libc/src/rc_env.c.

    [environ] is the list of its strings (the terminating NULL is implied), each
    with where its memory is from, since unsetenv and setenv free what they
    replace: [Blob] for the strings crt0 found in the exec blob, [Heap] for
    malloc'd ones, [Caller] for those putenv was given.  Freeing one that is not
    [Heap] is a [Fault], and so is a store behind the array's [env_cap] slots. *)
From S2P Require Import Prelude CMonad CBuffer Kernel RcFs RcFd.

Inductive origin := Blob | Heap | Caller.

Record env := Env {
  environ : option (list (origin * bytes));   (* NULL, or the entries *)
  env_owned : bool;
  env_cap : Z;
}.

Record penv (K : Type) := Penv { pe_os : posix K; pe_env : env }.
Arguments Penv {K}.
Arguments pe_os {K}.
Arguments pe_env {K}.

(** What crt0 leaves: strings in the exec blob. *)
Definition env_start (strings : list bytes) : env := Env (Some (map (pair Blob) strings)) false 0.

Definition entries (e : env) : list (origin * bytes) := default [] (environ e).
Definition env_count (e : env) : Z := zlen (entries e).

Definition name_matches (entry name : bytes) : bool :=
  bool_decide (takeZ (zlen name) entry = name) && bool_decide (idx entry (zlen name) = Some 61).

(** The index of the first entry for [name], -1 if there is none. *)
Definition env_find (e : env) (name : bytes) : Z :=
  match list_find (λ x, name_matches x.2 name = true) (entries e) with
  | Some (i, _) => Z.of_nat i
  | None => -1
  end.

(** [strchr(name, '=')] as an index *)
Definition find_eq (name : bytes) : option Z :=
  match list_find (λ c, c = 61) name with Some (i, _) => Some (Z.of_nat i) | None => None end.
Definition bad_name (name : option bytes) : bool :=
  match name with None => true | Some n => bool_decide (n = []) || bool_decide (is_Some (find_eq n)) end.

Section env.
Context {K : Type} `{!Kernel K} (junk : bytes).
Abbreviation E := (penv K).

Definition set_os (p : posix K) (s : E) : E := Penv p (pe_env s).
Program Definition os_lens : lens E (posix K) := Lens _ _ pe_os set_os _ _ _.
Next Obligation. done. Qed.
Next Obligation. by intros []. Qed.
Next Obligation. done. Qed.
Definition os {A} (c : M (posix K) A) : M E A := zoom os_lens c.
Definition fail (e : Z) : M E Z := os (set_errno e) ;; ret (-1).
Definition the_env : M E env := gets pe_env.
Definition set_env (e : env) : M E unit := modify (λ s, Penv (pe_os s) e).
Definition malloc (n : Z) : M E bool := os (sys (heap_alloc n)).

(** free of one entry's string *)
Definition free_entry (x : origin * bytes) : M E unit :=
  match x.1 with Heap => ret tt | _ => fault end.

(** strdup of the strings, in order; [false] when one fails. *)
Fixpoint dup_all (l : list (origin * bytes)) : M E bool :=
  match l with
  | [] => ret true
  | x :: l => ok <- malloc (zlen x.2 + 1) ;; if ok : bool then dup_all l else ret false
  end.

Definition env_take_ownership : M E Z :=
  e <- the_env ;;
  if env_owned e then ret 0
  else
    let cap := env_count e + 8 in
    ok <- malloc (cap * 8) ;;
    if negb ok then fail ENOMEM
    else
      ok <- dup_all (entries e) ;;
      if negb ok then fail ENOMEM
      else set_env (Env (Some (map (λ x, (Heap, x.2)) (entries e))) true cap) ;; ret 0.

Definition env_grow_for_one (n : Z) : M E Z :=
  e <- the_env ;;
  if n + 2 <=? env_cap e then ret 0
  else
    let cap := if negb (env_cap e =? 0) then env_cap e * 2 else 16 in
    ok <- malloc (cap * 8) ;;
    if negb ok then fail ENOMEM else set_env (Env (environ e) (env_owned e) cap) ;; ret 0.

(** [environ[i] = x] for an entry there is, and [environ[n] = x; environ[n + 1] = 0] *)
Definition env_replace (i : Z) (x : origin * bytes) : M E unit :=
  e <- the_env ;;
  l <- of_option (upd (entries e) i x) ;;
  set_env (Env (Some l) (env_owned e) (env_cap e)).
Definition env_append (n : Z) (x : origin * bytes) : M E unit :=
  e <- the_env ;;
  if decide (n = env_count e ∧ n + 2 ≤ env_cap e)
  then set_env (Env (Some (entries e ++ [x])) (env_owned e) (env_cap e)) else fault.

(** [store_val]'s contents, or NULL *)
Definition env_from_store (name : bytes) : M E (option bytes) :=
  if bool_decide (name = []) || existsb (λ c, (c =? 61) || (c =? 47)) name then ret None
  else
    let path := takeZ 159 (str "/env/" ++ name) in
    let* (n, data) := os (sys (__rc_fs_read junk path 127)) in
    if n <? 0 then ret None else ret (Some (c_str data)).

Definition getenv (name : option bytes) : M E (option bytes) :=
  match name with
  | None | Some [] => ret None
  | Some name =>
      e <- the_env ;;
      let i := env_find e name in
      if 0 <=? i then
        x <- of_option (idx (entries e) i) ;; ret (Some (dropZ (zlen name + 1) x.2))
      else env_from_store name
  end.

Definition setenv (name : option bytes) (value : option bytes) (overwrite : bool) : M E Z :=
  if bad_name name then fail EINVAL
  else
    let name := default [] name in
    let value := default [] value in
    r <- env_take_ownership ;;
    if negb (r =? 0) then ret (-1)
    else
      e <- the_env ;;
      let i := env_find e name in
      if (0 <=? i) && negb overwrite then ret 0
      else
        ok <- malloc (zlen name + 1 + zlen value + 1) ;;
        if negb ok then fail ENOMEM
        else
          let entry := (Heap, name ++ 61 :: value) in
          if 0 <=? i then
            x <- of_option (idx (entries e) i) ;;
            free_entry x ;; env_replace i entry ;; ret 0
          else
            let n := env_count e in
            r <- env_grow_for_one n ;;
            if negb (r =? 0) then ret (-1) else env_append n entry ;; ret 0.

Definition unsetenv (name : option bytes) : M E Z :=
  if bad_name name then fail EINVAL
  else
    let name := default [] name in
    r <- env_take_ownership ;;
    if negb (r =? 0) then ret (-1)
    else
      e <- the_env ;;
      let i := env_find e name in
      if i <? 0 then ret 0
      else
        x <- of_option (idx (entries e) i) ;;
        free_entry x ;;
        set_env (Env (Some (takeZ i (entries e) ++ dropZ (i + 1) (entries e))) (env_owned e) (env_cap e)) ;;
        ret 0.

Definition putenv (string : option bytes) : M E Z :=
  match string with
  | None => fail EINVAL
  | Some s =>
      match find_eq s with
      | None => unsetenv (Some s)
      | Some nlen =>
          r <- env_take_ownership ;;
          if negb (r =? 0) then ret (-1)
          else
            e <- the_env ;;
            let i := env_find e (takeZ nlen s) in
            if 0 <=? i then env_replace i (Caller, s) ;; ret 0
            else
              let n := env_count e in
              r <- env_grow_for_one n ;;
              if negb (r =? 0) then ret (-1) else env_append n (Caller, s) ;; ret 0
      end
  end.
End env.

(** * What the environment says *)

Lemma entries_Env l o c : entries (Env (Some l) o c) = l.
Proof. done. Qed.

(** The values an environment gives a name, in the order of its entries; the
    first one counts.  The array crt0 finds in the exec blob may name a variable
    twice. *)
Definition value_for (name : bytes) (x : origin * bytes) : option bytes :=
  if name_matches x.2 name then Some (dropZ (zlen name + 1) x.2) else None.
Definition values (l : list (origin * bytes)) (name : bytes) : list bytes := omap (value_for name) l.
Definition lookup_env (l : list (origin * bytes)) (name : bytes) : option bytes := head (values l name).

(** A name without '='. *)
Definition name_ok (name : bytes) : Prop := name ≠ [] ∧ Forall (λ c, c ≠ 61) name.

Lemma bad_name_ok name : name_ok name → bad_name (Some name) = false.
Proof.
  intros [Hne Hall]. unfold bad_name, find_eq. rewrite bool_decide_false by done.
  destruct (list_find _ name) as [[i c]|] eqn:E; [|done].
  apply list_find_Some in E as (Hi & -> & _). by eapply Forall_lookup_1 in Hall.
Qed.

Lemma name_matches_entry name value : name_matches (name ++ 61 :: value) name = true.
Proof.
  unfold name_matches. rewrite takeZ_app_zlen, idx_middle. by rewrite !bool_decide_true.
Qed.

(** No string is an entry for two names. *)
Lemma name_matches_unique x n1 n2 : Forall (λ c, c ≠ 61) n1 → Forall (λ c, c ≠ 61) n2 →
  name_matches x n1 = true → name_matches x n2 = true → n1 = n2.
Proof.
  assert (∀ n1 n2, Forall (λ c, c ≠ 61) n2 → name_matches x n1 = true → name_matches x n2 = true →
    zlen n2 ≤ zlen n1) as Hle.
  { intros m1 m2 H2 [_ E1%bool_decide_eq_true]%andb_prop [T2%bool_decide_eq_true _]%andb_prop.
    destruct (decide (zlen m2 ≤ zlen m1)); [done|exfalso].
    rewrite <- (idx_takeZ (zlen m2)), T2 in E1 by lia. by apply (idx_Forall _ _ _ _ H2) in E1. }
  intros H1 H2 M1 M2. assert (zlen n1 = zlen n2) as E by (pose proof (Hle n1 n2); pose proof (Hle n2 n1); intuition lia).
  apply andb_prop in M1 as [T1%bool_decide_eq_true _]. apply andb_prop in M2 as [T2%bool_decide_eq_true _].
  rewrite E in T1. congruence.
Qed.

Lemma values_app l1 l2 name : values (l1 ++ l2) name = values l1 name ++ values l2 name.
Proof. apply omap_app. Qed.

Lemma values_hit x l name : name_matches x.2 name = true →
  values (x :: l) name = dropZ (zlen name + 1) x.2 :: values l name.
Proof. intros E. unfold values. simpl. unfold value_for at 1. by rewrite E. Qed.

Lemma values_miss x l name : name_matches x.2 name = false → values (x :: l) name = values l name.
Proof. intros E. unfold values. simpl. unfold value_for at 1. by rewrite E. Qed.

Lemma values_entry o name value l : values ((o, name ++ 61 :: value) :: l) name = value :: values l name.
Proof.
  rewrite values_hit by apply name_matches_entry. f_equal. cbn [snd].
  rewrite <- dropZ_dropZ by (pose proof (zlen_nonneg name); lia). by rewrite dropZ_app_zlen.
Qed.

(** An entry is none of another name's. *)
Lemma values_other x l name n : Forall (λ c, c ≠ 61) name → Forall (λ c, c ≠ 61) n →
  name_matches x.2 name = true → n ≠ name → values (x :: l) n = values l n.
Proof.
  intros Hname Hn Hx Hne. apply values_miss. apply not_true_iff_false. intros E.
  apply Hne. by eapply name_matches_unique.
Qed.

Lemma values_strings l l' name : map snd l = map snd l' → values l name = values l' name.
Proof.
  revert l'. induction l as [|x l IH]; intros [|y l'] E; try done. injection E as E1 E2.
  destruct (name_matches y.2 name) eqn:Em.
  - rewrite !values_hit, E1 by congruence. f_equal. by apply IH.
  - rewrite !values_miss by congruence. by apply IH.
Qed.

(** Where the entry for a name is, if there is one. *)
Lemma env_find_cases e name :
  (env_find e name = -1 ∧ values (entries e) name = []) ∨
  (∃ l1 x l2, entries e = l1 ++ x :: l2 ∧ env_find e name = zlen l1 ∧ name_matches x.2 name = true ∧
     values l1 name = []).
Proof.
  assert (∀ l, Forall (λ x, ¬ name_matches x.2 name = true) l → values l name = []) as Hnone.
  { induction 1 as [|x l Hx _ IH]; [done|]. rewrite values_miss by (by apply not_true_iff_false). done. }
  unfold env_find. destruct (list_find _ (entries e)) as [[i x]|] eqn:E; [right|left].
  - apply list_find_Some in E as (Hi & Hm & Hbefore).
    exists (take i (entries e)), x, (drop (S i) (entries e)).
    pose proof (lookup_lt_Some _ _ _ Hi).
    split_and!; [by rewrite take_drop_middle|unfold zlen; by rewrite length_take_le by lia|done|].
    apply Hnone, Forall_lookup. intros j y [Hj Hlt]%lookup_take_Some. by apply (Hbefore j y).
  - split; [done|]. apply list_find_None in E. by apply Hnone.
Qed.

(** No name has two entries. *)
Definition uniq (l : list (origin * bytes)) : Prop :=
  ∀ name, Forall (λ c, c ≠ 61) name → (length (values l name) ≤ 1)%nat.

(** The array, once it is ours: room for the terminator, nothing of the blob's. *)
Record env_ok (e : env) : Prop := {
  ok_room : env_owned e = true → env_count e + 1 ≤ env_cap e;
  ok_heap : env_owned e = true → Forall (λ x, x.1 ≠ Blob) (entries e);
  ok_some : env_owned e = true → is_Some (environ e);
  ok_cap : 0 ≤ env_cap e;
}.

(** What setenv and unsetenv do to the values of their name. *)
Definition set_values (overwrite : bool) (value : bytes) (vs : list bytes) : list bytes :=
  match vs with [] => [value] | _ :: t => if overwrite then value :: t else vs end.

(** * The operations *)

Section ops.
Context {K : Type} `{Kernel K}.
(** The heap may run out; [obs] is what of the kernel's state an allocation
    leaves alone. *)
Context {O : Type} (obs : K → O) (Hheap : ∀ n w, ∃ ok w', heap_alloc n w = Ret ok w' ∧ obs w' = obs w).
Implicit Types (s : penv K).

Definition refuses : Prop := ∃ n (w w' : K), heap_alloc n w = Ret false w'.

(** A call ends with [b], leaving the environment [en]; or for want of memory. *)
Definition ends {B} (m : M (penv K) B) s (b : B) (en : env) : Prop :=
  ∃ w, m s = Ret b (Penv (RcFd.set_world w (pe_os s)) en) ∧ obs w = obs (world (pe_os s)).
Definition nomem (m : M (penv K) Z) s (en : env) : Prop :=
  refuses ∧ ∃ w, m s = Ret (-1) (Penv (set_errno_ ENOMEM (RcFd.set_world w (pe_os s))) en) ∧
    obs w = obs (world (pe_os s)).

Lemma ends_ret {B} (b : B) s en : pe_env s = en → ends (ret b) s b en.
Proof using. intros <-. exists (world (pe_os s)). rewrite set_world_id. by destruct s. Qed.

Lemma ends_bind {B C} (m : M (penv K) B) (k : B → M (penv K) C) s b en c en' :
  ends m s b en → (∀ p, ends (k b) (Penv p en) c en') → ends (bind m k) s c en'.
Proof using.
  intros (w & E & Ew) Hk. destruct (Hk (RcFd.set_world w (pe_os s))) as (w' & E' & Ew').
  exists w'. rewrite (bind_run _ _ _ _ _ E), E'. cbn [pe_os] in *. by rewrite set_world_world, Ew', <- Ew.
Qed.

Lemma nomem_bind {B} (m : M (penv K) B) (k : B → M (penv K) Z) s b en en' :
  ends m s b en → (∀ p, nomem (k b) (Penv p en) en') → nomem (bind m k) s en'.
Proof using.
  intros (w & E & Ew) Hk. destruct (Hk (RcFd.set_world w (pe_os s))) as (Hr & w' & E' & Ew').
  split; [done|]. exists w'. rewrite (bind_run _ _ _ _ _ E), E'. cbn [pe_os] in *.
  by rewrite set_world_world, Ew', <- Ew.
Qed.

Lemma fail_nomem s : refuses → nomem (fail ENOMEM) s (pe_env s).
Proof using. intros Hr. split; [done|]. exists (world (pe_os s)). by rewrite set_world_id. Qed.

Lemma malloc_ends n s : ends (malloc n) s true (pe_env s) ∨ (refuses ∧ ends (malloc n) s false (pe_env s)).
Proof using Hheap.
  destruct (Hheap n (world (pe_os s))) as (ok & w & E & Ew).
  assert (ends (malloc n) s ok (pe_env s)) as He.
  { exists w. unfold malloc, os, zoom. simpl. by rewrite (sys_run _ _ _ _ E). }
  destruct ok; [by left|right]. split; [by exists n, (world (pe_os s)), w|done].
Qed.

(** A call ends with a result and an environment in [Q], or runs out of memory
    with one in [N]. *)
Definition may (m : M (penv K) Z) s (Q : Z → env → Prop) (N : env → Prop) : Prop :=
  (∃ r en, ends m s r en ∧ Q r en) ∨ (∃ en, nomem m s en ∧ N en).

Lemma may_ret (r : Z) s (Q : Z → env → Prop) N : Q r (pe_env s) → may (ret r) s Q N.
Proof using. intros HQ. left. exists r, (pe_env s). split; [by apply ends_ret|done]. Qed.

Lemma may_bind {B} (m : M (penv K) B) k s b en (Q : Z → env → Prop) N :
  ends m s b en → (∀ p, may (k b) (Penv p en) Q N) → may (bind m k) s Q N.
Proof using.
  intros (w & E & Ew) Hk.
  destruct (Hk (RcFd.set_world w (pe_os s))) as [(r & en' & (w' & E' & Ew') & HQ)|(en' & (Hr & w' & E' & Ew') & HN)];
    cbn [pe_os] in *; rewrite set_world_world in *.
  - left. exists r, en'. split; [|done]. exists w'. rewrite (bind_run _ _ _ _ _ E). by rewrite E', Ew'.
  - right. exists en'. split; [|done]. split; [done|]. exists w'. rewrite (bind_run _ _ _ _ _ E). by rewrite E', Ew'.
Qed.

(** The caller of such a call hands its failure on. *)
Lemma may_call m k s (Q Q' : Z → env → Prop) N : may m s Q' N →
  (∀ r p en, Q' r en → r = 0 ∧ may k (Penv p en) Q N) →
  may (r <- m ;; if negb (r =? 0) then ret (-1) else k) s Q N.
Proof using.
  intros [(r & en & He & HQ)|(en & (Hr & w & E & Ew) & HN)] Hk.
  - apply (may_bind _ _ s r en); [done|]. intros p. by destruct (Hk r p en HQ) as [-> ?].
  - right. exists en. split; [|done]. split; [done|]. exists w. by rewrite (bind_run _ _ _ _ _ E).
Qed.

Lemma may_malloc n k s (Q : Z → env → Prop) (N : env → Prop) : N (pe_env s) →
  (∀ p, may k (Penv p (pe_env s)) Q N) →
  may (ok <- malloc n ;; if negb ok then fail ENOMEM else k) s Q N.
Proof using Hheap.
  intros HN Hk. destruct (malloc_ends n s) as [Hm|[Hr Hm]]; apply (may_bind _ _ _ _ _ _ _ Hm); [exact Hk|].
  intros p. right. exists (pe_env s). split; [|done]. by apply (fail_nomem (Penv p (pe_env s))).
Qed.

Lemma the_env_ends s : ends the_env s (pe_env s) (pe_env s).
Proof using. exists (world (pe_os s)). rewrite set_world_id. by destruct s. Qed.

Lemma set_env_ends e s : ends (set_env e) s tt e.
Proof using. exists (world (pe_os s)). by rewrite set_world_id. Qed.

Lemma dup_all_ends l s : ends (dup_all l) s true (pe_env s) ∨ (refuses ∧ ends (dup_all l) s false (pe_env s)).
Proof using Hheap.
  revert s. induction l as [|x l IH]; intros s; cbn [dup_all]; [left; by apply ends_ret|].
  assert (∀ (b : bool) p, ends (ret b) (Penv p (pe_env s)) b (pe_env s)) as Hret by (intros; by apply ends_ret).
  destruct (malloc_ends (zlen x.2 + 1) s) as [Hm|[Hr Hm]];
    [|right; split; [done|]; apply (ends_bind _ _ _ _ _ _ _ Hm); by intros].
  destruct Hm as (w & E & Ew). destruct (IH (Penv (RcFd.set_world w (pe_os s)) (pe_env s))) as [He|[Hr He]];
    [left|right; split; [done|]]; destruct He as (w' & E' & Ew'); exists w';
    rewrite (bind_run _ _ _ _ _ E), E'; cbn [pe_os pe_env] in *; by rewrite set_world_world, Ew', <- Ew.
Qed.

(** The array as it is after env_take_ownership. *)
Definition owned (e : env) : env :=
  if env_owned e then e
  else Env (Some (map (λ x, (Heap, x.2)) (entries e))) true (env_count e + 8).

Lemma owned_strings e : map snd (entries (owned e)) = map snd (entries e).
Proof using.
  unfold owned. destruct (env_owned e); [done|]. unfold entries at 1. cbn [environ default from_option id].
  by rewrite map_map.
Qed.

Lemma owned_ok e : env_ok e → env_ok (owned e) ∧ env_owned (owned e) = true.
Proof using.
  intros [G1 G2 G3 G4]. unfold owned. destruct (env_owned e) eqn:Eo.
  { split; [split; rewrite ?Eo; done|done]. }
  split; [|done]. pose proof (zlen_nonneg (entries e)). split; cbn [env_owned env_cap].
  - intros _. unfold env_count at 1. unfold entries. cbn [environ default from_option id].
    rewrite zlen_map. unfold env_count, entries. lia.
  - intros _. unfold entries. cbn [environ default from_option id]. apply Forall_map, Forall_true. intros x. cbn. discriminate.
  - done.
  - unfold env_count. lia.
Qed.

(** The entry, if it is one of putenv's, is not ours to free. *)
Definition freeable (e : env) (name : bytes) : Prop :=
  Forall (λ x, name_matches x.2 name = true → x.1 ≠ Caller) (entries e).

Lemma freeable_owned e name : freeable e name → freeable (owned e) name.
Proof using.
  unfold freeable, owned. destruct (env_owned e); [done|]. intros _.
  unfold entries. cbn [environ default from_option id]. apply Forall_map, Forall_true. intros x _. cbn. discriminate.
Qed.

(** None of putenv's strings. *)
Definition ours (e : env) : Prop := Forall (λ x, x.1 ≠ Caller) (entries e).

Lemma ours_owned e : ours e → ours (owned e).
Proof using.
  unfold ours, owned. destruct (env_owned e); [done|]. intros _.
  unfold entries. cbn [environ default from_option id]. apply Forall_map, Forall_true. intros x. cbn. discriminate.
Qed.

Lemma ours_freeable e name : ours e → freeable e name.
Proof using. intros Ho. by eapply Forall_impl; [exact Ho|]. Qed.

(** What every failing call leaves: the same strings. *)
Definition unharmed (e e' : env) : Prop :=
  env_ok e' ∧ (e' = e ∨ e' = owned e).

Lemma take_ownership_may s (N : env → Prop) : N (pe_env s) →
  may env_take_ownership s (λ r en, r = 0 ∧ en = owned (pe_env s)) N.
Proof using Hheap.
  intros HN. unfold env_take_ownership, owned.
  apply (may_bind _ _ _ _ _ _ _ (the_env_ends s)). intros p. destruct (env_owned (pe_env s)); [by apply may_ret|].
  cbn zeta. apply may_malloc; [done|]. intros p'. cbn [pe_env].
  destruct (dup_all_ends (entries (pe_env s)) (Penv p' (pe_env s))) as [Hd|[Hr Hd]];
    apply (may_bind _ _ _ _ _ _ _ Hd); intros p2; cbn [negb].
  - apply (may_bind _ _ _ _ _ _ _ (set_env_ends _ _)). intros p3. by apply may_ret.
  - right. eexists. split; [by apply fail_nomem|done].
Qed.

Lemma grow_may s (N : env → Prop) : env_ok (pe_env s) → env_owned (pe_env s) = true → N (pe_env s) →
  may (env_grow_for_one (env_count (pe_env s))) s
    (λ r en, r = 0 ∧ ∃ cap, en = Env (environ (pe_env s)) true cap ∧ env_count (pe_env s) + 2 ≤ cap) N.
Proof using Hheap.
  intros [G1 _ _ G4] Ho HN. specialize (G1 Ho). unfold env_grow_for_one.
  apply (may_bind _ _ _ _ _ _ _ (the_env_ends s)). intros p.
  pose proof (zlen_nonneg (entries (pe_env s))) as Hl. unfold env_count in *.
  destruct (Z.leb_spec (zlen (entries (pe_env s)) + 2) (env_cap (pe_env s))).
  - apply may_ret. split; [done|]. exists (env_cap (pe_env s)). split; [|done].
    cbn [pe_env]. destruct (pe_env s) as [e o c]. simpl in *. by subst.
  - cbn zeta. replace (negb (env_cap (pe_env s) =? 0)) with true by lia. apply may_malloc; [done|]. intros p'.
    apply (may_bind _ _ _ _ _ _ _ (set_env_ends _ _)). intros p2. apply may_ret. split; [done|].
    exists (env_cap (pe_env s) * 2). cbn [pe_env]. rewrite Ho. split; [done|lia].
Qed.

Lemma free_entry_ends e name x i p : env_ok e → env_owned e = true → freeable e name →
  idx (entries e) i = Some x → name_matches x.2 name = true → ends (free_entry (K := K) x) (Penv p e) tt e.
Proof using.
  intros [_ G2 _ _] Ho Hf Hi Hm. specialize (G2 Ho).
  pose proof (idx_Forall _ _ _ _ G2 Hi). pose proof (idx_Forall _ _ _ _ Hf Hi Hm).
  unfold free_entry. destruct x as [[] b]; cbn [fst] in *; [done|by apply ends_ret|done].
Qed.

Lemma of_option_ends {B} (o : option B) b s : o = Some b → ends (of_option o) s b (pe_env s).
Proof using. intros ->. by apply ends_ret. Qed.

Lemma env_append_ends n x p e : env_owned e = true → n = env_count e → n + 2 ≤ env_cap e →
  ends (env_append (K := K) n x) (Penv p e) tt (Env (Some (entries e ++ [x])) true (env_cap e)).
Proof using.
  intros Ho Hn Hc. unfold env_append. apply (ends_bind _ _ _ _ _ _ _ (the_env_ends _)). intros p'. cbn [pe_env].
  rewrite decide_True, Ho by done. apply set_env_ends.
Qed.

Lemma env_replace_ends l1 y l2 x p e : entries e = l1 ++ y :: l2 →
  ends (env_replace (K := K) (zlen l1) x) (Penv p e) tt (Env (Some (l1 ++ x :: l2)) (env_owned e) (env_cap e)).
Proof using.
  intros El. unfold env_replace. apply (ends_bind _ _ _ _ _ _ _ (the_env_ends _)). intros p'. cbn [pe_env].
  assert (upd (entries e) (zlen l1) x = Some (l1 ++ x :: l2)) as ->.
  { pose proof (zlen_nonneg l1). pose proof (zlen_nonneg l2). rewrite upd_Some by (rewrite El; zlen_lia). f_equal.
    rewrite El. unfold zlen. rewrite Nat2Z.id. by rewrite insert_app_r_alt, Nat.sub_diag. }
  apply (ends_bind _ _ _ _ _ _ _ (of_option_ends _ _ _ eq_refl)). intros p2. apply set_env_ends.
Qed.

(** The environment after an entry was added, replaced or taken out. *)
Lemma env_ok_put e l1 xs l2 ys cap : env_ok e → env_owned e = true → entries e = l1 ++ xs ++ l2 →
  Forall (λ x, x.1 ≠ Blob) ys → zlen (l1 ++ ys ++ l2) + 1 ≤ cap →
  env_ok (Env (Some (l1 ++ ys ++ l2)) true cap).
Proof using.
  intros [G1 G2 G3 G4] Ho El Hys Hcap. pose proof (zlen_nonneg (l1 ++ ys ++ l2)). specialize (G2 Ho).
  rewrite El in G2. apply Forall_app in G2 as [? [_ ?]%Forall_app].
  split; cbn [env_owned env_cap environ]; unfold env_count; rewrite ?entries_Env; [done| |done|lia].
  intros _. by repeat (apply Forall_app; split).
Qed.

Lemma ours_put e l1 xs l2 ys cap : entries e = l1 ++ xs ++ l2 → Forall (λ x, x.1 ≠ Caller) ys →
  ours e → ours (Env (Some (l1 ++ ys ++ l2)) true cap).
Proof using.
  unfold ours. intros -> Hys [? [_ ?]%Forall_app]%Forall_app. rewrite entries_Env. by repeat (apply Forall_app; split).
Qed.

(** ** setenv, unsetenv *)

(** The values of the name change as they should, those of no other. *)
Definition updated (e e' : env) (name : bytes) (vs : list bytes) : Prop :=
  env_ok e' ∧ (ours e → ours e') ∧ ∀ n, Forall (λ c, c ≠ 61) n →
    values (entries e') n = if decide (n = name) then vs else values (entries e) n.

Lemma updated_owned e e' name vs : updated (owned e) e' name vs → updated e e' name vs.
Proof using.
  intros (Hok & Hours & H1). split; [done|]. split; [intros ?; by apply Hours, ours_owned|].
  intros n Hn. rewrite (H1 n Hn). case_decide; [done|].
  apply values_strings, owned_strings.
Qed.

Lemma setenv_may name value (overwrite : bool) s : name_ok name → env_ok (pe_env s) → freeable (pe_env s) name →
  may (setenv (Some name) (Some value) overwrite) s
    (λ r en, r = 0 ∧ updated (pe_env s) en name (set_values overwrite value (values (entries (pe_env s)) name)))
    (unharmed (pe_env s)).
Proof using Hheap.
  intros Hname Hok Hfree. unfold setenv. rewrite (bad_name_ok _ Hname). cbn [default from_option id].
  destruct (owned_ok _ Hok) as [Hok' Ho]. pose proof (freeable_owned _ _ Hfree) as Hfree'.
  apply (may_call _ _ _ _ _ _ (take_ownership_may s _ (conj Hok (or_introl eq_refl)))).
  intros r p en [-> ->]. split; [done|].
  assert (values (entries (pe_env s)) name = values (entries (owned (pe_env s))) name) as ->
    by (symmetry; apply values_strings, owned_strings).
  assert (unharmed (pe_env s) (owned (pe_env s))) as HN by (split; [done|by right]).
  set (e := owned (pe_env s)) in *. destruct Hname as [Hne Hname].
  apply (may_bind _ _ _ _ _ _ _ (the_env_ends _)). intros p2. cbn [pe_env].
  destruct (env_find_cases e name) as [[-> Hnone]|(l1 & x & l2 & El & -> & Hm & H1)].
  - change (0 <=? -1) with false. cbn [andb]. apply may_malloc; [done|]. intros p3. cbn zeta iota. rewrite Hnone.
    apply (may_call _ _ _ _ _ _ (grow_may (Penv p3 e) _ Hok' Ho HN)). cbn [pe_env].
    intros r p4 en (-> & cap & -> & Hcap). split; [done|].
    eapply may_bind; [by apply env_append_ends|]. intros p5. apply may_ret. split; [done|].
    apply updated_owned. fold e. cbn [pe_env env_cap]. unfold entries at 1. cbn [environ].
    fold (entries e). split; [|split].
    + apply (env_ok_put e (entries e) [] [] [(Heap, name ++ 61 :: value)] cap Hok' Ho); [by rewrite !app_nil_r|by repeat constructor|].
      unfold env_count in Hcap. zlen_lia.
    + apply (ours_put e (entries e) [] [] [(Heap, name ++ 61 :: value)]); [by rewrite !app_nil_r|by repeat constructor].
    + intros n Hn. rewrite entries_Env, values_app. case_decide as En.
      * subst n. by rewrite Hnone, values_entry.
      * rewrite (values_other _ _ name n) by (done || apply name_matches_entry). by rewrite app_nil_r.
  - pose proof (zlen_nonneg l1). replace (0 <=? zlen l1) with true by lia.
    assert (values (entries e) name = dropZ (zlen name + 1) x.2 :: values l2 name) as Hvs
      by (by rewrite El, values_app, H1, values_hit).
    rewrite Hvs. cbn [set_values]. destruct overwrite; cbn [andb negb].
    + apply may_malloc; [done|]. intros p3. cbn [pe_env].
      assert (idx (entries e) (zlen l1) = Some x) as Hi by (rewrite El; apply idx_middle).
      eapply may_bind; [apply (of_option_ends _ x (Penv p3 e)); exact Hi|]. intros p4.
      eapply may_bind; [by eapply free_entry_ends|]. intros p5.
      eapply may_bind; [by apply (env_replace_ends l1 x l2)|]. intros p6. apply may_ret. split; [done|].
      apply updated_owned. fold e. cbn [pe_env]. rewrite Ho. split; [|split].
      * apply (env_ok_put e l1 [x] l2 [(Heap, name ++ 61 :: value)]); [done..|by repeat constructor|].
        destruct Hok' as [G1 _ _ _]. specialize (G1 Ho). unfold env_count in G1. rewrite El in G1. zlen_lia.
      * apply (ours_put e l1 [x] l2 [(Heap, name ++ 61 :: value)]); [done|by repeat constructor].
      * intros n Hn. rewrite entries_Env, El, !values_app. case_decide as En.
        -- subst n. by rewrite H1, values_entry.
        -- rewrite (values_other _ _ name n) by (done || apply name_matches_entry). by rewrite (values_other x l2 name n).
    + apply may_ret. split; [done|]. apply updated_owned. fold e. split; [done|]. split; [done|].
      intros n Hn. case_decide; [by subst|done].
Qed.

Lemma unsetenv_may name s : name_ok name → env_ok (pe_env s) → freeable (pe_env s) name →
  may (unsetenv (Some name)) s
    (λ r en, r = 0 ∧ updated (pe_env s) en name (tail (values (entries (pe_env s)) name)))
    (unharmed (pe_env s)).
Proof using Hheap.
  intros Hname Hok Hfree. unfold unsetenv. rewrite (bad_name_ok _ Hname). cbn [default from_option id].
  destruct (owned_ok _ Hok) as [Hok' Ho]. pose proof (freeable_owned _ _ Hfree) as Hfree'.
  apply (may_call _ _ _ _ _ _ (take_ownership_may s _ (conj Hok (or_introl eq_refl)))).
  intros r p en [-> ->]. split; [done|].
  assert (values (entries (pe_env s)) name = values (entries (owned (pe_env s))) name) as ->
    by (symmetry; apply values_strings, owned_strings).
  set (e := owned (pe_env s)) in *. destruct Hname as [Hne Hname].
  apply (may_bind _ _ _ _ _ _ _ (the_env_ends _)). intros p2. cbn [pe_env].
  destruct (env_find_cases e name) as [[-> Hnone]|(l1 & x & l2 & El & -> & Hm & H1)].
  - change (-1 <? 0) with true. cbn iota. apply may_ret. split; [done|]. apply updated_owned. fold e.
    split; [done|]. split; [done|]. intros n Hn. case_decide; [subst|done]. by rewrite Hnone.
  - pose proof (zlen_nonneg l1). replace (zlen l1 <? 0) with false by lia.
    assert (idx (entries e) (zlen l1) = Some x) as Hi by (rewrite El; apply idx_middle).
    eapply may_bind; [apply (of_option_ends _ x (Penv p2 e)); exact Hi|]. intros p4.
    eapply may_bind; [by eapply free_entry_ends|]. intros p5.
    assert (takeZ (zlen l1) (entries e) ++ dropZ (zlen l1 + 1) (entries e) = l1 ++ [] ++ l2) as ->.
    { rewrite El, takeZ_app_zlen. f_equal. rewrite <- dropZ_dropZ by lia. by rewrite dropZ_app_zlen. }
    eapply may_bind; [apply set_env_ends|]. intros p6. apply may_ret. split; [done|].
    apply updated_owned. fold e. cbn [pe_env]. rewrite Ho. split; [|split].
    + apply (env_ok_put e l1 [x] l2 []); [done..|].
      destruct Hok' as [G1 _ _ _]. specialize (G1 Ho). unfold env_count in G1. rewrite El in G1. zlen_lia.
    + by apply (ours_put e l1 [x] l2 []).
    + intros n Hn. rewrite entries_Env, El, !values_app. cbn [app]. case_decide as En.
      * subst n. by rewrite H1, values_hit.
      * by rewrite (values_other x l2 name n).
Qed.
End ops.

Lemma getenv_run {K} `{Kernel K} (junk : bytes) name v (s : penv K) : name ≠ [] →
  lookup_env (entries (pe_env s)) name = Some v → getenv junk (Some name) s = Ret (Some v) s.
Proof.
  intros Hne Hl. unfold getenv. destruct name as [|c name]; [done|]. set (n := c :: name) in *.
  rewrite (bind_run _ _ (pe_env s) s s) by done. unfold lookup_env in Hl.
  destruct (env_find_cases (pe_env s) n) as [[_ Hnone]|(l1 & x & l2 & El & -> & Hm & H1)]; [by rewrite Hnone in Hl|].
  pose proof (zlen_nonneg l1). cbn zeta. replace (0 <=? zlen l1) with true by lia.
  rewrite El, values_app, H1, values_hit in Hl by done. injection Hl as <-. by rewrite El, idx_middle.
Qed.

(** A heap that always serves. *)
Lemma serves {K} `{Kernel K} : (∀ n s, ∃ w, heap_alloc n s = Ret true w) →
  (∀ n w, ∃ ok w', heap_alloc (K := K) n w = Ret ok w' ∧ tt = tt) ∧ ¬ refuses (K := K).
Proof.
  intros Halloc. split.
  - intros n w. destruct (Halloc n w) as (w' & E). by exists true, w'.
  - intros (n & w & w' & E). destruct (Halloc n w) as (w2 & E2). congruence.
Qed.

(** Setenv makes the environment the map it is meant to be: it succeeds,
    getenv then yields the new value for the name (the old one when the name was
    set and [overwrite] is 0), every other name keeps its values, and no name
    gets a second entry that had none, whether the array was still crt0's or
    already ours. *)
Theorem setenv_correct {K} `{Kernel K} (junk : bytes) (name value : bytes) (overwrite : bool) (s : penv K)
    (Halloc : ∀ n s, ∃ w, heap_alloc n s = Ret true w)
    (Hname : name_ok name) (Hok : env_ok (pe_env s)) (Hfree : freeable (pe_env s) name) :
  let old := lookup_env (entries (pe_env s)) in
  ∃ s', setenv (Some name) (Some value) overwrite s = Ret 0 s' ∧ env_ok (pe_env s') ∧
    getenv junk (Some name) s' = Ret (Some (if overwrite then value else default value (old name))) s' ∧
    (∀ n, Forall (λ c, c ≠ 61) n → n ≠ name → values (entries (pe_env s')) n = values (entries (pe_env s)) n) ∧
    (uniq (entries (pe_env s)) → uniq (entries (pe_env s'))).
Proof.
  cbn zeta. destruct (serves Halloc) as [Hh Hno].
  destruct (setenv_may (λ _ : K, tt) Hh name value overwrite s Hname Hok Hfree)
    as [(r & en & (w & E & _) & -> & Hok' & _ & Hv)|(en & (Hr & _) & _)]; [|done].
  eexists. split; [exact E|]. cbn [pe_env]. destruct Hname as [Hne Hname]. split; [done|]. split; [|split].
  - apply getenv_run; [done|]. cbn [pe_env]. unfold lookup_env. rewrite Hv, decide_True by done.
    destruct (values (entries (pe_env s)) name) as [|v t]; [by destruct overwrite|]. by destruct overwrite.
  - intros n Hn Hnn. rewrite Hv by done. by rewrite decide_False.
  - intros Hu n Hn. rewrite Hv by done. specialize (Hu n Hn). case_decide; [subst n|done].
    destruct (values (entries (pe_env s)) name); [done|]. by destruct overwrite.
Qed.

Lemma find_eq_entry name value : Forall (λ c, c ≠ 61) name → find_eq (name ++ 61 :: value) = Some (zlen name).
Proof.
  intros Hn. unfold find_eq.
  assert (list_find (λ c, c = 61) (name ++ 61 :: value) = Some (length name, 61)) as ->; [|done].
  apply list_find_Some. split; [by rewrite list_lookup_middle|]. split; [done|].
  intros j y Hj Hlt. rewrite lookup_app_l in Hj by done. by eapply Forall_lookup_1 in Hn.
Qed.

(** The entry of a name that only [x] is for. *)
Lemma env_find_last l x name o c : values l name = [] → name_matches x.2 name = true →
  env_find (Env (Some (l ++ [x])) o c) name = zlen l.
Proof.
  intros Hl Hx. destruct (env_find_cases (Env (Some (l ++ [x])) o c) name) as [[_ Hnone]|(l1 & y & l2 & El & -> & Hm & H1)].
  - rewrite entries_Env, values_app, Hl, values_hit in Hnone by done. done.
  - rewrite entries_Env in El. destruct (app_eq_inv _ _ _ _ El) as [(k & E1 & E2)|(k & E1 & E2)].
    + destruct k as [|z k]; [by rewrite E1, app_nil_r|]. injection E2 as <- E2. subst l.
      rewrite values_app, values_hit in Hl by done. by destruct (values l1 name).
    + destruct k as [|z k]; [by rewrite E1, app_nil_r|]. injection E2 as <- E2. by destruct k.
Qed.

(** Putenv's string is freed.  The comment says that its entries are never
    freed, but unsetenv (and setenv) of a name that putenv set frees the
    caller's string: undefined behaviour, for every name, value and state. *)
Theorem putenv_unsetenv_frees_caller {K} `{Kernel K} (name value : bytes) (s : penv K)
    (Halloc : ∀ n s, ∃ w, heap_alloc n s = Ret true w)
    (Hname : name_ok name) (Hok : env_ok (pe_env s))
    (Hnew : lookup_env (entries (pe_env s)) name = None) :
  ∃ s', putenv (Some (name ++ 61 :: value)) s = Ret 0 s' ∧ unsetenv (Some name) s' = Fault.
Proof.
  pose proof Hname as [Hne Hn]. destruct (serves Halloc) as [Hh Hno].
  destruct (owned_ok _ Hok) as [Hok' Ho]. set (e := owned (pe_env s)) in *.
  assert (values (entries e) name = []) as Hnone.
  { unfold e. rewrite (values_strings _ _ name (owned_strings (pe_env s))). unfold lookup_env in Hnew.
    by destruct (values (entries (pe_env s)) name). }
  set (e4 := λ cap, Env (Some (entries e ++ [(Caller, name ++ 61 :: value)])) true cap).
  assert (may (λ _ : K, tt) (putenv (Some (name ++ 61 :: value))) s (λ r en, r = 0 ∧ ∃ cap, en = e4 cap) (λ _, True)) as Hput.
  { unfold putenv. rewrite (find_eq_entry name value Hn), takeZ_app_zlen.
    apply (may_call _ _ _ _ _ _ _ (take_ownership_may _ Hh s _ I)). intros r p en [-> ->]. split; [done|]. fold e.
    apply (may_bind _ _ _ _ _ _ _ _ (the_env_ends _ _)). intros p2. cbn [pe_env].
    destruct (env_find_cases e name) as [[-> _]|(l1 & x & l2 & El & _ & Hm & _)].
    2:{ rewrite El, values_app, values_hit in Hnone by done. by destruct (values l1 name). }
    change (0 <=? -1) with false. cbn iota zeta.
    apply (may_call _ _ _ _ _ _ _ (grow_may _ Hh (Penv p2 e) _ Hok' Ho I)). cbn [pe_env].
    intros r p4 en (-> & cap & -> & Hcap). split; [done|].
    eapply may_bind; [by apply env_append_ends|]. intros p5. apply may_ret. split; [done|]. by exists cap. }
  destruct Hput as [(r & en & (w & E & _) & -> & cap & ->)|(en & (Hr & _) & _)]; [|done].
  eexists. split; [exact E|]. unfold unsetenv. rewrite (bad_name_ok _ Hname). cbn [default from_option id].
  set (s4 := Penv _ (e4 cap)). rewrite (bind_run _ _ 0 s4 s4) by done.
  change (negb (0 =? 0)) with false. cbn iota. rewrite (bind_run _ _ (e4 cap) s4 s4) by done. unfold e4 at 1 2 3.
  rewrite (env_find_last _ (Caller, name ++ 61 :: value) name) by (done || apply name_matches_entry).
  pose proof (zlen_nonneg (entries e)). replace (zlen (entries e) <? 0) with false by lia.
  rewrite entries_Env, idx_middle. done.
Qed.

(** Unsetenv takes out one entry only.  When the environment a program was
    given names a variable twice, unsetenv reports success and getenv still finds
    the second value. *)
Lemma unsetenv_duplicate_shows {K} `{Kernel K} (junk : bytes) (name v1 v2 : bytes) (vs : list bytes) (s : penv K)
    (Halloc : ∀ n s, ∃ w, heap_alloc n s = Ret true w)
    (Hname : name_ok name) (Hok : env_ok (pe_env s)) (Hfree : freeable (pe_env s) name)
    (Htwice : values (entries (pe_env s)) name = v1 :: v2 :: vs) :
  ∃ s', unsetenv (Some name) s = Ret 0 s' ∧ getenv junk (Some name) s' = Ret (Some v2) s'.
Proof.
  destruct (serves Halloc) as [Hh Hno].
  destruct (unsetenv_may (λ _ : K, tt) Hh name s Hname Hok Hfree)
    as [(r & en & (w & E & _) & -> & Hok' & _ & Hv)|(en & (Hr & _) & _)]; [|done].
  eexists. split; [exact E|]. destruct Hname as [Hne Hname]. apply getenv_run; [done|]. cbn [pe_env].
  unfold lookup_env. by rewrite Hv, decide_True, Htwice.
Qed.

(** ** Concrete runs *)

From S2P Require Import Ram.

Lemma no_eq_b l : forallb (λ c, negb (c =? 61)) l = true → Forall (λ c, c ≠ 61) l.
Proof. intros H. apply Forall_forall. intros c Hc. rewrite forallb_forall in H.
  apply list_elem_of_In, H in Hc. lia. Qed.

Definition ex_env : penv ram :=
  Penv (posix_start (ex_ram (str "/tmp/a") [])) (env_start [str "PATH=/bin"; str "HOME=/"]).

Lemma ex_alloc_true (n : Z) (s : ram) : ∃ w, heap_alloc n s = Ret true w.
Proof. by exists s. Qed.

Lemma env_start_ok strings : env_ok (env_start strings).
Proof. by split. Qed.

Lemma setenv_correct_witness :
  ∃ s', setenv (Some (str "HOME")) (Some (str "/home")) true ex_env = Ret 0 s' ∧ env_ok (pe_env s') ∧
    getenv ex_junk (Some (str "HOME")) s' = Ret (Some (str "/home")) s' ∧
    (∀ n, Forall (λ c, c ≠ 61) n → n ≠ str "HOME" →
      values (entries (pe_env s')) n = values (entries (pe_env ex_env)) n) ∧
    (uniq (entries (pe_env ex_env)) → uniq (entries (pe_env s'))).
Proof.
  apply (setenv_correct ex_junk (str "HOME") (str "/home") true ex_env ex_alloc_true);
    [split; [done|apply no_eq_b; reflexivity]|apply env_start_ok|by repeat constructor].
Defined.

Lemma putenv_unsetenv_frees_caller_witness :
  ∃ s', putenv (Some (str "TERM" ++ 61 :: str "vt100")) ex_env = Ret 0 s' ∧ unsetenv (Some (str "TERM")) s' = Fault.
Proof.
  apply (putenv_unsetenv_frees_caller (str "TERM") (str "vt100") ex_env ex_alloc_true);
    [split; [done|apply no_eq_b; reflexivity]|apply env_start_ok|reflexivity].
Defined.

(** Two LANGs in the exec blob: unsetting one uncovers the other. *)
Definition ex_twice : penv ram :=
  Penv (posix_start (ex_ram (str "/tmp/a") [])) (env_start [str "LANG=C"; str "HOME=/"; str "LANG=it"]).

Example unsetenv_twice :
  ∃ s, (unsetenv (Some (str "LANG")) ;; getenv ex_junk (Some (str "LANG"))) ex_twice = Ret (Some (str "it")) s.
Proof. eexists. vm_compute. reflexivity. Qed.
