(* ===== verification/EnvMap.v ===== *)
(** The environment as a map: what getenv, setenv and unsetenv of [RcEnv]
    implement, together with the /env store of the environment server
    (user/sys/envd.c3) that getenv falls back to.

    [EnvServer] is what the library relies on of that server and of the heap;
    [env_refines] is the refinement, for every sequence of calls, every
    environment a program is started with and every failure of the heap. *)
From S2P Require Import Prelude CMonad CMemory CBuffer Kernel RcFs FileServer RcFd RcEnv Ram.

Definition env_path (name : bytes) : bytes := str "/env/" ++ name.

(** A variable's name as the server can be asked for it: one component of a path
    that fits a request. *)
Definition bare (name : bytes) : Prop :=
  c_chars name ∧ RcFs.name_ok name ∧ zlen name < 95.

(** What is under "/env/" is served by envd, which answers FS_READ of a variable
    with the whole value, however little is asked for (values have at most 63
    characters, ENV_VALUE_MAX), and with -1 when the process has no such
    variable.  Nobody else changes the process's variables meanwhile.  The heap
    may refuse at any time. *)
Class EnvServer (K : Type) `{!Kernel K} := {
  store : K → gmap bytes bytes;
  envd : Z;
  envd_range : 0 < envd ≤ INT_MAX;
  env_translate_law s name : bare name → sys_ns_translate (env_path name) 0 100 s = Ret (envd, name) s;
  get_law s req :
    zlen req = RC_FS_MSG_MAX → is_bytes req →
    ∃ n reply s', sys_ipc_call envd RC_FS_READ req s = Ret (envd, RC_FS_READ, reply) s' ∧
      store s' = store s ∧ reply_is reply n ∧
      match store s !! req_name req with
      | Some v => n = zlen v ∧ sliceZ 4 n reply = v
      | None => n = -1
      end;
  value_law s name v : store s !! name = Some v → c_chars v ∧ zlen v ≤ 63;
  heap_law n s : ∃ ok s', heap_alloc n s = Ret ok s' ∧ store s' = store s;
}.

Lemma env_path_ok name : bare name → abs_ok (env_path name).
Proof.
  intros (Hc & Hn & Hl). unfold env_path. split_and!.
  - apply c_chars_app. split; [|done]. repeat constructor; lia.
  - done.
  - change (str "/env/") with [47; 101; 110; 118; 47]. zlen_lia.
  - change (str "/env/" ++ name) with (render [name; str "env"]). apply canonical_render.
    repeat constructor; try done; try apply Hn. by apply noslash_spec; repeat constructor.
Qed.

Section store.
Context {K : Type} `{EnvServer K}.
Context (junk : bytes) (Hjunk : zlen junk = RC_FS_MSG_MAX) (Hjb : is_bytes junk).

(** __rc_fs_read of a variable *)
Lemma get_run s name len : bare name → 63 ≤ len ≤ RC_FS_MSG_MAX - 4 →
  ∃ s', store s' = store s ∧ __rc_fs_read junk (env_path name) len s =
    Ret (match store s !! name with Some v => (zlen v, v) | None => (-1, []) end) s'.
Proof using All.
  intros Hb Hlen. pose proof (env_path_ok _ Hb) as (Hac & Hah & Hal & Hcan). destruct Hb as (Hc & Hn & Hl).
  set (ap := env_path name) in *. unfold RC_FS_MSG_MAX in Hlen, Hjunk. pose proof envd_range as He.
  unfold INT_MAX in He. set (r0 := spliced 0 (name ++ [0]) junk).
  assert (zlen r0 = 8192) as H0 by (unfold r0; rewrite zlen_spliced; zlen_lia).
  set (req := spliced 100 (le_split 4 (u32 len)) r0).
  assert (zlen req = 8192) as W1 by (unfold req; rewrite zlen_spliced; change (zlen (le_split 4 (u32 len))) with 4; lia).
  assert (req_name req = name) as W2.
  { unfold req. rewrite req_name_spliced_other by (lia || (change (zlen (le_split 4 (u32 len))) with 4; lia)).
    apply req_name_spliced_name; [done|lia|lia]. }
  assert (is_bytes req) as W3.
  { repeat apply is_bytes_spliced; [apply le_split_bytes|apply Forall_app; split|done];
      [by apply c_chars_is_bytes|repeat constructor; lia]. }
  destruct (get_law s req W1 W3) as (n & reply & s' & Ecall & Ev & Er & Hres). rewrite W2 in Hres.
  exists s'. split; [done|].
  unfold __rc_fs_read. rewrite (bind_run _ _ _ _ _ (abspath_absolute ap s Hac Hah ltac:(lia))), Hcan.
  rewrite (bind_run _ _ (envd, r0) s s).
  2:{ unfold resolve_stripped, resolve_member, rc_ns_translate.
      rewrite (bind_run _ _ (envd, name) s s).
      2:{ rewrite (bind_run _ _ _ _ _ (env_translate_law s name (conj Hc (conj Hn Hl)))). unfold ret.
          by rewrite s32_id by (unfold INT_MIN, INT_MAX; lia). }
      cbn beta iota. replace (envd <? 0) with false by lia.
      by rewrite (bind_run _ _ _ _ _ (splice_run 0 (name ++ [0]) junk s ltac:(lia) ltac:(zlen_lia))). }
  cbn beta iota. replace (envd <? 0) with false by lia. unfold RC_FS_MSG_MAX.
  replace (len <? 0) with false by lia. replace (8192 - 4 <? len) with false by lia. cbn iota zeta.
  rewrite (bind_run _ _ _ _ _ (put_u32_run 100 len r0 s ltac:(lia) ltac:(lia))). fold req.
  rewrite (bind_run _ _ (envd, RC_FS_READ, reply) s s').
  2:{ unfold rc_fsd_call. rewrite (bind_run _ _ _ _ _ Ecall). unfold ret.
      by rewrite s32_id by (unfold INT_MIN, INT_MAX; lia). }
  cbn beta iota. replace (envd <=? 0) with false by lia. rewrite Z.eqb_refl. cbn [orb negb].
  unfold reply_data. pose proof (proj1 Er) as Hrl. unfold RC_FS_MSG_MAX in Hrl.
  assert (∀ v, INT_MIN ≤ v ≤ INT_MAX → n = v → get_s32 0 reply s' = Ret v s') as Hget.
  { intros v Hv ->. destruct Er as [_ E]. by apply get_s32_run; [lia|lia| |]. }
  destruct (store s !! name) as [v|] eqn:Es.
  - destruct Hres as [-> Hd]. destruct (value_law s name v Es) as [_ Hv]. pose proof (zlen_nonneg v).
    rewrite (bind_run _ _ _ _ _ (Hget (zlen v) ltac:(unfold INT_MIN, INT_MAX; lia) eq_refl)).
    replace (zlen v <? 0) with false by lia. replace (len <? zlen v) with false by lia. cbn iota zeta.
    rewrite (bind_run _ _ _ _ _ (peek_run 4 (zlen v) reply s' ltac:(lia) ltac:(lia) ltac:(lia))). by rewrite Hd.
  - by rewrite (bind_run _ _ _ _ _ (Hget (-1) ltac:(unfold INT_MIN, INT_MAX; lia) Hres)).
Qed.
End store.

(** * The strings as a map *)

(** For every name the values it is given, first entry first; a string without
    '=' is no entry. *)
Fixpoint env_map (l : list (origin * bytes)) : gmap bytes (list bytes) :=
  match l with
  | [] => ∅
  | x :: l =>
      match find_eq x.2 with
      | Some i => partial_alter (λ vs, Some (dropZ (i + 1) x.2 :: default [] vs)) (takeZ i x.2) (env_map l)
      | None => env_map l
      end
  end.

(** A map has no empty stacks. *)
Definition stack (vs : list bytes) : option (list bytes) := match vs with [] => None | _ => Some vs end.
Definition put_stack (n : bytes) (vs : list bytes) (m : gmap bytes (list bytes)) : gmap bytes (list bytes) :=
  partial_alter (λ _, stack vs) n m.

Lemma default_stack vs : default [] (stack vs) = vs.
Proof. by destruct vs. Qed.

Lemma find_eq_Some s i : find_eq s = Some i →
  ∃ name value, s = name ++ 61 :: value ∧ Forall (λ c, c ≠ 61) name ∧ i = zlen name.
Proof.
  unfold find_eq. destruct (list_find _ s) as [[k c]|] eqn:E; [|done]. intros [= <-].
  apply list_find_Some in E as (Hk & -> & Hbefore).
  exists (take k s), (drop (S k) s). rewrite take_drop_middle by done. split; [done|].
  pose proof (lookup_lt_Some _ _ _ Hk). split; [|unfold zlen; by rewrite length_take_le by lia].
  apply Forall_lookup. intros j c [Hj Hlt]%lookup_take_Some. by apply (Hbefore j c).
Qed.

Lemma find_eq_None s name : find_eq s = None → name_matches s name = false.
Proof.
  intros Hs. unfold name_matches. apply andb_false_iff. right. apply bool_decide_false. intros E.
  unfold find_eq in Hs. destruct (list_find (λ c, c = 61) s) as [[]|] eqn:Ef; [done|].
  apply list_find_None in Ef. by apply (idx_Forall _ _ _ _ Ef) in E.
Qed.

Lemma env_map_cons o name value l : Forall (λ c, c ≠ 61) name →
  env_map ((o, name ++ 61 :: value) :: l) =
    partial_alter (λ vs, Some (value :: default [] vs)) name (env_map l).
Proof.
  intros Hn. cbn [env_map snd]. rewrite find_eq_entry, takeZ_app_zlen by done.
  pose proof (zlen_nonneg name). by rewrite <- dropZ_dropZ, dropZ_app_zlen by lia.
Qed.

Lemma env_map_lookup l n : Forall (λ c, c ≠ 61) n → env_map l !! n = stack (values l n).
Proof.
  intros Hn. induction l as [|[o x] l IH]; [done|].
  destruct (find_eq x) as [i|] eqn:E.
  - apply find_eq_Some in E as (name & value & -> & Hname & ->). rewrite env_map_cons by done.
    destruct (decide (n = name)) as [->|Hne].
    + rewrite lookup_partial_alter_eq, IH, default_stack. by rewrite values_entry.
    + rewrite lookup_partial_alter_ne, IH by done.
      by rewrite (values_other _ _ name n) by (done || apply name_matches_entry).
  - cbn [env_map snd]. rewrite E, IH. by rewrite values_miss by (by apply find_eq_None).
Qed.

Lemma env_map_names l n vs : env_map l !! n = Some vs → Forall (λ c, c ≠ 61) n.
Proof.
  revert vs. induction l as [|[o x] l IH]; intros vs; [done|].
  destruct (find_eq x) as [i|] eqn:E.
  - apply find_eq_Some in E as (name & value & -> & Hname & ->). rewrite env_map_cons by done.
    destruct (decide (name = n)) as [->|Hne]; [done|]. rewrite lookup_partial_alter_ne by done. apply IH.
  - cbn [env_map snd]. rewrite E. apply IH.
Qed.

(** Environments that differ in the values of one name. *)
Lemma env_map_put l l' name vs : Forall (λ c, c ≠ 61) name →
  (∀ n, Forall (λ c, c ≠ 61) n → values l' n = if decide (n = name) then vs else values l n) →
  env_map l' = put_stack name vs (env_map l).
Proof.
  intros Hname Hv. apply map_eq. intros n. unfold put_stack.
  destruct (decide (n = name)) as [->|Hne].
  - by rewrite lookup_partial_alter_eq, env_map_lookup, Hv, decide_True by done.
  - rewrite lookup_partial_alter_ne by done. destruct (decide (Forall (λ c, c ≠ 61) n)) as [Hn|Hn].
    + by rewrite !env_map_lookup, Hv, decide_False by done.
    + destruct (env_map l' !! n) eqn:E1; [by apply env_map_names in E1|].
      destruct (env_map l !! n) eqn:E2; [by apply env_map_names in E2|done].
Qed.

Lemma env_map_same l l' : map snd l' = map snd l → env_map l' = env_map l.
Proof.
  revert l'. induction l as [|x l IH]; intros [|y l'] E; try done. injection E as E1 E2.
  cbn [env_map]. by rewrite E1, (IH l').
Qed.

(** * The calls *)

Inductive env_call :=
  | CGet (name : option bytes)
  | CSet (name value : option bytes) (overwrite : bool)
  | CUnset (name : option bytes).
Inductive env_result := RVal (v : option bytes) | RInt (r : Z).

Definition run_env_call {K} `{!Kernel K} (junk : bytes) (c : env_call) : M (penv K) env_result :=
  match c with
  | CGet name => v <- getenv junk name ;; ret (RVal v)
  | CSet name value overwrite => r <- setenv name value overwrite ;; ret (RInt r)
  | CUnset name => r <- unsetenv name ;; ret (RInt r)
  end.

(** The map, what the server has, errno. *)
Definition env_state : Type := gmap bytes (list bytes) * gmap bytes bytes * Z.

Definition env_abs {K} `{EnvServer K} (s : penv K) : env_state :=
  (env_map (entries (pe_env s)), store (world (pe_os s)), errno (pe_os s)).

#[local] Instance name_ok_dec name : Decision (name_ok name).
Proof. unfold name_ok. apply _. Defined.

(** The values of a name in the map. *)
Definition given (m : gmap bytes (list bytes)) (n : bytes) : list bytes := default [] (m !! n).

(** What each call does when there is memory: getenv gives the first value, or
    else the store's; setenv sets the first value; unsetenv removes it (and the
    next one shows, if there is one). *)
Definition env_spec (c : env_call) : env_state → env_result * env_state := λ '(m, v, e),
  match c with
  | CGet None | CGet (Some []) => (RVal None, (m, v, e))
  | CGet (Some n) => (RVal (match given m n with x :: _ => Some x | [] => v !! n end), (m, v, e))
  | CSet name value overwrite =>
      let n := default [] name in
      if decide (name_ok n) then
        (RInt 0, (put_stack n (set_values overwrite (default [] value) (given m n)) m, v, e))
      else (RInt (-1), (m, v, EINVAL))
  | CUnset name =>
      let n := default [] name in
      if decide (name_ok n) then (RInt 0, (put_stack n (tail (given m n)) m, v, e))
      else (RInt (-1), (m, v, EINVAL))
  end.

(** Setenv and unsetenv of a proper name need memory. *)
Definition allocates (c : env_call) : Prop :=
  match c with CGet _ => False | CSet name _ _ | CUnset name => name_ok (default [] name) end.

(** One call, on a heap that may refuse: then it fails with ENOMEM and changes
    nothing. *)
Inductive env_step (may_refuse : Prop) (c : env_call) : env_state → env_result → env_state → Prop :=
  | step_done st : env_step may_refuse c st (env_spec c st).1 (env_spec c st).2
  | step_nomem m v e : may_refuse → allocates c → env_step may_refuse c (m, v, e) (RInt (-1)) (m, v, ENOMEM).

Inductive env_steps (may_refuse : Prop) : list env_call → env_state → list env_result → env_state → Prop :=
  | steps_nil st : env_steps may_refuse [] st [] st
  | steps_cons c calls st r st' rs st'' : env_step may_refuse c st r st' →
      env_steps may_refuse calls st' rs st'' → env_steps may_refuse (c :: calls) st (r :: rs) st''.

(** On a heap that does not, the calls are the function they are specified by. *)
Lemma env_steps_spec may_refuse calls st rs st' : ¬ may_refuse →
  env_steps may_refuse calls st rs st' → (rs, st') = spec_calls env_spec calls st.
Proof.
  intros Hno. induction 1 as [st|c calls st r st' rs st'' Hc _ IH]; [done|]. cbn [spec_calls].
  destruct Hc as [st|]; [|done]. destruct (env_spec c st) as [r st']. cbn [fst snd] in IH. by rewrite <- IH.
Qed.

(** getenv is asked for names; setenv and unsetenv may be given anything. *)
Definition call_ok (c : env_call) : Prop :=
  match c with CGet (Some (x :: n)) => bare (x :: n) ∧ Forall (λ c, c ≠ 61) (x :: n) | _ => True end.

(** What the calls keep: the array is as it should be, and holds no string of
    putenv's. *)
Definition env_inv {K} (s : penv K) : Prop := env_ok (pe_env s) ∧ ours (pe_env s).

Lemma env_inv_start {K} (p : posix K) strings : env_inv (Penv p (env_start strings)).
Proof. split; [apply env_start_ok|]. unfold ours, env_start, entries. simpl. by apply Forall_map, Forall_true. Qed.

Lemma bad_name_spec name : bad_name name = negb (bool_decide (name_ok (default [] name))).
Proof.
  destruct name as [n|]; [|done]. cbn [default from_option id]. case_bool_decide as Hn; [by apply bad_name_ok|].
  unfold bad_name. apply orb_true_iff. destruct n as [|x n]; [by left|right].
  apply bool_decide_true. destruct (find_eq (x :: n)) eqn:E; [done|]. exfalso. apply Hn. split; [done|].
  unfold find_eq in E. destruct (list_find _ (x :: n)) as [[]|] eqn:Ef; [done|]. by apply list_find_None in Ef.
Qed.

Section refines.
Context {K : Type} `{EnvServer K}.
Context (junk : bytes) (Hjunk : zlen junk = RC_FS_MSG_MAX) (Hjb : is_bytes junk).
Implicit Types (s : penv K).

(** A call does what it is specified to do. *)
Definition steps (c : env_call) s : Prop :=
  ∃ r s', run_env_call junk c s = Ret r s' ∧ env_step (refuses (K := K)) c (env_abs s) r (env_abs s') ∧ env_inv s'.

Lemma getenv_missing name s : bare name → Forall (λ c, c ≠ 61) name → values (entries (pe_env s)) name = [] →
  ∃ w, store w = store (world (pe_os s)) ∧
    getenv junk (Some name) s = Ret (store w !! name) (Penv (set_world w (pe_os s)) (pe_env s)).
Proof using All.
  intros Hb Heq Hl. destruct (get_run junk Hjunk Hjb (world (pe_os s)) name 127 Hb ltac:(done)) as (w & Ev & Er).
  exists w. split; [done|]. rewrite Ev. pose proof Hb as (Hc & (Hne & Hs & _) & Hlen).
  unfold getenv. destruct name as [|x n]; [done|]. set (name := x :: n) in *.
  rewrite (bind_run _ _ (pe_env s) s s) by done.
  destruct (env_find_cases (pe_env s) name) as [[-> _]|(l1 & y & l2 & El & _ & Hm & _)].
  2:{ rewrite El, values_app, values_hit in Hl by done. by destruct (values l1 name). }
  change (0 <=? -1) with false. cbn iota zeta. unfold env_from_store.
  assert (existsb (λ c, (c =? 61) || (c =? 47)) name = false) as ->.
  { apply not_true_iff_false. intros (c & Hin & Hbad)%existsb_exists. apply list_elem_of_In in Hin.
    rewrite Forall_forall in Heq. pose proof (Heq c Hin). apply Hs. by replace 47 with c by lia. }
  rewrite bool_decide_false, orb_false_r by done. cbn iota.
  rewrite takeZ_all by (change (str "/env/") with [47; 101; 110; 118; 47]; zlen_lia). fold (env_path name).
  rewrite (bind_run _ _ (match store (world (pe_os s)) !! name with Some v => (zlen v, v) | None => (-1, []) end)
    s (Penv (set_world w (pe_os s)) (pe_env s))).
  2:{ unfold os, zoom. simpl. by rewrite (sys_run _ _ _ _ Er). }
  destruct (store _ !! name) as [v|] eqn:Es; cbn beta iota; [|done].
  destruct (value_law _ _ _ Es) as [Hvc _]. pose proof (zlen_nonneg v). replace (zlen v <? 0) with false by lia.
  by rewrite c_str_id.
Qed.

Lemma get_steps name s : call_ok (CGet name) → env_inv s → steps (CGet name) s.
Proof using All.
  intros Hc Hs. destruct name as [[|x n]|]; [|destruct Hc as [Hb Heq]; set (name := x :: n) in *|].
  - exists (RVal None), s. split; [done|]. split; [|done]. apply (step_done _ (CGet (Some [])) (env_abs s)).
  - assert (given (env_map (entries (pe_env s))) name = values (entries (pe_env s)) name) as Hg
      by (unfold given; by rewrite env_map_lookup, default_stack).
    pose proof (step_done (refuses (K := K)) (CGet (Some name)) (env_abs s)) as Hst.
    unfold env_abs at 2 3 in Hst. cbn [env_spec fst snd] in Hst. unfold name in Hst at 2. cbn beta iota in Hst.
    fold name in Hst. rewrite Hg in Hst. fold (env_abs s) in Hst.
    unfold steps. cbn [run_env_call]. destruct (values (entries (pe_env s)) name) as [|v vs] eqn:Ev.
    + destruct (getenv_missing name s Hb Heq Ev) as (w & Ew & E). rewrite (bind_run _ _ _ _ _ E), Ew.
      eexists _, _. split; [done|]. split; [|done]. unfold env_abs at 2. cbn [pe_os pe_env world set_world errno].
      rewrite Ew. exact Hst.
    + rewrite (bind_run _ _ _ _ _ (getenv_run junk name v s ltac:(done) ltac:(unfold lookup_env; by rewrite Ev))).
      eexists _, _. split; [done|]. split; [exact Hst|done].
  - exists (RVal None), s. split; [done|]. split; [|done]. apply (step_done _ (CGet None) (env_abs s)).
Qed.

(** How a call that may run out of memory becomes a step. *)
Lemma may_steps c s (m : M (penv K) Z) name vs : env_inv s → name_ok name → allocates c →
  run_env_call junk c = (r <- m ;; ret (RInt r)) →
  env_spec c (env_abs s) = (RInt 0, (put_stack name vs (env_map (entries (pe_env s))),
    store (world (pe_os s)), errno (pe_os s))) →
  may store m s (λ r en, r = 0 ∧ updated (pe_env s) en name vs) (unharmed (pe_env s)) →
  steps c s.
Proof using.
  intros [Hok Hours] Hn Ha Hrun Hspec [(r & en & (w & E & Ew) & -> & Hok' & Ho' & Hv)|(en & (Hr & w & E & Ew) & Hok' & Hen)];
    unfold steps; rewrite Hrun, (bind_run _ _ _ _ _ E); eexists _, _; (split; [done|]).
  - split; [|split; [done|by apply Ho']].
    pose proof (step_done (refuses (K := K)) c (env_abs s)) as Hst. rewrite Hspec in Hst. cbn [fst snd] in Hst.
    unfold env_abs at 2. cbn [pe_env pe_os world set_world errno]. rewrite Ew.
    rewrite (env_map_put (entries (pe_env s)) (entries en) name vs (proj2 Hn) Hv). exact Hst.
  - split.
    + unfold env_abs. cbn [pe_env pe_os world set_world errno set_errno_]. rewrite Ew.
      assert (env_map (entries en) = env_map (entries (pe_env s))) as ->
        by (apply env_map_same; destruct Hen as [->| ->]; [done|apply owned_strings]).
      by apply step_nomem.
    + split; [done|]. destruct Hen as [->| ->]; [done|by apply ours_owned].
Qed.

Lemma fail_steps c s e : env_inv s → run_env_call junk c = (r <- fail e ;; ret (RInt r)) →
  env_spec c (env_abs s) = (RInt (-1), (env_map (entries (pe_env s)), store (world (pe_os s)), e)) →
  steps c s.
Proof using.
  intros Hs Hrun Hspec. unfold steps. rewrite Hrun. exists (RInt (-1)), (Penv (set_errno_ e (pe_os s)) (pe_env s)).
  split; [done|]. split; [|done]. pose proof (step_done (refuses (K := K)) c (env_abs s)) as Hst.
  rewrite Hspec in Hst. exact Hst.
Qed.

Lemma given_values s n : Forall (λ c, c ≠ 61) n → given (env_map (entries (pe_env s))) n = values (entries (pe_env s)) n.
Proof using. intros Hn. unfold given. by rewrite env_map_lookup, default_stack. Qed.

Lemma set_steps name value overwrite s : env_inv s → steps (CSet name value overwrite) s.
Proof using All.
  intros Hs. destruct (decide (name_ok (default [] name))) as [Hn|Hn].
  - set (n := default [] name) in *. destruct Hs as [Hok Ho].
    apply (may_steps _ s (setenv name value overwrite) n
      (set_values overwrite (default [] value) (values (entries (pe_env s)) n))); [by split|done..| |].
    + unfold env_abs. cbn [env_spec]. fold n. rewrite decide_True by done. by rewrite given_values by apply Hn.
    + assert (setenv name value overwrite = setenv (Some n) (Some (default [] value)) overwrite) as ->
        by (destruct name; [by destruct value|by destruct Hn]).
      apply (setenv_may store heap_law); [done..|by apply ours_freeable].
  - apply (fail_steps _ s EINVAL); [done| |].
    + cbn [run_env_call]. unfold setenv. by rewrite bad_name_spec, bool_decide_false.
    + unfold env_abs. cbn [env_spec]. by rewrite decide_False.
Qed.

Lemma unset_steps name s : env_inv s → steps (CUnset name) s.
Proof using All.
  intros Hs. destruct (decide (name_ok (default [] name))) as [Hn|Hn].
  - destruct name as [n|]; [|by destruct Hn]. cbn [default from_option id] in Hn. destruct Hs as [Hok Ho].
    apply (may_steps _ s (unsetenv (Some n)) n (tail (values (entries (pe_env s)) n))); [by split|done..| |].
    + unfold env_abs. cbn [env_spec default from_option id]. rewrite decide_True by done.
      by rewrite given_values by apply Hn.
    + apply (unsetenv_may store heap_law); [done..|by apply ours_freeable].
  - apply (fail_steps _ s EINVAL); [done| |].
    + cbn [run_env_call]. unfold unsetenv. by rewrite bad_name_spec, bool_decide_false.
    + unfold env_abs. cbn [env_spec]. by rewrite decide_False.
Qed.

Lemma call_steps c s : call_ok c → env_inv s → steps c s.
Proof using All. destruct c; [apply get_steps|intros _; apply set_steps|intros _; apply unset_steps]. Qed.

Lemma calls_steps calls s : Forall call_ok calls → env_inv s →
  ∃ rs s', run_calls (run_env_call junk) calls s = Ret rs s' ∧
    env_steps (refuses (K := K)) calls (env_abs s) rs (env_abs s') ∧ env_inv s'.
Proof using All.
  intros Hcalls. revert s. induction Hcalls as [|c calls Hc _ IH]; intros s Hs.
  - exists [], s. split; [done|]. split; [constructor|done].
  - destruct (call_steps c s Hc Hs) as (r & s1 & E1 & H1 & Hs1).
    destruct (IH s1 Hs1) as (rs & s2 & E2 & H2 & Hs2). exists (r :: rs), s2. cbn [run_calls].
    rewrite (bind_run _ _ _ _ _ E1), (bind_run _ _ _ _ _ E2). split; [done|]. split; [|done]. by econstructor.
Qed.
End refines.

(** C12: getenv, setenv and unsetenv implement a map that gives every name the
    values it has in the environment, first one first, over the /env store.
    Whatever sequence of them a program makes, and whatever strings it was
    started with (the same name more than once, or no '=' at all), each call
    does what the map says: getenv gives a name's first value, or what the store
    has for a name without one; setenv puts the value in the first place;
    unsetenv takes the first value away, so that a second one shows; setenv and
    unsetenv of a NULL, empty or '=' name fail with EINVAL and change nothing.
    When the heap refuses an allocation, setenv and unsetenv may fail with
    ENOMEM instead, and then the map is unchanged; when it never does, the
    results are exactly the specified ones.  Nothing changes the store.
    (No putenv, whose strings are not the library's to free; the names asked of
    getenv have no '=', and fit a path component of a request to the server.) *)
Theorem env_refines {K} `{EnvServer K} (junk : bytes) (Hjunk : zlen junk = RC_FS_MSG_MAX) (Hjb : is_bytes junk)
    (calls : list env_call) (Hcalls : Forall call_ok calls) (s : penv K) (Hs : env_inv s) :
  ∃ rs s', run_calls (run_env_call junk) calls s = Ret rs s' ∧ env_inv s' ∧
    env_steps (refuses (K := K)) calls (env_abs s) rs (env_abs s') ∧
    (¬ refuses (K := K) → (rs, env_abs s') = spec_calls env_spec calls (env_abs s)).
Proof.
  destruct (calls_steps junk Hjunk Hjb calls s Hcalls Hs) as (rs & s' & E & Hst & Hs').
  exists rs, s'. split; [done|]. split; [done|]. split; [done|]. intros Hno. by apply (env_steps_spec _ _ _ _ _ Hno).
Qed.

(** ** Concrete runs *)

Lemma bare_env_srv name : ram_srv (env_path name) = (2, name).
Proof.
  unfold ram_srv, env_path. by rewrite bool_decide_true.
Qed.

Lemma ram_heap_serves (n : Z) (s : ram) : ∃ w, heap_alloc n s = Ret true w.
Proof. by exists s. Qed.

#[export] Instance ram_env_server : EnvServer ram.
Proof.
  refine {| store := ram_store; envd := 2 |}.
  - unfold INT_MAX. lia.
  - intros s name _. change (sys_ns_translate (env_path name) 0 100 s) with (Ret (ram_srv (env_path name)) s).
    by rewrite bare_env_srv.
  - intros s req Hz Hb. change (sys_ipc_call 2 RC_FS_READ req s) with (ram_env_call 2 RC_FS_READ req s).
    unfold ram_env_call. destruct (ram_store s !! req_name req) as [v|] eqn:E.
    + rewrite Z.eqb_refl. apply map_lookup_filter_Some in E as [_ [Hv _]]. cbn in Hv.
      destruct (ram_reply_is (zlen v) v req Hz) as [H1 H2]; [unfold RC_FS_MSG_MAX; lia|].
      eexists (zlen v), _, s. by split_and!.
    + eexists (-1), _, s. split_and!; [done..| |done]. by apply ram_reply_is.
  - intros s name v [_ [Hv Hc]]%map_lookup_filter_Some. cbn in Hv, Hc. split; [by apply c_chars_b_sound|done].
  - intros n s. by exists true, s.
Defined.

(** A program started by the shell: LANG is given twice, TERM is in the store
    only. *)
Definition ex_shell : penv ram :=
  Penv (posix_start (Ram ∅ ∅ [] [] 0 [] {[ str "TERM" := str "vt100" ]}))
    (env_start [str "LANG=C"; str "PATH=/bin"; str "noise"; str "LANG=it"; str "HOME=/"]).
Definition ex_calls : list env_call :=
  [CGet (Some (str "TERM")); CSet (Some (str "TERM")) (Some (str "xterm")) false; CGet (Some (str "TERM"));
   CUnset (Some (str "TERM")); CGet (Some (str "TERM")); CSet (Some (str "A=B")) None true;
   CUnset None; CGet (Some (str "HOME"));
   CGet (Some (str "LANG")); CSet (Some (str "LANG")) (Some (str "fr")) true; CGet (Some (str "LANG"));
   CUnset (Some (str "LANG")); CGet (Some (str "LANG")); CUnset (Some (str "LANG")); CGet (Some (str "LANG"))].

Lemma bare_b name : forallb (λ c, (0 <? c) && (c <? 256) && negb (c =? 47)) name = true →
  name ≠ [] ∧ name ≠ [46] ∧ name ≠ [46; 46] → zlen name < 95 → bare name.
Proof.
  intros H (H1 & H2 & H3) Hl. rewrite forallb_forall in H. split; [|split; [split; [done|split; [|done]]|done]].
  - apply Forall_forall. intros c Hc. apply list_elem_of_In, H in Hc. lia.
  - intros Hc. apply list_elem_of_In, H in Hc. lia.
Qed.

Lemma env_refines_witness :
  ∃ s', run_calls (run_env_call ex_junk) ex_calls ex_shell =
      Ret [RVal (Some (str "vt100")); RInt 0; RVal (Some (str "xterm")); RInt 0; RVal (Some (str "vt100"));
           RInt (-1); RInt (-1); RVal (Some (str "/"));
           RVal (Some (str "C")); RInt 0; RVal (Some (str "fr")); RInt 0; RVal (Some (str "it")); RInt 0; RVal None] s' ∧
    env_abs s' = (spec_calls env_spec ex_calls (env_abs ex_shell)).2 ∧ env_inv s'.
Proof.
  assert (Forall call_ok ex_calls) as Hcalls.
  { unfold ex_calls. repeat apply Forall_cons_2; try exact I; [..|apply Forall_nil_2].
    all: split; [apply bare_b; done|by apply no_eq_b]. }
  destruct (env_refines ex_junk ex_junk_len ex_junk_bytes ex_calls Hcalls ex_shell (env_inv_start _ _))
    as (rs & s' & E & Hinv & _ & Hspec).
  specialize (Hspec (proj2 (serves ram_heap_serves))).
  exists s'. rewrite <- Hspec. split; [|split; [done|exact Hinv]]. rewrite E. f_equal.
  transitivity (spec_calls env_spec ex_calls (env_abs ex_shell)).1; [by rewrite <- Hspec|]. vm_compute. reflexivity.
Defined.

(** What unsetenv removes comes back from the store: a program cannot unset a
    variable its parent shell has. *)
Theorem unsetenv_store_shows {K} `{EnvServer K} (junk : bytes) (Hjunk : zlen junk = RC_FS_MSG_MAX) (Hjb : is_bytes junk)
    (name value : bytes) (s : penv K) (Hn : bare name) (Heq : Forall (λ c, c ≠ 61) name) (Hs : env_inv s)
    (Hserves : ¬ refuses (K := K)) (Honce : (length (values (entries (pe_env s)) name) ≤ 1)%nat)
    (Hv : store (world (pe_os s)) !! name = Some value) :
  ∃ s' s'', unsetenv (Some name) s = Ret 0 s' ∧ getenv junk (Some name) s' = Ret (Some value) s''.
Proof.
  assert (name_ok name) as Hok by (split; [apply Hn|done]).
  destruct (unsetenv_may store heap_law name s Hok (proj1 Hs) (ours_freeable _ name (proj2 Hs)))
    as [(r & en & (w & E & Ew) & -> & Hok' & _ & Hvals)|(en & (Hr & _) & _)]; [|done].
  eexists. destruct (getenv_missing junk Hjunk Hjb name (Penv (set_world w (pe_os s)) en) Hn Heq) as (w2 & Ew2 & E').
  { cbn [pe_env]. rewrite Hvals, decide_True by done. destruct (values (entries (pe_env s)) name) as [|v [|]]; simpl in *; [done..|lia]. }
  cbn [pe_os world set_world] in *. eexists. split; [exact E|]. by rewrite E', Ew2, Ew, Hv.
Qed.
