(* ===== verification/Time.v ===== *)
(** Time: src/lib/racccoon-libc/src/time.c.

    The clocks read the time CSR ([rdtime]) and its rate; the calendar functions
    all describe one fixed moment.  Unsigned arithmetic wraps at 64 bits as in
    C; a time stored through a pointer is returned next to the result.  The
    double difftime returns is a binary64 number of the Standard Library. *)
From S2P Require Import Prelude Ieee Rounding CMonad CBuffer Kernel RcFs RcFd RcPosix.

(** include/time.h *)
Definition CLOCKS_PER_SEC : Z := 1000000.
Definition CLOCK_REALTIME : Z := 0.
Definition CLOCK_MONOTONIC : Z := 1.
Definition TIME_UTC : Z := 1.

Record tm := Tm {
  tm_sec : Z; tm_min : Z; tm_hour : Z; tm_mday : Z; tm_mon : Z; tm_year : Z;
  tm_wday : Z; tm_yday : Z; tm_isdst : Z;
}.
#[export] Instance tm_eq_dec : EqDecision tm.
Proof. solve_decision. Defined.

(** [struct timespec], and [struct timeval] with microseconds *)
Record timespec := Timespec { tv_sec : Z; tv_nsec : Z }.

Definition RC_FIXED_TIME : Z := 1780272000.
Definition rc_fixed_tm : tm := {|
  tm_sec := 0; tm_min := 0; tm_hour := 0; tm_mday := 1; tm_mon := 5; tm_year := 126;
  tm_wday := 1; tm_yday := 151; tm_isdst := 0;
|}.

Definition time : Z := RC_FIXED_TIME.
Definition localtime (t : Z) : tm := rc_fixed_tm.
Definition gmtime (t : Z) : tm := rc_fixed_tm.
Definition localtime_r (t : Z) : tm := rc_fixed_tm.
Definition gmtime_r (t : Z) : tm := rc_fixed_tm.
(** [(double)(a - b)]; the subtraction is of signed 64-bit times, and the
    conversion rounds to nearest, ties to even. *)
Definition difftime {S} (a b : Z) : M S spec_float :=
  if decide (LLONG_MIN ≤ a - b ≤ LLONG_MAX) then ret (binary_normalize 53 1024 (a - b) 0 false)
  else fault.
Definition mktime (t : tm) : Z := RC_FIXED_TIME.
Definition asctime (t : tm) : bytes := str "Mon Jun  1 00:00:00 2026" ++ [10].
Definition ctime (t : Z) : bytes := asctime rc_fixed_tm.
(** The bytes stored in [s], and the result. *)
Definition strftime (max : Z) : bytes * Z := if max =? 0 then ([], 0) else ([0], 0).
Definition strftime_l (max : Z) : bytes * Z := strftime max.

Section time.
Context {K : Type} `{!Kernel K}.
Abbreviation P := (posix K).

Definition rc_rdtime : M P Z := t <- sys rdtime ;; ret (u64 t).

(** [(t / hz) * unit + ((t % hz) * unit) / hz], as unsigned long *)
Definition clock : M P Z :=
  hz <- sys __rc_timebase_hz ;;
  if hz =? 0 then ret (-1)
  else
    t <- rc_rdtime ;;
    ret (s64 (u64 (u64 (t / hz * CLOCKS_PER_SEC) + u64 (t mod hz * CLOCKS_PER_SEC) / hz))).

Definition gettimeofday : M P (Z * timespec) :=
  hz <- sys __rc_timebase_hz ;;
  t <- rc_rdtime ;;
  let hz := if hz =? 0 then 1 else hz in
  ret (0, Timespec (s64 (t / hz)) (s64 (u64 (t mod hz * 1000000) / hz))).

Definition clock_gettime (clk : Z) : M P (option timespec) :=
  hz <- sys __rc_timebase_hz ;;
  let hz := if hz =? 0 then 1 else hz in
  if negb (clk =? CLOCK_REALTIME) && negb (clk =? CLOCK_MONOTONIC) then set_errno EINVAL ;; ret None
  else
    t <- rc_rdtime ;;
    let sec := s64 (t / hz) in
    let nsec := s64 (u64 (t mod hz * 1000000000) / hz) in
    if clk =? CLOCK_REALTIME then
      if decide (sec + RC_FIXED_TIME ≤ LLONG_MAX) then ret (Some (Timespec (sec + RC_FIXED_TIME) nsec)) else fault
    else ret (Some (Timespec sec nsec)).

Definition clock_getres (clk : Z) : M P (option timespec) :=
  if negb (clk =? CLOCK_REALTIME) && negb (clk =? CLOCK_MONOTONIC) then set_errno EINVAL ;; ret None
  else
    hz <- sys __rc_timebase_hz ;;
    ret (Some (Timespec 0 (if negb (hz =? 0) then s64 (1000000000 / hz) else 1))).

Definition timespec_get (base : Z) : M P (Z * option timespec) :=
  if base =? TIME_UTC then
    ts <- clock_gettime CLOCK_REALTIME ;;
    ret (match ts with Some t => (base, Some t) | None => (0, None) end)
  else ret (0, None).

(** The result, and [*rem] if it was stored. *)
Definition nanosleep (req : timespec) : M P (Z * option timespec) :=
  if (tv_sec req <? 0) || (tv_nsec req <? 0) || (1000000000 <=? tv_nsec req) then
    set_errno EINVAL ;; ret (-1, None)
  else
    hz <- sys __rc_timebase_hz ;;
    if hz =? 0 then ret (0, None)
    else
      let ticks := u64 (u64 (tv_sec req * hz) + u64 (tv_nsec req * hz) / 1000000000) in
      if ticks =? 0 then ret (0, None)
      else
        start <- rc_rdtime ;;
        r <- sys (sys_await 0 (s64 ticks)) ;;
        if (0 <=? r) && has r RC_AW_NOTE then
          now <- rc_rdtime ;;
          let done := u64 (now - start) in
          let left := if done <? ticks then ticks - done else 0 in
          set_errno EINTR ;;
          ret (-1, Some (Timespec (s64 (left / hz)) (s64 (u64 (left mod hz * 1000000000) / hz))))
        else ret (0, Some (Timespec 0 0)).
End time.

(** * Scaling the counter *)

(** Splitting the division keeps the exact value: what one division of the full
    product would give, without the product. *)
Lemma scale_split t hz unit : 0 ≤ t → 0 < hz → 0 ≤ unit →
  t / hz * unit + t mod hz * unit / hz = t * unit / hz.
Proof.
  intros Ht Hhz Hu. rewrite (Z.div_mod t hz) at 3 by lia.
  replace ((hz * (t / hz) + t mod hz) * unit) with (t / hz * unit * hz + t mod hz * unit) by lia.
  by rewrite Z.div_add_l by lia.
Qed.

(** The part below a second. *)
Lemma scale_below t hz unit : 0 ≤ t → 0 < hz → 0 < unit → 0 ≤ t mod hz * unit / hz < unit.
Proof.
  intros. pose proof (Z.mod_pos_bound t hz ltac:(lia)). split; [apply Z.div_pos; nia|].
  apply Z.div_lt_upper_bound; nia.
Qed.

Lemma div_le_self a b : 0 ≤ a → 0 < b → a / b ≤ a.
Proof. intros. apply Z.div_le_upper_bound; nia. Qed.

(** What is left of [s] seconds and [n] nanoseconds, counted in ticks. *)
Lemma ticks_left left s n f hz : 0 < hz → f * 1000000000 ≤ n * hz → left ≤ s * hz + f →
  left * 1000000000 / hz ≤ s * 1000000000 + n.
Proof. intros. apply Z.div_le_upper_bound; nia. Qed.

Section clocks.
Context {K : Type} `{!Kernel K}.
Implicit Types (p : posix K).

Lemma timebase_run p hz w : sys_timebase (world p) = Ret hz w → 0 ≤ hz < 18446744073709551616 →
  sys __rc_timebase_hz p = Ret hz (set_world w p).
Proof using.
  intros E Hhz. apply sys_run. unfold __rc_timebase_hz. rewrite (bind_run _ _ _ _ _ E).
  unfold ret. by rewrite u64_id.
Qed.

Lemma rdtime_run p t w : rdtime (world p) = Ret t w → 0 ≤ t < 18446744073709551616 →
  rc_rdtime p = Ret t (set_world w p).
Proof using.
  intros E Ht. unfold rc_rdtime. rewrite (bind_run _ _ _ _ _ (sys_run _ _ _ _ E)). unfold ret. by rewrite u64_id.
Qed.
End clocks.

(** Clock is the counter scaled to microseconds exactly, floor(t * 10^6 / hz),
    although the product t * 10^6 would overflow 64 bits within days. *)
Theorem clock_correct {K} `{Kernel K} (p : posix K) (hz t : Z) (w1 w2 : K)
    (Hhz : sys_timebase (world p) = Ret hz w1) (Ht : rdtime w1 = Ret t w2)
    (Hrange : 0 < hz ≤ 1000000000000) (Htr : 0 ≤ t < 18446744073709551616)
    (Hfits : t * 1000000 / hz ≤ LLONG_MAX) :
  clock p = Ret (t * 1000000 / hz) (set_world w2 p).
Proof.
  unfold LLONG_MAX in Hfits. unfold clock.
  rewrite (bind_run _ _ _ _ _ (timebase_run p hz w1 Hhz ltac:(lia))).
  replace (hz =? 0) with false by lia.
  rewrite (bind_run _ _ _ _ _ (rdtime_run (set_world w1 p) t w2 Ht Htr)). rewrite set_world_world.
  unfold ret, CLOCKS_PER_SEC. do 2 f_equal.
  pose proof (scale_split t hz 1000000 ltac:(lia) ltac:(lia) ltac:(lia)) as E.
  pose proof (scale_below t hz 1000000 ltac:(lia) ltac:(lia) ltac:(lia)) as Hb.
  pose proof (Z.mod_pos_bound t hz ltac:(lia)). pose proof (Z.div_pos t hz ltac:(lia) ltac:(lia)).
  set (q := t / hz) in *. set (r := t mod hz) in *. set (v := t * 1000000 / hz) in *.
  assert (0 ≤ r * 1000000 < 18446744073709551616) by lia.
  rewrite (u64_id (r * 1000000)) by lia. set (x := r * 1000000 / hz) in *.
  clearbody q r v x. rewrite (u64_id (q * 1000000)) by lia. rewrite u64_id by lia.
  rewrite s64_id by (unfold LLONG_MIN, LLONG_MAX; lia). done.
Qed.

(** The monotonic clock: a valid timespec (below 10^9 nanoseconds) that says
    exactly how many nanoseconds the counter stands for, rounded down. *)
Theorem clock_gettime_monotonic {K} `{Kernel K} (p : posix K) (hz t : Z) (w1 w2 : K)
    (Hhz : sys_timebase (world p) = Ret hz w1) (Ht : rdtime w1 = Ret t w2)
    (Hrange : 2 ≤ hz ≤ 10000000000) (Htr : 0 ≤ t < 18446744073709551616) :
  ∃ ts, clock_gettime CLOCK_MONOTONIC p = Ret (Some ts) (set_world w2 p) ∧
    0 ≤ tv_nsec ts < 1000000000 ∧ tv_sec ts * 1000000000 + tv_nsec ts = t * 1000000000 / hz.
Proof.
  unfold clock_gettime.
  rewrite (bind_run _ _ _ _ _ (timebase_run p hz w1 Hhz ltac:(lia))). cbn zeta.
  replace (hz =? 0) with false by lia. change (negb (CLOCK_MONOTONIC =? CLOCK_REALTIME) && _) with false. cbn iota.
  rewrite (bind_run _ _ _ _ _ (rdtime_run (set_world w1 p) t w2 Ht Htr)). rewrite set_world_world.
  change (CLOCK_MONOTONIC =? CLOCK_REALTIME) with false. cbn iota.
  pose proof (scale_split t hz 1000000000 ltac:(lia) ltac:(lia) ltac:(lia)) as E.
  pose proof (scale_below t hz 1000000000 ltac:(lia) ltac:(lia) ltac:(lia)) as Hb.
  pose proof (Z.mod_pos_bound t hz ltac:(lia)). pose proof (Z.div_pos t hz ltac:(lia) ltac:(lia)).
  assert (t / hz < 9223372036854775808) by (apply Z.div_lt_upper_bound; nia).
  set (q := t / hz) in *. set (r := t mod hz) in *. set (v := t * 1000000000 / hz) in *.
  rewrite (u64_id (r * 1000000000)) by lia. set (x := r * 1000000000 / hz) in *.
  clearbody q r v x. eexists. split; [reflexivity|]. cbn [tv_sec tv_nsec].
  rewrite !s64_id by (unfold LLONG_MIN, LLONG_MAX; lia). lia.
Qed.

(** An interrupted nanosleep reports a valid remaining time, never more than
    was asked for. *)
Theorem nanosleep_remaining {K} `{Kernel K} (p : posix K) (req : timespec) (hz t t' r : Z) (w1 w2 w3 w4 : K)
    (Hhz : sys_timebase (world p) = Ret hz w1) (Ht : rdtime w1 = Ret t w2)
    (Hawait : sys_await 0 (tv_sec req * hz + tv_nsec req * hz / 1000000000) w2 = Ret r w3)
    (Hnote : 0 ≤ r ∧ has r RC_AW_NOTE = true) (Ht' : rdtime w3 = Ret t' w4)
    (Hrange : 2 ≤ hz ≤ 10000000000) (Htr : 0 ≤ t < 18446744073709551616) (Htr' : 0 ≤ t' < 18446744073709551616)
    (Hsec : 0 ≤ tv_sec req) (Hnsec : 0 ≤ tv_nsec req < 1000000000)
    (Hsome : 0 < tv_sec req * hz + tv_nsec req * hz / 1000000000)
    (Hfits : tv_sec req * hz + hz ≤ LLONG_MAX) :
  ∃ rem, nanosleep req p = Ret (-1, Some rem) (set_errno_ EINTR (set_world w4 p)) ∧
    0 ≤ tv_sec rem ∧ 0 ≤ tv_nsec rem < 1000000000 ∧
    tv_sec rem * 1000000000 + tv_nsec rem ≤ tv_sec req * 1000000000 + tv_nsec req.
Proof.
  destruct req as [s n]. cbn [tv_sec tv_nsec] in *. unfold LLONG_MAX in Hfits. destruct Hnote as [Hr Hn].
  unfold nanosleep. cbn [tv_sec tv_nsec].
  replace ((s <? 0) || (n <? 0) || (1000000000 <=? n)) with false by lia.
  rewrite (bind_run _ _ _ _ _ (timebase_run p hz w1 Hhz ltac:(lia))). replace (hz =? 0) with false by lia.
  assert (0 ≤ n * hz / 1000000000 ≤ hz) as Hnz by (split; [apply Z.div_pos; nia|apply Z.div_le_upper_bound; nia]).
  assert (n * hz / 1000000000 * 1000000000 ≤ n * hz) as Hfl
    by (pose proof (Z.mul_div_le (n * hz) 1000000000 ltac:(lia)); lia).
  assert (0 ≤ n * hz < 18446744073709551616) by nia.
  rewrite (u64_id (n * hz)) by lia. set (f := n * hz / 1000000000) in *.
  assert (0 ≤ s * hz) by nia. rewrite (u64_id (s * hz)), (u64_id (s * hz + f)) by lia. cbn zeta.
  set (ticks := s * hz + f) in *. replace (ticks =? 0) with false by lia.
  rewrite (bind_run _ _ _ _ _ (rdtime_run (set_world w1 p) t w2 Ht Htr)). rewrite set_world_world.
  rewrite s64_id by (unfold LLONG_MIN, LLONG_MAX; lia).
  rewrite (bind_run _ _ _ _ _ (sys_run _ _ _ (set_world w2 p) Hawait)). rewrite set_world_world.
  replace (0 <=? r) with true by lia. rewrite Hn. cbn [andb].
  rewrite (bind_run _ _ _ _ _ (rdtime_run (set_world w3 p) t' w4 Ht' Htr')). rewrite set_world_world.
  set (done_ := u64 (t' - t)). assert (0 ≤ done_) by (unfold done_, u64; lia).
  set (left := if done_ <? ticks then ticks - done_ else 0).
  assert (0 ≤ left ≤ ticks) as Hleft by (unfold left; destruct (Z.ltb_spec done_ ticks); lia).
  clearbody left done_.
  pose proof (scale_split left hz 1000000000 ltac:(lia) ltac:(lia) ltac:(lia)) as E.
  pose proof (scale_below left hz 1000000000 ltac:(lia) ltac:(lia) ltac:(lia)) as Hb.
  pose proof (Z.mod_pos_bound left hz ltac:(lia)). pose proof (Z.div_pos left hz ltac:(lia) ltac:(lia)).
  assert (left / hz ≤ left) by (apply div_le_self; lia).
  pose proof (ticks_left left s n f hz ltac:(lia) Hfl ltac:(unfold ticks in Hleft; lia)).
  set (q := left / hz) in *. set (m := left mod hz) in *. set (v := left * 1000000000 / hz) in *.
  rewrite (u64_id (m * 1000000000)) by lia. set (x := m * 1000000000 / hz) in *.
  clearbody q m v x. eexists. split; [reflexivity|]. cbn [tv_sec tv_nsec].
  rewrite !s64_id by (unfold LLONG_MIN, LLONG_MAX; lia). lia.
Qed.

(** ** The calendar *)

(** The UTC date of a day number since 1970-01-01 (a Thursday), by walking the
    years and the months. *)
Definition leap (y : Z) : bool := (y mod 4 =? 0) && (negb (y mod 100 =? 0) || (y mod 400 =? 0)).
Definition month_lengths (y : Z) : list Z :=
  [31; if leap y then 29 else 28; 31; 30; 31; 30; 31; 31; 30; 31; 30; 31].
Fixpoint year_of (fuel : nat) (y d : Z) : Z * Z :=
  match fuel with
  | O => (y, d)
  | S fuel => let n := if leap y then 366 else 365 in if d <? n then (y, d) else year_of fuel (y + 1) (d - n)
  end.
Fixpoint month_of (ms : list Z) (m d : Z) : Z * Z :=
  match ms with [] => (m, d) | n :: ms => if d <? n then (m, d) else month_of ms (m + 1) (d - n) end.
Definition utc (t : Z) : tm :=
  let '(days, secs) := (t / 86400, t mod 86400) in
  let '(y, yday) := year_of (Z.to_nat (days / 365 + 1)) 1970 days in
  let '(m, mday) := month_of (month_lengths y) 0 yday in
  Tm (secs mod 60) (secs / 60 mod 60) (secs / 3600) (mday + 1) m (y - 1900) ((days + 4) mod 7) yday 0.

(** The one moment time.c knows is told consistently: gmtime of time() is
    the UTC date and time of the timestamp, and mktime takes it back. *)
Theorem fixed_time_consistent : gmtime time = utc time ∧ mktime (gmtime time) = time.
Proof. split; vm_compute; reflexivity. Qed.

(** ** difftime *)

(** The float is the integer [d], with no fraction lost. *)
Definition float_is (d : Z) (f : spec_float) : Prop :=
  match f with
  | S754_zero _ => d = 0
  | S754_finite s m e => e ≤ 0 ∧ Zpos m = Z.abs d * 2 ^ (- e) ∧ s = (d <? 0)
  | _ => False
  end.

Lemma round_exact s p : Zpos p < 2 ^ 53 →
  ∃ m e, binary_round 53 1024 s p 0 = S754_finite s m e ∧ e ≤ 0 ∧ Zpos m = Zpos p * 2 ^ (- e).
Proof.
  intros Hp. destruct (fits_round 53 1024 ltac:(done) ltac:(done) s p 0) as (m & e & E & Hb & Hv).
  { apply fits_small; unfold emin; lia. }
  exists m, e. split; [done|]. destruct (bounded_exp 53 1024 ltac:(done) ltac:(done) m e Hb) as (Hc & _ & _ & _).
  destruct (Z_lt_le_dec 0 e) as [He|He].
  - exfalso. specialize (Hv 0 ltac:(lia) ltac:(lia)). rewrite Z.pow_0_r, Z.sub_0_r in Hv.
    assert (Zdigits2 (Zpos m) = 53) as Hd by (unfold fexp, emin in Hc; lia).
    destruct (Zdigits2_bounds (Zpos m)) as [[Hl _] _]; [done|]. rewrite Hd in Hl.
    pose proof (pow2_pos (e - 1) ltac:(lia)). replace e with (e - 1 + 1) in Hv by lia. rewrite pow2_S in Hv by lia. nia.
  - split; [done|]. specialize (Hv e He ltac:(lia)). rewrite Z.sub_diag in Hv. rewrite Z.sub_0_l in Hv. lia.
Qed.

(** difftime is exact while the difference has at most 53 bits, which is for
    any two times less than 285 million years apart. *)
Theorem difftime_exact {S} (a b : Z) (st : S) : Z.abs (a - b) < 2 ^ 53 →
  ∃ f, difftime a b st = Ret f st ∧ float_is (a - b) f.
Proof.
  intros Hd. unfold difftime. rewrite decide_True by (unfold LLONG_MIN, LLONG_MAX; lia).
  eexists. split; [done|]. destruct (a - b) as [|p|p] eqn:E; [done| |]; cbn [binary_normalize].
  all: destruct (round_exact (a - b <? 0) p) as (m & e & Hm & He & Hv); [lia|].
  all: rewrite E in Hm; cbn in Hm.
  - rewrite Hm. cbn. split; [done|]. split; [exact Hv|done].
  - rewrite Hm. cbn. split; [done|]. split; [exact Hv|done].
Qed.

(** ** Waiting

    What the counter promises: each reading is later than the one before, by at
    most [step], whatever it is modulo 2^64. *)
Definition ticking {K} `{Kernel K} (clock : K → Z) (step : Z) : Prop :=
  ∀ w, ∃ t w', rdtime w = Ret t w' ∧ u64 t = u64 (clock w') ∧ clock w < clock w' ≤ clock w + step.

Lemma u64_sub a b : u64 (a - b) = u64 (u64 a - u64 b).
Proof. unfold u64. by rewrite Zminus_mod. Qed.

(** C40: usleep comes back, and not too early: on any counter that goes on
    ticking, read in any steps and wrapping around at 2^64, it returns 0 after the
    ticks of the time asked for have passed and at most two readings later, and
    changes nothing. *)
Theorem usleep_returns {K} `{Kernel K} (clock : K → Z) (step usec hz : Z) (p : posix K) (w1 : K)
    (Hhz : sys_timebase (world p) = Ret hz w1) (Hpos : 0 < hz < 18446744073709551616)
    (Husec : 0 ≤ usec < 4294967296) (Hfits : usec * hz < 18446744073709551616)
    (Hclock : ticking clock step) (Hstep : 0 ≤ step ≤ 1000000000000) :
  ∃ w, usleep usec p = Ret 0 (set_world w p) ∧
    usec * hz / 1000000 ≤ clock w - clock w1 ≤ usec * hz / 1000000 + 2 * step.
Proof.
  unfold usleep. rewrite (bind_run _ _ _ _ _ (timebase_run p hz w1 Hhz ltac:(lia))).
  replace (hz =? 0) with false by lia. rewrite (u64_id (usec * hz)) by nia. cbn zeta.
  set (ticks := usec * hz / 1000000).
  assert (0 ≤ ticks ≤ 18446744073710) as Hticks by (subst ticks; split; [apply Z.div_pos; nia|apply Z.div_le_upper_bound; lia]).
  destruct (Hclock w1) as (start & w2 & E2 & Hs & Hc2).
  rewrite (bind_run _ _ _ _ _ (sys_run _ _ _ (set_world w1 p) E2)). rewrite set_world_world.
  match goal with |- context [bind (loop ?b tt) _] => set (body := b) end.
  assert (wp (loop body tt) (λ _ s, ∃ w, s = set_world w p ∧ ticks ≤ clock w - clock w2 ≤ ticks + step)
    (set_world w2 p)) as Hw.
  { apply (wp_loop body (λ _ s, ∃ w, s = set_world w p ∧ 0 ≤ clock w - clock w2 ∧ (clock w - clock w2 < ticks ∨ w = w2))
      (λ _ s, ticks + 1 - (clock (world s) - clock w2))).
    - intros [] s (w & -> & ?). cbn. destruct H0 as [? [?| ->]]; lia.
    - intros [] s (w & -> & H0 & Hlt). destruct (Hclock w) as (now & w' & E & Hn & Hc).
      subst body. cbn beta. apply wp_bind. eapply wp_of_eq; [apply (sys_run _ _ _ (set_world w p) E)|].
      rewrite set_world_world. assert (u64 (now - start) = clock w' - clock w2) as Hd.
      { rewrite u64_sub, Hn, Hs, <- u64_sub. apply u64_id. destruct Hlt as [?| ->]; lia. }
      rewrite Hd. cbn. destruct (Z.ltb_spec (clock w' - clock w2) ticks).
      + apply wp_ret. cbn. split; [|lia]. exists w'. split; [done|]. lia.
      + apply wp_ret. exists w'. split; [done|]. destruct Hlt as [?| ->]; lia.
    - exists w2. split; [done|]. split; [lia|by right].
    - cbn. lia. }
  apply wp_inv in Hw as ([] & s & E & w & -> & Hb). exists w. rewrite (bind_run _ _ _ _ _ E). split; [done|lia].
Qed.

(** ** Concrete runs *)

From S2P Require Import Ram.

Definition ex_time_p : posix ram := posix_start (ex_ram (str "/tmp/a") []).
Definition ex_now : Z := match rdtime (world ex_time_p) with Ret t _ => t | _ => 0 end.
Definition ex_later : ram := match rdtime (world ex_time_p) with Ret _ w => w | _ => world ex_time_p end.

Lemma clock_correct_witness : clock ex_time_p = Ret (ex_now * 1000000 / 10000000) (set_world ex_later ex_time_p).
Proof.
  apply (clock_correct ex_time_p 10000000 ex_now (world ex_time_p) ex_later);
    [reflexivity|reflexivity|lia|vm_compute; split; [discriminate|reflexivity]|vm_compute; discriminate].
Defined.

Lemma clock_gettime_monotonic_witness :
  ∃ ts, clock_gettime CLOCK_MONOTONIC ex_time_p = Ret (Some ts) (set_world ex_later ex_time_p) ∧
    0 ≤ tv_nsec ts < 1000000000 ∧ tv_sec ts * 1000000000 + tv_nsec ts = ex_now * 1000000000 / 10000000.
Proof.
  apply (clock_gettime_monotonic ex_time_p 10000000 ex_now (world ex_time_p) ex_later);
    [reflexivity|reflexivity|lia|vm_compute; split; [discriminate|reflexivity]].
Defined.

Lemma nanosleep_remaining_witness :
  ∃ rem, nanosleep (Timespec 1 500000000) ex_time_p =
      Ret (-1, Some rem) (set_errno_ EINTR (set_world (out_state (world ex_time_p) (rdtime ex_later)) ex_time_p)) ∧
    0 ≤ tv_sec rem ∧ 0 ≤ tv_nsec rem < 1000000000 ∧
    tv_sec rem * 1000000000 + tv_nsec rem ≤ 1 * 1000000000 + 500000000.
Proof.
  apply (nanosleep_remaining ex_time_p (Timespec 1 500000000) 10000000 ex_now (ex_now + 1000) 8
    (world ex_time_p) ex_later ex_later (out_state (world ex_time_p) (rdtime ex_later)));
    try reflexivity; vm_compute; repeat split; discriminate.
Defined.

(** One millisecond of the 10 MHz counter, which advances 1000 ticks per reading. *)
Lemma usleep_returns_witness :
  ∃ w, usleep 1000 ex_time_p = Ret 0 (set_world w ex_time_p) ∧
    1000 * 10000000 / 1000000 ≤ (ram_time w - 1000) - (ram_time (world ex_time_p) - 1000)
      ≤ 1000 * 10000000 / 1000000 + 2 * 1000.
Proof.
  apply (usleep_returns (λ w, ram_time w - 1000) 1000 1000 10000000 ex_time_p (world ex_time_p)); try lia; try reflexivity.
  intros w. exists (ram_time w), (out_state w (rdtime w)). split; [reflexivity|]. cbn [out_state rdtime ram_kernel ram_time].
  split; [f_equal; lia|lia].
Defined.
