(* ===== verification/Start.v ===== *)
(** Starting and ending a program: src/lib/racccoon-libc/src/libc_start.c,
    exit.c, and the atexit table of stdlib.c.

    [prog K A] is the state of a running program: stdio, the atexit table, and
    the program's own state [A].  A function pointer is a number; [call] runs
    one with its argument, [main] is the program's main, [init] and [fini] are
    the arrays of constructors and destructors: computations on the same state,
    so a handler may itself call atexit or exit.  The exec blob is the memory
    [mem] from the blob's base on, however long; a read outside is a [Fault]. *)
From S2P Require Import Prelude CMonad CMemory CBuffer Kernel RcFs RcFd RcPosix Stdio.

Definition ATEXIT_MAX : Z := 256.
Definition LIBC_ARGV_MAX : Z := 64.
Definition LIBC_ENV_MAX : Z := 62.
Definition LIBC_ARGV0_MARK : Z := 1.
Definition LIBC_ENV_MARK : Z := 2.
Definition libc_argv0 : bytes := str "racccoon-prog".

(** ** The exec blob *)

(** [while ( *p) p++; p++;] from [p]: the string there, and what is behind it. *)
Definition blob_string {S} (mem : bytes) (p : Z) : M S (bytes * Z) :=
  let* (s, q) := loop (λ '(s, q),
    c <- of_option (idx mem q) ;;
    if c =? 0 then ret (Break (s, q)) else ret (Continue (s ++ [c], q + 1))) ([], p) in
  ret (s, q + 1).

(** [n] strings *)
Definition blob_strings {S} (mem : bytes) (n p : Z) : M S (list bytes * Z) :=
  loop (λ '(i, acc, p),
    if i <? n then let* (s, p) := blob_string mem p in ret (Continue (i + 1, acc ++ [s], p))
    else ret (Break (acc, p))) (0, [], p).

(** [while ( *p && e < LIBC_ENV_MAX)] *)
Definition blob_env {S} (mem : bytes) (p : Z) : M S (list bytes) :=
  loop (λ '(acc, p),
    c <- of_option (idx mem p) ;;
    if negb (c =? 0) && (zlen acc <? LIBC_ENV_MAX) then
      let* (s, p) := blob_string mem p in ret (Continue (acc ++ [s], p))
    else ret (Break acc)) ([], p).

(** What main gets: its argument vector, and the environment. *)
Definition start_args {S} (argc : Z) (mem : bytes) : M S (list bytes * list bytes) :=
  let n := if argc <? 0 then 0 else argc in
  let n := if LIBC_ARGV_MAX <? n then LIBC_ARGV_MAX else n in
  marked <- (if 0 <? argc then c <- of_option (idx mem 0) ;; ret (c =? LIBC_ARGV0_MARK) else ret false) ;;
  if marked : bool then
    let* (argv, p) := blob_strings mem n 1 in
    c <- of_option (idx mem p) ;;
    envp <- (if c =? LIBC_ENV_MARK then blob_env mem (p + 1) else ret []) ;;
    ret (argv, envp)
  else if n =? 0 then ret ([libc_argv0], [])
  else let* (argv, _) := blob_strings mem n 0 in ret (argv, []).

(** ** The program *)

Record prog (K A : Type) := Prog {
  pg_io : stdio K;
  pg_fns : list (Z * Z);     (* __libc_atexit_fns, the first __libc_atexit_n *)
  pg_app : A;
}.
Arguments Prog {K A}.
Arguments pg_io {K A}.
Arguments pg_fns {K A}.
Arguments pg_app {K A}.

Section program.
Context {K A : Type} `{!Kernel K} (junk : bytes).
Abbreviation G := (prog K A).
Context (call : Z → Z → M G unit) (init fini : list (M G unit)) (main : list bytes → list bytes → M G Z).

Definition set_io (i : stdio K) (s : G) : G := Prog i (pg_fns s) (pg_app s).
Program Definition io_lens : lens G (stdio K) := Lens _ _ pg_io set_io _ _ _.
Next Obligation. done. Qed.
Next Obligation. by intros []. Qed.
Next Obligation. done. Qed.
Definition io {B} (c : M (stdio K) B) : M G B := zoom io_lens c.
Definition set_fns (l : list (Z * Z)) (s : G) : G := Prog (pg_io s) l (pg_app s).

Definition __cxa_atexit (fn arg : Z) : M G Z :=
  s <- get ;;
  if ATEXIT_MAX <=? zlen (pg_fns s) then ret (-1)
  else put (set_fns (pg_fns s ++ [(fn, arg)]) s) ;; ret 0.
Definition atexit (fn : Z) : M G Z := __cxa_atexit fn 0.
Definition __cxa_thread_atexit (fn obj : Z) : M G Z := __cxa_atexit fn obj.
Definition __cxa_thread_atexit_impl (fn obj : Z) : M G Z := __cxa_atexit fn obj.

(** One after the other. *)
Fixpoint run_all (l : list (M G unit)) : M G unit :=
  match l with [] => ret tt | c :: l => c ;; run_all l end.

Definition _exit {B} (code : Z) : M G B := halt code.
Definition _Exit {B} (code : Z) : M G B := _exit code.
Definition abort {B} : M G B := _exit 134.

(** The handlers, last registered first. *)
Definition run_handlers : M G unit :=
  loop (λ _,
    s <- get ;;
    match last (pg_fns s) with
    | None => ret (Break tt)
    | Some (fn, arg) =>
        put (set_fns (take (length (pg_fns s) - 1) (pg_fns s)) s) ;;
        call fn arg ;; ret (Continue tt)
    end) tt.

Definition exit {B} (code : Z) : M G B :=
  run_handlers ;;
  run_all (reverse fini) ;;
  io (__libc_stdio_exit_flush junk) ;;
  _exit code.

Definition run_init_arrays : M G unit := run_all init.

Definition __libc_start {B} (argc : Z) (mem : bytes) : M G B :=
  let* (argv, envp) := start_args argc mem in
  run_init_arrays ;;
  code <- main argv envp ;;
  exit code.
End program.

(** * The blob read back *)

(** A string in the blob: no NUL inside. *)
Lemma blob_string_run {S} mem p s rest (st : S) : c_chars s → dropZ p mem = s ++ 0 :: rest → 0 ≤ p →
  zlen mem < 18446744073709551616 →
  blob_string mem p st = Ret (s, p + zlen s + 1) st.
Proof.
  intros Hs E Hp Hm. unfold blob_string. pose proof (zlen_nonneg s).
  assert (∀ k, 0 ≤ k → idx mem (p + k) = idx (s ++ 0 :: rest) k) as Hi by (intros; by rewrite <- E, idx_dropZ by lia).
  assert (zlen s < 18446744073709551616) as Hsm.
  { pose proof (f_equal zlen E) as El. rewrite zlen_app, zlen_cons in El. pose proof (zlen_nonneg rest).
    unfold dropZ, zlen in *. rewrite length_drop in El. lia. }
  rewrite (bind_run _ _ (s, p + zlen s) st st); [done|].
  apply (loop_steps _ (λ k, (takeZ k s, p + k)) (λ _, st) (zlen s)); [lia|by rewrite Z.add_0_r|done| |].
  - intros k Hk. rewrite Hi by lia. rewrite idx_app_l by lia. destruct (idx_is_Some s k) as [c Hc]; [lia|].
    rewrite Hc. pose proof (idx_c_char _ _ _ Hs Hc). unfold of_option. rewrite bind_ret.
    replace (c =? 0) with false by lia. rewrite (takeZ_snoc _ _ _ Hc). peq.
  - rewrite Hi, idx_middle by lia. unfold of_option. rewrite bind_ret. cbn [Z.eqb]. by rewrite takeZ_all by lia.
Qed.

(** Strings one after the other, as they stand in a blob. *)
Definition packed (l : list bytes) : bytes := flat_map (λ s, s ++ [0]) l.

Lemma packed_cons s l : packed (s :: l) = s ++ 0 :: packed l.
Proof. unfold packed. cbn [flat_map]. by rewrite <- app_assoc. Qed.

Lemma packed_app l1 l2 : packed (l1 ++ l2) = packed l1 ++ packed l2.
Proof. unfold packed. by rewrite flat_map_app. Qed.

Lemma dropZ_packed (mem : bytes) p s rest : dropZ p mem = s ++ 0 :: rest → 0 ≤ p → dropZ (p + zlen s + 1) mem = rest.
Proof.
  intros E Hp. pose proof (zlen_nonneg s). rewrite <- Z.add_assoc, <- dropZ_dropZ, E by lia.
  change (s ++ 0 :: rest) with (s ++ [0] ++ rest). rewrite app_assoc.
  replace (zlen s + 1) with (zlen (s ++ [0])) by zlen_lia. apply dropZ_app_zlen.
Qed.

(** One string more off the front: where the next one is. *)
Lemma dropZ_packed_take (mem : bytes) p l rest k : dropZ p mem = packed l ++ rest → 0 ≤ p → 0 ≤ k ≤ zlen l →
  dropZ (p + zlen (packed (takeZ k l))) mem = packed (dropZ k l) ++ rest.
Proof.
  intros E Hp Hk. rewrite <- dropZ_dropZ, E by zlen_lia.
  rewrite <- (takeZ_dropZ k l) at 2. rewrite packed_app, <- app_assoc. apply dropZ_app_zlen.
Qed.

Lemma zlen_dropZ_le {A} p (l : list A) : zlen (dropZ p l) ≤ zlen l.
Proof. unfold dropZ, zlen. rewrite length_drop. lia. Qed.

Lemma zlen_packed_takeZ k l : zlen (packed (takeZ k l)) ≤ zlen (packed l).
Proof. rewrite <- (takeZ_dropZ k l) at 2. rewrite packed_app. zlen_lia. Qed.

Lemma zlen_le_packed l : zlen l ≤ zlen (packed l).
Proof. induction l as [|s l IH]; [done|]. rewrite packed_cons. zlen_lia. Qed.

(** The k-th string of a list that stands in the blob. *)
Lemma blob_string_at {S} mem p l rest k s (st : S) : Forall c_chars l → dropZ p mem = packed l ++ rest → 0 ≤ p →
  zlen mem < 18446744073709551616 → idx l k = Some s →
  blob_string mem (p + zlen (packed (takeZ k l))) st = Ret (s, p + zlen (packed (takeZ (k + 1) l))) st.
Proof.
  intros Hl E Hp Hm Hk. pose proof (idx_Some_range _ _ _ Hk).
  pose proof (dropZ_packed_take mem p l rest k E Hp ltac:(lia)) as Ed.
  rewrite (dropZ_cons _ _ _ Hk), packed_cons, <- app_assoc in Ed. cbn [app] in Ed.
  rewrite (blob_string_run mem _ s _ st (idx_Forall _ _ _ _ Hl Hk) Ed) by (done || zlen_lia).
  rewrite (takeZ_snoc _ _ _ Hk), packed_app, packed_cons. change (packed []) with (@nil Z).
  do 2 f_equal. zlen_lia.
Qed.

Lemma blob_strings_run {S} mem p l rest (st : S) : Forall c_chars l → dropZ p mem = packed l ++ rest → 0 ≤ p →
  zlen mem < 18446744073709551616 →
  blob_strings mem (zlen l) p st = Ret (l, p + zlen (packed l)) st.
Proof.
  intros Hl E Hp Hm. pose proof (zlen_nonneg l). pose proof (zlen_le_packed l).
  assert (zlen (packed l) ≤ zlen mem) as Hle.
  { pose proof (zlen_dropZ_le p mem) as Hd. rewrite E, zlen_app in Hd. pose proof (zlen_nonneg rest). lia. }
  unfold blob_strings.
  apply (loop_steps _ (λ k, (k, takeZ k l, p + zlen (packed (takeZ k l)))) (λ _, st) (zlen l)); [lia| |done| |].
  - by rewrite takeZ_0, Z.add_0_r.
  - intros k Hk. replace (k <? zlen l) with true by lia. destruct (idx_is_Some l k) as [s Hs]; [lia|].
    rewrite (bind_run _ _ _ _ _ (blob_string_at mem p l rest k s st Hl E Hp Hm Hs)).
    by rewrite (takeZ_snoc _ _ _ Hs).
  - rewrite Z.ltb_irrefl. by rewrite takeZ_all by lia.
Qed.

(** The environment's strings: none is empty, and a NUL ends them. *)
Lemma blob_env_run {S} mem p l rest (st : S) : Forall c_chars l → Forall (λ s, s ≠ []) l →
  dropZ p mem = packed l ++ 0 :: rest → 0 ≤ p → zlen mem < 18446744073709551616 → zlen l ≤ LIBC_ENV_MAX →
  blob_env mem p st = Ret l st.
Proof.
  intros Hl Hne E Hp Hm Hmax. pose proof (zlen_nonneg l). unfold LIBC_ENV_MAX in Hmax.
  unfold blob_env.
  apply (loop_steps _ (λ k, (takeZ k l, p + zlen (packed (takeZ k l)))) (λ _, st) (zlen l)); [lia| |done| |].
  - by rewrite takeZ_0, Z.add_0_r.
  - intros k Hk. destruct (idx_is_Some l k) as [s Hs]; [lia|].
    pose proof (dropZ_packed_take mem p l (0 :: rest) k E Hp ltac:(lia)) as Ed.
    rewrite (dropZ_cons _ _ _ Hs), packed_cons in Ed.
    pose proof (idx_Forall _ _ _ _ Hne Hs) as Hsne. pose proof (idx_Forall _ _ _ _ Hl Hs) as Hsc. cbn beta in *.
    destruct s as [|c s]; [done|]. pose proof (Forall_inv Hsc) as Hc. cbn beta in Hc.
    assert (idx mem (p + zlen (packed (takeZ k l))) = Some c) as Hi.
    { rewrite <- (Z.add_0_r (_ + _)), <- idx_dropZ, Ed by zlen_lia. done. }
    rewrite Hi. unfold of_option. rewrite bind_ret. rewrite zlen_takeZ by lia. unfold LIBC_ENV_MAX.
    replace (negb (c =? 0) && (k <? 62)) with true by lia.
    rewrite (bind_run _ _ _ _ _ (blob_string_at mem p l (0 :: rest) k (c :: s) st Hl E Hp Hm Hs)).
    by rewrite (takeZ_snoc _ _ _ Hs).
  - rewrite takeZ_all by lia.
    pose proof (dropZ_packed_take mem p l (0 :: rest) (zlen l) E Hp ltac:(lia)) as Ed.
    rewrite takeZ_all, (dropZ_all l) in Ed by lia. change (packed []) with (@nil Z) in Ed. cbn [app] in Ed.
    assert (idx mem (p + zlen (packed l)) = Some 0) as Hi.
    { rewrite <- (Z.add_0_r (_ + _)), <- idx_dropZ, Ed by zlen_lia. done. }
    by rewrite Hi.
Qed.

(** The blob execve makes of an argument vector and an environment. *)
Definition exec_blob (argv envp : list bytes) : bytes :=
  LIBC_ARGV0_MARK :: packed argv ++
  match envp with [] => [] | _ => LIBC_ENV_MARK :: packed envp ++ [0] end.

(** An argument vector and an environment the blob can carry. *)
Record args_ok (argv envp : list bytes) : Prop := {
  a_argv : Forall c_chars argv;
  a_envp : Forall c_chars envp;
  a_nonempty : Forall (λ s, s ≠ []) envp;
  a_argc : 0 < zlen argv ≤ LIBC_ARGV_MAX;
  a_envc : zlen envp ≤ LIBC_ENV_MAX;
}.

Lemma start_args_run {S} argv envp tail (st : S) : args_ok argv envp →
  (envp = [] → tail ≠ [] ∧ hd 0 tail ≠ LIBC_ENV_MARK) →
  zlen (exec_blob argv envp ++ tail) < 18446744073709551616 →
  start_args (zlen argv) (exec_blob argv envp ++ tail) st = Ret (argv, envp) st.
Proof.
  intros [Ha He Hne Hac Hec] Htail Hm. unfold LIBC_ARGV_MAX in Hac. unfold start_args, LIBC_ARGV_MAX. cbn zeta.
  replace (zlen argv <? 0) with false by lia. replace (64 <? zlen argv) with false by lia.
  replace (0 <? zlen argv) with true by lia.
  set (mem := exec_blob argv envp ++ tail) in *.
  rewrite (bind_run _ _ true st st) by done. cbn iota.
  set (rest := match envp with [] => [] | _ => LIBC_ENV_MARK :: packed envp ++ [0] end ++ tail).
  assert (dropZ 1 mem = packed argv ++ rest) as Hd.
  { unfold mem, exec_blob, rest. cbn [app]. change (dropZ 1 (?x :: ?l)) with l. by rewrite <- app_assoc. }
  rewrite (bind_run _ _ _ _ _ (blob_strings_run mem 1 argv rest st Ha Hd ltac:(lia) Hm)). cbn beta iota.
  assert (dropZ (1 + zlen (packed argv)) mem = rest) as Hd2.
  { rewrite <- dropZ_dropZ, Hd by zlen_lia. apply dropZ_app_zlen. }
  assert (idx mem (1 + zlen (packed argv)) = idx rest 0) as Hi.
  { rewrite <- (Z.add_0_r (1 + _)), <- idx_dropZ, Hd2 by zlen_lia. done. }
  rewrite Hi. destruct envp as [|e envp].
  - destruct Htail as [Htne Hh]; [done|]. subst rest. cbn [app]. destruct tail as [|t tail]; [done|].
    unfold of_option. cbn [idx decide]. change (idx (t :: tail) 0) with (Some t). cbn iota. rewrite bind_ret.
    cbn [hd] in Hh. replace (t =? LIBC_ENV_MARK) with false by lia. done.
  - unfold rest. cbn [app]. set (es := e :: envp) in *.
    change (idx (?x :: ?l) 0) with (Some x). unfold of_option. rewrite bind_ret.
    change (LIBC_ENV_MARK =? LIBC_ENV_MARK) with true. cbn iota.
    assert (dropZ (1 + zlen (packed argv) + 1) mem = packed es ++ 0 :: tail) as Hd3.
    { rewrite <- dropZ_dropZ, Hd2 by zlen_lia. unfold rest, es. cbn [app].
      change (dropZ 1 (?x :: ?l)) with l. by rewrite <- app_assoc. }
    rewrite (bind_run _ _ _ _ _ (blob_env_run mem _ es tail st He Hne Hd3 ltac:(zlen_lia) Hm Hec)). done.
Qed.

(** * Exit *)

Section exiting.
Context {K A : Type} (call : Z → Z → M (prog K A) unit).
Implicit Types (s : prog K A).

(** Handlers that return, register no other handler, and leave a trace. *)
Context (log : prog K A → list (Z * Z)).
Context (Hlog : ∀ l s, log (set_fns l s) = log s).
Context (Hcall : ∀ fn arg s, ∃ s', call fn arg s = Ret tt s' ∧ pg_fns s' = pg_fns s ∧
  log s' = log s ++ [(fn, arg)]).

Lemma run_handlers_run s : zlen (pg_fns s) ≤ ATEXIT_MAX →
  ∃ s', run_handlers call s = Ret tt s' ∧ pg_fns s' = [] ∧ log s' = log s ++ reverse (pg_fns s).
Proof using Hlog Hcall.
  intros Hmax. unfold ATEXIT_MAX in Hmax.
  assert (wp (run_handlers call) (λ _ s', pg_fns s' = [] ∧ log s' = log s ++ reverse (pg_fns s)) s) as Hw.
  2:{ apply wp_inv in Hw as ([] & s' & E & ? & ?). eauto. }
  unfold run_handlers.
  apply (wp_loop _ (λ _ s', ∃ done_, pg_fns s = pg_fns s' ++ done_ ∧ log s' = log s ++ reverse done_)
    (λ _ s', zlen (pg_fns s'))).
  - intros _ s' _. apply zlen_nonneg.
  - intros _ s' (l & El & Hl). apply wp_bind, wp_get.
    destruct (pg_fns s') as [|x0 l0] eqn:Efns using rev_ind; [|clear IHl0].
    + cbn [last]. apply wp_ret. rewrite Efns in *. cbn [app] in El. by rewrite El.
    + rewrite last_snoc. destruct x0 as [fn arg].
      apply wp_bind, wp_put. rewrite length_app. cbn [length].
      replace (length l0 + 1 - 1)%nat with (length l0) by lia. rewrite take_app_length.
      destruct (Hcall fn arg (set_fns l0 s')) as (s2 & E2 & Hf2 & Hl2).
      apply wp_bind. eapply wp_of_eq; [exact E2|]. apply wp_ret. cbn [pg_fns set_fns] in Hf2. rewrite Hf2.
      split; [|zlen_lia]. exists ((fn, arg) :: l). split; [by rewrite El, <- app_assoc|].
      rewrite Hl2, Hlog, Hl, reverse_cons. by rewrite <- app_assoc.
  - exists []. by rewrite !app_nil_r.
  - lia.
Qed.
End exiting.

(** The console takes what it is given: [con] is what it has shown. *)
Section console.
Context {K : Type} `{!Kernel K} (junk : bytes) (con : K → bytes).
Context (Hcon : ∀ data k, ∃ k', sys_write data k = Ret (zlen data) k' ∧ con k' = con k ++ data).

(** A stream on the console, with [pend] in its buffer. *)
Record console_stream (p : posix K) (f : FILE) (pend : bytes) : Prop := {
  cs_ready : ready p;
  cs_entry : ∃ e, idx (fdtab p) (f_fd f) = Some e ∧ fd_kind e = K_CONSOLE;
  cs_ms : f_ms f = None;
  cs_wlen : f_wlen f = zlen pend;
  cs_buf : takeZ (zlen pend) (default [] (f_buf f)) = pend;
  cs_pos : 0 ≤ f_pos f ∧ f_pos f + zlen pend ≤ LLONG_MAX;
}.

Lemma console_write_all p fd e b n : ready p → idx (fdtab p) fd = Some e → fd_kind e = K_CONSOLE →
  0 < n ≤ zlen b → ∃ w, write junk fd b n p = Ret n (set_world w p) ∧ con w = con (world p) ++ takeZ n b.
Proof using Hcon.
  intros Hr He Hk Hn. destruct (Hcon (takeZ n b) (world p)) as (w & E & Hc).
  rewrite zlen_takeZ in E by lia. exists w. split; [|done]. unfold write.
  rewrite (bind_run _ _ _ _ _ (fd_init_run p (proj2 Hr))).
  rewrite (bind_run _ _ _ _ _ (fd_open_run p fd e Hr He ltac:(by rewrite Hk))).
  rewrite decide_True by done. unfold console_write. replace (n =? 0) with false by lia.
  rewrite (bind_run _ _ _ _ _ (peek_run 0 n b p ltac:(lia) ltac:(lia) ltac:(lia))).
  unfold sliceZ. rewrite dropZ_0. rewrite (bind_run _ _ _ _ _ (sys_run _ _ _ _ E)).
  by replace (n <? 0) with false by lia.
Qed.

Lemma flush_console p f pend : console_stream p f pend →
  ∃ w, flush_write junk (Stream p f) =
      Ret 0 (Stream (set_world w p) (with_wlen 0 (with_pos (f_pos f + zlen pend) f))) ∧
    con w = con (world p) ++ pend.
Proof using Hcon.
  intros [Hr (e & He & Hk) Hms Hwl Hb [Hp0 Hp]]. pose proof (zlen_nonneg pend). unfold LLONG_MAX in Hp.
  unfold flush_write. rewrite (bind_run _ _ f (Stream p f) (Stream p f)) by done. rewrite Hwl, Hms.
  destruct (Z.eqb_spec (zlen pend) 0) as [E0|Hne].
  - exists (world p). assert (pend = []) as -> by (destruct pend; [done|zlen_lia]).
    rewrite set_world_id, app_nil_r. split; [|done]. unfold ret. do 2 f_equal.
    change (zlen []) with 0 in *. rewrite Z.add_0_r. destruct f. cbn in *. by subst.
  - destruct (f_buf f) as [b|] eqn:Eb; cbn [default from_option id] in Hb.
    2:{ rewrite takeZ_nil in Hb. subst pend. done. }
    assert (zlen pend ≤ zlen b) as Hle by (rewrite <- Hb; unfold takeZ, zlen; rewrite length_take; lia).
    destruct (console_write_all p (f_fd f) e b (zlen pend) Hr He Hk ltac:(lia)) as (w & Ew & Hc).
    exists w. split; [|by rewrite Hc, Hb].
    rewrite (bind_run _ _ 0 _ (Stream (set_world w p) f)).
    + change (0 =? EOF) with false. cbn iota.
      rewrite (bind_run _ _ _ _ _ (advance_run (zlen pend) (Stream (set_world w p) f) ltac:(lia) ltac:(cbn [s_file]; lia)
        ltac:(cbn [s_file]; unfold LLONG_MAX; lia))). done.
    + unfold flush_loop. apply (loop_once _ 0 _ (zlen pend) (Stream (set_world w p) f)).
      * rewrite (bind_run _ _ f (Stream p f) (Stream p f)) by done. rewrite Hwl.
        replace (0 <? zlen pend) with true by lia.
        rewrite (bind_run _ _ b (Stream p f) (Stream p f)) by (unfold the_buf, bind, the_file, gets; cbn [s_file]; by rewrite Eb).
        rewrite dropZ_0, Z.sub_0_r. rewrite (bind_run _ _ _ _ _ (os_run _ _ _ (Stream p f) Ew)).
        cbn [s_file]. by replace (zlen pend <=? 0) with false by lia.
      * rewrite (bind_run _ _ f (Stream (set_world w p) f) (Stream (set_world w p) f)) by done. rewrite Hwl.
        by replace (zlen pend <? zlen pend) with false by lia.
Qed.

(** stdout and stderr are console streams. *)
Record std_ok (i : stdio K) (out err : bytes) : Prop := {
  so_out : ∃ f, io_files i !! stdout = Some f ∧ console_stream (io_posix i) f out;
  so_err : ∃ f, io_files i !! stderr = Some f ∧ console_stream (io_posix i) f err;
}.

Lemma exit_flush_run i out err : std_ok i out err →
  ∃ i', __libc_stdio_exit_flush junk i = Ret tt i' ∧
    con (world (io_posix i')) = con (world (io_posix i)) ++ out ++ err.
Proof using Hcon.
  intros [(fo & Ho & Hso) (fe & He & Hse)]. unfold __libc_stdio_exit_flush.
  destruct (flush_console _ _ _ Hso) as (w1 & E1 & Hc1).
  set (p1 := set_world w1 (io_posix i)).
  set (i1 := Stdio p1 (<[stdout := with_wlen 0 (with_pos (f_pos fo + zlen out) fo)]> (io_files i)) (io_next i) (io_tmp_ctr i)).
  rewrite (bind_run _ _ 0 _ i1) by (unfold on; rewrite Ho, E1; done).
  assert (console_stream p1 fe err) as Hse1 by (destruct Hse; by split).
  destruct (flush_console _ _ _ Hse1) as (w2 & E2 & Hc2).
  exists (Stdio (set_world w2 p1) (<[stderr := with_wlen 0 (with_pos (f_pos fe + zlen err) fe)]> (io_files i1))
    (io_next i) (io_tmp_ctr i)).
  rewrite (bind_run _ _ 0 _ (Stdio (set_world w2 p1)
    (<[stderr := with_wlen 0 (with_pos (f_pos fe + zlen err) fe)]> (io_files i1)) (io_next i) (io_tmp_ctr i))).
  - split; [done|]. cbn [io_posix world set_world]. rewrite Hc2. cbn [p1 world set_world]. rewrite Hc1.
    by rewrite app_assoc.
  - unfold on. cbn [io_files i1]. rewrite lookup_insert_ne by done. rewrite He.
    change (io_posix i1) with p1. by rewrite E2.
Qed.
End console.

(** C27: exit.  The atexit handlers run exactly once each, last registered first,
    the table empties; then the destructors run, and whatever standard output
    and standard error still hold in their buffers is shown on the console
    before the process ends with the code given. *)
Theorem exit_correct {K A : Type} `{Kernel K} (junk : bytes) (call : Z → Z → M (prog K A) unit)
    (fini : list (M (prog K A) unit)) (log : prog K A → list (Z * Z)) (con : K → bytes)
    (code : Z) (s : prog K A)
    (Hlog : ∀ l s, log (set_fns l s) = log s)
    (Hcall : ∀ fn arg s, ∃ s', call fn arg s = Ret tt s' ∧ pg_fns s' = pg_fns s ∧
      log s' = log s ++ [(fn, arg)])
    (Hcon : ∀ data k, ∃ k', sys_write data k = Ret (zlen data) k' ∧ con k' = con k ++ data)
    (Hmax : zlen (pg_fns s) ≤ ATEXIT_MAX) :
  ∃ s1, run_handlers call s = Ret tt s1 ∧ pg_fns s1 = [] ∧ log s1 = log s ++ reverse (pg_fns s) ∧
    ∀ s2 out err, run_all (reverse fini) s1 = Ret tt s2 → std_ok (pg_io s2) out err →
      ∃ s3, exit (B := unit) junk call fini code s = Halt code s3 ∧
        con (world (io_posix (pg_io s3))) = con (world (io_posix (pg_io s2))) ++ out ++ err.
Proof.
  destruct (run_handlers_run call log Hlog Hcall s Hmax) as (s1 & E1 & Hf & Hl).
  exists s1. split; [done|]. split; [done|]. split; [done|]. intros s2 out err E2 Hstd.
  destruct (exit_flush_run junk con Hcon (pg_io s2) out err Hstd) as (i' & E3 & Hc).
  exists (set_io i' s2). split; [|done]. unfold exit.
  rewrite (bind_run _ _ _ _ _ E1), (bind_run _ _ _ _ _ E2).
  rewrite (bind_run _ _ tt _ (set_io i' s2)); [done|]. unfold io, zoom. simpl. by rewrite E3.
Qed.

(** A program started through execve's blob gets exactly the argument
    vector and the environment the blob was made from, whatever the memory
    behind it holds. *)
Theorem start_args_correct {S} (argv envp : list bytes) (tail : bytes) (st : S)
    (Hargs : args_ok argv envp)
    (Htail : envp = [] → tail ≠ [] ∧ hd 0 tail ≠ LIBC_ENV_MARK)
    (Hmem : zlen (exec_blob argv envp ++ tail) < 18446744073709551616) :
  start_args (zlen argv) (exec_blob argv envp ++ tail) st = Ret (argv, envp) st.
Proof. by apply start_args_run. Qed.

(** 64 arguments are the most: with one more the environment is lost, and
    the last argument with it, for every argument vector and environment. *)
Theorem start_args_too_many {S} (argv envp : list bytes) (x : bytes) (tail : bytes) (st : S)
    (Hargs : args_ok argv envp) (Hmax : zlen argv = LIBC_ARGV_MAX) (Hx : c_chars x)
    (Hxm : hd 0 x ≠ LIBC_ENV_MARK)
    (Hmem : zlen (exec_blob (argv ++ [x]) envp ++ tail) < 18446744073709551616) :
  start_args (zlen (argv ++ [x])) (exec_blob (argv ++ [x]) envp ++ tail) st = Ret (argv, []) st.
Proof.
  destruct Hargs as [Ha He Hne Hac Hec]. unfold LIBC_ARGV_MAX in *. unfold start_args, LIBC_ARGV_MAX. cbn zeta.
  rewrite zlen_app, Hmax. change (zlen [x]) with 1. cbn [Z.add Z.ltb Z.compare].
  change (64 + 1) with 65. change (65 <? 0) with false. change (64 <? 65) with true. change (0 <? 65) with true.
  cbn iota. set (mem := exec_blob (argv ++ [x]) envp ++ tail) in *.
  rewrite (bind_run _ _ true st st) by done. cbn iota.
  set (rest := packed [x] ++ match envp with [] => [] | _ => LIBC_ENV_MARK :: packed envp ++ [0] end ++ tail).
  assert (dropZ 1 mem = packed argv ++ rest) as Hd.
  { unfold mem, exec_blob, rest. cbn [app]. change (dropZ 1 (?y :: ?l)) with l.
    by rewrite packed_app, <- !app_assoc. }
  pose proof (blob_strings_run mem 1 argv rest st Ha Hd ltac:(lia) Hmem) as E. rewrite Hmax in E.
  rewrite (bind_run _ _ _ _ _ E). cbn beta iota.
  assert (idx mem (1 + zlen (packed argv)) = Some (hd 0 (x ++ [0]))) as Hi.
  { rewrite <- (Z.add_0_r (1 + _)), <- idx_dropZ by zlen_lia.
    rewrite <- dropZ_dropZ, Hd, dropZ_app_zlen by zlen_lia. unfold rest. rewrite packed_cons. by destruct x. }
  rewrite Hi. unfold of_option. rewrite bind_ret.
  replace (hd 0 (x ++ [0]) =? LIBC_ENV_MARK) with false; [done|].
  unfold LIBC_ENV_MARK in *. destruct x as [|c x]; [done|]. cbn [hd app] in *. lia.
Qed.

(** ** Concrete runs *)

From S2P Require Import Ram.

Lemma start_args_correct_witness :
  start_args 2 (exec_blob [str "cc"; str "a.c"] [str "PATH=/bin"; str "HOME=/"] ++ [7]) tt
  = Ret ([str "cc"; str "a.c"], [str "PATH=/bin"; str "HOME=/"]) tt.
Proof.
  apply (start_args_correct [str "cc"; str "a.c"] [str "PATH=/bin"; str "HOME=/"] [7] tt); [|done|reflexivity].
  split; [repeat constructor; apply c_chars_b_sound; reflexivity|repeat constructor; apply c_chars_b_sound; reflexivity|
    by repeat constructor|split; [reflexivity|vm_compute; discriminate]|vm_compute; discriminate].
Defined.

Lemma start_args_too_many_witness :
  start_args 65 (exec_blob (replicate 64 (str "x") ++ [str "last"]) [str "HOME=/"] ++ [0]) tt
  = Ret (replicate 64 (str "x"), []) tt.
Proof.
  apply (start_args_too_many (replicate 64 (str "x")) [str "HOME=/"] (str "last") [0] tt);
    [|reflexivity|apply c_chars_b_sound; reflexivity|done|reflexivity].
  split; [apply Forall_replicate, c_chars_b_sound; reflexivity|repeat constructor; apply c_chars_b_sound; reflexivity|
    by repeat constructor|split; [reflexivity|vm_compute; discriminate]|vm_compute; discriminate].
Defined.

(** "bye" is in stdout's buffer, two handlers are registered. *)
Definition ex_io : stdio ram :=
  Stdio (posix_start (ex_ram (str "/tmp/a") []))
    (<[stdin := _stdin]> (<[stdout := with_wlen 3 (with_buf true (Some (str "bye" ++ [0])) 4 _stdout)]>
      {[stderr := _stderr]})) 4 0.
Definition ex_posix1 : posix ram := out_state (io_posix ex_io) (fd_init (io_posix ex_io)).
Definition ex_prog : prog ram (list (Z * Z)) :=
  Prog (Stdio ex_posix1 (io_files ex_io) 4 0) [(100, 1); (200, 2)] [].
Definition ex_call (fn arg : Z) : M (prog ram (list (Z * Z))) unit :=
  modify (λ s, Prog (pg_io s) (pg_fns s) (pg_app s ++ [(fn, arg)])).

Lemma ex_std_ok (s : prog ram (list (Z * Z))) : pg_io s = pg_io ex_prog → std_ok (pg_io s) (str "bye") [].
Proof.
  intros ->. split; eexists; (split; [reflexivity|]); (split; [by split|eexists; by split|done|done|done|]);
    vm_compute; repeat split; discriminate.
Qed.

Lemma exit_correct_witness :
  ∃ s3, exit (B := unit) ex_junk ex_call [] 3 ex_prog = Halt 3 s3 ∧
    ram_out (world (io_posix (pg_io s3))) = str "bye".
Proof.
  destruct (exit_correct ex_junk ex_call [] pg_app ram_out 3 ex_prog) as (s1 & E & Hf & Hl & Hall).
  - intros l s. reflexivity.
  - intros fn arg s. eexists. split; [reflexivity|]. split; reflexivity.
  - intros data k. eexists. split; reflexivity.
  - vm_compute. discriminate.
  - assert (run_handlers ex_call ex_prog = Ret tt (Prog (pg_io ex_prog) [] [(200, 2); (100, 1)])) as E'
      by (vm_compute; reflexivity).
    rewrite E' in E. injection E as <-.
    destruct (Hall (Prog (pg_io ex_prog) [] [(200, 2); (100, 1)]) (str "bye") [] eq_refl) as (s3 & E3 & Hc).
    { apply ex_std_ok. reflexivity. }
    exists s3. split; [exact E3|]. rewrite Hc. reflexivity.
Defined.
