(* ===== verification/RcProc.v ===== *)
(** Processes: src/lib/racccoon-libc/src/rc_proc.c.

    [proc K] is the POSIX layer's state with this file's statics and [environ].
    An argument vector is the list of its strings, [None] for a null one.  exec
    does not come back when it works; what the model shows is what reaches the
    kernel: the image and the blob handed to SYS_EXEC.  A mapping is its address
    and its contents. *)
From S2P Require Import Prelude CMonad CMemory CBuffer Kernel RcFs RcFd RcNet FileServer RcPosix Time Start.

Definition RC_EXEC_IMAGE_MAX : Z := 1048576.
Definition RC_EXEC_BLOB_MAX : Z := 16384.
Definition RC_READ_CHUNK : Z := RC_FS_MSG_MAX - 4.
Definition RC_CHILD_MAX : Z := 32.
(** include/sys/mman.h, sys/resource.h, sys/statvfs.h *)
Definition PROT_WRITE : Z := 2.
Definition MAP_SHARED : Z := 1.
Definition MAP_ANONYMOUS : Z := 32.
Definition RLIM_NLIMITS : Z := 16.
Definition RLIM_INFINITY : Z := 18446744073709551615.
Definition RUSAGE_SELF : Z := 0.
Definition ST_LOCAL : Z := 4096.

Record proc (K : Type) := Proc {
  pr_os : posix K;
  pr_environ : list bytes;
  pr_children : list (Z * Z);    (* rc_children, rc_nchild of them: pid, generation *)
  pr_start : timespec;           (* rc_start *)
}.
Arguments Proc {K}.
Arguments pr_os {K}.
Arguments pr_environ {K}.
Arguments pr_children {K}.
Arguments pr_start {K}.

(** struct utsname; the counts of struct statvfs that are set *)
Record utsname := Utsname { sysname : bytes; nodename : bytes; release : bytes; version : bytes; machine : bytes }.
Record statvfs_t := Statvfs { f_bsize : Z; f_frsize : Z; f_flag : Z; f_flags : Z; f_namemax : Z }.

Section proc.
Context {K : Type} `{!Kernel K} (junk : bytes).
Abbreviation R := (proc K).

Definition set_pr_os (p : posix K) (s : R) : R := Proc p (pr_environ s) (pr_children s) (pr_start s).
Program Definition pr_lens : lens R (posix K) := Lens _ _ pr_os set_pr_os _ _ _.
Next Obligation. done. Qed.
Next Obligation. by intros []. Qed.
Next Obligation. done. Qed.
Definition os {A} (c : M (posix K) A) : M R A := zoom pr_lens c.
Definition fail (e : Z) : M R Z := os (set_errno e) ;; ret (-1).
Definition set_children (l : list (Z * Z)) : M R unit :=
  modify (λ s, Proc (pr_os s) (pr_environ s) l (pr_start s)).

(** ** fork *)

Definition child_add (pid gen : Z) : M R unit :=
  s <- get ;;
  if zlen (pr_children s) <? RC_CHILD_MAX then set_children (pr_children s ++ [(pid, gen)]) else ret tt.

Definition fork : M R Z :=
  let* (r, gen) := os (sys (sys_rfork RC_RFPROC)) in
  if r <? 0 then fail EAGAIN
  else if r =? 0 then set_children [] ;; ret 0
  else child_add (s32 r) gen ;; ret (s32 r).

(** ** exec *)

(** The whole file; NULL and errno on a failure. *)
Definition load_image (path : bytes) : M (posix K) (option bytes) :=
  st <- sys (__rc_fs_stat junk path) ;;
  match st with
  | None => set_errno ENOENT ;; ret None
  | Some (fsize, type) =>
      if type =? 1 then set_errno EACCES ;; ret None
      else if (fsize =? 0) || (RC_EXEC_IMAGE_MAX <? fsize) then set_errno ENOEXEC ;; ret None
      else
        ok <- sys (heap_alloc (fsize + RC_EXEC_BLOB_MAX + 16)) ;;
        if negb ok then set_errno ENOMEM ;; ret None
        else
          buf <- loop (λ '(total, buf),
            if total <? fsize then
              let want := if RC_READ_CHUNK <? fsize - total then RC_READ_CHUNK else fsize - total in
              let* (got, data) := sys (__rc_fs_read_at junk path want total) in
              if got <? 0 then set_errno EIO ;; ret (Break None)
              else if got =? 0 then ret (Break (Some buf))
              else ret (Continue (u32 (total + got), buf ++ data))
            else ret (Break (Some buf))) (0, []) ;;
          match buf with
          | None => ret None
          | Some buf => if zlen buf =? 0 then set_errno ENOEXEC ;; ret None else ret (Some buf)
          end
  end.

(** [blob_put]: the blob with the string and its NUL, [None] when it does not fit. *)
Definition blob_put {S} (blob : bytes) (cap : Z) (s : bytes) : M S (option bytes) :=
  r <- loop (λ '(i, blob),
    c <- chr s i ;;
    if c =? 0 then ret (Break (Some blob))
    else if cap <=? zlen blob then ret (Break None)
    else ret (Continue (i + 1, blob ++ [c]))) (0, blob) ;;
  match r with
  | None => ret None
  | Some blob => if cap <=? zlen blob then ret None else ret (Some (blob ++ [0]))
  end.

Fixpoint blob_put_all {S} (blob : bytes) (cap : Z) (l : list bytes) : M S (option bytes) :=
  match l with
  | [] => ret (Some blob)
  | s :: l =>
      b <- blob_put blob cap s ;;
      match b with None => ret None | Some b => blob_put_all b cap l end
  end.

(** The blob of execve, [None] for E2BIG. *)
Definition make_blob {S} (argv : list bytes) (envp : option (list bytes)) : M S (option bytes) :=
  blob <- blob_put_all [LIBC_ARGV0_MARK] RC_EXEC_BLOB_MAX argv ;;
  match blob with
  | None => ret None
  | Some blob =>
      match envp with
      | None | Some [] => ret (Some blob)
      | Some envp =>
          if RC_EXEC_BLOB_MAX <=? zlen blob then ret None
          else
            blob <- blob_put_all (blob ++ [LIBC_ENV_MARK]) RC_EXEC_BLOB_MAX envp ;;
            match blob with
            | None => ret None
            | Some blob => if RC_EXEC_BLOB_MAX <=? zlen blob then ret None else ret (Some (blob ++ [0]))
            end
      end
  end.

(** The strings before the NULL of a vector; no vector counts as an empty one. *)
Definition argv_len (v : option (list bytes)) : Z := match v with Some v => zlen v | None => 0 end.

Definition execve (path : bytes) (argv envp : option (list bytes)) : M (posix K) Z :=
  buf <- load_image path ;;
  match buf with
  | None => ret (-1)
  | Some image =>
      let ac := argv_len argv in
      blob <- make_blob (default [] argv) envp ;;
      match blob with
      | None => RcFd.fail E2BIG
      | Some blob =>
          sys (sys_exec image blob ac) ;;
          RcFd.fail ENOEXEC
      end
  end.

Definition execv (path : bytes) (argv : option (list bytes)) : M R Z :=
  env <- gets pr_environ ;; os (execve path argv (Some env)).

(** dir + "/" + name, [None] when it does not fit into [cap] bytes *)
Definition join_path (cap : Z) (dir name : bytes) : option bytes :=
  if cap - 1 <? zlen dir then None
  else
    let o := if (zlen dir =? 0) || negb (last_is 47 dir) then dir ++ [47] else dir in
    if cap - 1 <? zlen o then None
    else if cap - 1 <? zlen o + zlen name then None else Some (o ++ name).

(** The search path, one directory at a time. *)
Definition execvp_search (search file : bytes) (argv : option (list bytes)) (env : list bytes) : M (posix K) unit :=
  loop (λ start,
    i <- loop (λ i,
      c <- chr search i ;;
      if negb (c =? 0) && negb (c =? 58) then ret (Continue (i + 1)) else ret (Break i)) start ;;
    (if start <? i then
       match join_path 256 (sliceZ start (i - start) search) file with
       | Some candidate => execve candidate argv (Some env) ;; ret tt
       | None => ret tt
       end
     else ret tt) ;;
    c <- chr search i ;;
    if c =? 0 then ret (Break tt) else ret (Continue (i + 1))) 0.

Definition execvp (file : bytes) (argv : option (list bytes)) : M R Z :=
  env <- gets pr_environ ;;
  if existsb (Z.eqb 47) file then os (execve file argv (Some env))
  else
    let* (n, data) := os (sys (__rc_fs_read junk (str "/env/PATH") 255)) in
    let search := if n <=? 0 then str "/bin/:bin/" else c_str data in
    os (execvp_search search file argv env) ;;
    fail ENOENT.

(** [av]: the argument list up to its NULL, at most 127 of the varargs *)
Definition exec_varargs (path arg0 : bytes) (args : list bytes) (use_path : bool) : M R Z :=
  let av := arg0 :: takeZ 126 args in
  if use_path then execvp path (Some av)
  else env <- gets pr_environ ;; os (execve path (Some av) (Some env)).
Definition execl (path arg : bytes) (args : list bytes) : M R Z := exec_varargs path arg args false.
Definition execlp (file arg : bytes) (args : list bytes) : M R Z := exec_varargs file arg args true.

(** ** wait *)

(** The result, the status. *)
Definition waitpid (pid : Z) : M R (Z * option Z) :=
  s <- get ;;
  if zlen (pr_children s) =? 0 then r <- fail ECHILD ;; ret (r, None)
  else
    let idx_ := if 0 <? pid then
                  match list_find (λ c, c.1 = pid) (pr_children s) with
                  | Some (i, _) => Z.of_nat i
                  | None => -1
                  end
                else 0 in
    if idx_ <? 0 then r <- fail ECHILD ;; ret (r, None)
    else
      c <- of_option (idx (pr_children s) idx_) ;;
      code <- os (sys (sys_join c.1 c.2)) ;;
      set_children (takeZ idx_ (pr_children s) ++ dropZ (idx_ + 1) (pr_children s)) ;;
      ret (c.1, Some (Z.shiftl (Z.land (s32 code) 255) 8)).
Definition wait : M R (Z * option Z) := waitpid (-1).
Definition wait4 (pid : Z) : M R (Z * option Z) := waitpid pid.

(** include/sys/wait.h *)
Definition WIFEXITED (s : Z) : bool := Z.land s 127 =? 0.
Definition WEXITSTATUS (s : Z) : Z := Z.land (Z.shiftr s 8) 255.
Definition WTERMSIG (s : Z) : Z := Z.land s 127.
Definition WIFSIGNALED (s : Z) : bool := negb (Z.land s 127 =? 0) && negb (Z.land s 127 =? 127).
Definition WIFSTOPPED (s : Z) : bool := Z.land s 255 =? 127.
Definition WSTOPSIG (s : Z) : Z := WEXITSTATUS s.

Definition system (command : option bytes) : M R Z :=
  match command with
  | None => ret 0
  | Some command =>
      pid <- fork ;;
      if pid <? 0 then ret (-1)
      else if pid =? 0 then
        execvp (str "sh") (Some [str "sh"; str "-c"; command]) ;;
        halt 127
      else
        let* (r, st) := waitpid pid in
        if r <? 0 then ret (-1) else ret (default 0 st)
  end.

(** ** mmap *)

(** The file's bytes from [offset] on, until [length] or the end; [None] on an error. *)
Definition map_fill (fd offset length : Z) : M (posix K) (option bytes) :=
  loop (λ '(done, b),
    if done <? length then
      let* (got, data) := pread junk fd (length - done) (offset + done) in
      if got <? 0 then ret (Break None)
      else if got =? 0 then ret (Break (Some b))
      else ret (Continue (done + got, b ++ data))
    else ret (Break (Some b))) (0, []).

(** MAP_FAILED, or the address and what is there. *)
Definition mmap (length prot flags fd offset : Z) : M (posix K) (option (Z * bytes)) :=
  if length =? 0 then set_errno EINVAL ;; ret None
  else
    let anon := has flags MAP_ANONYMOUS in
    if negb anon && has flags MAP_SHARED && has prot PROT_WRITE then set_errno ENODEV ;; ret None
    else if negb anon && (fd <? 0) then set_errno EBADF ;; ret None
    else
      p <- sys (__rc_map_pages length) ;;
      if p =? 0 then set_errno ENOMEM ;; ret None
      else if anon then ret (Some (p, replicate (Z.to_nat length) 0))
      else
        b <- map_fill fd offset length ;;
        ret (match b with
             | None => None
             | Some b => Some (p, b ++ replicate (Z.to_nat (length - zlen b)) 0)
             end).
Definition munmap : M (posix K) Z := ret 0.
Definition mprotect : M (posix K) Z := ret 0.
Definition msync : M (posix K) Z := ret 0.
Definition madvise : M (posix K) Z := ret 0.
Definition posix_madvise : M (posix K) Z := ret 0.

(** ** uname, limits, usage *)

Definition uname : utsname :=
  Utsname (str "racccoon") (str "racccoon") (str "0") (str "racccoon") (str "riscv64").
Definition gethostname (len : Z) : M (posix K) (Z * bytes) :=
  let h := str "racccoon" in
  if len <? zlen h + 1 then r <- RcFd.fail ENAMETOOLONG ;; ret (r, []) else ret (0, h ++ [0]).
Definition getsid : M (posix K) Z := getpid.
Definition setsid : M (posix K) Z := getpid.
Definition alarm : M (posix K) Z := ret 0.
(** Both limits. *)
Definition getrlimit (resource : Z) : M (posix K) (Z * Z) :=
  if (resource <? 0) || (RLIM_NLIMITS <=? resource) then r <- RcFd.fail EINVAL ;; ret (r, 0)
  else ret (0, RLIM_INFINITY).
Definition setrlimit (resource : Z) : M (posix K) Z :=
  if (resource <? 0) || (RLIM_NLIMITS <=? resource) then RcFd.fail EINVAL else ret 0.

(** A constructor: it runs before main. *)
Definition rc_note_start : M R unit :=
  t <- os (clock_gettime CLOCK_MONOTONIC) ;;
  match t with
  | Some t => modify (λ s, Proc (pr_os s) (pr_environ s) (pr_children s) t)
  | None => ret tt
  end.

(** [ru_utime], in seconds and microseconds. *)
Definition getrusage (who : Z) : M R (Z * Z) :=
  if negb (who =? RUSAGE_SELF) then ret (0, 0)
  else
    now <- os (clock_gettime CLOCK_MONOTONIC) ;;
    s <- get ;;
    let now := default (Timespec 0 0) now in
    let us := (tv_sec now - tv_sec (pr_start s)) * 1000000 + Z.quot (tv_nsec now - tv_nsec (pr_start s)) 1000 in
    ret (Z.quot us 1000000, Z.rem us 1000000).

Definition rc_statvfs_fill : statvfs_t := Statvfs 4096 4096 ST_LOCAL ST_LOCAL 255.
Definition statvfs (path : bytes) : M (posix K) (option statvfs_t) :=
  st <- stat junk path ;; ret (match st with None => None | Some _ => Some rc_statvfs_fill end).
Definition fstatvfs (fd : Z) : M (posix K) (option statvfs_t) :=
  st <- fstat junk fd ;; ret (match st with None => None | Some _ => Some rc_statvfs_fill end).
Definition shm_open : M (posix K) Z := RcFd.fail ENOSYS.
Definition shm_unlink : M (posix K) Z := RcFd.fail ENOSYS.
(** There is no user database. *)
Definition getpwuid : option unit := None.
Definition getpwnam : option unit := None.
(** The result, and [*result]; nothing is stored in [pw] or [buf]. *)
Definition getpwuid_r : Z * option unit := (0, None).
Definition getpwnam_r : Z * option unit := (0, None).
End proc.

(** * The blob *)

Lemma chr_c_char {S} s i (st : S) : c_chars s → 0 ≤ i < zlen s → ∃ c, chr s i st = Ret c st ∧ c ≠ 0 ∧ idx s i = Some c.
Proof.
  intros Hs Hi. destruct (idx_is_Some s i Hi) as [c Hc]. exists c. rewrite chr_run by lia.
  unfold chrv. rewrite Hc. pose proof (idx_c_char _ _ _ Hs Hc). split; [done|]. split; [lia|done].
Qed.

(** blob_put appends the string and its NUL exactly when they fit. *)
Lemma blob_put_run {S} blob cap s (st : S) : c_chars s → zlen blob ≤ cap → cap < 18446744073709551616 →
  zlen s < 18446744073709551616 →
  blob_put blob cap s st =
    Ret (if zlen blob + zlen s + 1 <=? cap then Some (blob ++ s ++ [0]) else None) st.
Proof.
  intros Hs Hb Hcap Hsl. pose proof (zlen_nonneg blob). pose proof (zlen_nonneg s). unfold blob_put.
  set (n := Z.min (zlen s) (cap - zlen blob)).
  assert (zlen (takeZ n s) = n) as Hn by (apply zlen_takeZ; lia).
  rewrite (bind_run _ _ (if zlen blob + zlen s <=? cap then Some (blob ++ s) else None) st st).
  2:{ apply (loop_steps _ (λ k, (k, blob ++ takeZ k s)) (λ _, st) n); [lia|by rewrite takeZ_0, app_nil_r|done| |].
      - intros k Hk. destruct (chr_c_char s k st Hs ltac:(lia)) as (c & E & Hc & Hi).
        rewrite (bind_run _ _ _ _ _ E). replace (c =? 0) with false by lia.
        rewrite zlen_app, zlen_takeZ by lia. replace (cap <=? zlen blob + k) with false by lia.
        by rewrite (takeZ_snoc _ _ _ Hi), app_assoc.
      - destruct (Z.leb_spec (zlen blob + zlen s) cap).
        + replace n with (zlen s) by lia. rewrite (bind_run _ _ 0 st st).
          * by rewrite takeZ_all by lia.
          * rewrite chr_run by lia. unfold chrv. by rewrite idx_None by lia.
        + destruct (chr_c_char s n st Hs ltac:(lia)) as (c & E & Hc & Hi).
          rewrite (bind_run _ _ _ _ _ E). replace (c =? 0) with false by lia.
          rewrite zlen_app, Hn. by replace (cap <=? zlen blob + n) with true by lia. }
  destruct (Z.leb_spec (zlen blob + zlen s) cap); destruct (Z.leb_spec (zlen blob + zlen s + 1) cap); try lia; try done.
  - replace (cap <=? zlen (blob ++ s)) with false by zlen_lia. by rewrite <- app_assoc.
  - by replace (cap <=? zlen (blob ++ s)) with true by zlen_lia.
Qed.

Lemma blob_put_all_run {S} blob cap l (st : S) : Forall c_chars l → zlen blob ≤ cap → cap < 18446744073709551616 →
  Forall (λ s, zlen s < 18446744073709551616) l →
  blob_put_all blob cap l st =
    Ret (if zlen blob + zlen (packed l) <=? cap then Some (blob ++ packed l) else None) st.
Proof.
  intros Hl Hb Hcap Hsz. revert blob Hb. induction Hl as [|s l Hs Hl IH]; intros blob Hb; cbn [blob_put_all].
  - change (packed []) with (@nil Z). change (zlen []) with 0. rewrite app_nil_r.
    by replace (zlen blob + 0 <=? cap) with true by lia.
  - apply Forall_cons in Hsz as [Hsl Hsz].
    rewrite (bind_run _ _ _ _ _ (blob_put_run blob cap s st Hs Hb Hcap Hsl)).
    rewrite packed_cons, zlen_app, zlen_cons.
    destruct (Z.leb_spec (zlen blob + zlen s + 1) cap).
    + rewrite IH by (done || zlen_lia). rewrite !zlen_app. change (zlen [0]) with 1.
      rewrite <- !app_assoc. cbn [app].
      replace (zlen blob + (zlen s + 1) + zlen (packed l)) with (zlen blob + (zlen s + (1 + zlen (packed l)))) by lia.
      done.
    + replace (zlen blob + (zlen s + (1 + zlen (packed l))) <=? cap) with false; [done|].
      pose proof (zlen_nonneg (packed l)). lia.
Qed.

(** Every string of a vector whose blob fits is short. *)
Lemma Forall_zlen_packed (l : list bytes) n : zlen (packed l) < n → Forall (λ s, zlen s < n) l.
Proof.
  induction l as [|s l IH]; [constructor|]. rewrite packed_cons. intros Hn.
  constructor; [zlen_lia|]. apply IH. zlen_lia.
Qed.

Lemma make_blob_run {S} argv envp (st : S) : Forall c_chars argv → Forall c_chars envp →
  zlen (packed argv) < 18446744073709551616 → zlen (packed envp) < 18446744073709551616 →
  make_blob argv (Some envp) st =
    Ret (if zlen (exec_blob argv envp) <=? RC_EXEC_BLOB_MAX then Some (exec_blob argv envp) else None) st.
Proof.
  intros Ha He Hla Hle. unfold make_blob, RC_EXEC_BLOB_MAX. pose proof (zlen_nonneg (packed argv)).
  rewrite (bind_run _ _ _ _ _ (blob_put_all_run [LIBC_ARGV0_MARK] 16384 argv st Ha ltac:(done) ltac:(lia)
    (Forall_zlen_packed _ _ Hla))).
  change (zlen [LIBC_ARGV0_MARK]) with 1. unfold exec_blob. cbn [app].
  destruct envp as [|e envp].
  - rewrite app_nil_r, zlen_cons. by destruct (1 + zlen (packed argv) <=? 16384).
  - set (es := e :: envp) in *. pose proof (zlen_nonneg (packed es)).
    rewrite zlen_cons, zlen_app, zlen_cons, zlen_app. change (zlen [0]) with 1.
    destruct (Z.leb_spec (1 + zlen (packed argv)) 16384).
    + rewrite zlen_cons. destruct (Z.leb_spec 16384 (1 + zlen (packed argv))).
      * by replace (1 + (zlen (packed argv) + (1 + (zlen (packed es) + 1))) <=? 16384) with false by lia.
      * rewrite (bind_run _ _ _ _ _ (blob_put_all_run ((LIBC_ARGV0_MARK :: packed argv) ++ [LIBC_ENV_MARK]) 16384 es st He
          ltac:(zlen_lia) ltac:(lia) (Forall_zlen_packed _ _ Hle))).
        rewrite zlen_app, zlen_cons. change (zlen [LIBC_ENV_MARK]) with 1.
        destruct (Z.leb_spec (1 + zlen (packed argv) + 1 + zlen (packed es)) 16384).
        -- rewrite !zlen_app, zlen_cons. change (zlen [LIBC_ENV_MARK]) with 1.
           destruct (Z.leb_spec 16384 (1 + zlen (packed argv) + 1 + zlen (packed es))).
           ++ by replace (1 + (zlen (packed argv) + (1 + (zlen (packed es) + 1))) <=? 16384) with false by lia.
           ++ replace (1 + (zlen (packed argv) + (1 + (zlen (packed es) + 1))) <=? 16384) with true by lia.
              cbn [app]. by rewrite <- !app_assoc.
        -- by replace (1 + (zlen (packed argv) + (1 + (zlen (packed es) + 1))) <=? 16384) with false by lia.
    + by replace (1 + (zlen (packed argv) + (1 + (zlen (packed es) + 1))) <=? 16384) with false by lia.
Qed.

(** * The image *)

Section image.
Context {K : Type} `{FileServer K} (junk : bytes).
Context (Hjunk : zlen junk = RC_FS_MSG_MAX) (Hjb : is_bytes junk).
Context (Halloc : ∀ n s, ∃ w, heap_alloc n s = Ret true w ∧ view w = view s).

Lemma load_image_run (p : posix K) path c :
  abs_ok path → v_file (world p) path = Some c → 0 < zlen c ≤ RC_EXEC_IMAGE_MAX →
  ∃ w, load_image junk path p = Ret (Some c) (set_world w p) ∧ view w = view (world p).
Proof using Hjunk Hjb Halloc.
  intros Hp Hc Hlen. unfold RC_EXEC_IMAGE_MAX in Hlen. unfold load_image.
  destruct (stat_run junk Hjunk Hjb (world p) path c Hp Hc ltac:(lia)) as (w1 & Hv1 & E1).
  rewrite (bind_run _ _ _ _ _ (sys_run _ _ _ p E1)). cbn beta iota.
  change (0 =? 1) with false. cbn iota. unfold RC_EXEC_IMAGE_MAX.
  replace ((zlen c =? 0) || (1048576 <? zlen c)) with false by lia.
  destruct (Halloc (zlen c + RC_EXEC_BLOB_MAX + 16) w1) as (w2 & E2 & Hv2).
  rewrite (bind_run _ _ _ _ _ (sys_run _ _ _ (set_world w1 p) E2)). cbn [negb]. rewrite set_world_world.
  match goal with |- ∃ w, bind ?l _ _ = _ ∧ _ =>
    assert (wp l (λ b s, b = Some c ∧ ∃ w, s = set_world w p ∧ view w = view (world p)) (set_world w2 p)) as Hw end.
  2:{ apply wp_inv in Hw as (b & s & E & -> & w & -> & Hv). exists w. split; [|done].
      rewrite (bind_run _ _ _ _ _ E). by replace (zlen c =? 0) with false by lia. }
  apply (wp_loop _ (λ '(total, buf) s, 0 ≤ total ≤ zlen c ∧ buf = takeZ total c ∧
      ∃ w, s = set_world w p ∧ view w = view (world p)) (λ '(total, _) _, zlen c - total)).
  - intros [total buf] s [? _]. lia.
  - intros [total buf] s (Ht & -> & w & -> & Hv).
    destruct (Z.ltb_spec total (zlen c)).
    + cbn zeta. set (want := if RC_READ_CHUNK <? zlen c - total then RC_READ_CHUNK else zlen c - total).
      assert (0 < want ≤ zlen c - total) as Hwant.
      { unfold want, RC_READ_CHUNK, RC_FS_MSG_MAX. destruct (Z.ltb_spec (8192 - 4) (zlen c - total)); lia. }
      destruct (read_at_run junk Hjunk Hjb w path want total c) as (got & w' & E & Hv' & Hg1 & Hg2 & Hg3);
        [done| |unfold INT_MAX; lia|lia|]. { unfold v_file, held in *. by rewrite Hv. }
      apply wp_bind. eapply wp_of_eq; [apply sys_run; exact E|]. rewrite set_world_world.
      replace (got <? 0) with false by lia. replace (got =? 0) with false by lia.
      apply wp_ret. rewrite u32_id by lia. split; [|lia]. split; [lia|].
      split; [by rewrite takeZ_slice by lia|]. exists w'. split; [done|congruence].
    + apply wp_ret. rewrite takeZ_all by lia. split; [done|]. by exists w.
  - rewrite takeZ_0. pose proof (zlen_nonneg c). split; [lia|]. split; [done|]. exists w2. split; [done|congruence].
  - lia.
Qed.
End image.

(** C1: execve hands the kernel exactly the program: the image is the file's
    contents, whole, however the server delivers it, and the blob is one from
    which the new program's crt0 reads back the same argument vector and the
    same environment, whatever follows it in memory.  Afterwards, should the
    kernel refuse, the call returns -1 with ENOEXEC; no file has changed.  (The
    heap serves the image and the blob, which are within execve's limits.) *)
Theorem execve_correct {K} `{FileServer K} (junk : bytes) (p : posix K) (path c : bytes)
    (argv envp : list bytes) (tail : bytes)
    (Hjunk : zlen junk = RC_FS_MSG_MAX) (Hjb : is_bytes junk)
    (Halloc : ∀ n s, ∃ w, heap_alloc n s = Ret true w ∧ view w = view s)
    (Hpath : abs_ok path) (Hc : v_file (world p) path = Some c) (Hlen : 0 < zlen c ≤ RC_EXEC_IMAGE_MAX)
    (Hargs : args_ok argv envp) (Hfits : zlen (exec_blob argv envp) ≤ RC_EXEC_BLOB_MAX)
    (Htail : envp = [] → tail ≠ [] ∧ hd 0 tail ≠ LIBC_ENV_MARK) (Htl : zlen tail < 4294967296) :
  ∃ w blob, view w = view (world p) ∧
    execve junk path (Some argv) (Some envp) p =
      (sys (sys_exec c blob (zlen argv)) ;; RcFd.fail ENOEXEC) (set_world w p) ∧
    start_args (S := unit) (zlen argv) (blob ++ tail) tt = Ret (argv, envp) tt.
Proof.
  destruct (load_image_run junk Hjunk Hjb Halloc p path c Hpath Hc Hlen) as (w & E & Hv).
  unfold RC_EXEC_BLOB_MAX in Hfits. exists w, (exec_blob argv envp). split; [done|]. split.
  - unfold execve. rewrite (bind_run _ _ _ _ _ E). cbn [default from_option id].
    assert (zlen (packed argv) ≤ 16384 ∧ zlen (packed envp) ≤ 16384) as [? ?].
    { revert Hfits. unfold exec_blob. destruct envp; [change (packed []) with (@nil Z)|]; zlen_lia. }
    rewrite (bind_run _ _ (Some (exec_blob argv envp)) _ (set_world w p)); [done|].
    rewrite make_blob_run; [|by destruct Hargs|by destruct Hargs|lia|lia].
    unfold RC_EXEC_BLOB_MAX. by replace (zlen (exec_blob argv envp) <=? 16384) with true by lia.
  - apply start_args_run; [done..|]. rewrite zlen_app. lia.
Qed.

(** Arguments that do not fit are refused before the kernel is asked: the
    blob is made exactly when its length, marks and NULs included, is at most
    16384 bytes, and execve otherwise returns -1 with E2BIG. *)
Theorem execve_too_big {K} `{FileServer K} (junk : bytes) (p : posix K) (path c : bytes) (argv envp : list bytes)
    (Hjunk : zlen junk = RC_FS_MSG_MAX) (Hjb : is_bytes junk)
    (Halloc : ∀ n s, ∃ w, heap_alloc n s = Ret true w ∧ view w = view s)
    (Hpath : abs_ok path) (Hc : v_file (world p) path = Some c) (Hlen : 0 < zlen c ≤ RC_EXEC_IMAGE_MAX)
    (Ha : Forall c_chars argv) (He : Forall c_chars envp)
    (Hla : zlen (packed argv) < 18446744073709551616) (Hle : zlen (packed envp) < 18446744073709551616)
    (Hbig : RC_EXEC_BLOB_MAX < zlen (exec_blob argv envp)) :
  ∃ w, view w = view (world p) ∧
    execve junk path (Some argv) (Some envp) p = Ret (-1) (set_errno_ E2BIG (set_world w p)).
Proof.
  destruct (load_image_run junk Hjunk Hjb Halloc p path c Hpath Hc Hlen) as (w & E & Hv).
  exists w. split; [done|]. unfold execve. rewrite (bind_run _ _ _ _ _ E). cbn [default from_option id].
  rewrite (bind_run _ _ _ _ _ (make_blob_run argv envp (set_world w p) Ha He Hla Hle)).
  by replace (zlen (exec_blob argv envp) <=? RC_EXEC_BLOB_MAX) with false by lia.
Qed.

(** * Children *)

Lemma shiftl8 x : Z.shiftl x 8 = x * 256.
Proof. by rewrite Z.shiftl_mul_pow2. Qed.

(** The status of an exit code: exited, with the code's low byte. *)
Lemma status_exit code : let st := Z.shiftl (Z.land code 255) 8 in
  WIFEXITED st = true ∧ WIFSIGNALED st = false ∧ WIFSTOPPED st = false ∧ WEXITSTATUS st = code mod 256.
Proof.
  cbn zeta. change 255 with (Z.ones 8). rewrite Z.land_ones by lia. change (2 ^ 8) with 256.
  unfold WIFEXITED, WIFSIGNALED, WIFSTOPPED, WEXITSTATUS. rewrite shiftl8.
  change 127 with (Z.ones 7). change 255 with (Z.ones 8). rewrite !Z.land_ones, Z.shiftr_div_pow2 by lia.
  change (2 ^ 7) with 128. change (2 ^ 8) with 256. change (Z.ones 7) with 127.
  replace (code mod 256 * 256 mod 128) with 0 by lia. replace (code mod 256 * 256 mod 256) with 0 by lia.
  split_and!; try done. lia.
Qed.

Section children.
Context {K : Type} `{Kernel K}.
Implicit Types (s : proc K).

Lemma pr_os_run {A} (m : M (posix K) A) a p s : m (pr_os s) = Ret a p → os m s = Ret a (set_pr_os p s).
Proof using. intros E. unfold os, zoom. simpl. by rewrite E. Qed.

Lemma waitpid_run s l1 pid gen l2 code w : pr_children s = l1 ++ (pid, gen) :: l2 →
  sys_join pid gen (world (pr_os s)) = Ret code w →
  ∀ arg, (0 < arg → arg = pid ∧ Forall (λ c, c.1 ≠ pid) l1) → (arg ≤ 0 → l1 = []) →
  waitpid arg s = Ret (pid, Some (Z.shiftl (Z.land (s32 code) 255) 8))
    (Proc (set_world w (pr_os s)) (pr_environ s) (l1 ++ l2) (pr_start s)).
Proof using.
  intros Hl Hj arg Hpos Hneg. unfold waitpid. rewrite (bind_run _ _ s s s) by done. rewrite Hl.
  pose proof (zlen_nonneg l1). replace (zlen (l1 ++ (pid, gen) :: l2) =? 0) with false by zlen_lia.
  assert ((if 0 <? arg then
      match list_find (λ c, c.1 = arg) (l1 ++ (pid, gen) :: l2) with
      | Some (i, _) => Z.of_nat i | None => -1 end else 0) = zlen l1) as ->.
  { destruct (Z.ltb_spec 0 arg).
    - destruct Hpos as [-> Hf]; [done|].
      assert (list_find (λ c, c.1 = pid) (l1 ++ (pid, gen) :: l2) = Some (length l1, (pid, gen))) as ->; [|done].
      apply list_find_Some. split; [by apply list_lookup_middle|]. split; [done|].
      intros j y Hj' Hlt. rewrite lookup_app_l in Hj' by done. by eapply Forall_lookup_1 in Hf.
    - by rewrite Hneg by done. }
  cbn zeta. replace (zlen l1 <? 0) with false by lia. rewrite idx_middle.
  rewrite (bind_run _ _ (pid, gen) s s) by done. cbn [fst snd].
  rewrite (bind_run _ _ _ _ _ (pr_os_run _ _ _ s (sys_run _ _ _ _ Hj))).
  rewrite takeZ_app_zlen, <- dropZ_dropZ, dropZ_app_zlen by lia. done.
Qed.

Lemma fork_run s r gen w : sys_rfork RC_RFPROC (world (pr_os s)) = Ret (r, gen) w → 0 < r ≤ INT_MAX →
  fork s = Ret r (Proc (set_world w (pr_os s)) (pr_environ s)
    (if zlen (pr_children s) <? RC_CHILD_MAX then pr_children s ++ [(r, gen)] else pr_children s) (pr_start s)).
Proof using.
  intros E Hr. unfold fork. rewrite (bind_run _ _ _ _ _ (pr_os_run _ _ _ s (sys_run _ _ _ _ E))). cbn beta iota.
  replace (r <? 0) with false by lia. replace (r =? 0) with false by lia.
  rewrite s32_id by (unfold INT_MIN, INT_MAX in *; lia).
  unfold child_add, bind, get. cbn [pr_children set_pr_os].
  destruct (zlen (pr_children s) <? RC_CHILD_MAX); done.
Qed.
End children.

(** C29: a child is waited for once: after fork, waitpid on the child's pid
    joins exactly that child (its generation included), reports a normal exit
    with the low byte of its code, and takes it off the table, leaving the other
    children as they were, as long as the table of 32 had room. *)
Theorem fork_waitpid {K} `{Kernel K} (s : proc K) (pid gen code : Z) (w w' : K)
    (Hfork : sys_rfork RC_RFPROC (world (pr_os s)) = Ret (pid, gen) w) (Hpid : 0 < pid ≤ INT_MAX)
    (Hjoin : sys_join pid gen w = Ret code w')
    (Hroom : zlen (pr_children s) < RC_CHILD_MAX)
    (Hnew : Forall (λ c, c.1 ≠ pid) (pr_children s)) (Hcode : INT_MIN ≤ code ≤ INT_MAX) :
  ∃ st, (pid <- fork ;; waitpid pid) s =
      Ret (pid, Some st) (Proc (set_world w' (pr_os s)) (pr_environ s) (pr_children s) (pr_start s)) ∧
    WIFEXITED st = true ∧ WIFSIGNALED st = false ∧ WIFSTOPPED st = false ∧ WEXITSTATUS st = code mod 256.
Proof.
  exists (Z.shiftl (Z.land (s32 code) 255) 8).
  rewrite (bind_run _ _ _ _ _ (fork_run s pid gen w Hfork Hpid)).
  replace (zlen (pr_children s) <? RC_CHILD_MAX) with true by lia.
  rewrite (waitpid_run _ (pr_children s) pid gen [] code w'); [|done|exact Hjoin|by intros|intros; lia].
  rewrite s32_id by done. cbn [pr_os pr_environ pr_start]. rewrite app_nil_r. split; [done|]. apply status_exit.
Qed.

(** The 33rd child is lost: when the table is full fork still succeeds, and
    waitpid on the new child fails with ECHILD although it was never waited
    for. *)
Theorem fork_table_full {K} `{Kernel K} (s : proc K) (pid gen : Z) (w : K)
    (Hfork : sys_rfork RC_RFPROC (world (pr_os s)) = Ret (pid, gen) w) (Hpid : 0 < pid ≤ INT_MAX)
    (Hfull : zlen (pr_children s) = RC_CHILD_MAX)
    (Hnew : Forall (λ c, c.1 ≠ pid) (pr_children s)) :
  (pid <- fork ;; waitpid pid) s =
    Ret (-1, None) (set_pr_os (set_errno_ ECHILD (set_world w (pr_os s))) s).
Proof.
  unfold RC_CHILD_MAX in Hfull.
  rewrite (bind_run _ _ _ _ _ (fork_run s pid gen w Hfork Hpid)). unfold RC_CHILD_MAX. rewrite Hfull.
  change (32 <? 32) with false. cbn iota.
  unfold waitpid. set (s1 := Proc _ _ _ _). rewrite (bind_run _ _ s1 s1 s1) by done.
  cbn [pr_children s1]. rewrite Hfull. change (32 =? 0) with false. cbn iota.
  replace (0 <? pid) with true by lia.
  destruct (list_find _ (pr_children s)) as [[i c]|] eqn:E.
  - exfalso. apply list_find_Some in E as (Hi & Hc & _). by eapply Forall_lookup_1 in Hnew.
  - done.
Qed.

(** ** Concrete runs *)

From S2P Require Import Ram.

Lemma ex_alloc_all (n : Z) (s : ram) : ∃ w, heap_alloc n s = Ret true w ∧ view w = view s.
Proof. by exists s. Qed.

Definition ex_argv : list bytes := [str "cc"; str "-c"; str "a.c"].
Definition ex_envp : list bytes := [str "PATH=/bin"; str "HOME=/"].

Lemma ex_args_ok : args_ok ex_argv ex_envp.
Proof.
  split; [repeat constructor; apply c_chars_b_sound; reflexivity|repeat constructor; apply c_chars_b_sound; reflexivity|
    by repeat constructor|split; [reflexivity|vm_compute; discriminate]|vm_compute; discriminate].
Qed.

Lemma execve_correct_witness :
  ∃ w blob, view w = view (world (ex_posix (str "image") 0)) ∧
    execve ex_junk ex_path (Some ex_argv) (Some ex_envp) (ex_posix (str "image") 0) =
      (sys (sys_exec (str "image") blob 3) ;; RcFd.fail ENOEXEC) (set_world w (ex_posix (str "image") 0)) ∧
    start_args (S := unit) 3 (blob ++ [42]) tt = Ret (ex_argv, ex_envp) tt.
Proof.
  apply (execve_correct ex_junk (ex_posix (str "image") 0) ex_path (str "image") ex_argv ex_envp [42]
    ex_junk_len ex_junk_bytes ex_alloc_all);
    [apply (file_path _ _ _ _ _ (ex_file_at (str "image") 0))|reflexivity|
     split; [reflexivity|vm_compute; discriminate]|apply ex_args_ok|vm_compute; discriminate|done|reflexivity].
Defined.

Definition ex_long : bytes := replicate (Z.to_nat 17000) 65.

Lemma execve_too_big_witness :
  ∃ w, view w = view (world (ex_posix (str "image") 0)) ∧
    execve ex_junk ex_path (Some [ex_long]) (Some []) (ex_posix (str "image") 0)
    = Ret (-1) (set_errno_ E2BIG (set_world w (ex_posix (str "image") 0))).
Proof.
  apply (execve_too_big ex_junk (ex_posix (str "image") 0) ex_path (str "image") [ex_long] []
    ex_junk_len ex_junk_bytes ex_alloc_all);
    [apply (file_path _ _ _ _ _ (ex_file_at (str "image") 0))|reflexivity|
     split; [reflexivity|vm_compute; discriminate]|
     constructor; [apply c_chars_b_sound; vm_compute; reflexivity|done]|done|
     vm_compute; reflexivity|reflexivity|vm_compute; reflexivity].
Defined.

Definition ex_ram3 : ram := Ram ∅ ∅ [] [] 0 [3] ∅.
Definition ex_proc (children : list (Z * Z)) : proc ram := Proc (posix_start ex_ram3) [] children (Timespec 0 0).

Lemma fork_waitpid_witness :
  ∃ st, (pid <- fork ;; waitpid pid) (ex_proc [(5, 2)]) =
      Ret (11, Some st) (Proc (set_world (Ram ∅ ∅ [] [] 0 [] ∅) (posix_start ex_ram3)) [] [(5, 2)] (Timespec 0 0)) ∧
    WIFEXITED st = true ∧ WIFSIGNALED st = false ∧ WIFSTOPPED st = false ∧ WEXITSTATUS st = 3 mod 256.
Proof.
  apply (fork_waitpid (ex_proc [(5, 2)]) 11 1 3 ex_ram3 (Ram ∅ ∅ [] [] 0 [] ∅));
    [reflexivity|vm_compute; split; [reflexivity|discriminate]|reflexivity|reflexivity|by repeat constructor|
     vm_compute; split; discriminate].
Defined.

Lemma fork_table_full_witness :
  (pid <- fork ;; waitpid pid) (ex_proc (replicate 32 (5, 2))) =
    Ret (-1, None) (set_pr_os (set_errno_ ECHILD (set_world ex_ram3 (posix_start ex_ram3))) (ex_proc (replicate 32 (5, 2)))).
Proof.
  apply (fork_table_full (ex_proc (replicate 32 (5, 2))) 11 1 ex_ram3);
    [reflexivity|vm_compute; split; [reflexivity|discriminate]|reflexivity|by apply Forall_replicate].
Defined.
