(* ===== verification/RcSignal.v ===== *)
(** Signals on the kernel's notes: src/lib/racccoon-libc/src/rc_signal.c.

    [sigs K A] is the POSIX layer's state with this file's statics and the
    program's own state [A].  A function pointer is a number, 0 and 1 being
    SIG_DFL and SIG_IGN; [call_handler] and [call_action] run the function at an
    address as a [sa_handler] and as a [sa_sigaction]: computations on the same
    state, so a handler may itself install handlers.  Where all states a program
    can reach are meant, the program and its handlers are [code].  SYS_NOTED does not come
    back when the kernel serves it: the kernel's operation ends the computation,
    or returns where the note is finished and the program goes on. *)
From S2P Require Import Prelude CMonad CMemory CBuffer Kernel RcFs RcFd RcPosix Ram Printf.

Definition NCONT : Z := 0.
Definition NDFLT : Z := 1.
Definition NSIG_RC : Z := 32.
(** include/signal.h *)
Definition NSIG : Z := 32.
Definition SIGINT : Z := 2.
Definition SIGABRT : Z := 6.
Definition SIGKILL : Z := 9.
Definition SIGTERM : Z := 15.
Definition SIGSTOP : Z := 19.
Definition SIG_DFL : Z := 0.
Definition SIG_IGN : Z := 1.
Definition SIG_ERR : Z := 18446744073709551615.
Definition SIG_BLOCK : Z := 0.
Definition SIG_UNBLOCK : Z := 1.
Definition SIG_SETMASK : Z := 2.
Definition SA_SIGINFO : Z := 4.
Definition SA_RESETHAND : Z := 2147483648.
Definition SS_DISABLE : Z := 2.

(** [sa_fn] is the union of sa_handler and sa_sigaction. *)
Record sigaction_t := Sigaction { sa_fn : Z; sa_mask : Z; sa_flags : Z; sa_restorer : Z }.
Definition sa_zero : sigaction_t := Sigaction 0 0 0 0.
Record siginfo_t := Siginfo {
  si_signo : Z; si_errno : Z; si_code : Z; si_pid : Z; si_uid : Z; si_addr : Z; si_status : Z; si_value : Z }.
Record stack_t := Stack { ss_sp : Z; ss_flags : Z; ss_size : Z }.

Record sigs (K A : Type) := Sigs {
  sg_os : posix K;
  sg_sa : list sigaction_t;      (* __rc_sa *)
  sg_notify_on : bool;           (* __rc_notify_on *)
  sg_mask : Z;                   (* __rc_mask *)
  sg_app : A;
}.
Arguments Sigs {K A}.
Arguments sg_os {K A}.
Arguments sg_sa {K A}.
Arguments sg_notify_on {K A}.
Arguments sg_mask {K A}.
Arguments sg_app {K A}.

(** The statics of a program that starts. *)
Definition sigs_start {K A} (p : posix K) (a : A) : sigs K A := Sigs p (replicate 32 sa_zero) false 0 a.

Definition __rc_note_sig (msg : bytes) : Z :=
  if decide (msg = str "interrupt") then SIGINT
  else if decide (msg = str "kill") then SIGKILL
  else if decide (msg = str "abort") then SIGABRT
  else SIGTERM.

Definition __rc_sig_note (sig : Z) : bytes :=
  if sig =? SIGINT then str "interrupt"
  else if sig =? SIGKILL then str "kill"
  else if sig =? SIGABRT then str "abort"
  else str "terminate".

(** strsignal's table *)
Definition sig_names : list (Z * bytes) :=
  [(1, str "Hangup"); (2, str "Interrupt"); (3, str "Quit"); (4, str "Illegal instruction");
   (5, str "Trace/breakpoint trap"); (6, str "Aborted"); (7, str "Bus error"); (8, str "Floating point exception");
   (9, str "Killed"); (10, str "User defined signal 1"); (11, str "Segmentation fault");
   (12, str "User defined signal 2"); (13, str "Broken pipe"); (14, str "Alarm clock"); (15, str "Terminated");
   (17, str "Child exited"); (18, str "Continued"); (19, str "Stopped (signal)"); (20, str "Stopped");
   (28, str "Window changed")].
Definition sig_name (sig : Z) : option bytes :=
  snd <$> find (λ e, e.1 =? sig) sig_names.

Definition strsignal {S} (sig : Z) : M S bytes :=
  match (if (0 <? sig) && (sig <? NSIG) then sig_name sig else None) with
  | Some name => ret name
  | None =>
      n <- (if sig <? 0 then int_ok (- sig) else ret sig) ;;
      d <- loop (λ '(d, n),
        d <- push 8 d (48 + n mod 10) ;;
        if negb (n / 10 =? 0) && (zlen d <? 7) then ret (Continue (d, n / 10)) else ret (Break d)) ([], n) ;;
      let p := str "Unknown signal " in
      p <- (if sig <? 0 then push 24 p 45 else ret p) ;;
      p <- put_back 24 d p ;;
      _ <- push 24 p 0 ;; ret p
  end.

Section sigset.
Context {K : Type} `{!Kernel K}.
Abbreviation P := (posix K).

(** The set at [set] before a call: the result and the set after it. *)
Definition sigemptyset (set : Z) : M P (Z * Z) := ret (0, 0).
Definition sigfillset (set : Z) : M P (Z * Z) := ret (0, 18446744073709551615).
Definition bad_sig (sig : Z) : bool := (sig <=? 0) || (NSIG <=? sig).
Definition sigaddset (set sig : Z) : M P (Z * Z) :=
  if bad_sig sig then set_errno EINVAL ;; ret (-1, set)
  else ret (0, Z.lor set (u64 (Z.shiftl 1 sig))).
Definition sigdelset (set sig : Z) : M P (Z * Z) :=
  if bad_sig sig then set_errno EINVAL ;; ret (-1, set)
  else ret (0, Z.land set (u64 (Z.lnot (u64 (Z.shiftl 1 sig))))).
Definition sigismember (set sig : Z) : M P Z :=
  if bad_sig sig then fail EINVAL else ret (Z.land (Z.shiftr set sig) 1).

Definition kill (pid sig : Z) : M P Z :=
  if sig =? 0 then ret 0
  else r <- sys (sys_postnote pid (__rc_sig_note sig)) ;; ret (if r <? 0 then -1 else 0).
Definition raise (sig : Z) : M P Z := pid <- getpid ;; kill pid sig.
End sigset.

Section signal.
Context {K A : Type} `{!Kernel K}.
Abbreviation G := (sigs K A).
Context (call_handler : Z → Z → M G unit) (call_action : Z → Z → siginfo_t → M G unit).

Definition set_sg_os (p : posix K) (s : G) : G := Sigs p (sg_sa s) (sg_notify_on s) (sg_mask s) (sg_app s).
Definition set_sa (l : list sigaction_t) (s : G) : G := Sigs (sg_os s) l (sg_notify_on s) (sg_mask s) (sg_app s).
Definition set_notify (b : bool) (s : G) : G := Sigs (sg_os s) (sg_sa s) b (sg_mask s) (sg_app s).
Definition set_mask (m : Z) (s : G) : G := Sigs (sg_os s) (sg_sa s) (sg_notify_on s) m (sg_app s).
Program Definition sg_lens : lens G (posix K) := Lens _ _ sg_os set_sg_os _ _ _.
Next Obligation. done. Qed.
Next Obligation. by intros []. Qed.
Next Obligation. done. Qed.
Definition os {B} (c : M (posix K) B) : M G B := zoom sg_lens c.

(** [__rc_sa[sig]] *)
Definition sa_load (sig : Z) : M G sigaction_t := s <- get ;; of_option (idx (sg_sa s) sig).
Definition sa_store (sig : Z) (a : sigaction_t) : M G unit :=
  s <- get ;; l <- of_option (upd (sg_sa s) sig a) ;; put (set_sa l s).

Definition __rc_notify : M G unit :=
  s <- get ;;
  if negb (sg_notify_on s) then r <- os (sys sys_notify) ;; modify (set_notify true) else ret tt.

Definition signal (sig h : Z) : M G Z :=
  if (sig <=? 0) || (NSIG_RC <=? sig) || (sig =? SIGKILL) || (sig =? SIGSTOP) then ret SIG_ERR
  else
    a <- sa_load sig ;;
    let old := if negb (Z.land (sa_flags a) SA_SIGINFO =? 0) then SIG_DFL else sa_fn a in
    sa_store sig (Sigaction h (sa_mask a) 0 (sa_restorer a)) ;;
    __rc_notify ;;
    ret old.

(** The result and [*old] (what it is when [old] is not null). *)
Definition sigaction (sig : Z) (act : option sigaction_t) : M G (Z * option sigaction_t) :=
  if (sig <=? 0) || (NSIG_RC <=? sig) || (bool_decide (act ≠ None) && ((sig =? SIGKILL) || (sig =? SIGSTOP)))
  then os (set_errno EINVAL) ;; ret (-1, None)
  else
    a <- sa_load sig ;;
    (match act with
     | Some act => sa_store sig act ;; __rc_notify
     | None => ret tt
     end) ;;
    ret (0, Some a).

(** The result and [*old]. *)
Definition sigprocmask (how : Z) (set : option Z) : M G (Z * Z) :=
  s <- get ;;
  let old := sg_mask s in
  match set with
  | None => ret (0, old)
  | Some set =>
      if how =? SIG_BLOCK then put (set_mask (Z.lor old set) s) ;; ret (0, old)
      else if how =? SIG_UNBLOCK then put (set_mask (Z.land old (u64 (Z.lnot set))) s) ;; ret (0, old)
      else if how =? SIG_SETMASK then put (set_mask set s) ;; ret (0, old)
      else os (set_errno EINVAL) ;; ret (-1, old)
  end.
Definition pthread_sigmask (how : Z) (set : option Z) : M G (Z * Z) :=
  let* (r, old) := sigprocmask how set in
  if negb (r =? 0) then s <- get ;; ret (errno (sg_os s), old) else ret (0, old).
(** [*old] *)
Definition sigaltstack (ss : option stack_t) : M G (Z * stack_t) := ret (0, Stack 0 SS_DISABLE 0).

(** The note handler. *)
Definition __rc_note (msg : bytes) : M G unit :=
  let sig := __rc_note_sig msg in
  a <- sa_load sig ;;
  (if negb (Z.land (sa_flags a) SA_SIGINFO =? 0) then
     call_action (sa_fn a) sig (Siginfo sig 0 0 0 0 0 0 0)
   else if sa_fn a =? SIG_DFL then r <- os (sys (sys_noted NDFLT)) ;; ret tt
   else if negb (sa_fn a =? SIG_IGN) then call_handler (sa_fn a) sig
   else ret tt) ;;
  a <- sa_load sig ;;
  (if negb (Z.land (sa_flags a) SA_RESETHAND =? 0) then
     sa_store sig (Sigaction SIG_DFL (sa_mask a) (Z.land (sa_flags a) (Z.lnot SA_SIGINFO)) (sa_restorer a))
   else ret tt) ;;
  r <- os (sys (sys_noted NCONT)) ;; ret tt.
End signal.

(** * Signal sets

    What the calls on sets and masks promise, on finite sets of signals: the
    program's set variable, the mask, and errno. *)

(** The signals of a word. *)
Definition members (w : Z) : gset Z := list_to_set (filter (λ n, Z.testbit w n = true) (seqZ 1 31)).

Lemma elem_members w n : n ∈ members w ↔ 1 ≤ n < 32 ∧ Z.testbit w n = true.
Proof. unfold members. rewrite elem_of_list_to_set, list_elem_of_filter, elem_of_seqZ. intuition lia. Qed.

Lemma testbit_u64 x n : 0 ≤ n < 64 → Z.testbit (u64 x) n = Z.testbit x n.
Proof. intros. unfold u64. change 18446744073709551616 with (2 ^ 64). apply Z.mod_pow2_bits_low. lia. Qed.

(** The bit of one signal. *)
Lemma testbit_one sig n : 0 ≤ sig → 0 ≤ n < 64 → Z.testbit (u64 (Z.shiftl 1 sig)) n = bool_decide (n = sig).
Proof.
  intros. rewrite testbit_u64, Z.shiftl_spec by lia. case_bool_decide as E.
  - subst. by rewrite Z.sub_diag.
  - destruct (decide (n < sig)); [by rewrite Z.testbit_neg_r by lia|].
    replace 1 with (2 ^ 0) by done. by rewrite Z.pow2_bits_false by lia.
Qed.

Lemma members_0 : members 0 = ∅.
Proof. done. Qed.

Lemma members_add w sig : 1 ≤ sig < 32 → members (Z.lor w (u64 (Z.shiftl 1 sig))) = {[sig]} ∪ members w.
Proof.
  intros. apply set_eq. intros n. rewrite elem_of_union, elem_of_singleton, !elem_members, Z.lor_spec.
  split.
  - intros [Hn Hb]. rewrite testbit_one in Hb by lia. apply orb_prop in Hb as [Hb|Hb%bool_decide_eq_true]; auto.
  - intros [->|[Hn Hb]]; (split; [lia|]).
    + rewrite testbit_one by lia. by rewrite bool_decide_true, orb_true_r.
    + by rewrite Hb.
Qed.

(** [w & ~v], for sets and for one signal. *)
Lemma members_diff w v : members (Z.land w (u64 (Z.lnot v))) = members w ∖ members v.
Proof.
  apply set_eq. intros n. rewrite elem_of_difference, !elem_members, Z.land_spec.
  destruct (decide (1 ≤ n < 32)).
  - rewrite testbit_u64, Z.lnot_spec by lia. destruct (Z.testbit w n), (Z.testbit v n); cbn [negb andb]; intuition congruence.
  - intuition lia.
Qed.

Lemma members_union w v : members (Z.lor w v) = members w ∪ members v.
Proof.
  apply set_eq. intros n. rewrite elem_of_union, !elem_members, Z.lor_spec.
  destruct (Z.testbit w n), (Z.testbit v n); cbn [orb]; intuition congruence.
Qed.

Lemma members_one sig : 1 ≤ sig < 32 → members (u64 (Z.shiftl 1 sig)) = {[sig]}.
Proof. intros. rewrite <- (Z.lor_0_l (u64 _)), members_add, members_0 by done. apply (right_id_L ∅ (∪)). Qed.

Lemma ismember_bit w sig : 0 ≤ sig → Z.land (Z.shiftr w sig) 1 = if Z.testbit w sig then 1 else 0.
Proof.
  intros. change 1 with (Z.ones 1) at 1. rewrite Z.land_ones by lia. change (2 ^ 1) with 2.
  rewrite <- Z.bit0_mod, Z.shiftr_spec by lia. by rewrite Z.add_0_l; destruct (Z.testbit w sig).
Qed.

(** One call on the program's set variable; [CMask how] is
    [sigprocmask(how, &set, 0)], [CGetMask] is [sigprocmask(0, 0, &set)]. *)
Inductive set_call := CEmpty | CFill | CAdd (sig : Z) | CDel (sig : Z) | CIsMember (sig : Z) | CMask (how : Z) | CGetMask.

Section sets.
Context {K : Type} `{!Kernel K}.
Abbreviation G := (sigs K Z).

Definition on_var (c : Z → M (posix K) (Z * Z)) : M G Z :=
  s <- get ;;
  let* (r, w) := os (c (sg_app s)) in
  modify (λ s, Sigs (sg_os s) (sg_sa s) (sg_notify_on s) (sg_mask s) w) ;; ret r.

Definition run_set_call (c : set_call) : M G Z :=
  match c with
  | CEmpty => on_var sigemptyset
  | CFill => on_var sigfillset
  | CAdd sig => on_var (λ w, sigaddset w sig)
  | CDel sig => on_var (λ w, sigdelset w sig)
  | CIsMember sig => on_var (λ w, r <- sigismember w sig ;; ret (r, w))
  | CMask how => s <- get ;; let* (r, _) := sigprocmask how (Some (sg_app s)) in ret r
  | CGetMask => let* (r, old) := sigprocmask 0 None in on_var (λ _, ret (r, old))
  end.

(** Set, mask, errno. *)
Definition set_state : Type := gset Z * gset Z * Z.
Definition set_abs (s : G) : set_state := (members (sg_app s), members (sg_mask s), errno (sg_os s)).

Definition valid_sig (sig : Z) : Prop := 1 ≤ sig < 32.
#[export] Instance valid_sig_dec sig : Decision (valid_sig sig).
Proof. unfold valid_sig. apply _. Defined.

Definition set_spec (c : set_call) : set_state → Z * set_state := λ '(X, m, e),
  match c with
  | CEmpty => (0, (∅, m, e))
  | CFill => (0, (list_to_set (seqZ 1 31), m, e))
  | CAdd sig => if decide (valid_sig sig) then (0, ({[sig]} ∪ X, m, e)) else (-1, (X, m, EINVAL))
  | CDel sig => if decide (valid_sig sig) then (0, (X ∖ {[sig]}, m, e)) else (-1, (X, m, EINVAL))
  | CIsMember sig =>
      if decide (valid_sig sig) then (if decide (sig ∈ X) then 1 else 0, (X, m, e)) else (-1, (X, m, EINVAL))
  | CMask how =>
      if how =? SIG_BLOCK then (0, (X, m ∪ X, e))
      else if how =? SIG_UNBLOCK then (0, (X, m ∖ X, e))
      else if how =? SIG_SETMASK then (0, (X, X, e))
      else (-1, (X, m, EINVAL))
  | CGetMask => (0, (m, m, e))
  end.

Lemma bad_sig_valid sig : bad_sig sig = negb (bool_decide (valid_sig sig)).
Proof. unfold bad_sig, NSIG, valid_sig. case_bool_decide; lia. Qed.

Lemma set_call_implements c : implements (λ _, True) set_abs (run_set_call c) (set_spec c).
Proof.
  intros [p sa nt m w] _. unfold set_abs. cbn [sg_app sg_mask sg_os].
  destruct c as [| |sig|sig|sig|how|]; cbn [run_set_call set_spec].
  - by eexists.
  - by eexists.
  - unfold on_var, sigaddset. rewrite bad_sig_valid. case_decide; [rewrite bool_decide_true by done|rewrite bool_decide_false by done].
    + eexists. split; [done|]. cbn. by rewrite members_add.
    + by eexists.
  - unfold on_var, sigdelset. rewrite bad_sig_valid. case_decide; [rewrite bool_decide_true by done|rewrite bool_decide_false by done].
    + eexists. split; [done|]. cbn. by rewrite members_diff, members_one.
    + by eexists.
  - unfold on_var, sigismember. rewrite bad_sig_valid. case_decide as Hv; [rewrite bool_decide_true by done|rewrite bool_decide_false by done].
    + exists (Sigs p sa nt m w). split; [|done]. cbn -[Z.land Z.shiftr].
      unfold valid_sig in Hv. rewrite ismember_bit by lia.
      pose proof (elem_members w sig) as He. case_decide; destruct (Z.testbit w sig); by intuition congruence.
    + by eexists.
  - unfold sigprocmask, SIG_BLOCK, SIG_UNBLOCK, SIG_SETMASK.
    destruct (how =? 0); [eexists; split; [done|]; cbn; by rewrite members_union|].
    destruct (how =? 1); [eexists; split; [done|]; cbn; by rewrite members_diff|].
    by destruct (how =? 2); eexists.
  - by eexists.
Qed.

(** C10: the calls on signal sets and the mask implement finite sets of signals:
    any sequence of sigemptyset, sigfillset, sigaddset, sigdelset, sigismember and
    sigprocmask returns what the same sequence on sets returns, errors and errno
    included, and leaves the program's set and the mask representing the sets it
    leaves.  It holds in every state, whatever bits the words have. *)
Theorem sigset_refines (calls : list set_call) :
  implements (λ _, True) set_abs (run_calls run_set_call calls) (spec_calls set_spec calls).
Proof. apply implements_calls, set_call_implements. Qed.
End sets.

(** * Delivering signals

    The calls of this file, by the type of what they return. *)
Inductive sig_call : Type → Type :=
  | c_signal (sig h : Z) : sig_call Z
  | c_sigaction (sig : Z) (act : option sigaction_t) : sig_call (Z * option sigaction_t)
  | c_procmask (how : Z) (set : option Z) : sig_call (Z * Z)
  | c_threadmask (how : Z) (set : option Z) : sig_call (Z * Z)
  | c_altstack (ss : option stack_t) : sig_call (Z * stack_t)
  | c_kill (pid sig : Z) : sig_call Z
  | c_raise (sig : Z) : sig_call Z.

(** Code of the program that returns a [B]: it may make the calls above and any
    of the layers below, use the program's own state, and crash, and each step
    may depend on what the ones before it returned.  The body of a handler is
    such code; it cannot reach rc_signal.c's statics but by its calls. *)
Inductive code (K A B : Type) : Type :=
  | h_ret (r : B)
  | h_crash
  | h_call {X} (c : sig_call X) (k : X → code K A B)
  | h_posix {X} (c : M (posix K) X) (k : X → code K A B)
  | h_app {X} (f : A → X * A) (k : X → code K A B).
Arguments h_ret {K A B}.
Arguments h_crash {K A B}.
Arguments h_call {K A B X}.
Arguments h_posix {K A B X}.
Arguments h_app {K A B X}.

Section table.
Context {K A : Type} `{!Kernel K}.
Abbreviation G := (sigs K A).

(** The table has its size; no handler can be put on SIGKILL and SIGSTOP; what
    is not the default action is known to the kernel. *)
Record sigs_ok (s : G) : Prop := {
  g_len : zlen (sg_sa s) = NSIG_RC;
  g_kill : idx (sg_sa s) SIGKILL = Some sa_zero;
  g_stop : idx (sg_sa s) SIGSTOP = Some sa_zero;
  g_notify : sg_notify_on s = false → sg_sa s = replicate 32 sa_zero;
}.

Lemma sigs_ok_start (p : posix K) (a : A) : sigs_ok (sigs_start p a).
Proof. by split. Qed.

Lemma sigs_ok_os (s s' : G) : sg_sa s' = sg_sa s → (sg_notify_on s = true → sg_notify_on s' = true) → sigs_ok s → sigs_ok s'.
Proof.
  intros E En [Hl Hk Hs Hn]. split; rewrite E; [done..|]. intros Hf. apply Hn. destruct (sg_notify_on s); [|done].
  by rewrite En in Hf.
Qed.

Lemma sa_load_inv sig (s s' : G) a : sa_load sig s = Ret a s' → s' = s ∧ idx (sg_sa s) sig = Some a.
Proof. unfold sa_load, bind, get. destruct (idx (sg_sa s) sig); [|done]. by intros [= <- <-]. Qed.

Lemma sa_store_inv sig a (s s' : G) u : sa_store sig a s = Ret u s' →
  0 ≤ sig < zlen (sg_sa s) ∧ s' = set_sa (<[Z.to_nat sig := a]> (sg_sa s)) s.
Proof. unfold sa_store, bind, get, upd. case_decide; [|done]. by intros [= _ <-]. Qed.

(** What a call of the POSIX layer leaves alone. *)
Lemma os_inv {B} (c : M (posix K) B) (s s' : G) b : os c s = Ret b s' →
  sg_sa s' = sg_sa s ∧ sg_notify_on s' = sg_notify_on s ∧ sg_mask s' = sg_mask s ∧ sg_app s' = sg_app s.
Proof. unfold os, zoom. destruct (c _); try done. by intros [= _ <-]. Qed.

Lemma notify_inv (s s' : G) u : __rc_notify s = Ret u s' → sg_sa s' = sg_sa s ∧ sg_notify_on s' = true.
Proof.
  unfold __rc_notify. unfold bind at 1, get. destruct (sg_notify_on s) eqn:E; [by intros [= _ <-]|].
  cbn [negb]. intros (r & s1 & E1 & [= _ <-])%bind_Ret_inv. apply os_inv in E1 as (E1 & _). by split.
Qed.

(** Storing into a row that is not one of the two keeps the table. *)
Lemma sigs_ok_store sig a (s : G) : sigs_ok s → sig ≠ SIGKILL → sig ≠ SIGSTOP → 0 ≤ sig →
  ∀ s', sg_sa s' = <[Z.to_nat sig := a]> (sg_sa s) → sg_notify_on s' = true → sigs_ok s'.
Proof.
  intros [Hl Hk Hs Hn] H9 H19 H0 s' E En. unfold SIGKILL, SIGSTOP, idx in *.
  split; unfold SIGKILL, SIGSTOP, idx; rewrite ?E, ?En; [|cbn in *|cbn in *|done].
  - unfold zlen in *. by rewrite length_insert.
  - rewrite list_lookup_insert_ne by lia. exact Hk.
  - rewrite list_lookup_insert_ne by lia. exact Hs.
Qed.

Lemma install_ok sig a (s s' : G) u : sigs_ok s → sig ≠ SIGKILL → sig ≠ SIGSTOP →
  (sa_store sig a ;; __rc_notify) s = Ret u s' → sigs_ok s'.
Proof.
  intros Hok H9 H19 (u1 & s1 & [Hr ->]%sa_store_inv & [Hsa Hn]%notify_inv)%bind_Ret_inv.
  apply (sigs_ok_store sig a s Hok); [done|done|lia|by rewrite Hsa|done].
Qed.

Lemma os_ok {B} (c : M (posix K) B) (s s' : G) b : sigs_ok s → os c s = Ret b s' → sigs_ok s'.
Proof. intros Hok (E1 & E2 & _)%os_inv. apply (sigs_ok_os s); [done|by rewrite E2|done]. Qed.

Lemma procmask_ok how set (s s' : G) r : sigs_ok s → sigprocmask how set s = Ret r s' → sigs_ok s'.
Proof.
  intros Hok. unfold sigprocmask, bind at 1, get. cbn beta iota zeta. destruct set as [set|]; [|by intros [= _ <-]].
  assert (∀ m, sigs_ok (set_mask m s)) as Hm by (intros m; by apply (sigs_ok_os s)).
  destruct (how =? SIG_BLOCK); [by intros [= _ <-]|]. destruct (how =? SIG_UNBLOCK); [by intros [= _ <-]|].
  destruct (how =? SIG_SETMASK); [by intros [= _ <-]|].
  intros (u & s1 & E & [= _ <-])%bind_Ret_inv. by eapply os_ok.
Qed.

Lemma note_sig_range msg : __rc_note_sig msg ≠ SIGSTOP ∧ 0 ≤ __rc_note_sig msg.
Proof. unfold __rc_note_sig. by repeat case_decide. Qed.

Definition run_sig_call {B} (c : sig_call B) : M G B :=
  match c with
  | c_signal sig h => signal sig h
  | c_sigaction sig act => sigaction sig act
  | c_procmask how set => sigprocmask how set
  | c_threadmask how set => pthread_sigmask how set
  | c_altstack ss => sigaltstack ss
  | c_kill pid sig => os (kill pid sig)
  | c_raise sig => os (raise sig)
  end.

Definition use_app {B} (f : A → B * A) : M G B := λ s,
  let '(b, a) := f (sg_app s) in Ret b (Sigs (sg_os s) (sg_sa s) (sg_notify_on s) (sg_mask s) a).

Fixpoint run_code {B} (c : code K A B) : M G B :=
  match c with
  | h_ret r => ret r
  | h_crash => fault
  | h_call c k => x <- run_sig_call c ;; run_code (k x)
  | h_posix c k => x <- os c ;; run_code (k x)
  | h_app f k => x <- use_app f ;; run_code (k x)
  end.

Lemma signal_ok sig h (s s' : G) r : sigs_ok s → signal sig h s = Ret r s' → sigs_ok s'.
Proof.
  intros Hok E. unfold signal in E.
  destruct ((sig <=? 0) || _ || _ || _) eqn:Eb; [by injection E as _ <-|].
  apply bind_Ret_inv in E as (a & s2 & [-> Ha]%sa_load_inv & E). cbn zeta in E.
  apply bind_Ret_inv in E as (u1 & s3 & E1 & E).
  apply bind_Ret_inv in E as (u2 & s4 & E2 & [= _ <-]).
  apply (install_ok sig (Sigaction h (sa_mask a) 0 (sa_restorer a)) s s4 tt Hok).
  - unfold SIGKILL in *. lia.
  - unfold SIGSTOP in *. lia.
  - rewrite (bind_run _ _ _ _ _ E1). by destruct u2.
Qed.

Lemma sigaction_ok sig act (s s' : G) r : sigs_ok s → sigaction sig act s = Ret r s' → sigs_ok s'.
Proof.
  intros Hok E. unfold sigaction in E. destruct ((sig <=? 0) || _ || _) eqn:Eb.
  { apply bind_Ret_inv in E as (u & s2 & E1 & [= _ <-]). by eapply os_ok. }
  apply bind_Ret_inv in E as (a & s2 & [-> Ha]%sa_load_inv & E).
  apply bind_Ret_inv in E as ([] & s3 & E1 & [= _ <-]).
  destruct act as [act|]; [|by injection E1 as <-].
  rewrite bool_decide_true in Eb by done. apply (install_ok sig act s s3 tt Hok); [| |done].
  - unfold SIGKILL in *. lia.
  - unfold SIGSTOP in *. lia.
Qed.

Lemma sig_call_ok {B} (c : sig_call B) (s s' : G) b : sigs_ok s → run_sig_call c s = Ret b s' → sigs_ok s'.
Proof.
  intros Hok. destruct c; cbn [run_sig_call]; try by apply os_ok.
  - by apply signal_ok.
  - by apply sigaction_ok.
  - by apply procmask_ok.
  - intros ([r1 old] & s2 & E1 & E)%bind_Ret_inv. assert (sigs_ok s2) as Hok2 by (by eapply procmask_ok).
    destruct (negb (r1 =? 0)); by injection E as _ <-.
  - by intros [= _ <-].
Qed.

(** Whatever code the program runs keeps the table. *)
Lemma code_ok {B} (c : code K A B) (s s' : G) b : sigs_ok s → run_code c s = Ret b s' → sigs_ok s'.
Proof.
  revert s. induction c as [r| |X c k IH|X c k IH|X f k IH]; intros s Hok; cbn [run_code]; [by intros [= _ <-]|done|..];
    intros (x & s1 & E1 & E)%bind_Ret_inv; apply (IH x s1); try done.
  - by eapply sig_call_ok.
  - by eapply os_ok.
  - unfold use_app in E1. destruct (f _). injection E1 as _ <-. by apply (sigs_ok_os s).
Qed.
End table.

Section delivery.
Context {K A : Type} `{!Kernel K}.
Abbreviation G := (sigs K A).

Section note.
Context (call_handler : Z → Z → M G unit) (call_action : Z → Z → siginfo_t → M G unit).
Hypothesis Hhandler : ∀ h sig s s', sigs_ok s → call_handler h sig s = Ret tt s' → sigs_ok s'.
Hypothesis Haction : ∀ h sig info s s', sigs_ok s → call_action h sig info s = Ret tt s' → sigs_ok s'.

Lemma note_ok msg s s' : sigs_ok s → __rc_note call_handler call_action msg s = Ret tt s' → sigs_ok s'.
Proof.
  intros Hok. unfold __rc_note. cbn zeta. set (sig := __rc_note_sig msg).
  pose proof (note_sig_range msg) as [H19 H0]. fold sig in H19, H0.
  intros (a & s1 & [-> Ha]%sa_load_inv & E)%bind_Ret_inv.
  apply bind_Ret_inv in E as ([] & s2 & Ecall & E).
  assert (sigs_ok s2) as Hok2.
  { destruct (negb (Z.land (sa_flags a) SA_SIGINFO =? 0)); [by eapply Haction|].
    destruct (sa_fn a =? SIG_DFL).
    - apply bind_Ret_inv in Ecall as (r & s3 & E1 & [= <-]). by eapply os_ok.
    - destruct (negb (sa_fn a =? SIG_IGN)); [by eapply Hhandler|]. by injection Ecall as <-. }
  apply bind_Ret_inv in E as (a' & s3 & [-> Ha']%sa_load_inv & E).
  apply bind_Ret_inv in E as ([] & s4 & Er & E).
  apply bind_Ret_inv in E as (r & s5 & E1 & [= <-]). eapply os_ok; [|exact E1]. clear E1 s5.
  destruct (Z.eqb_spec (Z.land (sa_flags a') SA_RESETHAND) 0) as [Ez|Ez]; [by injection Er as <-|].
  cbn [negb] in Er. apply sa_store_inv in Er as [Hr ->].
  assert (a' ≠ sa_zero) as Hnz by (intros ->; done).
  eapply (sigs_ok_store sig _ s2 Hok2); [|done|lia|done|].
  - intros E9. rewrite E9, (g_kill _ Hok2) in Ha'. congruence.
  - cbn [set_sa sg_notify_on]. destruct (sg_notify_on s2) eqn:En; [done|]. exfalso.
    rewrite (g_notify _ Hok2 En) in Ha'. unfold idx in Ha'. rewrite decide_False in Ha' by lia.
    apply lookup_replicate in Ha' as [-> _]. done.
Qed.

End note.

(** A process: what its code does at each address, called as a [sa_handler] and
    as a [sa_sigaction].  An address that holds no function is [h_crash]. *)
Context (text_handler : Z → Z → code K A unit) (text_action : Z → Z → siginfo_t → code K A unit).

(** What happens to it: it runs some of its code, or a note is delivered. *)
Inductive sig_event := ERun (c : code K A unit) | ENote (msg : bytes).

Definition deliver (msg : bytes) : M G unit :=
  __rc_note (λ h sig, run_code (text_handler h sig)) (λ h sig info, run_code (text_action h sig info)) msg.

Definition run_event (e : sig_event) : M G unit :=
  match e with ERun c => run_code c | ENote msg => deliver msg end.

(** One event the program survives. *)
Definition sig_step (s s' : G) : Prop := ∃ e, run_event e s = Ret tt s'.

Lemma event_ok e s s' : sigs_ok s → run_event e s = Ret tt s' → sigs_ok s'.
Proof.
  intros Hok. destruct e as [c|msg]; cbn [run_event]; [by apply code_ok|].
  apply note_ok; [..|done]; intros; by eapply code_ok.
Qed.

Fixpoint run_events (l : list sig_event) : M G unit :=
  match l with [] => ret tt | e :: l => run_event e ;; run_events l end.

Lemma run_events_rtc l s s' : run_events l s = Ret tt s' → rtc sig_step s s'.
Proof.
  revert s. induction l as [|e l IH]; intros s; cbn [run_events]; [intros [= ->]; apply rtc_refl|].
  intros ([] & s1 & E & E')%bind_Ret_inv. apply (rtc_l _ _ s1); [by exists e|by apply IH].
Qed.

(** C34: the signal table over the whole life of a program, on any kernel.  The
    program and its handlers are any code that makes signal, sigaction, mask,
    kill and raise calls and calls of the layers below, keeps a state of its own
    and touches the statics of rc_signal.c by those calls only; between its calls
    any notes are delivered, and run the handlers.  In every state it reaches, no
    handler is on SIGKILL or SIGSTOP, any signal whose action was ever changed is
    one the kernel delivers notes for, and a kill note runs the default action
    and nothing of the program. *)
Theorem reachable_sigs_ok (p : posix K) (a : A) (s : G) : rtc sig_step (sigs_start p a) s →
  sigs_ok s ∧
  deliver (str "kill") s =
    (_ <- os (sys (sys_noted NDFLT)) ;; _ <- os (sys (sys_noted NCONT)) ;; ret tt) s.
Proof.
  intros H. assert (sigs_ok s) as Hok.
  { cut (∀ s1 s2, rtc sig_step s1 s2 → sigs_ok s1 → sigs_ok s2); [intros Hc; by apply (Hc _ _ H), sigs_ok_start|].
    induction 1 as [|s1 s2 s3 [e E] _ IH]; [done|]. intros Hs. apply IH. by eapply event_ok. }
  split; [done|]. unfold deliver, __rc_note. change (__rc_note_sig (str "kill")) with SIGKILL. cbn zeta.
  assert (∀ s' : G, sg_sa s' = sg_sa s → sa_load SIGKILL s' = Ret sa_zero s') as Hl.
  { intros s' E. unfold sa_load, bind, get. by rewrite E, (g_kill _ Hok). }
  rewrite (bind_run _ _ _ _ _ (Hl s eq_refl)). cbn [sa_flags sa_fn sa_zero].
  change (negb (Z.land 0 SA_SIGINFO =? 0)) with false. change (0 =? SIG_DFL) with true. cbn iota.
  rewrite bind_assoc. apply bind_congr. intros r s1 (E & _)%os_inv. rewrite bind_ret.
  by rewrite (bind_run _ _ _ _ _ (Hl s1 E)).
Qed.

End delivery.

Section installed.
Context {K A : Type} `{!Kernel K}.
Abbreviation G := (sigs K A).
Context (call_handler : Z → Z → M G unit) (call_action : Z → Z → siginfo_t → M G unit).

Lemma notify_run (s : G) : (∀ w : K, ∃ r w', sys_notify w = Ret r w') →
  ∃ s1, __rc_notify s = Ret tt s1 ∧ sg_sa s1 = sg_sa s ∧ sg_notify_on s1 = true.
Proof.
  intros Hn. destruct s as [[w er tab ini ctr] sa nt m app]. unfold __rc_notify. unfold bind at 1, get.
  cbn [sg_notify_on]. destruct nt; [by eexists; split; [done|split]|]. cbn [negb]. destruct (Hn w) as (r & w' & E).
  eexists. split; [unfold bind, os, zoom, sys, zoom; cbn; rewrite E; done|by split].
Qed.

(** What installing a handler leaves. *)
Lemma signal_run sig h (s : G) a : (∀ w : K, ∃ r w', sys_notify w = Ret r w') →
  1 ≤ sig < 32 → sig ≠ SIGKILL → sig ≠ SIGSTOP → idx (sg_sa s) sig = Some a → zlen (sg_sa s) = 32 →
  ∃ s1, signal sig h s = Ret (if negb (Z.land (sa_flags a) SA_SIGINFO =? 0) then SIG_DFL else sa_fn a) s1 ∧
    sg_sa s1 = <[Z.to_nat sig := Sigaction h (sa_mask a) 0 (sa_restorer a)]> (sg_sa s) ∧ sg_notify_on s1 = true.
Proof.
  intros Hn Hr H9 H19 Ha Hl. unfold signal, NSIG_RC, SIGKILL, SIGSTOP in *.
  replace ((sig <=? 0) || _ || _ || _) with false by lia.
  rewrite (bind_run _ _ a s s) by (unfold sa_load, bind, get; by rewrite Ha). cbn zeta.
  set (row := Sigaction _ _ _ _).
  rewrite (bind_run _ _ tt s (set_sa (<[Z.to_nat sig := row]> (sg_sa s)) s)).
  2:{ unfold sa_store, bind, get. by rewrite upd_Some by lia. }
  destruct (notify_run (set_sa (<[Z.to_nat sig := row]> (sg_sa s)) s) Hn) as (s1 & E & Esa & En).
  exists s1. by rewrite (bind_run _ _ _ _ _ E).
Qed.

(** C35: a handler that signal installed for SIGINT, SIGABRT or SIGTERM is what a
    raise of that signal runs: signal returns the handler before it, leaves every
    other signal's action alone, and from then on, as long as the action stands,
    delivering the note that kill and raise post for the signal runs the handler
    once, with the signal's number, and then finishes the note. *)
Theorem signal_delivery sig h (s : G)
  (Hok : sigs_ok s) (Hsig : sig = SIGINT ∨ sig = SIGABRT ∨ sig = SIGTERM)
  (Hh : h ≠ SIG_DFL ∧ h ≠ SIG_IGN) (Hn : ∀ w : K, ∃ r w', sys_notify w = Ret r w') :
  ∃ a s1, idx (sg_sa s) sig = Some a ∧
    signal sig h s = Ret (if negb (Z.land (sa_flags a) SA_SIGINFO =? 0) then SIG_DFL else sa_fn a) s1 ∧
    sg_notify_on s1 = true ∧
    (∀ sig', sig' ≠ sig → idx (sg_sa s1) sig' = idx (sg_sa s) sig') ∧
    (∀ s2 s3 : G, idx (sg_sa s2) sig = idx (sg_sa s1) sig → call_handler h sig s2 = Ret tt s3 →
       idx (sg_sa s3) sig = idx (sg_sa s1) sig →
       __rc_note call_handler call_action (__rc_sig_note sig) s2 = (_ <- os (sys (sys_noted NCONT)) ;; ret tt) s3).
Proof.
  assert (1 ≤ sig < 32 ∧ sig ≠ SIGKILL ∧ sig ≠ SIGSTOP) as (Hr & H9 & H19)
    by (unfold SIGINT, SIGABRT, SIGTERM, SIGKILL, SIGSTOP in *; lia).
  pose proof (g_len _ Hok) as Hl. unfold NSIG_RC in Hl. destruct Hh as [Hd Hi].
  destruct (idx_is_Some (sg_sa s) sig) as [a Ha]; [lia|].
  destruct (signal_run sig h s a Hn Hr H9 H19 Ha Hl) as (s1 & E & Esa & En).
  assert (idx (sg_sa s1) sig = Some (Sigaction h (sa_mask a) 0 (sa_restorer a))) as Hrow.
  { rewrite Esa. unfold idx, zlen in *. rewrite decide_False by lia. apply list_lookup_insert_eq. lia. }
  exists a, s1. split; [done|]. split; [done|]. split; [done|]. split.
  { intros sig' Hne. rewrite Esa. unfold idx. case_decide; [done|]. apply list_lookup_insert_ne. lia. }
  intros s2 s3 E2 Ecall E3.
  assert (∀ s' : G, idx (sg_sa s') sig = idx (sg_sa s1) sig →
    sa_load sig s' = Ret (Sigaction h (sa_mask a) 0 (sa_restorer a)) s') as Hload.
  { intros s' E'. unfold sa_load, bind, get. by rewrite E', Hrow. }
  unfold __rc_note. assert (__rc_note_sig (__rc_sig_note sig) = sig) as -> by (by destruct Hsig as [-> | [-> | ->]]).
  cbn zeta. rewrite (bind_run _ _ _ _ _ (Hload s2 E2)). cbn [sa_flags sa_fn sa_mask].
  change (negb (Z.land 0 SA_SIGINFO =? 0)) with false. cbn iota.
  replace (h =? SIG_DFL) with false by (unfold SIG_DFL in *; lia).
  replace (negb (h =? SIG_IGN)) with true by (unfold SIG_IGN in *; lia).
  rewrite (bind_run _ _ _ _ _ Ecall). by rewrite (bind_run _ _ _ _ _ (Hload s3 E3)).
Qed.

(** SA_SIGINFO with the default action: the note jumps to address 0. *)
Lemma siginfo_default_called m r (s : G) : idx (sg_sa s) SIGTERM = Some (Sigaction SIG_DFL m SA_SIGINFO r) →
  call_action SIG_DFL SIGTERM (Siginfo SIGTERM 0 0 0 0 0 0 0) s = Fault →
  __rc_note call_handler call_action (str "terminate") s = Fault.
Proof.
  intros Hrow Hf. unfold __rc_note. change (__rc_note_sig (str "terminate")) with SIGTERM. cbn zeta.
  rewrite (bind_run _ _ (Sigaction SIG_DFL m SA_SIGINFO r) s s) by (unfold sa_load, bind, get; by rewrite Hrow).
  cbn [sa_flags sa_fn]. change (negb (Z.land SA_SIGINFO SA_SIGINFO =? 0)) with true. cbn iota.
  by apply bind_fault.
Qed.
End installed.

(** ** Witnesses *)

(** The program's state counts the signals it saw. *)
Definition count_handler (h sig : Z) : M (sigs ram (list Z)) unit :=
  modify (λ s, Sigs (sg_os s) (sg_sa s) (sg_notify_on s) (sg_mask s) (sg_app s ++ [sig])).
Definition count_action (h sig : Z) (info : siginfo_t) : M (sigs ram (list Z)) unit := count_handler h sig.

Definition sigs0 : sigs ram (list Z) := sigs_start (posix_start ram0) [].

(** A program with a handler at 4096 that notes the signal, puts itself back and
    tries to get SIGKILL, and one at 8192, called with its siginfo_t, that notes
    the signal and raises SIGINT. *)
Definition note_sig (sig : Z) (k : code ram (list Z) unit) : code ram (list Z) unit :=
  h_app (λ l, (tt, l ++ [sig])) (λ _, k).
Definition ex_handler (h sig : Z) : code ram (list Z) unit :=
  if h =? 4096 then note_sig sig (h_call (c_signal sig h) (λ _,
    h_call (c_signal SIGKILL h) (λ r, h_app (λ l, (tt, l ++ [r])) (λ _, h_ret tt))))
  else h_crash.
Definition ex_action (h sig : Z) (info : siginfo_t) : code ram (list Z) unit :=
  if h =? 8192 then note_sig (si_signo info) (h_call (c_raise SIGINT) (λ _, h_ret tt)) else h_crash.
(** It installs both, the second for one note, and is sent three notes. *)
Definition ex_events : list (sig_event (K := ram) (A := list Z)) :=
  [ERun (h_call (c_signal SIGINT 4096) (λ _,
     h_call (c_sigaction SIGTERM (Some (Sigaction 8192 0 (Z.lor SA_SIGINFO SA_RESETHAND) 0))) (λ _,
     h_call (c_sigaction SIGSTOP (Some (Sigaction 4096 0 0 0))) (λ _, h_ret tt))));
   ENote (str "interrupt"); ENote (str "terminate"); ENote (str "interrupt")].
Definition ex_sigs_end : sigs ram (list Z) :=
  match run_events ex_handler ex_action ex_events sigs0 with Ret _ s | Halt _ s => s | _ => sigs0 end.

Lemma reachable_sigs_ok_witness :
  sg_app ex_sigs_end = [SIGINT; SIG_ERR; SIGTERM; SIGINT; SIG_ERR] ∧
  idx (sg_sa ex_sigs_end) SIGINT = Some (Sigaction 4096 0 0 0) ∧
  idx (sg_sa ex_sigs_end) SIGTERM = Some (Sigaction SIG_DFL 0 SA_RESETHAND 0) ∧
  sigs_ok ex_sigs_end ∧
  deliver ex_handler ex_action (str "kill") ex_sigs_end =
    (_ <- os (sys (sys_noted NDFLT)) ;; _ <- os (sys (sys_noted NCONT)) ;; ret tt) ex_sigs_end.
Proof.
  split; [vm_compute; reflexivity|]. split; [vm_compute; reflexivity|]. split; [vm_compute; reflexivity|].
  apply (reachable_sigs_ok ex_handler ex_action (posix_start ram0) []).
  apply (run_events_rtc ex_handler ex_action ex_events). vm_compute. reflexivity.
Defined.

(** A handler for SIGINT, run once by the console's note. *)
Lemma signal_delivery_witness :
  (let s := match signal SIGINT 4096 sigs0 with Ret _ s => s | _ => sigs0 end in
   match __rc_note count_handler count_action (str "interrupt") s with Ret _ s => sg_app s | _ => [] end = [SIGINT]) ∧
  ∃ a s1, idx (sg_sa sigs0) SIGINT = Some a ∧
    signal SIGINT 4096 sigs0 = Ret (if negb (Z.land (sa_flags a) SA_SIGINFO =? 0) then SIG_DFL else sa_fn a) s1 ∧
    sg_notify_on s1 = true ∧
    (∀ sig', sig' ≠ SIGINT → idx (sg_sa s1) sig' = idx (sg_sa sigs0) sig') ∧
    (∀ s2 s3, idx (sg_sa s2) SIGINT = idx (sg_sa s1) SIGINT → count_handler 4096 SIGINT s2 = Ret tt s3 →
       idx (sg_sa s3) SIGINT = idx (sg_sa s1) SIGINT →
       __rc_note count_handler count_action (__rc_sig_note SIGINT) s2 = (_ <- os (sys (sys_noted NCONT)) ;; ret tt) s3).
Proof.
  split; [vm_compute; reflexivity|].
  apply (signal_delivery count_handler count_action SIGINT 4096 sigs0); [apply sigs_ok_start|by left|done|].
  intros w. by exists 0, w.
Defined.

(** ~SIGINT on the full set, blocked, then read back. *)
Lemma sigset_refines_witness :
  ∃ s', run_calls run_set_call [CFill; CDel SIGINT; CAdd 40; CMask SIG_BLOCK; CEmpty; CGetMask; CIsMember SIGTERM; CIsMember SIGINT]
          (sigs_start (posix_start ram0) 0) = Ret [0; 0; -1; 0; 0; 0; 1; 0] s' ∧
    set_abs s' = (spec_calls set_spec [CFill; CDel SIGINT; CAdd 40; CMask SIG_BLOCK; CEmpty; CGetMask; CIsMember SIGTERM; CIsMember SIGINT]
          (set_abs (sigs_start (posix_start ram0) 0))).2 ∧ True.
Proof.
  apply (sigset_refines [CFill; CDel SIGINT; CAdd 40; CMask SIG_BLOCK; CEmpty; CGetMask; CIsMember SIGTERM; CIsMember SIGINT]
    (sigs_start (posix_start ram0) 0)). exact I.
Defined.

(** A number of more than seven digits is printed without its first ones. *)
Lemma strsignal_cut : strsignal 123456789 tt = Ret (str "Unknown signal 3456789") tt ∧
  strsignal SIGTERM tt = Ret (str "Terminated") tt ∧ strsignal (-7) tt = Ret (str "Unknown signal -7") tt.
Proof. vm_compute. done. Qed.
