(* ===== verification/RcPthread.v ===== *)
(** Threads of a program with one: src/lib/racccoon-libc/src/rc_pthread.c.

    The state is the running program of Start with this file's statics and the
    objects it works on in front of the program's own state: the thread records,
    the mutexes and once-controls by address, the key table.  [setjmp] and
    [longjmp] are a second way to end: a thread's function returns [inl v], or
    [inr tt] where pthread_exit jumped out of it, to the innermost
    pthread_create, whose record holds the result already. *)
From S2P Require Import Prelude CMonad CMemory CBuffer Kernel RcFs RcFd RcPosix Printf Stdio Time Start Ram.

(** include/errno.h, include/pthread.h *)
Definition EDEADLK : Z := 35.
Definition PTHREAD_MUTEX_NORMAL : Z := 0.
Definition PTHREAD_MUTEX_RECURSIVE : Z := 1.
Definition PTHREAD_MUTEX_ERRORCHECK : Z := 2.
Definition PTHREAD_MUTEX_DEFAULT : Z := PTHREAD_MUTEX_NORMAL.
Definition PTHREAD_ONCE_INIT : Z := 0.
Definition PTHREAD_KEYS_MAX : Z := 128.

(** pthread_mutex_t *)
Record mutex := Mutex { m_count : Z; m_type : Z }.

Record threads (A : Type) := Threads {
  t_recs : gmap Z (option Z);    (* struct rc_thread by address: its ret, None while it is uninitialised *)
  t_next : Z;                (* the address the next record gets *)
  t_cur : option Z;          (* cur_thread *)
  t_mutex : gmap Z mutex;
  t_once : gmap Z Z;
  t_used : list Z;           (* key_used *)
  t_value : list Z;          (* key_value *)
  t_app : A;
}.
Arguments Threads {A}.
Arguments t_recs {A}.
Arguments t_next {A}.
Arguments t_cur {A}.
Arguments t_mutex {A}.
Arguments t_once {A}.
Arguments t_used {A}.
Arguments t_value {A}.
Arguments t_app {A}.

Definition threads_start {A} (a : A) : threads A :=
  Threads ∅ 65536 None ∅ ∅ (replicate 128 0) (replicate 128 0) a.

Section setters.
Context {A : Type}.
Implicit Types t : threads A.
Definition set_recs r t := Threads r (t_next t) (t_cur t) (t_mutex t) (t_once t) (t_used t) (t_value t) (t_app t).
Definition set_next n t := Threads (t_recs t) n (t_cur t) (t_mutex t) (t_once t) (t_used t) (t_value t) (t_app t).
Definition set_cur c t := Threads (t_recs t) (t_next t) c (t_mutex t) (t_once t) (t_used t) (t_value t) (t_app t).
Definition set_mutexes m t := Threads (t_recs t) (t_next t) (t_cur t) m (t_once t) (t_used t) (t_value t) (t_app t).
Definition set_onces o t := Threads (t_recs t) (t_next t) (t_cur t) (t_mutex t) o (t_used t) (t_value t) (t_app t).
Definition set_keys u v t := Threads (t_recs t) (t_next t) (t_cur t) (t_mutex t) (t_once t) u v (t_app t).
End setters.

(** ** Mutex attributes: the type they hold before, the result and the type after. *)

Definition pthread_mutexattr_init (a : Z) : Z * Z := (0, PTHREAD_MUTEX_DEFAULT).
Definition pthread_mutexattr_destroy (a : Z) : Z * Z := (0, a).
Definition pthread_mutexattr_settype (a type : Z) : Z * Z :=
  if (type <? PTHREAD_MUTEX_NORMAL) || (PTHREAD_MUTEX_ERRORCHECK <? type) then (EINVAL, a) else (0, type).
Definition pthread_mutexattr_gettype (a : Z) : Z * Z := (0, a).
Definition pthread_attr_init : Z := 0.
Definition pthread_attr_destroy : Z := 0.
Definition pthread_attr_setstacksize (s : Z) : Z := 0.
Definition pthread_equal (a b : Z) : bool := a =? b.
Definition pthread_cond_init : Z := 0.
Definition pthread_cond_destroy : Z := 0.
Definition pthread_cond_signal : Z := 0.
Definition pthread_cond_broadcast : Z := 0.

Section pthread.
Context {K A : Type} `{!Kernel K} (junk : bytes) (fmt_fp : va_slot → Z → Z → Z → Z → bytes).
Abbreviation G := (prog K (threads A)).
(** an exit handler; a thread's function; a once-function; the destructors *)
Context (call_exit : Z → Z → M G unit) (call_thread : Z → Z → M G (Z + unit)) (call_once : Z → M G unit).
Context (fini : list (M G unit)).

Definition set_th (t : threads A) (s : G) : G := Prog (pg_io s) (pg_fns s) t.
Program Definition th_lens : lens G (threads A) := Lens _ _ pg_app set_th _ _ _.
Next Obligation. done. Qed.
Next Obligation. by intros []. Qed.
Next Obligation. done. Qed.
Definition th {B} (c : M (threads A) B) : M G B := zoom th_lens c.

Definition deadlock (what : bytes) : M G unit :=
  _ <- io (on stderr (fprintf junk fmt_fp
         (str "racccoon: %s would wait forever (single-threaded program)" ++ [10]) [VStr (Some what)])) ;;
  abort.

(** ** Threads *)

(** [th->ret = v], the record still there; [th->ret] *)
Definition rec_store (me v : Z) : M G unit :=
  s <- th get ;; _ <- of_option (t_recs s !! me) ;; th (put (set_recs (<[me := Some v]> (t_recs s)) s)).
Definition rec_load (t : Z) : M G Z := s <- th get ;; v <- of_option (t_recs s !! t) ;; of_option v.
(** [free(th)] *)
Definition rec_free (t : Z) : M G unit :=
  s <- th get ;; _ <- of_option (t_recs s !! t) ;; th (put (set_recs (delete t (t_recs s)) s)).

(** The result, and the new thread's id in [*t]. *)
Definition pthread_create (fn arg : Z) : M G (Z * option Z) :=
  ok <- io (heap 8) ;;
  if negb ok then ret (EAGAIN, None)
  else
    t <- th get ;;
    let me := t_next t in
    let outer := t_cur t in
    th (put (set_cur (Some me) (set_next (me + 16) (set_recs (<[me := None]> (t_recs t)) t)))) ;;
    r <- call_thread fn arg ;;
    (match r with inl v => rec_store me v | inr _ => ret tt end) ;;
    th (modify (set_cur outer)) ;;
    ret (0, Some me).

(** The result, and [*r]. *)
Definition pthread_join (t : Z) : M G (Z * option Z) :=
  if t =? 1 then ret (EDEADLK, None)
  else v <- rec_load t ;; rec_free t ;; ret (0, Some v).

Definition pthread_detach (t : Z) : M G Z :=
  (if negb (t =? 1) then rec_free t else ret tt) ;; ret 0.

(** It does not come back; in a thread's function its [inr tt] is the result. *)
Definition pthread_exit (r : Z) : M G (Z + unit) :=
  s <- th get ;;
  match t_cur s with
  | None => exit junk call_exit fini 0
  | Some me => rec_store me r ;; ret (inr tt)
  end.
Definition pthread_self : M G Z := s <- th get ;; ret (default 1 (t_cur s)).

(** ** Mutexes *)

Definition mutex_load (m : Z) : M G mutex := s <- th get ;; of_option (t_mutex s !! m).
Definition mutex_store (m : Z) (v : mutex) : M G unit := th (modify (λ s, set_mutexes (<[m := v]> (t_mutex s)) s)).

Definition pthread_mutex_init (m : Z) (a : option Z) : M G Z :=
  mutex_store m (Mutex 0 (default PTHREAD_MUTEX_DEFAULT a)) ;; ret 0.
Definition pthread_mutex_destroy (m : Z) : M G Z :=
  v <- mutex_load m ;; ret (if negb (m_count v =? 0) then EBUSY else 0).
(** [m->_count++] *)
Definition mutex_enter (m : Z) (v : mutex) : M G Z :=
  c <- int_ok (m_count v + 1) ;; mutex_store m (Mutex c (m_type v)) ;; ret 0.
Definition pthread_mutex_trylock (m : Z) : M G Z :=
  v <- mutex_load m ;;
  if negb (m_count v =? 0) && negb (m_type v =? PTHREAD_MUTEX_RECURSIVE) then ret EBUSY else mutex_enter m v.
Definition pthread_mutex_lock (m : Z) : M G Z :=
  v <- mutex_load m ;;
  if negb (m_count v =? 0) && negb (m_type v =? PTHREAD_MUTEX_RECURSIVE) then
    if m_type v =? PTHREAD_MUTEX_ERRORCHECK then ret EDEADLK
    else deadlock (str "pthread_mutex_lock (relock)") ;; mutex_enter m v
  else mutex_enter m v.
Definition pthread_mutex_unlock (m : Z) : M G Z :=
  v <- mutex_load m ;;
  if m_count v =? 0 then ret EPERM
  else c <- int_ok (m_count v - 1) ;; mutex_store m (Mutex c (m_type v)) ;; ret 0.

(** ** Condition variables *)

Definition pthread_cond_wait : M G Z := deadlock (str "pthread_cond_wait") ;; ret 0.

(** [long long] arithmetic *)
Definition llong_ok (x : Z) : M G Z := if decide (LLONG_MIN ≤ x ≤ LLONG_MAX) then ret x else fault.
Definition pthread_cond_timedwait (abstime : timespec) : M G Z :=
  now <- io (px (clock_gettime CLOCK_REALTIME)) ;;
  now <- of_option now ;;
  secs <- llong_ok (tv_sec abstime - tv_sec now) ;;
  a <- llong_ok (secs * 1000000000) ;;
  b <- llong_ok (tv_nsec abstime - tv_nsec now) ;;
  ns <- llong_ok (a + b) ;;
  (if 0 <? ns then
     _ <- io (px (nanosleep (Timespec (Z.quot ns 1000000000) (Z.rem ns 1000000000)))) ;; ret tt
   else ret tt) ;;
  ret ETIMEDOUT.

(** ** Once *)

Definition pthread_once (once fn : Z) : M G Z :=
  s <- th get ;;
  v <- of_option (t_once s !! once) ;;
  (if v =? PTHREAD_ONCE_INIT then
     th (put (set_onces (<[once := 1]> (t_once s)) s)) ;; call_once fn
   else ret tt) ;;
  ret 0.

(** ** Keys *)

(** The result, and [*k]. *)
Definition pthread_key_create : M G (Z * option Z) :=
  loop (λ i,
    if i <? PTHREAD_KEYS_MAX then
      s <- th get ;;
      u <- of_option (idx (t_used s) i) ;;
      if u =? 0 then
        used <- of_option (upd (t_used s) i 1) ;;
        value <- of_option (upd (t_value s) i 0) ;;
        th (put (set_keys used value s)) ;; ret (Break (0, Some i))
      else ret (Continue (i + 1))
    else ret (Break (EAGAIN, None))) 0.

(** [k >= PTHREAD_KEYS_MAX || !key_used[k]]; [k] is unsigned *)
Definition bad_key (k : Z) : M G bool :=
  if PTHREAD_KEYS_MAX <=? k then ret true
  else s <- th get ;; u <- of_option (idx (t_used s) k) ;; ret (u =? 0).
Definition pthread_key_delete (k : Z) : M G Z :=
  bad <- bad_key k ;;
  if bad : bool then ret EINVAL
  else s <- th get ;; used <- of_option (upd (t_used s) k 0) ;; th (put (set_keys used (t_value s) s)) ;; ret 0.
Definition pthread_getspecific (k : Z) : M G Z :=
  bad <- bad_key k ;; if bad : bool then ret 0 else s <- th get ;; of_option (idx (t_value s) k).
Definition pthread_setspecific (k v : Z) : M G Z :=
  bad <- bad_key k ;;
  if bad : bool then ret EINVAL
  else s <- th get ;; value <- of_option (upd (t_value s) k v) ;; th (put (set_keys (t_used s) value s)) ;; ret 0.

Definition sched_yield : M G Z := _ <- io (px (sys sys_yield)) ;; ret 0.
End pthread.

(** * Lemmas *)

Section run.
Context {K A : Type} `{!Kernel K}.
Abbreviation G := (prog K (threads A)).
Implicit Types (s : G).

Lemma th_get s : th get s = Ret (pg_app s) s.
Proof. by destruct s. Qed.
Lemma th_put t s : th (put t) s = Ret tt (set_th t s).
Proof. done. Qed.

(** ** Keys: the two arrays as a finite map *)

Definition keys_of (u v : list Z) : gmap nat Z :=
  omap id (map_seq 0 (zip_with (λ a b, if a =? 0 then None else Some b) u v)).
Definition keys_ok s : Prop := zlen (t_used (pg_app s)) = 128 ∧ zlen (t_value (pg_app s)) = 128.
Definition keys_abs s : gmap nat Z := keys_of (t_used (pg_app s)) (t_value (pg_app s)).

Lemma keys_lookup u v i :
  keys_of u v !! i = a ← u !! i; b ← v !! i; if a =? 0 then None else Some b.
Proof.
  unfold keys_of. rewrite lookup_omap, lookup_map_seq_0, lookup_zip_with.
  destruct (u !! i), (v !! i); simpl; done.
Qed.

(** The keys of the library: pthread_key_t is unsigned. *)
Inductive key_call := KCreate | KDelete (k : nat) | KGet (k : nat) | KSet (k : nat) (v : Z).

(** The call's result, and what it gives back besides. *)
Definition run_key_call (c : key_call) : M G (Z * option Z) :=
  match c with
  | KCreate => pthread_key_create
  | KDelete k => r <- pthread_key_delete (Z.of_nat k) ;; ret (r, None)
  | KGet k => v <- pthread_getspecific (Z.of_nat k) ;; ret (0, Some v)
  | KSet k v => r <- pthread_setspecific (Z.of_nat k) v ;; ret (r, None)
  end.

Definition first_free (m : gmap nat Z) : option nat := fst <$> list_find (λ i, m !! i = None) (seq 0 128).

Definition key_spec (c : key_call) (m : gmap nat Z) : (Z * option Z) * gmap nat Z :=
  match c with
  | KCreate =>
      match first_free m with
      | Some k => ((0, Some (Z.of_nat k)), <[k := 0]> m)
      | None => ((EAGAIN, None), m)
      end
  | KDelete k => if decide (is_Some (m !! k)) then ((0, None), delete k m) else ((EINVAL, None), m)
  | KGet k => ((0, Some (default 0 (m !! k))), m)
  | KSet k v => if decide (is_Some (m !! k)) then ((0, None), <[k := v]> m) else ((EINVAL, None), m)
  end.

Lemma keys_set u v k x : length u = 128%nat → length v = 128%nat → (k < 128)%nat →
  keys_of (<[k := 1]> u) (<[k := x]> v) = <[k := x]> (keys_of u v).
Proof.
  intros Hu Hv Hk. apply map_eq. intros i. rewrite keys_lookup. destruct (decide (i = k)) as [->|Hne].
  - by rewrite !list_lookup_insert_eq, lookup_insert_eq by lia.
  - rewrite !list_lookup_insert_ne, lookup_insert_ne by lia. by rewrite keys_lookup.
Qed.

Lemma keys_set_value u v k x : length u = 128%nat → length v = 128%nat → is_Some (keys_of u v !! k) →
  keys_of u (<[k := x]> v) = <[k := x]> (keys_of u v).
Proof.
  intros Hu Hv Hk. rewrite keys_lookup in Hk. apply map_eq. intros i. rewrite keys_lookup.
  destruct (decide (i = k)) as [->|Hne].
  - rewrite lookup_insert_eq. destruct (u !! k) as [a|] eqn:Ea; [|by destruct Hk]. simpl in *.
    apply lookup_lt_Some in Ea. rewrite list_lookup_insert_eq by lia. simpl.
    destruct (v !! k); [|by destruct Hk]. simpl in *. by destruct (a =? 0); [destruct Hk|].
  - rewrite list_lookup_insert_ne, lookup_insert_ne by lia. by rewrite keys_lookup.
Qed.

Lemma keys_delete u v k : length u = 128%nat → length v = 128%nat →
  keys_of (<[k := 0]> u) v = delete k (keys_of u v).
Proof.
  intros Hu Hv. apply map_eq. intros i. rewrite keys_lookup. destruct (decide (i = k)) as [->|Hne].
  - rewrite lookup_delete_eq. destruct (decide (k < 128)%nat).
    + rewrite list_lookup_insert_eq by lia. by destruct (v !! k).
    + by rewrite (lookup_ge_None_2 (<[k := 0]> u) k) by (rewrite length_insert; lia).
  - rewrite list_lookup_insert_ne, lookup_delete_ne by lia. by rewrite keys_lookup.
Qed.

Lemma idx_of_nat_lt (l : list Z) k : zlen l = 128 → (k < 128)%nat → ∃ x, l !! k = Some x ∧ idx l (Z.of_nat k) = Some x.
Proof.
  intros Hl Hk. unfold zlen in Hl. destruct (lookup_lt_is_Some_2 l k) as [x Hx]; [lia|].
  exists x. split; [done|]. by rewrite idx_of_nat.
Qed.

Lemma bad_key_run k s : keys_ok s →
  bad_key (Z.of_nat k) s = Ret (negb (bool_decide (is_Some (keys_abs s !! k)))) s.
Proof.
  intros [Hu Hv]. unfold bad_key, keys_abs, PTHREAD_KEYS_MAX. rewrite keys_lookup.
  destruct (Z.leb_spec 128 (Z.of_nat k)).
  - rewrite (lookup_ge_None_2 (t_used (pg_app s))) by (unfold zlen in *; lia). done.
  - destruct (idx_of_nat_lt _ k Hu ltac:(lia)) as (a & Ea & Ia). destruct (idx_of_nat_lt _ k Hv ltac:(lia)) as (b & Eb & _).
    rewrite (bind_run _ _ _ _ _ (th_get s)), Ia, Ea, Eb. unfold of_option. rewrite bind_ret. simpl.
    destruct (a =? 0); [rewrite bool_decide_false; [done|by intros [? ?]]|by rewrite bool_decide_true by done].
Qed.

(** The first key that is not in use. *)
Lemma first_free_spec m : match first_free m with
  | Some k => (k < 128)%nat ∧ m !! k = None ∧ ∀ i, (i < k)%nat → is_Some (m !! i)
  | None => ∀ i, (i < 128)%nat → is_Some (m !! i)
  end.
Proof.
  unfold first_free. pose proof (lookup_seq 0 128) as Hs. revert Hs. generalize (seq 0 128). intros l Hs.
  destruct (list_find _ _) as [[k x]|] eqn:E; simpl.
  - apply list_find_Some in E as (Ek & Hx & Hlt). apply Hs in Ek as [-> Hk].
    split; [done|]. split; [done|]. intros i Hi. apply not_eq_None_Some. apply (Hlt i); [|done].
    apply Hs. lia.
  - apply list_find_None in E. intros i Hi. apply not_eq_None_Some.
    apply (proj1 (Forall_lookup _ _) E i). by apply Hs.
Qed.

Lemma key_create_run s : keys_ok s →
  ∃ s', pthread_key_create s = Ret (key_spec KCreate (keys_abs s)).1 s' ∧
    keys_abs s' = (key_spec KCreate (keys_abs s)).2 ∧ keys_ok s'.
Proof.
  intros [Hu Hv]. pose proof (first_free_spec (keys_abs s)) as Hf. cbn [key_spec].
  assert (∀ i, (i < 128)%nat → ∃ a, idx (t_used (pg_app s)) (Z.of_nat i) = Some a ∧
      (a = 0 ↔ keys_abs s !! i = None)) as Hi.
  { intros i Hi. destruct (idx_of_nat_lt _ i Hu Hi) as (a & Ea & Ia). destruct (idx_of_nat_lt _ i Hv Hi) as (b & Eb & _).
    exists a. split; [done|]. unfold keys_abs. rewrite keys_lookup, Ea, Eb. simpl. destruct (Z.eqb_spec a 0); by split. }
  set (k := default 128%nat (first_free (keys_abs s))).
  assert (k ≤ 128)%nat as Hk by (subst k; destruct (first_free _); simpl; [destruct Hf; lia|lia]).
  assert (∀ i, (i < k)%nat → is_Some (keys_abs s !! i)) as Hbelow.
  { intros i Hik. subst k. destruct (first_free _); simpl in *; [by apply Hf|by apply Hf]. }
  set (r := (match first_free (keys_abs s) with Some k => ((0, Some (Z.of_nat k)), <[k := 0]> (keys_abs s))
             | None => ((EAGAIN, None), keys_abs s) end)).
  set (s' := match first_free (keys_abs s) with
             | Some k => set_th (set_keys (<[k := 1]> (t_used (pg_app s))) (<[k := 0]> (t_value (pg_app s))) (pg_app s)) s
             | None => s end).
  exists s'. split; [|subst s' r; destruct (first_free (keys_abs s)) as [j|]; [|by split]].
  2:{ destruct Hf as (Hj & _). unfold zlen in *. split; [apply keys_set; lia|].
      split; unfold zlen; cbn; by rewrite length_insert. }
  apply (loop_steps _ id (λ _, s) (Z.of_nat k)); [lia|done|done| |].
  - intros i Hik. unfold id. replace (i <? PTHREAD_KEYS_MAX) with true by (unfold PTHREAD_KEYS_MAX; lia). cbn iota.
    rewrite (bind_run _ _ _ _ _ (th_get s)). destruct (Hi (Z.to_nat i)) as (a & Ea & Ha); [lia|].
    rewrite Z2Nat.id in Ea by lia. rewrite Ea. unfold of_option at 1. rewrite bind_ret.
    destruct (Hbelow (Z.to_nat i)) as [x Hx]; [lia|]. destruct (Z.eqb_spec a 0) as [E|]; [|done].
    apply Ha in E. congruence.
  - unfold id, PTHREAD_KEYS_MAX. subst k s' r. destruct (first_free (keys_abs s)) as [j|]; [|done]. change (default 128%nat (Some j)) with j.
    destruct Hf as (Hj & Hn & _). replace (Z.of_nat j <? 128) with true by lia. cbn iota.
    rewrite (bind_run _ _ _ _ _ (th_get s)). destruct (Hi j Hj) as (a & Ea & Ha). rewrite Ea.
    unfold of_option at 1. rewrite bind_ret. apply Ha in Hn as ->. cbn iota.
    rewrite !upd_Some by lia. rewrite Nat2Z.id. done.
Qed.

Lemma key_in_range k s : keys_ok s → is_Some (keys_abs s !! k) →
  (k < 128)%nat ∧ ∃ x, idx (t_value (pg_app s)) (Z.of_nat k) = Some x ∧ keys_abs s !! k = Some x.
Proof.
  intros [Hu Hv] Hk. unfold keys_abs in *. rewrite keys_lookup in *.
  destruct (t_used (pg_app s) !! k) as [a|] eqn:E; [|by destruct Hk]. pose proof (lookup_lt_Some _ _ _ E) as Hlt.
  unfold zlen in Hu. split; [lia|]. destruct (idx_of_nat_lt _ k Hv ltac:(lia)) as (b & Eb & Ib). exists b.
  split; [done|]. rewrite Eb in *. simpl in *. by destruct (a =? 0); [destruct Hk|].
Qed.

Lemma key_call_implements c : implements keys_ok keys_abs (run_key_call c) (key_spec c).
Proof.
  intros s Hok. pose proof Hok as [Hu Hv]. destruct c as [|k|k|k v]; cbn [run_key_call].
  - by apply key_create_run.
  - unfold pthread_key_delete, key_spec. rewrite bind_assoc, (bind_run _ _ _ _ _ (bad_key_run k s Hok)).
    case_decide as Hk; [rewrite bool_decide_true by done|rewrite bool_decide_false by done; by exists s].
    cbn [negb]. rewrite bind_assoc, (bind_run _ _ _ _ _ (th_get s)).
    pose proof (key_in_range k s Hok Hk) as (Hlt & _).
    rewrite upd_Some by lia. rewrite Nat2Z.id. eexists. split; [done|]. unfold zlen in *.
    split; [apply (keys_delete (t_used (pg_app s)) (t_value (pg_app s)) k); lia|]. split; unfold zlen; cbn; [rewrite length_insert|]; lia.
  - unfold pthread_getspecific, key_spec. rewrite bind_assoc, (bind_run _ _ _ _ _ (bad_key_run k s Hok)).
    exists s. split; [|by split]. case_bool_decide as Hk; cbn [negb].
    + rewrite bind_assoc, (bind_run _ _ _ _ _ (th_get s)).
      pose proof (key_in_range k s Hok Hk) as (Hlt & x & Ev & ->). by rewrite Ev.
    + apply eq_None_not_Some in Hk. by rewrite Hk.
  - unfold pthread_setspecific, key_spec. rewrite bind_assoc, (bind_run _ _ _ _ _ (bad_key_run k s Hok)).
    case_decide as Hk; [rewrite bool_decide_true by done|rewrite bool_decide_false by done; by exists s].
    cbn [negb]. rewrite bind_assoc, (bind_run _ _ _ _ _ (th_get s)).
    pose proof (key_in_range k s Hok Hk) as (Hlt & _).
    rewrite upd_Some by lia. rewrite Nat2Z.id. eexists. split; [done|]. unfold zlen in *.
    split; [apply (keys_set_value (t_used (pg_app s)) (t_value (pg_app s)) k v); [lia..|done]|]. split; unfold zlen; cbn; [|rewrite length_insert]; lia.
Qed.

(** C11: the key calls implement a finite map from keys to values, whatever
    sequence of them a program makes: pthread_key_create gives the least key not
    in use, with value 0, and fails with EAGAIN exactly when all 128 are in use;
    pthread_getspecific gives what was last set, and 0 for a key not in use;
    pthread_setspecific and pthread_key_delete change that key alone, and fail
    with EINVAL, changing nothing, exactly on a key not in use. *)
Theorem pthread_keys_refine (calls : list key_call) :
  implements keys_ok keys_abs (run_calls run_key_call calls) (spec_calls key_spec calls).
Proof. apply implements_calls, key_call_implements. Qed.
End run.

(** ** Threads, mutexes, once-controls *)

Section records.
Context {K A : Type} `{!Kernel K}.
Abbreviation G := (prog K (threads A)).
Implicit Types (s : G).

Lemma io_inv {B} (c : M (stdio K) B) s s' b : io c s = Ret b s' → pg_app s' = pg_app s.
Proof. unfold io, zoom. destruct (c _); try done. by intros [= _ <-]. Qed.

Lemma rec_store_run me v s : is_Some (t_recs (pg_app s) !! me) →
  rec_store me v s = Ret tt (set_th (set_recs (<[me := Some v]> (t_recs (pg_app s))) (pg_app s)) s).
Proof. intros [x Hx]. unfold rec_store. by rewrite (bind_run _ _ _ _ _ (th_get s)), Hx. Qed.

(** The state a new thread's function runs in. *)
Definition in_thread s : G :=
  let t := pg_app s in
  set_th (set_cur (Some (t_next t)) (set_next (t_next t + 16) (set_recs (<[t_next t := None]> (t_recs t)) t))) s.

End records.

Section create.
Context {K A : Type} `{!Kernel K}.
Abbreviation G := (prog K (threads A)).
Context (junk : bytes) (call_exit : Z → Z → M G unit) (call_thread : Z → Z → M G (Z + unit)) (fini : list (M G unit)).
Implicit Types (s : G).

(** C36: a thread runs to its end inside pthread_create and pthread_join gives its
    result once: for any function that computes [body] and then returns [v] or
    calls pthread_exit with it, pthread_create returns 0 and a thread id, the
    caller is the current thread again, joining that id gives [v], and a second
    join is a use of freed memory; inside the function, pthread_self is the id. *)
Theorem create_join_correct fn arg (body : M G unit) v s s0 s2
  (Hheap : io (heap 8) s = Ret true s0) (Hme : t_next (pg_app s) ≠ 1)
  (Hfn : call_thread fn arg = (body ;; ret (inl v)) ∨ call_thread fn arg = (body ;; pthread_exit junk call_exit fini v))
  (Hbody : body (in_thread s0) = Ret tt s2)
  (Hkeep : t_cur (pg_app s2) = Some (t_next (pg_app s)) ∧ is_Some (t_recs (pg_app s2) !! t_next (pg_app s))) :
  let me := t_next (pg_app s) in
  ∃ s3 s4, pthread_create call_thread fn arg s = Ret (0, Some me) s3 ∧
    pthread_self (in_thread s0) = Ret me (in_thread s0) ∧
    t_cur (pg_app s3) = t_cur (pg_app s) ∧
    pthread_join me s3 = Ret (0, Some v) s4 ∧ t_recs (pg_app s4) = delete me (t_recs (pg_app s2)) ∧
    pthread_join me s4 = Fault.
Proof.
  intros me. destruct Hkeep as [Hcur Hrec]. pose proof (io_inv _ _ _ _ Hheap) as Happ. fold me in Hcur, Hrec, Hme.
  set (s2' := set_th (set_recs (<[me := Some v]> (t_recs (pg_app s2))) (pg_app s2)) s2).
  assert (∃ r, call_thread fn arg (in_thread s0) = Ret r (match r with inl _ => s2 | inr _ => s2' end) ∧
               (r = inl v ∨ r = inr tt)) as (r & Er & Hr).
  { destruct Hfn as [-> | ->]; rewrite (bind_run _ _ _ _ _ Hbody).
    - exists (inl v). split; [done|by left].
    - exists (inr tt). split; [|by right]. unfold pthread_exit. rewrite (bind_run _ _ _ _ _ (th_get s2)), Hcur.
      by rewrite (bind_run _ _ _ _ _ (rec_store_run me v s2 Hrec)). }
  set (s3 := set_th (set_cur (t_cur (pg_app s)) (pg_app s2')) s2').
  assert (t_recs (pg_app s3) !! me = Some (Some v)) as H3 by (apply lookup_insert_eq).
  assert (∀ s', pthread_join me s' = (v <- rec_load me ;; rec_free me ;; ret (0, Some v)) s') as Hj.
  { intros s'. unfold pthread_join. by replace (me =? 1) with false by lia. }
  exists s3, (set_th (set_recs (delete me (t_recs (pg_app s3))) (pg_app s3)) s3).
  split_and!; [| |done| | |].
  - unfold pthread_create. rewrite (bind_run _ _ _ _ _ Hheap). cbn [negb].
    rewrite (bind_run _ _ _ _ _ (th_get s0)). cbn zeta. rewrite Happ. fold me.
    rewrite (bind_run _ _ _ _ _ (th_put _ s0)).
    assert (set_th (set_cur (Some me) (set_next (me + 16) (set_recs (<[me := None]> (t_recs (pg_app s))) (pg_app s)))) s0
      = in_thread s0) as -> by (unfold in_thread; by rewrite Happ).
    rewrite (bind_run _ _ _ _ _ Er). destruct Hr as [-> | ->].
    + by rewrite (bind_run _ _ _ _ _ (rec_store_run me v s2 Hrec)).
    + done.
  - unfold pthread_self. rewrite (bind_run _ _ _ _ _ (th_get (in_thread s0))). unfold in_thread. simpl. by rewrite Happ.
  - rewrite Hj. unfold rec_load, rec_free. rewrite bind_assoc, (bind_run _ _ _ _ _ (th_get s3)), H3.
    cbn. rewrite bind_assoc, (bind_run _ _ _ _ _ (th_get s3)), H3. done.
  - cbn. by rewrite delete_insert_eq.
  - rewrite Hj. unfold rec_load. rewrite bind_assoc, (bind_run _ _ _ _ _ (th_get _)). cbn. by rewrite lookup_delete_eq.
Qed.

End create.

Section detach.
Context {K A : Type} `{!Kernel K}.
Abbreviation G := (prog K (threads A)).
Context (call_thread : Z → Z → M G (Z + unit)).
Implicit Types (s : G).

(** A thread that detaches itself and returns: pthread_create then stores the
    result in the freed record. *)
Lemma detach_self_faults fn arg v s s0 : io (heap 8) s = Ret true s0 → t_next (pg_app s) ≠ 1 →
  call_thread fn arg = (t <- pthread_self ;; _ <- pthread_detach t ;; ret (inl v)) →
  pthread_create call_thread fn arg s = Fault.
Proof.
  intros Hheap Hme Hfn. pose proof (io_inv _ _ _ _ Hheap) as Happ.
  unfold pthread_create. rewrite (bind_run _ _ _ _ _ Hheap). cbn [negb].
  rewrite (bind_run _ _ _ _ _ (th_get s0)). cbn zeta. rewrite (bind_run _ _ _ _ _ (th_put _ s0)), Hfn, Happ.
  set (me := t_next (pg_app s)) in *. set (s1 := set_th _ s0).
  assert (t_recs (pg_app s1) !! me = Some None) as H1 by (apply lookup_insert_eq).
  set (s2 := set_th (set_recs (delete me (t_recs (pg_app s1))) (pg_app s1)) s1).
  rewrite (bind_run _ _ (inl v) _ s2).
  2:{ unfold pthread_self. rewrite bind_assoc, (bind_run _ _ _ _ _ (th_get s1)), bind_ret. cbn [t_cur s1 set_th pg_app set_cur default from_option id].
      unfold pthread_detach. replace (negb (me =? 1)) with true by lia. cbn iota.
      rewrite bind_assoc. unfold rec_free. rewrite bind_assoc, (bind_run _ _ _ _ _ (th_get s1)), H1. done. }
  unfold rec_store. rewrite bind_assoc, (bind_run _ _ _ _ _ (th_get s2)). cbn. by rewrite lookup_delete_eq.
Qed.

End detach.

Section mutexes.
Context {K A : Type} `{!Kernel K}.
Abbreviation G := (prog K (threads A)).
Implicit Types (s : G).

Lemma mutex_load_run m v s : t_mutex (pg_app s) !! m = Some v → mutex_load m s = Ret v s.
Proof. intros H. unfold mutex_load. by rewrite (bind_run _ _ _ _ _ (th_get s)), H. Qed.

(** The state with one mutex changed. *)
Definition with_mutex (m : Z) (v : mutex) s : G := set_th (set_mutexes (<[m := v]> (t_mutex (pg_app s))) (pg_app s)) s.

(** Is the mutex taken, for a caller that asks again? *)
Definition taken (v : mutex) : bool := negb (m_count v =? 0) && negb (m_type v =? PTHREAD_MUTEX_RECURSIVE).

Lemma mutex_enter_run m v s : 0 ≤ m_count v < INT_MAX →
  mutex_enter m v s = Ret 0 (with_mutex m (Mutex (m_count v + 1) (m_type v)) s).
Proof.
  intros H. unfold mutex_enter, int_ok. rewrite decide_True by (unfold INT_MIN, INT_MAX in *; lia). done.
Qed.

End mutexes.

Section mutex_spec.
Context {K A : Type} `{!Kernel K}.
Abbreviation G := (prog K (threads A)).
Context (junk : bytes) (fmt_fp : va_slot → Z → Z → Z → Z → bytes).
Implicit Types (s : G).

(** C37: a mutex excludes: while it is taken, pthread_mutex_trylock says EBUSY and
    pthread_mutex_lock EDEADLK (an error-checking mutex) or never returns (a
    normal one), and neither changes anything; a free or a recursive one they
    enter, one level deeper; pthread_mutex_unlock leaves one level, and says EPERM
    exactly when the mutex is free, and pthread_mutex_destroy EBUSY exactly when it
    is not; an unlock undoes a lock. *)
Theorem mutex_correct m v s (Hm : t_mutex (pg_app s) !! m = Some v) (Hc : 0 ≤ m_count v < INT_MAX) :
  let locked := with_mutex m (Mutex (m_count v + 1) (m_type v)) s in
  pthread_mutex_trylock m s = (if taken v then Ret EBUSY s else Ret 0 locked) ∧
  (taken v = false → pthread_mutex_lock junk fmt_fp m s = Ret 0 locked) ∧
  (taken v = true → m_type v = PTHREAD_MUTEX_ERRORCHECK → pthread_mutex_lock junk fmt_fp m s = Ret EDEADLK s) ∧
  (taken v = true → m_type v ≠ PTHREAD_MUTEX_ERRORCHECK → ∀ r s', pthread_mutex_lock junk fmt_fp m s ≠ Ret r s') ∧
  pthread_mutex_unlock m s =
    (if m_count v =? 0 then Ret EPERM s else Ret 0 (with_mutex m (Mutex (m_count v - 1) (m_type v)) s)) ∧
  pthread_mutex_unlock m locked = Ret 0 s ∧
  pthread_mutex_destroy m s = Ret (if m_count v =? 0 then 0 else EBUSY) s.
Proof.
  intros locked. split_and!.
  - unfold pthread_mutex_trylock. rewrite (bind_run _ _ _ _ _ (mutex_load_run m v s Hm)). fold (taken v).
    destruct (taken v); [done|]. by apply mutex_enter_run.
  - intros Ht. unfold pthread_mutex_lock. rewrite (bind_run _ _ _ _ _ (mutex_load_run m v s Hm)). fold (taken v).
    rewrite Ht. by apply mutex_enter_run.
  - intros Ht Ety. unfold pthread_mutex_lock. rewrite (bind_run _ _ _ _ _ (mutex_load_run m v s Hm)). fold (taken v).
    by rewrite Ht, Ety.
  - intros Ht Hty r s' E. unfold pthread_mutex_lock in E. rewrite (bind_run _ _ _ _ _ (mutex_load_run m v s Hm)) in E.
    fold (taken v) in E. rewrite Ht in E. destruct (Z.eqb_spec (m_type v) PTHREAD_MUTEX_ERRORCHECK); [done|].
    apply bind_Ret_inv in E as (u & s1 & E & _). unfold deadlock in E. by apply bind_Ret_inv in E as (r' & s2 & _ & E).
  - unfold pthread_mutex_unlock. rewrite (bind_run _ _ _ _ _ (mutex_load_run m v s Hm)).
    destruct (Z.eqb_spec (m_count v) 0); [done|]. unfold int_ok, INT_MIN, INT_MAX in *. by rewrite decide_True by lia.
  - unfold pthread_mutex_unlock.
    rewrite (bind_run _ _ _ _ _ (mutex_load_run m (Mutex (m_count v + 1) (m_type v)) locked ltac:(apply lookup_insert_eq))).
    cbn [m_count m_type]. replace (m_count v + 1 =? 0) with false by lia.
    unfold int_ok, INT_MIN, INT_MAX in *. rewrite decide_True, bind_ret by lia. rewrite Z.add_simpl_r.
    destruct v as [c ty]. cbn [m_count m_type]. subst locked. unfold mutex_store, th, zoom, modify, bind, with_mutex.
    destruct s as [i f t]. destruct t. cbn in *. rewrite insert_insert_eq, insert_id by done. done.
  - unfold pthread_mutex_destroy. rewrite (bind_run _ _ _ _ _ (mutex_load_run m v s Hm)).
    by destruct (m_count v =? 0).
Qed.

End mutex_spec.

Section once.
Context {K A : Type} `{!Kernel K}.
Abbreviation G := (prog K (threads A)).
Context (call_once : Z → M G unit).
Implicit Types (s : G).

(** Pthread_once runs its function exactly once: the first call runs it, on
    the control already marked, so that a call from inside the function returns at
    once; every later call does nothing. *)
Theorem once_exactly_once o fn s s2
  (Ho : t_once (pg_app s) !! o = Some PTHREAD_ONCE_INIT)
  (Hfn : call_once fn (set_th (set_onces (<[o := 1]> (t_once (pg_app s))) (pg_app s)) s) = Ret tt s2)
  (Hkeep : t_once (pg_app s2) !! o = Some 1) :
  pthread_once call_once o fn s = Ret 0 s2 ∧
  (∀ fn', pthread_once call_once o fn' s2 = Ret 0 s2) ∧
  (let s1 := set_th (set_onces (<[o := 1]> (t_once (pg_app s))) (pg_app s)) s in
   ∀ fn', pthread_once call_once o fn' s1 = Ret 0 s1).
Proof.
  assert (∀ s fn', t_once (pg_app s) !! o = Some 1 → pthread_once call_once o fn' s = Ret 0 s) as Hd.
  { intros s' fn' E. unfold pthread_once. by rewrite (bind_run _ _ _ _ _ (th_get s')), E. }
  split; [|split; [intros fn'; by apply Hd|]].
  - unfold pthread_once. rewrite (bind_run _ _ _ _ _ (th_get s)), Ho.
    unfold of_option. rewrite bind_ret. change (PTHREAD_ONCE_INIT =? PTHREAD_ONCE_INIT) with true. cbn iota.
    rewrite bind_assoc, (bind_run _ _ _ _ _ (th_put _ s)). by rewrite (bind_run _ _ _ _ _ Hfn).
  - intros s1 fn'. apply Hd. apply lookup_insert_eq.
Qed.

End once.

Section timed.
Context {K A : Type} `{!Kernel K}.
Abbreviation G := (prog K (threads A)).
Implicit Types (s : G).

(** A deadline more than 292 years ahead, such as the largest time_t. *)
Lemma timedwait_overflows (abstime now : timespec) s s' :
  io (px (clock_gettime CLOCK_REALTIME)) s = Ret (Some now) s' →
  LLONG_MIN ≤ tv_sec abstime - tv_sec now ≤ LLONG_MAX → 9223372037 ≤ tv_sec abstime - tv_sec now →
  pthread_cond_timedwait (A := A) abstime s = Fault.
Proof.
  intros E H1 H2. unfold pthread_cond_timedwait. rewrite (bind_run _ _ _ _ _ E). unfold of_option. rewrite bind_ret.
  unfold llong_ok at 1. rewrite decide_True, bind_ret by done. unfold llong_ok at 1.
  by rewrite decide_False by (unfold LLONG_MIN, LLONG_MAX; lia).
Qed.
End timed.

(** ** Witnesses *)

Definition prog0 : prog ram (threads Z) := Prog (stdio_start (posix_start ram0)) [] (threads_start 0).

Lemma pthread_keys_refine_witness :
  ∃ s', run_calls run_key_call [KCreate; KCreate; KSet 0 7; KDelete 1; KGet 0; KCreate; KSet 5 1; KGet 1] prog0
    = Ret [(0, Some 0); (0, Some 1); (0, None); (0, None); (0, Some 7); (0, Some 1); (EINVAL, None); (0, Some 0)] s' ∧
    keys_abs s' = (spec_calls key_spec [KCreate; KCreate; KSet 0 7; KDelete 1; KGet 0; KCreate; KSet 5 1; KGet 1]
      (keys_abs prog0)).2 ∧ keys_ok s'.
Proof.
  apply (pthread_keys_refine [KCreate; KCreate; KSet 0 7; KDelete 1; KGet 0; KCreate; KSet 5 1; KGet 1] prog0).
  by split.
Defined.

(** A thread that leaves through pthread_exit. *)
Definition ex_thread (fn arg : Z) : M (prog ram (threads Z)) (Z + unit) :=
  (ret tt ;; pthread_exit [] (λ _ _, ret tt) [] 42).

Lemma create_join_correct_witness :
  ∃ s3 s4, pthread_create ex_thread 4096 0 prog0 = Ret (0, Some 65536) s3 ∧
    pthread_self (in_thread prog0) = Ret 65536 (in_thread prog0) ∧
    t_cur (pg_app s3) = t_cur (pg_app prog0) ∧
    pthread_join 65536 s3 = Ret (0, Some 42) s4 ∧
    t_recs (pg_app s4) = delete 65536 (t_recs (pg_app (in_thread prog0))) ∧
    pthread_join 65536 s4 = Fault.
Proof.
  apply (create_join_correct [] (λ _ _, ret tt) ex_thread [] 4096 0 (ret tt) 42 prog0 prog0 (in_thread prog0));
    [reflexivity|discriminate|right; reflexivity|reflexivity|].
  split; [reflexivity|]. by exists None.
Defined.

Definition ex_mutex : prog ram (threads Z) := with_mutex 4096 (Mutex 1 PTHREAD_MUTEX_ERRORCHECK) prog0.

Lemma mutex_correct_witness :
  pthread_mutex_lock [] (λ _ _ _ _ _, []) 4096 ex_mutex = Ret EDEADLK ex_mutex ∧
  pthread_mutex_unlock 4096 (with_mutex 4096 (Mutex 2 PTHREAD_MUTEX_ERRORCHECK) ex_mutex) = Ret 0 ex_mutex.
Proof.
  pose proof (mutex_correct [] (λ _ _ _ _ _, []) 4096 (Mutex 1 PTHREAD_MUTEX_ERRORCHECK) ex_mutex
    (lookup_insert_eq _ _ _) ltac:(by split)) as H.
  split; [by apply (proj1 (proj2 (proj2 H)))|by apply H].
Defined.

(** A once-function that counts its runs, and calls pthread_once on its own control. *)
Definition ex_once (fn : Z) : M (prog ram (threads Z)) unit :=
  modify (λ s, set_th (Threads (t_recs (pg_app s)) (t_next (pg_app s)) (t_cur (pg_app s)) (t_mutex (pg_app s))
    (t_once (pg_app s)) (t_used (pg_app s)) (t_value (pg_app s)) (t_app (pg_app s) + 1)) s).
Definition ex_control : prog ram (threads Z) := set_th (set_onces {[8192 := PTHREAD_ONCE_INIT]} (pg_app prog0)) prog0.

Lemma once_exactly_once_witness :
  match pthread_once ex_once 8192 4096 ex_control with Ret r s => (r, t_app (pg_app s)) | _ => (-1, -1) end = (0, 1) ∧
  ∃ s2, pthread_once ex_once 8192 4096 ex_control = Ret 0 s2 ∧ pthread_once ex_once 8192 4096 s2 = Ret 0 s2.
Proof.
  split; [vm_compute; reflexivity|]. eexists.
  destruct (once_exactly_once ex_once 8192 4096 ex_control
    (match ex_once 4096 (set_th (set_onces (<[8192 := 1]> (t_once (pg_app ex_control))) (pg_app ex_control)) ex_control) with
     | Ret _ s => s | _ => prog0 end)) as (H1 & H2 & _); [reflexivity|reflexivity|reflexivity|].
  split; [exact H1|apply H2].
Defined.
