(* ===== verification/Stubs.v ===== *)
(** assert, and the calls that have nothing behind them:
    src/lib/racccoon-libc/src/assert.c, dlfcn.c, rc_glob_popen.c. *)
From S2P Require Import Prelude CMonad CMemory CBuffer Kernel RcFs RcFd RcPosix Printf Start.

(** ** assert.c *)
Section assert.
Context {K : Type} `{!Kernel K} (junk : bytes).
Abbreviation P := (posix K).

Definition STDERR_FILENO : Z := 2.
Definition w (s : bytes) : M P unit := _ <- write junk STDERR_FILENO s (zlen s) ;; ret tt.

Definition wnum (v : Z) : M P unit :=
  u <- (if v <? 0 then w (str "-") ;; n <- int_ok (- v) ;; ret (u32 n) else ret (u32 v)) ;;
  if u =? 0 then w (str "0")
  else
    b <- loop (λ '(u, b),
      if u =? 0 then ret (Break b)
      else b <- push_front 12 b (48 + u mod 10) ;; ret (Continue (u / 10, b))) (u, []) ;;
    _ <- write junk STDERR_FILENO b (zlen b) ;; ret tt.

Definition __libc_assert_fail (expr file : bytes) (line : Z) (func : bytes) : M P unit :=
  w file ;; w (str ":") ;; wnum line ;; w (str ": ") ;; w func ;;
  w (str ": assertion failed: ") ;; w expr ;; w [10] ;;
  halt 134.

(** The macro, with and without NDEBUG; [x] is the condition's computation. *)
Definition assert (ndebug : bool) (x : M P bool) (text file : bytes) (line : Z) (func : bytes) : M P unit :=
  if ndebug then ret tt
  else v <- x ;; if v : bool then ret tt else __libc_assert_fail text file line func.
End assert.

(** ** dlfcn.c: on the pending error message *)

(** The handle of the program itself. *)
Inductive dl_handle := self_handle.
Definition dlopen (file : option bytes) (mode : Z) : M (option bytes) (option dl_handle) :=
  match file with
  | None => ret (Some self_handle)
  | Some _ => put (Some (str "dlopen: dynamic loading is not supported on racccoon")) ;; ret None
  end.
(** NULL *)
Definition dlsym (handle : option dl_handle) (name : bytes) : M (option bytes) (option Z) :=
  put (Some (str "dlsym: no dynamic symbol table (statically linked)")) ;; ret None.
Definition dlclose (handle : option dl_handle) : Z := 0.
Definition dlerror : M (option bytes) (option bytes) := e <- get ;; put None ;; ret e.
Definition dladdr (addr : Z) : Z := 0.

(** ** rc_glob_popen.c *)

Definition GLOB_NOMATCH : Z := 1.
Record glob_t := Glob { gl_pathc : Z; gl_pathv : list bytes; gl_offs : Z }.
(** The result, and [*g]. *)
Definition glob (p : bytes) (g : option glob_t) : Z * option glob_t :=
  (GLOB_NOMATCH, match g with Some _ => Some (Glob 0 [] 0) | None => None end).
Definition globfree {S} (g : glob_t) : M S unit := ret tt.
Definition popen (cmd mode : bytes) : option Z := None.
Definition pclose (f : Z) : Z := -1.
