(* ===== verification/Fenv.v ===== *)
(** <fenv.h>: src/lib/racccoon-libc/src/fenv.c.

    The state is the thread's fcsr, 8 bits: the accrued exceptions fflags in bits
    0 to 4, the rounding mode frm in bits 5 to 7.  The instructions in the asm
    statements are those of the RISC-V F extension. *)
From S2P Require Import Prelude CMonad.

Definition FE_INEXACT : Z := 1.
Definition FE_UNDERFLOW : Z := 2.
Definition FE_OVERFLOW : Z := 4.
Definition FE_DIVBYZERO : Z := 8.
Definition FE_INVALID : Z := 16.
Definition FE_ALL_EXCEPT : Z := 31.
Definition FE_TONEAREST : Z := 0.
Definition FE_UPWARD : Z := 3.

(** csrc and csrs on fflags, frflags, frrm, fsrm, frcsr, fscsr *)
Definition csrc_fflags (x : Z) : M Z unit := modify (λ f, Z.ldiff f (Z.land x 31)).
Definition csrs_fflags (x : Z) : M Z unit := modify (λ f, Z.lor f (Z.land x 31)).
Definition frflags : M Z Z := gets (λ f, Z.land f 31).
Definition frrm : M Z Z := gets (λ f, Z.land (Z.shiftr f 5) 7).
Definition fsrm (r : Z) : M Z unit := modify (λ f, Z.lor (Z.land f 31) (Z.shiftl (Z.land r 7) 5)).
Definition frcsr : M Z Z := gets (λ f, Z.land f 255).
Definition fscsr (v : Z) : M Z unit := put (Z.land v 255).

Definition feclearexcept (e : Z) : M Z Z := csrc_fflags (Z.land e FE_ALL_EXCEPT) ;; ret 0.
Definition feraiseexcept (e : Z) : M Z Z := csrs_fflags (Z.land e FE_ALL_EXCEPT) ;; ret 0.
Definition fetestexcept (e : Z) : M Z Z := f <- frflags ;; ret (Z.land (Z.land f e) FE_ALL_EXCEPT).
(** The result, and [*p]. *)
Definition fegetexceptflag (e : Z) : M Z (Z * Z) := f <- fetestexcept e ;; ret (0, f).
Definition fesetexceptflag (p e : Z) : M Z Z :=
  _ <- feclearexcept e ;; _ <- feraiseexcept (Z.land p e) ;; ret 0.
Definition fegetround : M Z Z := frrm.
Definition fesetround (r : Z) : M Z Z :=
  if (r <? FE_TONEAREST) || (FE_UPWARD <? r) then ret (-1) else fsrm r ;; ret 0.
Definition fegetenv : M Z (Z * Z) := v <- frcsr ;; ret (0, v).
(** [None] is FE_DFL_ENV. *)
Definition fesetenv (env : option Z) : M Z Z := fscsr (default 0 env) ;; ret 0.
Definition feholdexcept : M Z (Z * Z) :=
  let* (_, env) := fegetenv in _ <- feclearexcept FE_ALL_EXCEPT ;; ret (0, env).
Definition feupdateenv (env : option Z) : M Z Z :=
  raised <- fetestexcept FE_ALL_EXCEPT ;; _ <- fesetenv env ;; _ <- feraiseexcept raised ;; ret 0.

(** The register's two fields. *)
Definition fcsr_of (flags rm : Z) : Z := flags + 32 * rm.

(** The fields of a register, checked on all 256 values. *)
Definition all_fcsr (P : Z → Z → bool) : bool :=
  forallb (λ fl, forallb (λ rm, P (Z.of_nat fl) (Z.of_nat rm)) (seq 0 8)) (seq 0 32).
Lemma all_fcsr_spec P : all_fcsr P = true → ∀ fl rm, 0 ≤ fl < 32 → 0 ≤ rm < 8 → P fl rm = true.
Proof.
  unfold all_fcsr. rewrite forallb_forall. intros H fl rm Hf Hr.
  assert (In (Z.to_nat fl) (seq 0 32)) as H1 by (apply in_seq; lia).
  apply H in H1. rewrite forallb_forall in H1. assert (In (Z.to_nat rm) (seq 0 8)) as H2 by (apply in_seq; lia).
  apply H1 in H2. by rewrite !Z2Nat.id in H2 by lia.
Qed.

Ltac fcsr_cases H1 H2 :=
  apply Z.eqb_eq;
  lazymatch type of H1 with 0 ≤ ?fl < 32 =>
  lazymatch type of H2 with 0 ≤ ?rm < 8 =>
    pattern fl, rm; lazymatch goal with |- ?P fl rm =>
      lazymatch P with λ a b, @?Q a b = true => exact (all_fcsr_spec Q ltac:(vm_compute; reflexivity) fl rm H1 H2) end end end end.

Lemma fcsr_flags fl rm : 0 ≤ fl < 32 → 0 ≤ rm < 8 → Z.land (fcsr_of fl rm) 31 = fl.
Proof. intros H1 H2. fcsr_cases H1 H2. Qed.
Lemma fcsr_round fl rm : 0 ≤ fl < 32 → 0 ≤ rm < 8 → Z.land (Z.shiftr (fcsr_of fl rm) 5) 7 = rm.
Proof. intros H1 H2. fcsr_cases H1 H2. Qed.
Lemma fcsr_whole fl rm : 0 ≤ fl < 32 → 0 ≤ rm < 8 → Z.land (fcsr_of fl rm) 255 = fcsr_of fl rm.
Proof. intros H1 H2. fcsr_cases H1 H2. Qed.
Lemma fcsr_cleared fl rm : 0 ≤ fl < 32 → 0 ≤ rm < 8 → Z.ldiff (fcsr_of fl rm) 31 = fcsr_of 0 rm.
Proof. intros H1 H2. fcsr_cases H1 H2. Qed.

(** Code between feholdexcept and feupdateenv is non-stop and leaves no trace but
    its exceptions: the exceptions pending before are put aside and the flags
    clear; after it, whatever flags it raised and whatever rounding mode it set,
    the old rounding mode is back and both sets of flags are pending. *)
Theorem hold_update_correct fl rm fl' rm' :
  0 ≤ fl < 32 → 0 ≤ rm < 8 → 0 ≤ fl' < 32 → 0 ≤ rm' < 8 →
  feholdexcept (fcsr_of fl rm) = Ret (0, fcsr_of fl rm) (fcsr_of 0 rm) ∧
  feupdateenv (Some (fcsr_of fl rm)) (fcsr_of fl' rm') = Ret 0 (Z.lor (fcsr_of fl rm) fl') ∧
  fegetround (fcsr_of fl rm) = Ret rm (fcsr_of fl rm).
Proof.
  intros H1 H2 H3 H4. split_and!.
  - unfold feholdexcept, fegetenv, frcsr, feclearexcept, csrc_fflags, gets, modify, bind, ret.
    rewrite fcsr_whole by done. do 2 f_equal. by apply fcsr_cleared.
  - unfold feupdateenv, fetestexcept, fesetenv, feraiseexcept, frflags, fscsr, csrs_fflags, gets, put, modify, bind, ret.
    cbn [default from_option id]. rewrite fcsr_flags, fcsr_whole by done. f_equal. f_equal.
    unfold FE_ALL_EXCEPT. change 31 with (Z.ones 5). rewrite !Z.land_ones by lia. change (2 ^ 5) with 32.
    by rewrite !(Z.mod_small fl') by lia.
  - unfold fegetround, frrm, gets. by rewrite fcsr_round.
Qed.
