(* ===== verification/MathH.v ===== *)
(** <math.h>: the classification and comparison macros of
    src/lib/racccoon-libc/include/math.h.

    The argument of a macro is its representation, the bits [__FLOAT_BITS] and
    [__DOUBLE_BITS] read; [value] is the number they stand for.  musl's
    [__fpclassifyl] and [__signbitl], which the macros call on long double, are
    parameters; what is proved is about float and double, where the macros test
    the bits themselves. *)
From S2P Require Import Prelude Ieee.

(** The three sizes the macros tell apart. *)
Inductive fp_type := FLOAT | DOUBLE | LDOUBLE.
Definition prec_of (t : fp_type) : Z :=
  match t with FLOAT => FLT_MANT_DIG | DOUBLE => DBL_MANT_DIG | LDOUBLE => LDBL_MANT_DIG end.
Definition emax_of (t : fp_type) : Z :=
  match t with FLOAT => FLT_MAX_EXP | DOUBLE => DBL_MAX_EXP | LDOUBLE => LDBL_MAX_EXP end.
Definition value (t : fp_type) (x : Z) : spec_float := of_bits (prec_of t) (emax_of t) x.

Definition FP_NAN : Z := 0.
Definition FP_INFINITE : Z := 1.
Definition FP_ZERO : Z := 2.
Definition FP_SUBNORMAL : Z := 3.
Definition FP_NORMAL : Z := 4.

(** [-1ULL>>1] *)
Definition MAG64 : Z := Z.shiftr 18446744073709551615 1.

Section macros.
Context (fpclassifyl signbitl : Z → Z).

Definition isinf (t : fp_type) (x : Z) : bool :=
  match t with
  | FLOAT => Z.land x 0x7fffffff =? 0x7f800000
  | DOUBLE => Z.land x MAG64 =? Z.shiftl 0x7ff 52
  | LDOUBLE => fpclassifyl x =? FP_INFINITE
  end.
Definition isnan (t : fp_type) (x : Z) : bool :=
  match t with
  | FLOAT => 0x7f800000 <? Z.land x 0x7fffffff
  | DOUBLE => Z.shiftl 0x7ff 52 <? Z.land x MAG64
  | LDOUBLE => fpclassifyl x =? FP_NAN
  end.
Definition isnormal (t : fp_type) (x : Z) : bool :=
  match t with
  | FLOAT => 0x01000000 <=? Z.land (u32 (x + 0x00800000)) 0x7fffffff
  | DOUBLE => Z.shiftl 1 53 <=? Z.land (u64 (x + Z.shiftl 1 52)) MAG64
  | LDOUBLE => fpclassifyl x =? FP_NORMAL
  end.
Definition isfinite (t : fp_type) (x : Z) : bool :=
  match t with
  | FLOAT => Z.land x 0x7fffffff <? 0x7f800000
  | DOUBLE => Z.land x MAG64 <? Z.shiftl 0x7ff 52
  | LDOUBLE => FP_INFINITE <? fpclassifyl x
  end.
Definition signbit (t : fp_type) (x : Z) : Z :=
  match t with
  | FLOAT => Z.shiftr x 31
  | DOUBLE => Z.shiftr x 63
  | LDOUBLE => signbitl x
  end.

Definition isunordered (t : fp_type) (x y : Z) : bool := if isnan t x then true else isnan t y.

(** [__ISREL_DEF(rel, op, type)]; [op] is C's operator on the numbers. *)
Definition ISREL_DEF (op : spec_float → spec_float → bool) (t : fp_type) (x y : Z) : bool :=
  negb (isunordered t x y) && op (value t x) (value t y).
Definition isless : fp_type → Z → Z → bool := ISREL_DEF SFltb.
Definition islessequal : fp_type → Z → Z → bool := ISREL_DEF SFleb.
Definition islessgreater : fp_type → Z → Z → bool := ISREL_DEF (λ x y, negb (SFeqb x y)).
Definition isgreater : fp_type → Z → Z → bool := ISREL_DEF (λ x y, SFltb y x).
Definition isgreaterequal : fp_type → Z → Z → bool := ISREL_DEF (λ x y, SFleb y x).
End macros.

(** * The numbers behind the bits *)

(** Exponent field, fraction field and sign of a representation. *)
Lemma value_float x : 0 ≤ x < 4294967296 → ∃ ex fr,
  x = (if Z.testbit x 31 then 2147483648 else 0) + ex * 8388608 + fr ∧ 0 ≤ fr < 8388608 ∧ 0 ≤ ex < 256 ∧
  value FLOAT x = if ex =? 255 then if fr =? 0 then S754_infinity (Z.testbit x 31) else S754_nan
    else if ex =? 0 then match fr with Zpos m => S754_finite (Z.testbit x 31) m (-149) | _ => S754_zero (Z.testbit x 31) end
    else match fr + 8388608 with Zpos m => S754_finite (Z.testbit x 31) m (ex - 150) | _ => S754_nan end.
Proof.
  intros Hx. exists (x / 8388608 mod 256), (x mod 8388608).
  assert ((if Z.testbit x 31 then 2147483648 else 0) = 2147483648 * (x / 2147483648)) as E.
  { rewrite Z.testbit_eqb by lia. change (2 ^ 31) with 2147483648. destruct (Z.eqb_spec (x / 2147483648 mod 2) 1); lia. }
  split_and!; [rewrite E; lia|lia..|].
  unfold value, of_bits. cbn [prec_of emax_of]. unfold FLT_MANT_DIG, FLT_MAX_EXP.
  change (24 - 1 + Z.log2 (2 * 128)) with 31. change (Z.shiftl 1 (24 - 1)) with 8388608.
  change (2 * 128) with 256. rewrite Z.shiftr_div_pow2 by lia. change (2 ^ (24 - 1)) with 8388608.
  change (256 - 1) with 255. change (3 - 128 - 24) with (-149).
  replace (x / 8388608 mod 256 - 24 - 128 + 2) with (x / 8388608 mod 256 - 150) by lia. done.
Qed.

Lemma value_double x : 0 ≤ x < 18446744073709551616 → ∃ ex fr,
  x = (if Z.testbit x 63 then 9223372036854775808 else 0) + ex * 4503599627370496 + fr ∧
  0 ≤ fr < 4503599627370496 ∧ 0 ≤ ex < 2048 ∧
  value DOUBLE x = if ex =? 2047 then if fr =? 0 then S754_infinity (Z.testbit x 63) else S754_nan
    else if ex =? 0 then match fr with Zpos m => S754_finite (Z.testbit x 63) m (-1074) | _ => S754_zero (Z.testbit x 63) end
    else match fr + 4503599627370496 with Zpos m => S754_finite (Z.testbit x 63) m (ex - 1075) | _ => S754_nan end.
Proof.
  intros Hx. exists (x / 4503599627370496 mod 2048), (x mod 4503599627370496).
  assert ((if Z.testbit x 63 then 9223372036854775808 else 0) = 9223372036854775808 * (x / 9223372036854775808)) as E.
  { rewrite Z.testbit_eqb by lia. change (2 ^ 63) with 9223372036854775808.
    destruct (Z.eqb_spec (x / 9223372036854775808 mod 2) 1); lia. }
  split_and!; [rewrite E; lia|lia..|].
  unfold value, of_bits. cbn [prec_of emax_of]. unfold DBL_MANT_DIG, DBL_MAX_EXP.
  change (53 - 1 + Z.log2 (2 * 1024)) with 63. change (Z.shiftl 1 (53 - 1)) with 4503599627370496.
  change (2 * 1024) with 2048. rewrite Z.shiftr_div_pow2 by lia. change (2 ^ (53 - 1)) with 4503599627370496.
  change (2048 - 1) with 2047. change (3 - 1024 - 53) with (-1074).
  replace (x / 4503599627370496 mod 2048 - 53 - 1024 + 2) with (x / 4503599627370496 mod 2048 - 1075) by lia. done.
Qed.

(** ** What the macros tell of a number *)

(** The classes of <math.h>; a number is normal when its significand has all
    the format's bits. *)
Definition is_nan (x : spec_float) : bool := match x with S754_nan => true | _ => false end.
Definition is_inf (x : spec_float) : bool := match x with S754_infinity _ => true | _ => false end.
Definition is_normal (prec : Z) (x : spec_float) : bool :=
  match x with S754_finite _ m _ => 2 ^ (prec - 1) <=? Zpos m | _ => false end.

Definition width_of (t : fp_type) : Z := match t with FLOAT => 32 | DOUBLE => 64 | LDOUBLE => 128 end.

Section classes.
Context (fpclassifyl signbitl : Z → Z).

Lemma classes_float x : 0 ≤ x < 4294967296 →
  isnan fpclassifyl FLOAT x = is_nan (value FLOAT x) ∧ isinf fpclassifyl FLOAT x = is_inf (value FLOAT x) ∧
  isnormal fpclassifyl FLOAT x = is_normal 24 (value FLOAT x) ∧
  isfinite fpclassifyl FLOAT x = negb (is_nan (value FLOAT x) || is_inf (value FLOAT x)) ∧
  signbit signbitl FLOAT x = (if Z.testbit x 31 then 1 else 0) ∧
  (is_nan (value FLOAT x) = false → sign_of (value FLOAT x) = Z.testbit x 31).
Proof using.
  intros Hx. destruct (value_float x Hx) as (ex & fr & E & Hf & He & Hv). rewrite Hv. clear Hv.
  unfold isnan, isinf, isnormal, isfinite, signbit.
  rewrite !(Z.land_ones _ 31) by lia. change (2 ^ 31) with 2147483648.
  set (y := x mod 2147483648). set (z := u32 _ mod _). rewrite Z.shiftr_div_pow2 by lia.
  change (2 ^ 31) with 2147483648.
  assert (y = ex * 8388608 + fr ∧ z = (y + 8388608) mod 2147483648 ∧
    x / 2147483648 = if Z.testbit x 31 then 1 else 0) as (Hy & Hz & ->)
    by (subst y z; unfold u32; destruct (Z.testbit x 31); lia).
  clearbody y z. destruct (Z.eqb_spec ex 255); [|destruct (Z.eqb_spec ex 0)].
  - destruct (Z.eqb_spec fr 0); cbn; split_and!; try done; lia.
  - destruct fr as [|m|m]; [| |lia]; cbn [is_nan is_inf is_normal sign_of orb negb];
      [|change (2 ^ (24 - 1)) with 8388608]; split_and!; try done; lia.
  - destruct (fr + 8388608) as [|m|m] eqn:Em; [lia| |lia]. cbn [is_nan is_inf is_normal sign_of orb negb].
    change (2 ^ (24 - 1)) with 8388608. split_and!; try done; lia.
Qed.

Lemma classes_double x : 0 ≤ x < 18446744073709551616 →
  isnan fpclassifyl DOUBLE x = is_nan (value DOUBLE x) ∧ isinf fpclassifyl DOUBLE x = is_inf (value DOUBLE x) ∧
  isnormal fpclassifyl DOUBLE x = is_normal 53 (value DOUBLE x) ∧
  isfinite fpclassifyl DOUBLE x = negb (is_nan (value DOUBLE x) || is_inf (value DOUBLE x)) ∧
  signbit signbitl DOUBLE x = (if Z.testbit x 63 then 1 else 0) ∧
  (is_nan (value DOUBLE x) = false → sign_of (value DOUBLE x) = Z.testbit x 63).
Proof using.
  intros Hx. destruct (value_double x Hx) as (ex & fr & E & Hf & He & Hv). rewrite Hv. clear Hv.
  unfold isnan, isinf, isnormal, isfinite, signbit. change MAG64 with (Z.ones 63).
  rewrite !Z.land_ones by lia. change (2 ^ 63) with 9223372036854775808.
  change (Z.shiftl 0x7ff 52) with 9218868437227405312. change (Z.shiftl 1 52) with 4503599627370496.
  change (Z.shiftl 1 53) with 9007199254740992.
  set (y := x mod 9223372036854775808). set (z := u64 _ mod _). rewrite Z.shiftr_div_pow2 by lia.
  change (2 ^ 63) with 9223372036854775808.
  assert (y = ex * 4503599627370496 + fr ∧ z = (y + 4503599627370496) mod 9223372036854775808 ∧
    x / 9223372036854775808 = if Z.testbit x 63 then 1 else 0) as (Hy & Hz & ->)
    by (subst y z; unfold u64; destruct (Z.testbit x 63); lia).
  clearbody y z. destruct (Z.eqb_spec ex 2047); [|destruct (Z.eqb_spec ex 0)].
  - destruct (Z.eqb_spec fr 0); cbn; split_and!; try done; lia.
  - destruct fr as [|m|m]; [| |lia]; cbn [is_nan is_inf is_normal sign_of orb negb];
      [|change (2 ^ (53 - 1)) with 4503599627370496]; split_and!; try done; lia.
  - destruct (fr + 4503599627370496) as [|m|m] eqn:Em; [lia| |lia]. cbn [is_nan is_inf is_normal sign_of orb negb].
    change (2 ^ (53 - 1)) with 4503599627370496. split_and!; try done; lia.
Qed.
End classes.

(** ** Comparisons *)

Lemma SFcompare_swap x y : SFcompare y x = option_map CompOpp (SFcompare x y).
Proof.
  destruct x as [s|s| |s m e], y as [s'|s'| |s' m' e']; try (by destruct s); try (by destruct s'); try done.
  - by destruct s, s'.
  - unfold SFcompare. change (Pos.compare_cont Eq m' m) with (Pos.compare m' m).
    change (Pos.compare_cont Eq m m') with (Pos.compare m m').
    rewrite (Z.compare_antisym e e'), (Pos.compare_antisym m m').
    destruct s, s', (Z.compare e e'), (Pos.compare m m'); done.
Qed.

Lemma SFcompare_nan x y : SFcompare x y = None ↔ is_nan x = true ∨ is_nan y = true.
Proof.
  split.
  - destruct x as [s|s| |s m e], y as [s'|s'| |s' m' e']; cbn; auto; try done.
  - destruct x as [s|s| |s m e], y as [s'|s'| |s' m' e']; cbn; intros [?|?]; done.
Qed.

Definition in_bits (t : fp_type) (x : Z) : Prop := 0 ≤ x < 2 ^ width_of t.

(** The class and sign macros on every float and every double: [isnan],
    [isinf], [isnormal] and [isfinite] say what the number behind the bits is,
    with the wrap-around of the addition in [isnormal]; [signbit] is 1 exactly
    for a set sign bit, which is the number's sign when it is not a NaN. *)
Theorem classification_correct fpclassifyl signbitl t x (Ht : t ≠ LDOUBLE) (Hx : in_bits t x) :
  isnan fpclassifyl t x = is_nan (value t x) ∧
  isinf fpclassifyl t x = is_inf (value t x) ∧
  isnormal fpclassifyl t x = is_normal (prec_of t) (value t x) ∧
  isfinite fpclassifyl t x = negb (is_nan (value t x) || is_inf (value t x)) ∧
  signbit signbitl t x = (if Z.testbit x (width_of t - 1) then 1 else 0) ∧
  (is_nan (value t x) = false → sign_of (value t x) = Z.testbit x (width_of t - 1)).
Proof. destruct t; [by apply classes_float|by apply classes_double|done]. Qed.

Lemma classification_correct_witness :
  in_bits DOUBLE (Z.shiftl 0xfff 52 + 1) ∧
  isnan (λ _, 0) DOUBLE (Z.shiftl 0xfff 52 + 1) = is_nan (value DOUBLE (Z.shiftl 0xfff 52 + 1)).
Proof.
  assert (in_bits DOUBLE (Z.shiftl 0xfff 52 + 1)) as H by (split; vm_compute; done).
  split; [exact H|]. exact (proj1 (classification_correct (λ _, 0) (λ _, 0) DOUBLE _ ltac:(done) H)).
Defined.

(** The comparison macros on all pairs of floats and all pairs of doubles
    are the six IEEE relations: with the order of the numbers behind the bits,
    infinities and signed zeros included, isless, islessequal, islessgreater,
    isgreater and isgreaterequal hold exactly for the outcomes their names
    say, none of them when either argument is a NaN, which is exactly when
    isunordered holds. *)
Theorem comparison_macros_correct fpclassifyl t x y (Ht : t ≠ LDOUBLE) (Hx : in_bits t x) (Hy : in_bits t y) :
  let c := SFcompare (value t x) (value t y) in
  isless fpclassifyl t x y = bool_decide (c = Some Lt) ∧
  islessequal fpclassifyl t x y = bool_decide (c = Some Lt ∨ c = Some Eq) ∧
  islessgreater fpclassifyl t x y = bool_decide (c = Some Lt ∨ c = Some Gt) ∧
  isgreater fpclassifyl t x y = bool_decide (c = Some Gt) ∧
  isgreaterequal fpclassifyl t x y = bool_decide (c = Some Gt ∨ c = Some Eq) ∧
  isunordered fpclassifyl t x y = bool_decide (is_nan (value t x) = true ∨ is_nan (value t y) = true).
Proof.
  assert (∀ z, in_bits t z → isnan fpclassifyl t z = is_nan (value t z)) as Hnan.
  { intros z Hz. destruct t; [by apply (classes_float _ (λ _, 0))|by apply (classes_double _ (λ _, 0))|done]. }
  cbn zeta. unfold isless, islessequal, islessgreater, isgreater, isgreaterequal, ISREL_DEF, isunordered.
  rewrite (Hnan x Hx), (Hnan y Hy). unfold SFltb, SFleb, SFeqb.
  rewrite (SFcompare_swap (value t x) (value t y)).
  assert (is_nan (value t x) || is_nan (value t y) =
    match SFcompare (value t x) (value t y) with None => true | _ => false end) as Hc.
  { pose proof (SFcompare_nan (value t x) (value t y)) as Hn. apply eq_true_iff_eq. rewrite orb_true_iff, <- Hn.
    by destruct (SFcompare _ _). }
  by destruct (is_nan (value t x)), (is_nan (value t y)), (SFcompare (value t x) (value t y)) as [[]|].
Qed.

(** The smallest subnormal double is below a NaN's bits, and yet unordered with
    it; -0 is not less than +0. *)
Lemma comparison_macros_correct_witness :
  in_bits DOUBLE 1 ∧ in_bits DOUBLE (Z.shiftl 0x7ff8 48) ∧
  isless (λ _, 0) DOUBLE 1 (Z.shiftl 0x7ff8 48)
  = bool_decide (SFcompare (value DOUBLE 1) (value DOUBLE (Z.shiftl 0x7ff8 48)) = Some Lt).
Proof.
  assert (in_bits DOUBLE 1) as H1 by (split; vm_compute; done).
  assert (in_bits DOUBLE (Z.shiftl 0x7ff8 48)) as H2 by (split; vm_compute; done).
  split; [exact H1|]. split; [exact H2|].
  exact (proj1 (comparison_macros_correct (λ _, 0) DOUBLE _ _ ltac:(done) H1 H2)).
Defined.

Example comparison_examples :
  isless (λ _, 0) DOUBLE (Z.shiftl 1 63) 0 = false ∧ islessgreater (λ _, 0) DOUBLE (Z.shiftl 1 63) 0 = false ∧
  isunordered (λ _, 0) FLOAT 0x7fc00000 0 = true ∧ isgreater (λ _, 0) FLOAT 0x7f800000 0x7f7fffff = true.
Proof. by vm_compute. Qed.
